(* ===== verification/_CoqProject ===== *)
-Q . S2P
Prelude.v
Printf.v
Queue.v
Heap.v
Refcount.v
Alloc.v
Gc.v
Opcodes.v
Create.v
Stacks.v
Object.v
Counted.v
Frame.v
Code.v
Exec.v
Turn.v
Throw.v
Root.v
Syscall.v
SysSpec.v
Amap.v
Pager.v
PagerSpec.v
PagerInit.v
Snap.v
SnapInv.v
SnapOps.v
SnapSpec.v
Recovery.v
SnapLive.v
SnapSync.v
Timers.v
Threads.v
ThreadsInv.v
ThreadsOps.v
ThreadsSpec.v
