(* ===== verification/Prelude.v ===== *)
(** * Phantom OS: the persistent virtual machine and its kernel services

    Phantom is an operating system whose programs run in one virtual machine with
    one persistent object memory.  The sources are C; the development models them
    for ia32 and the configuration of [include/kernel/config.h], and proves what
    makes the parts correct.

    ** The program and the files

    The machine lives in [phantom/vm/].  Objects have a header with a reference
    count and a data area ([include/vm/object.h]); an allocator hands out blocks of
    five arenas ([alloc.c]); counting frees what is released and a mark/sweep
    collector the cycles ([gc.c]); threads of the machine run byte code ([exec.c],
    [code.c]) on paged stacks ([stacks.c]) and call classes that are written in C
    ([syscall.c], [syscall_sync.c]); the root object leads to everything after a
    restart ([root.c]).  The kernel below it provides threads ([phantom/threads/]),
    timed calls ([oldtree/kernel/phantom/timedcall.c]), queues ([include/queue.h])
    and a C library ([phantom/libc/]).  Persistence is below the machine: its memory is
    paged to a disk partition ([oldtree/kernel/phantom/vm_map.c], [pager.c]), and a
    snapshot thread writes a consistent image of it to disk all the time, with page
    lists ([pagelist.c]) and the release of old images ([fsck.c], [amap.c]); it stops
    the threads of the machine for a moment ([snap_sync.c], [vm_threads.c]).

    - [Prelude]: machine integers, arrays, the monad of computations and its
      predicates [wp] and [wpe], tactics.
    - [Printf]: [kvprintf], [snprintf], [strtol] ([subr_prf.c], [strtol.c], [atoi.c]).
    - [Queue]: the macros of [include/queue.h].
    - [Heap]: the memory of objects, their data areas, the table of classes
      ([object.h], [internal_da.h], [internal.c]).
    - [Refcount], [Alloc], [Gc]: [gc.c], [alloc.c].
    - [Opcodes], [Code], [Exec]: [ids/opcode_ids.h], [code.c], [exec.c].
    - [Create], [Frame], [Stacks], [Object], [Counted]: [create.c], [stacks.c],
      [object.c], [backtrace.c].
    - [Turn], [Throw]: what the interpreter does on integer code and on exceptions.
    - [Root]: [root.c]; [Syscall], [SysSpec]: [syscall.c], [syscall_sync.c].
    - [Amap]: [phantom/libkern/amap.c], [include/kernel/amap.h].
    - [Pager], [PagerSpec]: free disk pages, superblock, page lists, release of old
      snapshots ([pager.c], [pagelist.c], [pagelist.h], [fsck.c], [phantom_disk.h]).
    - [PagerInit]: start of the pager ([pager.c], [disk_struct.c], [fsck.c]); [Recovery]:
      what a start finds on a new disk and after a shutdown.
    - [Snap]: [vm_map.c], [vm_map.h]: page faults, paging, requests to the disk and
      [do_snapshot]; [SnapInv]: the invariant; [SnapOps]: the steps of pages;
      [SnapSpec]: the steps of the snapshot thread and the restart; [SnapLive]: that a
      snapshot completes.
    - [SnapSync]: [snap_sync.c], [vm_threads.c].
    - [Timers]: [timedcall.c].
    - [Threads], [ThreadsInv], [ThreadsOps], [ThreadsSpec]: [phantom/threads/].

    ** How code becomes definitions

    A C function is a definition of the same name; a file's state is a record and a
    function that changes it is a computation [M state result], which returns,
    panics (the kernel stops with a message), faults (undefined behaviour: a bad
    pointer, a division trap) or diverges.  [wp m s Q] says that [m] returns and
    [Q] holds; [wpe E m s Q] allows the panics in [E] too, and nothing else.  Loops
    are recursive functions; loops without an obvious bound have fuel and running
    out of it is [Diverge], which the theorems exclude.

    The state of the machine is [vm] ([Heap]), that of threads is [kernel]
    ([Threads]), that of timed calls is [timers] ([Timers]), that of the disk with its
    free list is [pager] ([Pager]), that of paging with the place of the snapshot thread
    is [vm_map] ([Snap]), that of the interlock is [snap_sync] ([SnapSync]).  Integers are [Z] kept
    in the range of their type; sums that can overflow are wrapped ([i32], [u32]).
    Threads run on one processor: an operation runs up to the switch to another
    thread and the rest of it when the thread is on again.  In [Snap] and [SnapSync]
    steps of any number of threads interleave; a step is what runs under one lock
    without waiting.  A disk request has a beginning and an end: in between a disk page
    that is written has unknown content.  [enabled] and [sync_enabled] are conditions
    on the steps under which the theorems hold; each excludes behaviour of the code
    that breaks them, which lemmas at the end of [SnapSpec] and [SnapSync] show.

    ** What is proved

    - Memory: counting never frees what is referenced and frees what is not;
      allocation returns fresh zeroed objects; a collection keeps what is reachable
      and frees the rest; all of them keep the heap well formed, as [memcheck_one]
      checks it.
    - Stacks, arrays, fields, queues: they refine lists, on every branch.
    - Interpreter: [exec_turn] and [exec_loop] implement an abstract machine for
      integer code, traps and panics included; exceptions go to the innermost
      handler that matches; a loop that counts down ends.
    - System calls of strings and integers return what functions on bytes say, and
      release their arguments once.
    - Root object: what is saved is what a restart loads; the environment.
    - Disk: address maps refine functions; page lists are read back as they were
      written; free disk pages are kept track of, and the release of a snapshot frees
      exactly what no other snapshot has.
    - Snapshots: threads see one memory through all paging, a restart at any moment
      finds the memory as it was when the last complete snapshot was marked, and a
      snapshot completes.  The machine is stopped when it is marked.
    - Start: a new disk gets its free list and an empty memory; after a shutdown the
      next start finds the last snapshot and the free pages.  After a stop without one
      the free list may be too old, which a lemma at the end of [Recovery] shows.
    - Timed calls: the queue of differences implements a schedule; calls happen.
    - Threads: no sequence of operations and interrupts breaks the queues, the
      ownership of mutexes or the rules of the spin locks; a thread that is ready is
      given the processor.

    ** Bounds and fuel

    [pvm_object_class_is], the field accessors and the collector have fuel of one
    unit per object of the heap, more than a chain of distinct objects needs.  The
    interpreter has a bound on the turns; [exec_outcome_stable] shows that a larger
    one changes nothing once a run has ended.  The scheduler gives new time at most
    once per choice, hence the fuel of [select_norm]; the search for a thread number
    tries each number once.  Following a page list has fuel of one unit per page of the
    disk; a list has distinct pages.  A snapshot of [n] pages takes [7 * n + 13] steps.
    Times of timed calls and [ticks_left] are unbounded.

    ** Not modelled

    - Drivers, processor code, page tables, interrupts: hardware that the sources do
      not describe.  Windows, fonts, GL, network, file systems, Unix emulation,
      applications, the Phantom compiler and the tools: no part of the machine.
    - Floating point, tty, window, bitmap and network system calls: they need the
      systems above; text that is only printed.
    - Killing of threads, which frees memory that others point to; a second
      processor; the new snapshot interlock ([t_snap.c]), which is compiled out.
    - The order of requests in the disk queue ([disk_q.c]) and the cache of a drive:
      requests are done in any order, and one that is done is on disk.  The search for
      more superblocks on a damaged disk, after which the kernel panics in any case, and
      [vm_verify_snap], which only reads and panics. *)

From Stdlib Require Export ZArith Lia.
From stdpp Require Export base gmap list strings numbers.

#[global] Open Scope Z_scope.

(** ** Machine integers

    The target is ia32: [int] and pointers are 32 bits wide, [long] too,
    [long long] is 64 bits.  An integer of the program is a [Z] in the range
    of its type and every operation that can leave the range wraps. *)

Definition wrapU (w z : Z) : Z := z `mod` 2 ^ w.
Definition wrapS (w z : Z) : Z := (z + 2 ^ (w - 1)) `mod` 2 ^ w - 2 ^ (w - 1).

Definition u8 (z : Z) : Z := wrapU 8 z.
Definition u32 (z : Z) : Z := wrapU 32 z.
Definition u64 (z : Z) : Z := wrapU 64 z.
Definition i32 (z : Z) : Z := wrapS 32 z.
Definition i64 (z : Z) : Z := wrapS 64 z.

Definition INT_MAX : Z := 2 ^ 31 - 1.
Definition INT_MIN : Z := - 2 ^ 31.

(** C truth values. *)
Definition b2z (b : bool) : Z := if b then 1 else 0.
Definition z2b (z : Z) : bool := negb (z =? 0).

(** The bytes of a character and of a string constant. *)
Definition chr (c : Ascii.ascii) : Z := Z.of_nat (Ascii.nat_of_ascii c).
Arguments chr c%_char_scope.
Definition string_bytes (s : string) : list Z := map chr (String.list_ascii_of_string s).

(** [flag st f]: the C test [st & f]. *)
Definition flag (w f : Z) : bool := z2b (Z.land w f).

Lemma wrapU_mod w z : wrapU w z = z `mod` 2 ^ w.
Proof. done. Qed.

Lemma wrapS_mod w z : wrapS w z = (z + 2 ^ (w - 1)) `mod` 2 ^ w - 2 ^ (w - 1).
Proof. done. Qed.

Lemma wrapU_range w z : 0 <= w -> 0 <= wrapU w z < 2 ^ w.
Proof. intros. apply Z.mod_pos_bound. lia. Qed.

Lemma wrapU_id w z : 0 <= z < 2 ^ w -> wrapU w z = z.
Proof. intros. unfold wrapU. apply Z.mod_small. lia. Qed.

Lemma wrapS_range w z : 0 < w -> - 2 ^ (w - 1) <= wrapS w z < 2 ^ (w - 1).
Proof.
  intros Hw. unfold wrapS.
  assert (2 ^ w = 2 * 2 ^ (w - 1)) as E.
  { replace w with (Z.succ (w - 1)) at 1 by lia. rewrite Z.pow_succ_r; lia. }
  pose proof (Z.mod_pos_bound (z + 2 ^ (w - 1)) (2 ^ w)). lia.
Qed.

Lemma wrapS_id w z : 0 < w -> - 2 ^ (w - 1) <= z < 2 ^ (w - 1) -> wrapS w z = z.
Proof.
  intros Hw Hz. unfold wrapS.
  assert (2 ^ w = 2 * 2 ^ (w - 1)) as E.
  { replace w with (Z.succ (w - 1)) at 1 by lia. rewrite Z.pow_succ_r; lia. }
  rewrite Z.mod_small; lia.
Qed.

Lemma u32_id z : 0 <= z < 2 ^ 32 -> u32 z = z.
Proof. apply wrapU_id. Qed.
Lemma u32_range z : 0 <= u32 z < 2 ^ 32.
Proof. apply wrapU_range. lia. Qed.
Lemma i32_id z : - 2 ^ 31 <= z < 2 ^ 31 -> i32 z = z.
Proof. intros. apply wrapS_id; [lia|]. exact H. Qed.
Lemma i32_u32 z : i32 (u32 z) = i32 z.
Proof. unfold i32, u32. rewrite !wrapS_mod, wrapU_mod. by rewrite Zplus_mod_idemp_l. Qed.

Lemma i32_range z : - 2 ^ 31 <= i32 z < 2 ^ 31.
Proof. apply (wrapS_range 32). lia. Qed.

#[global] Opaque wrapU wrapS.


(** ** Arrays indexed by C integers *)

Definition lookupZ {A} (l : list A) (i : Z) : option A :=
  if i <? 0 then None else l !! Z.to_nat i.
Definition insertZ {A} (i : Z) (x : A) (l : list A) : option (list A) :=
  if (0 <=? i) && (i <? Z.of_nat (length l)) then Some (<[Z.to_nat i := x]> l) else None.

Declare Scope pvm_scope.
Notation "l !!z i" := (lookupZ l i) (at level 20) : pvm_scope.
#[global] Open Scope pvm_scope.

Lemma lookupZ_nat {A} (l : list A) (i : nat) : l !!z Z.of_nat i = l !! i.
Proof. unfold lookupZ. destruct (Z.ltb_spec (Z.of_nat i) 0); [lia|]. by rewrite Nat2Z.id. Qed.

Lemma insertZ_nat {A} (l : list A) (i : nat) x :
  (i < length l)%nat -> insertZ (Z.of_nat i) x l = Some (<[i := x]> l).
Proof.
  intros. unfold insertZ. destruct (Z.leb_spec 0 (Z.of_nat i)); [|lia].
  destruct (Z.ltb_spec (Z.of_nat i) (Z.of_nat (length l))); [|lia]. simpl. by rewrite Nat2Z.id.
Qed.

Lemma lookupZ_Some {A} (l : list A) i x :
  l !!z i = Some x <-> 0 <= i /\ l !! Z.to_nat i = Some x.
Proof. unfold lookupZ. destruct (Z.ltb_spec i 0); split; intros Hi; [done|lia|split; [lia|done]|by destruct Hi]. Qed.

Lemma lookupZ_bound {A} (l : list A) i x : l !!z i = Some x -> 0 <= i < Z.of_nat (length l).
Proof. intros [? ?%lookup_lt_Some]%lookupZ_Some. lia. Qed.

Lemma lookupZ_is_Some {A} (l : list A) i :
  0 <= i < Z.of_nat (length l) -> is_Some (l !!z i).
Proof.
  intros. unfold lookupZ. destruct (Z.ltb_spec i 0); [lia|].
  apply lookup_lt_is_Some. lia.
Qed.

(** ** Sums over a finite map *)

Definition msum {A} (f : Z -> A -> nat) (m : gmap Z A) : nat :=
  map_fold (fun k a n => (f k a + n)%nat) 0%nat m.

Section MSum.
Context {A : Type}.
Implicit Types (f g : Z -> A -> nat) (m : gmap Z A).

Lemma msum_empty f : msum f ∅ = 0%nat.
Proof. done. Qed.

Lemma msum_insert f m k a :
  m !! k = None -> msum f (<[k := a]> m) = (f k a + msum f m)%nat.
Proof.
  intros. unfold msum. rewrite map_fold_insert_L; [done| |done].
  intros; simpl; lia.
Qed.

Lemma msum_delete f m k a :
  m !! k = Some a -> msum f m = (f k a + msum f (delete k m))%nat.
Proof.
  intros E. rewrite <- (insert_delete_id m k a E) at 1.
  apply msum_insert, lookup_delete_eq.
Qed.

Lemma msum_upd f m k a b :
  m !! k = Some a -> (msum f (<[k := b]> m) + f k a = msum f m + f k b)%nat.
Proof.
  intros E. rewrite (msum_delete f m k a E).
  rewrite <- (insert_delete_eq m k b), msum_insert by apply lookup_delete_eq. lia.
Qed.

Lemma msum_ext f g m :
  (forall k a, m !! k = Some a -> f k a = g k a) -> msum f m = msum g m.
Proof.
  induction m as [|k a m Hk IH] using map_ind; intros Hfg; [done|].
  rewrite !msum_insert by done. rewrite IH.
  - f_equal. apply Hfg, lookup_insert_eq.
  - intros k' a' E. apply Hfg. by rewrite lookup_insert_ne by congruence.
Qed.

Lemma msum_ge f m k a : m !! k = Some a -> (f k a <= msum f m)%nat.
Proof. intros E. rewrite (msum_delete f m k a E). lia. Qed.

Lemma msum_pos f m :
  (0 < msum f m)%nat -> exists k a, m !! k = Some a /\ (0 < f k a)%nat.
Proof.
  induction m as [|k a m Hk IH] using map_ind; [rewrite msum_empty; lia|].
  rewrite msum_insert by done. intros Hpos.
  destruct (decide (f k a = 0%nat)) as [Hz|].
  - destruct IH as (k' & a' & E & H); [lia|]. exists k', a'.
    rewrite lookup_insert_ne by congruence. done.
  - exists k, a. rewrite lookup_insert_eq. split; [done|lia].
Qed.

Lemma msum_le f g m m' :
  (forall k a, m !! k = Some a -> (0 < f k a)%nat ->
    exists b, m' !! k = Some b /\ (f k a <= g k b)%nat) ->
  (msum f m <= msum g m')%nat.
Proof.
  revert m'. induction m as [|k a m Hk IH] using map_ind; intros m' H.
  { rewrite msum_empty. lia. }
  rewrite msum_insert by done.
  assert (msum f m <= msum g (delete k m'))%nat as Hrest.
  { apply IH. intros k' a' E Hpos.
    destruct (H k' a') as (b & Eb & ?); [by rewrite lookup_insert_ne by congruence|done|].
    exists b. by rewrite lookup_delete_ne by congruence. }
  destruct (m' !! k) as [b|] eqn:Eb.
  - rewrite (msum_delete g m' k b Eb). specialize (H k a (lookup_insert_eq _ _ _)).
    destruct (decide (f k a = 0%nat)); [lia|].
    destruct H as (b' & Eb' & ?); [lia|]. simplify_eq. lia.
  - rewrite delete_id in Hrest by done. specialize (H k a (lookup_insert_eq _ _ _)).
    destruct (decide (f k a = 0%nat)); [lia|].
    destruct H as (b' & Eb' & ?); [lia|]. congruence.
Qed.

Lemma msum_le_size f m :
  (forall k a, m !! k = Some a -> f k a <= 1)%nat -> (msum f m <= size m)%nat.
Proof.
  induction m as [|k a m Hk IH] using map_ind; intros Hf.
  - rewrite msum_empty. lia.
  - rewrite msum_insert, map_size_insert_None by done.
    specialize (Hf k a) as H1. rewrite lookup_insert_eq in H1.
    assert (msum f m <= size m)%nat; [|specialize (H1 eq_refl); lia].
    apply IH. intros k' a' E. apply Hf. by rewrite lookup_insert_ne by congruence.
Qed.
End MSum.

(** ** Computations

    A C function of the program is a computation on a state [S]: it returns,
    or the kernel stops in [panic] (which is also what a failed [assert] and
    [pvm_exec_panic] do), or it performs an access the C language leaves
    undefined (a null or wild pointer, a read outside an object), or it runs
    out of the fuel that bounds a loop of the model. *)

Inductive outcome (S A : Type) : Type :=
  | Ret (a : A) (s : S)
  | Panic (msg : string)
  | Fault (why : string)
  | Diverge.
Arguments Ret {S A} _ _.
Arguments Panic {S A} _.
Arguments Fault {S A} _.
Arguments Diverge {S A}.

Definition M (S A : Type) : Type := S -> outcome S A.

#[global] Instance M_ret {S} : MRet (M S) := fun A a s => Ret a s.
#[global] Instance M_bind {S} : MBind (M S) := fun A B k m s =>
  match m s with
  | Ret a s' => k a s'
  | Panic msg => Panic msg
  | Fault why => Fault why
  | Diverge => Diverge
  end.

Section Primitives.
Context {S : Type}.

Definition get : M S S := fun s => Ret s s.
Definition gets {A} (f : S -> A) : M S A := fun s => Ret (f s) s.
Definition modify (f : S -> S) : M S unit := fun s => Ret tt (f s).
Definition panic {A} (msg : string) : M S A := fun _ => Panic msg.
Definition fault {A} (why : string) : M S A := fun _ => Fault why.
Definition diverge {A} : M S A := fun _ => Diverge.

(** [assert(e)] of the kernel panics when [e] is false. *)
Definition assert_ (b : bool) (what : string) : M S unit :=
  if b then mret tt else panic what.

(** A partial read: undefined behaviour when there is nothing to read. *)
Definition some_or_fault {A} (o : option A) (why : string) : M S A :=
  match o with Some a => mret a | None => fault why end.

(** [for( x in l ) f(x)] *)
Fixpoint for_each {A} (f : A -> M S unit) (l : list A) : M S unit :=
  match l with
  | [] => mret tt
  | x :: l' => f x ;; for_each f l'
  end.
End Primitives.

(** [switch(i) { case ...: }]: the first case whose label is [i]. *)
Fixpoint switch {A} (i : Z) (cases : list (Z * A)) : option A :=
  match cases with
  | [] => None
  | (l, a) :: rest => if i =? l then Some a else switch i rest
  end.

(** ** Total correctness

    [wp m s Q]: run from [s], [m] returns and the result satisfies [Q]. *)

Definition wp {S A} (m : M S A) (s : S) (Q : A -> S -> Prop) : Prop :=
  exists a s', m s = Ret a s' /\ Q a s'.

Section WP.
Context {S : Type}.
Implicit Types s : S.

Lemma wp_ret {A} (a : A) s (Q : A -> S -> Prop) : Q a s -> wp (mret a) s Q.
Proof. intros. exists a, s. done. Qed.

Lemma wp_bind {A B} (m : M S A) (k : A -> M S B) s Q :
  wp m s (fun a s' => wp (k a) s' Q) -> wp (m ≫= k) s Q.
Proof.
  intros (a & s' & E & b & s'' & E' & HQ). exists b, s''.
  split; [|done]. unfold mbind, M_bind. by rewrite E.
Qed.

Lemma wp_mono {A} (m : M S A) s (Q Q' : A -> S -> Prop) :
  wp m s Q -> (forall a s', Q a s' -> Q' a s') -> wp m s Q'.
Proof. intros (a & s' & E & HQ) H. exists a, s'. auto. Qed.

Lemma wp_get s (Q : S -> S -> Prop) : Q s s -> wp get s Q.
Proof. intros. by exists s, s. Qed.
Lemma wp_gets {A} (f : S -> A) s (Q : A -> S -> Prop) : Q (f s) s -> wp (gets f) s Q.
Proof. intros. by exists (f s), s. Qed.
Lemma wp_modify (f : S -> S) s (Q : unit -> S -> Prop) :
  Q tt (f s) -> wp (modify f) s Q.
Proof. intros. by exists tt, (f s). Qed.

Lemma wp_assert b what s (Q : unit -> S -> Prop) :
  b = true -> Q tt s -> wp (assert_ b what) s Q.
Proof. intros -> ?. by exists tt, s. Qed.

Lemma wp_some_or_fault {A} (o : option A) a why s (Q : A -> S -> Prop) :
  o = Some a -> Q a s -> wp (some_or_fault o why) s Q.
Proof. intros -> ?. by exists a, s. Qed.

(** What [wp] gives about a run that is already known. *)
Lemma wp_Ret {A} (m : M S A) s a s' Q : m s = Ret a s' -> wp m s Q -> Q a s'.
Proof. intros E (b & t & E' & HQ). congruence. Qed.

Lemma bind_gets {A B} (f : S -> A) (k : A -> M S B) s : (gets f ≫= k) s = k (f s) s.
Proof. done. Qed.

Lemma bind_assert {B} b what (k : unit -> M S B) s : b = true -> (assert_ b what ≫= k) s = k tt s.
Proof. by intros ->. Qed.

Lemma bind_Ret {A B} (m : M S A) (k : A -> M S B) s a s' :
  m s = Ret a s' -> (m ≫= k) s = k a s'.
Proof. intros E. unfold mbind, M_bind. by rewrite E. Qed.

(** What follows a step that returns decides the outcome. *)
Lemma wp_bind_eq {A B} (m : M S A) (k : A -> M S B) s Q r :
  wp m s Q -> (forall a s', Q a s' -> k a s' = r) -> (m ≫= k) s = r.
Proof. intros (a & s' & E & HQ) Hk. rewrite (bind_Ret _ _ _ _ _ E). auto. Qed.

(** A loop over a list keeps an invariant of the state and the remaining elements. *)
Lemma wp_for_each {A} (f : A -> M S unit) (I : list A -> S -> Prop) l s :
  I l s ->
  (forall x l' s, I (x :: l') s -> wp (f x) s (fun _ s' => I l' s')) ->
  wp (for_each f l) s (fun _ s' => I [] s').
Proof.
  revert s. induction l as [|x l IH]; intros s HI Hf; simpl.
  - by apply wp_ret.
  - apply wp_bind. eapply wp_mono; [by apply Hf|]. intros [] s' HI'. by apply IH.
Qed.
End WP.

(** [wpe E m s Q]: [m] returns with [Q], or stops in a panic that [E] allows. *)
Definition wpe {S A} (E : string -> Prop) (m : M S A) (s : S) (Q : A -> S -> Prop) : Prop :=
  match m s with
  | Ret a s' => Q a s'
  | Panic msg => E msg
  | _ => False
  end.

Section WPE.
Context {S : Type} (E : string -> Prop).
Implicit Types s : S.

Lemma wp_wpe {A} (m : M S A) s Q : wp m s Q -> wpe E m s Q.
Proof. intros (a & s' & Er & HQ). unfold wpe. by rewrite Er. Qed.

Lemma wpe_mono {A} (m : M S A) s (Q Q' : A -> S -> Prop) :
  wpe E m s Q -> (forall a s', Q a s' -> Q' a s') -> wpe E m s Q'.
Proof. unfold wpe. destruct (m s); auto. Qed.

Lemma wpe_bind {A B} (m : M S A) (k : A -> M S B) s Q :
  wpe E m s (fun a s' => wpe E (k a) s' Q) -> wpe E (m ≫= k) s Q.
Proof. unfold wpe, mbind, M_bind. by destruct (m s). Qed.

Lemma wpe_ret {A} (a : A) s (Q : A -> S -> Prop) : Q a s -> wpe E (mret a) s Q.
Proof. done. Qed.

Lemma wpe_panic {A} msg s (Q : A -> S -> Prop) : E msg -> wpe E (panic msg) s Q.
Proof. done. Qed.

Lemma wpe_panic_eq {A} (m : M S A) msg s (Q : A -> S -> Prop) : m s = Panic msg -> E msg -> wpe E m s Q.
Proof. unfold wpe. by intros ->. Qed.
End WPE.

Lemma wpe_weaken {S A} (E E' : string -> Prop) (m : M S A) s Q :
  wpe E m s Q -> (forall msg, E msg -> E' msg) -> wpe E' m s Q.
Proof. unfold wpe. destruct (m s); auto. Qed.

(** Inversion of a run that returned. *)
Lemma bind_inv {S A B} (m : M S A) (k : A -> M S B) s b s'' :
  (m ≫= k) s = Ret b s'' -> exists a s', m s = Ret a s' /\ k a s' = Ret b s''.
Proof. unfold mbind, M_bind. destruct (m s); naive_solver. Qed.

(** ** Automation *)

Create HintDb pvm discriminated.

(** Discharge the first premise of a hypothesis. *)
Ltac spec H :=
  lazymatch type of H with
  | ?P -> _ => let Hp := fresh in assert P as Hp; [|specialize (H Hp); clear Hp]
  end.

(** One symbolic step of a total-correctness goal. *)
Ltac wp_step :=
  lazymatch goal with
  | |- wp (mret _) _ _ => apply wp_ret
  | |- wp (mbind _ _) _ _ => apply wp_bind
  | |- wp get _ _ => apply wp_get
  | |- wp (gets _) _ _ => apply wp_gets
  | |- wp (modify _) _ _ => apply wp_modify
  | |- wp (assert_ _ _) _ _ => apply wp_assert
  | |- wp (some_or_fault _ _) _ _ => eapply wp_some_or_fault
  end.

(** Unfold one run that is known to return into its steps. *)
Ltac inv_run :=
  repeat match goal with
  | H : mbind _ _ _ = Ret _ _ |- _ =>
      let a := fresh "a" in let s := fresh "s" in let E := fresh "E" in
      apply bind_inv in H as (a & s & E & H)
  | H : mret _ _ = Ret _ _ |- _ => unfold mret, M_ret in H; simplify_eq
  | H : get _ = Ret _ _ |- _ => unfold get in H; simplify_eq
  | H : gets _ _ = Ret _ _ |- _ => unfold gets in H; simplify_eq
  | H : modify _ _ = Ret _ _ |- _ => unfold modify in H; simplify_eq
  | H : panic _ _ = Ret _ _ |- _ => discriminate H
  | H : fault _ _ = Ret _ _ |- _ => discriminate H
  | H : diverge _ = Ret _ _ |- _ => discriminate H
  end.
