(* ===== verification/Printf.v ===== *)
(** * Formatted output and number parsing of the C library

    [kvprintf], [snprintf] ([phantom/libc/subr_prf.c]) and [strtol]
    ([phantom/libc/strtol.c]), on ia32: [int], [long], [size_t] and pointers are
    one word of 32 bits, [quad_t] and [intmax_t] have 64.

    A format is a string constant.  The result [None] stands for undefined
    behaviour: an argument of another type or missing, [%n], a format that ends
    inside a directive (the code reads past its end). *)

From Stdlib Require Import Ascii.
From S2P Require Import Prelude.

(** ** Arguments *)

Inductive va :=
  | va_word (w : Z)                    (** [int], [long], [size_t], pointer *)
  | va_quad (q : Z)
  | va_str (s : option (list Z))       (** [char *]: the bytes before the zero *)
  | va_bytes (b : list Z).             (** [u_char *], for [%D] *)

Definition arg_word (args : list va) : option (Z * list va) :=
  match args with va_word w :: r => Some (w, r) | _ => None end.
Definition arg_quad (args : list va) : option (Z * list va) :=
  match args with va_quad q :: r => Some (q, r) | _ => None end.
Definition arg_str (args : list va) : option (option (list Z) * list va) :=
  match args with va_str s :: r => Some (s, r) | _ => None end.
Definition arg_bytes (args : list va) : option (list Z * list va) :=
  match args with va_bytes b :: r => Some (b, r) | _ => None end.

(** ** Digits *)

Definition hex2ascii_data : list Z := string_bytes "0123456789abcdefghijklmnopqrstuvwxyz".
Definition hex2ascii (d : Z) : Z := default 0 (hex2ascii_data !!z d).
Definition toupper (c : Z) : Z := if (chr "a" <=? c) && (c <=? chr "z") then c - 32 else c.

(** The digits of [num], the first one first; [num] has at most 64 of them. *)
Fixpoint ksprintn_loop (fuel : nat) (num base : Z) (upper : bool) (acc : list Z) : list Z :=
  let c := hex2ascii (num mod base) in
  let acc := (if upper then toupper c else c) :: acc in
  match fuel with
  | O => acc
  | S fuel' => if num / base =? 0 then acc else ksprintn_loop fuel' (num / base) base upper acc
  end.

Definition ksprintn (num base : Z) (upper : bool) : list Z := ksprintn_loop 64 num base upper [].

(** ** Directives *)

(** The local variables of [kvprintf] that a directive sets. *)
Record dspec := mkD {
  d_padc : Z; d_width : Z; d_dwidth : Z;
  d_q : bool; d_l : bool; d_ladjust : bool; d_sharp : bool; d_sign : bool; d_dot : bool;
  d_c : bool; d_h : bool; d_j : bool; d_t : bool; d_z : bool }.
Definition dspec0 : dspec :=
  mkD (chr " ") 0 0 false false false false false false false false false false false.

Definition set_width (w : Z) (d : dspec) : dspec :=
  mkD (d_padc d) w (d_dwidth d) (d_q d) (d_l d) (d_ladjust d) (d_sharp d) (d_sign d) (d_dot d)
    (d_c d) (d_h d) (d_j d) (d_t d) (d_z d).
Definition set_dwidth (w : Z) (d : dspec) : dspec :=
  mkD (d_padc d) (d_width d) w (d_q d) (d_l d) (d_ladjust d) (d_sharp d) (d_sign d) (d_dot d)
    (d_c d) (d_h d) (d_j d) (d_t d) (d_z d).
Definition set_padc (c : Z) (d : dspec) : dspec :=
  mkD c (d_width d) (d_dwidth d) (d_q d) (d_l d) (d_ladjust d) (d_sharp d) (d_sign d) (d_dot d)
    (d_c d) (d_h d) (d_j d) (d_t d) (d_z d).
Definition set_align (la sharp sign dot : bool) (d : dspec) : dspec :=
  mkD (d_padc d) (d_width d) (d_dwidth d) (d_q d) (d_l d) la sharp sign dot
    (d_c d) (d_h d) (d_j d) (d_t d) (d_z d).
Definition set_size (q l c h j t z : bool) (d : dspec) : dspec :=
  mkD (d_padc d) (d_width d) (d_dwidth d) q l (d_ladjust d) (d_sharp d) (d_sign d) (d_dot d)
    c h j t z.

(** [while (width--) PCHAR(padc)], for a positive width. *)
Definition pad (d : dspec) (width : Z) : list Z := replicate (Z.to_nat width) (d_padc d).

(** The label [number]: [num] is a [uintmax_t]; [base] 8, 10, 16 or the radix. *)
Definition print_number (d : dspec) (num base : Z) (upper : bool) : list Z :=
  let neg := d_sign d && (i64 num <? 0) in
  let num := if neg then u64 (- i64 num) else num in
  let p := ksprintn num base upper in
  let tmp := Z.of_nat (length p) +
    (if d_sharp d && negb (num =? 0) then if base =? 8 then 1 else if base =? 16 then 2 else 0 else 0) +
    b2z neg in
  let width := d_width d in
  let cond1 := negb (d_ladjust d) && negb (d_padc d =? chr "0") && negb (width =? 0) in
  let pad1 := if cond1 && (0 <? width - tmp) then pad d (width - tmp) else [] in
  let width := if cond1 then (if 0 <? width - tmp then -1 else width - tmp) else width in
  let cond2 := negb (d_ladjust d) && negb (width =? 0) in
  let pad2 := if cond2 && (0 <? width - tmp) then pad d (width - tmp) else [] in
  let width := if cond2 then (if 0 <? width - tmp then -1 else width - tmp) else width in
  let cond3 := d_ladjust d && negb (width =? 0) in
  let pad3 := if cond3 && (0 <? width - tmp) then pad d (width - tmp) else [] in
  pad1 ++ (if neg then [chr "-"] else []) ++
  (if d_sharp d && negb (num =? 0)
   then if base =? 8 then [chr "0"] else if base =? 16 then [chr "0"; chr "x"] else [] else []) ++
  pad2 ++ p ++ pad3.

(** The labels [handle_nosign] and [handle_sign]. *)
Definition take_unsigned (d : dspec) (args : list va) : option (Z * list va) :=
  if d_j d || d_q d then '(q, r) ← arg_quad args; Some (u64 q, r)
  else if d_t d then '(w, r) ← arg_word args; Some (u64 (i32 w), r)
  else if d_l d || d_z d then '(w, r) ← arg_word args; Some (u32 w, r)
  else if d_h d then '(w, r) ← arg_word args; Some (wrapU 16 w, r)
  else if d_c d then '(w, r) ← arg_word args; Some (u8 w, r)
  else '(w, r) ← arg_word args; Some (u32 w, r).

Definition take_signed (d : dspec) (args : list va) : option (Z * list va) :=
  if d_j d || d_q d then '(q, r) ← arg_quad args; Some (u64 (i64 q), r)
  else if d_t d || d_l d then '(w, r) ← arg_word args; Some (u64 (i32 w), r)
  else if d_z d then '(w, r) ← arg_word args; Some (u32 w, r)
  else if d_h d then '(w, r) ← arg_word args; Some (u64 (wrapS 16 w), r)
  else if d_c d then '(w, r) ← arg_word args; Some (u64 (wrapS 8 w), r)
  else '(w, r) ← arg_word args; Some (u64 (i32 w), r).

(** [%s] *)
Definition print_string (d : dspec) (s : option (list Z)) : list Z :=
  let p := default (string_bytes "(null)") s in
  let n := if d_dot d then Z.min (Z.max 0 (d_dwidth d)) (Z.of_nat (length p)) else Z.of_nat (length p) in
  let width := d_width d - n in
  (if negb (d_ladjust d) && (0 <? width) then pad d width else []) ++ take (Z.to_nat n) p ++
  (if d_ladjust d && (0 <? width) then pad d width else []).

(** [%b]: the names of the bits that are set; characters are signed. *)
Definition is_name_char (c : Z) : bool := 32 <? wrapS 8 c.
Fixpoint span_name (p : list Z) : list Z * list Z :=
  match p with
  | [] => ([], [])
  | c :: r => if is_name_char c then let '(a, b) := span_name r in (c :: a, b) else ([], p)
  end.
Fixpoint print_bits (fuel : nat) (num : Z) (p : list Z) (tmp : bool) : list Z :=
  match fuel, p with
  | S fuel', n :: r =>
      let '(name, rest) := span_name r in
      if Z.testbit num ((wrapS 8 n - 1) mod 32)
      then (if tmp then chr "," else chr "<") :: name ++ print_bits fuel' num rest true
      else print_bits fuel' num rest tmp
  | _, _ => if tmp then [chr ">"] else []
  end.
Definition print_b (num : Z) (p : list Z) : option (list Z) :=
  match p with
  | base :: r =>
      if (2 <=? base) && (base <=? 36) then
        Some (ksprintn num base false ++ if num =? 0 then [] else print_bits (S (length r)) num r false)
      else None
  | [] => None
  end.

(** [%D]: a dump of [width] bytes with a separator. *)
Fixpoint print_dump (n : nat) (up sep : list Z) : option (list Z) :=
  match n with
  | O => Some []
  | S n' =>
      match up with
      | [] => None
      | b :: r =>
          rest ← print_dump n' r sep;
          Some (hex2ascii (b / 16) :: hex2ascii (b mod 16) :: (if (n' =? 0)%nat then [] else sep) ++ rest)
      end
  end.

(** The loop over the digits of a width. *)
Fixpoint fmt_digits (n : Z) (fmt : string) : Z * string :=
  match fmt with
  | EmptyString => (n, EmptyString)
  | String c r =>
      if (chr "0" <=? chr c) && (chr c <=? chr "9") then fmt_digits (i32 (n * 10 + chr c - chr "0")) r
      else (n, fmt)
  end.

(** What a directive yields: its output, the rest of format and arguments, and
    whether the rest of the format is copied without interpretation. *)
Definition dresult : Type := list Z * string * list va * bool.

Section Directive.
Context (radix : Z).
(** The format from the percent sign on. *)
Context (percent : string).

Definition signed_ (d : dspec) (rest : string) (args : list va) (base : Z) : option dresult :=
  '(num, args) ← take_signed d args;
  Some (print_number (set_align (d_ladjust d) (d_sharp d) true (d_dot d) d) num base false, rest, args, false).
Definition unsigned_ (d : dspec) (rest : string) (args : list va) (base : Z) (upper : bool) : option dresult :=
  '(num, args) ← take_unsigned d args;
  Some (print_number (set_align (d_ladjust d) (d_sharp d) false (d_dot d) d) num base upper, rest, args, false).

(** The switch on a character that ends a directive. *)
Definition convert (d : dspec) (ch : ascii) (rest : string) (args : list va) : option dresult :=
  match ch with
  | "%"%char => Some ([chr "%"], rest, args, false)
  | "b"%char =>
      '(num, args) ← arg_word args; '(p, args) ← arg_str args; p ← p;
      out ← print_b (u32 num) p; Some (out, rest, args, false)
  | "c"%char => '(w, args) ← arg_word args; Some ([u8 w], rest, args, false)
  | "D"%char =>
      '(up, args) ← arg_bytes args; '(p, args) ← arg_str args; p ← p;
      let width := if d_width d =? 0 then 16 else d_width d in
      out ← (if width <? 0 then None else print_dump (Z.to_nat width) up p);
      Some (out, rest, args, false)
  | "d"%char | "i"%char => signed_ d rest args 10
  | "n"%char => None
  | "o"%char => unsigned_ d rest args 8 false
  | "p"%char =>
      '(w, args) ← arg_word args;
      Some (print_number (set_align (d_ladjust d) (d_width d =? 0) false (d_dot d) d) (u32 w) 16 false,
            rest, args, false)
  | "r"%char => if d_sign d then signed_ d rest args radix else unsigned_ d rest args radix false
  | "s"%char => '(s, args) ← arg_str args; Some (print_string d s, rest, args, false)
  | "u"%char => unsigned_ d rest args 10 false
  | "X"%char => unsigned_ d rest args 16 true
  | "x"%char => unsigned_ d rest args 16 false
  | "y"%char => signed_ d rest args 16
  | _ =>
      Some (string_bytes (String.substring 0 (String.length percent - String.length rest) percent),
            rest, args, true)
  end.

(** The switch at [reswitch], on the flags and sizes before it. *)
Fixpoint directive (fuel : nat) (d : dspec) (fmt : string) (args : list va) : option dresult :=
  match fuel, fmt with
  | S fuel', String ch rest =>
      let again d := directive fuel' d rest args in
      match ch with
      | "."%char => again (set_align (d_ladjust d) (d_sharp d) (d_sign d) true d)
      | "#"%char => again (set_align (d_ladjust d) true (d_sign d) (d_dot d) d)
      | "+"%char => again (set_align (d_ladjust d) (d_sharp d) true (d_dot d) d)
      | "-"%char => again (set_align true (d_sharp d) (d_sign d) (d_dot d) d)
      | "*"%char =>
          '(w, args) ← arg_word args;
          directive fuel'
            (if d_dot d then set_dwidth (i32 w) d else
             if i32 w <? 0 then
               set_align (negb (d_ladjust d)) (d_sharp d) (d_sign d) (d_dot d) (set_width (i32 (- i32 w)) d)
             else set_width (i32 w) d) rest args
      | "h"%char => again (if d_h d then set_size (d_q d) (d_l d) true false (d_j d) (d_t d) (d_z d) d
                           else set_size (d_q d) (d_l d) (d_c d) true (d_j d) (d_t d) (d_z d) d)
      | "l"%char => again (if d_l d then set_size true false (d_c d) (d_h d) (d_j d) (d_t d) (d_z d) d
                           else set_size (d_q d) true (d_c d) (d_h d) (d_j d) (d_t d) (d_z d) d)
      | "j"%char => again (set_size (d_q d) (d_l d) (d_c d) (d_h d) true (d_t d) (d_z d) d)
      | "q"%char => again (set_size true (d_l d) (d_c d) (d_h d) (d_j d) (d_t d) (d_z d) d)
      | "t"%char => again (set_size (d_q d) (d_l d) (d_c d) (d_h d) (d_j d) true (d_z d) d)
      | "z"%char => again (set_size (d_q d) (d_l d) (d_c d) (d_h d) (d_j d) (d_t d) true d)
      | _ =>
          if (chr ch =? chr "0") && negb (d_dot d) then again (set_padc (chr "0") d)
          else if (chr "0" <=? chr ch) && (chr ch <=? chr "9") then
            let '(n, rest') := fmt_digits (chr ch - chr "0") rest in
            directive fuel' (if d_dot d then set_dwidth n d else set_width n d) rest' args
          else convert d ch rest args
      end
  | _, _ => None
  end.
End Directive.

(** ** The format *)

Definition clean_radix (radix : Z) : Z := if (radix <? 2) || (36 <? radix) then 10 else radix.

Fixpoint kvprintf_loop (fuel : nat) (radix : Z) (stop : bool) (fmt : string) (args : list va) : option (list Z) :=
  match fuel with
  | O => None
  | S fuel' =>
      match fmt with
      | EmptyString => Some []
      | String ch rest =>
          if Ascii.eqb ch "%"%char && negb stop then
            '(out, rest, args, stop) ← directive radix fmt (S (String.length rest)) dspec0 rest args;
            more ← kvprintf_loop fuel' radix stop rest args;
            Some (out ++ more)
          else
            more ← kvprintf_loop fuel' radix stop rest args;
            Some (chr ch :: more)
      end
  end.

(** The characters that [kvprintf] passes to [func]; it returns their number. *)
Definition kvprintf (fmt : string) (radix : Z) (ap : list va) : option (list Z) :=
  kvprintf_loop (S (String.length fmt)) (clean_radix radix) false fmt ap.

(** The buffer after [snprintf], up to the terminating zero, for [size >= 1]. *)
Definition snprintf (size : Z) (fmt : string) (ap : list va) : option (list Z) :=
  out ← kvprintf fmt 10 ap;
  if 1 <=? size then Some (take (Z.to_nat (size - 1)) out) else None.

(** ** [strtol] *)

Definition isspace (c : Z) : bool := (c =? 32) || (9 <=? c) && (c <=? 13).
Definition isdigit (c : Z) : bool := (chr "0" <=? c) && (c <=? chr "9").
Definition isupper (c : Z) : bool := (chr "A" <=? c) && (c <=? chr "Z").
Definition islower (c : Z) : bool := (chr "a" <=? c) && (c <=? chr "z").
Definition isalpha (c : Z) : bool := isupper c || islower c.

(** The value of a digit character, if it is one: letters count from ten. *)
Definition digit_value (c : Z) : option Z :=
  if negb (c <? 128) then None
  else if isdigit c then Some (c - chr "0")
  else if isalpha c then Some (c - (if isupper c then chr "A" - 10 else chr "a" - 10))
  else None.

Definition LONG_MAX : Z := 2 ^ 31 - 1.
Definition LONG_MIN : Z := - 2 ^ 31.

(** The loop over the digits: [any] is negative after an overflow. *)
Fixpoint strtol_loop (base cutoff cutlim : Z) (s : list Z) (acc any : Z) : Z * Z * list Z :=
  match s with
  | [] => (acc, any, [])
  | ch :: rest =>
      match digit_value ch with
      | None => (acc, any, s)
      | Some c =>
          if base <=? c then (acc, any, s)
          else if (any <? 0) || (cutoff <? acc) || (acc =? cutoff) && (cutlim <? c)
          then strtol_loop base cutoff cutlim rest acc (-1)
          else strtol_loop base cutoff cutlim rest (u32 (u32 (acc * base) + c)) 1
      end
  end.

Fixpoint skip_space (s : list Z) : list Z :=
  match s with
  | c :: rest => if isspace c then skip_space rest else s
  | [] => []
  end.

(** The sign, and what follows it. *)
Definition strtol_sign (s : list Z) : bool * list Z :=
  match s with
  | c :: rest => if c =? chr "-" then (true, rest) else if c =? chr "+" then (false, rest) else (false, s)
  | [] => (false, [])
  end.

(** The prefix that selects the base. *)
Definition strtol_base (base : Z) (s : list Z) : Z * list Z :=
  let '(base, s) :=
    match s with
    | c :: x :: rest =>
        if ((base =? 0) || (base =? 16)) && (c =? chr "0") && ((x =? chr "x") || (x =? chr "X"))
        then (16, rest) else (base, s)
    | _ => (base, s)
    end in
  (if base =? 0 then match s with c :: _ => if c =? chr "0" then 8 else 10 | [] => 10 end else base, s).

(** The value, and what [*endptr] points at. *)
Definition strtol (nptr : list Z) (base : Z) : Z * list Z :=
  let '(neg, s) := strtol_sign (skip_space nptr) in
  let '(base, s) := strtol_base base s in
  let limit := if neg then u32 (- LONG_MIN) else LONG_MAX in
  let '(acc, any, rest) := strtol_loop base (limit / base) (limit mod base) s 0 0 in
  let acc := if any <? 0 then (if neg then LONG_MIN else LONG_MAX) else if neg then u32 (- acc) else acc in
  (i32 acc, if any =? 0 then nptr else rest).

Definition atoi (str : list Z) : Z := i32 (strtol str 10).1.
Definition atol (str : list Z) : Z := (strtol str 10).1.

(** ** Properties *)

(** The value of digit characters in base ten. *)
Definition is_dec (c : Z) : Prop := chr "0" <= c <= chr "9".
Definition dec_value (acc : Z) (l : list Z) : Z := foldl (fun a c => a * 10 + (c - chr "0")) acc l.

Lemma dec_value_app acc l l' : dec_value acc (l ++ l') = dec_value (dec_value acc l) l'.
Proof. unfold dec_value. by rewrite foldl_app. Qed.

Lemma hex2ascii_dec d : 0 <= d < 10 -> hex2ascii d = chr "0" + d.
Proof.
  intros Hd. assert (d = 0 \/ d = 1 \/ d = 2 \/ d = 3 \/ d = 4 \/ d = 5 \/ d = 6 \/ d = 7 \/ d = 8 \/ d = 9) as H by lia.
  repeat destruct H as [->|H]; [reflexivity..|subst; reflexivity].
Qed.

Lemma ksprintn_loop_dec fuel num acc : 0 <= num < 10 ^ (Z.of_nat fuel + 1) ->
  exists l, ksprintn_loop fuel num 10 false acc = l ++ acc /\ Forall is_dec l /\ l <> [] /\ dec_value 0 l = num /\
    forall k : nat, num < 10 ^ Z.of_nat (S k) -> (length l <= S k)%nat.
Proof.
  revert num acc. induction fuel as [|fuel IH]; intros num acc Hn.
  - exists [chr "0" + num]. assert (num < 10) by (simpl in Hn; lia). cbn [ksprintn_loop].
    rewrite Z.mod_small, hex2ascii_dec by lia. split; [done|]. split; [|split; [done|split; [unfold dec_value; simpl; lia|simpl; lia]]].
    constructor; [|done]. unfold is_dec. change (chr "9") with (chr "0" + 9). lia.
  - cbn [ksprintn_loop]. pose proof (Z.mod_pos_bound num 10) as Hm. pose proof (Z.div_mod num 10) as Hd.
    rewrite hex2ascii_dec by lia. assert (is_dec (chr "0" + num mod 10)) as Hdec.
    { unfold is_dec. change (chr "9") with (chr "0" + 9). lia. }
    destruct (Z.eqb_spec (num / 10) 0) as [E|E].
    + exists [chr "0" + num mod 10]. split; [done|]. split; [by constructor|]. split; [done|].
      split; [unfold dec_value; simpl; lia|simpl; lia].
    + destruct (IH (num / 10) (chr "0" + num mod 10 :: acc)) as (l & El & Hl & Hne & Hv & Hk).
      { replace (Z.of_nat (S fuel) + 1) with (Z.of_nat fuel + 1 + 1) in Hn by lia.
        rewrite Z.pow_add_r in Hn by lia. split; [apply Z.div_pos; lia|apply Z.div_lt_upper_bound; lia]. }
      exists (l ++ [chr "0" + num mod 10]). rewrite El, <- app_assoc. split; [done|]. split_and!.
      * apply list.Forall_app. split; [done|by constructor].
      * by destruct l.
      * rewrite dec_value_app, Hv. unfold dec_value. simpl. lia.
      * intros [|k] Hlt; [exfalso; apply E, Z.div_small; simpl in Hlt; lia|].
        rewrite length_app. cbn [length]. enough (length l <= S k)%nat by lia. apply Hk.
        replace (Z.of_nat (S (S k))) with (Z.of_nat (S k) + 1) in Hlt by lia.
        rewrite Z.pow_add_r in Hlt by lia. apply Z.div_lt_upper_bound; lia.
Qed.

Lemma ksprintn_dec num : 0 <= num < 2 ^ 64 -> exists l, ksprintn num 10 false = l /\
  Forall is_dec l /\ l <> [] /\ dec_value 0 l = num /\
  forall k : nat, num < 10 ^ Z.of_nat (S k) -> (length l <= S k)%nat.
Proof.
  intros Hn. destruct (ksprintn_loop_dec 64 num []) as (l & E & H); [simpl; lia|].
  exists l. unfold ksprintn. by rewrite E, app_nil_r.
Qed.

Lemma dec_value_ge l acc : Forall is_dec l -> 0 <= acc -> acc <= dec_value acc l.
Proof.
  intros H. revert acc. induction H as [|c l Hc Hl IH]; intros acc Ha; [by simpl|].
  unfold is_dec in Hc. change (dec_value acc (c :: l)) with (dec_value (acc * 10 + (c - chr "0")) l).
  etransitivity; [|apply IH; lia]. lia.
Qed.

Lemma digit_value_dec c : is_dec c -> digit_value c = Some (c - chr "0").
Proof.
  unfold is_dec, digit_value. change (chr "0") with 48. change (chr "9") with 57. intros Hc.
  destruct (Z.ltb_spec c 128); [|lia]. unfold isdigit. change (chr "0") with 48. change (chr "9") with 57.
  destruct (Z.leb_spec 48 c); [|lia]. destruct (Z.leb_spec c 57); [|lia]. done.
Qed.

(** Digits whose value is within the limit are read to the end. *)
Lemma strtol_loop_dec limit l acc any : Forall is_dec l -> 0 <= acc -> 0 <= any -> limit < 2 ^ 32 ->
  dec_value acc l <= limit ->
  strtol_loop 10 (limit / 10) (limit mod 10) l acc any = (dec_value acc l, match l with [] => any | _ => 1 end, []).
Proof.
  intros H. revert acc any. induction H as [|c l Hc Hl IH]; intros acc any Ha Hany Hlim Hle; [done|].
  cbn [strtol_loop]. rewrite digit_value_dec by done. unfold is_dec in Hc.
  change (chr "9") with (chr "0" + 9) in Hc.
  change (dec_value acc (c :: l)) with (dec_value (acc * 10 + (c - chr "0")) l) in *.
  pose proof (dec_value_ge l (acc * 10 + (c - chr "0")) Hl ltac:(lia)) as Hge.
  pose proof (Z.div_mod limit 10) as Hdm. pose proof (Z.mod_pos_bound limit 10) as Hmb.
  destruct (Z.leb_spec 10 (c - chr "0")); [lia|]. destruct (Z.ltb_spec any 0); [lia|].
  destruct (Z.ltb_spec (limit / 10) acc); [lia|]. simpl.
  assert ((acc =? limit / 10) && (limit mod 10 <? c - chr "0") = false) as ->.
  { destruct (Z.eqb_spec acc (limit / 10)); [|done]. destruct (Z.ltb_spec (limit mod 10) (c - chr "0")); [lia|done]. }
  rewrite (u32_id (acc * 10)) by lia. rewrite u32_id by lia. rewrite IH by lia. by destruct l.
Qed.

Lemma dec_not_space c l : is_dec c -> skip_space (c :: l) = c :: l.
Proof.
  unfold is_dec. cbn [skip_space]. unfold isspace. change (chr "0") with 48. change (chr "9") with 57. intros Hc.
  destruct (Z.eqb_spec c 32); [lia|]. destruct (Z.leb_spec 9 c); [|lia]. destruct (Z.leb_spec c 13); [lia|done].
Qed.

Lemma dec_no_sign c l : is_dec c -> strtol_sign (c :: l) = (false, c :: l).
Proof.
  unfold is_dec, strtol_sign. change (chr "0") with 48. change (chr "9") with 57.
  change (chr "-") with 45. change (chr "+") with 43. intros Hc.
  destruct (Z.eqb_spec c 45); [lia|]. destruct (Z.eqb_spec c 43); [lia|done].
Qed.

Lemma strtol_base_ten s : strtol_base 10 s = (10, s).
Proof. unfold strtol_base. by destruct s as [|c [|x r]]. Qed.

(** Reading back a number that was printed. *)
Lemma strtol_dec (neg : bool) l : Forall is_dec l -> l <> [] -> dec_value 0 l <= (if neg then 2 ^ 31 else LONG_MAX) ->
  strtol ((if neg then [chr "-"] else []) ++ l) 10 = (if neg then - dec_value 0 l else dec_value 0 l, []).
Proof.
  intros Hl Hne Hv. destruct l as [|c l]; [done|]. pose proof Hl as [Hc _]%list.Forall_cons.
  pose proof (dec_value_ge (c :: l) 0 Hl ltac:(lia)) as Hge. unfold strtol, LONG_MAX, LONG_MIN in *.
  assert (strtol_sign (skip_space ((if neg then [chr "-"] else []) ++ c :: l)) = (neg, c :: l)) as ->.
  { destruct neg; cbn [app]; [done|]. by rewrite dec_not_space, dec_no_sign. }
  rewrite strtol_base_ten. change (- - 2 ^ 31) with (2 ^ 31). rewrite (u32_id (2 ^ 31)) by lia.
  rewrite strtol_loop_dec by (done || lia || (destruct neg; lia)). set (d := dec_value 0 (c :: l)) in *.
  cbn iota. change (1 <? 0) with false. change (1 =? 0) with false. cbn iota.
  destruct neg; [|by rewrite i32_id by lia].
  by rewrite i32_u32, i32_id by lia.
Qed.

Lemma i64_u64_i32 v : i64 (u64 (i32 v)) = i32 v.
Proof.
  pose proof (i32_range v). unfold i64, u64. rewrite wrapS_mod, wrapU_mod, Zplus_mod_idemp_l, <- wrapS_mod.
  by rewrite wrapS_id by lia.
Qed.

(** ** Claims *)

(** Without width and alternative form. *)
Lemma print_number_plain d num base upper : d_width d = 0 -> d_sharp d = false -> d_sign d = true ->
  print_number d num base upper = (if i64 num <? 0 then [chr "-"] else []) ++
    ksprintn (if i64 num <? 0 then u64 (- i64 num) else num) base upper.
Proof.
  intros Hw Hs Hsg. unfold print_number. rewrite Hw, Hs, Hsg. rewrite !andb_true_l. change (0 =? 0) with true.
  cbn [negb]. rewrite !andb_false_r. cbn [andb Z.eqb]. rewrite ?andb_false_r. cbn iota.
  by rewrite !app_nil_l, app_nil_r.
Qed.

Lemma u64_id z : 0 <= z < 2 ^ 64 -> u64 z = z.
Proof. intros Hz. unfold u64. by rewrite wrapU_mod, Z.mod_small. Qed.

(** What [%d] prints. *)
Lemma kvprintf_d v radix : - 2 ^ 31 <= v < 2 ^ 31 -> exists l,
  kvprintf "%d" radix [va_word v] = Some ((if v <? 0 then [chr "-"] else []) ++ l) /\
  Forall is_dec l /\ l <> [] /\ dec_value 0 l = Z.abs v /\ (length l <= 10)%nat.
Proof.
  intros Hv. destruct (ksprintn_dec (Z.abs v)) as (l & El & Hl & Hne & Hval & Hk); [lia|].
  exists l. split; [|split_and!; try done; apply (Hk 9%nat); lia].
  assert (kvprintf "%d" radix [va_word v] =
    Some (print_number (set_align false false true false dspec0) (u64 (i32 v)) 10 false ++ [])) as -> by reflexivity.
  rewrite app_nil_r. f_equal. rewrite print_number_plain by done. rewrite i64_u64_i32, i32_id by lia.
  destruct (Z.ltb_spec v 0).
  - rewrite u64_id by lia. by rewrite <- El, Z.abs_neq by lia.
  - rewrite u64_id by lia. by rewrite <- El, Z.abs_eq by lia.
Qed.

(** What [%d] prints is text that [strtol] reads. *)
Lemma snprintf_dec v size : - 2 ^ 31 <= v < 2 ^ 31 -> 12 <= size ->
  exists out, snprintf size "%d" [va_word v] = Some out /\ strtol out 10 = (v, []) /\
    Forall (fun c => c <> 0) out /\ (length out <= 11)%nat.
Proof.
  intros Hv Hs. destruct (kvprintf_d v 10 Hv) as (l & E & Hl & Hne & Hval & Hlen).
  exists ((if v <? 0 then [chr "-"] else []) ++ l). unfold snprintf. rewrite E. simpl.
  destruct (Z.leb_spec 1 size); [|lia].
  assert (length ((if (v <? 0)%Z then [chr "-"] else []) ++ l) <= 11)%nat as Hlo
    by (rewrite length_app; destruct (v <? 0); simpl; lia).
  rewrite take_ge by lia. split; [done|]. split_and!; [| |done].
  - rewrite strtol_dec by (done || (rewrite Hval; unfold LONG_MAX; destruct (Z.ltb_spec v 0); lia)).
    rewrite Hval. f_equal. destruct (Z.ltb_spec v 0); lia.
  - apply list.Forall_app. split; [by destruct (v <? 0); repeat constructor|].
    eapply list.Forall_impl; [done|]. intros c [Hc _]. change (chr "0") with 48 in Hc. lia.
Qed.

(** C35: printing an [int] and reading it back is the identity: for every 32 bit
    value, [snprintf] with [%d] and a large enough buffer writes a decimal number
    that [strtol] reads to its end as that value. *)
Theorem snprintf_strtol v size : - 2 ^ 31 <= v < 2 ^ 31 -> 12 <= size ->
  exists out, snprintf size "%d" [va_word v] = Some out /\ strtol out 10 = (v, []).
Proof. intros Hv Hs. destruct (snprintf_dec v size Hv Hs) as (out & H1 & H2 & _). by exists out. Qed.

Lemma snprintf_strtol_witness : exists out, snprintf 32 "%d" [va_word (-2147483648)] = Some out /\
  strtol out 10 = (-2147483648, []).
Proof. apply (snprintf_strtol (-2147483648) 32); [vm_compute; split; [discriminate|reflexivity]|vm_compute; discriminate]. Defined.

(** ** Deviations *)

(** [%Ld] is not a directive of [kvprintf]: the format comes out as it is. *)
Lemma kvprintf_Ld q radix : kvprintf "%Ld" radix [va_quad q] = Some (string_bytes "%Ld").
Proof. reflexivity. Qed.

(** A number in base two needs more than the [MAXNBUF] = 32 bytes there are. *)
Lemma ksprintn_base_two : length (ksprintn (2 ^ 32 - 1) 2 false) = 32%nat.
Proof. reflexivity. Qed.
