(* ===== verification/Queue.v ===== *)
(** * Queues of structures ([include/queue.h])

    The macros of the kernel's doubly linked queues.  A queue is a ring of
    links: the link of the head and those in a field of each element, which are
    named by the address of the head or element.  The memory is a map from
    addresses to pairs of the next and the previous address.  The properties
    relate the ring to a list of elements. *)

From S2P Require Import Prelude.

(** ** The macros *)

Abbreviation qmem := (gmap Z (Z * Z)).

Definition queue_entry (a : Z) : M qmem (Z * Z) :=
  l ← gets (fun m => m !! a); some_or_fault l "no link here".
Definition queue_next (a : Z) : M qmem Z := l ← queue_entry a; mret l.1.
Definition queue_prev (a : Z) : M qmem Z := l ← queue_entry a; mret l.2.
Definition set_next (a v : Z) : M qmem unit := l ← queue_entry a; modify <[a := (v, l.2)]>.
Definition set_prev (a v : Z) : M qmem unit := l ← queue_entry a; modify <[a := (l.1, v)]>.

Definition queue_init (q : Z) : M qmem unit := set_prev q q;; set_next q q.
Definition queue_first (q : Z) : M qmem Z := queue_next q.
Definition queue_last (q : Z) : M qmem Z := queue_prev q.
Definition queue_end (q qe : Z) : bool := q =? qe.
Definition queue_empty (q : Z) : M qmem bool := f ← queue_first q; mret (queue_end q f).

Definition queue_enter (head elt : Z) : M qmem unit :=
  prev ← queue_prev head;
  (if head =? prev then set_next head elt else set_next prev elt);;
  set_prev elt prev;;
  set_next elt head;;
  set_prev head elt.

Definition queue_enter_first (head elt : Z) : M qmem unit :=
  next ← queue_next head;
  (if head =? next then set_prev head elt else set_prev next elt);;
  set_next elt next;;
  set_prev elt head;;
  set_next head elt.

Definition queue_enter_before (head nelt elt : Z) : M qmem unit :=
  set_next elt nelt;;
  prev ← (if head =? nelt then
            prev ← queue_prev head; set_prev elt prev;; set_prev head elt;; mret prev
          else
            prev ← queue_prev nelt; set_prev elt prev;; set_prev nelt elt;; mret prev);
  if head =? prev then set_next head elt else set_next prev elt.

Definition queue_enter_after (head pelt elt : Z) : M qmem unit :=
  set_prev elt pelt;;
  next ← (if head =? pelt then
            next ← queue_next head; set_next elt next;; set_next head elt;; mret next
          else
            next ← queue_next pelt; set_next elt next;; set_next pelt elt;; mret next);
  if head =? next then set_prev head elt else set_prev next elt.

Definition queue_remove (head elt : Z) : M qmem unit :=
  next ← queue_next elt;
  prev ← queue_prev elt;
  (if head =? next then set_prev head prev else set_prev next prev);;
  (if head =? prev then set_next head next else set_next prev next).

Definition queue_remove_first (head : Z) : M qmem Z :=
  entry ← queue_next head;
  next ← queue_next entry;
  (if head =? next then set_prev head head else set_prev next head);;
  set_next head next;;
  mret entry.

(** The elements a loop [queue_iterate] visits, from [elt] on. *)
Fixpoint iterate_loop (fuel : nat) (head elt : Z) : M qmem (list Z) :=
  match fuel with
  | O => diverge
  | S fuel' =>
      if queue_end head elt then mret [] else
      next ← queue_next elt; rest ← iterate_loop fuel' head next; mret (elt :: rest)
  end.
Definition queue_iterate (head : Z) : M qmem (list Z) :=
  first ← queue_first head; m ← get; iterate_loop (S (size m)) head first.

(** ** The ring as a list *)

Definition nx (m : qmem) (a : Z) : option Z := fst <$> m !! a.
Definition pv (m : qmem) (a : Z) : option Z := snd <$> m !! a.

(** [a], the elements [l] and [b] are linked in this order, both ways. *)
Fixpoint links (m : qmem) (a : Z) (l : list Z) (b : Z) : Prop :=
  match l with
  | [] => nx m a = Some b /\ pv m b = Some a
  | x :: l' => nx m a = Some x /\ pv m x = Some a /\ links m x l' b
  end.

(** The queue at [q] holds [l]. *)
Definition queue_rep (m : qmem) (q : Z) (l : list Z) : Prop := NoDup (q :: l) /\ links m q l q.

(** ** What the operations mean *)

Inductive qop :=
  | q_enter (e : Z) | q_enter_first (e : Z) | q_enter_before (n e : Z) | q_enter_after (p e : Z)
  | q_remove (e : Z) | q_remove_first | q_empty | q_elements.

(** Insert [e] before or after [x]. *)
Fixpoint before (x e : Z) (l : list Z) : list Z :=
  match l with [] => [] | y :: l' => if x =? y then e :: y :: l' else y :: before x e l' end.
Fixpoint after (x e : Z) (l : list Z) : list Z :=
  match l with [] => [] | y :: l' => if x =? y then y :: e :: l' else y :: after x e l' end.

(** The list and what the operation returns; [None] where it may not be used. *)
Definition list_qop (op : qop) (l : list Z) : option (list Z * list Z) :=
  match op with
  | q_enter e => if decide (e ∈ l) then None else Some (l ++ [e], [])
  | q_enter_first e => if decide (e ∈ l) then None else Some (e :: l, [])
  | q_enter_before n e => if decide (e ∉ l /\ n ∈ l) then Some (before n e l, []) else None
  | q_enter_after p e => if decide (e ∉ l /\ p ∈ l) then Some (after p e l, []) else None
  | q_remove e => if decide (e ∈ l) then Some (filter (.≠ e) l, []) else None
  | q_remove_first => match l with [] => None | e :: l' => Some (l', [e]) end
  | q_empty => Some (l, [b2z (bool_decide (l = []))])
  | q_elements => Some (l, l)
  end.

Definition mem_qop (q : Z) (op : qop) : M qmem (list Z) :=
  match op with
  | q_enter e => queue_enter q e;; mret []
  | q_enter_first e => queue_enter_first q e;; mret []
  | q_enter_before n e => queue_enter_before q n e;; mret []
  | q_enter_after p e => queue_enter_after q p e;; mret []
  | q_remove e => queue_remove q e;; mret []
  | q_remove_first => e ← queue_remove_first q; mret [e]
  | q_empty => b ← queue_empty q; mret [b2z b]
  | q_elements => queue_iterate q
  end.

(** The element an operation puts into the queue. *)
Definition new_elt (op : qop) : option Z :=
  match op with
  | q_enter e | q_enter_first e | q_enter_before _ e | q_enter_after _ e => Some e
  | _ => None
  end.

Fixpoint list_qops (ops : list qop) (l : list Z) : option (list Z * list (list Z)) :=
  match ops with
  | [] => Some (l, [])
  | op :: ops' => r ← list_qop op l; r' ← list_qops ops' r.1; Some (r'.1, r.2 :: r'.2)
  end.
Fixpoint mem_qops (q : Z) (ops : list qop) : M qmem (list (list Z)) :=
  match ops with [] => mret [] | op :: ops' => r ← mem_qop q op; rs ← mem_qops q ops'; mret (r :: rs) end.

(** ** Links *)

Section Links.
Implicit Types (m : qmem) (l : list Z).

Lemma wp_next m a v (Q : Z -> qmem -> Prop) : nx m a = Some v -> Q v m -> wp (queue_next a) m Q.
Proof.
  unfold nx, queue_next, queue_entry. destruct (m !! a) as [p|] eqn:E; [|done]. intros [= <-] HQ.
  wp_step. wp_step. wp_step. eapply wp_some_or_fault; [done|]. by wp_step.
Qed.

Lemma wp_prev m a v (Q : Z -> qmem -> Prop) : pv m a = Some v -> Q v m -> wp (queue_prev a) m Q.
Proof.
  unfold pv, queue_prev, queue_entry. destruct (m !! a) as [p|] eqn:E; [|done]. intros [= <-] HQ.
  wp_step. wp_step. wp_step. eapply wp_some_or_fault; [done|]. by wp_step.
Qed.

(** [m'] is [m] but for the next, or previous, address of [a]. *)
Definition next_set m a v m' : Prop :=
  nx m' a = Some v /\ (forall b, b <> a -> nx m' b = nx m b) /\ (forall b, pv m' b = pv m b) /\
  forall b, is_Some (m' !! b) <-> is_Some (m !! b).
Definition prev_set m a v m' : Prop :=
  pv m' a = Some v /\ (forall b, b <> a -> pv m' b = pv m b) /\ (forall b, nx m' b = nx m b) /\
  forall b, is_Some (m' !! b) <-> is_Some (m !! b).

Lemma insert_dom m a p p' b : m !! a = Some p -> is_Some (<[a := p']> m !! b) <-> is_Some (m !! b).
Proof.
  intros E. destruct (decide (b = a)) as [->|]; [rewrite lookup_insert_eq, E; by split; eauto|by rewrite lookup_insert_ne].
Qed.

Lemma wp_set_next m a v (Q : unit -> qmem -> Prop) :
  is_Some (m !! a) -> (forall m', next_set m a v m' -> Q tt m') -> wp (set_next a v) m Q.
Proof.
  intros [p E] HQ. unfold set_next, queue_entry. wp_step. wp_step. wp_step. eapply wp_some_or_fault; [done|].
  wp_step. apply HQ. unfold next_set, nx, pv. split_and!.
  - by rewrite lookup_insert_eq.
  - intros b Hb. by rewrite lookup_insert_ne.
  - intros b. destruct (decide (b = a)) as [->|]; [by rewrite lookup_insert_eq, E|by rewrite lookup_insert_ne].
  - intros b. by eapply insert_dom.
Qed.

Lemma wp_set_prev m a v (Q : unit -> qmem -> Prop) :
  is_Some (m !! a) -> (forall m', prev_set m a v m' -> Q tt m') -> wp (set_prev a v) m Q.
Proof.
  intros [p E] HQ. unfold set_prev, queue_entry. wp_step. wp_step. wp_step. eapply wp_some_or_fault; [done|].
  wp_step. apply HQ. unfold prev_set, nx, pv. split_and!.
  - by rewrite lookup_insert_eq.
  - intros b Hb. by rewrite lookup_insert_ne.
  - intros b. destruct (decide (b = a)) as [->|]; [by rewrite lookup_insert_eq, E|by rewrite lookup_insert_ne].
  - intros b. by eapply insert_dom.
Qed.

Lemma links_app m a l1 x l2 b : links m a (l1 ++ x :: l2) b <-> links m a l1 x /\ links m x l2 b.
Proof. revert a. induction l1 as [|y l1 IH]; intros a; simpl; [tauto|]. rewrite IH. tauto. Qed.

Lemma links_first m a l b : links m a l b -> nx m a = Some (default b (head l)).
Proof. destruct l; simpl; tauto. Qed.

Lemma links_last m a l b : links m a l b -> pv m b = Some (default a (list.last l)).
Proof.
  destruct l as [|x l _] using rev_ind; simpl; [tauto|]. rewrite links_app, last_snoc. simpl. tauto.
Qed.

(** Links depend on the next addresses of all but the last and the previous of all
    but the first. *)
Lemma links_frame m m' a l b :
  (forall x, x ∈ a :: l -> nx m' x = nx m x) -> (forall x, x ∈ l ++ [b] -> pv m' x = pv m x) ->
  links m a l b -> links m' a l b.
Proof.
  revert a. induction l as [|x l IH]; intros a Hn Hp; simpl.
  - rewrite Hn, Hp by set_solver. done.
  - rewrite Hn, Hp by set_solver. intros (? & ? & ?). split_and!; [done..|]. apply IH; [set_solver..|done].
Qed.

Lemma links_dom m a l b x : links m a l b -> x ∈ a :: l ++ [b] -> is_Some (m !! x).
Proof.
  revert a. induction l as [|y l IH]; intros a; simpl.
  - unfold nx, pv. intros [H1 H2] [->|[->|?%not_elem_of_nil]%elem_of_cons]%elem_of_cons; [| |done].
    + by destruct (m !! a).
    + by destruct (m !! b).
  - intros (H1 & H2 & H3) [->|Hx]%elem_of_cons; [unfold nx in H1; by destruct (m !! a)|]. by eapply IH.
Qed.
End Links.

(** ** Inserting and removing *)

Section Ring.
Implicit Types (m : qmem) (l : list Z).

(** [m'] has [e] linked between [a] and [b], or [a] linked to [b]. *)
Definition inserted m a e b m' : Prop :=
  nx m' a = Some e /\ pv m' e = Some a /\ nx m' e = Some b /\ pv m' b = Some e /\
  (forall x, x <> a -> x <> e -> nx m' x = nx m x) /\ (forall x, x <> b -> x <> e -> pv m' x = pv m x).
Definition removed m a b m' : Prop :=
  nx m' a = Some b /\ pv m' b = Some a /\
  (forall x, x <> a -> nx m' x = nx m x) /\ (forall x, x <> b -> pv m' x = pv m x).

Lemma links_tail m m' h e l r :
  links m h l r -> NoDup l -> r ∉ l -> e ∉ l -> e <> r ->
  nx m' e = Some (default r (head l)) -> pv m' (default r (head l)) = Some e ->
  (forall x, x ∈ l -> nx m' x = nx m x) ->
  (forall x, x <> default r (head l) -> x <> e -> pv m' x = pv m x) -> links m' e l r.
Proof.
  intros H Hd Hr He Her H1 H2 Hn Hp. destruct l as [|y l]; [done|]. simpl in *.
  destruct H as (_ & _ & H). split_and!; [done..|].
  apply list.NoDup_cons in Hd as [Hy Hd].
  eapply links_frame; [|..|exact H]; [set_solver|]. intros x [Hx| ->%list_elem_of_singleton]%elem_of_app; apply Hp; set_solver.
Qed.

Lemma links_insert m m' h l1 e l2 r :
  links m h (l1 ++ l2) r -> NoDup (h :: l1 ++ l2) -> r ∉ l1 ++ l2 -> e ∉ h :: l1 ++ l2 -> e <> r ->
  inserted m (default h (list.last l1)) e (default r (head l2)) m' -> links m' h (l1 ++ e :: l2) r.
Proof.
  intros H Hd Hr He Her (I1 & I2 & I3 & I4 & I5 & I6).
  destruct l1 as [|x l1 _] using rev_ind; [|rewrite last_snoc in *]; simpl in *.
  - split_and!; [done..|]. apply list.NoDup_cons in Hd as [Hh Hd].
    apply (links_tail m m' h); try done; [set_solver|]. intros; apply I5; set_solver.
  - rewrite <- app_assoc in *. simpl in *. apply links_app in H as [H1 H2]. apply links_app.
    apply list.NoDup_cons in Hd as [Hh Hd]. apply list.NoDup_app in Hd as (Hd1 & Hd2 & Hd3). apply list.NoDup_cons in Hd3 as [Hx Hd3].
    split.
    + eapply links_frame; [| |exact H1].
      * intros y Hy. apply I5; set_solver.
      * intros y Hy. apply I6; [|set_solver]. destruct l2 as [|z l2]; simpl; set_solver.
    + simpl. split_and!; [done..|]. apply (links_tail m m' x); try done; [set_solver..|]. intros; apply I5; set_solver.
Qed.

Lemma links_remove m m' h l1 e l2 r :
  links m h (l1 ++ e :: l2) r -> NoDup (h :: l1 ++ e :: l2) -> r ∉ l1 ++ e :: l2 ->
  removed m (default h (list.last l1)) (default r (head l2)) m' -> links m' h (l1 ++ l2) r.
Proof.
  intros H Hd Hr (I1 & I2 & I3 & I4).
  destruct l1 as [|x l1 _] using rev_ind; [|rewrite last_snoc in *]; simpl in *.
  - destruct H as (_ & _ & H). apply list.NoDup_cons in Hd as [Hh Hd]. apply list.NoDup_cons in Hd as [He Hd].
    destruct l2 as [|y l2]; [done|]. simpl in *. destruct H as (_ & _ & H). split_and!; [done..|].
    apply list.NoDup_cons in Hd as [Hy Hd].
    eapply links_frame; [| |exact H]; intros z Hz; [apply I3|apply I4]; set_solver.
  - rewrite <- app_assoc in *. simpl in *. apply links_app in H as [H1 (_ & _ & H2)].
    apply list.NoDup_cons in Hd as [Hh Hd]. apply list.NoDup_app in Hd as (Hd1 & Hd2 & Hd3).
    apply list.NoDup_cons in Hd3 as [Hx Hd3]. apply list.NoDup_cons in Hd3 as [He Hd3]. apply links_app. split.
    + eapply links_frame; [| |exact H1]; intros z Hz; [apply I3; set_solver|apply I4].
      destruct l2 as [|y l2]; simpl in *; set_solver.
    + destruct l2 as [|y l2]; [done|]. simpl in *. destruct H2 as (_ & _ & H2). split_and!; [done..|].
      apply list.NoDup_cons in Hd3 as [Hy Hd3].
      eapply links_frame; [| |exact H2]; intros z Hz; [apply I3|apply I4]; set_solver.
Qed.
End Ring.

(** Follow an address back through the memories of a sequence of writes. *)
Ltac look :=
  repeat lazymatch goal with
  | H : next_set _ _ _ _ |- _ => destruct H as (? & ? & ? & ?)
  | H : prev_set _ _ _ _ |- _ => destruct H as (? & ? & ? & ?)
  end;
  repeat first
    [ assumption | reflexivity
    | match goal with
      | H : forall b, nx ?m' b = nx ?m b |- nx ?m' _ = _ => rewrite H
      | H : forall b, pv ?m' b = pv ?m b |- pv ?m' _ = _ => rewrite H
      | H : forall b, b <> ?a -> nx ?m' b = nx ?m b |- nx ?m' ?x = _ => rewrite (H x) by congruence
      | H : forall b, b <> ?a -> pv ?m' b = pv ?m b |- pv ?m' ?x = _ => rewrite (H x) by congruence
      end ].

Section Ops.
Implicit Types (m : qmem) (l : list Z).

Lemma dom_next m a v m' b : next_set m a v m' -> is_Some (m !! b) -> is_Some (m' !! b).
Proof. intros (_ & _ & _ & H). by apply H. Qed.
Lemma dom_prev m a v m' b : prev_set m a v m' -> is_Some (m !! b) -> is_Some (m' !! b).
Proof. intros (_ & _ & _ & H). by apply H. Qed.
#[local] Hint Resolve dom_next dom_prev : core.

(** The head's link is written like the others. *)
Lemma wp_if_head (f : Z -> M qmem unit) q a m (Q : unit -> qmem -> Prop) :
  wp (f a) m Q -> wp (if q =? a then f q else f a) m Q.
Proof. by destruct (Z.eqb_spec q a) as [->|]. Qed.

(** Between [a] and [b], adjacent in the ring. *)
Lemma enter_spec m q e a :
  pv m q = Some a -> is_Some (m !! a) -> is_Some (m !! q) -> is_Some (m !! e) -> e <> a -> e <> q ->
  wp (queue_enter q e) m (fun _ m' => inserted m a e q m').
Proof.
  intros Ha Da Dq De Hea Heq. unfold queue_enter. wp_step. eapply wp_prev; [done|]. wp_step.
  apply (wp_if_head (fun x => set_next x e)). eapply wp_set_next; [done|]. intros m1 H1.
  wp_step. eapply wp_set_prev; [eauto|]. intros m2 H2.
  wp_step. eapply wp_set_next; [eauto|]. intros m3 H3. eapply wp_set_prev; [eauto|]. intros m4 H4.
  unfold inserted. split_and!; intros; look.
Qed.

Lemma enter_first_spec m q e b :
  nx m q = Some b -> is_Some (m !! b) -> is_Some (m !! q) -> is_Some (m !! e) -> e <> b -> e <> q ->
  wp (queue_enter_first q e) m (fun _ m' => inserted m q e b m').
Proof.
  intros Hb Db Dq De Heb Heq. unfold queue_enter_first. wp_step. eapply wp_next; [done|]. wp_step.
  apply (wp_if_head (fun x => set_prev x e)). eapply wp_set_prev; [done|]. intros m1 H1.
  wp_step. eapply wp_set_next; [eauto|]. intros m2 H2.
  wp_step. eapply wp_set_prev; [eauto|]. intros m3 H3. eapply wp_set_next; [eauto|]. intros m4 H4.
  unfold inserted. split_and!; intros; look.
Qed.

Lemma enter_before_spec m q n e a :
  pv m n = Some a -> is_Some (m !! a) -> is_Some (m !! n) -> is_Some (m !! e) -> e <> a -> e <> n -> n <> q ->
  wp (queue_enter_before q n e) m (fun _ m' => inserted m a e n m').
Proof.
  intros Ha Da Dn De Hea Hen Hnq. unfold queue_enter_before. wp_step. eapply wp_set_next; [eauto|]. intros m1 H1.
  destruct (Z.eqb_spec q n); [congruence|]. wp_step. wp_step. apply (wp_prev _ _ a); [look|]. wp_step.
  eapply wp_set_prev; [eauto|]. intros m2 H2. wp_step. eapply wp_set_prev; [eauto|]. intros m3 H3. wp_step.
  apply (wp_if_head (fun x => set_next x e)). eapply wp_set_next; [eauto|]. intros m4 H4. unfold inserted. split_and!; intros; look.
Qed.

Lemma enter_after_spec m q p e b :
  nx m p = Some b -> is_Some (m !! b) -> is_Some (m !! p) -> is_Some (m !! e) -> e <> b -> e <> p -> p <> q ->
  wp (queue_enter_after q p e) m (fun _ m' => inserted m p e b m').
Proof.
  intros Hb Db Dp De Heb Hep Hpq. unfold queue_enter_after. wp_step. eapply wp_set_prev; [eauto|]. intros m1 H1.
  destruct (Z.eqb_spec q p); [congruence|]. wp_step. wp_step. apply (wp_next _ _ b); [look|]. wp_step.
  eapply wp_set_next; [eauto|]. intros m2 H2. wp_step. eapply wp_set_next; [eauto|]. intros m3 H3. wp_step.
  apply (wp_if_head (fun x => set_prev x e)). eapply wp_set_prev; [eauto|]. intros m4 H4. unfold inserted. split_and!; intros; look.
Qed.

Lemma remove_spec m q e a b :
  nx m e = Some b -> pv m e = Some a -> is_Some (m !! a) -> is_Some (m !! b) ->
  wp (queue_remove q e) m (fun _ m' => removed m a b m').
Proof.
  intros Hb Ha Da Db. unfold queue_remove. wp_step. eapply wp_next; [done|]. wp_step. eapply wp_prev; [done|].
  wp_step. apply (wp_if_head (fun x => set_prev x a)). eapply wp_set_prev; [done|]. intros m1 H1.
  apply (wp_if_head (fun x => set_next x b)). eapply wp_set_next; [eauto|]. intros m2 H2.
  unfold removed. split_and!; intros; look.
Qed.

Lemma remove_first_spec m q e b :
  nx m q = Some e -> nx m e = Some b -> is_Some (m !! q) -> is_Some (m !! b) ->
  wp (queue_remove_first q) m (fun r m' => r = e /\ removed m q b m').
Proof.
  intros He Hb Dq Db. unfold queue_remove_first. wp_step. eapply wp_next; [done|]. wp_step. eapply wp_next; [done|].
  wp_step. apply (wp_if_head (fun x => set_prev x q)). eapply wp_set_prev; [done|]. intros m1 H1. wp_step. eapply wp_set_next; [eauto|]. intros m2 H2. wp_step.
  split; [done|]. unfold removed. split_and!; intros; look.
Qed.
End Ops.

(** ** Each operation on the list *)

Section Queue.
Implicit Types (m : qmem) (l : list Z).

Lemma same_links m m' x : nx m' x = nx m x -> pv m' x = pv m x -> m' !! x = m !! x.
Proof. unfold nx, pv. destruct (m !! x) as [[]|], (m' !! x) as [[]|]; simpl; congruence. Qed.

(** Only links of the queue [q], [l] and of [e] differ. *)
Definition only_links q l (e : option Z) m m' : Prop :=
  forall x, x ∉ q :: l -> e <> Some x -> m' !! x = m !! x.

Lemma last_in q l : default q (list.last l) ∈ q :: l.
Proof. destruct l as [|x l _] using rev_ind; [set_solver|]. rewrite last_snoc. set_solver. Qed.
Lemma head_in q l : default q (head l) ∈ q :: l.
Proof. destruct l; set_solver. Qed.

Lemma rep_dom m q l x : queue_rep m q l -> x ∈ q :: l -> is_Some (m !! x).
Proof. intros [_ H] Hx. eapply links_dom; [done|]. set_solver. Qed.

Lemma rep_insert m q l1 e l2 m' :
  queue_rep m q (l1 ++ l2) -> e ∉ q :: l1 ++ l2 ->
  inserted m (default q (list.last l1)) e (default q (head l2)) m' ->
  queue_rep m' q (l1 ++ e :: l2) /\ only_links q (l1 ++ l2) (Some e) m m'.
Proof.
  intros [Hd Hl] He I. pose proof (last_in q l1). pose proof (head_in q l2). split.
  - pose proof Hd as Hd'. apply list.NoDup_cons in Hd' as [Hq Hd']. apply list.NoDup_app in Hd' as (D1 & D2 & D3). split.
    + apply list.NoDup_cons. split; [set_solver|]. apply list.NoDup_app. split_and!; [done|set_solver|].
      apply list.NoDup_cons. split; [set_solver|done].
    + eapply links_insert; try done; set_solver.
  - destruct I as (_ & _ & _ & _ & I5 & I6). intros x Hx Hxe. apply same_links; [apply I5|apply I6]; set_solver.
Qed.

Lemma rep_remove m q l1 e l2 m' :
  queue_rep m q (l1 ++ e :: l2) -> removed m (default q (list.last l1)) (default q (head l2)) m' ->
  queue_rep m' q (l1 ++ l2) /\ only_links q (l1 ++ l2) None m m'.
Proof.
  intros [Hd Hl] I. pose proof (last_in q l1). pose proof (head_in q l2). split.
  - pose proof Hd as Hd'. apply list.NoDup_cons in Hd' as [Hq Hd']. apply list.NoDup_app in Hd' as (D1 & D2 & D3).
    apply list.NoDup_cons in D3 as [De D3]. split.
    + apply list.NoDup_cons. split; [set_solver|]. apply list.NoDup_app. split_and!; [done|set_solver|done].
    + by eapply links_remove.
  - destruct I as (_ & _ & I3 & I4). intros x Hx _. apply same_links; [apply I3|apply I4]; set_solver.
Qed.

(** The neighbours of a place in the ring. *)
Lemma rep_links m q l1 l2 :
  queue_rep m q (l1 ++ l2) ->
  nx m (default q (list.last l1)) = Some (default q (head l2)) /\ pv m (default q (head l2)) = Some (default q (list.last l1)).
Proof.
  intros [Hd Hl]. destruct l1 as [|x l1 _] using rev_ind; simpl.
  - destruct l2; simpl in *; tauto.
  - rewrite last_snoc. simpl. rewrite <- app_assoc in Hl. simpl in Hl. apply links_app in Hl as [_ Hl].
    destruct l2; simpl in *; tauto.
Qed.

Lemma inserted_dom m a e b m' x : inserted m a e b m' -> is_Some (m !! x) -> is_Some (m' !! x).
Proof.
  intros (I1 & _ & I3 & _ & I5 & _) Hx. assert (is_Some (nx m' x)) as Hn; [|by apply fmap_is_Some in Hn].
  destruct (decide (x = a)) as [->|]; [by rewrite I1|]. destruct (decide (x = e)) as [->|]; [by rewrite I3|].
  rewrite I5 by done. unfold nx. destruct Hx as [? ->]. by eexists.
Qed.

Lemma removed_dom m a b m' x : removed m a b m' -> is_Some (m !! x) -> is_Some (m' !! x).
Proof.
  intros (I1 & _ & I3 & _) Hx. assert (is_Some (nx m' x)) as Hn; [|by apply fmap_is_Some in Hn].
  destruct (decide (x = a)) as [->|]; [by rewrite I1|]. rewrite I3 by done. unfold nx. destruct Hx as [? ->]. by eexists.
Qed.

Lemma before_split n e l1 l2 : n ∉ l1 -> before n e (l1 ++ n :: l2) = l1 ++ e :: n :: l2.
Proof.
  induction l1 as [|y l1 IH]; simpl; intros Hn; [by rewrite Z.eqb_refl|].
  destruct (Z.eqb_spec n y); [set_solver|]. rewrite IH; [done|set_solver].
Qed.
Lemma after_split n e l1 l2 : n ∉ l1 -> after n e (l1 ++ n :: l2) = l1 ++ n :: e :: l2.
Proof.
  induction l1 as [|y l1 IH]; simpl; intros Hn; [by rewrite Z.eqb_refl|].
  destruct (Z.eqb_spec n y); [set_solver|]. rewrite IH; [done|set_solver].
Qed.
Lemma filter_out e l : e ∉ l -> filter (.≠ e) l = l.
Proof.
  induction l as [|y l IH]; intros He; [done|]. rewrite filter_cons, decide_True by set_solver. rewrite IH; set_solver.
Qed.

Lemma iterate_spec m q l a n :
  links m a l q -> q ∉ l -> (length l < n)%nat -> iterate_loop n q (default q (head l)) m = Ret l m.
Proof.
  revert a n. induction l as [|x l IH]; intros a [|n] Hl Hq Hn; simpl in Hn; try lia.
  - simpl. unfold queue_end. by rewrite Z.eqb_refl.
  - simpl. unfold queue_end. destruct (Z.eqb_spec q x); [set_solver|]. simpl in Hl. destruct Hl as (_ & _ & Hl).
    eapply wp_bind_eq.
    { eapply (wp_next _ _ _ (fun v m' => v = default q (head l) /\ m' = m)); [by eapply links_first|done]. }
    intros v m' [-> ->]. erewrite bind_Ret; [done|]. eapply IH; [done|set_solver|lia].
Qed.

(** What a step promises. *)
Definition step_ok m q l op l' (r r' : list Z) m' : Prop :=
  r' = r /\ queue_rep m' q l' /\ only_links q l (new_elt op) m m' /\ forall x, is_Some (m !! x) -> is_Some (m' !! x).
End Queue.

Section Refine.
Implicit Types (m : qmem) (l : list Z) (op : qop).

Lemma step_insert m q l1 e l2 op l' (f : M qmem unit) :
  queue_rep m q (l1 ++ l2) -> e ∉ q :: l1 ++ l2 -> new_elt op = Some e -> l' = l1 ++ e :: l2 ->
  wp f m (fun _ m' => inserted m (default q (list.last l1)) e (default q (head l2)) m') ->
  wp (f;; mret []) m (step_ok m q (l1 ++ l2) op l' []).
Proof.
  intros Hr He Hop -> Hf. wp_step. eapply wp_mono; [exact Hf|]. intros [] m' I. wp_step.
  destruct (rep_insert _ _ _ _ _ _ Hr He I) as [H1 H2].
  split_and!; [done|done|by rewrite Hop|]. intros x. by eapply inserted_dom.
Qed.

Lemma enter_step m q e l : queue_rep m q l -> is_Some (m !! e) -> e ∉ q :: l ->
  wp (queue_enter q e;; mret []) m (step_ok m q l (q_enter e) (l ++ [e]) []).
Proof.
  intros Hr De He. pose proof (rep_links m q l []) as Hn. rewrite app_nil_r in Hn. destruct (Hn Hr) as [_ Hp].
  rewrite <- (app_nil_r l) at 1. eapply (step_insert _ _ _ e); rewrite ?app_nil_r; try done.
  apply enter_spec; try done; [eapply rep_dom; [done|apply last_in]|eapply rep_dom; [done|by left]|..];
    pose proof (last_in q l); set_solver.
Qed.

Lemma enter_first_step m q e l : queue_rep m q l -> is_Some (m !! e) -> e ∉ q :: l ->
  wp (queue_enter_first q e;; mret []) m (step_ok m q l (q_enter_first e) (e :: l) []).
Proof.
  intros Hr De He. destruct (rep_links m q [] l Hr) as [Hn _]. apply (step_insert _ _ [] e); try done.
  apply enter_first_spec; try done; [eapply rep_dom; [done|apply head_in]|eapply rep_dom; [done|by left]|..];
    pose proof (head_in q l); set_solver.
Qed.

Lemma enter_before_step m q n e l : queue_rep m q l -> is_Some (m !! e) -> e ∉ q :: l -> n ∈ l ->
  wp (queue_enter_before q n e;; mret []) m (step_ok m q l (q_enter_before n e) (before n e l) []).
Proof.
  intros Hr De He (l1 & l2 & -> & Hn)%list_elem_of_split_l. destruct (rep_links _ _ _ _ Hr) as [_ Hp].
  eapply (step_insert _ _ _ e); [done..|by apply before_split|]. pose proof (last_in q l1).
  apply enter_before_spec; try done; [eapply rep_dom; [done|set_solver]..|set_solver|set_solver|].
  destruct Hr as [[Hq _]%list.NoDup_cons _]. set_solver.
Qed.

Lemma enter_after_step m q p e l : queue_rep m q l -> is_Some (m !! e) -> e ∉ q :: l -> p ∈ l ->
  wp (queue_enter_after q p e;; mret []) m (step_ok m q l (q_enter_after p e) (after p e l) []).
Proof.
  intros Hr De He (l1 & l2 & -> & Hp)%list_elem_of_split_l. rewrite (cons_middle p l1 l2), app_assoc in *.
  destruct (rep_links _ _ _ _ Hr) as [Hn _]. rewrite last_snoc in Hn.
  eapply (step_insert _ _ _ e); [done..|rewrite <- !app_assoc; by apply after_split|]. rewrite last_snoc.
  pose proof (head_in q l2). apply enter_after_spec; try done; [eapply rep_dom; [done|set_solver]..|set_solver|set_solver|].
  destruct Hr as [[Hq _]%list.NoDup_cons _]. set_solver.
Qed.

(** Taking [e] out. *)
Lemma step_remove m q l1 e l2 op r m' :
  queue_rep m q (l1 ++ e :: l2) -> removed m (default q (list.last l1)) (default q (head l2)) m' ->
  new_elt op = None -> step_ok m q (l1 ++ e :: l2) op (l1 ++ l2) r r m'.
Proof.
  intros Hr Hm Hop. destruct (rep_remove _ _ _ _ _ _ Hr Hm) as [H1 H2].
  split_and!; [done|done| |by intros x; eapply removed_dom]. intros x Hx _. apply H2; set_solver.
Qed.

Lemma remove_step m q e l : queue_rep m q l -> e ∈ l ->
  wp (queue_remove q e;; mret []) m (step_ok m q l (q_remove e) (filter (.≠ e) l) []).
Proof.
  intros Hr (l1 & l2 & -> & He)%list_elem_of_split_l. destruct (rep_links m q l1 (e :: l2) Hr) as [_ Hp].
  pose proof Hr as Hr'. rewrite (cons_middle e l1 l2), app_assoc in Hr'. destruct (rep_links _ _ _ _ Hr') as [Hn _].
  rewrite last_snoc in Hn. pose proof (last_in q l1). pose proof (head_in q l2). wp_step. eapply wp_mono.
  { apply (remove_spec _ _ _ (default q (list.last l1)) (default q (head l2)));
      [done|done|eapply rep_dom; [exact Hr|set_solver]..]. }
  intros [] m' Hm. wp_step.
  assert (filter (.≠ e) (l1 ++ e :: l2) = l1 ++ l2) as ->; [|by apply step_remove].
  rewrite list.filter_app, filter_cons, decide_False by tauto. destruct Hr as [[_ Hd]%list.NoDup_cons _].
  apply list.NoDup_app in Hd as (_ & _ & [He2 _]%list.NoDup_cons). by rewrite !filter_out.
Qed.

Lemma remove_first_step m q e l : queue_rep m q (e :: l) ->
  wp (e ← queue_remove_first q; mret [e]) m (step_ok m q (e :: l) q_remove_first l [e]).
Proof.
  intros Hr. destruct (rep_links m q [] (e :: l) Hr) as [Hf _]. destruct (rep_links m q [e] l Hr) as [Hn _].
  pose proof (head_in q l). wp_step. eapply wp_mono.
  { apply (remove_first_spec _ _ e (default q (head l))); [done|done|eapply rep_dom; [exact Hr|set_solver]..]. }
  intros x m' [-> Hm]. wp_step. by apply (step_remove m q [] e l).
Qed.
End Refine.

Lemma qop_spec m q op l l' r :
  queue_rep m q l -> (forall e, new_elt op = Some e -> is_Some (m !! e) /\ e <> q) ->
  list_qop op l = Some (l', r) -> wp (mem_qop q op) m (step_ok m q l op l' r).
Proof.
  intros Hr Hnew Hop. assert (forall e, new_elt op = Some e -> e ∉ l -> e ∉ q :: l) as Hni.
  { intros e He Hl. destruct (Hnew e He). set_solver. }
  destruct op as [e|e|n e|p e|e| | |]; simpl in *.
  - destruct (decide (e ∈ l)); [done|]. injection Hop as <- <-. apply enter_step; [done|by apply Hnew|by apply Hni].
  - destruct (decide (e ∈ l)); [done|]. injection Hop as <- <-. apply enter_first_step; [done|by apply Hnew|by apply Hni].
  - destruct (decide (e ∉ l /\ n ∈ l)) as [[? ?]|]; [|done]. injection Hop as <- <-.
    apply enter_before_step; [done|by apply Hnew|by apply Hni|done].
  - destruct (decide (e ∉ l /\ p ∈ l)) as [[? ?]|]; [|done]. injection Hop as <- <-.
    apply enter_after_step; [done|by apply Hnew|by apply Hni|done].
  - destruct (decide (e ∈ l)); [|done]. injection Hop as <- <-. by apply remove_step.
  - destruct l as [|e l]; [done|]. injection Hop as <- <-. by apply remove_first_step.
  - injection Hop as <- <-. destruct (rep_links m q [] l Hr) as [Hn _]. wp_step. unfold queue_empty, queue_first.
    wp_step. eapply wp_next; [done|]. wp_step. wp_step. split_and!; [|done|done|done]. do 2 f_equal.
    unfold queue_end. destruct l as [|x l]; simpl; [by rewrite Z.eqb_refl|].
    apply Z.eqb_neq. destruct Hr as [[Hq _]%list.NoDup_cons _]. set_solver.
  - injection Hop as <- <-. destruct (rep_links m q [] l Hr) as [Hn _]. unfold queue_iterate, queue_first.
    wp_step. eapply wp_next; [done|]. wp_step. wp_step. exists l, m. split; [|done]. destruct Hr as [Hd Hl].
    eapply iterate_spec; [done|apply list.NoDup_cons in Hd; tauto|].
    assert (length (q :: l) <= size m)%nat as Hle; [|simpl in Hle; lia].
    rewrite <- size_dom, <- (size_list_to_set (C := gset Z)) by done. apply subseteq_size.
    intros x Hx%elem_of_list_to_set. apply elem_of_dom. eapply links_dom; [done|set_solver].
Qed.

(** ** Property *)


(** A new queue is empty. *)
Lemma queue_init_spec m q : is_Some (m !! q) -> wp (queue_init q) m (fun _ m' => queue_rep m' q []).
Proof.
  intros Dq. unfold queue_init. wp_step. eapply wp_set_prev; [done|]. intros m1 H1.
  eapply wp_set_next; [by eapply dom_prev|]. intros m2 H2. split; [apply NoDup_singleton|]. simpl. split; look.
Qed.

(** ** Witness *)

(** A head at 1 and three elements. *)
Definition ex_mem : qmem := list_to_map [(1, (1, 1)); (10, (0, 0)); (20, (0, 0)); (30, (0, 0))].

