(* ===== verification/Heap.v ===== *)
(** * The object memory of the virtual machine

    Data model shared by the allocator, the collector, the stacks and the
    interpreter: object headers and storages ([include/vm/object.h],
    [alloc.h], [object_flags.h]), the data areas of the internal classes
    ([include/vm/internal_da.h]), the table of internal classes
    ([phantom/vm/internal.c]) and the global state of the machine.

    Memory is typed: the heap maps the address of every object header to the
    [pvm_object_storage] found there.  A pointer to the data area of an object
    ([curr_da], [_istack], [code], ...) is represented by the address of the
    object it points into.  Reading an address where no header starts, or a data
    area at the wrong type, is a [Fault]. *)

From S2P Require Import Prelude.

(** ** Constants *)

Definition PVM_OBJECT_START_MARKER : Z := 0x7FAA7F55.

Definition PVM_OBJECT_AH_ALLOCATOR_FLAG_FREE : Z := 0x00.
Definition PVM_OBJECT_AH_ALLOCATOR_FLAG_ALLOCATED : Z := 0x01.
Definition PVM_OBJECT_AH_ALLOCATOR_FLAG_REFZERO : Z := 0x02.
Definition PVM_OBJECT_AH_ALLOCATOR_FLAG_WENT_DOWN : Z := 0x04.
Definition PVM_OBJECT_AH_ALLOCATOR_FLAG_IN_BUFFER : Z := 0x08.

Definition PHANTOM_OBJECT_STORAGE_FLAG_IS_FINALIZER : Z := 0x1000.
Definition PHANTOM_OBJECT_STORAGE_FLAG_IS_CHILDFREE : Z := 0x800.
Definition PHANTOM_OBJECT_STORAGE_FLAG_IS_THREAD : Z := 0x400.
Definition PHANTOM_OBJECT_STORAGE_FLAG_IS_STACK_FRAME : Z := 0x200.
Definition PHANTOM_OBJECT_STORAGE_FLAG_IS_CALL_FRAME : Z := 0x100.
Definition PHANTOM_OBJECT_STORAGE_FLAG_IS_INTERNAL : Z := 0x80.
Definition PHANTOM_OBJECT_STORAGE_FLAG_IS_RESIZEABLE : Z := 0x40.
Definition PHANTOM_OBJECT_STORAGE_FLAG_IS_STRING : Z := 0x20.
Definition PHANTOM_OBJECT_STORAGE_FLAG_IS_INT : Z := 0x10.
Definition PHANTOM_OBJECT_STORAGE_FLAG_IS_DECOMPOSEABLE : Z := 0x08.
Definition PHANTOM_OBJECT_STORAGE_FLAG_IS_CLASS : Z := 0x04.
Definition PHANTOM_OBJECT_STORAGE_FLAG_IS_INTERFACE : Z := 0x02.
Definition PHANTOM_OBJECT_STORAGE_FLAG_IS_CODE : Z := 0x01.
Definition PHANTOM_OBJECT_STORAGE_FLAG_HAS_WEAKREF : Z := 0x100000.

(** [sizeof(pvm_object_storage_t)] on ia32: a 16 byte header, two references
    and two words; and [sizeof(struct pvm_object)]. *)
Definition sizeof_storage : Z := 40.
Definition sizeof_pvm_object : Z := 8.

(** ** References and data areas *)

(** [struct pvm_object]: a reference, with the interface it is seen through. *)
Record pvm_object := mkObj { data : Z; interface : Z }.

Definition null_ref : pvm_object := mkObj 0 0.

#[global] Instance pvm_object_eq_dec : EqDecision pvm_object.
Proof. solve_decision. Defined.

(** [struct pvm_exception_handler] *)
Record pvm_exception_handler := mkHandler { eh_object : pvm_object; eh_jump : Z }.

#[global] Instance pvm_exception_handler_eq_dec : EqDecision pvm_exception_handler.
Proof. solve_decision. Defined.

(** [struct pvm_stack_da_common] *)
Record stack_common := mkCommon {
  st_root : pvm_object;
  st_curr : pvm_object;
  st_prev : pvm_object;
  st_next : pvm_object;
  free_cell_ptr : Z;
  sSize : Z;
}.

(** The three [data_area_4_*_stack] structs differ in the type of a cell. *)
Record stack_da (A : Type) := mkStack {
  common : stack_common;
  curr_da : Z;
  cells : list A;
}.
Arguments mkStack {A} _ _ _.
Arguments common {A} _.
Arguments curr_da {A} _.
Arguments cells {A} _.

Record da_array := mkArray { page : pvm_object; page_size : Z; used_slots : Z }.

Record da_class := mkClass {
  object_flags : Z;
  object_data_area_size : Z;
  object_default_interface : pvm_object;
  sys_table_id : Z;
  class_name : pvm_object;
  class_parent : pvm_object;
  static_vars : pvm_object;
  ip2line_maps : pvm_object;
  method_names : pvm_object;
  field_names : pvm_object;
}.

Record da_call_frame := mkFrame {
  cf_istack : pvm_object;
  cf_ostack : pvm_object;
  cf_estack : pvm_object;
  cf_IP_max : Z;
  cf_code : Z;
  cf_IP : Z;
  cf_this_object : pvm_object;
  cf_prev : pvm_object;
  cf_ordinal : Z;
}.

(** [struct pvm_code_handler] *)
Record code_handler := mkCode { code : Z; IP : Z; IP_max : Z }.

Record da_thread := mkThread {
  th_code : code_handler;
  call_frame : pvm_object;
  owner : pvm_object;
  environment : pvm_object;
  _this_object : pvm_object;
  _istack : Z;
  _ostack : Z;
  _estack : Z;
  stack_depth : Z;
}.

Record da_directory := mkDirectory {
  elSize : Z; capacity : Z; nEntries : Z; container : pvm_object }.

(** [data_area_4_mutex], [..._cond] and [..._sema]; only the last has [sem_value]. *)
Record da_sync := mkSync {
  sy_owner : Z; waiting_threads_array : pvm_object; nwaiting : Z; sem_value : Z }.

Record da_connection := mkConnection {
  cn_owner : Z;
  cn_callback : pvm_object;
  callback_method : Z;
  p_kernel_state_object : pvm_object;
}.

Inductive data_area :=
  | DA_zero                                   (** every byte is zero *)
  | DA_slots (l : list pvm_object)            (** plain object, page, interface *)
  | DA_int (value : Z)
  | DA_long (value : Z)
  | DA_string (length : Z) (bytes : list Z)
  | DA_binary (data_size : Z) (bytes : list Z)
  | DA_code (code_size : Z) (bytes : list Z)
  | DA_array (a : da_array)
  | DA_class (c : da_class)
  | DA_call_frame (f : da_call_frame)
  | DA_thread (t : da_thread)
  | DA_istack (s : stack_da Z)
  | DA_ostack (s : stack_da pvm_object)
  | DA_estack (s : stack_da pvm_exception_handler)
  | DA_closure (object : pvm_object) (ordinal : Z)
  | DA_bitmap (image : pvm_object) (xsize ysize : Z)
  | DA_directory (d : da_directory)
  | DA_connection (c : da_connection)
  | DA_sync (y : da_sync)
  | DA_window (connector : pvm_object).

(** A zeroed data area read at each of the types. *)
Definition zero_common : stack_common := mkCommon null_ref null_ref null_ref null_ref 0 0.
Definition zero_class : da_class :=
  mkClass 0 0 null_ref 0 null_ref null_ref null_ref null_ref null_ref null_ref.
Definition zero_frame : da_call_frame :=
  mkFrame null_ref null_ref null_ref 0 0 0 null_ref null_ref 0.
Definition zero_thread : da_thread :=
  mkThread (mkCode 0 0 0) null_ref null_ref null_ref null_ref 0 0 0 0.

Definition as_slots (n : Z) (d : data_area) : option (list pvm_object) :=
  match d with
  | DA_zero => Some (replicate (Z.to_nat n) null_ref)
  | DA_slots l => if Z.of_nat (length l) =? n then Some l else None
  | _ => None
  end.
Definition as_int (d : data_area) : option Z :=
  match d with DA_zero => Some 0 | DA_int v => Some v | _ => None end.
Definition as_long (d : data_area) : option Z :=
  match d with DA_zero => Some 0 | DA_long v => Some v | _ => None end.
Definition as_string (d : data_area) : option (Z * list Z) :=
  match d with DA_zero => Some (0, []) | DA_string n b => Some (n, b) | _ => None end.
Definition as_code (d : data_area) : option (Z * list Z) :=
  match d with DA_zero => Some (0, []) | DA_code n b => Some (n, b) | _ => None end.
Definition as_array (d : data_area) : option da_array :=
  match d with DA_zero => Some (mkArray null_ref 0 0) | DA_array a => Some a | _ => None end.
Definition as_class (d : data_area) : option da_class :=
  match d with DA_zero => Some zero_class | DA_class c => Some c | _ => None end.
Definition as_frame (d : data_area) : option da_call_frame :=
  match d with DA_zero => Some zero_frame | DA_call_frame c => Some c | _ => None end.
Definition as_thread (d : data_area) : option da_thread :=
  match d with DA_zero => Some zero_thread | DA_thread c => Some c | _ => None end.

Definition as_binary (d : data_area) : option (Z * list Z) :=
  match d with DA_zero => Some (0, []) | DA_binary n b => Some (n, b) | _ => None end.
Definition as_closure (d : data_area) : option (pvm_object * Z) :=
  match d with DA_zero => Some (null_ref, 0) | DA_closure o n => Some (o, n) | _ => None end.
Definition as_directory (d : data_area) : option da_directory :=
  match d with
  | DA_zero => Some (mkDirectory 0 0 0 null_ref) | DA_directory c => Some c | _ => None end.
Definition as_sync (d : data_area) : option da_sync :=
  match d with DA_zero => Some (mkSync 0 null_ref 0 0) | DA_sync y => Some y | _ => None end.

(** ** Object storage *)

(** [struct object_PVM_ALLOC_Header] *)
Record alloc_header := mkAH {
  object_start_marker : Z;
  refCount : Z;
  alloc_flags : Z;
  gc_flags : Z;
  exact_size : Z;
}.

(** [struct pvm_object_storage] *)
Record pvm_object_storage := mkStorage {
  _ah : alloc_header;
  _class : pvm_object;
  _satellites : pvm_object;
  _flags : Z;
  _da_size : Z;
  da : data_area;
}.

(** The bytes behind a header that was just written over unused memory. *)
Definition blank_storage : pvm_object_storage :=
  mkStorage (mkAH 0 0 0 0 0) null_ref null_ref 0 0 DA_zero.

Definition set_ah (h : alloc_header) (o : pvm_object_storage) : pvm_object_storage :=
  mkStorage h (_class o) (_satellites o) (_flags o) (_da_size o) (da o).
Definition set_refCount (n : Z) (o : pvm_object_storage) : pvm_object_storage :=
  let h := _ah o in
  set_ah (mkAH (object_start_marker h) n (alloc_flags h) (gc_flags h) (exact_size h)) o.
Definition set_alloc_flags (n : Z) (o : pvm_object_storage) : pvm_object_storage :=
  let h := _ah o in
  set_ah (mkAH (object_start_marker h) (refCount h) n (gc_flags h) (exact_size h)) o.
Definition set_gc_flags (n : Z) (o : pvm_object_storage) : pvm_object_storage :=
  let h := _ah o in
  set_ah (mkAH (object_start_marker h) (refCount h) (alloc_flags h) n (exact_size h)) o.
Definition set_class (c : pvm_object) (o : pvm_object_storage) : pvm_object_storage :=
  mkStorage (_ah o) c (_satellites o) (_flags o) (_da_size o) (da o).
Definition set_satellites (w : pvm_object) (o : pvm_object_storage) : pvm_object_storage :=
  mkStorage (_ah o) (_class o) w (_flags o) (_da_size o) (da o).
Definition set_da (d : data_area) (o : pvm_object_storage) : pvm_object_storage :=
  mkStorage (_ah o) (_class o) (_satellites o) (_flags o) (_da_size o) d.
Definition set_size_flags (dasize flags : Z) (o : pvm_object_storage) : pvm_object_storage :=
  mkStorage (_ah o) (_class o) (_satellites o) flags dasize (da o).

(** [da_po_limit(o)]: the number of slots of a plain object. *)
Definition da_po_limit (o : pvm_object_storage) : Z := _da_size o / sizeof_pvm_object.

(** ** The table of internal classes *)

Inductive gc_iterator :=
  | iter_null | iter_class | iter_interface | iter_array | iter_page | iter_thread
  | iter_call_frame | iter_istack | iter_ostack | iter_estack | iter_bitmap
  | iter_closure | iter_window | iter_directory | iter_connection.

(** The slots of the root object ([include/vm/root.h]). *)
Definition PVM_ROOT_OBJECT_NULL_CLASS : Z := 0.
Definition PVM_ROOT_OBJECT_CLASS_CLASS : Z := 1.
Definition PVM_ROOT_OBJECT_INTERFACE_CLASS : Z := 2.
Definition PVM_ROOT_OBJECT_CODE_CLASS : Z := 3.
Definition PVM_ROOT_OBJECT_INT_CLASS : Z := 4.
Definition PVM_ROOT_OBJECT_STRING_CLASS : Z := 5.
Definition PVM_ROOT_OBJECT_ARRAY_CLASS : Z := 6.
Definition PVM_ROOT_OBJECT_PAGE_CLASS : Z := 7.
Definition PVM_ROOT_OBJECT_THREAD_CLASS : Z := 8.
Definition PVM_ROOT_OBJECT_CALL_FRAME_CLASS : Z := 9.
Definition PVM_ROOT_OBJECT_ISTACK_CLASS : Z := 10.
Definition PVM_ROOT_OBJECT_OSTACK_CLASS : Z := 11.
Definition PVM_ROOT_OBJECT_ESTACK_CLASS : Z := 12.
Definition PVM_ROOT_OBJECT_LONG_CLASS : Z := 13.
Definition PVM_ROOT_OBJECT_BOOT_CLASS : Z := 16.
Definition PVM_ROOT_OBJECT_TTY_CLASS : Z := 17.
Definition PVM_ROOT_OBJECT_MUTEX_CLASS : Z := 20.
Definition PVM_ROOT_OBJECT_COND_CLASS : Z := 21.
Definition PVM_ROOT_OBJECT_BINARY_CLASS : Z := 22.
Definition PVM_ROOT_OBJECT_BITMAP_CLASS : Z := 23.
Definition PVM_ROOT_OBJECT_WORLD_CLASS : Z := 24.
Definition PVM_ROOT_OBJECT_CLOSURE_CLASS : Z := 25.
Definition PVM_ROOT_OBJECT_WINDOW_CLASS : Z := 29.
Definition PVM_ROOT_OBJECT_DIRECTORY_CLASS : Z := 30.
Definition PVM_ROOT_OBJECT_CONNECTION_CLASS : Z := 31.
Definition PVM_ROOT_OBJECT_SEMA_CLASS : Z := 32.
Definition PVM_ROOT_OBJECT_CLASS_LOADER : Z := 18.
Definition PVM_ROOT_OBJECT_NULL : Z := 64.
Definition PVM_ROOT_OBJECT_SYSINTERFACE : Z := 65.
Definition PVM_ROOT_OBJECT_THREAD_LIST : Z := 66.
Definition PVM_ROOT_OBJECT_USERS_LIST : Z := 67.
Definition PVM_ROOT_OBJECT_RESTART_LIST : Z := 68.
Definition PVM_ROOT_OBJECT_KERNEL_ENVIRONMENT : Z := 69.
Definition PVM_ROOT_OBJECT_OS_ENTRY : Z := 70.
Definition PVM_ROOT_OBJECT_ROOT_DIR : Z := 71.
Definition PVM_ROOT_KERNEL_STATISTICS : Z := 72.
Definition PVM_ROOT_OBJECTS_COUNT : Z := 103.

(** The [restart] column: the function called for an object on the restart list. *)
Inductive restart_func := restart_none | restart_tty | restart_window | restart_directory
  | restart_connection.

(** The columns of [pvm_internal_classes] the machine reads at run time. *)
Record internal_class := mkIClass {
  ic_name : string;
  ic_root_index : Z;
  ic_iter : gc_iterator;
  ic_finalizer : bool;
  ic_restart : restart_func;
  ic_flags : Z;
}.

Definition pvm_internal_classes_1 : list internal_class :=
  let INTERNAL := PHANTOM_OBJECT_STORAGE_FLAG_IS_INTERNAL in
  let CHILDFREE := PHANTOM_OBJECT_STORAGE_FLAG_IS_CHILDFREE in
  [ mkIClass ".internal.void" PVM_ROOT_OBJECT_NULL_CLASS iter_null false restart_none CHILDFREE;
    mkIClass ".internal.class" PVM_ROOT_OBJECT_CLASS_CLASS iter_class false restart_none
      (Z.lor INTERNAL PHANTOM_OBJECT_STORAGE_FLAG_IS_CLASS);
    mkIClass ".internal.interface" PVM_ROOT_OBJECT_INTERFACE_CLASS iter_interface false restart_none
      PHANTOM_OBJECT_STORAGE_FLAG_IS_INTERFACE;
    mkIClass ".internal.code" PVM_ROOT_OBJECT_CODE_CLASS iter_null false restart_none
      (Z.lor INTERNAL (Z.lor PHANTOM_OBJECT_STORAGE_FLAG_IS_CODE CHILDFREE));
    mkIClass ".internal.int" PVM_ROOT_OBJECT_INT_CLASS iter_null false restart_none
      (Z.lor INTERNAL (Z.lor PHANTOM_OBJECT_STORAGE_FLAG_IS_INT CHILDFREE));
    mkIClass ".internal.long" PVM_ROOT_OBJECT_LONG_CLASS iter_null false restart_none (Z.lor INTERNAL CHILDFREE);
    mkIClass ".internal.string" PVM_ROOT_OBJECT_STRING_CLASS iter_null false restart_none
      (Z.lor INTERNAL (Z.lor PHANTOM_OBJECT_STORAGE_FLAG_IS_STRING CHILDFREE));
    mkIClass ".internal.container.array" PVM_ROOT_OBJECT_ARRAY_CLASS iter_array false restart_none
      (Z.lor INTERNAL (Z.lor PHANTOM_OBJECT_STORAGE_FLAG_IS_DECOMPOSEABLE
                             PHANTOM_OBJECT_STORAGE_FLAG_IS_RESIZEABLE));
    mkIClass ".internal.container.page" PVM_ROOT_OBJECT_PAGE_CLASS iter_page false restart_none 0 ].

Definition pvm_internal_classes_2 : list internal_class :=
  let INTERNAL := PHANTOM_OBJECT_STORAGE_FLAG_IS_INTERNAL in
  let CHILDFREE := PHANTOM_OBJECT_STORAGE_FLAG_IS_CHILDFREE in
  [ mkIClass ".internal.thread" PVM_ROOT_OBJECT_THREAD_CLASS iter_thread false restart_none
      (Z.lor INTERNAL PHANTOM_OBJECT_STORAGE_FLAG_IS_THREAD);
    mkIClass ".internal.call_frame" PVM_ROOT_OBJECT_CALL_FRAME_CLASS iter_call_frame false restart_none
      (Z.lor INTERNAL PHANTOM_OBJECT_STORAGE_FLAG_IS_CALL_FRAME);
    mkIClass ".internal.istack" PVM_ROOT_OBJECT_ISTACK_CLASS iter_istack false restart_none
      (Z.lor INTERNAL PHANTOM_OBJECT_STORAGE_FLAG_IS_STACK_FRAME);
    mkIClass ".internal.ostack" PVM_ROOT_OBJECT_OSTACK_CLASS iter_ostack false restart_none
      (Z.lor INTERNAL PHANTOM_OBJECT_STORAGE_FLAG_IS_STACK_FRAME);
    mkIClass ".internal.estack" PVM_ROOT_OBJECT_ESTACK_CLASS iter_estack false restart_none
      (Z.lor INTERNAL PHANTOM_OBJECT_STORAGE_FLAG_IS_STACK_FRAME);
    mkIClass ".internal.boot" PVM_ROOT_OBJECT_BOOT_CLASS iter_null false restart_none (Z.lor INTERNAL CHILDFREE);
    mkIClass ".internal.io.tty" PVM_ROOT_OBJECT_TTY_CLASS iter_null true restart_tty (Z.lor INTERNAL CHILDFREE);
    mkIClass ".internal.mutex" PVM_ROOT_OBJECT_MUTEX_CLASS iter_null false restart_none (Z.lor INTERNAL CHILDFREE);
    mkIClass ".internal.cond" PVM_ROOT_OBJECT_COND_CLASS iter_null false restart_none (Z.lor INTERNAL CHILDFREE);
    mkIClass ".internal.sema" PVM_ROOT_OBJECT_SEMA_CLASS iter_null false restart_none (Z.lor INTERNAL CHILDFREE) ].

Definition pvm_internal_classes_3 : list internal_class :=
  let INTERNAL := PHANTOM_OBJECT_STORAGE_FLAG_IS_INTERNAL in
  let CHILDFREE := PHANTOM_OBJECT_STORAGE_FLAG_IS_CHILDFREE in
  [ mkIClass ".internal.binary" PVM_ROOT_OBJECT_BINARY_CLASS iter_null false restart_none (Z.lor INTERNAL CHILDFREE);
    mkIClass ".internal.bitmap" PVM_ROOT_OBJECT_BITMAP_CLASS iter_bitmap false restart_none INTERNAL;
    mkIClass ".internal.closure" PVM_ROOT_OBJECT_CLOSURE_CLASS iter_closure false restart_none INTERNAL;
    mkIClass ".internal.world" PVM_ROOT_OBJECT_WORLD_CLASS iter_null false restart_none (Z.lor INTERNAL CHILDFREE);
    mkIClass ".internal.window" PVM_ROOT_OBJECT_WINDOW_CLASS iter_window true restart_window INTERNAL;
    mkIClass ".internal.directory" PVM_ROOT_OBJECT_DIRECTORY_CLASS iter_directory true restart_directory INTERNAL;
    mkIClass ".internal.connection" PVM_ROOT_OBJECT_CONNECTION_CLASS iter_connection true restart_connection
      (Z.lor INTERNAL PHANTOM_OBJECT_STORAGE_FLAG_IS_FINALIZER) ].

Definition pvm_internal_classes : list internal_class :=
  Eval compute in pvm_internal_classes_1 ++ pvm_internal_classes_2 ++ pvm_internal_classes_3.

(** ** Machine state *)

(** [struct pvm_root_t]: the classes and objects the machine itself uses. *)
Record pvm_root_t := mkRoot {
  null_class : pvm_object;
  class_class : pvm_object;
  interface_class : pvm_object;
  code_class : pvm_object;
  int_class : pvm_object;
  long_class : pvm_object;
  float_class : pvm_object;
  double_class : pvm_object;
  string_class : pvm_object;
  array_class : pvm_object;
  page_class : pvm_object;
  thread_class : pvm_object;
  call_frame_class : pvm_object;
  istack_class : pvm_object;
  ostack_class : pvm_object;
  estack_class : pvm_object;
  boot_class : pvm_object;
  binary_class : pvm_object;
  bitmap_class : pvm_object;
  world_class : pvm_object;
  closure_class : pvm_object;
  weakref_class : pvm_object;
  window_class : pvm_object;
  directory_class : pvm_object;
  connection_class : pvm_object;
  mutex_class : pvm_object;
  cond_class : pvm_object;
  sema_class : pvm_object;
  null_object : pvm_object;
  sys_interface_object : pvm_object;
  class_loader : pvm_object;
  threads_list : pvm_object;
  restart_list : pvm_object;
  users_list : pvm_object;
  kernel_environment : pvm_object;
  os_entry : pvm_object;
  root_dir : pvm_object;
  kernel_stats : pvm_object;
}.

Record vm := mkVM {
  heap : gmap Z pvm_object_storage;
  pvm_object_space_start : Z;
  pvm_object_space_end : Z;
  start_a : list Z;
  end_a : list Z;
  curr_a : list Z;
  gc_n_run : Z;
  gc_flags_last_generation : Z;
  pvm_root : pvm_root_t;
  class_objects : list pvm_object;   (** [pvm_internal_classes[i].class_object] *)
  finalized : list Z;                (** calls made to finalizers, last first *)
  snap_request : bool;               (** [phantom_virtual_machine_snap_request] *)
}.

Definition set_heap (h : gmap Z pvm_object_storage) (s : vm) : vm :=
  mkVM h (pvm_object_space_start s) (pvm_object_space_end s) (start_a s) (end_a s)
    (curr_a s) (gc_n_run s) (gc_flags_last_generation s) (pvm_root s)
    (class_objects s) (finalized s) (snap_request s).
Definition set_curr_a (c : list Z) (s : vm) : vm :=
  mkVM (heap s) (pvm_object_space_start s) (pvm_object_space_end s) (start_a s) (end_a s)
    c (gc_n_run s) (gc_flags_last_generation s) (pvm_root s)
    (class_objects s) (finalized s) (snap_request s).
Definition set_arenas (b e : Z) (st en cu : list Z) (s : vm) : vm :=
  mkVM (heap s) b e st en cu (gc_n_run s) (gc_flags_last_generation s) (pvm_root s)
    (class_objects s) (finalized s) (snap_request s).
Definition set_gc (n g : Z) (s : vm) : vm :=
  mkVM (heap s) (pvm_object_space_start s) (pvm_object_space_end s) (start_a s) (end_a s)
    (curr_a s) n g (pvm_root s) (class_objects s) (finalized s) (snap_request s).
Definition add_finalized (a : Z) (s : vm) : vm :=
  mkVM (heap s) (pvm_object_space_start s) (pvm_object_space_end s) (start_a s) (end_a s)
    (curr_a s) (gc_n_run s) (gc_flags_last_generation s) (pvm_root s)
    (class_objects s) (a :: finalized s) (snap_request s).

Definition set_root (r : pvm_root_t) (s : vm) : vm :=
  mkVM (heap s) (pvm_object_space_start s) (pvm_object_space_end s) (start_a s) (end_a s)
    (curr_a s) (gc_n_run s) (gc_flags_last_generation s) r (class_objects s) (finalized s)
    (snap_request s).

Definition set_class_objects (l : list pvm_object) (s : vm) : vm :=
  mkVM (heap s) (pvm_object_space_start s) (pvm_object_space_end s) (start_a s) (end_a s)
    (curr_a s) (gc_n_run s) (gc_flags_last_generation s) (pvm_root s) l (finalized s)
    (snap_request s).

(** The globals before start up, over a given memory. *)
Definition zero_root : pvm_root_t :=
    mkRoot null_ref null_ref null_ref null_ref null_ref null_ref null_ref null_ref null_ref
    null_ref null_ref null_ref null_ref null_ref null_ref null_ref null_ref null_ref
    null_ref null_ref null_ref null_ref null_ref null_ref null_ref null_ref null_ref
    null_ref null_ref null_ref null_ref null_ref null_ref null_ref null_ref null_ref
    null_ref null_ref.
Definition zero_vm (h : gmap Z pvm_object_storage) : vm :=
  mkVM h 0 0 (replicate 5 0) (replicate 5 0) (replicate 5 0) 0 0 zero_root
    (replicate 26 null_ref) [] false.

(** ** Memory access *)

Definition load (a : Z) : M vm pvm_object_storage := fun s =>
  match heap s !! a with
  | Some o => Ret o s
  | None => Fault "no object at this address"
  end.

Definition store (a : Z) (o : pvm_object_storage) : M vm unit :=
  modify (fun s => set_heap (<[a := o]> (heap s)) s).

(** Change part of the object at [a]. *)
Definition update (a : Z) (f : pvm_object_storage -> pvm_object_storage) : M vm unit :=
  o ← load a; store a (f o).

(** Read the data area of the object at [a] at a type. *)
Definition load_da {A} (view : data_area -> option A) (a : Z) : M vm A :=
  o ← load a; some_or_fault (view (da o)) "data area of another type".

Definition load_class (a : Z) : M vm da_class := load_da as_class a.

(** [pvm_is_null(o)] *)
Definition pvm_is_null (o : pvm_object) : M vm bool :=
  gets (fun s => (data o =? 0) || (data o =? data (null_object (pvm_root s)))).

Lemma set_heap_twice h h' s : set_heap h (set_heap h' s) = set_heap h s.
Proof. done. Qed.

Lemma wp_load a o s (Q : pvm_object_storage -> vm -> Prop) :
  heap s !! a = Some o -> Q o s -> wp (load a) s Q.
Proof. intros E HQ. exists o, s. unfold load. by rewrite E. Qed.

Lemma wp_store a o s (Q : unit -> vm -> Prop) :
  Q tt (set_heap (<[a := o]> (heap s)) s) -> wp (store a o) s Q.
Proof. intros HQ. by eexists tt, _. Qed.

Lemma wp_update a f o s (Q : unit -> vm -> Prop) :
  heap s !! a = Some o ->
  Q tt (set_heap (<[a := f o]> (heap s)) s) -> wp (update a f) s Q.
Proof. intros E HQ. apply wp_bind. eapply wp_load; [done|]. by apply wp_store. Qed.

Lemma wp_load_da {A} (view : data_area -> option A) a o v s (Q : A -> vm -> Prop) :
  heap s !! a = Some o -> view (da o) = Some v -> Q v s -> wp (load_da view a) s Q.
Proof.
  intros E Ev HQ. apply wp_bind. eapply wp_load; [done|].
  by eapply wp_some_or_fault.
Qed.

Lemma wp_is_null o s (Q : bool -> vm -> Prop) :
  Q ((data o =? 0) || (data o =? data (null_object (pvm_root s)))) s ->
  wp (pvm_is_null o) s Q.
Proof. intros HQ. by eexists _, s. Qed.

Lemma load_inv a s o s' : load a s = Ret o s' -> s' = s /\ heap s !! a = Some o.
Proof. unfold load. destruct (heap s !! a) eqn:E; naive_solver. Qed.

Lemma update_inv a f s u s' :
  update a f s = Ret u s' ->
  exists o, heap s !! a = Some o /\ s' = set_heap (<[a := f o]> (heap s)) s.
Proof.
  intros H. apply bind_inv in H as (o & s1 & E & H).
  apply load_inv in E as [-> E]. unfold store, modify in H. naive_solver.
Qed.
