(* ===== verification/Refcount.v ===== *)
(** * Reference counting

    The second half of [phantom/vm/gc.c]: [ref_inc_p], [ref_dec_p],
    [ref_saturate_p] and the recursive release of an object whose count
    reached zero, with the per-class reference iterators [pvm_gc_iter_*] of
    [phantom/vm/create.c] and [phantom/vm/stacks.c] both it and the collector
    call.

    An iterator is modelled by the list of references it passes to its
    callback, in order.  The configuration is the one of
    [include/kernel/config.h]: [COMPILE_WEAKREF] and
    [VM_UNMAP_UNUSED_OBJECTS] are 0, so [gc_clear_weakrefs] and
    [pvm_collapse_free] have empty bodies. *)

From S2P Require Import Prelude Heap.

(** ** Iterators over the references of an internal object *)

Definition refs_if (o : pvm_object) : list pvm_object :=
  if data o =? 0 then [] else [o].

Definition pvm_gc_iter_class (d : data_area) : option (list pvm_object) :=
  c ← as_class d;
  Some [object_default_interface c; class_name c; class_parent c; static_vars c;
        ip2line_maps c; method_names c; field_names c].

Definition pvm_gc_iter_array (d : data_area) : option (list pvm_object) :=
  a ← as_array d; Some (refs_if (page a)).

Definition pvm_gc_iter_page (o : pvm_object_storage) : option (list pvm_object) :=
  as_slots (da_po_limit o) (da o).

Definition pvm_gc_iter_thread (d : data_area) : option (list pvm_object) :=
  t ← as_thread d; Some [call_frame t; owner t; environment t].

Definition pvm_gc_iter_call_frame (d : data_area) : option (list pvm_object) :=
  f ← as_frame d;
  Some [cf_this_object f; cf_prev f; cf_istack f; cf_ostack f; cf_estack f].

Definition pvm_gc_iter_istack (d : data_area) : option (list pvm_object) :=
  match d with
  | DA_zero => Some []
  | DA_istack s => Some (refs_if (st_next (common s)))
  | _ => None
  end.

(** The first [free_cell_ptr] cells, which must exist. *)
Definition used_cells {A} (s : stack_da A) : option (list A) :=
  let n := free_cell_ptr (common s) in
  if (0 <=? n) && (n <=? Z.of_nat (length (cells s)))
  then Some (take (Z.to_nat n) (cells s)) else None.

Definition pvm_gc_iter_ostack (d : data_area) : option (list pvm_object) :=
  match d with
  | DA_zero => Some []
  | DA_ostack s => l ← used_cells s; Some (l ++ refs_if (st_next (common s)))
  | _ => None
  end.

Definition pvm_gc_iter_estack (d : data_area) : option (list pvm_object) :=
  match d with
  | DA_zero => Some []
  | DA_estack s =>
      l ← used_cells s; Some (map eh_object l ++ refs_if (st_next (common s)))
  | _ => None
  end.

Definition pvm_gc_iter_bitmap (d : data_area) : option (list pvm_object) :=
  match d with
  | DA_zero => Some []
  | DA_bitmap image _ _ => Some (refs_if image)
  | _ => None
  end.

Definition pvm_gc_iter_closure (d : data_area) : option (list pvm_object) :=
  match d with
  | DA_zero => Some [null_ref]
  | DA_closure object _ => Some [object]
  | _ => None
  end.

Definition pvm_gc_iter_window (d : data_area) : option (list pvm_object) :=
  match d with
  | DA_zero => Some [null_ref]
  | DA_window connector => Some [connector]
  | _ => None
  end.

(** A reference stored as raw little-endian bytes. *)
Definition bytes_to_word (l : list Z) : option Z :=
  match l with
  | [b0; b1; b2; b3] => Some (b0 + b1 * 2 ^ 8 + b2 * 2 ^ 16 + b3 * 2 ^ 24)
  | _ => None
  end.
Definition read_ref (bytes : list Z) (off : nat) : option pvm_object :=
  d ← bytes_to_word (take 4 (drop off bytes));
  i ← bytes_to_word (take 4 (drop (off + 4) bytes));
  Some (mkObj d i).

Fixpoint read_entries (n : nat) (bytes : list Z) (off el : nat) : option (list pvm_object) :=
  match n with
  | O => Some []
  | S n' => r ← read_ref bytes off; l ← read_entries n' bytes (off + el) el; Some (r :: l)
  end.

Definition pvm_gc_iter_directory (h : gmap Z pvm_object_storage) (d : data_area)
    : option (list pvm_object) :=
  dir ← as_directory d;
  if nEntries dir <=? 0 then Some [container dir] else
  bin ← h !! data (container dir);
  match da bin with
  | DA_binary _ bytes =>
      l ← read_entries (Z.to_nat (nEntries dir)) bytes 0 (Z.to_nat (elSize dir));
      Some (l ++ [container dir])
  | DA_zero =>
      Some (replicate (Z.to_nat (nEntries dir)) null_ref ++ [container dir])
  | _ => None
  end.

(** The owner is stored as a pointer to the thread's data area and turned back
    into an object pointer by subtracting [DA_OFFSET()], null or not. *)
Definition pvm_gc_iter_connection (d : data_area) : option (list pvm_object) :=
  match d with
  | DA_connection c =>
      let ot := if cn_owner c =? 0 then u32 (- sizeof_storage) else cn_owner c in
      Some [mkObj ot 0; p_kernel_state_object c; cn_callback c]
  | DA_zero => Some [mkObj (u32 (- sizeof_storage)) 0; null_ref; null_ref]
  | _ => None
  end.

(** [pvm_internal_classes[...].iter]; a null entry cannot be called and
    [pvm_gc_iter_interface] panics. *)
Definition pvm_gc_iter (it : gc_iterator) (h : gmap Z pvm_object_storage)
    (o : pvm_object_storage) : option (list pvm_object) :=
  match it with
  | iter_null | iter_interface => None
  | iter_class => pvm_gc_iter_class (da o)
  | iter_array => pvm_gc_iter_array (da o)
  | iter_page => pvm_gc_iter_page o
  | iter_thread => pvm_gc_iter_thread (da o)
  | iter_call_frame => pvm_gc_iter_call_frame (da o)
  | iter_istack => pvm_gc_iter_istack (da o)
  | iter_ostack => pvm_gc_iter_ostack (da o)
  | iter_estack => pvm_gc_iter_estack (da o)
  | iter_bitmap => pvm_gc_iter_bitmap (da o)
  | iter_closure => pvm_gc_iter_closure (da o)
  | iter_window => pvm_gc_iter_window (da o)
  | iter_directory => pvm_gc_iter_directory h (da o)
  | iter_connection => pvm_gc_iter_connection (da o)
  end.

(** [pvm_internal_classes[pvm_object_da( p->_class, class )->sys_table_id]] *)
Definition class_of (h : gmap Z pvm_object_storage) (o : pvm_object_storage)
    : option internal_class :=
  co ← h !! data (_class o);
  c ← as_class (da co);
  pvm_internal_classes !!z sys_table_id c.

Definition is_internal (o : pvm_object_storage) : bool :=
  flag (_flags o) PHANTOM_OBJECT_STORAGE_FLAG_IS_INTERNAL.
Definition is_childfree (o : pvm_object_storage) : bool :=
  flag (_flags o) PHANTOM_OBJECT_STORAGE_FLAG_IS_CHILDFREE.

(** The references the object's own data area holds: slots of a plain object,
    or what the iterator of its internal class visits. *)
Definition own_refs (h : gmap Z pvm_object_storage) (o : pvm_object_storage)
    : option (list pvm_object) :=
  if is_internal o
  then ic ← class_of h o; pvm_gc_iter (ic_iter ic) h o
  else as_slots (da_po_limit o) (da o).

Definition call_finalizer (p : Z) (o : pvm_object_storage) : M vm unit :=
  h ← gets heap;
  ic ← some_or_fault (class_of h o) "class of object to finalize";
  if ic_finalizer ic then modify (add_finalized p) else mret tt.

(** ** Decrement *)

Section RefDec.
(** The recursive call: [ref_dec_p] on a child. *)
Variable rec : Z -> M vm unit.

Definition refzero_add_from_internal (o : pvm_object) : M vm unit :=
  if data o =? 0 then mret tt else rec (data o).

Definition do_refzero_process_children (p : Z) : M vm unit :=
  o ← load p;
  h ← gets heap;
  if negb (is_internal o) then
    slots ← some_or_fault (as_slots (da_po_limit o) (da o)) "slots";
    for_each (fun c => rec (data c)) slots
  else if flag (_flags o) PHANTOM_OBJECT_STORAGE_FLAG_IS_CLASS
          || flag (_flags o) PHANTOM_OBJECT_STORAGE_FLAG_IS_INTERFACE
          || flag (_flags o) PHANTOM_OBJECT_STORAGE_FLAG_IS_CODE then
    mret tt
  else
    refs ← some_or_fault (own_refs h o) "gc iterator";
    for_each refzero_add_from_internal refs.

Definition refzero_process_children (p : Z) : M vm unit :=
  o ← load p;
  assert_ (negb (alloc_flags (_ah o) =? PVM_OBJECT_AH_ALLOCATOR_FLAG_FREE)) "free";;
  assert_ (refCount (_ah o) =? 0) "refCount == 0";;
  do_refzero_process_children p;;
  (* cycle_root_buffer_rm_candidate() is empty *)
  update p (set_alloc_flags PVM_OBJECT_AH_ALLOCATOR_FLAG_FREE).

(** [RECURSE_REF_DEC] is 1: the children are processed at once. *)
Definition ref_dec_proccess_zero (p : Z) : M vm unit :=
  o ← load p;
  assert_ (negb (alloc_flags (_ah o) =? PVM_OBJECT_AH_ALLOCATOR_FLAG_FREE)) "free";;
  assert_ (refCount (_ah o) =? 0) "refCount == 0";;
  assert_ (negb (is_childfree o)) "childfree";;
  refzero_process_children p.

(** The count went down but not to zero: remember a candidate cycle root. *)
Definition ref_dec_nonzero (p : Z) : M vm unit :=
  o ← load p;
  if negb (is_internal o) then
    update p (set_alloc_flags
      (Z.lor (Z.lor (alloc_flags (_ah o)) PVM_OBJECT_AH_ALLOCATOR_FLAG_IN_BUFFER)
             PVM_OBJECT_AH_ALLOCATOR_FLAG_WENT_DOWN))
  else mret tt.

Definition do_ref_dec_body (p : Z) : M vm unit :=
  if p =? 0 then mret tt else
  o ← load p;
  assert_ (object_start_marker (_ah o) =? PVM_OBJECT_START_MARKER) "marker";;
  assert_ (flag (alloc_flags (_ah o)) PVM_OBJECT_AH_ALLOCATOR_FLAG_ALLOCATED) "allocated";;
  assert_ (0 <? refCount (_ah o)) "refCount > 0";;
  if refCount (_ah o) <? INT_MAX then
    update p (set_refCount (refCount (_ah o) - 1));;
    if refCount (_ah o) - 1 =? 0 then
      if is_childfree o then
        (if flag (_flags o) PHANTOM_OBJECT_STORAGE_FLAG_IS_FINALIZER
         then call_finalizer p o else mret tt);;
        update p (set_alloc_flags PVM_OBJECT_AH_ALLOCATOR_FLAG_FREE)
      else ref_dec_proccess_zero p
    else ref_dec_nonzero p
  else mret tt.
End RefDec.

Fixpoint do_ref_dec_p (fuel : nat) (p : Z) : M vm unit :=
  match fuel with
  | O => diverge
  | S fuel' => do_ref_dec_body (do_ref_dec_p fuel') p
  end.

(** The recursion is at most as deep as the heap has objects. *)
Definition ref_dec_p (p : Z) : M vm unit :=
  s ← get; do_ref_dec_p (S (size (heap s))) p.

Definition ref_dec_o (o : pvm_object) : M vm unit := ref_dec_p (data o).

(** ** Increment and saturation *)

Definition ref_inc_p (p : Z) : M vm unit :=
  if p =? 0 then mret tt else
  o ← load p;
  assert_ (object_start_marker (_ah o) =? PVM_OBJECT_START_MARKER) "marker";;
  assert_ (flag (alloc_flags (_ah o)) PVM_OBJECT_AH_ALLOCATOR_FLAG_ALLOCATED) "allocated";;
  assert_ (0 <? refCount (_ah o)) "refCount > 0";;
  if refCount (_ah o) <? INT_MAX then
    update p (set_refCount (refCount (_ah o) + 1));;
    if flag (alloc_flags (_ah o)) PVM_OBJECT_AH_ALLOCATOR_FLAG_IN_BUFFER then
      update p (set_alloc_flags
        (Z.ldiff (alloc_flags (_ah o)) PVM_OBJECT_AH_ALLOCATOR_FLAG_WENT_DOWN))
    else mret tt
  else mret tt.

Definition ref_inc_o (o : pvm_object) : M vm pvm_object :=
  ref_inc_p (data o);; mret o.

Definition ref_saturate_p (p : Z) : M vm unit :=
  o ← load p;
  (if flag (alloc_flags (_ah o)) PVM_OBJECT_AH_ALLOCATOR_FLAG_IN_BUFFER then
     update p (set_alloc_flags
       (Z.ldiff (Z.ldiff (alloc_flags (_ah o)) PVM_OBJECT_AH_ALLOCATOR_FLAG_IN_BUFFER)
                PVM_OBJECT_AH_ALLOCATOR_FLAG_WENT_DOWN))
   else mret tt);;
  o' ← load p;
  assert_ (object_start_marker (_ah o') =? PVM_OBJECT_START_MARKER) "marker";;
  assert_ (alloc_flags (_ah o') =? PVM_OBJECT_AH_ALLOCATOR_FLAG_ALLOCATED) "allocated";;
  assert_ (0 <? refCount (_ah o')) "refCount > 0";;
  update p (set_refCount INT_MAX).

Definition ref_saturate_o (o : pvm_object) : M vm unit :=
  if data o =? 0 then mret tt else ref_saturate_p (data o).

(** ** Properties

    Everything of an object but its reference count and allocator flags:
    reference counting changes nothing else. *)

Definition strip (o : pvm_object_storage) : pvm_object_storage :=
  set_refCount 0 (set_alloc_flags 0 o).

(** The object without its header. *)
Definition erase (o : pvm_object_storage) : pvm_object_storage := set_ah (mkAH 0 0 0 0 0) o.

Definition same_data (h h' : gmap Z pvm_object_storage) : Prop :=
  strip <$> h = strip <$> h'.

#[export] Instance same_data_equiv : Equivalence same_data.
Proof. unfold same_data. split; congruence. Qed.

Definition is_alloc (o : pvm_object_storage) : bool :=
  flag (alloc_flags (_ah o)) PVM_OBJECT_AH_ALLOCATOR_FLAG_ALLOCATED.

(** The counted references of an object: those released when it dies. *)
Definition children (h : gmap Z pvm_object_storage) (o : pvm_object_storage)
    : option (list Z) :=
  if is_childfree o then Some []
  else if negb (is_internal o) then map data <$> as_slots (da_po_limit o) (da o)
  else if flag (_flags o) PHANTOM_OBJECT_STORAGE_FLAG_IS_CLASS
          || flag (_flags o) PHANTOM_OBJECT_STORAGE_FLAG_IS_INTERFACE
          || flag (_flags o) PHANTOM_OBJECT_STORAGE_FLAG_IS_CODE then Some []
  else map data <$> own_refs h o.

Definition count (x : Z) (l : list Z) : nat := length (filter (x =.) l).

Definition contrib (h : gmap Z pvm_object_storage) (D : gset Z) (x y : Z)
    (o : pvm_object_storage) : nat :=
  if is_alloc o && bool_decide (y ∉ D) then count x (default [] (children h o)) else 0.

(** How many references to [x] there are: in [ext], the references the program
    itself holds, and in the allocated objects, less the dying ones in [D]. *)
Definition nrefs (h : gmap Z pvm_object_storage) (D : gset Z) (ext : list Z) (x : Z) : nat :=
  (count x ext + msum (contrib h D x) h)%nat.

(** The reference counting invariant.  With [exact = false] a count is at least
    the number of references; with [exact = true] it is that number.
    A saturated count ([INT_MAX]) is never touched again.  The references held by
    the objects in [H] are not counted: the dying ones in [D], whose references
    are being released, and objects that are being written, whose references are
    listed in [ext] meanwhile. *)
Record rc_inv_at (exact : bool) (H D : gset Z) (ext : list Z)
    (h : gmap Z pvm_object_storage) : Prop := {
  rc_null : h !! 0 = None;
  rc_obj y o : h !! y = Some o -> is_alloc o -> y ∉ D ->
    object_start_marker (_ah o) = PVM_OBJECT_START_MARKER /\
    0 < refCount (_ah o) <= INT_MAX /\ is_Some (children h o) /\
    (flag (_flags o) PHANTOM_OBJECT_STORAGE_FLAG_IS_FINALIZER -> is_Some (class_of h o));
  rc_safe x : x <> 0 -> (0 < nrefs h H ext x)%nat -> (x ∉ D) /\
    exists o, h !! x = Some o /\ is_alloc o /\
      (refCount (_ah o) = INT_MAX \/ Z.of_nat (nrefs h H ext x) <= refCount (_ah o));
  rc_exact : exact -> forall x o, h !! x = Some o -> is_alloc o -> x ∉ D ->
    refCount (_ah o) = INT_MAX \/ refCount (_ah o) = Z.of_nat (nrefs h H ext x);
  rc_dying y : y ∈ D -> exists o, h !! y = Some o /\ is_alloc o /\ refCount (_ah o) = 0;
  rc_hidden : D ⊆ H;
}.

(** Only the references of dying objects are left out. *)
Notation rc_inv exact D := (rc_inv_at exact D D).

(** Objects that are being written are referenced from outside. *)
Definition pinned (H D : gset Z) (ext : list Z) : Prop := forall y, y ∈ H -> y ∉ D -> y ∈ ext.

(** Objects that can still be decremented; bounds the recursion. *)
Definition live_count (h : gmap Z pvm_object_storage) : nat :=
  msum (fun _ o => if 0 <? refCount (_ah o) then 1%nat else 0%nat) h.

(** Everything but the heap and the finalizer log. *)
Definition env (s : vm) :=
  (pvm_object_space_start s, pvm_object_space_end s, start_a s, end_a s, curr_a s,
   gc_n_run s, gc_flags_last_generation s, pvm_root s, class_objects s, snap_request s).

(** What releasing references leaves alone: all data, the dying objects [D],
    the rest of the machine; nothing is allocated. *)
Record rc_frame (D : gset Z) (s s' : vm) : Prop := {
  rf_data : same_data (heap s) (heap s');
  rf_dying y : y ∈ D -> heap s' !! y = heap s !! y;
  rf_live : (live_count (heap s') <= live_count (heap s))%nat;
  rf_env : env s' = env s;
  rf_alloc y o' : heap s' !! y = Some o' -> is_alloc o' ->
    exists o, heap s !! y = Some o /\ is_alloc o /\ refCount (_ah o') <= refCount (_ah o);
  rf_flags y o' : heap s' !! y = Some o' -> is_alloc o' \/
    alloc_flags (_ah o') = PVM_OBJECT_AH_ALLOCATOR_FLAG_FREE \/
    exists o, heap s !! y = Some o /\ alloc_flags (_ah o) = alloc_flags (_ah o');
}.

(** The specification of one release of the reference [g a], as the recursion
    relies on it. *)
Definition releases (exact : bool) {A} (g : A -> Z) (n : nat) (f : A -> M vm unit) : Prop :=
  forall a H D ext s, rc_inv_at exact H D (g a :: ext) (heap s) -> pinned H D ext ->
    (live_count (heap s) < n)%nat ->
    wp (f a) s (fun _ s' => rc_inv_at exact H D ext (heap s') /\ rc_frame D s s').

(** An executable form of the invariant (with no dying objects). *)
Definition rc_check_obj (exact : bool) (ext : list Z) (h : gmap Z pvm_object_storage)
    (y : Z) (o : pvm_object_storage) : bool :=
  let rc := refCount (_ah o) in
  let n := Z.of_nat (nrefs h ∅ ext y) in
  negb (is_alloc o) ||
  ((object_start_marker (_ah o) =? PVM_OBJECT_START_MARKER) &&
   (0 <? rc) && (rc <=? INT_MAX) && bool_decide (is_Some (children h o)) &&
   (negb (flag (_flags o) PHANTOM_OBJECT_STORAGE_FLAG_IS_FINALIZER)
    || bool_decide (is_Some (class_of h o))) &&
   ((rc =? INT_MAX) || (if exact then rc =? n else n <=? rc))).

Definition is_alloc_at (h : gmap Z pvm_object_storage) (x : Z) : bool :=
  (x =? 0) || match h !! x with Some o => is_alloc o | None => false end.

Definition rc_check (exact : bool) (ext : list Z) (h : gmap Z pvm_object_storage) : bool :=
  bool_decide (h !! 0 = None) &&
  forallb (fun yo => rc_check_obj exact ext h yo.1 yo.2) (map_to_list h) &&
  forallb (is_alloc_at h) ext &&
  forallb (fun yo => negb (is_alloc yo.2) ||
    forallb (is_alloc_at h) (default [] (children h yo.2))) (map_to_list h).

(** The heap of the witnesses.
    Plain object 1000 has slots to 2000 and 3000; the program holds a reference
    to 1000 and one to 2000. *)

Definition ex_obj (rc : Z) (slots : list pvm_object) : pvm_object_storage :=
  mkStorage (mkAH PVM_OBJECT_START_MARKER rc PVM_OBJECT_AH_ALLOCATOR_FLAG_ALLOCATED 0 56)
    null_ref null_ref 0 (8 * Z.of_nat (length slots)) (DA_slots slots).

Definition ex_heap : gmap Z pvm_object_storage :=
  <[1000 := ex_obj 1 [mkObj 2000 0; mkObj 3000 0]]>
  (<[2000 := ex_obj 2 []]> (<[3000 := ex_obj 1 []]> ∅)).

Section Facts.
Implicit Types (h : gmap Z pvm_object_storage) (o : pvm_object_storage).

Lemma same_data_insert h p o o' :
  h !! p = Some o -> strip o' = strip o -> same_data h (<[p := o']> h).
Proof.
  intros E Es. unfold same_data. rewrite fmap_insert, Es.
  symmetry. apply insert_id. by rewrite lookup_fmap, E.
Qed.

Lemma same_data_lookup h h' k :
  same_data h h' -> strip <$> h !! k = strip <$> h' !! k.
Proof. unfold same_data. intros E. by rewrite <- !lookup_fmap, E. Qed.

(** Classes and references do not depend on any header. *)
Lemma class_of_erase h o : class_of h o = class_of (erase <$> h) (erase o).
Proof. unfold class_of. simpl. rewrite lookup_fmap. by destruct (h !! _). Qed.

Lemma own_refs_erase h o : own_refs h o = own_refs (erase <$> h) (erase o).
Proof.
  unfold own_refs. rewrite <- class_of_erase.
  change (is_internal (erase o)) with (is_internal o).
  destruct (is_internal o); [|done].
  destruct (class_of h o) as [ic|]; [|done]. simpl.
  destruct (ic_iter ic); try done. simpl.
  destruct (da o); try done. unfold pvm_gc_iter_directory. simpl.
  rewrite lookup_fmap. by destruct (h !! _).
Qed.

Lemma erase_strip h : erase <$> (strip <$> h) = erase <$> h.
Proof. rewrite <- map_fmap_compose. by apply map_fmap_ext. Qed.

Lemma class_of_strip h o : class_of h o = class_of (strip <$> h) (strip o).
Proof. by rewrite class_of_erase, (class_of_erase (strip <$> h)), erase_strip. Qed.

Lemma own_refs_strip h o : own_refs h o = own_refs (strip <$> h) (strip o).
Proof. by rewrite own_refs_erase, (own_refs_erase (strip <$> h)), erase_strip. Qed.

Lemma children_strip h o : children h o = children (strip <$> h) (strip o).
Proof. unfold children. by rewrite own_refs_strip. Qed.

Lemma children_same h h' o o' :
  same_data h h' -> strip o = strip o' -> children h o = children h' o'.
Proof. intros E Eo. rewrite children_strip, E, Eo. by rewrite <- children_strip. Qed.

Lemma class_of_same h h' o o' :
  same_data h h' -> strip o = strip o' -> class_of h o = class_of h' o'.
Proof. intros E Eo. rewrite class_of_strip, E, Eo. by rewrite <- class_of_strip. Qed.

Lemma count_app x l1 l2 : count x (l1 ++ l2) = (count x l1 + count x l2)%nat.
Proof. unfold count. by rewrite list.filter_app, length_app. Qed.
Lemma count_cons x y l :
  count x (y :: l) = ((if decide (x = y) then 1 else 0) + count x l)%nat.
Proof. unfold count. rewrite filter_cons. by destruct (decide (x = y)). Qed.
Lemma count_pos x l : x ∈ l -> (0 < count x l)%nat.
Proof.
  unfold count. intros Hin. assert (x ∈ filter (x =.) l) as H.
  { by apply list_elem_of_filter. }
  destruct (filter (x =.) l); [by apply not_elem_of_nil in H|simpl; lia].
Qed.

(** Effect of a header update at [p] on the number of references to [x]. *)
Lemma nrefs_upd h D D' p o o' ext x :
  h !! p = Some o -> strip o' = strip o ->
  (forall y, y <> p -> (y ∈ D <-> y ∈ D')) ->
  (nrefs (<[p := o']> h) D' ext x + contrib h D x p o =
   nrefs h D ext x + contrib h D' x p o')%nat.
Proof.
  intros E Es HD. unfold nrefs.
  pose proof (same_data_insert h p o o' E Es) as Hsd.
  assert (forall y q q', strip q = strip q' -> is_alloc q = is_alloc q' -> y <> p ->
    contrib h D x y q = contrib (<[p := o']> h) D' x y q') as Hother.
  { intros y q q' Hq Ha Hne. unfold contrib.
    rewrite Ha, (children_same h (<[p := o']> h) q q') by done.
    by rewrite (bool_decide_ext (y ∉ D) (y ∉ D')) by (rewrite HD; done). }
  rewrite (msum_delete (contrib h D x) h p o E).
  rewrite (msum_delete (contrib (<[p := o']> h) D' x) (<[p := o']> h) p o')
    by apply lookup_insert_eq.
  rewrite delete_insert_eq.
  rewrite (msum_ext (contrib h D x) (contrib (<[p := o']> h) D' x) (delete p h)).
  2:{ intros k a [Hne Ha]%lookup_delete_Some. by apply Hother. }
  enough (contrib (<[p := o']> h) D' x p o' = contrib h D' x p o') by lia.
  unfold contrib. by rewrite (children_same h (<[p := o']> h) o' o').
Qed.
End Facts.

Section Steps.
Context (exact : bool).
Implicit Types (h : gmap Z pvm_object_storage) (o : pvm_object_storage) (D : gset Z).

Lemma contrib_upd h D x p o o' :
  strip o' = strip o -> is_alloc o' = is_alloc o -> contrib h D x p o' = contrib h D x p o.
Proof.
  intros Es Ea. unfold contrib. rewrite Ea.
  by rewrite (children_same h h o' o) by done.
Qed.

Lemma not_dying_add D x p : (x ∉ {[p]} ∪ D) <-> x <> p /\ x ∉ D.
Proof. rewrite not_elem_of_union, not_elem_of_singleton. done. Qed.

Lemma dying_upd D p y : y <> p -> (y ∈ D <-> y ∈ {[p]} ∪ D).
Proof. rewrite elem_of_union, elem_of_singleton. naive_solver. Qed.

Lemma contrib_in h D x p o : p ∈ D -> contrib h D x p o = 0%nat.
Proof. intros. unfold contrib. by rewrite bool_decide_eq_false_2, andb_false_r by auto. Qed.
Lemma contrib_free h D x p o : ~ is_alloc o -> contrib h D x p o = 0%nat.
Proof. intros. unfold contrib. by destruct (is_alloc o). Qed.
Lemma contrib_out h D x p o l :
  is_alloc o -> p ∉ D -> children h o = Some l -> contrib h D x p o = count x l.
Proof.
  intros Ha HD Hl. unfold contrib. rewrite Hl, bool_decide_eq_true_2 by done.
  by destruct (is_alloc o).
Qed.

(** The well-formedness of single objects only looks at data, flags and counts. *)
Lemma rc_obj_upd h D p o o' :
  h !! p = Some o -> strip o' = strip o ->
  (forall y q, h !! y = Some q -> is_alloc q -> y ∉ D -> y <> p ->
    object_start_marker (_ah q) = PVM_OBJECT_START_MARKER /\
    0 < refCount (_ah q) <= INT_MAX /\ is_Some (children h q) /\
    (flag (_flags q) PHANTOM_OBJECT_STORAGE_FLAG_IS_FINALIZER -> is_Some (class_of h q))) ->
  forall y q, <[p := o']> h !! y = Some q -> is_alloc q -> y ∉ D -> y <> p ->
    object_start_marker (_ah q) = PVM_OBJECT_START_MARKER /\
    0 < refCount (_ah q) <= INT_MAX /\ is_Some (children (<[p := o']> h) q) /\
    (flag (_flags q) PHANTOM_OBJECT_STORAGE_FLAG_IS_FINALIZER ->
     is_Some (class_of (<[p := o']> h) q)).
Proof.
  intros E Es H y q Ey Ha HD Hne. rewrite lookup_insert_ne in Ey by done.
  pose proof (same_data_insert h p o o' E Es) as Hsd.
  rewrite <- (children_same h (<[p := o']> h) q q), <- (class_of_same h (<[p := o']> h) q q)
    by done.
  by apply H with y.
Qed.

(** A count that changes by what the program's own references change. *)
Lemma rc_inv_recount H D ext ext' p o o' h :
  rc_inv_at exact H D ext h -> h !! p = Some o -> p ∉ D ->
  strip o' = strip o -> is_alloc o -> is_alloc o' ->
  object_start_marker (_ah o') = PVM_OBJECT_START_MARKER ->
  0 < refCount (_ah o') <= INT_MAX ->
  (forall x, x <> p -> count x ext' = count x ext) ->
  (refCount (_ah o') = INT_MAX \/
   refCount (_ah o') - refCount (_ah o) = Z.of_nat (count p ext') - Z.of_nat (count p ext)
     /\ refCount (_ah o) <> INT_MAX) ->
  rc_inv_at exact H D ext' (<[p := o']> h).
Proof.
  intros [Hnull Hobj Hsafe Hex Hdy Hsub] E HD Es Ha Ha' Hm Hr Hc Hrc.
  assert (p <> 0) as Hp0 by congruence.
  pose proof (same_data_insert h p o o' E Es) as Hsd.
  assert (forall x, (nrefs (<[p := o']> h) H ext' x + count x ext
                     = nrefs h H ext x + count x ext')%nat) as Hn.
  { intros x. pose proof (nrefs_upd h H H p o o' ext x E Es (fun y _ => iff_refl _)) as Hu.
    rewrite (contrib_upd h H x p o o') in Hu; [|done|by destruct (is_alloc o), (is_alloc o')].
    unfold nrefs in *. lia. }
  split.
  - by rewrite lookup_insert_ne.
  - intros y q Ey Hq Hy. destruct (decide (y = p)) as [->|Hne].
    + rewrite lookup_insert_eq in Ey. injection Ey as <-.
      destruct (Hobj p o E Ha HD) as (_ & _ & Hch & Hcl).
      rewrite <- (children_same h (<[p := o']> h) o o'),
        <- (class_of_same h (<[p := o']> h) o o') by done.
      split_and!; try done; try lia. intros Hf. apply Hcl.
      replace (_flags o) with (_flags (strip o')); [done|by rewrite Es].
    + eapply rc_obj_upd; eauto.
  - intros x Hx Hpos. specialize (Hn x). destruct (decide (x = p)) as [->|Hne].
    + split; [done|]. exists o'. rewrite lookup_insert_eq. split_and!; [done|done|].
      destruct Hrc as [?|[Hd Hni]]; [by left|]. right.
      destruct (decide (nrefs h H ext p = 0%nat)).
      * destruct (Hobj p o E Ha HD) as (_ & ? & _). lia.
      * destruct (Hsafe p Hp0) as (_ & o2 & E2 & _ & [?|?]); [lia|congruence|].
        simplify_eq. lia.
    + rewrite (Hc x Hne) in Hn. destruct (Hsafe x Hx) as (? & q & ? & ? & ?); [lia|].
      split; [done|]. exists q. rewrite lookup_insert_ne by done.
      split_and!; [done..|]. replace (nrefs (<[p := o']> h) H ext' x) with (nrefs h H ext x) by lia.
      done.
  - intros Hexact x q Ex Hq HxD. specialize (Hn x). destruct (decide (x = p)) as [->|Hne].
    + rewrite lookup_insert_eq in Ex. simplify_eq.
      destruct Hrc as [?|[Hd Hni]]; [by left|]. right.
      destruct (Hex Hexact p o E Ha HD) as [?|He]; [done|]. lia.
    + rewrite lookup_insert_ne in Ex by done. rewrite (Hc x Hne) in Hn.
      replace (nrefs (<[p := o']> h) H ext' x) with (nrefs h H ext x) by lia. eauto.
  - intros y Hy. destruct (decide (y = p)) as [->|]; [done|].
    rewrite lookup_insert_ne by done. eauto.
  - done.
Qed.

(** The last reference to [p] is given up: its own references become ours. *)
Lemma rc_inv_die H D ext p o l h :
  rc_inv_at exact H D (p :: ext) h -> h !! p = Some o -> p ∉ D -> p ∉ H -> is_alloc o ->
  refCount (_ah o) = 1 -> children h o = Some l ->
  rc_inv_at exact ({[p]} ∪ H) ({[p]} ∪ D) (l ++ ext) (<[p := set_refCount 0 o]> h).
Proof.
  intros [Hnull Hobj Hsafe Hex Hdy Hsub] E HD HH Ha H1 Hl.
  assert (p <> 0) as Hp0 by congruence.
  set (o' := set_refCount 0 o).
  assert (strip o' = strip o) as Es by done.
  assert (forall x, (nrefs (<[p := o']> h) ({[p]} ∪ H) (l ++ ext) x
    + (if decide (x = p) then 1 else 0) = nrefs h H (p :: ext) x)%nat) as Hn.
  { intros x. pose proof (nrefs_upd h H ({[p]} ∪ H) p o o' ext x E Es) as Hu.
    spec Hu; [by apply dying_upd|].
    rewrite (contrib_in h _ x p o'), (contrib_out _ _ _ _ o l) in Hu by (done || by apply elem_of_union_l, elem_of_singleton).
    unfold nrefs in *. rewrite count_app, count_cons. lia. }
  assert (nrefs h H (p :: ext) p = 1%nat) as Hp1.
  { destruct (Hsafe p Hp0) as (_ & o2 & E2 & _ & [?|?]); simplify_eq.
    - unfold nrefs. rewrite count_cons, decide_True by done. lia.
    - unfold INT_MAX in *. lia.
    - unfold nrefs in *. rewrite count_cons, decide_True in * by done. lia. }
  split.
  - by rewrite lookup_insert_ne.
  - intros y q Ey Hq [Hne Hy]%not_dying_add. by eapply (rc_obj_upd h D); eauto.
  - intros x Hx Hpos. specialize (Hn x). destruct (decide (x = p)) as [->|Hne]; [lia|].
    destruct (Hsafe x Hx) as (? & q & ? & ? & ?); [lia|].
    split; [by apply not_dying_add|]. exists q. rewrite lookup_insert_ne by done.
    split_and!; [done..|]. by replace (nrefs _ _ _ x) with (nrefs h H (p :: ext) x) by lia.
  - intros Hexact x q Ex Hq [Hne HxD]%not_dying_add. specialize (Hn x).
    rewrite decide_False in Hn by done.
    rewrite lookup_insert_ne in Ex by done.
    replace (nrefs _ _ _ x) with (nrefs h H (p :: ext) x) by lia. auto.
  - intros y Hy. destruct (decide (y = p)) as [->|].
    + rewrite lookup_insert_eq. eauto.
    + rewrite lookup_insert_ne by done. apply Hdy.
      apply elem_of_union in Hy as [->%elem_of_singleton|]; done.
  - by apply union_mono_l.
Qed.

(** A dying object whose references are all released becomes free. *)
Lemma rc_inv_free H D ext p o h :
  rc_inv_at exact ({[p]} ∪ H) ({[p]} ∪ D) ext h -> h !! p = Some o -> p ∉ D -> p ∉ H ->
  rc_inv_at exact H D ext
    (<[p := set_alloc_flags PVM_OBJECT_AH_ALLOCATOR_FLAG_FREE o]> h).
Proof.
  intros [Hnull Hobj Hsafe Hex Hdy Hsub] E HD HH.
  assert (p <> 0) as Hp0 by congruence.
  set (o' := set_alloc_flags _ o).
  assert (strip o' = strip o) as Es by done.
  assert (forall x, nrefs (<[p := o']> h) H ext x = nrefs h ({[p]} ∪ H) ext x) as Hn.
  { intros x. pose proof (nrefs_upd h ({[p]} ∪ H) H p o o' ext x E Es) as Hu.
    spec Hu; [intros; symmetry; by apply dying_upd|].
    rewrite (contrib_in h ({[p]} ∪ H) x p o) in Hu by (by apply elem_of_union_l, elem_of_singleton).
    rewrite (contrib_free h H x p o') in Hu by (by cbv). lia. }
  split.
  - by rewrite lookup_insert_ne.
  - intros y q Ey Hq Hy. destruct (decide (y = p)) as [->|Hne].
    + rewrite lookup_insert_eq in Ey. by simplify_eq.
    + eapply (rc_obj_upd h ({[p]} ∪ D)); eauto. by apply not_dying_add.
  - intros x Hx. rewrite Hn. intros Hpos.
    destruct (Hsafe x Hx Hpos) as ([Hne ?]%not_dying_add & q & ? & ? & ?).
    split; [done|]. exists q. by rewrite lookup_insert_ne by done.
  - intros Hexact x q Ex Hq HxD. rewrite Hn.
    assert (x <> p) by (intros ->; rewrite lookup_insert_eq in Ex; by simplify_eq).
    rewrite lookup_insert_ne in Ex by done. apply Hex; [done..|]. by apply not_dying_add.
  - intros y Hy. rewrite lookup_insert_ne by congruence.
    apply Hdy, elem_of_union. by right.
  - intros y Hy. assert (y ∈ ({[p]} ∪ H : gset Z)) as Hin by by apply Hsub, elem_of_union_r.
    by apply elem_of_union in Hin as [->%elem_of_singleton|].
Qed.

(** References to null are not counted. *)
Lemma rc_inv_null H D ext h : rc_inv_at exact H D (0 :: ext) h <-> rc_inv_at exact H D ext h.
Proof.
  assert (forall x, x <> 0 -> nrefs h H (0 :: ext) x = nrefs h H ext x) as Hn.
  { intros x Hx. unfold nrefs. by rewrite count_cons, decide_False. }
  split; intros [Hnull Hobj Hsafe Hex Hdy Hsub]; split; auto.
  - intros x Hx. rewrite <- Hn by done. auto.
  - intros ? x o E. rewrite <- Hn by congruence. by apply Hex.
  - intros x Hx. rewrite Hn by done. auto.
  - intros ? x o E. rewrite Hn by congruence. by apply Hex.
Qed.
End Steps.

Section Main.
Context (exact : bool).
Implicit Types (s : vm) (D : gset Z) (o : pvm_object_storage).

Lemma rc_frame_refl D s : rc_frame D s s.
Proof.
  split; try done.
  - intros y o' E Ha. exists o'. split_and!; [done..|lia].
  - eauto.
Qed.

Lemma rc_frame_trans D s1 s2 s3 : rc_frame D s1 s2 -> rc_frame D s2 s3 -> rc_frame D s1 s3.
Proof.
  intros [A1 A2 A3 A4 A5 A6] [B1 B2 B3 B4 B5 B6]. split.
  - by transitivity (heap s2).
  - intros y Hy. by rewrite B2, A2.
  - lia.
  - congruence.
  - intros y o3 E3 Ha3. destruct (B5 y o3 E3 Ha3) as (o2 & E2 & Ha2 & ?).
    destruct (A5 y o2 E2 Ha2) as (o1 & ? & ? & ?). exists o1. split_and!; [done..|lia].
  - intros y o3 E3. destruct (B6 y o3 E3) as [?|[?|(o2 & E2 & Hf2)]]; auto.
    destruct (A6 y o2 E2) as [Ha|[Hf|(o1 & ? & ?)]].
    + left. unfold is_alloc in *. by rewrite <- Hf2.
    + right; left. congruence.
    + right; right. exists o1. split; [done|congruence].
Qed.

Lemma rc_frame_weaken D D' s s' : D ⊆ D' -> rc_frame D' s s' -> rc_frame D s s'.
Proof. intros Hsub [A1 A2 A3 A4 A5 A6]. split; auto. Qed.

Lemma live_count_upd h (p : Z) o o' :
  h !! p = Some o ->
  (live_count (<[p := o']> h) + (if (0 <? refCount (_ah o))%Z then 1 else 0)
   = live_count h + (if (0 <? refCount (_ah o'))%Z then 1 else 0))%nat.
Proof. intros E. exact (msum_upd (fun _ q => if 0 <? refCount (_ah q) then 1%nat else 0%nat) h p o o' E). Qed.

(** A header update of a live object that lowers its count, or frees it. *)
Lemma rc_frame_upd D s p o o' :
  heap s !! p = Some o -> strip o' = strip o -> p ∉ D ->
  refCount (_ah o') <= refCount (_ah o) -> is_alloc o ->
  is_alloc o' \/ alloc_flags (_ah o') = PVM_OBJECT_AH_ALLOCATOR_FLAG_FREE ->
  rc_frame D s (set_heap (<[p := o']> (heap s)) s).
Proof.
  intros E Es HD Hr Ha Hfl. split; simpl.
  - by eapply same_data_insert.
  - intros y Hy. by rewrite lookup_insert_ne by congruence.
  - pose proof (live_count_upd _ p o o' E).
    destruct (Z.ltb_spec 0 (refCount (_ah o))), (Z.ltb_spec 0 (refCount (_ah o'))); lia.
  - done.
  - intros y q Ey Hq. destruct (decide (y = p)) as [->|Hne].
    + rewrite lookup_insert_eq in Ey. injection Ey as <-. eauto.
    + rewrite lookup_insert_ne in Ey by done. exists q. split_and!; [done..|lia].
  - intros y q Ey. destruct (decide (y = p)) as [->|Hne].
    + rewrite lookup_insert_eq in Ey. injection Ey as <-. destruct Hfl; auto.
    + rewrite lookup_insert_ne in Ey by done. eauto.
Qed.

(** What the head of [p :: ext] says about [p]. *)
Lemma rc_inv_head H D p ext h :
  rc_inv_at exact H D (p :: ext) h -> p <> 0 ->
  (p ∉ D) /\ exists o l, h !! p = Some o /\ is_alloc o /\
    object_start_marker (_ah o) = PVM_OBJECT_START_MARKER /\
    0 < refCount (_ah o) <= INT_MAX /\ children h o = Some l /\
    (flag (_flags o) PHANTOM_OBJECT_STORAGE_FLAG_IS_FINALIZER -> is_Some (class_of h o)).
Proof.
  intros Hinv Hp. destruct (rc_safe _ _ _ _ _ Hinv p Hp) as (HD & o & E & Ha & _).
  { unfold nrefs. rewrite count_cons, decide_True by done. lia. }
  destruct (rc_obj _ _ _ _ _ Hinv p o E Ha HD) as (? & ? & [l Hl] & ?).
  split; [done|]. exists o, l. done.
Qed.

Lemma releases_list {A} (g : A -> Z) n f H D ext l s :
  releases exact g n f -> rc_inv_at exact H D (map g l ++ ext) (heap s) -> pinned H D ext ->
  (live_count (heap s) < n)%nat ->
  wp (for_each f l) s (fun _ s' => rc_inv_at exact H D ext (heap s') /\ rc_frame D s s').
Proof.
  intros Hrec Hinv Hpin Hn.
  eapply wp_mono; [apply (wp_for_each _ (fun l' s' =>
    rc_inv_at exact H D (map g l' ++ ext) (heap s') /\ rc_frame D s s'))|done].
  - split; [done|apply rc_frame_refl].
  - intros c l' s1 [Hi Hf]. simpl in Hi.
    eapply wp_mono; [apply (Hrec _ H D (map g l' ++ ext)); [done| |]|].
    + intros y Hy HyD. apply elem_of_app. right. by apply Hpin.
    + pose proof (rf_live _ _ _ Hf). lia.
    + intros _ s2 [Hi2 Hf2]. split; [done|]. by eapply rc_frame_trans.
Qed.
End Main.

Section Release.
Context (exact : bool).
Implicit Types (s : vm) (D : gset Z) (o : pvm_object_storage).

Lemma refzero_add_from_internal_releases n rec :
  releases exact id n rec -> releases exact data n (refzero_add_from_internal rec).
Proof.
  intros Hrec c H D ext s Hi Hpin Hn. unfold refzero_add_from_internal.
  destruct (Z.eqb_spec (data c) 0) as [Ez|]; [|by apply Hrec].
  rewrite Ez in Hi. apply (proj1 (rc_inv_null _ _ _ _ _)) in Hi.
  wp_step. split; [done|apply rc_frame_refl].
Qed.

(** The child walk releases exactly the counted references. *)
Lemma do_refzero_process_children_spec n rec H D ext l p o s :
  releases exact id n rec -> heap s !! p = Some o -> is_childfree o = false ->
  children (heap s) o = Some l -> rc_inv_at exact H D (l ++ ext) (heap s) -> pinned H D ext ->
  (live_count (heap s) < n)%nat ->
  wp (do_refzero_process_children rec p) s
    (fun _ s' => rc_inv_at exact H D ext (heap s') /\ rc_frame D s s').
Proof.
  intros Hrec E Hcf Hl Hinv Hpin Hn. unfold do_refzero_process_children, children in *.
  rewrite Hcf in Hl. wp_step. eapply wp_load; [done|]. wp_step. wp_step.
  destruct (negb (is_internal o)).
  - destruct (as_slots _ _) as [sl|] eqn:Esl; simplify_eq/=.
    wp_step. wp_step. eapply (releases_list exact data n); [|done..].
    intros c. apply (Hrec (data c)).
  - destruct (_ || _)%bool; simplify_eq/=.
    + wp_step. split; [done|apply rc_frame_refl].
    + destruct (own_refs _ _) as [sl|] eqn:Esl; simplify_eq/=.
      wp_step. wp_step.
      eapply (releases_list exact data n); [|done..].
      by apply refzero_add_from_internal_releases.
Qed.

Lemma pinned_dying H D ext p : pinned H D ext -> pinned ({[p]} ∪ H) ({[p]} ∪ D) ext.
Proof.
  intros Hp y Hy [Hne HyD]%not_dying_add. apply Hp; [|done].
  by apply elem_of_union in Hy as [->%elem_of_singleton|].
Qed.

(** A zero count: release the children, then free. *)
Lemma ref_dec_proccess_zero_spec n rec H D ext l p o s :
  releases exact id n rec -> heap s !! p = Some o -> is_childfree o = false ->
  is_alloc o -> refCount (_ah o) = 0 -> p ∉ D -> p ∉ H ->
  children (heap s) o = Some l -> rc_inv_at exact ({[p]} ∪ H) ({[p]} ∪ D) (l ++ ext) (heap s) ->
  pinned H D ext ->
  (live_count (heap s) < n)%nat ->
  wp (ref_dec_proccess_zero rec p) s
    (fun _ s' => rc_inv_at exact H D ext (heap s') /\ rc_frame D s s').
Proof.
  intros Hrec E Hcf Ha Hr HD HH Hl Hinv Hpin Hn.
  assert ((alloc_flags (_ah o) =? PVM_OBJECT_AH_ALLOCATOR_FLAG_FREE) = false) as Hnf.
  { apply Z.eqb_neq. intros Hz. unfold is_alloc in Ha. by rewrite Hz in Ha. }
  unfold ref_dec_proccess_zero, refzero_process_children.
  do 2 (wp_step; eapply wp_load; [done|]; wp_step; wp_step; [by rewrite Hnf|];
        wp_step; wp_step; [by apply Z.eqb_eq|]; try (wp_step; wp_step; [by rewrite Hcf|])).
  wp_step. eapply wp_mono; [by eapply do_refzero_process_children_spec; [..|by apply pinned_dying|]|].
  intros [] s1 [Hi Hf]. assert (p ∈ ({[p]} ∪ D : gset Z)) as Hin
    by by apply elem_of_union_l, elem_of_singleton.
  pose proof (rf_dying _ _ _ Hf p Hin) as E1. rewrite E in E1.
  eapply wp_update; [done|]. split; simpl.
  - by apply rc_inv_free.
  - eapply rc_frame_trans; [eapply rc_frame_weaken; [|done]|].
    + by apply union_subseteq_r.
    + eapply rc_frame_upd; try done. by right.
Qed.
End Release.

Section RefDecSpec.
Context (exact : bool).
Implicit Types (s : vm) (D : gset Z) (o : pvm_object_storage).

Lemma is_alloc_testbit o : is_alloc o <-> Z.testbit (alloc_flags (_ah o)) 0 = true.
Proof.
  unfold is_alloc, flag, PVM_OBJECT_AH_ALLOCATOR_FLAG_ALLOCATED.
  change 1 with (Z.ones 1). rewrite Z.land_ones, Z.bit0_odd, Zodd_mod by lia.
  change (2 ^ 1) with 2.
  pose proof (Z.mod_pos_bound (alloc_flags (_ah o)) 2).
  assert (alloc_flags (_ah o) mod 2 = 0 \/ alloc_flags (_ah o) mod 2 = 1) as [->| ->] by lia;
    naive_solver.
Qed.

Lemma is_alloc_set_buffered o :
  is_alloc (set_alloc_flags (Z.lor (Z.lor (alloc_flags (_ah o))
    PVM_OBJECT_AH_ALLOCATOR_FLAG_IN_BUFFER) PVM_OBJECT_AH_ALLOCATOR_FLAG_WENT_DOWN) o)
  <-> is_alloc o.
Proof. rewrite !is_alloc_testbit. cbn [alloc_flags _ah set_alloc_flags set_ah]. rewrite !Z.lor_spec. by rewrite !orb_false_r. Qed.

Lemma is_alloc_clear_down o :
  is_alloc (set_alloc_flags (Z.ldiff (alloc_flags (_ah o))
    PVM_OBJECT_AH_ALLOCATOR_FLAG_WENT_DOWN) o) <-> is_alloc o.
Proof. rewrite !is_alloc_testbit. cbn [alloc_flags _ah set_alloc_flags set_ah]. rewrite !Z.ldiff_spec. by rewrite !andb_true_r. Qed.

(** A count that goes down and stays positive. *)
Lemma ref_dec_alive H D ext p o s :
  rc_inv_at exact H D (p :: ext) (heap s) -> heap s !! p = Some o -> p ∉ D -> is_alloc o ->
  object_start_marker (_ah o) = PVM_OBJECT_START_MARKER ->
  1 < refCount (_ah o) < INT_MAX ->
  wp (update p (set_refCount (refCount (_ah o) - 1));; ref_dec_nonzero p) s
    (fun _ s' => rc_inv_at exact H D ext (heap s') /\ rc_frame D s s').
Proof.
  intros Hi E HD Ha Hm Hr. wp_step. eapply wp_update; [done|].
  unfold ref_dec_nonzero. wp_step.
  eapply wp_load; [simpl; by rewrite lookup_insert_eq|].
  assert (forall o', strip o' = strip o -> is_alloc o' ->
    object_start_marker (_ah o') = PVM_OBJECT_START_MARKER ->
    refCount (_ah o') = refCount (_ah o) - 1 ->
    rc_inv_at exact H D ext (<[p := o']> (heap s)) /\
    rc_frame D s (set_heap (<[p := o']> (heap s)) s)) as Hfin.
  { intros o' Es Ha' Hm' Hr'. split.
    - eapply rc_inv_recount; try done; [lia| |].
      + intros x Hx. by rewrite count_cons, decide_False.
      + right. rewrite count_cons, decide_True by done. lia.
    - eapply rc_frame_upd; try done; [lia|by left]. }
  destruct (negb (is_internal _)).
  - eapply wp_update; [simpl; by rewrite lookup_insert_eq|]. simpl.
    rewrite insert_insert_eq. apply Hfin; try done.
    by apply (is_alloc_set_buffered (set_refCount (refCount (_ah o) - 1) o)).
  - wp_step. by apply Hfin.
Qed.

(** The last reference to an object is not one to a pinned object. *)
Lemma dead_not_pinned H D ext p o h :
  rc_inv_at exact H D (p :: ext) h -> h !! p = Some o -> p ∉ D -> refCount (_ah o) = 1 ->
  pinned H D ext -> p ∉ H.
Proof.
  intros Hi E HD H1 Hpin HH. assert (p <> 0) as Hp by (intros ->; by rewrite (rc_null _ _ _ _ _ Hi) in E).
  pose proof (count_pos p ext (Hpin p HH HD)).
  destruct (rc_safe _ _ _ _ _ Hi p Hp) as (_ & q & Eq & _ & Hr);
    unfold nrefs in *; rewrite count_cons, decide_True in * by done; [lia|].
  simplify_eq. unfold INT_MAX in *. lia.
Qed.

(** A count that reaches zero. *)
Lemma ref_dec_dead n rec H D ext p o l s :
  releases exact id n rec -> rc_inv_at exact H D (p :: ext) (heap s) ->
  heap s !! p = Some o -> p ∉ D -> is_alloc o -> refCount (_ah o) = 1 ->
  children (heap s) o = Some l ->
  (flag (_flags o) PHANTOM_OBJECT_STORAGE_FLAG_IS_FINALIZER ->
   is_Some (class_of (heap s) o)) ->
  pinned H D ext -> (live_count (heap s) <= n)%nat ->
  wp (update p (set_refCount (refCount (_ah o) - 1));;
      if is_childfree o then
        (if flag (_flags o) PHANTOM_OBJECT_STORAGE_FLAG_IS_FINALIZER
         then call_finalizer p o else mret tt);;
        update p (set_alloc_flags PVM_OBJECT_AH_ALLOCATOR_FLAG_FREE)
      else ref_dec_proccess_zero rec p) s
    (fun _ s' => rc_inv_at exact H D ext (heap s') /\ rc_frame D s s').
Proof.
  intros Hrec Hi E HD Ha H1 Hl Hfin Hpin Hn. rewrite H1. change (1 - 1) with 0.
  pose proof (dead_not_pinned _ _ _ _ _ _ Hi E HD H1 Hpin) as HH.
  set (h1 := <[p := set_refCount 0 o]> (heap s)).
  pose proof (rc_inv_die _ H D ext p o l (heap s) Hi E HD HH Ha H1 Hl) as Hi1. fold h1 in Hi1.
  assert (h1 !! p = Some (set_refCount 0 o)) as E1 by apply lookup_insert_eq.
  assert (same_data (heap s) h1) as Hsd by by eapply same_data_insert.
  assert (children h1 (set_refCount 0 o) = Some l) as Hl1.
  { by rewrite <- (children_same (heap s) h1 o). }
  assert (rc_frame D s (set_heap h1 s)) as Hf1.
  { eapply rc_frame_upd; try done; [simpl; lia|by left]. }
  wp_step. eapply wp_update; [done|]. destruct (is_childfree o) eqn:Hcf.
  - assert (l = []) as ->.
    { unfold children in Hl. rewrite Hcf in Hl. by simplify_eq. }
    wp_step. eapply (wp_mono _ _ (fun _ s' => heap s' = h1 /\ env s' = env s)).
    + destruct (flag _ _); [|by wp_step].
      destruct Hfin as [ic Hic]; [done|].
      unfold call_finalizer. wp_step. wp_step. wp_step. wp_step.
      { transitivity (class_of (heap s) o); [|done]. symmetry. by apply class_of_same. }
      destruct (ic_finalizer ic); by wp_step.
    + intros [] s2 [Eh Ee]. eapply wp_update; [by rewrite Eh|]. simpl. rewrite Eh.
      split; [by eapply rc_inv_free|].
      apply (rc_frame_trans D s (set_heap h1 s)); [done|].
      destruct (rc_frame_upd D (set_heap h1 s) p (set_refCount 0 o)
        (set_alloc_flags PVM_OBJECT_AH_ALLOCATOR_FLAG_FREE (set_refCount 0 o))
        E1 eq_refl HD (Z.le_refl _) Ha (or_intror eq_refl)) as [B1 B2 B3 B4 B5 B6].
      split; first [exact Ee|done].
  - assert (live_count h1 < n)%nat as Hlt.
    { pose proof (live_count_upd (heap s) p o (set_refCount 0 o) E) as Hlc.
      rewrite H1 in Hlc. simpl in Hlc. fold h1 in Hlc. lia. }
    eapply wp_mono; [by eapply (ref_dec_proccess_zero_spec exact n rec H D ext l p)|].
    intros [] s' [Hi' Hf']. split; [done|]. by eapply rc_frame_trans.
Qed.

Lemma do_ref_dec_p_releases fuel : releases exact id fuel (do_ref_dec_p fuel).
Proof.
  induction fuel as [|n IH]; intros p H D ext s Hi Hpin Hn; [lia|].
  simpl. unfold do_ref_dec_body, id in *. destruct (Z.eqb_spec p 0) as [->|Hp].
  { apply (proj1 (rc_inv_null _ _ _ _ _)) in Hi. wp_step. split; [done|apply rc_frame_refl]. }
  destruct (rc_inv_head _ H D p ext (heap s) Hi Hp)
    as (HD & o & l & E & Ha & Hm & Hr & Hl & Hfin).
  wp_step. eapply wp_load; [done|].
  wp_step. wp_step; [by apply Z.eqb_eq|].
  wp_step. wp_step; [by apply Is_true_true|].
  wp_step. wp_step; [apply Z.ltb_lt; lia|].
  destruct (Z.ltb_spec (refCount (_ah o)) INT_MAX).
  - destruct (Z.eqb_spec (refCount (_ah o) - 1) 0).
    + eapply ref_dec_dead; try done; lia.
    + eapply ref_dec_alive; try done. lia.
  - wp_step. split; [|apply rc_frame_refl].
    rewrite <- (insert_id (heap s) p o E).
    eapply rc_inv_recount; try done; [|left; lia].
    intros x Hx. by rewrite count_cons, decide_False.
Qed.

Lemma live_count_size h : (live_count h <= size h)%nat.
Proof. apply msum_le_size. intros k a _. destruct (0 <? _); lia. Qed.

Lemma ref_dec_p_pinned p H D ext s :
  rc_inv_at exact H D (p :: ext) (heap s) -> pinned H D ext ->
  wp (ref_dec_p p) s (fun _ s' => rc_inv_at exact H D ext (heap s') /\ rc_frame D s s').
Proof.
  intros Hi Hpin. unfold ref_dec_p. wp_step. wp_step.
  apply (do_ref_dec_p_releases _ p H D ext s Hi Hpin). pose proof (live_count_size (heap s)). lia.
Qed.
Lemma ref_dec_p_releases p D ext s :
  rc_inv exact D (p :: ext) (heap s) ->
  wp (ref_dec_p p) s (fun _ s' => rc_inv exact D ext (heap s') /\ rc_frame D s s').
Proof. intros Hi. apply ref_dec_p_pinned; [done|]. by intros y Hy HD. Qed.
End RefDecSpec.

Section RefIncSpec.
Context (exact : bool).
Implicit Types (s : vm) (D : gset Z) (o : pvm_object_storage).

(** The common shape of taking a reference: the header may change, and the
    count goes up by one or is saturated. *)
Lemma rc_inv_inc H D ext p o o' h :
  rc_inv_at exact H D ext h -> h !! p = Some o -> p ∉ D -> is_alloc o ->
  strip o' = strip o -> is_alloc o' ->
  refCount (_ah o') = INT_MAX \/
    refCount (_ah o') = refCount (_ah o) + 1 /\ refCount (_ah o) < INT_MAX ->
  rc_inv_at exact H D (p :: ext) (<[p := o']> h).
Proof.
  intros Hi E HD Ha Es Ha' Hr.
  destruct (rc_obj _ _ _ _ _ Hi p o E Ha HD) as (Hm & Hb & _).
  eapply rc_inv_recount; try done.
  - replace (object_start_marker (_ah o')) with (object_start_marker (_ah (strip o')));
      [by rewrite Es|done].
  - unfold INT_MAX in *. lia.
  - intros x Hx. by rewrite count_cons, decide_False.
  - destruct Hr as [?|[Hr ?]]; [by left|right].
    rewrite count_cons, decide_True by done. lia.
Qed.

Lemma ref_inc_p_spec H D ext p o s :
  rc_inv_at exact H D ext (heap s) -> heap s !! p = Some o -> p ∉ D -> is_alloc o ->
  wp (ref_inc_p p) s (fun _ s' =>
    rc_inv_at exact H D (p :: ext) (heap s') /\ same_data (heap s) (heap s') /\
    env s' = env s /\
    exists o', heap s' = <[p := o']> (heap s) /\ is_alloc o').
Proof.
  intros Hi E HD Ha. destruct (rc_obj _ _ _ _ _ Hi p o E Ha HD) as (Hm & Hb & _).
  assert (forall o', strip o' = strip o -> is_alloc o' ->
    refCount (_ah o') = INT_MAX \/
      refCount (_ah o') = refCount (_ah o) + 1 /\ refCount (_ah o) < INT_MAX ->
    let s' := set_heap (<[p := o']> (heap s)) s in
    rc_inv_at exact H D (p :: ext) (heap s') /\ same_data (heap s) (heap s') /\
    env s' = env s /\ exists o', heap s' = <[p := o']> (heap s) /\ is_alloc o') as Hfin.
  { intros o' Es Ha' Hr. simpl. split_and!.
    - by eapply rc_inv_inc.
    - by eapply same_data_insert.
    - done.
    - by exists o'. }
  unfold ref_inc_p. destruct (Z.eqb_spec p 0) as [->|].
  { by rewrite (rc_null _ _ _ _ _ Hi) in E. }
  wp_step. eapply wp_load; [done|].
  wp_step. wp_step; [by apply Z.eqb_eq|].
  wp_step. wp_step; [by apply Is_true_true|].
  wp_step. wp_step; [apply Z.ltb_lt; lia|].
  destruct (Z.ltb_spec (refCount (_ah o)) INT_MAX).
  - wp_step. eapply wp_update; [done|]. destruct (flag _ _).
    + eapply wp_update; [simpl; by rewrite lookup_insert_eq|]. simpl.
      rewrite insert_insert_eq. apply Hfin; [done| |by right].
      by apply (is_alloc_clear_down (set_refCount (refCount (_ah o) + 1) o)).
    + wp_step. apply Hfin; [done..|by right].
  - wp_step. specialize (Hfin o eq_refl Ha). spec Hfin; [left; lia|].
    simpl in Hfin. rewrite (insert_id _ _ _ E) in Hfin. simpl.
    destruct Hfin as (? & ? & ? & ?). done.
Qed.

Lemma ref_saturate_p_spec H D ext p o s :
  rc_inv_at exact H D ext (heap s) -> heap s !! p = Some o -> p ∉ D -> is_alloc o ->
  Z.ldiff (alloc_flags (_ah o))
    (Z.lor PVM_OBJECT_AH_ALLOCATOR_FLAG_IN_BUFFER PVM_OBJECT_AH_ALLOCATOR_FLAG_WENT_DOWN)
    = PVM_OBJECT_AH_ALLOCATOR_FLAG_ALLOCATED ->
  (flag (alloc_flags (_ah o)) PVM_OBJECT_AH_ALLOCATOR_FLAG_IN_BUFFER = false ->
   alloc_flags (_ah o) = PVM_OBJECT_AH_ALLOCATOR_FLAG_ALLOCATED) ->
  wp (ref_saturate_p p) s (fun _ s' =>
    rc_inv_at exact H D ext (heap s') /\ same_data (heap s) (heap s') /\ env s' = env s /\
    exists o', heap s' !! p = Some o' /\ is_alloc o' /\ refCount (_ah o') = INT_MAX).
Proof.
  intros Hi E HD Ha Hfl Hnb. destruct (rc_obj _ _ _ _ _ Hi p o E Ha HD) as (Hm & Hb & _).
  unfold ref_saturate_p. wp_step. eapply wp_load; [done|]. wp_step.
  eapply (wp_mono _ _ (fun _ s' => heap s' = <[p := set_alloc_flags 1 o]> (heap s)
    /\ env s' = env s)).
  - destruct (flag _ _).
    + eapply wp_update; [done|]. by rewrite Z.ldiff_ldiff_l, Hfl.
    + wp_step. rewrite insert_id; [done|]. rewrite E. f_equal.
      specialize (Hnb eq_refl). destruct o as [[] ]. simpl in *. by rewrite Hnb.
  - intros [] s1 [Eh Ee]. wp_step. eapply wp_load; [by rewrite Eh, lookup_insert_eq|].
    wp_step. wp_step; [by apply Z.eqb_eq|].
    wp_step. wp_step; [done|].
    wp_step. wp_step; [apply Z.ltb_lt; simpl; lia|].
    eapply wp_update; [by rewrite Eh, lookup_insert_eq|]. simpl.
    rewrite Eh, insert_insert_eq. split_and!.
    + eapply rc_inv_recount; try done. by left.
    + by eapply same_data_insert.
    + done.
    + eexists. rewrite lookup_insert_eq. done.
Qed.
End RefIncSpec.

Section Check.
Implicit Types (h : gmap Z pvm_object_storage).

Lemma count_in x l : (0 < count x l)%nat -> x ∈ l.
Proof.
  unfold count. destruct (filter (x =.) l) as [|y l'] eqn:E; simpl; [lia|].
  intros _. assert (y ∈ filter (x =.) l) as Hy by (rewrite E; by left).
  apply list_elem_of_filter in Hy as [-> ?]. done.
Qed.

Lemma forallb_map_to_list (P : Z * pvm_object_storage -> bool) h :
  forallb P (map_to_list h) = true <-> forall k o, h !! k = Some o -> P (k, o) = true.
Proof.
  rewrite forallb_forall. split.
  - intros H k o E. by apply H, list_elem_of_In, elem_of_map_to_list.
  - intros H [k o] Hin. by apply H, elem_of_map_to_list, list_elem_of_In.
Qed.

Lemma is_alloc_at_in h l x :
  forallb (is_alloc_at h) l = true -> x ∈ l -> x <> 0 ->
  exists o, h !! x = Some o /\ is_alloc o.
Proof.
  rewrite forallb_forall. intros H Hin Hx. specialize (H x (proj1 (list_elem_of_In _ _) Hin)).
  unfold is_alloc_at in H. destruct (Z.eqb_spec x 0); [done|].
  destruct (h !! x) as [o|]; [|done]. exists o. simpl in H. by rewrite H.
Qed.

Lemma rc_check_obj_sound exact ext h y o :
  rc_check_obj exact ext h y o = true -> is_alloc o ->
  object_start_marker (_ah o) = PVM_OBJECT_START_MARKER /\
  0 < refCount (_ah o) <= INT_MAX /\ is_Some (children h o) /\
  (flag (_flags o) PHANTOM_OBJECT_STORAGE_FLAG_IS_FINALIZER -> is_Some (class_of h o)) /\
  (refCount (_ah o) = INT_MAX \/
    if exact then refCount (_ah o) = Z.of_nat (nrefs h ∅ ext y)
    else Z.of_nat (nrefs h ∅ ext y) <= refCount (_ah o)).
Proof.
  unfold rc_check_obj. intros H Ha. destruct (is_alloc o); [|done]. simpl in H.
  rewrite !andb_true_iff, !orb_true_iff, negb_true_iff, !bool_decide_eq_true in H.
  destruct H as [[[[[Hm Hpos] Hmax] Hch] Hcl] Hrc].
  split_and!; [lia|lia|lia|done| |].
  - intros Hf. destruct Hcl as [Hcl|]; [by rewrite Hcl in Hf|done].
  - destruct exact; destruct Hrc; [left|right|left|right]; lia.
Qed.

Lemma rc_check_sound exact ext h : rc_check exact ext h = true -> rc_inv exact ∅ ext h.
Proof.
  unfold rc_check. rewrite !andb_true_iff. intros [[[Hnull Hobj] Hext] Hch].
  apply bool_decide_eq_true in Hnull. rewrite forallb_map_to_list in Hobj, Hch. cbn [fst snd] in Hobj, Hch. split.
  - done.
  - intros y o E Ha _. by pose proof (rc_check_obj_sound _ _ _ _ _ (Hobj y o E) Ha) as (? & ? & ? & ? & _).
  - intros x Hx Hpos. split; [apply not_elem_of_empty|].
    assert (exists o, h !! x = Some o /\ is_alloc o) as (o & E & Ha).
    { unfold nrefs in Hpos. destruct (decide (count x ext = 0%nat)) as [Hz|].
      - destruct (msum_pos (contrib h ∅ x) h) as (y & q & Ey & Hc); [lia|].
        specialize (Hch y q Ey). simpl in Hch. unfold contrib in Hc.
        destruct (is_alloc q); [|by apply Nat.lt_irrefl in Hc]. simpl in Hch, Hc.
        case_bool_decide; [|by apply Nat.lt_irrefl in Hc].
        apply count_in in Hc. by eapply is_alloc_at_in.
      - eapply is_alloc_at_in; [done| |done]. apply count_in. lia. }
    exists o. split_and!; [done..|].
    pose proof (rc_check_obj_sound _ _ _ _ _ (Hobj x o E) Ha) as (_ & _ & _ & _ & Hrc).
    destruct exact; [|done]. destruct Hrc as [?|Hrc]; [by left|right; rewrite Hrc; lia].
  - intros He x o E Ha _. destruct exact; [|done].
    by pose proof (rc_check_obj_sound _ _ _ _ _ (Hobj x o E) Ha) as (_ & _ & _ & _ & Hrc).
  - intros y Hy. by apply not_elem_of_empty in Hy.
  - done.
Qed.
End Check.

Lemma nrefs_frame D s s' ext x :
  rc_frame D s s' -> (nrefs (heap s') D ext x <= nrefs (heap s) D ext x)%nat.
Proof.
  intros [Hsd _ _ _ Hal]. unfold nrefs. apply Nat.add_le_mono_l.
  apply msum_le. intros y o' E Hpos.
  destruct (is_alloc o') eqn:Ha'; unfold contrib in *; rewrite Ha' in *; [|simpl in Hpos; lia].
  destruct (Hal y o' E) as (o & E' & Ha & _); [by rewrite Ha'|].
  exists o. split; [done|]. rewrite (children_same (heap s') (heap s) o' o).
  - by destruct (is_alloc o).
  - done.
  - pose proof (same_data_lookup _ _ y Hsd) as Hs. rewrite E, E' in Hs.
    by apply (inj Some) in Hs.
Qed.

(** ** Theorems *)

(** C4: Releasing one reference to [p] ([ref_dec_p]) always returns when the
    counts cover the references: no [assert] fails, no bad pointer is followed
    and the recursion over dying objects ends.  Afterwards the counts still
    cover the references that remain, no object that is still referenced has
    been freed, and only counts and allocator flags have changed. *)
Theorem ref_dec_p_correct exact ext p s :
  rc_inv exact ∅ (p :: ext) (heap s) ->
  exists s', ref_dec_p p s = Ret tt s' /\
    rc_inv exact ∅ ext (heap s') /\
    (forall x, x <> 0 -> (0 < nrefs (heap s') ∅ ext x)%nat ->
      exists o, heap s' !! x = Some o /\ is_alloc o) /\
    same_data (heap s) (heap s') /\ env s' = env s.
Proof.
  intros Hi. destruct (ref_dec_p_releases exact p ∅ ext s Hi) as ([] & s' & E & Hi' & Hf).
  exists s'. split_and!; [done|done| |apply Hf|apply Hf].
  intros x Hx Hpos. destruct (rc_safe _ _ _ _ _ Hi' x Hx Hpos) as (_ & o & ? & ? & _). eauto.
Qed.

(** C26: With exact counts, giving up the last reference frees the object, and
    reference counting leaks nothing: every object still allocated afterwards is
    saturated or still referenced. *)
Theorem ref_dec_p_frees_last ext p o s :
  rc_inv true ∅ (p :: ext) (heap s) -> heap s !! p = Some o -> refCount (_ah o) = 1 ->
  exists s', ref_dec_p p s = Ret tt s' /\
    (forall o', heap s' !! p = Some o' -> ~ is_alloc o') /\
    (forall x q, heap s' !! x = Some q -> is_alloc q ->
      refCount (_ah q) = INT_MAX \/ (0 < nrefs (heap s') ∅ ext x)%nat).
Proof.
  intros Hi E H1. assert (p <> 0) as Hp by (intros ->; by rewrite (rc_null _ _ _ _ _ Hi) in E).
  destruct (ref_dec_p_releases true p ∅ ext s Hi) as ([] & s' & Er & Hi' & Hf).
  exists s'. split_and!; [done| |].
  - intros o' E' Ha'. destruct (rf_alloc _ _ _ Hf p o' E' Ha') as (q & Eq & Haq & Hle).
    simplify_eq. pose proof (nrefs_frame ∅ s s' ext p Hf) as Hn.
    destruct (rc_obj _ _ _ _ _ Hi' p o' E' Ha') as (_ & Hpos & _); [apply not_elem_of_empty|].
    destruct (rc_exact _ _ _ _ _ Hi I p o E Haq) as [?|Hq]; [apply not_elem_of_empty|unfold INT_MAX in *; lia|].
    destruct (rc_exact _ _ _ _ _ Hi' I p o' E' Ha') as [?|Hq']; [apply not_elem_of_empty|unfold INT_MAX in *; lia|].
    unfold nrefs in *. rewrite count_cons, decide_True in Hq by done. lia.
  - intros x q Ex Hq. destruct (rc_exact _ _ _ _ _ Hi' I x q Ex Hq) as [?|Hr];
      [apply not_elem_of_empty|by left|right].
    destruct (rc_obj _ _ _ _ _ Hi' x q Ex Hq) as (_ & Hpos & _); [apply not_elem_of_empty|]. lia.
Qed.

(** Taking a reference ([ref_inc_p]) to a live object returns and its count
    covers the new reference (or has become saturated); releasing it again
    returns too, and leaves the invariant, the object and all data as before. *)
Theorem ref_inc_dec_neutral exact ext p s :
  rc_inv exact ∅ ext (heap s) -> p <> 0 -> (0 < nrefs (heap s) ∅ ext p)%nat ->
  exists s1, ref_inc_p p s = Ret tt s1 /\ rc_inv exact ∅ (p :: ext) (heap s1) /\
  exists s2, ref_dec_p p s1 = Ret tt s2 /\ rc_inv exact ∅ ext (heap s2) /\
    same_data (heap s) (heap s2) /\ env s2 = env s.
Proof.
  intros Hi Hp Hn. destruct (rc_safe _ _ _ _ _ Hi p Hp Hn) as (HD & o & E & Ha & _).
  destruct (ref_inc_p_spec exact ∅ ∅ ext p o s Hi E HD Ha) as ([] & s1 & E1 & Hi1 & Hd1 & He1 & _).
  exists s1. split_and!; [done..|].
  destruct (ref_dec_p_releases exact p ∅ ext s1 Hi1) as ([] & s2 & E2 & Hi2 & Hf).
  exists s2. split_and!; [done|done| |].
  - transitivity (heap s1); [done|apply Hf].
  - rewrite (rf_env _ _ _ Hf). done.
Qed.

(** Saturating a count ([ref_saturate_p]) pins the object: it returns for an
    object that is allocated and at most a candidate cycle root, keeps the
    invariant, and no later release ever frees it. *)
Theorem ref_saturate_p_pins exact ext p o s :
  rc_inv exact ∅ (p :: ext) (heap s) -> heap s !! p = Some o ->
  alloc_flags (_ah o) = PVM_OBJECT_AH_ALLOCATOR_FLAG_ALLOCATED \/
  alloc_flags (_ah o) = Z.lor PVM_OBJECT_AH_ALLOCATOR_FLAG_ALLOCATED
    (Z.lor PVM_OBJECT_AH_ALLOCATOR_FLAG_IN_BUFFER PVM_OBJECT_AH_ALLOCATOR_FLAG_WENT_DOWN) ->
  exists s1, ref_saturate_p p s = Ret tt s1 /\ rc_inv exact ∅ (p :: ext) (heap s1) /\
    exists s2, ref_dec_p p s1 = Ret tt s2 /\ s2 = s1 /\
      exists o', heap s2 !! p = Some o' /\ is_alloc o' /\ refCount (_ah o') = INT_MAX.
Proof.
  intros Hi E Hfl.
  assert (is_alloc o) as Ha by (unfold is_alloc; by destruct Hfl as [->| ->]).
  destruct (ref_saturate_p_spec exact ∅ ∅ (p :: ext) p o s Hi E)
    as ([] & s1 & E1 & Hi1 & _ & _ & o1 & Eo1 & Ha1 & Hr1); try done.
  { by destruct Hfl as [->| ->]. }
  { by destruct Hfl as [->| ->]. }
  assert (p <> 0) as Hp by (intros ->; by rewrite (rc_null _ _ _ _ _ Hi) in E).
  destruct (rc_inv_head _ _ _ _ _ _ Hi1 Hp) as (_ & q & l & Eq & _ & Hm & _). simplify_eq.
  exists s1. split_and!; [done..|]. exists s1. split_and!; [|done|by exists o1].
  unfold ref_dec_p, do_ref_dec_p, do_ref_dec_body. simpl. fold do_ref_dec_p.
  destruct (Z.eqb_spec p 0); [done|].
  unfold mbind, M_bind, get, load. rewrite Eo1, Hm, Hr1. unfold is_alloc in Ha1.
  by destruct (flag _ _).
Qed.

(** ** Witnesses *)

Lemma ref_dec_p_correct_witness :
  exists s', ref_dec_p 1000 (zero_vm ex_heap) = Ret tt s' /\ rc_inv true ∅ [2000] (heap s').
Proof.
  destruct (ref_dec_p_correct true [2000] 1000 (zero_vm ex_heap)) as (s' & H1 & H2 & _).
  - apply rc_check_sound. vm_compute. reflexivity.
  - exists s'. split; assumption.
Defined.

Lemma ref_dec_p_frees_last_witness :
  exists s', ref_dec_p 1000 (zero_vm ex_heap) = Ret tt s' /\
    (forall o', heap s' !! 1000 = Some o' -> ~ is_alloc o') /\
    (alloc_flags ∘ _ah <$> heap s' !! 3000 = Some PVM_OBJECT_AH_ALLOCATOR_FLAG_FREE).
Proof.
  destruct (ref_dec_p_frees_last [2000] 1000 (ex_obj 1 [mkObj 2000 0; mkObj 3000 0])
    (zero_vm ex_heap)) as (s' & H1 & H2 & _).
  - apply rc_check_sound. vm_compute. reflexivity.
  - vm_compute. reflexivity.
  - vm_compute. reflexivity.
  - exists s'. split; [assumption|]. split; [assumption|].
    vm_compute in H1. injection H1 as <-. vm_compute. reflexivity.
Defined.

Lemma ref_inc_dec_neutral_witness :
  exists s1 s2, ref_inc_p 3000 (zero_vm ex_heap) = Ret tt s1 /\ ref_dec_p 3000 s1 = Ret tt s2 /\
    same_data ex_heap (heap s2).
Proof.
  destruct (ref_inc_dec_neutral true [1000; 2000] 3000 (zero_vm ex_heap))
    as (s1 & H1 & _ & s2 & H2 & _ & H3 & _).
  - apply rc_check_sound. vm_compute. reflexivity.
  - discriminate.
  - apply Nat.ltb_lt. vm_compute. reflexivity.
  - exists s1, s2. split; [assumption|]. split; assumption.
Defined.

Lemma ref_saturate_p_pins_witness :
  exists s1, ref_saturate_p 2000 (zero_vm ex_heap) = Ret tt s1 /\
    ref_dec_p 2000 s1 = Ret tt s1.
Proof.
  destruct (ref_saturate_p_pins true [1000] 2000 (ex_obj 2 []) (zero_vm ex_heap))
    as (s1 & H1 & _ & s2 & H2 & H3 & _).
  - apply rc_check_sound. vm_compute. reflexivity.
  - vm_compute. reflexivity.
  - left. reflexivity.
  - exists s1. subst s2. split; assumption.
Defined.
