(* ===== verification/Alloc.v ===== *)
(** The object allocator ([phantom/vm/alloc.c]).

    The object space is cut into five arenas; each arena is tiled with blocks,
    allocated or free, that start with an object header and whose [exact_size]
    leads to the next block.  A block start is a key of the heap map: when free
    blocks are merged the headers swallowed by the merge stop being objects and
    are removed from the map, and when a block is split the header written in
    its middle is added.  [vm_alloc_mutex] makes these functions sequential. *)

From S2P Require Import Prelude Heap Refcount.

Definition ARENAS : nat := 5.
Definition percent_a : list Z := [15; 15; 2; 28; 40].
Definition PVM_MIN_FRAGMENT_SIZE : Z := sizeof_storage + 4.

(** ** Choice of arena and size *)

Definition find_arena (size flags : Z) (saturated : bool) : Z :=
  if flag flags (Z.lor PHANTOM_OBJECT_STORAGE_FLAG_IS_CALL_FRAME
                       PHANTOM_OBJECT_STORAGE_FLAG_IS_STACK_FRAME) then 1
  else if flag flags PHANTOM_OBJECT_STORAGE_FLAG_IS_INT then 2
  else if saturated then 0
  else if flag flags (Z.lor (Z.lor PHANTOM_OBJECT_STORAGE_FLAG_IS_CODE
                                   PHANTOM_OBJECT_STORAGE_FLAG_IS_CLASS)
                            PHANTOM_OBJECT_STORAGE_FLAG_IS_INTERFACE) then 0
  else if size <? 1000 then 3
  else 4.

Definition find_arena_by_address (memaddr : Z) : M vm Z :=
  s ← get;
  (fix loop (i : nat) (st en : list Z) : M vm Z :=
     match st, en with
     | a :: st', e :: en' =>
         if (a <=? memaddr) && (memaddr <? e) then mret (Z.of_nat i) else loop (S i) st' en'
     | _, _ => panic "arena not found for addr"
     end) 0%nat (start_a s) (end_a s).

Definition round_size (size : Z) : Z := u32 ((u32 (size - 1) / 4 + 1) * 4).

(** ** Start up *)

(** The loop of [init_arenas]: start and end of each arena from [cur] on. *)
Fixpoint cut_arenas (percents : list Z) (cur size : Z) : list Z * list Z :=
  match percents with
  | [] => ([], [])
  | p :: rest =>
      let next := u32 (cur + u32 (size / 400 * p * 4)) in
      let '(st, en) := cut_arenas rest next size in
      (cur :: st, next :: en)
  end.

Definition init_arenas (space_start size : Z) : M vm unit :=
  let space_end := u32 (space_start + size) in
  let '(st, en) := cut_arenas percent_a space_start size in
  assert_ (fold_right Z.add 0 percent_a =? 100) "percent_100 == 100";;
  modify (set_arenas space_start space_end st (<[(ARENAS - 1)%nat := space_end]> en) st).

Definition pvm_alloc_init (space_start size : Z) : M vm unit :=
  assert_ (negb (space_start =? 0)) "_pvm_object_space_start != 0";;
  assert_ (0 <? size) "size > 0";;
  init_arenas space_start size.

(** ** Headers *)

Definition write_header (op : Z) (h : alloc_header) : M vm unit :=
  s ← get;
  store op (set_ah h (default blank_storage (heap s !! op))).

Definition init_object_header (op size : Z) : M vm unit :=
  assert_ (sizeof_storage <=? size) "size >= sizeof(pvm_object_storage_t)";;
  write_header op (mkAH PVM_OBJECT_START_MARKER 1 PVM_OBJECT_AH_ALLOCATOR_FLAG_ALLOCATED 0 size).

Definition init_free_object_header (op size : Z) : M vm unit :=
  assert_ (sizeof_storage <=? size) "size >= sizeof(pvm_object_storage_t)";;
  write_header op (mkAH PVM_OBJECT_START_MARKER 0 PVM_OBJECT_AH_ALLOCATOR_FLAG_FREE 0 size).

Definition pvm_alloc_clear_mem : M vm unit :=
  s ← get;
  assert_ (negb (pvm_object_space_start s =? 0)) "pvm_object_space_start != 0";;
  for_each (fun se => init_free_object_header se.1 (u32 (se.2 - se.1)))
    (zip (start_a s) (end_a s)).

(** ** Splitting and merging *)

Definition alloc_eat_some (op size : Z) : M vm Z :=
  o ← load op;
  assert_ (object_start_marker (_ah o) =? PVM_OBJECT_START_MARKER) "marker";;
  assert_ (alloc_flags (_ah o) =? PVM_OBJECT_AH_ALLOCATOR_FLAG_FREE) "free";;
  assert_ (size <=? exact_size (_ah o)) "op->_ah.exact_size >= size";;
  let surplus := u32 (exact_size (_ah o) - size) in
  if surplus <? PVM_MIN_FRAGMENT_SIZE then
    init_object_header op (exact_size (_ah o));;
    mret op
  else
    init_object_header op size;;
    init_free_object_header (u32 (op + size)) surplus;;
    mret op.

(** The [do while(1)] of [alloc_collapse_with_next_free]: the size of the run of
    free blocks that starts at [op]. *)
Fixpoint collapse_loop (fuel : nat) (op size need_size en : Z) : M vm Z :=
  match fuel with
  | O => diverge
  | S fuel' =>
      let o := u32 (op + size) in
      if o <? en then
        opppa ← load o;
        if (alloc_flags (_ah opppa) =? PVM_OBJECT_AH_ALLOCATOR_FLAG_FREE)
           && (size <? u32 (need_size * 32))
        then collapse_loop fuel' op (u32 (size + exact_size (_ah opppa))) need_size en
        else mret size
      else mret size
  end.

(** The headers strictly inside the merged block are no objects any more. *)
Definition swallow (op size : Z) (s : vm) : vm :=
  set_heap (filter (fun ko => ~ (op < ko.1 < op + size)) (heap s)) s.

Definition alloc_collapse_with_next_free (op need_size en : Z) : M vm unit :=
  o ← load op;
  assert_ (object_start_marker (_ah o) =? PVM_OBJECT_START_MARKER) "marker";;
  assert_ (alloc_flags (_ah o) =? PVM_OBJECT_AH_ALLOCATOR_FLAG_FREE) "free";;
  s ← get;
  size ← collapse_loop (S (size (heap s))) op (exact_size (_ah o)) need_size en;
  if exact_size (_ah o) <? size then
    modify (swallow op size);;
    init_free_object_header op size
  else mret tt.

Definition alloc_wrap_to_next_object (op st en wrap : Z) : M vm (Z * Z) :=
  h ← load op;
  assert_ (object_start_marker (_ah h) =? PVM_OBJECT_START_MARKER) "marker";;
  let o := u32 (op + exact_size (_ah h)) in
  if en <=? o then
    assert_ (o <=? en) "o <= end";;
    mret (st, wrap + 1)
  else mret (o, wrap).

(** ** Searching *)

(** The loop of [pvm_find]: the block found and the wrap count, or null. *)
Fixpoint pvm_find_loop (fuel : nat) (size st en wrap curr : Z) : M vm (option (Z * Z)) :=
  match fuel with
  | O => diverge
  | S fuel' =>
      if 1 <? wrap then mret None else
      o ← load curr;
      if flag (alloc_flags (_ah o)) PVM_OBJECT_AH_ALLOCATOR_FLAG_ALLOCATED then
        '(next, wrap') ← alloc_wrap_to_next_object curr st en wrap;
        pvm_find_loop fuel' size st en wrap' next
      else
        (if negb (alloc_flags (_ah o) =? PVM_OBJECT_AH_ALLOCATOR_FLAG_FREE)
         then refzero_process_children ref_dec_p curr else mret tt);;
        o ← load curr;
        assert_ (alloc_flags (_ah o) =? PVM_OBJECT_AH_ALLOCATOR_FLAG_FREE) "free";;
        (if exact_size (_ah o) <? size
         then alloc_collapse_with_next_free curr size en else mret tt);;
        o ← load curr;
        if exact_size (_ah o) <? size then
          '(next, wrap') ← alloc_wrap_to_next_object curr st en wrap;
          pvm_find_loop fuel' size st en wrap' next
        else
          result ← alloc_eat_some curr size;
          mret (Some (result, wrap))
  end.

(** Every block is visited at most twice. *)
Definition pvm_find (size arena : Z) : M vm (option Z) :=
  s ← get;
  st ← some_or_fault (start_a s !!z arena) "start_a";
  en ← some_or_fault (end_a s !!z arena) "end_a";
  curr ← some_or_fault (curr_a s !!z arena) "curr_a";
  r ← pvm_find_loop (2 * base.size (heap s) + 3) size st en 0 curr;
  match r with
  | None => mret None
  | Some (result, wrap) =>
      '(next, _) ← alloc_wrap_to_next_object result st en wrap;
      c ← gets curr_a;
      c' ← some_or_fault (insertZ arena next c) "curr_a";
      modify (set_curr_a c');;
      mret (Some result)
  end.

(** Garbage collection from here is disabled: one attempt. *)
Definition pool_alloc (size arena : Z) : M vm (option Z) := pvm_find size arena.

Definition oom : string := "out of persistent mem".

(** The second half of [pvm_object_alloc], with the block found. *)
Definition object_alloc_init (data_area_size flags : Z) (saturated : bool) (p : Z) : M vm Z :=
  update p (set_size_flags data_area_size flags);;
  (if saturated then ref_saturate_p p else mret tt);;
  o ← load p;
  (* memset( data->da, 0, data_area_size ) *)
  (if sizeof_storage + data_area_size <=? exact_size (_ah o)
   then update p (set_da DA_zero) else fault "memset past the block");;
  mret p.

Definition pvm_object_alloc (data_area_size flags : Z) (saturated : bool) : M vm Z :=
  let size := u32 (sizeof_storage + data_area_size) in
  let arena := find_arena size flags saturated in
  let size := round_size size in
  d ← pool_alloc size arena;
  match d with
  | None => panic oom
  | Some p => object_alloc_init data_area_size flags saturated p
  end.

(** ** Checks *)

Definition pvm_alloc_is_object (o : pvm_object_storage) : bool :=
  object_start_marker (_ah o) =? PVM_OBJECT_START_MARKER.

Definition pvm_alloc_is_free_object (o : pvm_object_storage) : bool :=
  (object_start_marker (_ah o) =? PVM_OBJECT_START_MARKER) &&
  (alloc_flags (_ah o) =? PVM_OBJECT_AH_ALLOCATOR_FLAG_FREE).

Definition pvm_object_is_allocated_light (o : pvm_object_storage) : bool :=
  (object_start_marker (_ah o) =? PVM_OBJECT_START_MARKER) &&
  flag (alloc_flags (_ah o)) PVM_OBJECT_AH_ALLOCATOR_FLAG_ALLOCATED.

Definition pvm_object_is_allocated (space_end p : Z) (o : pvm_object_storage) : bool :=
  (object_start_marker (_ah o) =? PVM_OBJECT_START_MARKER) &&
  flag (alloc_flags (_ah o)) PVM_OBJECT_AH_ALLOCATOR_FLAG_ALLOCATED &&
  (0 <? refCount (_ah o)) &&
  (u32 (_da_size o + sizeof_storage) <=? exact_size (_ah o)) &&
  (exact_size (_ah o) <? u32 (_da_size o + sizeof_storage + PVM_MIN_FRAGMENT_SIZE)) &&
  (exact_size (_ah o) <=? u32 (space_end - p)).

Definition pvm_object_is_allocated_assert (p : Z) : M vm unit :=
  o ← load p;
  s ← get;
  assert_ (object_start_marker (_ah o) =? PVM_OBJECT_START_MARKER) "marker";;
  assert_ (flag (alloc_flags (_ah o)) PVM_OBJECT_AH_ALLOCATOR_FLAG_ALLOCATED) "allocated";;
  assert_ (0 <? refCount (_ah o)) "refCount > 0";;
  assert_ (u32 (_da_size o + sizeof_storage) <=? exact_size (_ah o)) "size, low";;
  assert_ (exact_size (_ah o) <? u32 (_da_size o + sizeof_storage + PVM_MIN_FRAGMENT_SIZE))
    "size, high";;
  assert_ (exact_size (_ah o) <=? u32 (pvm_object_space_end s - p)) "size, end".

(** What [memcheck_one] prints: objects, bytes used, bytes free, largest free. *)
Record memstat := mkStat { n_objects : Z; n_used : Z; n_free : Z; n_largest : Z }.

(** The walk of [memcheck_one]: where it stopped and the totals. *)
Fixpoint memcheck_loop (fuel : nat) (en curr : Z) (st : memstat) : M vm (Z * memstat) :=
  match fuel with
  | O => diverge
  | S fuel' =>
      if negb (curr <? en) then mret (curr, st) else
      o ← load curr;
      s ← get;
      let sz := exact_size (_ah o) in
      if negb (pvm_alloc_is_object o) then mret (curr, st)
      else if flag (alloc_flags (_ah o)) PVM_OBJECT_AH_ALLOCATOR_FLAG_ALLOCATED then
        if negb (pvm_object_is_allocated (pvm_object_space_end s) curr o) then mret (curr, st)
        else memcheck_loop fuel' en (u32 (curr + sz))
               (mkStat (n_objects st + 1) (u32 (n_used st + sz)) (n_free st) (n_largest st))
      else
        memcheck_loop fuel' en (u32 (curr + sz))
          (mkStat (n_objects st) (n_used st) (u32 (n_free st + sz)) (Z.max (n_largest st) sz))
  end.

(** The result of [memcheck_one] and the totals it prints. *)
Definition memcheck_one (start en : Z) : M vm (Z * memstat) :=
  s ← get;
  '(curr, st) ← memcheck_loop (S (size (heap s))) en start (mkStat 0 0 0 0);
  mret (if curr =? en then 0 else 1, st).

(** The result of [memcheck_one] is not looked at. *)
Definition pvm_memcheck : M vm Z :=
  s ← get;
  for_each (fun se => memcheck_one se.1 se.2;; mret tt) (zip (start_a s) (end_a s));;
  mret 0.

(** ** Properties *)

(** A well formed block. *)
Definition block_ok (o : pvm_object_storage) : Prop :=
  object_start_marker (_ah o) = PVM_OBJECT_START_MARKER /\
  sizeof_storage <= exact_size (_ah o) /\ (4 | exact_size (_ah o)) /\
  (alloc_flags (_ah o) = PVM_OBJECT_AH_ALLOCATOR_FLAG_FREE \/ is_alloc o).

(** [tiled h a e bl]: the blocks [bl] of [h] cover [a, e) without gaps. *)
Inductive tiled (h : gmap Z pvm_object_storage) (e : Z) : Z -> list Z -> Prop :=
  | tiled_nil : tiled h e e []
  | tiled_cons a o bl :
      h !! a = Some o -> block_ok o -> tiled h e (a + exact_size (_ah o)) bl ->
      tiled h e a (a :: bl).

(** The blocks of an arena are all the objects there are in its range. *)
Definition complete (h : gmap Z pvm_object_storage) (st en : Z) (bl : list Z) : Prop :=
  forall x o, h !! x = Some o -> st <= x < en -> x ∈ bl.

(** The allocated object at an address. *)
Definition alloc_at (h : gmap Z pvm_object_storage) (x : Z) : option pvm_object_storage :=
  match h !! x with
  | Some o => if is_alloc o then Some o else None
  | None => None
  end.

(** A free block of [bl] that can take [size] bytes. *)
Definition has_room (h : gmap Z pvm_object_storage) (size : Z) (bl : list Z) : Prop :=
  exists x o, x ∈ bl /\ h !! x = Some o /\
    alloc_flags (_ah o) = PVM_OBJECT_AH_ALLOCATOR_FLAG_FREE /\ size <= exact_size (_ah o).

Definition space_limit : Z := 2 ^ 32.

Section Tiles.
Implicit Types (h : gmap Z pvm_object_storage) (bl : list Z).

Lemma free_not_alloc o :
  alloc_flags (_ah o) = PVM_OBJECT_AH_ALLOCATOR_FLAG_FREE -> is_alloc o = false.
Proof. unfold is_alloc. intros ->. done. Qed.

Lemma block_ok_cases o :
  block_ok o -> alloc_flags (_ah o) <> PVM_OBJECT_AH_ALLOCATOR_FLAG_FREE -> is_alloc o = true.
Proof. intros (_ & _ & _ & [?|?]) ?; [done|by apply Is_true_true]. Qed.

Lemma tiled_le h a e bl : tiled h e a bl -> a <= e.
Proof. induction 1 as [|a o bl E (_ & ? & _) _ IH]; unfold sizeof_storage in *; lia. Qed.

Lemma tiled_cons_lt h a e x bl : tiled h e a (x :: bl) -> a < e.
Proof.
  inversion 1 as [|? o ? E (_ & ? & _) Ht]; subst. apply tiled_le in Ht.
  unfold sizeof_storage in *. lia.
Qed.

Lemma tiled_app h a b e l1 l2 : tiled h b a l1 -> tiled h e b l2 -> tiled h e a (l1 ++ l2).
Proof. induction 1; intros; simpl; [done|]. econstructor; eauto. Qed.

Lemma tiled_in h a e bl x :
  tiled h e a bl -> x ∈ bl ->
  a <= x < e /\ exists o, h !! x = Some o /\ block_ok o /\ x + exact_size (_ah o) <= e.
Proof.
  induction 1 as [|a o bl E Hok Ht IH]; intros Hin; [by apply not_elem_of_nil in Hin|].
  pose proof (tiled_le _ _ _ _ Ht) as Hle. pose proof Hok as (_ & Hs & _).
  unfold sizeof_storage in *. apply elem_of_cons in Hin as [->|Hin].
  - split; [lia|]. eauto.
  - destruct (IH Hin) as (? & q & ? & ? & ?). split; [lia|]. eauto.
Qed.

Lemma tiled_split h a e bl x :
  tiled h e a bl -> x ∈ bl ->
  exists l1 l2, bl = l1 ++ x :: l2 /\ tiled h x a l1 /\ tiled h e x (x :: l2).
Proof.
  induction 1 as [|a o bl E Hok Ht IH]; intros Hin; [by apply not_elem_of_nil in Hin|].
  destruct (decide (x = a)) as [->|Hne].
  - exists [], bl. split_and!; [done|constructor|by econstructor].
  - apply elem_of_cons in Hin as [->|Hin]; [done|].
    destruct (IH Hin) as (l1 & l2 & -> & H1 & H2).
    exists (a :: l1), l2. split_and!; [done|by econstructor|done].
Qed.

Lemma tiled_ext h h' a e bl :
  (forall x, a <= x < e -> h' !! x = h !! x) -> tiled h e a bl -> tiled h' e a bl.
Proof.
  intros Hx Ht. induction Ht as [|a o bl E Hok Ht IH]; [constructor|].
  pose proof (tiled_le _ _ _ _ Ht). pose proof Hok as (_ & Hs & _).
  unfold sizeof_storage in *. econstructor; [rewrite Hx by lia; done|done|].
  apply IH. intros x ?. apply Hx. lia.
Qed.

Lemma tiled_app_inv h a e l1 l2 :
  tiled h e a (l1 ++ l2) -> exists b, tiled h b a l1 /\ tiled h e b l2.
Proof.
  revert a. induction l1 as [|x l1 IH]; intros a Ht; simpl in *.
  - exists a. split; [constructor|done].
  - inversion Ht as [|? o ? E Hok Ht']; subst. destruct (IH _ Ht') as (b & H1 & H2).
    exists b. split; [by econstructor|done].
Qed.

Lemma tiled_NoDup h a e bl : tiled h e a bl -> NoDup bl.
Proof.
  induction 1 as [|a o bl E Hok Ht IH]; constructor; [|done].
  intros Hin. destruct (tiled_in _ _ _ _ _ Ht Hin) as (? & _).
  destruct Hok as (_ & ? & _). unfold sizeof_storage in *. lia.
Qed.

Lemma tiled_length h a e bl : tiled h e a bl -> (length bl <= size h)%nat.
Proof.
  intros Ht. rewrite <- (size_list_to_set (C := gset Z) bl) by by eapply tiled_NoDup.
  rewrite <- size_dom. apply subseteq_size. intros x Hx%elem_of_list_to_set.
  destruct (tiled_in _ _ _ _ _ Ht Hx) as (_ & o & E & _). by apply elem_of_dom_2 in E.
Qed.

Lemma tiled_div h a e bl : tiled h e a bl -> (4 | e - a).
Proof.
  induction 1 as [|a o bl E (_ & _ & Hd & _) _ IH]; [by rewrite Z.sub_diag; exists 0|].
  replace (e - a) with (e - (a + exact_size (_ah o)) + exact_size (_ah o)) by lia.
  by apply Z.divide_add_r.
Qed.

Lemma alloc_at_Some h x o : alloc_at h x = Some o <-> h !! x = Some o /\ is_alloc o.
Proof.
  unfold alloc_at. destruct (h !! x) as [q|]; [|naive_solver].
  destruct (is_alloc q) eqn:E; split; [|naive_solver| |].
  - intros [= ->]. by rewrite E.
  - done.
  - intros [[= ->] Ha]. by rewrite E in Ha.
Qed.

Lemma alloc_at_free h x o :
  h !! x = Some o -> alloc_flags (_ah o) = PVM_OBJECT_AH_ALLOCATOR_FLAG_FREE ->
  alloc_at h x = None.
Proof. intros E Hf. unfold alloc_at. rewrite E. by rewrite free_not_alloc. Qed.

Lemma has_room_app h size l1 l2 :
  has_room h size (l1 ++ l2) <-> has_room h size l1 \/ has_room h size l2.
Proof.
  unfold has_room. setoid_rewrite elem_of_app. naive_solver.
Qed.
End Tiles.

Section Search.
Implicit Types (s : vm) (h : gmap Z pvm_object_storage).

(** What the allocator never changes: everything but heap and search position. *)
Definition alloc_env (s : vm) :=
  (pvm_object_space_start s, pvm_object_space_end s, start_a s, end_a s,
   gc_n_run s, gc_flags_last_generation s, pvm_root s, class_objects s,
   finalized s, snap_request s).

Lemma wp_write_header op ah s (Q : unit -> vm -> Prop) :
  Q tt (set_heap (<[op := set_ah ah (default blank_storage (heap s !! op))]> (heap s)) s) ->
  wp (write_header op ah) s Q.
Proof. intros HQ. unfold write_header. wp_step. wp_step. by apply wp_store. Qed.

Lemma wp_init_free op size s (Q : unit -> vm -> Prop) :
  sizeof_storage <= size ->
  Q tt (set_heap (<[op := set_ah
    (mkAH PVM_OBJECT_START_MARKER 0 PVM_OBJECT_AH_ALLOCATOR_FLAG_FREE 0 size)
    (default blank_storage (heap s !! op))]> (heap s)) s) ->
  wp (init_free_object_header op size) s Q.
Proof.
  intros. unfold init_free_object_header. wp_step. wp_step; [by apply Z.leb_le|].
  by apply wp_write_header.
Qed.

Lemma wp_init_obj op size s (Q : unit -> vm -> Prop) :
  sizeof_storage <= size ->
  Q tt (set_heap (<[op := set_ah
    (mkAH PVM_OBJECT_START_MARKER 1 PVM_OBJECT_AH_ALLOCATOR_FLAG_ALLOCATED 0 size)
    (default blank_storage (heap s !! op))]> (heap s)) s) ->
  wp (init_object_header op size) s Q.
Proof.
  intros. unfold init_object_header. wp_step. wp_step; [by apply Z.leb_le|].
  by apply wp_write_header.
Qed.

(** A maximal-or-limited run of free blocks after [op + size]. *)
Lemma collapse_loop_spec fuel op size need en bl s :
  0 <= op -> 0 < size -> en < space_limit -> tiled (heap s) en (op + size) bl ->
  (length bl < fuel)%nat ->
  exists size' run rest, collapse_loop fuel op size need en s = Ret size' s /\
    bl = run ++ rest /\ tiled (heap s) (op + size') (op + size) run /\
    tiled (heap s) en (op + size') rest /\
    (forall x o, x ∈ run -> heap s !! x = Some o ->
      alloc_flags (_ah o) = PVM_OBJECT_AH_ALLOCATOR_FLAG_FREE).
Proof.
  unfold space_limit. revert size bl. induction fuel as [|fuel IH]; intros size bl Hop Hs He Ht Hf; [lia|].
  assert (exists size' run rest, Ret size s = Ret size' s /\
    bl = run ++ rest /\ tiled (heap s) (op + size') (op + size) run /\
    tiled (heap s) en (op + size') rest /\
    (forall x o, x ∈ run -> heap s !! x = Some o ->
      alloc_flags (_ah o) = PVM_OBJECT_AH_ALLOCATOR_FLAG_FREE)) as Hstop.
  { exists size, [], bl. split_and!; [done|done|constructor|done|].
    intros x o Hx. by apply not_elem_of_nil in Hx. }
  pose proof (tiled_le _ _ _ _ Ht) as Hle. simpl. rewrite (u32_id (op + size)) by lia.
  destruct (Z.ltb_spec (op + size) en) as [Hlt|]; [|done].
  inversion Ht as [|a o bl' E Hok Ht']; subst; [lia|].
  pose proof (tiled_le _ _ _ _ Ht') as Hle'. pose proof Hok as (_ & Hsz & _).
  unfold sizeof_storage in Hsz.
  unfold load, mbind, M_bind. rewrite E.
  destruct (Z.eqb_spec (alloc_flags (_ah o)) PVM_OBJECT_AH_ALLOCATOR_FLAG_FREE) as [Hfree|];
    [|done].
  destruct (_ <? _); [|done]. simpl. rewrite u32_id by lia.
  destruct (IH (size + exact_size (_ah o)) bl') as (size' & run & rest & Er & -> & H1 & H2 & H3);
    [lia|lia|done|by rewrite Z.add_assoc|simpl in Hf; lia|].
  exists size', (op + size :: run), rest. split_and!; [done|done| |done|].
  - econstructor; [done|done|]. by rewrite <- Z.add_assoc.
  - intros x q Hx Eq. apply elem_of_cons in Hx as [->|Hx]; [congruence|eauto].
Qed.

(** The heap after [op] has grown to [size'] over [run]. *)
Lemma merge_facts op size' st en pre run rest (o o' : pvm_object_storage) s h' :
  0 <= op -> st <= op -> exact_size (_ah o) < size' ->
  block_ok o -> heap s !! op = Some o ->
  alloc_flags (_ah o) = PVM_OBJECT_AH_ALLOCATOR_FLAG_FREE ->
  tiled (heap s) (op + size') (op + exact_size (_ah o)) run ->
  tiled (heap s) en (op + size') rest -> tiled (heap s) op st pre ->
  complete (heap s) st en (pre ++ op :: run ++ rest) ->
  (forall x q, x ∈ run -> heap s !! x = Some q ->
    alloc_flags (_ah q) = PVM_OBJECT_AH_ALLOCATOR_FLAG_FREE) ->
  _ah o' = mkAH PVM_OBJECT_START_MARKER 0 PVM_OBJECT_AH_ALLOCATOR_FLAG_FREE 0 size' ->
  h' !! op = Some o' ->
  (forall x, x <> op -> h' !! x = if decide (op < x < op + size') then None else heap s !! x) ->
  run ++ rest = run ++ rest /\ h' !! op = Some o' /\
  alloc_flags (_ah o') = PVM_OBJECT_AH_ALLOCATOR_FLAG_FREE /\
  tiled h' en op (op :: rest) /\ tiled h' op st pre /\
  complete h' st en (pre ++ op :: rest) /\
  (forall x, x <= op \/ op + exact_size (_ah o') <= x -> x <> op -> h' !! x = heap s !! x) /\
  (forall x, alloc_at h' x = alloc_at (heap s) x) /\
  (forall x q, x ∈ op :: run -> heap s !! x = Some q ->
    exact_size (_ah q) <= exact_size (_ah o')).
Proof.
  intros Hop Hst Hgt Hok E Hfree Hrun Hrest Hpre Hc Hfr Ho' El' Hl.
  pose proof Hok as (Hm & Hsz & Hdiv & _). unfold sizeof_storage in Hsz.
  assert (forall x, x <= op \/ op + size' <= x -> x <> op -> h' !! x = heap s !! x) as Hout.
  { intros x Hx Hne. rewrite Hl, decide_False by (done || lia). done. }
  rewrite Ho'. simpl. split_and!; try done.
  - econstructor; [done| |].
    + unfold block_ok. rewrite Ho'. simpl. split_and!; [done|unfold sizeof_storage; lia| |by left].
      pose proof (tiled_div _ _ _ _ Hrun) as Hd.
      replace size' with (op + size' - (op + exact_size (_ah o)) + exact_size (_ah o)) by lia.
      by apply Z.divide_add_r.
    + rewrite Ho'. simpl. eapply tiled_ext; [|done]. intros x ?. apply Hout; lia.
  - eapply tiled_ext; [|done]. intros x ?. apply Hout; lia.
  - intros x q Ex Hx. destruct (decide (x = op)) as [->|Hne]; [set_solver|].
    rewrite Hl in Ex by done. destruct (decide _) as [|Hnin]; [done|].
    specialize (Hc x q Ex Hx). rewrite !elem_of_app, !elem_of_cons, !elem_of_app in *.
    destruct Hc as [|[|[Hin|]]]; [by left|by right; left| |by right; right].
    destruct (tiled_in _ _ _ _ _ Hrun Hin) as (? & _). lia.
  - intros x. destruct (decide (x = op)) as [->|Hne].
    { rewrite (alloc_at_free _ _ _ E Hfree). apply (alloc_at_free _ _ _ El'). by rewrite Ho'. }
    unfold alloc_at at 1. rewrite Hl by done. destruct (decide _) as [Hin|]; [|done].
    destruct (heap s !! x) as [q|] eqn:Eq; [|by unfold alloc_at; rewrite Eq].
    symmetry. eapply alloc_at_free; [done|]. apply (Hfr x); [|done].
    pose proof (tiled_le _ _ _ _ Hrest).
    assert (x ∈ pre ++ op :: run ++ rest) as Hx by (eapply Hc; [done|lia]).
    rewrite !elem_of_app, !elem_of_cons, !elem_of_app in Hx.
    destruct Hx as [Hx|[|[Hx|Hx]]]; [|done|done|].
    + destruct (tiled_in _ _ _ _ _ Hpre Hx) as (? & _). lia.
    + destruct (tiled_in _ _ _ _ _ Hrest Hx) as (? & _). lia.
  - intros x q Hx Eq. apply elem_of_cons in Hx as [->|Hx]; [simplify_eq; lia|].
    destruct (tiled_in _ _ _ _ _ Hrun Hx) as (? & q' & ? & _ & ?). simplify_eq. lia.
Qed.

(** Merging: [op] grows over a run of free blocks; nothing else changes. *)
Lemma collapse_spec op need st en pre post s o :
  0 <= op -> en < space_limit -> st <= op ->
  tiled (heap s) en op (op :: post) -> complete (heap s) st en (pre ++ op :: post) ->
  tiled (heap s) op st pre ->
  heap s !! op = Some o -> alloc_flags (_ah o) = PVM_OBJECT_AH_ALLOCATOR_FLAG_FREE ->
  wp (alloc_collapse_with_next_free op need en) s (fun _ s' =>
    alloc_env s' = alloc_env s /\ curr_a s' = curr_a s /\
    exists run rest o', post = run ++ rest /\ heap s' !! op = Some o' /\
      alloc_flags (_ah o') = PVM_OBJECT_AH_ALLOCATOR_FLAG_FREE /\
      tiled (heap s') en op (op :: rest) /\ tiled (heap s') op st pre /\
      complete (heap s') st en (pre ++ op :: rest) /\
      (forall x, x <= op \/ op + exact_size (_ah o') <= x -> x <> op ->
        heap s' !! x = heap s !! x) /\
      (forall x, alloc_at (heap s') x = alloc_at (heap s) x) /\
      (forall x q, x ∈ op :: run -> heap s !! x = Some q ->
        exact_size (_ah q) <= exact_size (_ah o'))).
Proof.
  intros Hop He Hst Ht Hc Hpre E Hfree.
  inversion Ht as [|? o1 ? E1 Hok Ht']; subst. rewrite E in E1. injection E1 as <-.
  pose proof Hok as (Hm & Hsz & Hdiv & _). unfold sizeof_storage in Hsz.
  destruct (collapse_loop_spec (S (size (heap s))) op (exact_size (_ah o)) need en post s)
    as (size' & run & rest & El & -> & Hrun & Hrest & Hfr); [lia|lia|done|done| |].
  { pose proof (tiled_length _ _ _ _ Ht'). lia. }
  unfold alloc_collapse_with_next_free. wp_step. eapply wp_load; [done|].
  wp_step. wp_step; [by apply Z.eqb_eq|]. wp_step. wp_step; [by apply Z.eqb_eq|].
  wp_step. wp_step. wp_step. exists size', s. split; [done|].
  pose proof (tiled_le _ _ _ _ Hrun) as Hle. pose proof (tiled_le _ _ _ _ Hrest) as Hle2.
  destruct (Z.ltb_spec (exact_size (_ah o)) size') as [Hgt|].
  - wp_step. wp_step. unfold swallow. apply wp_init_free; [unfold sizeof_storage; lia|].
    set (o' := set_ah _ _). simpl.
    set (h' := <[op := o']> _).
    assert (forall x, x <> op -> h' !! x = if decide (op < x < op + size') then None else heap s !! x)
      as Hl.
    { intros x Hx. unfold h'. rewrite lookup_insert_ne by done. rewrite map_lookup_filter.
      destruct (heap s !! x) as [q|]; simpl; [|by destruct (decide _)].
      destruct (decide (op < x < op + size')); [by rewrite option_guard_False by naive_solver|].
      by rewrite option_guard_True by naive_solver. }
    assert (h' !! op = Some o') as El' by apply lookup_insert_eq.
    split_and!; [done|done|]. exists run, rest, o'.
    apply merge_facts with (s := s) (size' := size') (o := o); done.
  - assert (size' = exact_size (_ah o)) as -> by lia.
    assert (run = []) as ->.
    { destruct run as [|x run]; [done|]. apply tiled_cons_lt in Hrun. lia. }
    wp_step. split_and!; [done|done|]. exists [], rest, o. split_and!; try done.
    intros x q Hx Eq. apply list_elem_of_singleton in Hx as ->. simplify_eq. lia.
Qed.
End Search.

Section Find.
Implicit Types (s : vm) (h : gmap Z pvm_object_storage).

(** The next block of the arena, or the first one after the last. *)
Lemma wrap_next_spec st en wrap curr pre post s :
  0 <= curr -> en < space_limit ->
  tiled (heap s) curr st pre -> tiled (heap s) en curr (curr :: post) ->
  exists next w', alloc_wrap_to_next_object curr st en wrap s = Ret (next, w') s /\
    ((post = [] /\ next = st /\ w' = wrap + 1) \/
     (post <> [] /\ w' = wrap /\ tiled (heap s) next st (pre ++ [curr]) /\
      tiled (heap s) en next post /\ 0 <= next)).
Proof.
  unfold space_limit. intros Hc He Hpre Ht. inversion Ht as [|? o ? E Hok Ht']; subst.
  pose proof Hok as (Hm & Hsz & _). pose proof (tiled_le _ _ _ _ Ht').
  unfold sizeof_storage in Hsz.
  unfold alloc_wrap_to_next_object, load, mbind, M_bind, assert_. rewrite E, Hm, Z.eqb_refl.
  simpl. rewrite u32_id by lia.
  destruct (Z.leb_spec en (curr + exact_size (_ah o))) as [Hge|Hlt].
  - destruct (Z.leb_spec (curr + exact_size (_ah o)) en); [|lia].
    exists st, (wrap + 1). split; [done|]. left. split_and!; try done.
    destruct post as [|x post]; [done|]. apply tiled_cons_lt in Ht'. lia.
  - exists (curr + exact_size (_ah o)), wrap. split; [done|]. right. split_and!; try done; [| |lia].
    + intros ->. inversion Ht'. lia.
    + eapply tiled_app; [done|]. econstructor; [done|done|constructor].
Qed.

(** What a successful search returns: [res] was not allocated, is now, and no
    other allocated object has changed. *)
Record found (st en size res : Z) (s s' : vm) : Prop := {
  fd_env : alloc_env s' = alloc_env s;
  fd_curr : curr_a s' = curr_a s;
  fd_tiled : exists pre post, tiled (heap s') res st pre /\
    tiled (heap s') en res (res :: post) /\ complete (heap s') st en (pre ++ res :: post);
  fd_outside x : ~ (st <= x < en) -> heap s' !! x = heap s !! x;
  fd_old : alloc_at (heap s) res = None;
  fd_new : exists o sz, heap s' !! res = Some o /\ size <= sz < size + PVM_MIN_FRAGMENT_SIZE /\
    _ah o = mkAH PVM_OBJECT_START_MARKER 1 PVM_OBJECT_AH_ALLOCATOR_FLAG_ALLOCATED 0 sz;
  fd_frame x : x <> res -> alloc_at (heap s') x = alloc_at (heap s) x;
}.

(** The heap after [curr] has been split at [curr + size]. *)
Lemma split_facts st en size curr pre post (o o' f : pvm_object_storage) s :
  0 <= st -> sizeof_storage <= size -> (4 | size) ->
  tiled (heap s) curr st pre -> tiled (heap s) en (curr + exact_size (_ah o)) post ->
  complete (heap s) st en (pre ++ curr :: post) ->
  heap s !! curr = Some o -> block_ok o -> alloc_at (heap s) curr = None ->
  size + PVM_MIN_FRAGMENT_SIZE <= exact_size (_ah o) ->
  _ah o' = mkAH PVM_OBJECT_START_MARKER 1 PVM_OBJECT_AH_ALLOCATOR_FLAG_ALLOCATED 0 size ->
  _ah f = mkAH PVM_OBJECT_START_MARKER 0 PVM_OBJECT_AH_ALLOCATOR_FLAG_FREE 0
    (exact_size (_ah o) - size) ->
  found st en size curr s (set_heap (<[curr + size := f]> (<[curr := o']> (heap s))) s).
Proof.
  unfold PVM_MIN_FRAGMENT_SIZE, sizeof_storage.
  intros Hst Hsz Hd Hpre Ht' Hc E Hok Hold Hbig Ho' Hf.
  pose proof Hok as (_ & _ & Hdiv & _).
  pose proof (tiled_le _ _ _ _ Ht') as Hle. pose proof (tiled_le _ _ _ _ Hpre) as Hle2.
  (* the split point was not a block *)
  assert (heap s !! (curr + size) = None) as Hnone.
  { destruct (heap s !! (curr + size)) as [q|] eqn:Eq; [|done]. exfalso.
    assert (curr + size ∈ pre ++ curr :: post) as Hin by (eapply Hc; [done|lia]).
    rewrite elem_of_app, elem_of_cons in Hin. destruct Hin as [Hin|[|Hin]]; [|lia|].
    - destruct (tiled_in _ _ _ _ _ Hpre Hin). lia.
    - destruct (tiled_in _ _ _ _ _ Ht' Hin). lia. }
  assert (forall x, x <> curr -> x <> curr + size ->
    <[curr + size := f]> (<[curr := o']> (heap s)) !! x = heap s !! x) as Hl.
  { intros x ? ?. by rewrite !lookup_insert_ne by done. }
  split; simpl; try done.
  - exists pre, (curr + size :: post). split_and!.
    + eapply tiled_ext; [|done]. intros x ?. apply Hl; lia.
    + econstructor; [rewrite lookup_insert_ne by lia; apply lookup_insert_eq| |].
      * unfold block_ok. rewrite Ho'. simpl. split_and!; try done.
        right. unfold is_alloc. by rewrite Ho'.
      * rewrite Ho'. simpl. econstructor; [apply lookup_insert_eq| |].
        -- unfold block_ok. rewrite Hf. simpl. split_and!; [done|unfold sizeof_storage; lia| |by left].
           by apply Z.divide_sub_r.
        -- rewrite Hf. simpl. replace (curr + size + _) with (curr + exact_size (_ah o)) by lia.
           eapply tiled_ext; [|done]. intros x ?. apply Hl; lia.
    + intros x q Ex Hx. destruct (decide (x = curr)) as [->|]; [set_solver|].
      destruct (decide (x = curr + size)) as [->|]; [set_solver|].
      rewrite Hl in Ex by done. specialize (Hc x q Ex Hx). set_solver.
  - intros x Hx. apply Hl; lia.
  - exists o', size. rewrite lookup_insert_ne, lookup_insert_eq by lia.
    unfold PVM_MIN_FRAGMENT_SIZE, sizeof_storage. split_and!; [done|lia|lia|done].
  - intros x Hx. unfold alloc_at. destruct (decide (x = curr + size)) as [->|].
    + rewrite lookup_insert_eq, Hnone. rewrite free_not_alloc; [done|]. by rewrite Hf.
    + by rewrite Hl.
Qed.

(** Splitting a free block that is large enough. *)
Lemma eat_some_spec st en size curr pre post o s :
  0 <= st -> en < space_limit -> sizeof_storage <= size -> (4 | size) ->
  tiled (heap s) curr st pre -> tiled (heap s) en curr (curr :: post) ->
  complete (heap s) st en (pre ++ curr :: post) ->
  heap s !! curr = Some o -> alloc_flags (_ah o) = PVM_OBJECT_AH_ALLOCATOR_FLAG_FREE ->
  size <= exact_size (_ah o) ->
  wp (alloc_eat_some curr size) s (fun res s' => res = curr /\ found st en size curr s s').
Proof.
  unfold space_limit. intros Hst He Hsz Hd Hpre Ht Hc E Hfree Hge.
  inversion Ht as [|? q ? Eq Hok Ht']; subst. rewrite E in Eq. injection Eq as <-.
  pose proof Hok as (Hm & Hs & Hdiv & _). unfold sizeof_storage in *.
  pose proof (tiled_le _ _ _ _ Ht') as Hle. pose proof (tiled_le _ _ _ _ Hpre).
  pose proof (alloc_at_free _ _ _ E Hfree) as Hold.
  unfold alloc_eat_some. wp_step. eapply wp_load; [done|].
  wp_step. wp_step; [by apply Z.eqb_eq|]. wp_step. wp_step; [by apply Z.eqb_eq|].
  wp_step. wp_step; [by apply Z.leb_le|]. rewrite u32_id by lia.
  unfold PVM_MIN_FRAGMENT_SIZE, sizeof_storage.
  destruct (Z.ltb_spec (exact_size (_ah o) - size) (40 + 4)) as [Hsmall|Hbig].
  - wp_step. apply wp_init_obj; [unfold sizeof_storage; lia|]. rewrite E. simpl.
    set (o' := set_ah _ o). wp_step. split; [done|]. split; simpl; try done.
    + exists pre, post. split_and!.
      * eapply tiled_ext; [|done]. intros x ?. by rewrite lookup_insert_ne by lia.
      * econstructor; [apply lookup_insert_eq| |].
        -- split_and!; [done|unfold sizeof_storage; simpl; lia|done|by right].
        -- eapply tiled_ext; [|done]. intros x ?. simpl in *. by rewrite lookup_insert_ne by lia.
      * intros x q Ex Hx. destruct (decide (x = curr)) as [->|]; [set_solver|].
        rewrite lookup_insert_ne in Ex by done. eauto.
    + intros x Hx. rewrite lookup_insert_ne; [done|]. intros <-. apply tiled_cons_lt in Ht. lia.
    + exists o', (exact_size (_ah o)). rewrite lookup_insert_eq. split_and!; try done.
      unfold PVM_MIN_FRAGMENT_SIZE, sizeof_storage. lia.
    + intros x Hx. unfold alloc_at. by rewrite lookup_insert_ne.
  - wp_step. apply wp_init_obj; [unfold sizeof_storage; lia|]. rewrite E. simpl.
    set (o' := set_ah _ o). rewrite u32_id by lia. wp_step.
    apply wp_init_free; [unfold sizeof_storage; lia|]. simpl.
    set (f := set_ah _ (default _ _)). wp_step. split; [done|]. rewrite set_heap_twice.
    eapply (split_facts st en size curr pre post o o' f); try done.
    unfold PVM_MIN_FRAGMENT_SIZE, sizeof_storage. lia.
Qed.
End Find.

(** The visits left: at most twice round the arena. *)
Definition visits_left (wrap : Z) (pre post : list Z) : nat :=
  if wrap =? 0 then (length pre + 2 * length post + 1)%nat
  else if wrap =? 1 then (length post + 1)%nat else 1%nat.

Section FindLoop.
Context (st en size : Z).
Context (Hst : 0 <= st) (Hen : en < space_limit).
Context (Hsize : sizeof_storage <= size) (Hdiv : (4 | size)).
Implicit Types (s : vm) (h : gmap Z pvm_object_storage).

(** Null is returned only when no free block to visit is large enough. *)
Definition find_post (wrap : Z) (pre post : list Z) (s : vm) (r : option (Z * Z)) (s' : vm) : Prop :=
  match r with
  | Some (res, _) => found st en size res s s'
  | None => (wrap = 0 -> ~ has_room (heap s) size (pre ++ post)) /\
            (wrap = 1 -> ~ has_room (heap s) size post)
  end.

Definition find_ok (fuel : nat) : Prop :=
  forall wrap curr pre post s, 0 <= curr -> tiled (heap s) curr st pre ->
    tiled (heap s) en curr post -> post <> [] -> complete (heap s) st en (pre ++ post) ->
    0 <= wrap <= 2 -> (visits_left wrap pre post <= fuel)%nat ->
    wp (pvm_find_loop fuel size st en wrap curr) s (find_post wrap pre post s).

(** Going on from a block that does not fit. *)
Lemma find_skip fuel wrap curr pre post s :
  find_ok fuel -> 0 <= curr -> tiled (heap s) curr st pre ->
  tiled (heap s) en curr (curr :: post) -> complete (heap s) st en (pre ++ curr :: post) ->
  0 <= wrap <= 1 -> (visits_left wrap pre (curr :: post) <= S fuel)%nat ->
  ~ has_room (heap s) size [curr] ->
  wp ('(next, wrap') ← alloc_wrap_to_next_object curr st en wrap;
      pvm_find_loop fuel size st en wrap' next) s (find_post wrap pre (curr :: post) s).
Proof.
  intros IH Hc Hpre Ht Hcm Hw Hf Hno. wp_step.
  destruct (wrap_next_spec st en wrap curr pre post s Hc Hen Hpre Ht) as (next & w' & E & Hcase).
  exists (next, w'), s. split; [done|].
  assert (tiled (heap s) en st (pre ++ curr :: post)) as Hall by by eapply tiled_app.
  unfold visits_left in Hf.
  destruct Hcase as [(-> & -> & ->)|(Hne & -> & Hpre' & Ht' & Hn)].
  - eapply wp_mono; [apply (IH (wrap + 1) st [] (pre ++ [curr]))|]; try done; try lia.
    + constructor.
    + by destruct pre.
    + unfold visits_left. rewrite length_app. simpl in *.
      destruct (Z.eqb_spec wrap 0), (Z.eqb_spec (wrap + 1) 0), (Z.eqb_spec wrap 1),
        (Z.eqb_spec (wrap + 1) 1); lia.
    + intros [[res w]|] s' Hpost; [done|]. destruct Hpost as [_ H1]. split.
      * intros ->. by apply H1.
      * done.
  - eapply wp_mono; [apply (IH wrap next (pre ++ [curr]) post)|]; try done; try lia.
    + by rewrite <- app_assoc.
    + unfold visits_left. rewrite length_app. simpl in *.
      destruct (Z.eqb_spec wrap 0), (Z.eqb_spec wrap 1); lia.
    + intros [[res w]|] s' Hpost; [done|]. destruct Hpost as [H0 H1]. split.
      * intros Hz. specialize (H0 Hz). by rewrite <- app_assoc in H0.
      * intros Ho. specialize (H1 Ho). change (curr :: post) with ([curr] ++ post).
        rewrite has_room_app. naive_solver.
Qed.

Lemma found_trans s s1 s' res :
  alloc_env s1 = alloc_env s -> curr_a s1 = curr_a s ->
  (forall x, ~ (st <= x < en) -> heap s1 !! x = heap s !! x) ->
  (forall x, alloc_at (heap s1) x = alloc_at (heap s) x) ->
  found st en size res s1 s' -> found st en size res s s'.
Proof.
  intros He Hc Ho Ha [F1 F2 F3 F4 F5 F6 F7]. split; [congruence|congruence|done| | |done|].
  - intros x Hx. rewrite F4 by done. auto.
  - by rewrite <- Ha.
  - intros x Hx. rewrite F7 by done. auto.
Qed.

(** A merge keeps room: it is where it was or inside the merged block. *)
Lemma has_room_merge s s1 curr run rest pre o' :
  heap s1 !! curr = Some o' -> alloc_flags (_ah o') = PVM_OBJECT_AH_ALLOCATOR_FLAG_FREE ->
  (forall x, x <= curr \/ curr + exact_size (_ah o') <= x -> x <> curr ->
    heap s1 !! x = heap s !! x) ->
  (forall x q, x ∈ curr :: run -> heap s !! x = Some q ->
    exact_size (_ah q) <= exact_size (_ah o')) ->
  (forall x, x ∈ pre -> x < curr) -> tiled (heap s1) en curr (curr :: rest) ->
  has_room (heap s) size (pre ++ curr :: run ++ rest) ->
  has_room (heap s1) size (pre ++ curr :: rest).
Proof.
  intros E1 Hf1 Hout Hbig Hpre Ht (x & o & Hx & E & Hf & Hs).
  inversion Ht as [|? q ? Eq Hok Ht']; subst. simplify_eq.
  assert (x ∈ pre \/ x ∈ curr :: run \/ x ∈ rest) as [Hin|[Hin|Hin]].
  { rewrite elem_of_app, elem_of_cons, elem_of_app in Hx. rewrite elem_of_cons. naive_solver. }
  - exists x, o. specialize (Hpre x Hin). rewrite elem_of_app, Hout by lia. auto.
  - exists curr, o'. rewrite elem_of_app, elem_of_cons. split_and!; [auto|done|done|].
    specialize (Hbig x o Hin E). lia.
  - exists x, o. destruct (tiled_in _ _ _ _ _ Ht' Hin) as (? & _).
    destruct Hok as (_ & ? & _). unfold sizeof_storage in *.
    rewrite elem_of_app, elem_of_cons, Hout by lia. auto.
Qed.

(** With the block at [curr] free: take it, or go on. *)
Lemma find_continue fuel wrap curr pre rest o s :
  find_ok fuel -> 0 <= curr -> tiled (heap s) curr st pre ->
  tiled (heap s) en curr (curr :: rest) -> complete (heap s) st en (pre ++ curr :: rest) ->
  0 <= wrap <= 1 -> (visits_left wrap pre (curr :: rest) <= S fuel)%nat ->
  heap s !! curr = Some o -> alloc_flags (_ah o) = PVM_OBJECT_AH_ALLOCATOR_FLAG_FREE ->
  wp (if exact_size (_ah o) <? size then
        '(next, wrap') ← alloc_wrap_to_next_object curr st en wrap;
        pvm_find_loop fuel size st en wrap' next
      else
        result ← alloc_eat_some curr size;
        mret (Some (result, wrap))) s (find_post wrap pre (curr :: rest) s).
Proof.
  intros IH Hc Hpre Ht Hcm Hw Hf E Hfree.
  destruct (Z.ltb_spec (exact_size (_ah o)) size) as [Hsm|Hbig].
  - apply find_skip; try done. intros (x & q & Hx & Eq & Hq & ?).
    apply list_elem_of_singleton in Hx as ->. simplify_eq. lia.
  - wp_step. eapply wp_mono; [by eapply (eat_some_spec st en size curr pre rest o s)|].
    intros res s' [-> Hfd]. by wp_step.
Qed.

Lemma find_post_merge wrap curr pre run rest o' s s1 :
  heap s1 !! curr = Some o' -> alloc_flags (_ah o') = PVM_OBJECT_AH_ALLOCATOR_FLAG_FREE ->
  (forall x, x <= curr \/ curr + exact_size (_ah o') <= x -> x <> curr ->
    heap s1 !! x = heap s !! x) ->
  (forall x, ~ (st <= x < en) -> heap s1 !! x = heap s !! x) ->
  (forall x q, x ∈ curr :: run -> heap s !! x = Some q ->
    exact_size (_ah q) <= exact_size (_ah o')) ->
  (forall x, alloc_at (heap s1) x = alloc_at (heap s) x) ->
  alloc_env s1 = alloc_env s -> curr_a s1 = curr_a s ->
  tiled (heap s1) curr st pre -> tiled (heap s1) en curr (curr :: rest) ->
  forall r s', find_post wrap pre (curr :: rest) s1 r s' ->
    find_post wrap pre (curr :: run ++ rest) s r s'.
Proof.
  intros E1 Hf1 Hout Hout2 Hbig Hal He Hca Hpre Ht [[res w]|] s'; simpl.
  - by apply found_trans.
  - intros [H0 H1]. split; intros Hw Hr.
    + apply (H0 Hw). eapply has_room_merge; try done.
      intros x Hx. by destruct (tiled_in _ _ _ _ _ Hpre Hx) as ([_ ?] & _).
    + apply (H1 Hw). eapply (has_room_merge s s1 curr run rest []); try done.
      intros x Hx. by apply not_elem_of_nil in Hx.
Qed.

Lemma pvm_find_loop_ok fuel : find_ok fuel.
Proof.
  induction fuel as [|fuel IH]; intros wrap curr pre post s Hc Hpre Ht Hne Hcm Hw Hf.
  { unfold visits_left in Hf. destruct (wrap =? 0), (wrap =? 1); lia. }
  simpl. destruct (Z.ltb_spec 1 wrap).
  { wp_step. split; lia. }
  inversion Ht as [|? o bl' E Hok Ht']; [by subst|]. subst post. rename bl' into post'. subst.
  wp_step. eapply wp_load; [done|].
  destruct (decide (alloc_flags (_ah o) = PVM_OBJECT_AH_ALLOCATOR_FLAG_FREE)) as [Hfree|Hnf].
  2:{ apply block_ok_cases in Hnf; [|done]. unfold is_alloc in Hnf. rewrite Hnf.
      apply find_skip; try done; [lia|]. intros (x & q & Hx & Eq & Hq & _).
      apply list_elem_of_singleton in Hx as ->. simplify_eq.
      apply free_not_alloc in Hq. unfold is_alloc in Hq. congruence. }
  assert (flag (alloc_flags (_ah o)) PVM_OBJECT_AH_ALLOCATOR_FLAG_ALLOCATED = false) as ->
    by by apply free_not_alloc.
  rewrite Hfree. simpl. wp_step. wp_step. wp_step. eapply wp_load; [done|].
  wp_step. wp_step; [by apply Z.eqb_eq|]. wp_step.
  pose proof (tiled_le _ _ _ _ Hpre) as Hle.
  destruct (Z.ltb_spec (exact_size (_ah o)) size) as [Hsm|Hbig].
  - eapply wp_mono; [by eapply (collapse_spec curr size st en pre post' s o)|].
    intros [] s1 (He1 & Hc1 & run & rest & o' & -> & E1 & Hf1 & Ht1 & Hp1 & Hcm1 & Hout & Hal & Hb).
    wp_step. eapply wp_load; [done|]. eapply wp_mono.
    + apply find_continue with (pre := pre) (rest := rest) (o := o'); try done; [lia|].
      unfold visits_left in *. simpl in *. rewrite length_app in Hf.
      destruct (wrap =? 0), (wrap =? 1); lia.
    + apply (find_post_merge wrap curr pre run rest o'); try done.
      intros x Hx. pose proof (tiled_cons_lt _ _ _ _ _ Ht).
      inversion Ht1 as [|? q ? Eq _ Ht2]; subst. simplify_eq. apply tiled_le in Ht2.
      apply Hout; lia.
  - wp_step. wp_step. eapply wp_load; [done|].
    eapply find_continue; try done. lia.
Qed.
End FindLoop.

(** The size fields of an allocated object. *)
Definition alloc_ok (o : pvm_object_storage) : Prop :=
  0 < refCount (_ah o) <= INT_MAX /\ 0 <= _da_size o < 2 ^ 31 /\
  sizeof_storage + _da_size o <= exact_size (_ah o) <
    sizeof_storage + _da_size o + PVM_MIN_FRAGMENT_SIZE.

(** [st, en) is arena [i]. *)
Definition is_arena (s : vm) (i : nat) (st en : Z) : Prop :=
  start_a s !! i = Some st /\ end_a s !! i = Some en.

(** The arenas are disjoint, each is tiled with blocks and its search position is
    the start of one of them; there are no other objects. *)
Record layout_wf (s : vm) : Prop := {
  lw_len : length (start_a s) = ARENAS /\ length (end_a s) = ARENAS /\ length (curr_a s) = ARENAS;
  lw_space : 0 < pvm_object_space_start s /\ pvm_object_space_end s < space_limit;
  lw_arena i st en : is_arena s i st en ->
    pvm_object_space_start s <= st /\ en <= pvm_object_space_end s /\
    exists bl, tiled (heap s) en st bl /\ complete (heap s) st en bl /\
      exists c, curr_a s !! i = Some c /\ c ∈ bl;
  lw_disjoint i j st en st' en' : is_arena s i st en -> is_arena s j st' en' ->
    (i < j)%nat -> en <= st';
  lw_cover : start_a s !! 0%nat = Some (pvm_object_space_start s) /\
    tail (start_a s) = take 4 (end_a s) /\ end_a s !! 4%nat = Some (pvm_object_space_end s);
  lw_all x o : heap s !! x = Some o -> exists i st en, is_arena s i st en /\ st <= x < en;
}.

Definition heap_wf (s : vm) : Prop :=
  layout_wf s /\ forall x o, alloc_at (heap s) x = Some o -> alloc_ok o.

Section Layout.
Implicit Types (s : vm) (h : gmap Z pvm_object_storage).

Lemma is_arena_lt s i st en : is_arena s i st en -> (i < length (start_a s))%nat.
Proof. intros [H _]. by apply lookup_lt_Some in H. Qed.

Lemma arena_exists s i : layout_wf s -> (i < ARENAS)%nat ->
  exists st en c, is_arena s i st en /\ curr_a s !! i = Some c.
Proof.
  intros Hl Hi. destruct (lw_len _ Hl) as (H1 & H2 & H3). unfold is_arena.
  destruct (lookup_lt_is_Some_2 (start_a s) i) as [st ->]; [lia|].
  destruct (lookup_lt_is_Some_2 (end_a s) i) as [en ->]; [lia|].
  destruct (lookup_lt_is_Some_2 (curr_a s) i) as [c ->]; [lia|]. eauto 10.
Qed.

Lemma arena_disjoint s i j st en st' en' x :
  layout_wf s -> is_arena s i st en -> is_arena s j st' en' -> i <> j ->
  st <= x < en -> ~ (st' <= x < en').
Proof.
  intros Hl Hi Hj Hne Hx Hx'. destruct (decide (i < j)%nat).
  - pose proof (lw_disjoint _ Hl _ _ _ _ _ _ Hi Hj l). lia.
  - assert (j < i)%nat as Hji by lia.
    pose proof (lw_disjoint _ Hl _ _ _ _ _ _ Hj Hi Hji). lia.
Qed.

Lemma tiled_upd h e a bl p o o' :
  h !! p = Some o -> block_ok o' -> exact_size (_ah o') = exact_size (_ah o) ->
  tiled h e a bl -> tiled (<[p := o']> h) e a bl.
Proof.
  intros E Hok Hs. induction 1 as [|a q bl Eq Hq Ht IH]; [constructor|].
  destruct (decide (a = p)) as [->|].
  - simplify_eq. econstructor; [apply lookup_insert_eq|done|]. by rewrite Hs.
  - econstructor; [by rewrite lookup_insert_ne|done|done].
Qed.

Lemma complete_upd h st en bl p o o' :
  h !! p = Some o -> complete h st en bl -> complete (<[p := o']> h) st en bl.
Proof.
  intros E Hc x q Ex. destruct (decide (x = p)) as [->|]; [eauto|].
  rewrite lookup_insert_ne in Ex by done. eauto.
Qed.

(** Updates that keep a block's size keep the layout. *)
Lemma layout_wf_upd s p o o' :
  layout_wf s -> heap s !! p = Some o -> block_ok o' ->
  exact_size (_ah o') = exact_size (_ah o) ->
  layout_wf (set_heap (<[p := o']> (heap s)) s).
Proof.
  intros [L1 L2 L3 L4 L6 L5] E Hok Hs. split; simpl; try done.
  - intros i st en Hi. destruct (L3 i st en Hi) as (? & ? & bl & ? & ? & ?).
    split_and!; try done. exists bl. split_and!; [by eapply tiled_upd|by eapply complete_upd|done].
  - intros x q Ex. destruct (decide (x = p)) as [->|]; [eauto|].
    rewrite lookup_insert_ne in Ex by done. eauto.
Qed.

(** Updates of the data area keep the heap well formed. *)
Lemma heap_wf_upd s p o o' :
  heap_wf s -> heap s !! p = Some o -> _ah o' = _ah o -> _da_size o' = _da_size o ->
  heap_wf (set_heap (<[p := o']> (heap s)) s).
Proof.
  intros [Hl Hal] E Ha Hd.
  assert (block_ok o') as Hok.
  { destruct (lw_all _ Hl p o E) as (i & st & en & Hi & Hx).
    destruct (lw_arena _ Hl i st en Hi) as (_ & _ & bl & Ht & Hc & _).
    destruct (tiled_in _ _ _ _ _ Ht (Hc p o E Hx)) as (_ & q & Eq & Hok & _). simplify_eq.
    unfold block_ok, is_alloc in *. by rewrite Ha. }
  split; [eapply layout_wf_upd; try done; by rewrite Ha|].
  intros x q [Ex Hq]%alloc_at_Some. simpl in Ex. destruct (decide (x = p)) as [->|].
  - rewrite lookup_insert_eq in Ex. injection Ex as <-.
    unfold alloc_ok. rewrite Ha, Hd. apply (Hal p). apply alloc_at_Some. split; [done|].
    unfold is_alloc in *. by rewrite <- Ha.
  - rewrite lookup_insert_ne in Ex by done. apply (Hal x). by apply alloc_at_Some.
Qed.

(** A search that found [p] in arena [i], with the position moved past it. *)
Lemma layout_wf_found s s' i st en size p next :
  layout_wf s -> is_arena s i st en -> found st en size p s s' ->
  (exists pre post, tiled (heap s') p st pre /\ tiled (heap s') en p (p :: post) /\
    next ∈ pre ++ p :: post /\ complete (heap s') st en (pre ++ p :: post)) ->
  layout_wf (set_curr_a (<[i := next]> (curr_a s)) s').
Proof.
  intros Hl Hi Hf (pre & post & T1 & T2 & Hn & Hc).
  destruct Hl as [L1 L2 L3 L4 L6 L5] eqn:El. clear El.
  pose proof (fd_env _ _ _ _ _ _ Hf) as He. unfold alloc_env in He. injection He as E1 E2 E3 E4 _ _ _ _ _ _.
  assert (forall j a b, is_arena (set_curr_a (<[i := next]> (curr_a s)) s') j a b <-> is_arena s j a b)
    as Har by (intros; unfold is_arena; simpl; by rewrite E3, E4).
  assert (pvm_object_space_start s <= st /\ en <= pvm_object_space_end s) as [Hs1 Hs2]
    by (destruct (L3 i st en Hi); naive_solver).
  split; simpl; rewrite ?E1, ?E2, ?E3, ?E4; try done.
  - by rewrite length_insert.
  - intros j st' en' Hj%Har. destruct (decide (j = i)) as [->|Hne].
    + destruct Hi, Hj. simplify_eq. split_and!; [done|done|]. exists (pre ++ p :: post).
      split_and!; [by eapply tiled_app|done|]. exists next. split; [|done].
      apply list_lookup_insert_eq. destruct L1 as (_ & _ & ->).
      rewrite <- (proj1 (lw_len s Hl)). by eapply lookup_lt_Some.
    + destruct (L3 j st' en' Hj) as (? & ? & bl & Ht & Hcm & c & Ec & Hin).
      split_and!; [done|done|]. exists bl.
      assert (forall x, st' <= x < en' -> heap s' !! x = heap s !! x) as Heq.
      { intros x Hx. apply (fd_outside _ _ _ _ _ _ Hf).
        eapply (arena_disjoint s j i); eauto. }
      split_and!.
      * by eapply tiled_ext.
      * intros x o Ex Hx. rewrite Heq in Ex by done. eauto.
      * exists c. by rewrite list_lookup_insert_ne by done.
  - intros j k a b a' b' Hj%Har Hk%Har. eauto.
  - intros x o Ex. destruct (decide (st <= x < en)) as [Hx|Hx].
    + exists i, st, en. split; [by apply Har|done].
    + rewrite (fd_outside _ _ _ _ _ _ Hf) in Ex by done.
      destruct (L5 x o Ex) as (j & a & b & ? & ?). exists j, a, b. split; [by apply Har|done].
Qed.
End Layout.

(** What the rest of the machine may rely on about the object at [p]. *)
Record new_object (das flags : Z) (sat : bool) (o : pvm_object_storage) : Prop := {
  no_alloc : is_alloc o;
  no_refs : refCount (_ah o) = if sat then INT_MAX else 1;
  no_gc : gc_flags (_ah o) = 0;
  no_size : _da_size o = das;
  no_flags : _flags o = flags;
  no_da : da o = DA_zero;
}.

Section AllocSpec.
Implicit Types (s : vm) (h : gmap Z pvm_object_storage).

Lemma pvm_find_spec size i st en s :
  layout_wf s -> is_arena s i st en -> sizeof_storage <= size -> (4 | size) ->
  wp (pvm_find size (Z.of_nat i)) s (fun r s' =>
    match r with
    | None => forall x o, heap s !! x = Some o -> st <= x < en ->
        alloc_flags (_ah o) = PVM_OBJECT_AH_ALLOCATOR_FLAG_FREE -> exact_size (_ah o) < size
    | Some p => layout_wf s' /\ st <= p < en /\ alloc_env s' = alloc_env s /\
        alloc_at (heap s) p = None /\
        (exists o sz, heap s' !! p = Some o /\ size <= sz < size + PVM_MIN_FRAGMENT_SIZE /\
          _ah o = mkAH PVM_OBJECT_START_MARKER 1 PVM_OBJECT_AH_ALLOCATOR_FLAG_ALLOCATED 0 sz) /\
        (forall x, x <> p -> alloc_at (heap s') x = alloc_at (heap s) x)
    end).
Proof.
  intros Hl Hi Hsz Hd. destruct (lw_arena _ Hl i st en Hi) as (H1 & H2 & bl & Ht & Hc & c & Ec & Hin).
  destruct (lw_space _ Hl) as [H3 H4]. destruct Hi as [Hi1 Hi2].
  unfold pvm_find. wp_step. wp_step. wp_step. wp_step; [by rewrite lookupZ_nat|].
  wp_step. wp_step; [by rewrite lookupZ_nat|]. wp_step. wp_step; [by rewrite lookupZ_nat|].
  wp_step. destruct (tiled_split _ _ _ _ _ Ht Hin) as (pre & post & -> & T1 & T2).
  pose proof (tiled_le _ _ _ _ T1). pose proof (tiled_length _ _ _ _ Ht) as Hlen.
  eapply wp_mono; [apply (pvm_find_loop_ok st en size) with (pre := pre) (post := c :: post)|];
    try done; try lia.
  { unfold visits_left. simpl. rewrite length_app in Hlen. simpl in Hlen. lia. }
  intros [[res w]|] s1; simpl.
  - intros Hf. destruct (fd_tiled _ _ _ _ _ _ Hf) as (pre' & post' & T1' & T2' & Hc').
    pose proof (tiled_le _ _ _ _ T1'). pose proof (tiled_cons_lt _ _ _ _ _ T2').
    wp_step. destruct (wrap_next_spec st en w res pre' post' s1) as (next & w' & En & Hcase);
      [lia|lia|done|done|]. exists (next, w'), s1. split; [done|].
    wp_step. wp_step. wp_step. rewrite (fd_curr _ _ _ _ _ _ Hf).
    wp_step; [by apply insertZ_nat; eapply lookup_lt_Some|].
    wp_step. wp_step. wp_step. split_and!; try done.
    + eapply layout_wf_found; try done. exists pre', post'. split_and!; try done.
      destruct Hcase as [(-> & -> & _)|(Hne & _ & _ & Ht'' & _)].
      * destruct pre' as [|x pre']; [inversion T1'; subst; by left|].
        inversion T1'; subst. by left.
      * destruct post' as [|y post']; [done|]. inversion Ht''; subst. set_solver.
    + apply Hf.
    + apply Hf.
    + apply (fd_new _ _ _ _ _ _ Hf).
    + apply Hf.
  - intros [H0 _]. wp_step. intros x o Ex Hx Hfree.
    destruct (Z.lt_ge_cases (exact_size (_ah o)) size) as [|Hge]; [done|]. exfalso.
    apply (H0 eq_refl). exists x, o. split_and!; try done. eauto.
Qed.

Lemma round_size_spec n :
  0 < n < 2 ^ 32 - 4 -> n <= round_size n < n + 4 /\ (4 | round_size n).
Proof.
  intros Hn. unfold round_size. rewrite (u32_id (n - 1)) by lia.
  pose proof (Z.div_mod (n - 1) 4). pose proof (Z.mod_pos_bound (n - 1) 4).
  rewrite u32_id by lia. split; [lia|]. by apply Z.divide_factor_r.
Qed.

Lemma find_arena_range size flags sat :
  exists i, find_arena size flags sat = Z.of_nat i /\ (i < ARENAS)%nat.
Proof.
  unfold find_arena, ARENAS.
  destruct (flag _ _); [exists 1%nat; split; [done|lia]|].
  destruct (flag _ _); [exists 2%nat; split; [done|lia]|].
  destruct sat; [exists 0%nat; split; [done|lia]|].
  destruct (flag _ _); [exists 0%nat; split; [done|lia]|].
  destruct (_ <? _); [exists 3%nat|exists 4%nat]; split; (done || lia).
Qed.

Lemma wp_saturate p o rc sz g s (Q : unit -> vm -> Prop) :
  heap s !! p = Some o -> 0 < rc ->
  _ah o = mkAH PVM_OBJECT_START_MARKER rc PVM_OBJECT_AH_ALLOCATOR_FLAG_ALLOCATED g sz ->
  Q tt (set_heap (<[p := set_refCount INT_MAX o]> (heap s)) s) -> wp (ref_saturate_p p) s Q.
Proof.
  intros E Hrc Ha HQ. unfold ref_saturate_p. wp_step. eapply wp_load; [done|]. rewrite Ha. simpl.
  wp_step. wp_step. wp_step. eapply wp_load; [done|]. rewrite Ha. simpl.
  wp_step. wp_step. wp_step. wp_step.
  wp_step. wp_step; [by apply Z.ltb_lt|]. by eapply wp_update.
Qed.

(** From the block found to the object returned. *)
Lemma alloc_finish das flags sat p o sz s :
  heap s !! p = Some o ->
  _ah o = mkAH PVM_OBJECT_START_MARKER 1 PVM_OBJECT_AH_ALLOCATOR_FLAG_ALLOCATED 0 sz ->
  0 <= das -> sizeof_storage + das <= sz ->
  exists s', object_alloc_init das flags sat p s = Ret p s' /\
    exists o', s' = set_heap (<[p := o']> (heap s)) s /\ new_object das flags sat o' /\
      exact_size (_ah o') = sz /\
      object_start_marker (_ah o') = PVM_OBJECT_START_MARKER.
Proof.
  intros E Ha Hd Hsz.
  enough (wp (object_alloc_init das flags sat p) s (fun r s' => r = p /\
    exists o', s' = set_heap (<[p := o']> (heap s)) s /\ new_object das flags sat o' /\
      exact_size (_ah o') = sz /\
      object_start_marker (_ah o') = PVM_OBJECT_START_MARKER)) as (r & s' & Er & -> & Hr).
  { exists s'. done. }
  unfold object_alloc_init. wp_step. eapply wp_update; [done|]. wp_step.
  set (o1 := set_size_flags das flags o).
  eapply (wp_mono _ _ (fun _ s2 => exists o2, s2 = set_heap (<[p := o2]> (heap s)) s /\
    _ah o2 = mkAH PVM_OBJECT_START_MARKER (if sat then INT_MAX else 1)
      PVM_OBJECT_AH_ALLOCATOR_FLAG_ALLOCATED 0 sz /\ _da_size o2 = das /\ _flags o2 = flags)).
  - destruct sat.
    + eapply (wp_saturate p o1 1 sz 0); [apply lookup_insert_eq|lia|done|]. simpl.
      rewrite insert_insert_eq, set_heap_twice. eexists. split; [done|]. simpl. by rewrite Ha.
    + wp_step. exists o1. by rewrite <- Ha.
  - intros [] s2 (o2 & -> & Ha2 & Hd2 & Hf2). wp_step.
    eapply wp_load; [apply lookup_insert_eq|]. rewrite Ha2. simpl.
    destruct (Z.leb_spec (sizeof_storage + das) sz); [|lia]. wp_step.
    eapply wp_update; [apply lookup_insert_eq|]. simpl. rewrite insert_insert_eq, set_heap_twice.
    wp_step. split; [done|]. eexists. split; [done|]. simpl. rewrite Ha2. simpl.
    split_and!; try done. split; unfold is_alloc; simpl; by rewrite ?Ha2.
Qed.

(** Block sizes are multiples of four, so the unused tail stays below the
    smallest fragment even when the size was rounded up. *)
Lemma surplus_bound das sz :
  (4 | sz) -> round_size (40 + das) <= sz < round_size (40 + das) + PVM_MIN_FRAGMENT_SIZE ->
  round_size (40 + das) < 40 + das + 4 /\ (4 | round_size (40 + das)) ->
  sz < sizeof_storage + das + PVM_MIN_FRAGMENT_SIZE.
Proof.
  unfold PVM_MIN_FRAGMENT_SIZE, sizeof_storage. intros [a ->] Hb [Hc [b Hr]].
  rewrite Hr in *. lia.
Qed.
End AllocSpec.

(** ** Start up and checking *)

Definition free_block (n : Z) : pvm_object_storage :=
  set_ah (mkAH PVM_OBJECT_START_MARKER 0 PVM_OBJECT_AH_ALLOCATOR_FLAG_FREE 0 n) blank_storage.

(** The arena bounds for [q = size / 400]. *)
Definition arena_starts (b q : Z) : list Z :=
  [b; b + 60 * q; b + 120 * q; b + 128 * q; b + 240 * q].
Definition arena_ends (b q sz : Z) : list Z :=
  [b + 60 * q; b + 120 * q; b + 128 * q; b + 240 * q; b + sz].

Definition fresh_heap (b q sz : Z) : gmap Z pvm_object_storage :=
  <[b + 240 * q := free_block (sz - 240 * q)]>
  (<[b + 128 * q := free_block (112 * q)]> (<[b + 120 * q := free_block (8 * q)]>
  (<[b + 60 * q := free_block (60 * q)]> (<[b := free_block (60 * q)]> ∅)))).

Section Init.
Implicit Types (s : vm).

Lemma cut_arenas_cons p rest cur size q :
  size / 400 = q -> 0 <= cur -> 0 <= p -> 0 <= q -> cur + q * p * 4 < 2 ^ 32 ->
  cut_arenas (p :: rest) cur size =
    (cur :: (cut_arenas rest (cur + q * p * 4) size).1,
     cur + q * p * 4 :: (cut_arenas rest (cur + q * p * 4) size).2).
Proof.
  intros <- Hc Hp Hq Hlt. simpl. rewrite (u32_id (size / 400 * p * 4)) by nia.
  rewrite u32_id by nia. by destruct (cut_arenas rest _ _).
Qed.

Lemma cut_arenas_run b sz q :
  sz / 400 = q -> 0 < b -> 0 < q -> b + 400 * q < 2 ^ 32 ->
  cut_arenas percent_a b sz =
    (arena_starts b q, [b + 60 * q; b + 120 * q; b + 128 * q; b + 240 * q; b + 400 * q]).
Proof.
  intros Eq Hb Hq Hlt. unfold percent_a.
  do 5 (rewrite (cut_arenas_cons _ _ _ _ q); [|done|lia|lia|lia|lia]).
  unfold arena_starts. simpl.
  apply f_equal2; repeat (apply f_equal2; [lia|]); done.
Qed.

Lemma init_header_fresh b n s :
  sizeof_storage <= n -> heap s !! b = None ->
  init_free_object_header b n s = Ret tt (set_heap (<[b := free_block n]> (heap s)) s).
Proof.
  intros Hn E. unfold init_free_object_header, assert_, write_header, get, store, modify.
  destruct (Z.leb_spec sizeof_storage n); [|lia].
  unfold mbind, M_bind, mret, M_ret. by rewrite E.
Qed.

Lemma alloc_init_run b sz q s :
  sz / 400 = q -> 0 < b -> 5 <= q -> b + sz < 2 ^ 32 -> heap s = ∅ ->
  (pvm_alloc_init b sz;; pvm_alloc_clear_mem) s =
    Ret tt (set_heap (fresh_heap b q sz)
      (set_arenas b (b + sz) (arena_starts b q) (arena_ends b q sz) (arena_starts b q) s)).
Proof.
  intros Eq Hb Hq Hlt Hh.
  pose proof (Z.div_mod sz 400). pose proof (Z.mod_pos_bound sz 400).
  unfold pvm_alloc_init, init_arenas. rewrite (cut_arenas_run b sz q) by (done || lia).
  rewrite (u32_id (b + sz)) by lia.
  unfold assert_. destruct (Z.eqb_spec b 0); [lia|]. destruct (Z.ltb_spec 0 sz); [|lia].
  simpl. unfold pvm_alloc_clear_mem, assert_, modify, get, mbind, M_bind, mret, M_ret. simpl.
  destruct (Z.eqb_spec b 0); [lia|]. simpl.
  rewrite !u32_id by lia. unfold mbind, M_bind, arena_starts, arena_ends, fresh_heap, sizeof_storage.
  do 5 (rewrite init_header_fresh;
    [|unfold sizeof_storage; lia|simpl; rewrite Hh; rewrite ?lookup_insert_ne by lia; done]).
  unfold mret, M_ret. rewrite !set_heap_twice. simpl. rewrite Hh.
  do 3 f_equal; [f_equal; lia|].
  repeat (apply f_equal2; [f_equal; lia|]). done.
Qed.

Lemma fresh_heap_lookup b q sz x o :
  0 < q -> fresh_heap b q sz !! x = Some o ->
  exists i st en, arena_starts b q !! i = Some st /\ arena_ends b q sz !! i = Some en /\
    x = st /\ o = free_block (en - st).
Proof.
  intros Hq E. unfold fresh_heap in E.
  repeat (apply lookup_insert_Some in E as [[<- <-]|[_ E]]); [..|by rewrite lookup_empty in E].
  - exists 4%nat, (b + 240 * q), (b + sz). split_and!; try done. f_equal. lia.
  - exists 3%nat, (b + 128 * q), (b + 240 * q). split_and!; try done. f_equal. lia.
  - exists 2%nat, (b + 120 * q), (b + 128 * q). split_and!; try done. f_equal. lia.
  - exists 1%nat, (b + 60 * q), (b + 120 * q). split_and!; try done. f_equal. lia.
  - exists 0%nat, b, (b + 60 * q). split_and!; try done. f_equal. lia.
Qed.

Lemma fresh_arena b q sz i st en :
  5 <= q -> 400 * q <= sz -> (4 | sz) ->
  arena_starts b q !! i = Some st -> arena_ends b q sz !! i = Some en ->
  b <= st /\ st + sizeof_storage <= en <= b + sz /\ (4 | en - st) /\
  fresh_heap b q sz !! st = Some (free_block (en - st)) /\
  (forall j st' en', arena_starts b q !! j = Some st' -> arena_ends b q sz !! j = Some en' ->
    ((i < j)%nat -> en <= st') /\ (st' = st -> j = i)).
Proof.
  unfold sizeof_storage, fresh_heap. intros Hq Hsz [k Hk] Hi Hi'.
  assert (forall j st' en', arena_starts b q !! j = Some st' ->
    arena_ends b q sz !! j = Some en' ->
    (j = 0%nat /\ st' = b /\ en' = b + 60 * q) \/
    (j = 1%nat /\ st' = b + 60 * q /\ en' = b + 120 * q) \/
    (j = 2%nat /\ st' = b + 120 * q /\ en' = b + 128 * q) \/
    (j = 3%nat /\ st' = b + 128 * q /\ en' = b + 240 * q) \/
    (j = 4%nat /\ st' = b + 240 * q /\ en' = b + sz)) as Hall.
  { intros j st' en' Hs He. do 5 (destruct j as [|j]; [simplify_eq/=; tauto|]). done. }
  split_and!.
  1-3: destruct (Hall i st en Hi Hi') as [H|[H|[H|[H|H]]]]; lia.
  - destruct (Hall i st en Hi Hi') as [H|[H|[H|[H|H]]]]; destruct H as (-> & -> & ->).
    + exists (15 * q). lia.
    + exists (15 * q). lia.
    + exists (2 * q). lia.
    + exists (28 * q). lia.
    + exists (k - 60 * q). lia.
  - destruct (Hall i st en Hi Hi') as [H|[H|[H|[H|H]]]]; destruct H as (-> & -> & ->).
    + rewrite !lookup_insert_ne, lookup_insert_eq by lia. do 2 f_equal. lia.
    + rewrite !(lookup_insert_ne _ _ (b + 60 * q)), lookup_insert_eq by lia. do 2 f_equal. lia.
    + rewrite !(lookup_insert_ne _ _ (b + 120 * q)), lookup_insert_eq by lia. do 2 f_equal. lia.
    + rewrite !(lookup_insert_ne _ _ (b + 128 * q)), lookup_insert_eq by lia. do 2 f_equal. lia.
    + rewrite lookup_insert_eq. do 2 f_equal. lia.
  - intros j st' en' Hj Hj'.
    destruct (Hall i st en Hi Hi') as [H|[H|[H|[H|H]]]];
      destruct (Hall j st' en' Hj Hj') as [G|[G|[G|[G|G]]]]; lia.
Qed.

Lemma fresh_wf b q sz s :
  0 < b -> 5 <= q -> 400 * q <= sz -> (4 | sz) -> b + sz < 2 ^ 32 ->
  heap_wf (set_heap (fresh_heap b q sz)
    (set_arenas b (b + sz) (arena_starts b q) (arena_ends b q sz) (arena_starts b q) s)).
Proof.
  intros Hb Hq Hsz Hd Hlt. split; [split; simpl; try done|].
  - intros i st en [Hi Hi']. simpl in *.
    destruct (fresh_arena b q sz i st en Hq Hsz Hd Hi Hi') as (H1 & H2 & H3 & H4 & H5).
    split_and!; [lia|lia|]. exists [st]. split_and!.
    + econstructor; [done| |].
      * split_and!; [done|simpl; lia|done|by left].
      * simpl. replace (st + (en - st)) with en by lia. constructor.
    + intros x o Ex Hx. destruct (fresh_heap_lookup b q sz x o) as (j & st' & en' & Hj & Hj' & -> & _);
        [lia|done|]. destruct (fresh_arena b q sz j st' en' Hq Hsz Hd Hj Hj') as (_ & _ & _ & _ & G5).
      destruct (H5 j st' en' Hj Hj') as [K1 K2]. destruct (G5 i st en Hi Hi') as [K3 _].
      destruct (decide (i < j)%nat) as [Hij|]; [specialize (K1 Hij); lia|].
      destruct (decide (j < i)%nat) as [Hij|]; [specialize (K3 Hij)|].
      { destruct (fresh_arena b q sz j st' en' Hq Hsz Hd Hj Hj') as (_ & ? & _).
        unfold sizeof_storage in *. lia. }
      assert (i = j) as -> by lia. simplify_eq. by left.
    + exists st. split; [done|by left].
  - intros i j st en st' en' [Hi Hi'] [Hj Hj'] Hij. simpl in *.
    destruct (fresh_arena b q sz i st en Hq Hsz Hd Hi Hi') as (_ & _ & _ & _ & H5).
    by apply (H5 j st' en').
  - intros x o Ex. destruct (fresh_heap_lookup b q sz x o) as (j & st' & en' & Hj & Hj' & -> & _);
      [lia|done|]. exists j, st', en'. split; [done|].
    destruct (fresh_arena b q sz j st' en' Hq Hsz Hd Hj Hj') as (_ & ? & _).
    unfold sizeof_storage in *. lia.
  - intros x o [Ex Ha]%alloc_at_Some. simpl in Ex.
    destruct (fresh_heap_lookup b q sz x o) as (j & st' & en' & _ & _ & _ & ->); [lia|done|].
    by destruct Ha.
Qed.
End Init.

Section Memcheck.
Implicit Types (s : vm).

Lemma is_allocated_ok s i st en x o :
  heap_wf s -> is_arena s i st en -> st <= x < en -> heap s !! x = Some o -> is_alloc o ->
  pvm_object_is_allocated (pvm_object_space_end s) x o = true.
Proof.
  intros [Hl Hal] Hi Hx E Ha. destruct (lw_arena _ Hl i st en Hi) as (H1 & H2 & bl & Ht & Hc & _).
  destruct (tiled_in _ _ _ _ _ Ht (Hc x o E Hx)) as (_ & o' & E' & (Hm & Hs & _ & _) & Hle).
  rewrite E in E'. injection E' as <-.
  destruct (Hal x o) as (Hr & Hd & Hb); [by apply alloc_at_Some|].
  destruct (lw_space _ Hl) as [H3 H4]. unfold space_limit, sizeof_storage, PVM_MIN_FRAGMENT_SIZE in *.
  unfold pvm_object_is_allocated, sizeof_storage, PVM_MIN_FRAGMENT_SIZE.
  unfold is_alloc in Ha. apply Is_true_true in Ha. rewrite Ha, Hm, Z.eqb_refl.
  unfold sizeof_storage in *. rewrite (u32_id (pvm_object_space_end s - x)) by lia.
  rewrite (u32_id (_da_size o + 40)) by lia. simpl.
  rewrite !andb_true_iff, !Z.leb_le, Z.ltb_lt. split_and!; [lia|lia| |lia].
  rewrite u32_id by lia. lia.
Qed.

(** The number of allocated objects among some blocks. *)
Definition n_alloc (h : gmap Z pvm_object_storage) (bl : list Z) : Z :=
  Z.of_nat (length (filter (fun y => is_Some (alloc_at h y)) bl)).

Lemma n_alloc_cons h y bl :
  n_alloc h (y :: bl) = (if decide (is_Some (alloc_at h y)) then 1 else 0) + n_alloc h bl.
Proof. unfold n_alloc. rewrite filter_cons. destruct (decide _); simpl; lia. Qed.

Lemma memcheck_loop_ok fuel s i st en x bl acc :
  heap_wf s -> is_arena s i st en -> st <= x -> tiled (heap s) en x bl ->
  (length bl < fuel)%nat -> 0 <= n_used acc -> 0 <= n_free acc ->
  n_used acc + n_free acc = x - st ->
  exists acc', memcheck_loop fuel en x acc s = Ret (en, acc') s /\
    n_used acc' + n_free acc' = en - st /\
    n_objects acc' = n_objects acc + n_alloc (heap s) bl /\
    n_largest acc <= n_largest acc' /\
    (forall y o, y ∈ bl -> heap s !! y = Some o -> is_alloc o = false ->
      exact_size (_ah o) <= n_largest acc').
Proof.
  intros Hwf Hi. revert x bl acc. induction fuel as [|fuel IH]; intros x bl acc Hx Ht Hf Hu Hfr Hsum; [lia|].
  pose proof Hwf as [Hl _]. destruct (lw_arena _ Hl i st en Hi) as (H1 & H2 & bl0 & Ht0 & Hc & _).
  destruct (lw_space _ Hl) as [H3 H4]. unfold space_limit in H4.
  simpl. inversion Ht as [|? o bl' E Hok Ht']; subst.
  { rewrite Z.ltb_irrefl. simpl. exists acc. split_and!; [done|lia|unfold n_alloc; simpl; lia|lia|].
    intros y o Hy. by apply not_elem_of_nil in Hy. }
  pose proof (tiled_cons_lt _ _ _ _ _ Ht) as Hlt. pose proof (tiled_le _ _ _ _ Ht') as Hle.
  pose proof Hok as (Hm & Hs & _ & Hfl). unfold sizeof_storage in Hs.
  destruct (Z.ltb_spec x en); [|lia]. simpl. unfold load, get, mbind, M_bind. rewrite E.
  unfold pvm_alloc_is_object. rewrite Hm, Z.eqb_refl. simpl. rewrite u32_id by lia.
  assert (alloc_at (heap s) x = if is_alloc o then Some o else None) as Hat
    by (unfold alloc_at; by rewrite E).
  fold (is_alloc o). destruct (is_alloc o) eqn:Ha.
  - rewrite (is_allocated_ok s i st en x o) by (done || lia || by rewrite Ha). simpl.
    rewrite u32_id by lia.
    destruct (IH (x + exact_size (_ah o)) bl'
      (mkStat (n_objects acc + 1) (n_used acc + exact_size (_ah o)) (n_free acc) (n_largest acc)))
      as (acc' & Er & Hs' & Ho' & Hla & Hlg); simpl in *; try done; try lia.
    exists acc'. split_and!; try done; try lia.
    + rewrite n_alloc_cons, decide_True by (rewrite Hat; eauto). lia.
    + intros y q Hy Eq Hq. apply elem_of_cons in Hy as [->|Hy]; [congruence|eauto].
  - rewrite u32_id by lia.
    destruct (IH (x + exact_size (_ah o)) bl'
      (mkStat (n_objects acc) (n_used acc) (n_free acc + exact_size (_ah o))
        (Z.max (n_largest acc) (exact_size (_ah o)))))
      as (acc' & Er & Hs' & Ho' & Hla & Hlg); simpl in *; try done; try lia.
    exists acc'. split_and!; try done; try lia.
    + rewrite n_alloc_cons, decide_False by (rewrite Hat; by intros [? ?]). lia.
    + intros y q Hy Eq Hq. apply elem_of_cons in Hy as [->|Hy]; [|eauto].
      simplify_eq. lia.
Qed.
End Memcheck.

Section Release.
Implicit Types (s : vm).

(** Layouts only depend on sizes, markers and the free/allocated distinction. *)
Lemma tiled_map h h' e a bl :
  (forall x o, h !! x = Some o -> exists o', h' !! x = Some o' /\
    exact_size (_ah o') = exact_size (_ah o) /\ (block_ok o -> block_ok o')) ->
  tiled h e a bl -> tiled h' e a bl.
Proof.
  intros Hm. induction 1 as [|a o bl E Hok Ht IH]; [constructor|].
  destruct (Hm a o E) as (o' & E' & Hs & Hok'). econstructor; [done|auto|]. by rewrite Hs.
Qed.

Lemma layout_wf_map s s' :
  layout_wf s ->
  (pvm_object_space_start s', pvm_object_space_end s', start_a s', end_a s', curr_a s') =
  (pvm_object_space_start s, pvm_object_space_end s, start_a s, end_a s, curr_a s) ->
  (forall x o, heap s !! x = Some o -> exists o', heap s' !! x = Some o' /\
    exact_size (_ah o') = exact_size (_ah o) /\ (block_ok o -> block_ok o')) ->
  (forall x o', heap s' !! x = Some o' -> exists o, heap s !! x = Some o) ->
  layout_wf s'.
Proof.
  intros [L1 L2 L3 L4 L6 L5] He Hm Hdom. injection He as E1 E2 E3 E4 E5.
  assert (forall i st en, is_arena s' i st en <-> is_arena s i st en) as Har
    by (intros; unfold is_arena; by rewrite E3, E4).
  split; rewrite ?E1, ?E2, ?E3, ?E4, ?E5; try done.
  - intros i st en Hi%Har. destruct (L3 i st en Hi) as (? & ? & bl & ? & Hc & ?).
    split_and!; try done. exists bl. split_and!; [by eapply tiled_map| |done].
    intros x o' E' Hx. destruct (Hdom x o' E') as [o E]. eauto.
  - intros i j st en st' en' Hi%Har Hj%Har. eauto.
  - intros x o' E'. destruct (Hdom x o' E') as [o E].
    destruct (L5 x o E) as (i & st & en & Hi & ?). exists i, st, en. split; [by apply Har|done].
Qed.

Lemma layout_wf_release D s s' : layout_wf s -> rc_frame D s s' -> layout_wf s'.
Proof.
  intros Hl [Hsd _ _ He _ Hfl]. unfold env in He. injection He as E1 E2 E3 E4 E5 _ _ _ _ _.
  apply (layout_wf_map s s' Hl); [congruence| |].
  - intros x o E. pose proof (same_data_lookup _ _ x Hsd) as Hsl. rewrite E in Hsl.
    destruct (heap s' !! x) as [o'|] eqn:E'; [|done]. apply (inj Some) in Hsl.
    assert (_ah (strip o') = _ah (strip o)) as Hah by by rewrite Hsl.
    simpl in Hah. injection Hah as Hm' _ Hs'.
    exists o'. split_and!; [done|done|]. intros (Hm & Hs & Hd & Hf).
    split_and!; [congruence|by rewrite Hs'|by rewrite Hs'|].
    destruct (Hfl x o' E') as [?|[?|(q & Eq & Hq)]]; [by right|by left|].
    simplify_eq. destruct Hf as [Hf|Hf]; [left; congruence|right].
    unfold is_alloc in *. by rewrite <- Hq.
  - intros x o' E'. pose proof (same_data_lookup _ _ x Hsd) as Hsl. rewrite E' in Hsl.
    destruct (heap s !! x); [eauto|done].
Qed.

Lemma heap_wf_release exact H ext s s' :
  heap_wf s -> rc_inv_at exact H ∅ ext (heap s') -> rc_frame ∅ s s' -> heap_wf s'.
Proof.
  intros [Hl Hal] Hi Hf. split; [by eapply layout_wf_release|].
  intros x o' [E' Ha']%alloc_at_Some.
  destruct (rc_obj _ _ _ _ _ Hi x o' E' Ha') as (_ & Hr & _); [apply not_elem_of_empty|].
  destruct (rf_alloc _ _ _ Hf x o' E' Ha') as (o & E & Ha & _).
  destruct (Hal x o) as (_ & Hd & Hs); [by apply alloc_at_Some|].
  pose proof (same_data_lookup _ _ x (rf_data _ _ _ Hf)) as Hsl. rewrite E, E' in Hsl.
  apply (inj Some) in Hsl.
  assert (exact_size (_ah o') = exact_size (_ah o) /\ _da_size o' = _da_size o) as [Hs1 Hs2].
  { change (exact_size (_ah (strip o')) = exact_size (_ah (strip o)) /\
      _da_size (strip o') = _da_size (strip o)). by rewrite Hsl. }
  unfold alloc_ok. by rewrite Hs1, Hs2.
Qed.
End Release.

Section AllocMain.

Lemma pvm_object_alloc_spec das flags sat s :
  heap_wf s -> 0 <= das < 2 ^ 31 ->
  exists st en, is_arena s (Z.to_nat (find_arena (sizeof_storage + das) flags sat)) st en /\
  match pvm_object_alloc das flags sat s with
  | Ret p s' =>
      heap_wf s' /\ st <= p < en /\ alloc_env s' = alloc_env s /\
      alloc_at (heap s) p = None /\
      (exists o, heap s' !! p = Some o /\ new_object das flags sat o) /\
      (forall x, x <> p -> alloc_at (heap s') x = alloc_at (heap s) x)
  | Panic msg => msg = oom /\
      forall x o, heap s !! x = Some o -> st <= x < en ->
        alloc_flags (_ah o) = PVM_OBJECT_AH_ALLOCATOR_FLAG_FREE ->
        exact_size (_ah o) < round_size (sizeof_storage + das)
  | _ => False
  end.
Proof.
  intros [Hl Hal] Hdas. unfold sizeof_storage in *.
  destruct (find_arena_range (40 + das) flags sat) as (i & Ei & Hi).
  destruct (arena_exists s i Hl Hi) as (st & en & c & Har & _).
  exists st, en. rewrite Ei, Nat2Z.id. split; [done|].
  destruct (round_size_spec (40 + das)) as [Hr1 Hr2]; [lia|].
  unfold pvm_object_alloc, pool_alloc, sizeof_storage. rewrite u32_id by lia. rewrite Ei.
  destruct (pvm_find_spec (round_size (40 + das)) i st en s Hl Har) as (r & s1 & Er & Hr);
    [unfold sizeof_storage; lia|done|].
  unfold mbind at 1, M_bind. rewrite Er. destruct r as [p|]; [|by split].
  destruct Hr as (Hl1 & Hp & He & Hold & (o & sz & Eo & Hsz & Hah) & Hfr).
  destruct (alloc_finish das flags sat p o sz s1 Eo Hah) as (s' & Es & o' & Eh & Hno & Hs' & Hm');
    [lia|unfold sizeof_storage; lia|]. rewrite Es.
  assert (block_ok o') as Hok.
  { split_and!; [done|rewrite Hs'; unfold sizeof_storage; lia| |right; apply Hno].
    rewrite Hs'. pose proof (lw_all _ Hl1 p o Eo) as (j & a & b & Hj & Hb).
    destruct (lw_arena _ Hl1 j a b Hj) as (_ & _ & bl & Ht & Hc & _).
    destruct (tiled_in _ _ _ _ _ Ht (Hc p o Eo Hb)) as (_ & q & Eq & (_ & _ & Hd & _) & _).
    simplify_eq. by rewrite Hah in Hd. }
  assert (layout_wf s') as Hl'.
  { rewrite Eh. eapply layout_wf_upd; try done. by rewrite Hs', Hah. }
  assert (alloc_at (heap s') p = Some o') as Hat.
  { rewrite Eh. simpl. apply alloc_at_Some. rewrite lookup_insert_eq. split; [done|apply Hno]. }
  assert (forall x, x <> p -> alloc_at (heap s') x = alloc_at (heap s) x) as Hfr'.
  { intros x Hx. rewrite <- Hfr by done. rewrite Eh. unfold alloc_at. simpl.
    by rewrite lookup_insert_ne. }
  split; [split; [done|]|split; [done|split; [by rewrite Eh|split; [done|split; [|done]]]]].
  - intros x q Eq. destruct (decide (x = p)) as [->|Hx].
    + rewrite Hat in Eq. injection Eq as <-. split_and!.
      * rewrite (no_refs _ _ _ _ Hno). by destruct sat.
      * rewrite (no_refs _ _ _ _ Hno). by destruct sat.
      * rewrite (no_size _ _ _ _ Hno). lia.
      * rewrite (no_size _ _ _ _ Hno). lia.
      * rewrite (no_size _ _ _ _ Hno), Hs'. unfold sizeof_storage. lia.
      * rewrite (no_size _ _ _ _ Hno), Hs'. apply surplus_bound; [|done|by split; [lia|]].
        destruct Hok as (_ & _ & Hd & _). by rewrite Hs' in Hd.
    + rewrite Hfr' in Eq by done. eauto.
  - exists o'. split; [|done]. rewrite Eh. simpl. apply lookup_insert_eq.
Qed.

(** The form clients use. *)
Lemma wpe_object_alloc das flags sat s (Q : Z -> vm -> Prop) :
  heap_wf s -> 0 <= das < 2 ^ 31 ->
  (forall p s', heap_wf s' -> alloc_env s' = alloc_env s -> 0 < p ->
    alloc_at (heap s) p = None ->
    (exists o, heap s' !! p = Some o /\ new_object das flags sat o) ->
    (forall x, x <> p -> alloc_at (heap s') x = alloc_at (heap s) x) -> Q p s') ->
  wpe (eq oom) (pvm_object_alloc das flags sat) s Q.
Proof.
  intros Hwf Hd HQ. destruct (pvm_object_alloc_spec das flags sat s Hwf Hd) as (st & en & Ha & H).
  destruct Hwf as [Hl _]. destruct (lw_arena _ Hl _ _ _ Ha) as (? & _).
  destruct (lw_space _ Hl) as [? _].
  unfold wpe. destruct (pvm_object_alloc das flags sat s); [|by symmetry; apply H|done..].
  destruct H as (? & ? & ? & ? & ? & ?). apply HQ; try done. lia.
Qed.
End AllocMain.

(** ** An executable check of well-formedness *)

Definition block_okb (o : pvm_object_storage) : bool :=
  (object_start_marker (_ah o) =? PVM_OBJECT_START_MARKER) &&
  (sizeof_storage <=? exact_size (_ah o)) && (exact_size (_ah o) mod 4 =? 0) &&
  ((alloc_flags (_ah o) =? PVM_OBJECT_AH_ALLOCATOR_FLAG_FREE) || is_alloc o).

Definition alloc_okb (o : pvm_object_storage) : bool :=
  (0 <? refCount (_ah o)) && (refCount (_ah o) <=? INT_MAX) && (0 <=? _da_size o) &&
  (_da_size o <? 2 ^ 31) && (sizeof_storage + _da_size o <=? exact_size (_ah o)) &&
  (exact_size (_ah o) <? sizeof_storage + _da_size o + PVM_MIN_FRAGMENT_SIZE).

Fixpoint tile_check (fuel : nat) (h : gmap Z pvm_object_storage) (e a : Z) : option (list Z) :=
  if a =? e then Some [] else
  match fuel with
  | O => None
  | S fuel' =>
      match h !! a with
      | Some o => if block_okb o
          then cons a <$> tile_check fuel' h e (a + exact_size (_ah o)) else None
      | None => None
      end
  end.

Definition arena_check (s : vm) (st en c : Z) : bool :=
  match tile_check (size (heap s)) (heap s) en st with
  | Some bl => bool_decide (c ∈ bl) &&
      forallb (fun ko => negb ((st <=? ko.1) && (ko.1 <? en)) || bool_decide (ko.1 ∈ bl))
        (map_to_list (heap s))
  | None => false
  end.

Definition heap_wf_check (s : vm) : bool :=
  match start_a s, end_a s, curr_a s with
  | [s0; s1; s2; s3; s4], [e0; e1; e2; e3; e4], [c0; c1; c2; c3; c4] =>
      (0 <? pvm_object_space_start s) && (pvm_object_space_end s <? space_limit) &&
      (s0 =? pvm_object_space_start s) && (e0 =? s1) && (e1 =? s2) && (e2 =? s3) && (e3 =? s4) &&
      (e4 =? pvm_object_space_end s) &&
      (arena_check s s0 e0 c0 && arena_check s s1 e1 c1 && arena_check s s2 e2 c2 &&
       arena_check s s3 e3 c3 && arena_check s s4 e4 c4) &&
      forallb (fun ko => (pvm_object_space_start s <=? ko.1) && (ko.1 <? pvm_object_space_end s)
        && (negb (is_alloc ko.2) || alloc_okb ko.2)) (map_to_list (heap s))
  | _, _, _ => false
  end.

Section CheckWf.
Implicit Types (s : vm).

Lemma block_okb_sound o : block_okb o = true -> block_ok o.
Proof.
  unfold block_okb. rewrite !andb_true_iff, orb_true_iff. intros [[[H1 H2] H3] H4].
  split_and!; [lia|lia|apply Z.mod_divide; lia|].
  destruct H4 as [?|H4]; [left; lia|right; by rewrite H4].
Qed.

Lemma tile_check_sound fuel h e a bl : tile_check fuel h e a = Some bl -> tiled h e a bl.
Proof.
  revert a bl. induction fuel as [|fuel IH]; intros a bl; simpl;
    destruct (Z.eqb_spec a e) as [->|]; intros E; simplify_eq; try constructor.
  destruct (h !! a) as [o|] eqn:Eo; [|done]. destruct (block_okb o) eqn:Hb; [|done].
  destruct (tile_check fuel h e _) as [bl'|] eqn:Et; simplify_eq/=.
  econstructor; [done|by apply block_okb_sound|auto].
Qed.

Lemma arena_check_sound s st en c :
  arena_check s st en c = true ->
  st <= en /\ exists bl, tiled (heap s) en st bl /\ complete (heap s) st en bl /\ c ∈ bl.
Proof.
  unfold arena_check. destruct (tile_check _ _ _ _) as [bl|] eqn:Et; [|done].
  apply tile_check_sound in Et. rewrite andb_true_iff, bool_decide_eq_true, forallb_map_to_list.
  intros [Hc Hall]. split; [by eapply tiled_le|]. exists bl. split_and!; try done.
  intros x o E Hx. specialize (Hall x o E). cbn [fst snd] in Hall.
  apply orb_true_iff in Hall as [H|H]; [|by apply bool_decide_eq_true in H].
  apply negb_true_iff, andb_false_iff in H. lia.
Qed.

Lemma heap_wf_check_sound s : heap_wf_check s = true -> heap_wf s.
Proof.
  unfold heap_wf_check.
  destruct (start_a s) as [|s0 [|s1 [|s2 [|s3 [|s4 [|]]]]]] eqn:Es; try done.
  destruct (end_a s) as [|e0 [|e1 [|e2 [|e3 [|e4 [|]]]]]] eqn:Ee; try done.
  destruct (curr_a s) as [|c0 [|c1 [|c2 [|c3 [|c4 [|]]]]]] eqn:Ec; try done.
  rewrite !andb_true_iff, forallb_map_to_list.
  intros [[[[[[[[[H1 H2] H3] H4] H5] H6] H7] H8] [[[[A0 A1] A2] A3] A4]] Hall].
  apply arena_check_sound in A0 as [L0 A0], A1 as [L1 A1], A2 as [L2 A2], A3 as [L3 A3], A4 as [L4 A4].
  assert (forall x o, heap s !! x = Some o ->
    pvm_object_space_start s <= x < pvm_object_space_end s /\ (is_alloc o -> alloc_ok o)) as Hobj.
  { intros x o E. specialize (Hall x o E). cbn [fst snd] in Hall.
    rewrite !andb_true_iff, orb_true_iff in Hall. destruct Hall as [Hx Ha]. split; [lia|].
    intros Hal. destruct Ha as [Ha|Ha]; [by destruct (is_alloc o)|].
    unfold alloc_okb in Ha. rewrite !andb_true_iff in Ha. unfold alloc_ok. lia. }
  assert (forall i st en, is_arena s i st en ->
    (i = 0%nat /\ st = s0 /\ en = e0) \/ (i = 1%nat /\ st = s1 /\ en = e1) \/
    (i = 2%nat /\ st = s2 /\ en = e2) \/ (i = 3%nat /\ st = s3 /\ en = e3) \/
    (i = 4%nat /\ st = s4 /\ en = e4)) as Hia.
  { intros i st en [Hi Hi']. rewrite Es in Hi. rewrite Ee in Hi'.
    do 5 (destruct i as [|i]; [simplify_eq/=; tauto|]). done. }
  split; [split|].
  - rewrite Es, Ee, Ec. done.
  - lia.
  - intros i st en Hi. rewrite Ec.
    destruct (Hia i st en Hi) as [H|[H|[H|[H|H]]]]; destruct H as (-> & -> & ->);
      (split; [lia|split; [lia|]]); [clear A1 A2 A3 A4; rename A0 into A|clear A0 A2 A3 A4; rename A1 into A
        |clear A0 A1 A3 A4; rename A2 into A|clear A0 A1 A2 A4; rename A3 into A|clear A0 A1 A2 A3; rename A4 into A];
      destruct A as (bl & ? & ? & ?); exists bl; split_and!; try done; eexists; done.
  - intros i j st en st' en' Hi Hj Hij.
    destruct (Hia i st en Hi) as [H|[H|[H|[H|H]]]]; destruct (Hia j st' en' Hj) as [G|[G|[G|[G|G]]]]; lia.
  - rewrite Es, Ee. simpl. split_and!; f_equal; try lia. repeat f_equal; lia.
  - intros x o E. destruct (Hobj x o E) as [Hx _]. unfold is_arena. rewrite Es, Ee.
    destruct (decide (x < e0)); [exists 0%nat, s0, e0; simpl; split; [done|lia]|].
    destruct (decide (x < e1)); [exists 1%nat, s1, e1; simpl; split; [done|lia]|].
    destruct (decide (x < e2)); [exists 2%nat, s2, e2; simpl; split; [done|lia]|].
    destruct (decide (x < e3)); [exists 3%nat, s3, e3; simpl; split; [done|lia]|].
    exists 4%nat, s4, e4. simpl. split; [done|lia].
  - intros x o [E Ha]%alloc_at_Some. by apply (Hobj x o E).
Qed.
End CheckWf.

(** An object space of 4000 bytes at 0x10000 for the witnesses. *)
Definition ex_space : vm :=
  set_heap (fresh_heap 65536 10 4000)
    (set_arenas 65536 69536 (arena_starts 65536 10) (arena_ends 65536 10 4000)
      (arena_starts 65536 10) (zero_vm ∅)).

Lemma ex_space_wf : heap_wf ex_space.
Proof. apply (fresh_wf 65536 10 4000); try lia. by exists 1000. Qed.

(** ** Theorems *)

(** C6: Allocation.  On a well formed heap [pvm_object_alloc] either returns an
    object in the arena the flags and size call for, or panics for lack of
    memory; no assertion fails, no wild header is read and the search ends.  The
    object was not allocated before, has its size, flags and count set and its
    data zeroed; the other allocated objects are unchanged and the heap is well
    formed again.  It panics only if the arena has no free block of the rounded
    size. *)
Theorem pvm_object_alloc_correct das flags sat s :
  heap_wf s -> 0 <= das < 2 ^ 31 ->
  exists st en, is_arena s (Z.to_nat (find_arena (sizeof_storage + das) flags sat)) st en /\
  match pvm_object_alloc das flags sat s with
  | Ret p s' =>
      heap_wf s' /\ st <= p < en /\ alloc_env s' = alloc_env s /\
      alloc_at (heap s) p = None /\
      (exists o, heap s' !! p = Some o /\ new_object das flags sat o) /\
      (forall x, x <> p -> alloc_at (heap s') x = alloc_at (heap s) x)
  | Panic msg => msg = oom /\
      forall x o, heap s !! x = Some o -> st <= x < en ->
        alloc_flags (_ah o) = PVM_OBJECT_AH_ALLOCATOR_FLAG_FREE ->
        exact_size (_ah o) < round_size (sizeof_storage + das)
  | _ => False
  end.
Proof. apply pvm_object_alloc_spec. Qed.

(** C33: Start up.  [pvm_alloc_init] and [pvm_alloc_clear_mem] turn an empty space
    of at least 2000 bytes (a multiple of four) into a well formed heap of five
    arenas that together cover it, each one free block. *)
Theorem pvm_alloc_init_correct b sz s :
  0 < b -> 2000 <= sz -> (4 | sz) -> b + sz < 2 ^ 32 -> heap s = ∅ ->
  exists s', (pvm_alloc_init b sz;; pvm_alloc_clear_mem) s = Ret tt s' /\ heap_wf s' /\
    pvm_object_space_start s' = b /\ pvm_object_space_end s' = b + sz /\
    start_a s' !! 0%nat = Some b /\ tail (start_a s') = take 4 (end_a s') /\
    end_a s' !! 4%nat = Some (b + sz) /\
    forall i st en, is_arena s' i st en -> heap s' !! st = Some (free_block (en - st)).
Proof.
  intros Hb Hsz Hd Hlt Hh. set (q := sz / 400).
  assert (5 <= q) as Hq by (apply Z.div_le_lower_bound; lia).
  assert (400 * q <= sz) as Hle by (apply Z.mul_div_le; lia).
  eexists. split; [by apply (alloc_init_run b sz q)|]. split; [by apply fresh_wf|].
  split_and!; try done. intros i st en [Hi Hi'].
  by destruct (fresh_arena b q sz i st en Hq Hle Hd Hi Hi') as (_ & _ & _ & ? & _).
Qed.


(** C23: Reference counting keeps the heap well formed: after a release the
    arenas are still tiled, freed blocks can be allocated again, and the memory
    check still passes. *)
Theorem ref_dec_p_heap_wf exact ext p s :
  heap_wf s -> rc_inv exact ∅ (p :: ext) (heap s) ->
  exists s', ref_dec_p p s = Ret tt s' /\ heap_wf s' /\
    forall i st en, is_arena s' i st en -> exists stat, memcheck_one st en s' = Ret (0, stat) s'.
Proof.
  intros Hwf Hi. destruct (ref_dec_p_releases exact p ∅ ext s Hi) as ([] & s' & E & Hi' & Hf).
  assert (heap_wf s') as Hwf' by by eapply heap_wf_release.
  exists s'. split_and!; [done|done|]. intros i st en Ha. pose proof Hwf' as [Hl _].
  destruct (lw_arena _ Hl i st en Ha) as (_ & _ & bl & Ht & Hc & _).
  pose proof (tiled_length _ _ _ _ Ht) as Hlen.
  destruct (memcheck_loop_ok (S (size (heap s'))) s' i st en st bl (mkStat 0 0 0 0))
    as (acc & Er & _); simpl; try done; try lia.
  exists acc. unfold memcheck_one, get, mbind, M_bind. rewrite Er. by rewrite Z.eqb_refl.
Qed.

(** ** Witnesses *)

Lemma pvm_object_alloc_correct_witness :
  exists p s', pvm_object_alloc 8 0 false ex_space = Ret p s' /\ heap_wf s' /\
    exists o, heap s' !! p = Some o /\ new_object 8 0 false o.
Proof.
  destruct (pvm_object_alloc_correct 8 0 false ex_space) as (st & en & _ & H).
  - apply ex_space_wf.
  - lia.
  - destruct (pvm_object_alloc 8 0 false ex_space) as [p s'|m|m|] eqn:E.
    + exists p, s'. destruct H as (H1 & _ & _ & _ & H2 & _). split; [reflexivity|]. split; assumption.
    + vm_compute in E. discriminate E.
    + destruct H.
    + destruct H.
Defined.

Lemma pvm_alloc_init_correct_witness :
  exists s', (pvm_alloc_init 65536 4000;; pvm_alloc_clear_mem) (zero_vm ∅) = Ret tt s' /\ heap_wf s'.
Proof.
  destruct (pvm_alloc_init_correct 65536 4000 (zero_vm ∅)) as (s' & H1 & H2 & _).
  - lia.
  - lia.
  - exists 1000. reflexivity.
  - lia.
  - reflexivity.
  - exists s'. split; assumption.
Defined.


(** One object allocated in [ex_space] and still referenced once. *)
Definition ex_one : outcome vm Z := pvm_object_alloc 0 0 false ex_space.

Lemma ref_dec_p_heap_wf_witness :
  exists p s s', ex_one = Ret p s /\ ref_dec_p p s = Ret tt s' /\ heap_wf s'.
Proof.
  destruct (pvm_object_alloc_spec 0 0 false ex_space) as (st & en & _ & H);
    [apply ex_space_wf|lia|].
  destruct ex_one as [p s|m|m|] eqn:E; unfold ex_one in E; rewrite E in H;
    [|vm_compute in E; discriminate E|destruct H|destruct H].
  destruct H as (H & _).
  destruct (ref_dec_p_heap_wf true [] p s) as (s' & H1 & H2 & _).
  - assumption.
  - apply rc_check_sound. vm_compute in E. injection E as <- <-. vm_compute. reflexivity.
  - exists p, s, s'. split; [reflexivity|]. split; assumption.
Defined.
