(* ===== verification/Gc.v ===== *)
(** The stop-the-world mark/sweep collector ([phantom/vm/gc.c]).

    [run_gc] bumps the generation, marks what the root object reaches with the
    new generation number and then frees every allocated object that does not
    carry it.  The collector runs under [vm_alloc_mutex]. *)

From S2P Require Import Prelude Heap Refcount Alloc.

(** ** Mark *)

Section Mark.
(** The recursive call [mark_tree]. *)
Variable rec : Z -> M vm unit.

Definition mark_unless_marked (p : Z) : M vm unit :=
  o ← load p;
  g ← gets gc_flags_last_generation;
  if gc_flags (_ah o) =? g then mret tt else rec p.

Definition mark_tree_o (o : pvm_object) : M vm unit :=
  if data o =? 0 then mret tt else
  mark_unless_marked (data o);;
  mark_unless_marked (interface o).

(** [gc_process_children( mark_tree_o, p, 0 )] *)
Definition gc_process_children (p : Z) : M vm unit :=
  o ← load p;
  mark_tree_o (_class o);;
  h ← gets heap;
  refs ← some_or_fault (own_refs h o) "gc iterator";
  for_each mark_tree_o refs.

Definition mark_tree_body (p : Z) : M vm unit :=
  g ← gets gc_flags_last_generation;
  update p (set_gc_flags g);;
  o ← load p;
  assert_ (object_start_marker (_ah o) =? PVM_OBJECT_START_MARKER) "marker";;
  assert_ (flag (alloc_flags (_ah o)) PVM_OBJECT_AH_ALLOCATOR_FLAG_ALLOCATED) "allocated";;
  if is_childfree o then mret tt else gc_process_children p.
End Mark.

Fixpoint mark_tree (fuel : nat) (p : Z) : M vm unit :=
  match fuel with
  | O => diverge
  | S fuel' => mark_tree_body (mark_tree fuel') p
  end.

(** ** Sweep *)

Definition sweep_one (p : Z) : M vm Z :=
  o ← load p;
  g ← gets gc_flags_last_generation;
  assert_ (object_start_marker (_ah o) =? PVM_OBJECT_START_MARKER) "marker";;
  if negb (gc_flags (_ah o) =? g)
     && negb (alloc_flags (_ah o) =? PVM_OBJECT_AH_ALLOCATOR_FLAG_FREE) then
    (if flag (_flags o) PHANTOM_OBJECT_STORAGE_FLAG_IS_FINALIZER
     then call_finalizer p o else mret tt);;
    update p (set_refCount 0);;
    update p (set_alloc_flags PVM_OBJECT_AH_ALLOCATOR_FLAG_FREE);;
    mret 1
  else mret 0.

Fixpoint free_unmarked_loop (fuel : nat) (en curr freed : Z) : M vm Z :=
  match fuel with
  | O => diverge
  | S fuel' =>
      if curr <? en then
        n ← sweep_one curr;
        o ← load curr;
        free_unmarked_loop fuel' en (u32 (curr + exact_size (_ah o))) (i32 (freed + n))
      else mret freed
  end.

Definition free_unmarked : M vm Z :=
  s ← get;
  free_unmarked_loop (S (size (heap s))) (pvm_object_space_end s) (pvm_object_space_start s) 0.

(** ** Collection *)

(** The generation is an unsigned char that skips zero. *)
Definition next_generation (g : Z) : Z :=
  if u8 (g + 1) =? 0 then u8 (u8 (g + 1) + 1) else u8 (g + 1).

(** [get_root_object_storage()] is the start of the object space. *)
Definition run_gc : M vm Z :=
  modify (fun s => set_gc (i32 (gc_n_run s + 1)) (next_generation (gc_flags_last_generation s)) s);;
  s ← get;
  mark_tree (S (size (heap s))) (pvm_object_space_start s);;
  free_unmarked.

(** ** Properties

    The objects a reference leads to for the collector. *)
Definition ref_targets (r : pvm_object) : list Z :=
  if data r =? 0 then [] else [data r; interface r].

(** What the collector visits from an object. *)
Definition gc_refs (h : gmap Z pvm_object_storage) (o : pvm_object_storage) : list Z :=
  if is_childfree o then []
  else flat_map ref_targets (_class o :: default [] (own_refs h o)).

Definition gc_edge (h : gmap Z pvm_object_storage) (x y : Z) : Prop :=
  exists o, h !! x = Some o /\ y ∈ gc_refs h o.

Definition reachable (h : gmap Z pvm_object_storage) : Z -> Z -> Prop := rtc (gc_edge h).

(** An object the collector can visit. *)
Definition gc_ok (h : gmap Z pvm_object_storage) (x : Z) : Prop :=
  exists o, h !! x = Some o /\ is_alloc o /\
    object_start_marker (_ah o) = PVM_OBJECT_START_MARKER /\
    (is_childfree o = false -> is_Some (own_refs h o)).

(** Equality of heaps but for the mark. *)
Definition unmark (o : pvm_object_storage) : pvm_object_storage := set_gc_flags 0 o.
Definition same_but_marks (h h' : gmap Z pvm_object_storage) : Prop :=
  unmark <$> h = unmark <$> h'.

Definition marked (g : Z) (h : gmap Z pvm_object_storage) (x : Z) : Prop :=
  exists o, h !! x = Some o /\ gc_flags (_ah o) = g.

Definition n_unmarked (g : Z) (h : gmap Z pvm_object_storage) : nat :=
  msum (fun _ o => if gc_flags (_ah o) =? g then 0%nat else 1%nat) h.

Section MarkFacts.
Implicit Types (h : gmap Z pvm_object_storage) (o : pvm_object_storage).

#[export] Instance same_but_marks_equiv : Equivalence same_but_marks.
Proof. unfold same_but_marks. split; congruence. Qed.

Lemma erase_unmark h : erase <$> (unmark <$> h) = erase <$> h.
Proof. rewrite <- map_fmap_compose. by apply map_fmap_ext. Qed.

Lemma own_refs_marks h h' o o' :
  same_but_marks h h' -> unmark o = unmark o' -> own_refs h o = own_refs h' o'.
Proof.
  intros Hh Ho. rewrite (own_refs_erase h), (own_refs_erase h').
  rewrite <- (erase_unmark h), Hh, erase_unmark.
  by replace (erase o) with (erase o') by (change (erase (unmark o') = erase (unmark o)); by rewrite Ho).
Qed.

Lemma gc_refs_marks h h' o o' :
  same_but_marks h h' -> unmark o = unmark o' -> gc_refs h o = gc_refs h' o'.
Proof.
  intros Hh Ho. unfold gc_refs. rewrite (own_refs_marks h h' o o') by done.
  replace (is_childfree o) with (is_childfree o')
    by (change (is_childfree (unmark o') = is_childfree (unmark o)); by rewrite Ho).
  replace (_class o) with (_class o'); [done|].
  change (_class (unmark o') = _class (unmark o)). by rewrite Ho.
Qed.

Lemma marks_lookup h h' x o :
  same_but_marks h h' -> h !! x = Some o ->
  exists o', h' !! x = Some o' /\ unmark o = unmark o'.
Proof.
  intros Hh E. assert ((unmark <$> h) !! x = (unmark <$> h') !! x) as Hl by by rewrite Hh.
  rewrite !lookup_fmap, E in Hl. destruct (h' !! x) as [o'|]; [|done].
  exists o'. split; [done|]. by apply (inj Some) in Hl.
Qed.

Lemma marks_insert h x o g :
  h !! x = Some o -> same_but_marks h (<[x := set_gc_flags g o]> h).
Proof.
  intros E. unfold same_but_marks. rewrite fmap_insert.
  symmetry. apply insert_id. rewrite lookup_fmap, E. done.
Qed.

Lemma n_unmarked_mark g h x o :
  h !! x = Some o -> gc_flags (_ah o) <> g ->
  n_unmarked g h = S (n_unmarked g (<[x := set_gc_flags g o]> h)).
Proof.
  intros E Hne.
  pose proof (msum_upd (fun _ o => if gc_flags (_ah o) =? g then 0%nat else 1%nat)
    h x o (set_gc_flags g o) E) as H.
  simpl in H. rewrite Z.eqb_refl in H. unfold n_unmarked.
  destruct (Z.eqb_spec (gc_flags (_ah o)) g); [done|]. lia.
Qed.

Lemma n_unmarked_le g h h' :
  same_but_marks h h' -> (forall x, marked g h x -> marked g h' x) ->
  (n_unmarked g h' <= n_unmarked g h)%nat.
Proof.
  intros Hh Hm. apply msum_le. intros x o' E' Hpos.
  destruct (marks_lookup h' h x o') as (o & E & _); [by symmetry|done|].
  exists o. split; [done|]. destruct (Z.eqb_spec (gc_flags (_ah o)) g) as [Eg|].
  - destruct (Hm x) as (q & Eq & Hq); [by exists o|].
    rewrite E' in Eq. injection Eq as <-. rewrite Hq, Z.eqb_refl in Hpos. lia.
  - destruct (_ =? _); lia.
Qed.
End MarkFacts.

Section MarkSpec.
(** The heap when marking starts and the generation. *)
Context (h0 : gmap Z pvm_object_storage) (g root : Z).
Hypothesis Hroot : forall x, reachable h0 root x -> gc_ok h0 x.
Implicit Types (s : vm).

(** States during marking. *)
Definition marking (s : vm) : Prop :=
  same_but_marks h0 (heap s) /\ gc_flags_last_generation s = g.

(** What visiting the objects [l] does. *)
Record visited (l : list Z) (s s' : vm) : Prop := {
  vi_state : s' = set_heap (heap s') s;
  vi_obj x : heap s' !! x = heap s !! x \/
    exists o, heap s !! x = Some o /\ heap s' !! x = Some (set_gc_flags g o);
  vi_done y : y ∈ l -> marked g (heap s') y;
  vi_new x : marked g (heap s') x -> marked g (heap s) x \/
    exists y, y ∈ l /\ reachable h0 y x;
  vi_closed x y : marked g (heap s') x -> ~ marked g (heap s) x -> gc_edge h0 x y ->
    marked g (heap s') y;
}.

Lemma visited_mono l s s' x : visited l s s' -> marked g (heap s) x -> marked g (heap s') x.
Proof.
  intros Hv (o & E & Hg). destruct (vi_obj _ _ _ Hv x) as [Eq|(q & Eq & Eq')].
  - exists o. by rewrite Eq.
  - by exists (set_gc_flags g q).
Qed.

Lemma visited_marking l s s' : visited l s s' -> marking s -> marking s'.
Proof.
  intros Hv [Hm Hg]. split.
  - transitivity (heap s); [done|]. apply map_eq. intros x. rewrite !lookup_fmap.
    destruct (vi_obj _ _ _ Hv x) as [->|(o & -> & ->)]; done.
  - rewrite (vi_state _ _ _ Hv). done.
Qed.

Lemma visited_unmarked l s s' :
  visited l s s' -> marking s -> (n_unmarked g (heap s') <= n_unmarked g (heap s))%nat.
Proof.
  intros Hv Hm. apply n_unmarked_le.
  - destruct (visited_marking l s s' Hv Hm) as [H _]. destruct Hm as [H' _].
    transitivity h0; [by symmetry|done].
  - intros x. by eapply visited_mono.
Qed.

Lemma visited_nil s : visited [] s s.
Proof.
  split.
  - by destruct s.
  - by left.
  - intros y Hy. by apply not_elem_of_nil in Hy.
  - by left.
  - done.
Qed.

Lemma marked_dec h x : Decision (marked g h x).
Proof.
  unfold marked. destruct (h !! x) as [o|] eqn:E.
  - destruct (decide (gc_flags (_ah o) = g)); [left; eauto|right; naive_solver].
  - right. naive_solver.
Defined.

Lemma visited_app l1 l2 s s1 s2 :
  visited l1 s s1 -> visited l2 s1 s2 -> visited (l1 ++ l2) s s2.
Proof.
  intros V1 V2. split.
  - rewrite (vi_state _ _ _ V2), (vi_state _ _ _ V1). done.
  - intros x. destruct (vi_obj _ _ _ V2 x) as [->|(o & E & ->)]; [apply V1|].
    right. destruct (vi_obj _ _ _ V1 x) as [<-|(q & Eq & Eq')]; [eauto|].
    exists q. split; [done|]. rewrite E in Eq'. by injection Eq' as ->.
  - intros y [Hy|Hy]%elem_of_app; [|by apply V2].
    eapply visited_mono; [done|]. by apply V1.
  - intros x Hx. destruct (vi_new _ _ _ V2 x Hx) as [Hx1|(y & ? & ?)].
    + destruct (vi_new _ _ _ V1 x Hx1) as [|(y & ? & ?)]; [by left|right].
      exists y. rewrite elem_of_app. auto.
    + right. exists y. rewrite elem_of_app. auto.
  - intros x y Hx Hn He. destruct (marked_dec (heap s1) x) as [H1|H1].
    + eapply visited_mono; [done|]. by eapply (vi_closed _ _ _ V1).
    + by eapply (vi_closed _ _ _ V2).
Qed.

Definition marks_tree (n : nat) (rec : Z -> M vm unit) : Prop :=
  forall p s, reachable h0 root p -> marking s -> ~ marked g (heap s) p ->
    (n_unmarked g (heap s) <= n)%nat -> wp (rec p) s (fun _ s' => visited [p] s s').

Lemma mark_unless_marked_spec n rec p s :
  marks_tree n rec -> reachable h0 root p -> marking s ->
  (n_unmarked g (heap s) <= n)%nat ->
  wp (mark_unless_marked rec p) s (fun _ s' => visited [p] s s').
Proof.
  intros Hrec Hp Hm Hn. destruct (Hroot p Hp) as (o0 & E0 & _). pose proof Hm as [Hsm Hg].
  destruct (marks_lookup _ _ _ _ Hsm E0) as (o & E & _).
  unfold mark_unless_marked. wp_step. eapply wp_load; [done|]. wp_step. wp_step. rewrite Hg.
  destruct (Z.eqb_spec (gc_flags (_ah o)) g) as [Hgf|Hgf].
  - wp_step. destruct (visited_nil s) as [V1 V2 V3 V4 V5]. split; auto.
    intros y ->%list_elem_of_singleton. by exists o.
  - apply Hrec; try done. intros (q & Eq & Hq). congruence.
Qed.

(** Visiting one reference: its object and its interface. *)
Lemma mark_tree_o_spec n rec r s :
  marks_tree n rec -> (forall y, y ∈ ref_targets r -> reachable h0 root y) -> marking s ->
  (n_unmarked g (heap s) <= n)%nat ->
  wp (mark_tree_o rec r) s (fun _ s' => visited (ref_targets r) s s').
Proof.
  intros Hrec Hr Hm Hn. unfold mark_tree_o, ref_targets in *.
  destruct (data r =? 0); [wp_step; apply visited_nil|].
  wp_step. eapply wp_mono; [eapply mark_unless_marked_spec; try done; apply Hr; set_solver|].
  intros [] s1 V1. eapply wp_mono; [eapply mark_unless_marked_spec; try done|].
  - apply Hr. set_solver.
  - by eapply visited_marking.
  - pose proof (visited_unmarked _ _ _ V1 Hm). lia.
  - intros [] s2 V2. by apply (visited_app [data r] [interface r] s s1 s2).
Qed.

Lemma mark_list_spec n rec l s :
  marks_tree n rec -> (forall y, y ∈ flat_map ref_targets l -> reachable h0 root y) ->
  marking s -> (n_unmarked g (heap s) <= n)%nat ->
  wp (for_each (mark_tree_o rec) l) s (fun _ s' => visited (flat_map ref_targets l) s s').
Proof.
  intros Hrec. revert s. induction l as [|r l IH]; intros s Hl Hm Hn; simpl in *.
  - wp_step. apply visited_nil.
  - wp_step. eapply wp_mono; [eapply mark_tree_o_spec; try done; set_solver|].
    intros [] s1 V1. eapply wp_mono; [apply IH|].
    + set_solver.
    + by eapply visited_marking.
    + pose proof (visited_unmarked _ _ _ V1 Hm). lia.
    + intros [] s2 V2. by eapply visited_app.
Qed.

(** Marking [p] itself, then everything it refers to. *)
Lemma visited_self p o s s' :
  reachable h0 root p -> marking s -> heap s !! p = Some o ->
  visited (gc_refs (heap s) o) (set_heap (<[p := set_gc_flags g o]> (heap s)) s) s' ->
  visited [p] s s'.
Proof.
  intros Hp Hm E V. pose proof Hm as [Hsm _].
  destruct (marks_lookup (heap s) h0 p o) as (o0 & E0 & Ho); [by symmetry|done|].
  assert (gc_refs (heap s) o = gc_refs h0 o0) as Hrefs by (apply gc_refs_marks; [by symmetry|done]).
  assert (marked g (heap s') p) as Hpm.
  { eapply visited_mono; [done|]. exists (set_gc_flags g o). simpl. by rewrite lookup_insert_eq. }
  assert (forall x, marked g (<[p := set_gc_flags g o]> (heap s)) x -> marked g (heap s) x \/ x = p) as H1.
  { intros x (q & Eq & Hq). destruct (decide (x = p)); [by right|left].
    rewrite lookup_insert_ne in Eq by done. by exists q. }
  split.
  - by rewrite (vi_state _ _ _ V).
  - intros x. destruct (vi_obj _ _ _ V x) as [Eq|(q & Eq & Eq')]; simpl in *.
    + destruct (decide (x = p)) as [->|]; [right; exists o|left].
      * by rewrite Eq, lookup_insert_eq.
      * by rewrite Eq, lookup_insert_ne.
    + right. destruct (decide (x = p)) as [->|].
      * rewrite lookup_insert_eq in Eq. injection Eq as <-. by exists o.
      * rewrite lookup_insert_ne in Eq by done. by exists q.
  - by intros y ->%list_elem_of_singleton.
  - intros x Hx. destruct (vi_new _ _ _ V x Hx) as [Hx1|(y & Hy & Hr)].
    + destruct (H1 x Hx1) as [| ->]; [by left|right]. exists p. split; [by left|]. by apply rtc_refl.
    + right. exists p. split; [by left|]. eapply rtc_l; [|done].
      exists o0. rewrite <- Hrefs. done.
  - intros x y Hx Hn He. destruct (decide (x = p)) as [->|Hne].
    + destruct He as (q & Eq & Hy). simplify_eq. apply V. by rewrite Hrefs.
    + eapply (vi_closed _ _ _ V); [done| |done]. intros Hx1. by destruct (H1 x Hx1).
Qed.

Lemma mark_tree_body_spec n rec : marks_tree n rec -> marks_tree (S n) (mark_tree_body rec).
Proof.
  intros Hrec p s Hp Hm Hnm Hn. destruct (Hroot p Hp) as (o0 & E0 & Ha0 & Hmk0 & Hr0).
  pose proof Hm as [Hsm Hg]. destruct (marks_lookup _ _ _ _ Hsm E0) as (o & E & Ho).
  set (o1 := set_gc_flags g o). set (s1 := set_heap (<[p := o1]> (heap s)) s).
  assert (heap s1 !! p = Some o1) as E1 by apply lookup_insert_eq.
  assert (same_but_marks (heap s) (heap s1)) as Hs1 by by apply marks_insert.
  assert (marking s1) as Hm1 by (split; [by transitivity (heap s)|done]).
  assert (n_unmarked g (heap s1) <= n)%nat as Hn1.
  { rewrite (n_unmarked_mark g (heap s) p o E) in Hn; [change (heap s1) with (<[p := set_gc_flags g o]> (heap s)); lia|].
    intros Hq. apply Hnm. by exists o. }
  assert (forall y, y ∈ gc_refs (heap s) o -> reachable h0 root y) as Hreach.
  { intros y Hy. eapply rtc_r; [done|]. exists o0. split; [done|].
    by rewrite (gc_refs_marks h0 (heap s) o0 o). }
  unfold mark_tree_body. wp_step. wp_step. rewrite Hg. wp_step. eapply wp_update; [done|].
  fold o1 s1. wp_step. eapply wp_load; [done|].
  assert (object_start_marker (_ah o) = PVM_OBJECT_START_MARKER) as Hmk.
  { change (object_start_marker (_ah (unmark o)) = PVM_OBJECT_START_MARKER). by rewrite <- Ho. }
  assert (is_alloc o) as Ha by (change (is_alloc (unmark o)); by rewrite <- Ho).
  wp_step. wp_step; [by apply Z.eqb_eq|]. wp_step. wp_step; [by apply Is_true_true|].
  change (is_childfree o1) with (is_childfree o). destruct (is_childfree o) eqn:Hcf.
  - wp_step. eapply visited_self; try done. unfold gc_refs. rewrite Hcf. apply visited_nil.
  - destruct Hr0 as [refs Hrefs].
    { change (is_childfree (unmark o0) = false). by rewrite Ho. }
    assert (own_refs (heap s) o = Some refs) as Hrs by by rewrite <- (own_refs_marks h0 _ o0).
    unfold gc_refs in Hreach. rewrite Hcf, Hrs in Hreach. simpl in Hreach.
    unfold gc_process_children. wp_step. eapply wp_load; [done|]. wp_step.
    eapply wp_mono; [eapply mark_tree_o_spec; try done; intros y Hy; apply Hreach; set_solver|].
    intros [] s2 V1. pose proof (visited_marking _ _ _ V1 Hm1) as Hm2.
    wp_step. wp_step. wp_step. wp_step.
    { rewrite <- (own_refs_marks h0 (heap s2) o0 o1); [done|apply Hm2|done]. }
    eapply wp_mono; [eapply mark_list_spec; try done|].
    + intros y Hy. apply Hreach. set_solver.
    + pose proof (visited_unmarked _ _ _ V1 Hm1). lia.
    + intros [] s3 V2. eapply visited_self; try done.
      unfold gc_refs. rewrite Hcf, Hrs. simpl. by eapply visited_app.
Qed.

Lemma mark_tree_spec n : marks_tree n (mark_tree (S n)).
Proof.
  induction n as [|n IH].
  - intros p s Hp Hm Hnm Hn. exfalso. destruct (Hroot p Hp) as (o0 & E0 & _).
    destruct Hm as [Hsm _]. destruct (marks_lookup _ _ _ _ Hsm E0) as (o & E & _).
    rewrite (n_unmarked_mark g (heap s) p o E) in Hn; [lia|]. intros Hq. apply Hnm. by exists o.
  - intros p s. apply (mark_tree_body_spec n (mark_tree (S n)) IH p s).
Qed.
End MarkSpec.

(** The mark phase marks exactly what the root reaches. *)
Lemma mark_phase_spec g root s :
  (forall x, reachable (heap s) root x -> gc_ok (heap s) x) ->
  gc_flags_last_generation s = g ->
  (forall x o, alloc_at (heap s) x = Some o -> gc_flags (_ah o) <> g) ->
  wp (mark_tree (S (size (heap s))) root) s (fun _ s' =>
    visited (heap s) g [root] s s' /\
    forall x, reachable (heap s) root x <->
      marked g (heap s') x /\ exists o, alloc_at (heap s) x = Some o).
Proof.
  intros Hok Hg Hun.
  assert (forall x, reachable (heap s) root x -> ~ marked g (heap s) x /\
    exists o, alloc_at (heap s) x = Some o) as Hfresh.
  { intros x Hx. destruct (Hok x Hx) as (o & E & Ha & _).
    assert (alloc_at (heap s) x = Some o) as Hat by by apply alloc_at_Some.
    split; [|eauto]. intros (q & Eq & Hq). simplify_eq. by apply (Hun x o). }
  eapply wp_mono; [eapply (mark_tree_spec (heap s) g root)|]; try done.
  - apply Hfresh. by apply rtc_refl.
  - apply msum_le_size. intros k o _. destruct (_ =? _); lia.
  - intros [] s' V. split; [done|]. intros x. split.
    + intros Hx. split; [|by apply Hfresh]. revert x Hx.
      apply (rtc_ind_r (fun x => marked g (heap s') x) root).
      * apply V. by left.
      * intros y z Hx He IH. eapply (vi_closed _ _ _ _ _ V); [done| |done]. by apply Hfresh.
    + intros [Hx (o & Ho)]. destruct (vi_new _ _ _ _ _ V x Hx) as [(q & Eq & Hq)|(y & Hy & Hr)].
      * apply alloc_at_Some in Ho as [Eo Ha]. simplify_eq. exfalso. apply (Hun x o); [|done].
        by apply alloc_at_Some.
      * by apply list_elem_of_singleton in Hy as ->.
Qed.

(** What the sweep does to one object. *)
Definition is_garbage (g : Z) (o : pvm_object_storage) : bool :=
  negb (gc_flags (_ah o) =? g) && negb (alloc_flags (_ah o) =? PVM_OBJECT_AH_ALLOCATOR_FLAG_FREE).

Definition sweep_obj (g : Z) (o : pvm_object_storage) : pvm_object_storage :=
  if is_garbage g o
  then set_alloc_flags PVM_OBJECT_AH_ALLOCATOR_FLAG_FREE (set_refCount 0 o) else o.

(** The objects whose finalizer is called. *)
Definition finalizes (g : Z) (h : gmap Z pvm_object_storage) (x : Z) : Prop :=
  exists o ic, h !! x = Some o /\ is_garbage g o /\
    flag (_flags o) PHANTOM_OBJECT_STORAGE_FLAG_IS_FINALIZER /\
    class_of h o = Some ic /\ ic_finalizer ic.

(** Only the heap and the finalizer log change. *)
Definition swept_vm (s0 : vm) (h : gmap Z pvm_object_storage) (fin : list Z) : vm :=
  mkVM h (pvm_object_space_start s0) (pvm_object_space_end s0) (start_a s0) (end_a s0)
    (curr_a s0) (gc_n_run s0) (gc_flags_last_generation s0) (pvm_root s0) (class_objects s0)
    fin (snap_request s0).

Section Sweep.
Context (h0 : gmap Z pvm_object_storage) (g : Z).
Hypothesis Hfin : forall x o, h0 !! x = Some o -> is_garbage g o ->
  flag (_flags o) PHANTOM_OBJECT_STORAGE_FLAG_IS_FINALIZER -> is_Some (class_of h0 o).
Implicit Types (s : vm).

(** The state when the blocks in [l] have been swept. *)
Record sweeping (s0 : vm) (l : list Z) (s : vm) : Prop := {
  sw_state : s = swept_vm s0 (heap s) (finalized s);
  sw_in x : x ∈ l -> heap s !! x = sweep_obj g <$> h0 !! x;
  sw_out x : x ∉ l -> heap s !! x = h0 !! x;
  sw_final x : x ∈ finalized s <-> x ∈ finalized s0 \/ (x ∈ l /\ finalizes g h0 x);
}.

Lemma sweep_erase o : erase (sweep_obj g o) = erase o.
Proof. unfold sweep_obj. by destruct (is_garbage g o). Qed.

Lemma sweeping_erase s0 l s : sweeping s0 l s -> erase <$> heap s = erase <$> h0.
Proof.
  intros Hs. apply map_eq. intros x. rewrite !lookup_fmap.
  destruct (decide (x ∈ l)) as [Hx|Hx].
  - rewrite (sw_in _ _ _ Hs x Hx). destruct (h0 !! x); simpl; [by rewrite sweep_erase|done].
  - by rewrite (sw_out _ _ _ Hs x Hx).
Qed.

Lemma sweeping_class s0 l s o : sweeping s0 l s -> class_of (heap s) o = class_of h0 o.
Proof. intros Hs. by rewrite class_of_erase, (sweeping_erase _ _ _ Hs), <- class_of_erase. Qed.

(** The finalizer call of the sweep. *)
Lemma sweep_finalizer_spec s0 l p o s :
  sweeping s0 l s -> h0 !! p = Some o -> is_garbage g o ->
  wp (if flag (_flags o) PHANTOM_OBJECT_STORAGE_FLAG_IS_FINALIZER
      then call_finalizer p o else mret tt) s (fun _ s' =>
    exists fin, s' = swept_vm s0 (heap s) fin /\
      forall x, x ∈ fin <-> x ∈ finalized s \/ (x = p /\ finalizes g h0 x)).
Proof.
  intros Hs E Hgb. specialize (Hfin p o E Hgb).
  destruct (flag _ _) eqn:Hfl.
  - destruct Hfin as [ic Hic]; [done|].
    unfold call_finalizer. wp_step. wp_step. wp_step. wp_step; [by rewrite (sweeping_class _ _ _ _ Hs)|].
    destruct (ic_finalizer ic) eqn:Hf; wp_step.
    + exists (p :: finalized s). split; [by rewrite (sw_state _ _ _ Hs)|].
      intros x. rewrite elem_of_cons. split; [|naive_solver]. intros [->|]; [right|by left].
      split; [done|]. exists o, ic. by rewrite Hfl, Hf.
    + exists (finalized s). split; [apply (sw_state _ _ _ Hs)|].
      intros x. split; [by left|]. intros [|(-> & q & ic' & Eq & _ & _ & Hc & Hf')]; [done|].
      simplify_eq. by rewrite Hf in Hf'.
  - wp_step. exists (finalized s). split; [apply (sw_state _ _ _ Hs)|].
    intros x. split; [by left|]. intros [|(-> & q & ic' & Eq & _ & Hq & _)]; [done|].
    simplify_eq. by rewrite Hfl in Hq.
Qed.

Lemma sweep_one_spec s0 l p o s :
  sweeping s0 l s -> gc_flags_last_generation s0 = g -> h0 !! p = Some o -> p ∉ l ->
  object_start_marker (_ah o) = PVM_OBJECT_START_MARKER ->
  wp (sweep_one p) s (fun _ s' => sweeping s0 (p :: l) s').
Proof.
  intros Hs Hg E Hp Hm. pose proof (sw_out _ _ _ Hs p Hp) as Ep. rewrite E in Ep.
  assert (gc_flags_last_generation s = g) as Hgs by (rewrite (sw_state _ _ _ Hs); done).
  unfold sweep_one. wp_step. eapply wp_load; [done|]. wp_step. wp_step. rewrite Hgs.
  wp_step. wp_step; [by apply Z.eqb_eq|]. fold (is_garbage g o).
  assert (forall fin, (forall x, x ∈ fin <-> x ∈ finalized s \/ (x = p /\ finalizes g h0 x)) ->
    sweeping s0 (p :: l) (swept_vm s0 (<[p := sweep_obj g o]> (heap s)) fin)) as Hnew.
  { intros fin Hf. split; simpl.
    - done.
    - intros x Hx. destruct (decide (x = p)) as [->|].
      + by rewrite lookup_insert_eq, E.
      + rewrite lookup_insert_ne by done. apply (sw_in _ _ _ Hs). by apply elem_of_cons in Hx as [->|].
    - intros x [Hx1 Hx2]%not_elem_of_cons. rewrite lookup_insert_ne by done. by apply (sw_out _ _ _ Hs).
    - intros x. rewrite Hf, (sw_final _ _ _ Hs), elem_of_cons. naive_solver. }
  destruct (is_garbage g o) eqn:Hgb.
  - wp_step. eapply (wp_mono _ _ (fun _ s' => exists fin, s' = swept_vm s0 (heap s) fin /\
      forall x, x ∈ fin <-> x ∈ finalized s \/ (x = p /\ finalizes g h0 x))).
    + apply sweep_finalizer_spec with (l := l); [done|done|by rewrite Hgb].
    + intros [] s1 (fin & -> & Hf). wp_step. eapply wp_update; [done|]. wp_step.
      eapply wp_update; [apply lookup_insert_eq|]. wp_step. simpl. rewrite insert_insert_eq.
      specialize (Hnew fin Hf). unfold sweep_obj in Hnew. rewrite Hgb in Hnew. exact Hnew.
  - wp_step. rewrite (sw_state _ _ _ Hs). specialize (Hnew (finalized s)).
    unfold sweep_obj in Hnew. rewrite Hgb, (insert_id _ _ _ Ep) in Hnew. apply Hnew.
    intros x. split; [by left|]. intros [|(-> & q & ic & Eq & Hq & _)]; [done|].
    simplify_eq. by rewrite Hgb in Hq.
Qed.

Lemma free_unmarked_loop_spec fuel s0 en bl : forall curr l s freed,
  sweeping s0 l s -> gc_flags_last_generation s0 = g -> 0 <= curr -> en < space_limit ->
  tiled h0 en curr bl -> (forall x, x ∈ l -> x < curr) -> (length bl < fuel)%nat ->
  wp (free_unmarked_loop fuel en curr freed) s (fun _ s' => sweeping s0 (rev bl ++ l) s').
Proof.
  unfold space_limit. revert bl. induction fuel as [|fuel IH];
    intros bl curr l s freed Hs Hg Hc He Ht Hl Hf; [lia|].
  simpl. inversion Ht as [|? o bl' E (Hm & Hsz & _) Ht']; subst bl; subst.
  - rewrite Z.ltb_irrefl. by wp_step.
  - pose proof (tiled_cons_lt _ _ _ _ _ Ht). pose proof (tiled_le _ _ _ _ Ht').
    unfold sizeof_storage in Hsz. destruct (Z.ltb_spec curr en); [|lia].
    assert (curr ∉ l) as Hnin by (intros Hin; apply Hl in Hin; lia).
    wp_step. eapply wp_mono; [by eapply sweep_one_spec|]. intros n s1 Hs1. wp_step.
    eapply wp_load; [rewrite (sw_in _ _ _ Hs1), E by (by left); done|].
    assert (exact_size (_ah (sweep_obj g o)) = exact_size (_ah o)) as ->
      by (unfold sweep_obj; by destruct (is_garbage g o)).
    rewrite u32_id by lia.
    replace (rev (curr :: bl') ++ l) with (rev bl' ++ curr :: l) by (simpl; by rewrite <- app_assoc).
    apply IH; try done; try lia.
    + intros x [->|Hx]%elem_of_cons; [lia|]. specialize (Hl x Hx). lia.
    + simpl in Hf. lia.
Qed.
End Sweep.

(** Allocated objects carry the last generation, or zero since their allocation. *)
Definition gen_ok (s : vm) : Prop :=
  0 <= gc_flags_last_generation s < 256 /\
  forall x o, alloc_at (heap s) x = Some o ->
    gc_flags (_ah o) = 0 \/ gc_flags (_ah o) = gc_flags_last_generation s.

(** Preconditions of a collection: the sweep can find the finalizers. *)
Definition finalizers_ok (h : gmap Z pvm_object_storage) : Prop :=
  forall x o, alloc_at h x = Some o ->
    flag (_flags o) PHANTOM_OBJECT_STORAGE_FLAG_IS_FINALIZER -> is_Some (class_of h o).

Section Collect.
Implicit Types (s : vm).

Lemma next_generation_spec g :
  0 <= g < 256 -> 0 < next_generation g < 256 /\ next_generation g <> g.
Proof.
  intros Hg. unfold next_generation. destruct (decide (g = 255)) as [->|].
  - vm_compute. done.
  - assert (u8 (g + 1) = g + 1) as -> by (apply wrapU_id; lia).
    destruct (Z.eqb_spec (g + 1) 0); lia.
Qed.

(** The arenas together cover the object space. *)
Lemma tiled_space s :
  layout_wf s -> exists bl, tiled (heap s) (pvm_object_space_end s) (pvm_object_space_start s) bl /\
    forall x o, heap s !! x = Some o -> x ∈ bl.
Proof.
  intros Hl. destruct (lw_len _ Hl) as (H1 & H2 & _). destruct (lw_cover _ Hl) as (C1 & C2 & C3).
  pose proof (lw_arena _ Hl) as Har. pose proof (lw_all _ Hl) as Hall. unfold is_arena in *.
  destruct (start_a s) as [|a0 [|a1 [|a2 [|a3 [|a4 [|]]]]]]; try discriminate H1.
  destruct (end_a s) as [|e0 [|e1 [|e2 [|e3 [|e4 [|]]]]]]; try discriminate H2.
  simpl in *. injection C1 as ->. injection C2 as -> -> -> ->. injection C3 as ->.
  destruct (Har 0%nat _ _ (conj eq_refl eq_refl)) as (_ & _ & b0 & T0 & K0 & _).
  destruct (Har 1%nat _ _ (conj eq_refl eq_refl)) as (_ & _ & b1 & T1 & K1 & _).
  destruct (Har 2%nat _ _ (conj eq_refl eq_refl)) as (_ & _ & b2 & T2 & K2 & _).
  destruct (Har 3%nat _ _ (conj eq_refl eq_refl)) as (_ & _ & b3 & T3 & K3 & _).
  destruct (Har 4%nat _ _ (conj eq_refl eq_refl)) as (_ & _ & b4 & T4 & K4 & _).
  exists (b0 ++ b1 ++ b2 ++ b3 ++ b4). split; [repeat (eapply tiled_app; [done|]); done|].
  intros x o E. rewrite !elem_of_app. destruct (Hall x o E) as (i & st & en & [Hi Hi'] & Hx).
  do 5 (destruct i as [|i]; [simplify_eq/=; eauto 8|]). done.
Qed.

(** What a collection does to the object [o] at [x]: reachable objects are only
    marked, the other allocated ones are freed. *)
Definition collected_obj (g root : Z) (h : gmap Z pvm_object_storage) (x : Z)
    (o o' : pvm_object_storage) : Prop :=
  (is_alloc o ->
    (reachable h root x /\ o' = set_gc_flags g o) \/
    (~ reachable h root x /\
     o' = set_alloc_flags PVM_OBJECT_AH_ALLOCATOR_FLAG_FREE (set_refCount 0 o))) /\
  (is_alloc o = false -> is_alloc o' = false) /\
  exact_size (_ah o') = exact_size (_ah o) /\ (block_ok o -> block_ok o') /\
  erase o' = erase o.

Lemma sweep_block_ok g o : block_ok o -> block_ok (sweep_obj g o).
Proof.
  unfold sweep_obj. destruct (is_garbage g o); [|done]. intros (? & ? & ? & _).
  split_and!; try done. by left.
Qed.

Lemma collected_sweep g root h x o o2 m :
  block_ok o -> h !! x = Some o ->
  (is_alloc o -> gc_flags (_ah o) <> g) ->
  o2 = o \/ o2 = set_gc_flags g o ->
  (gc_flags (_ah o2) = g <-> m) -> (is_alloc o -> (reachable h root x <-> m)) ->
  collected_obj g root h x o (sweep_obj g o2).
Proof.
  intros Hok E Hg Ho2 Hm Hr.
  assert (is_alloc o2 = is_alloc o /\ exact_size (_ah o2) = exact_size (_ah o) /\
    (block_ok o -> block_ok o2) /\ alloc_flags (_ah o2) = alloc_flags (_ah o)) as (Ha & Hs & Hb & Hf)
    by (destruct Ho2 as [->| ->]; done).
  split_and!.
  - intros Hal. unfold sweep_obj, is_garbage. rewrite Hr, <- Hm by done.
    destruct (Z.eqb_spec (gc_flags (_ah o2)) g) as [Hx|Hx]; simpl; [left|right].
    + split; [done|]. destruct Ho2 as [->|]; [|done]. by destruct (Hg Hal).
    + split; [done|]. destruct Ho2 as [->| ->]; [|by destruct Hx].
      destruct (Z.eqb_spec (alloc_flags (_ah o)) PVM_OBJECT_AH_ALLOCATOR_FLAG_FREE) as [Hz|]; [|done].
      apply free_not_alloc in Hz. by rewrite Hz in Hal.
  - intros Hna. unfold sweep_obj. destruct (is_garbage g o2); [done|congruence].
  - unfold sweep_obj. by destruct (is_garbage g o2).
  - intros _. by apply sweep_block_ok, Hb.
  - rewrite sweep_erase. by destruct Ho2 as [->| ->].
Qed.

Lemma layout_block_ok s x o : layout_wf s -> heap s !! x = Some o -> block_ok o.
Proof.
  intros Hl E. destruct (tiled_space s Hl) as (bl & Ht & Hall).
  destruct (tiled_in _ _ _ _ _ Ht (Hall x o E)) as (_ & q & Eq & Hok & _). by simplify_eq.
Qed.

Lemma elem_of_reverse_rev (x : Z) l : x ∈ l -> x ∈ rev l.
Proof. rewrite !list_elem_of_In. apply in_rev. Qed.

Lemma garbage_alloc g o : block_ok o -> is_garbage g o -> is_alloc o.
Proof.
  intros Hok Hgb. apply Is_true_true. apply block_ok_cases; [done|]. intros Hf.
  unfold is_garbage in Hgb. rewrite Hf in Hgb. by rewrite andb_false_r in Hgb.
Qed.

Lemma class_of_marks h h' o o' :
  same_but_marks h h' -> unmark o = unmark o' -> class_of h o = class_of h' o'.
Proof.
  intros Hh Ho. rewrite (class_of_erase h), (class_of_erase h').
  rewrite <- (erase_unmark h), Hh, erase_unmark.
  by replace (erase o) with (erase o') by (change (erase (unmark o') = erase (unmark o)); by rewrite Ho).
Qed.

(** Garbage has a class when every allocated object with a finalizer has one. *)
Lemma sweep_finalizers_ok g h h' x o' :
  same_but_marks h h' -> finalizers_ok h -> (forall x o, h !! x = Some o -> block_ok o) ->
  h' !! x = Some o' -> is_garbage g o' ->
  flag (_flags o') PHANTOM_OBJECT_STORAGE_FLAG_IS_FINALIZER -> is_Some (class_of h' o').
Proof.
  intros Hsm Hf Hbo E' Hgb Hfl.
  destruct (marks_lookup h' h x o') as (o & E & Ho); [by symmetry|done|].
  rewrite <- (class_of_marks h h' o o') by done. eapply (Hf x).
  - apply alloc_at_Some. split; [done|]. change (is_alloc (unmark o)). rewrite <- Ho.
    change (is_alloc o'). apply (garbage_alloc g); [|done].
    specialize (Hbo x o E). change (block_ok (unmark o)) in Hbo. by rewrite <- Ho in Hbo.
  - replace (_flags o) with (_flags o'); [done|].
    change (_flags (unmark o') = _flags (unmark o)). by rewrite Ho.
Qed.

(** The finalizers the sweep calls are those of unreachable objects. *)
Lemma finalizes_iff g root h h' x :
  same_but_marks h h' -> (forall x o, h !! x = Some o -> block_ok o) ->
  (forall x, reachable h root x <-> marked g h' x /\ exists o, alloc_at h x = Some o) ->
  finalizes g h' x <-> exists o ic, alloc_at h x = Some o /\ ~ reachable h root x /\
    flag (_flags o) PHANTOM_OBJECT_STORAGE_FLAG_IS_FINALIZER /\
    class_of h o = Some ic /\ ic_finalizer ic.
Proof.
  intros Hsm Hbo Hr. split.
  - intros (o' & ic & E' & Hgb & Hfl & Hc & Hf).
    destruct (marks_lookup h' h x o') as (o & E & Ho); [by symmetry|done|].
    exists o, ic. split_and!; try done.
    + apply alloc_at_Some. split; [done|]. change (is_alloc (unmark o)). rewrite <- Ho.
      change (is_alloc o'). apply (garbage_alloc g); [|done].
      specialize (Hbo x o E). change (block_ok (unmark o)) in Hbo. by rewrite <- Ho in Hbo.
    + rewrite Hr. intros [(q & Eq & Hq) _]. simplify_eq.
      unfold is_garbage in Hgb. rewrite Z.eqb_refl in Hgb. done.
    + change (flag (_flags (unmark o)) PHANTOM_OBJECT_STORAGE_FLAG_IS_FINALIZER). by rewrite <- Ho.
    + by rewrite (class_of_marks h h' o o').
  - intros (o & ic & [E Ha]%alloc_at_Some & Hnr & Hfl & Hc & Hf).
    destruct (marks_lookup h h' x o) as (o' & E' & Ho); [done|done|].
    exists o', ic. split_and!; try done.
    + unfold is_garbage. destruct (Z.eqb_spec (gc_flags (_ah o')) g) as [Hg|].
      { exfalso. apply Hnr, Hr. split; [by exists o'|]. exists o. by apply alloc_at_Some. }
      destruct (Z.eqb_spec (alloc_flags (_ah o')) PVM_OBJECT_AH_ALLOCATOR_FLAG_FREE) as [Hz|]; [|done].
      exfalso. apply free_not_alloc in Hz. change (is_alloc (unmark o') = false) in Hz.
      rewrite <- Ho in Hz. change (is_alloc o = false) in Hz. by rewrite Hz in Ha.
    + change (flag (_flags (unmark o')) PHANTOM_OBJECT_STORAGE_FLAG_IS_FINALIZER). by rewrite <- Ho.
    + by rewrite <- (class_of_marks h h' o o').
Qed.

(** The collection as a whole. *)
Lemma run_gc_spec s :
  heap_wf s -> gen_ok s -> finalizers_ok (heap s) ->
  (forall x, reachable (heap s) (pvm_object_space_start s) x -> gc_ok (heap s) x) ->
  let g := next_generation (gc_flags_last_generation s) in
  wp run_gc s (fun _ s' =>
    (forall x o, heap s !! x = Some o -> exists o', heap s' !! x = Some o' /\
      collected_obj g (pvm_object_space_start s) (heap s) x o o') /\
    (forall x o', heap s' !! x = Some o' -> exists o, heap s !! x = Some o) /\
    s' = swept_vm (set_gc (i32 (gc_n_run s + 1)) g s) (heap s') (finalized s') /\
    (forall x, x ∈ finalized s' <-> x ∈ finalized s \/ exists o ic,
      alloc_at (heap s) x = Some o /\ ~ reachable (heap s) (pvm_object_space_start s) x /\
      flag (_flags o) PHANTOM_OBJECT_STORAGE_FLAG_IS_FINALIZER /\
      class_of (heap s) o = Some ic /\ ic_finalizer ic)).
Proof.
  intros [Hl Hal] [Hg Hgen] Hfz Hok g. set (root := pvm_object_space_start s).
  destruct (next_generation_spec _ Hg) as [Hg1 Hg2]. fold g in Hg1, Hg2.
  set (s1 := set_gc (i32 (gc_n_run s + 1)) g s).
  assert (forall x o, alloc_at (heap s) x = Some o -> gc_flags (_ah o) <> g) as Hun.
  { intros x o Ho. destruct (Hgen x o Ho); lia. }
  unfold run_gc. wp_step. wp_step. fold g s1. wp_step. wp_step. wp_step.
  eapply wp_mono; [by apply (mark_phase_spec g root s1)|]. intros [] s2 [V Hr].
  change (heap s1) with (heap s) in *.
  assert (forall x o, heap s !! x = Some o ->
    exists o2, heap s2 !! x = Some o2 /\ (o2 = o \/ o2 = set_gc_flags g o)) as Hobj.
  { intros x o E. destruct (vi_obj _ _ _ _ _ V x) as [Eq|(q & Eq & Eq')]; simpl in *.
    - exists o. rewrite Eq. auto.
    - simplify_eq. eauto. }
  assert (forall x o2, heap s2 !! x = Some o2 -> exists o, heap s !! x = Some o) as Hdom.
  { intros x o2 E. destruct (vi_obj _ _ _ _ _ V x) as [Eq|(q & Eq & _)]; simpl in *; [|eauto].
    rewrite Eq in E. eauto. }
  assert (layout_wf s2) as Hl2.
  { rewrite (vi_state _ _ _ _ _ V). apply (layout_wf_map s); [done|done| |done].
    intros x o E. destruct (Hobj x o E) as (o2 & E2 & [->| ->]); eauto. }
  assert (same_but_marks (heap s) (heap s2)) as Hsm
    by (apply (visited_marking _ g _ _ _ V); by split).
  destruct (tiled_space s2 Hl2) as (bl & Ht & Hall). destruct (lw_space _ Hl2) as [Hs1 Hs2].
  assert (forall x o, heap s !! x = Some o -> block_ok o) as Hbo
    by (intros x o; by apply (layout_block_ok s x o Hl)).
  unfold free_unmarked. wp_step. wp_step.
  eapply wp_mono; [apply (free_unmarked_loop_spec (heap s2) g) with (s0 := s2) (l := []) (bl := bl)|];
    try done; try lia.
  - intros x o E Hgb Hfl. by apply (sweep_finalizers_ok g (heap s) (heap s2) x o).
  - split; try done; [by destruct s2| |set_solver]. intros x Hx. by apply not_elem_of_nil in Hx.
  - by rewrite (vi_state _ _ _ _ _ V).
  - intros x Hx. by apply not_elem_of_nil in Hx.
  - pose proof (tiled_length _ _ _ _ Ht). lia.
  - intros n s3 Hsw. rewrite app_nil_r in Hsw. split_and!.
    + intros x o E. destruct (Hobj x o E) as (o2 & E2 & Ho2). exists (sweep_obj g o2).
      rewrite (sw_in _ _ _ _ _ Hsw), E2 by (apply elem_of_reverse_rev; eauto). split; [done|].
      apply (collected_sweep g root (heap s) x o o2 (marked g (heap s2) x)); eauto.
      * intros Ha. apply (Hun x). by apply alloc_at_Some.
      * split; [by exists o2|]. intros (q & Eq & Hq). by simplify_eq.
      * intros Ha. rewrite Hr. split; [by intros [? _]|]. intros Hm. split; [done|].
        exists o. by apply alloc_at_Some.
    + intros x o' E'. destruct (decide (x ∈ rev bl)) as [Hx|Hx].
      * rewrite (sw_in _ _ _ _ _ Hsw) in E' by done. destruct (heap s2 !! x) eqn:E2; [|done]. eauto.
      * rewrite (sw_out _ _ _ _ _ Hsw) in E' by done. eauto.
    + rewrite (sw_state _ _ _ _ _ Hsw), (vi_state _ _ _ _ _ V). done.
    + intros x. rewrite (sw_final _ _ _ _ _ Hsw), (vi_state _ _ _ _ _ V). simpl.
      rewrite (finalizes_iff g root (heap s)) by done. apply or_iff_compat_l. split.
      * intros [_ H]. exact H.
      * intros H. split; [|exact H]. destruct H as (o & ic & [E _]%alloc_at_Some & _).
        destruct (Hobj x o E) as (o2 & E2 & _). apply elem_of_reverse_rev. eauto.
Qed.
End Collect.

Section Together.
Context (g root : Z) (h h' : gmap Z pvm_object_storage).
Hypothesis Hcol : forall x o, h !! x = Some o ->
  exists o', h' !! x = Some o' /\ collected_obj g root h x o o'.
Hypothesis Hdom : forall x o', h' !! x = Some o' -> exists o, h !! x = Some o.

Lemma collected_reachable x o :
  alloc_at h x = Some o -> reachable h root x -> alloc_at h' x = Some (set_gc_flags g o).
Proof.
  intros [E Ha]%alloc_at_Some Hr. destruct (Hcol x o E) as (o' & E' & H1 & _).
  destruct (H1 Ha) as [[_ ->]|[? _]]; [|done]. by apply alloc_at_Some.
Qed.

Lemma collected_inv x o' :
  alloc_at h' x = Some o' ->
  exists o, alloc_at h x = Some o /\ reachable h root x /\ o' = set_gc_flags g o.
Proof.
  intros [E' Ha']%alloc_at_Some. destruct (Hdom x o' E') as [o E].
  destruct (Hcol x o E) as (q & Eq & H1 & H3 & _). simplify_eq.
  destruct (is_alloc o) eqn:Ha; [|by rewrite (H3 eq_refl) in Ha'].
  destruct (H1 I) as [[Hr ->]|[_ ->]]; [|by destruct Ha'].
  exists o. split_and!; [|done|done]. apply alloc_at_Some. by rewrite Ha.
Qed.

Lemma collected_unreachable x : ~ reachable h root x -> alloc_at h' x = None.
Proof.
  intros Hr. destruct (alloc_at h' x) as [o'|] eqn:Eo; [|done].
  by destruct (collected_inv x o' Eo) as (o & _ & ? & _).
Qed.

(** A counted reference is one the collector follows. *)
Lemma children_refs o l x :
  children h o = Some l -> x ∈ l -> x <> 0 -> x ∈ gc_refs h o.
Proof.
  unfold children, gc_refs. intros Hl Hx Hne.
  destruct (is_childfree o); [simplify_eq; by apply not_elem_of_nil in Hx|].
  assert (exists refs, own_refs h o = Some refs /\ x ∈ map data refs) as (refs & Hr & Hin).
  { unfold own_refs in *. destruct (is_internal o) eqn:Hi; simpl in Hl.
    - destruct (_ || _)%bool; [simplify_eq; by apply not_elem_of_nil in Hx|].
      destruct (class_of h o ≫= _) as [refs|] eqn:E; simplify_eq/=. eauto.
    - destruct (as_slots _ _) as [refs|]; simplify_eq/=. eauto. }
  rewrite Hr. simpl. apply elem_of_app. right.
  apply list_elem_of_In, in_flat_map. apply list_elem_of_In, in_map_iff in Hin as (r & <- & Hin).
  exists r. split; [done|]. unfold ref_targets. destruct (Z.eqb_spec (data r) 0); [done|by left].
Qed.

(** A collection changes headers only. *)
Lemma collected_erase : erase <$> h' = erase <$> h.
Proof.
  apply map_eq. intros x. rewrite !lookup_fmap. destruct (h !! x) as [o|] eqn:E.
  - destruct (Hcol x o E) as (o' & -> & _ & _ & _ & _ & He). simpl. by rewrite He.
  - destruct (h' !! x) as [o'|] eqn:E'; [|done]. destruct (Hdom x o' E'). congruence.
Qed.
End Together.

(** Reference counts stay above the references that are left. *)
Lemma collected_rc_inv g root ext h h' :
  (forall x o, h !! x = Some o -> exists o', h' !! x = Some o' /\ collected_obj g root h x o o') ->
  (forall x o', h' !! x = Some o' -> exists o, h !! x = Some o) ->
  (forall x, x ∈ ext -> x <> 0 -> reachable h root x) ->
  rc_inv false ∅ ext h -> rc_inv false ∅ ext h'.
Proof.
  intros Hcol Hdom Hext [R1 R2 R3 R4 R5].
  assert (forall x o', h' !! x = Some o' -> is_alloc o' -> exists o, h !! x = Some o /\ is_alloc o /\
    reachable h root x /\ o' = set_gc_flags g o) as Hinv.
  { intros x o' E' Ha'. destruct (collected_inv g root h h' Hcol Hdom x o') as (o & [? ?]%alloc_at_Some & ? & ?);
      [by apply alloc_at_Some|]. eauto 10. }
  pose proof (collected_erase g root h h' Hcol Hdom) as Her.
  assert (forall o, children h' (set_gc_flags g o) = children h o) as Hch.
  { intros o. unfold children. by rewrite own_refs_erase, Her, (own_refs_erase h). }
  assert (forall o, class_of h' (set_gc_flags g o) = class_of h o) as Hcl.
  { intros o. by rewrite class_of_erase, Her, (class_of_erase h). }
  assert (forall x, (nrefs h' ∅ ext x <= nrefs h ∅ ext x)%nat) as Hn.
  { intros x. unfold nrefs. apply Nat.add_le_mono_l, msum_le. intros y o' E' Hpos.
    unfold contrib in Hpos. destruct (is_alloc o') eqn:Ha'; [|simpl in Hpos; lia].
    destruct (Hinv y o' E') as (o & E & Ha & _ & ->); [by rewrite Ha'|].
    exists o. split; [done|]. unfold contrib. rewrite Ha', Hch. by destruct (is_alloc o). }
  split.
  - destruct (h' !! 0) as [o'|] eqn:E; [|done]. destruct (Hdom 0 o' E). congruence.
  - intros y o' E' Ha' HD. destruct (Hinv y o' E' Ha') as (o & E & Ha & _ & ->).
    rewrite Hch, Hcl. exact (R2 y o E Ha HD).
  - intros x Hx Hpos. split; [apply not_elem_of_empty|].
    assert (reachable h root x) as Hr.
    { unfold nrefs in Hpos. destruct (decide (count x ext = 0%nat)).
      - destruct (msum_pos (contrib h' ∅ x) h') as (y & o' & E' & Hc); [lia|].
        unfold contrib in Hc. destruct (is_alloc o') eqn:Ha'; [|simpl in Hc; lia].
        destruct (Hinv y o' E') as (o & E & Ha & Hy & ->); [by rewrite Ha'|].
        rewrite Hch in Hc. case_bool_decide; simpl in Hc; [|lia].
        destruct (children h o) as [l|] eqn:Hl; simpl in Hc; [|unfold count in Hc; simpl in Hc; lia].
        eapply rtc_r; [done|]. exists o. split; [done|]. eapply children_refs; try done.
        by apply count_in.
      - apply Hext; [|done]. apply count_in. lia. }
    specialize (Hn x). destruct (R3 x Hx) as (_ & o & E & Ha & Hc); [lia|].
    exists (set_gc_flags g o).
    pose proof (collected_reachable g root h h' Hcol x o) as H. spec H; [by apply alloc_at_Some|].
    specialize (H Hr). apply alloc_at_Some in H as [E' _]. split_and!; [done|done|].
    simpl. destruct Hc; [by left|right; lia].
  - done.
  - intros y Hy. by apply not_elem_of_empty in Hy.
  - done.
Qed.

(** ** Theorems *)

(** C3: A collection returns and frees exactly what the root object does not
    reach: every reachable object stays as it was but for its mark, every other
    object is free afterwards, finalizers run for the unreachable objects that
    have one and for no others, and the heap and the generation invariant hold
    again. *)
Theorem run_gc_correct s :
  heap_wf s -> gen_ok s -> finalizers_ok (heap s) ->
  (forall x, reachable (heap s) (pvm_object_space_start s) x -> gc_ok (heap s) x) ->
  exists n s', run_gc s = Ret n s' /\ heap_wf s' /\ gen_ok s' /\
    (forall x o, alloc_at (heap s) x = Some o ->
      reachable (heap s) (pvm_object_space_start s) x ->
      alloc_at (heap s') x = Some (set_gc_flags (gc_flags_last_generation s') o)) /\
    (forall x, ~ reachable (heap s) (pvm_object_space_start s) x -> alloc_at (heap s') x = None) /\
    (forall x, x ∈ finalized s' <-> x ∈ finalized s \/ exists o ic,
      alloc_at (heap s) x = Some o /\ ~ reachable (heap s) (pvm_object_space_start s) x /\
      flag (_flags o) PHANTOM_OBJECT_STORAGE_FLAG_IS_FINALIZER /\
      class_of (heap s) o = Some ic /\ ic_finalizer ic).
Proof.
  intros [Hl Hal] Hgen Hfz Hok.
  destruct (run_gc_spec s (conj Hl Hal) Hgen Hfz Hok) as (n & s' & E & Hcol & Hdom & Hs' & Hfin).
  set (g := next_generation (gc_flags_last_generation s)) in *.
  destruct (next_generation_spec _ (proj1 Hgen)) as [Hg _]. fold g in Hg.
  assert (gc_flags_last_generation s' = g) as Hg' by by rewrite Hs'.
  exists n, s'. rewrite Hg'. split_and!; [done|split|split| | |done].
  - apply (layout_wf_map s s' Hl); [by rewrite Hs'| |done].
    intros x o Eo. destruct (Hcol x o Eo) as (o' & ? & _ & _ & ? & ? & _). eauto.
  - intros x o' Eo. destruct (collected_inv _ _ _ _ Hcol Hdom x o' Eo) as (o & Ho & _ & ->).
    by apply (Hal x o Ho).
  - rewrite Hg'. lia.
  - intros x o' Eo. destruct (collected_inv _ _ _ _ Hcol Hdom x o' Eo) as (o & Ho & _ & ->).
    by right.
  - intros x o. by eapply collected_reachable.
  - by eapply collected_unreachable.
Qed.

(** C32: The collector and reference counting can be mixed: if the counts cover
    the references and the program holds references to reachable objects only,
    the counts still cover the references after a collection. *)
Theorem run_gc_keeps_counts ext s :
  heap_wf s -> gen_ok s -> finalizers_ok (heap s) ->
  (forall x, reachable (heap s) (pvm_object_space_start s) x -> gc_ok (heap s) x) ->
  (forall x, x ∈ ext -> x <> 0 -> reachable (heap s) (pvm_object_space_start s) x) ->
  rc_inv false ∅ ext (heap s) ->
  exists n s', run_gc s = Ret n s' /\ rc_inv false ∅ ext (heap s').
Proof.
  intros Hwf Hgen Hfz Hok Hext Hrc.
  destruct (run_gc_spec s Hwf Hgen Hfz Hok) as (n & s' & E & Hcol & Hdom & _).
  exists n, s'. split; [done|]. by eapply collected_rc_inv.
Qed.

(** ** Witnesses *)

(** An executable check that [R] holds all that [root] reaches. *)
Definition gc_check (h : gmap Z pvm_object_storage) (root : Z) (R : list Z) : bool :=
  bool_decide (root ∈ R) &&
  forallb (fun x => match h !! x with
    | Some o => is_alloc o && (object_start_marker (_ah o) =? PVM_OBJECT_START_MARKER) &&
        (is_childfree o || bool_decide (is_Some (own_refs h o))) &&
        forallb (fun y => bool_decide (y ∈ R)) (gc_refs h o)
    | None => false
    end) R.

Lemma gc_check_sound h root R :
  gc_check h root R = true -> forall x, reachable h root x -> x ∈ R /\ gc_ok h x.
Proof.
  unfold gc_check. rewrite andb_true_iff, bool_decide_eq_true, forallb_forall.
  intros [Hr HR]. assert (forall x, x ∈ R -> gc_ok h x /\ forall y, gc_edge h x y -> y ∈ R) as Hx.
  { intros x Hx. specialize (HR x (proj1 (list_elem_of_In _ _) Hx)).
    destruct (h !! x) as [o|] eqn:E; [|done].
    rewrite !andb_true_iff, orb_true_iff, forallb_forall in HR. destruct HR as [[[Ha Hm] Hc] Hy].
    split.
    - exists o. split_and!; [done|by rewrite Ha|lia|]. intros Hcf. rewrite Hcf in Hc.
      destruct Hc as [|Hc]; [done|]. by apply bool_decide_eq_true in Hc.
    - intros y (q & Eq & Hin). simplify_eq. apply list_elem_of_In, Hy in Hin.
      by apply bool_decide_eq_true in Hin. }
  apply (rtc_ind_r (fun x => x ∈ R /\ gc_ok h x) root).
  - split; [done|]. by apply Hx.
  - intros y z _ He [Hy _]. assert (z ∈ R) by (by eapply Hx). split; [done|]. by apply Hx.
Qed.

(** Executable checks of the other two preconditions. *)
Definition gen_check (s : vm) : bool :=
  let g := gc_flags_last_generation s in
  (0 <=? g) && (g <? 256) &&
  forallb (fun ko => negb (is_alloc ko.2) || (gc_flags (_ah ko.2) =? 0) || (gc_flags (_ah ko.2) =? g))
    (map_to_list (heap s)).

Definition finalizers_check (h : gmap Z pvm_object_storage) : bool :=
  forallb (fun ko => negb (is_alloc ko.2)
    || negb (flag (_flags ko.2) PHANTOM_OBJECT_STORAGE_FLAG_IS_FINALIZER)
    || bool_decide (is_Some (class_of h ko.2))) (map_to_list h).

Lemma gen_check_sound s : gen_check s = true -> gen_ok s.
Proof.
  unfold gen_check. rewrite !andb_true_iff, forallb_map_to_list. intros [[H1 H2] H].
  split; [lia|]. intros x o [E Ha]%alloc_at_Some. specialize (H x o E). simpl in H.
  destruct (is_alloc o); [|done]. simpl in H. apply orb_true_iff in H. lia.
Qed.

Lemma finalizers_check_sound h : finalizers_check h = true -> finalizers_ok h.
Proof.
  unfold finalizers_check. rewrite forallb_map_to_list. intros H x o [E Ha]%alloc_at_Some Hf.
  specialize (H x o E). cbn [fst snd] in H. destruct (is_alloc o); [|done].
  destruct (flag _ _); [|done]. simpl in H. by apply bool_decide_eq_true in H.
Qed.

(** A root object that refers to one object, and a second one nobody refers to. *)
Definition ex_gc : M vm (Z * Z * Z) :=
  r ← pvm_object_alloc 8 0 true;
  a ← pvm_object_alloc 8 0 false;
  b ← pvm_object_alloc 8 0 false;
  update r (set_da (DA_slots [mkObj a a]));;
  mret (r, a, b).

Lemma ex_gc_wf : wpe (eq oom) ex_gc ex_space (fun _ s => heap_wf s).
Proof.
  unfold ex_gc. apply wpe_bind. apply wpe_object_alloc; [apply ex_space_wf|lia|].
  intros r s1 H1 _ _ _ (o1 & E1 & [Ha1 _ _ _ _ _]) _.
  apply wpe_bind. apply wpe_object_alloc; [done|lia|]. intros a s2 H2 _ _ Hf2 _ F2.
  apply wpe_bind. apply wpe_object_alloc; [done|lia|]. intros b s3 H3 _ _ Hf3 _ F3.
  assert (alloc_at (heap s1) r = Some o1) as Hr1 by by apply alloc_at_Some.
  assert (alloc_at (heap s3) r = Some o1) as [E3 _]%alloc_at_Some.
  { rewrite F3, F2; [done|congruence|]. intros ->. rewrite F2 in Hf3 by congruence. congruence. }
  apply wpe_bind, wp_wpe. eapply wp_update; [done|]. apply wpe_ret. by eapply heap_wf_upd.
Qed.

Lemma run_gc_correct_witness :
  exists r s n s', ex_gc ex_space = Ret r s /\ run_gc s = Ret n s' /\ heap_wf s' /\
    (alloc_at (heap s) 66816 <> None /\ alloc_at (heap s') 66816 <> None) /\
    (alloc_at (heap s) 66864 <> None /\ alloc_at (heap s') 66864 = None).
Proof.
  pose proof ex_gc_wf as Hw. unfold wpe in Hw.
  destruct (ex_gc ex_space) as [r s|m|m|] eqn:E;
    [|vm_compute in E; discriminate E|destruct Hw|destruct Hw].
  destruct (run_gc_correct s) as (n & s' & H1 & H2 & _).
  - assumption.
  - apply gen_check_sound. vm_compute in E. injection E as <- <-. vm_compute. reflexivity.
  - apply finalizers_check_sound. vm_compute in E. injection E as <- <-. vm_compute. reflexivity.
  - intros x Hx. apply (gc_check_sound _ _ [65536; 66816]) in Hx; [apply Hx|].
    vm_compute in E. injection E as <- <-. vm_compute. reflexivity.
  - exists r, s, n, s'. vm_compute in E. injection E as <- <-.
    vm_compute in H1. injection H1 as <- <-.
    split; [reflexivity|]. split; [reflexivity|]. split; [assumption|].
    vm_compute. split; split; (discriminate || reflexivity).
Defined.

Lemma run_gc_keeps_counts_witness :
  exists r s n s', ex_gc ex_space = Ret r s /\ run_gc s = Ret n s' /\
    rc_inv false ∅ [65536] (heap s').
Proof.
  pose proof ex_gc_wf as Hw. unfold wpe in Hw.
  destruct (ex_gc ex_space) as [r s|m|m|] eqn:E;
    [|vm_compute in E; discriminate E|destruct Hw|destruct Hw].
  destruct (run_gc_keeps_counts [65536] s) as (n & s' & H1 & H2).
  - assumption.
  - apply gen_check_sound. vm_compute in E. injection E as <- <-. vm_compute. reflexivity.
  - apply finalizers_check_sound. vm_compute in E. injection E as <- <-. vm_compute. reflexivity.
  - intros x Hx. apply (gc_check_sound _ _ [65536; 66816]) in Hx; [apply Hx|].
    vm_compute in E. injection E as <- <-. vm_compute. reflexivity.
  - intros x Hx _. apply list_elem_of_singleton in Hx as ->.
    vm_compute in E. injection E as <- <-. apply rtc_refl.
  - apply rc_check_sound. vm_compute in E. injection E as <- <-. vm_compute. reflexivity.
  - exists r, s, n, s'. split; [reflexivity|]. split; assumption.
Defined.

