(* ===== verification/Opcodes.v ===== *)
(** * The instruction set ([phantom/vm/ids/opcode_ids.h])

    The instructions that have a case of their own in the interpreter; the short
    forms of system calls and method calls are ranges of byte values and are
    recognised in its default case. *)

From S2P Require Import Prelude.

Inductive opcode :=
  | opcode_nop | opcode_debug | opcode_djnz | opcode_jz | opcode_jmp | opcode_switch
  | opcode_ret | opcode_short_call_0 | opcode_short_call_1 | opcode_short_call_2
  | opcode_short_call_3 | opcode_call_8bit | opcode_call_32bit | opcode_is_dup | opcode_is_drop
  | opcode_os_dup | opcode_os_drop | opcode_os_load8 | opcode_os_save8 | opcode_os_load32
  | opcode_os_save32 | opcode_new | opcode_copy | opcode_os_compose32 | opcode_os_decompose
  | opcode_os_pull32 | opcode_os_get32 | opcode_os_set32 | opcode_iconst_0 | opcode_iconst_1
  | opcode_iconst_8bit | opcode_iconst_32bit | opcode_sconst_bin | opcode_iconst_64bit
  | opcode_is_get32 | opcode_is_set32 | opcode_push_catcher | opcode_pop_catcher | opcode_throw
  | opcode_summon_thread | opcode_summon_this | opcode_summon_null | opcode_summon_class_class
  | opcode_summon_int_class | opcode_summon_string_class | opcode_summon_interface_class
  | opcode_summon_code_class | opcode_summon_array_class | opcode_summon_by_name | opcode_i2o
  | opcode_o2i | opcode_isum | opcode_imul | opcode_isubul | opcode_isublu | opcode_idivul
  | opcode_idivlu | opcode_ior | opcode_iand | opcode_ixor | opcode_inot | opcode_log_or
  | opcode_log_and | opcode_log_xor | opcode_log_not | opcode_is_load8 | opcode_is_save8
  | opcode_ige | opcode_ile | opcode_igt | opcode_ilt | opcode_iremul | opcode_iremlu
  | opcode_os_eq | opcode_os_neq | opcode_os_isnull | opcode_prefix_long | opcode_prefix_float
  | opcode_prefix_double | opcode_general_lock | opcode_general_unlock | opcode_dynamic_invoke
  | opcode_ishl | opcode_ishr | opcode_ushr.

(** The instruction of a byte of code. *)
Definition decode (b : Z) : option opcode :=
  match b with
  | 0x00 => Some opcode_nop | 0x01 => Some opcode_debug | 0x04 => Some opcode_djnz
  | 0x05 => Some opcode_jz | 0x06 => Some opcode_jmp | 0x07 => Some opcode_switch
  | 0x08 => Some opcode_ret | 0x09 => Some opcode_short_call_0
  | 0x0A => Some opcode_short_call_1 | 0x0B => Some opcode_short_call_2
  | 0x0C => Some opcode_short_call_3 | 0x0D => Some opcode_call_8bit
  | 0x0E => Some opcode_call_32bit | 0x10 => Some opcode_is_dup | 0x11 => Some opcode_is_drop
  | 0x12 => Some opcode_os_dup | 0x13 => Some opcode_os_drop | 0x14 => Some opcode_os_load8
  | 0x15 => Some opcode_os_save8 | 0x16 => Some opcode_os_load32
  | 0x17 => Some opcode_os_save32 | 0x18 => Some opcode_new | 0x19 => Some opcode_copy
  | 0x1A => Some opcode_os_compose32 | 0x1B => Some opcode_os_decompose
  | 0x1C => Some opcode_os_pull32 | 0x1E => Some opcode_os_get32 | 0x1F => Some opcode_os_set32
  | 0x20 => Some opcode_iconst_0 | 0x21 => Some opcode_iconst_1
  | 0x22 => Some opcode_iconst_8bit | 0x23 => Some opcode_iconst_32bit
  | 0x24 => Some opcode_sconst_bin | 0x25 => Some opcode_iconst_64bit
  | 0x26 => Some opcode_is_get32 | 0x27 => Some opcode_is_set32
  | 0x2D => Some opcode_push_catcher | 0x2E => Some opcode_pop_catcher
  | 0x2F => Some opcode_throw | 0x30 => Some opcode_summon_thread
  | 0x31 => Some opcode_summon_this | 0x37 => Some opcode_summon_null
  | 0x38 => Some opcode_summon_class_class | 0x39 => Some opcode_summon_int_class
  | 0x3A => Some opcode_summon_string_class | 0x3B => Some opcode_summon_interface_class
  | 0x3C => Some opcode_summon_code_class | 0x3D => Some opcode_summon_array_class
  | 0x3F => Some opcode_summon_by_name | 0x40 => Some opcode_i2o | 0x41 => Some opcode_o2i
  | 0x42 => Some opcode_isum | 0x43 => Some opcode_imul | 0x44 => Some opcode_isubul
  | 0x45 => Some opcode_isublu | 0x46 => Some opcode_idivul | 0x47 => Some opcode_idivlu
  | 0x48 => Some opcode_ior | 0x49 => Some opcode_iand | 0x4A => Some opcode_ixor
  | 0x4B => Some opcode_inot | 0x4C => Some opcode_log_or | 0x4D => Some opcode_log_and
  | 0x4E => Some opcode_log_xor | 0x4F => Some opcode_log_not | 0x50 => Some opcode_is_load8
  | 0x51 => Some opcode_is_save8 | 0x52 => Some opcode_ige | 0x53 => Some opcode_ile
  | 0x54 => Some opcode_igt | 0x55 => Some opcode_ilt | 0x56 => Some opcode_iremul
  | 0x57 => Some opcode_iremlu | 0x58 => Some opcode_os_eq | 0x59 => Some opcode_os_neq
  | 0x5A => Some opcode_os_isnull | 0x5C => Some opcode_prefix_long
  | 0x5D => Some opcode_prefix_float | 0x5E => Some opcode_prefix_double
  | 0x62 => Some opcode_general_lock | 0x63 => Some opcode_general_unlock
  | 0x6F => Some opcode_dynamic_invoke | 0x70 => Some opcode_ishl | 0x71 => Some opcode_ishr
  | 0x72 => Some opcode_ushr
  | _ => None
  end.

Definition opcode_sys_8bit : Z := 0x0F.
Definition opcode_sys_0 : Z := 0x80.
Definition opcode_call_00 : Z := 0xA0.
Definition code_of_ret : Z := 0x08.
Definition code_of_os_drop : Z := 0x13.
