(* ===== verification/Create.v ===== *)
(** Creation of objects ([phantom/vm/create.c]): plain and dynamic objects,
    integers, strings, pages, interfaces, classes and the initialisers of the
    simple internal classes.  Call frames and threads are in Frame.v, stack
    pages in Stacks.v. *)

From S2P Require Import Prelude Heap Refcount Alloc.

(** ** Plain and dynamic objects *)

Definition pvm_object_create_dynamic (object_class : pvm_object) (das : Z) : M vm pvm_object :=
  cda ← load_class (data object_class);
  let das := if das <? 0 then object_data_area_size cda else das in
  let flags := object_flags cda in
  out ← pvm_object_alloc (u32 das) (u32 flags) false;
  update out (set_class object_class);;
  mret (mkObj out (data (object_default_interface cda))).

Definition pvm_object_create_fixed (object_class : pvm_object) : M vm pvm_object :=
  pvm_object_create_dynamic object_class (-1).

(** [pvm_create_null_object], [pvm_get_null_object] *)
Definition pvm_create_null_object : M vm pvm_object := gets (fun s => null_object (pvm_root s)).

(** ** Numbers *)

Definition pvm_create_int_object (value : Z) : M vm pvm_object :=
  c ← gets (fun s => int_class (pvm_root s));
  out ← pvm_object_create_fixed c;
  update (data out) (set_da (DA_int value));;
  mret out.

Definition pvm_create_long_object (value : Z) : M vm pvm_object :=
  c ← gets (fun s => long_class (pvm_root s));
  out ← pvm_object_create_fixed c;
  update (data out) (set_da (DA_long value));;
  mret out.

Definition pvm_get_int (o : pvm_object) : M vm Z := load_da as_int (data o).
Definition pvm_get_long (o : pvm_object) : M vm Z := load_da as_long (data o).

(** ** Strings

    [sizeof(struct data_area_4_string)] is 4: the length; the bytes follow. *)

Definition sizeof_string : Z := 4.

Definition pvm_internal_init_string (os : Z) : M vm unit :=
  o ← load os;
  update os (set_da (DA_string 0 (replicate (Z.to_nat (_da_size o - sizeof_string)) 0))).

(** [memcpy( data_area->data+off, value, n )] *)
Definition string_memcpy (os : Z) (off : Z) (value : list Z) : M vm unit :=
  sd ← load_da as_string os;
  if (0 <=? off) && (off + Z.of_nat (length value) <=? Z.of_nat (length sd.2)) then
    update os (set_da (DA_string sd.1
      (take (Z.to_nat off) sd.2 ++ value ++ drop (Z.to_nat off + length value) sd.2)))
  else fault "memcpy past the string".

Definition string_set_length (os n : Z) : M vm unit :=
  sd ← load_da as_string os;
  update os (set_da (DA_string n sd.2)).

(** [value] holds the [n_bytes] bytes at the pointer, if it is not null. *)
Definition pvm_create_string_object_binary (value : option (list Z)) (n_bytes : Z)
    : M vm pvm_object :=
  let das := i32 (sizeof_string + n_bytes) in
  c ← gets (fun s => string_class (pvm_root s));
  d ← pvm_object_create_dynamic c das;
  pvm_internal_init_string (data d);;
  (match value with
   | Some v => string_set_length (data d) n_bytes;; string_memcpy (data d) 0 v
   | None => mret tt
   end);;
  mret d.

(** [strlen( value )] *)
Fixpoint strlen (value : list Z) : Z :=
  match value with
  | [] => 0
  | c :: rest => if c =? 0 then 0 else 1 + strlen rest
  end.

Definition pvm_create_string_object (value : list Z) : M vm pvm_object :=
  let n := strlen value in
  pvm_create_string_object_binary (Some (take (Z.to_nat n) value)) n.

Definition pvm_create_string_object_binary_cat (value1 : option (list Z)) (n_bytes1 : Z)
    (value2 : option (list Z)) (n_bytes2 : Z) : M vm pvm_object :=
  let das := i32 (sizeof_string + n_bytes1 + n_bytes2) in
  c ← gets (fun s => string_class (pvm_root s));
  d ← pvm_object_create_dynamic c das;
  pvm_internal_init_string (data d);;
  (match value1 with
   | Some v1 =>
       string_set_length (data d) n_bytes1;; string_memcpy (data d) 0 v1;;
       match value2 with
       | Some v2 =>
           string_memcpy (data d) n_bytes1 v2;;
           sd ← load_da as_string (data d);
           string_set_length (data d) (i32 (sd.1 + n_bytes2))
       | None => mret tt
       end
   | None => mret tt
   end);;
  mret d.

(** [strncmp] of the C library, by its sign. *)
Fixpoint strncmp (a b : list Z) (n : nat) {struct n} : option Z :=
  match n with
  | O => Some 0
  | S n' =>
      match a, b with
      | x :: a', y :: b' =>
          if x <? y then Some (-1) else if y <? x then Some 1
          else if x =? 0 then Some 0 else strncmp a' b' n'
      | _, _ => None
      end
  end.

Definition pvm_strcmp (s1 s2 : pvm_object) : M vm Z :=
  d1 ← load_da as_string (data s1);
  d2 ← load_da as_string (data s2);
  if d2.1 <? d1.1 then mret 1
  else if d1.1 <? d2.1 then mret (-1)
  else some_or_fault (strncmp d1.2 d2.2 (Z.to_nat d1.1)) "strncmp past the string".

(** ** Pages *)

(** [init] points at the first [init_slots] values. *)
Definition pvm_create_page_object (n_slots : Z) (init : list pvm_object) : M vm pvm_object :=
  let das := i32 (n_slots * sizeof_pvm_object) in
  c ← gets (fun s => page_class (pvm_root s));
  d ← pvm_object_create_dynamic c das;
  assert_ (Z.of_nat (length init) <? n_slots) "init_slots < n_slots";;
  null ← pvm_create_null_object;
  o ← load (data d);
  (if n_slots * sizeof_pvm_object <=? _da_size o then
     update (data d) (set_da (DA_slots
       (init ++ replicate (Z.to_nat n_slots - length init) null)))
   else fault "page slots past the object");;
  mret d.

Definition pvm_internal_init_page (os : Z) : M vm unit :=
  o ← load os;
  assert_ (_da_size o mod sizeof_pvm_object =? 0) "_da_size % sizeof(struct pvm_object)";;
  null ← pvm_create_null_object;
  update os (set_da (DA_slots (replicate (Z.to_nat (_da_size o / sizeof_pvm_object)) null))).

(** ** Interfaces and classes *)

Definition create_interface_worker (n_methods : Z) : M vm pvm_object :=
  let das := i32 (n_methods * sizeof_pvm_object) in
  c ← gets (fun s => interface_class (pvm_root s));
  pvm_object_create_dynamic c das.

Definition pvm_create_interface_object (n_methods : Z) (parent_class : pvm_object)
    : M vm pvm_object :=
  ret ← create_interface_worker n_methods;
  isnull ← pvm_is_null parent_class;
  (if (isnull : bool) then panic "create interface: parent is null" else mret tt);;
  pda ← load_class (data parent_class);
  let base_i := data (object_default_interface pda) in
  bo ← load base_i;
  base ← some_or_fault (as_slots (da_po_limit bo) (da bo)) "interface slots";
  let base_icount := Z.min (da_po_limit bo) n_methods in
  let methods := take (Z.to_nat base_icount) base in
  for_each (fun m => ref_inc_o m;; mret tt) methods;;
  null ← pvm_create_null_object;
  update (data ret) (set_da (DA_slots
    (methods ++ replicate (Z.to_nat n_methods - length methods) null)));;
  mret ret.

Definition pvm_internal_init_interface (os : Z) : M vm unit := update os (set_da DA_zero).

Definition pvm_create_class_object (name iface : pvm_object) (da_size : Z) : M vm pvm_object :=
  c ← gets (fun s => class_class (pvm_root s));
  d ← pvm_object_create_fixed c;
  old ← load_class (data d);
  nullc ← gets (fun s => null_class (pvm_root s));
  update (data d) (set_da (DA_class (mkClass 0 da_size iface (-1) name nullc
    (static_vars old) (ip2line_maps old) (method_names old) (field_names old))));;
  mret d.

(** ** Initialisers of simple internal classes *)

Definition pvm_internal_init_code (os : Z) : M vm unit :=
  o ← load os;
  cd ← some_or_fault (as_code (da o)) "code data area";
  update os (set_da (DA_code 0 cd.2)).

Definition pvm_internal_init_array (os : Z) : M vm unit :=
  a ← load_da as_array os;
  update os (set_da (DA_array (mkArray (mkObj 0 (interface (page a))) 16 0))).

(** ** Properties

    Only new objects appear: everything allocated before is unchanged. *)
Definition grows (s s' : vm) : Prop :=
  heap_wf s' /\ alloc_env s' = alloc_env s /\
  forall x o, alloc_at (heap s) x = Some o -> alloc_at (heap s') x = Some o.

(** [c] is the data area of the allocated class object [cls]. *)
Definition class_at (s : vm) (cls : pvm_object) (c : da_class) : Prop :=
  exists o, alloc_at (heap s) (data cls) = Some o /\ as_class (da o) = Some c.

(** A new object of class [cls]. *)
Record fresh_of (s s' : vm) (cls : pvm_object) (c : da_class) (das : Z)
    (p : pvm_object) (d : data_area) : Prop := {
  fo_grows : grows s s';
  fo_new : alloc_at (heap s) (data p) = None;
  fo_pos : 0 < data p;
  fo_iface : interface p = data (object_default_interface c);
  fo_obj : exists o, alloc_at (heap s') (data p) = Some o /\ _class o = cls /\
    _da_size o = das /\ _flags o = object_flags c /\ refCount (_ah o) = 1 /\
    gc_flags (_ah o) = 0 /\ da o = d;
}.

Section Create.
Implicit Types (s : vm).

Lemma grows_refl s : heap_wf s -> grows s s.
Proof. done. Qed.

Lemma grows_trans s1 s2 s3 : grows s1 s2 -> grows s2 s3 -> grows s1 s3.
Proof.
  intros (_ & E1 & A1) (W & E2 & A2). split; [done|]. split; [congruence|]. auto.
Qed.

Lemma grows_root s s' : grows s s' -> pvm_root s' = pvm_root s.
Proof. intros (_ & E & _). unfold alloc_env in E. by injection E. Qed.

Lemma grows_class s s' cls c : grows s s' -> class_at s cls c -> class_at s' cls c.
Proof. intros (_ & _ & A) (o & Ho & Hc). exists o. auto. Qed.

Lemma heap_of_alloc h x o : alloc_at h x = Some o -> h !! x = Some o.
Proof. by intros [? _]%alloc_at_Some. Qed.

(** Writing the data area of a new object. *)
Lemma fresh_set_da s s' cls c das p d d' :
  fresh_of s s' cls c das p d ->
  wp (update (data p) (set_da d')) s' (fun _ s'' => fresh_of s s'' cls c das p d').
Proof.
  intros [(W & E & A) Hn Hp Hi (o & Ho & Hcl & Hd & Hf & Hr & Hg & _)].
  pose proof (heap_of_alloc _ _ _ Ho) as Eo. eapply wp_update; [done|].
  apply alloc_at_Some in Ho as [_ Ha]. split; simpl; try done.
  - split; [by eapply heap_wf_upd|]. split; [done|]. intros x q Hq. simpl.
    unfold alloc_at. rewrite lookup_insert_ne by congruence. by apply A.
  - exists (set_da d' o). split; [|done]. apply alloc_at_Some. by rewrite lookup_insert_eq.
Qed.

Lemma wpe_create_dynamic cls c das s :
  heap_wf s -> class_at s cls c -> 0 <= object_flags c < 2 ^ 32 ->
  let das' := if das <? 0 then object_data_area_size c else das in
  0 <= das' < 2 ^ 31 ->
  wpe (eq oom) (pvm_object_create_dynamic cls das) s
    (fun p s' => fresh_of s s' cls c das' p DA_zero).
Proof.
  intros Hwf (co & Hco & Hc) Hfl das' Hd. unfold pvm_object_create_dynamic, load_class.
  apply wpe_bind, wp_wpe. eapply wp_load_da; [by apply heap_of_alloc|done|].
  fold das'. rewrite !u32_id by lia.
  apply wpe_bind, wpe_object_alloc; [done|done|].
  intros p s1 W1 E1 Hp Hn (o & Eo & No) F1.
  apply wpe_bind, wp_wpe. eapply wp_update; [done|]. apply wpe_ret.
  split; simpl; try done.
  - split; [by eapply heap_wf_upd|]. split; [done|]. intros x q Hq. simpl.
    unfold alloc_at. rewrite lookup_insert_ne by congruence. fold (alloc_at (heap s1) x).
    rewrite F1; [done|congruence].
  - exists (set_class cls o). destruct No as [N1 N2 N3 N4 N5 N6]. split_and!; try done.
    apply alloc_at_Some. by rewrite lookup_insert_eq.
Qed.

Lemma wpe_create_fixed cls c s :
  heap_wf s -> class_at s cls c -> 0 <= object_flags c < 2 ^ 32 ->
  0 <= object_data_area_size c < 2 ^ 31 ->
  wpe (eq oom) (pvm_object_create_fixed cls) s
    (fun p s' => fresh_of s s' cls c (object_data_area_size c) p DA_zero).
Proof. intros. by apply (wpe_create_dynamic cls c (-1) s). Qed.

(** ** Strings *)

Lemma string_memcpy_spec s s' cls c das p n pre old post v :
  fresh_of s s' cls c das p (DA_string n (pre ++ old ++ post)) -> length v = length old ->
  wp (string_memcpy (data p) (Z.of_nat (length pre)) v) s'
    (fun _ s'' => fresh_of s s'' cls c das p (DA_string n (pre ++ v ++ post))).
Proof.
  intros Hf Hl. destruct (fo_obj _ _ _ _ _ _ _ Hf) as (o & Ho & _ & _ & _ & _ & _ & Hd).
  unfold string_memcpy. wp_step.
  eapply wp_load_da; [by apply heap_of_alloc|by rewrite Hd|]. simpl.
  destruct (Z.leb_spec 0 (Z.of_nat (length pre))); [|lia]. simpl.
  destruct (Z.leb_spec (Z.of_nat (length pre) + Z.of_nat (length v))
    (Z.of_nat (length (pre ++ old ++ post)))) as [|Hgt];
    [|rewrite !length_app in Hgt; lia].
  rewrite Nat2Z.id, take_app_length, Hl, drop_app_add, drop_app_length.
  by eapply fresh_set_da.
Qed.

Lemma string_set_length_spec s s' cls c das p n n' b :
  fresh_of s s' cls c das p (DA_string n b) ->
  wp (string_set_length (data p) n') s' (fun _ s'' => fresh_of s s'' cls c das p (DA_string n' b)).
Proof.
  intros Hf. destruct (fo_obj _ _ _ _ _ _ _ Hf) as (o & Ho & _ & _ & _ & _ & _ & Hd).
  unfold string_set_length. wp_step.
  eapply wp_load_da; [by apply heap_of_alloc|by rewrite Hd|]. by eapply fresh_set_da.
Qed.

Lemma init_string_spec s s' cls c das p d :
  fresh_of s s' cls c das p d ->
  wp (pvm_internal_init_string (data p)) s' (fun _ s'' =>
    fresh_of s s'' cls c das p (DA_string 0 (replicate (Z.to_nat (das - sizeof_string)) 0))).
Proof.
  intros Hf. destruct (fo_obj _ _ _ _ _ _ _ Hf) as (o & Ho & _ & Hsz & _).
  unfold pvm_internal_init_string. wp_step. eapply wp_load; [by apply heap_of_alloc|].
  rewrite Hsz. by eapply fresh_set_da.
Qed.

Lemma string_cat_spec v1 v2 c s :
  heap_wf s -> class_at s (string_class (pvm_root s)) c -> 0 <= object_flags c < 2 ^ 32 ->
  sizeof_string + Z.of_nat (length v1) + Z.of_nat (length v2) < 2 ^ 31 ->
  wpe (eq oom) (pvm_create_string_object_binary_cat (Some v1) (Z.of_nat (length v1))
      (Some v2) (Z.of_nat (length v2))) s
    (fun p s' => fresh_of s s' (string_class (pvm_root s)) c
      (sizeof_string + Z.of_nat (length v1) + Z.of_nat (length v2)) p
      (DA_string (Z.of_nat (length v1) + Z.of_nat (length v2)) (v1 ++ v2))).
Proof.
  unfold sizeof_string. intros Hwf Hc Hf Hl. set (l1 := length v1) in *. set (l2 := length v2) in *.
  unfold pvm_create_string_object_binary_cat, sizeof_string.
  rewrite i32_id by lia. apply wpe_bind, wp_wpe, wp_gets.
  apply wpe_bind. eapply wpe_mono; [apply (wpe_create_dynamic _ c); try done|].
  { destruct (Z.ltb_spec (4 + Z.of_nat l1 + Z.of_nat l2) 0); lia. }
  intros p s1. destruct (Z.ltb_spec (4 + Z.of_nat l1 + Z.of_nat l2) 0); [lia|]. intros F1.
  apply wpe_bind, wp_wpe. eapply wp_mono; [apply (init_string_spec _ _ _ _ _ _ _ F1)|]. intros [] s2 F2.
  unfold sizeof_string in F2.
  replace (Z.to_nat (4 + Z.of_nat l1 + Z.of_nat l2 - 4)) with (l1 + (l2 + 0))%nat in F2 by lia.
  rewrite !replicate_add in F2.
  apply wpe_bind, wp_wpe. wp_step. eapply wp_mono; [by eapply string_set_length_spec|].
  intros [] s3 F3. wp_step. eapply wp_mono.
  { eapply (string_memcpy_spec s s3 _ _ _ _ _ [] (replicate l1 0)); [done|by rewrite length_replicate]. }
  intros [] s4 F4. wp_step. simpl in F4. eapply wp_mono.
  { eapply (string_memcpy_spec s s4 _ _ _ _ _ v1 (replicate l2 0)); [done|by rewrite length_replicate]. }
  intros [] s5 F5. simpl in F5. rewrite app_nil_r in F5.
  destruct (fo_obj _ _ _ _ _ _ _ F5) as (o & Ho & _ & _ & _ & _ & _ & Hd).
  wp_step. eapply wp_load_da; [by apply heap_of_alloc|by rewrite Hd|]. simpl.
  rewrite i32_id by lia. eapply wp_mono; [by eapply string_set_length_spec|].
  intros [] s6 F6. by apply wpe_ret.
Qed.
Lemma string_binary_spec v c s :
  heap_wf s -> class_at s (string_class (pvm_root s)) c -> 0 <= object_flags c < 2 ^ 32 ->
  sizeof_string + Z.of_nat (length v) < 2 ^ 31 ->
  wpe (eq oom) (pvm_create_string_object_binary (Some v) (Z.of_nat (length v))) s
    (fun p s' => fresh_of s s' (string_class (pvm_root s)) c (sizeof_string + Z.of_nat (length v)) p
      (DA_string (Z.of_nat (length v)) v)).
Proof.
  unfold sizeof_string. intros Hwf Hc Hf Hl. unfold pvm_create_string_object_binary, sizeof_string.
  rewrite i32_id by lia. apply wpe_bind, wp_wpe, wp_gets.
  apply wpe_bind. eapply wpe_mono; [apply (wpe_create_dynamic _ c); try done|].
  { destruct (Z.ltb_spec (4 + Z.of_nat (length v)) 0); lia. }
  intros p s1. destruct (Z.ltb_spec (4 + Z.of_nat (length v)) 0); [lia|]. intros F1.
  apply wpe_bind, wp_wpe. eapply wp_mono; [apply (init_string_spec _ _ _ _ _ _ _ F1)|]. intros [] s2 F2.
  unfold sizeof_string in F2. replace (Z.to_nat (4 + Z.of_nat (length v) - 4)) with (length v) in F2 by lia.
  apply wpe_bind, wp_wpe. wp_step. eapply wp_mono; [by eapply string_set_length_spec|].
  intros [] s3 F3. eapply wp_mono.
  { eapply (string_memcpy_spec s s3 _ _ _ _ _ [] (replicate (length v) 0) []); [|by rewrite length_replicate].
    simpl. by rewrite app_nil_r. }
  intros [] s4 F4. simpl in F4. rewrite app_nil_r in F4. by apply wpe_ret.
Qed.
End Create.

(** ** Theorems *)

(** A string built from two byte strings holds their concatenation: unless
    memory runs out, [pvm_create_string_object_binary_cat] returns a new string
    object whose length is the sum of the lengths and whose bytes are the first
    string followed by the second, and no existing object changes. *)
Theorem pvm_create_string_object_binary_cat_correct v1 v2 c s :
  heap_wf s -> class_at s (string_class (pvm_root s)) c -> 0 <= object_flags c < 2 ^ 32 ->
  sizeof_string + Z.of_nat (length v1) + Z.of_nat (length v2) < 2 ^ 31 ->
  wpe (eq oom) (pvm_create_string_object_binary_cat (Some v1) (Z.of_nat (length v1))
      (Some v2) (Z.of_nat (length v2))) s
    (fun p s' => fresh_of s s' (string_class (pvm_root s)) c
      (sizeof_string + Z.of_nat (length v1) + Z.of_nat (length v2)) p
      (DA_string (Z.of_nat (length v1) + Z.of_nat (length v2)) (v1 ++ v2))).
Proof. apply string_cat_spec. Qed.

(** Integers: unless memory runs out, a new integer object reads back as the
    value it was created from, and no existing object changes. *)
Theorem pvm_create_int_object_get v c s :
  heap_wf s -> class_at s (int_class (pvm_root s)) c -> 0 <= object_flags c < 2 ^ 32 ->
  0 <= object_data_area_size c < 2 ^ 31 ->
  wpe (eq oom) (p ← pvm_create_int_object v; pvm_get_int p) s (fun r s' => r = v /\ grows s s').
Proof.
  intros Hwf Hc Hf Hd. apply wpe_bind. unfold pvm_create_int_object.
  apply wpe_bind, wp_wpe, wp_gets. apply wpe_bind.
  eapply wpe_mono; [by apply (wpe_create_fixed _ c)|]. intros p s1 F1.
  apply wpe_bind, wp_wpe. eapply wp_mono; [apply (fresh_set_da _ _ _ _ _ _ _ _ F1)|]. intros [] s2 F2.
  apply wpe_ret. destruct (fo_obj _ _ _ _ _ _ _ F2) as (o & Ho & _ & _ & _ & _ & _ & Hda).
  apply wp_wpe. unfold pvm_get_int. eapply wp_load_da; [by apply heap_of_alloc|by rewrite Hda|].
  split; [done|apply F2].
Qed.

Lemma strncmp_zero a b n :
  (n <= length a)%nat -> (n <= length b)%nat -> Forall (fun x => x <> 0) (take n a) ->
  exists r, strncmp a b n = Some r /\ (r = 0 <-> take n a = take n b).
Proof.
  revert a b. induction n as [|n IH]; intros a b Ha Hb Hn; simpl; [by exists 0; rewrite !take_0|].
  destruct a as [|x a], b as [|y b]; simpl in *; try lia. inversion Hn as [|? ? Hx Hn']; subst.
  destruct (Z.ltb_spec x y); [exists (-1); split; [done|]; split; [lia|intros [= -> _]; lia]|].
  destruct (Z.ltb_spec y x); [exists 1; split; [done|]; split; [lia|intros [= -> _]; lia]|].
  assert (x = y) as -> by lia. destruct (Z.eqb_spec y 0); [done|].
  destruct (IH a b) as (r & Er & Hr); [lia|lia|done|]. exists r. split; [done|].
  rewrite Hr. split; [by intros ->|by intros [= ->]].
Qed.

(** Comparison of strings without zero bytes is exact: [pvm_strcmp] returns,
    changes nothing, and returns zero just when length and bytes agree. *)
Theorem pvm_strcmp_correct a b oa ob na nb ba bb s :
  heap s !! data a = Some oa -> as_string (da oa) = Some (na, ba) ->
  heap s !! data b = Some ob -> as_string (da ob) = Some (nb, bb) ->
  0 <= na <= Z.of_nat (length ba) -> 0 <= nb <= Z.of_nat (length bb) ->
  Forall (fun x => x <> 0) (take (Z.to_nat na) ba) ->
  exists r, pvm_strcmp a b s = Ret r s /\
    (r = 0 <-> na = nb /\ take (Z.to_nat na) ba = take (Z.to_nat nb) bb).
Proof.
  intros Ea Va Eb Vb Ha Hb Hn.
  enough (wp (pvm_strcmp a b) s (fun r s' => s' = s /\
    (r = 0 <-> na = nb /\ take (Z.to_nat na) ba = take (Z.to_nat nb) bb))) as (r & s' & E & -> & H)
    by eauto.
  unfold pvm_strcmp. wp_step. eapply wp_load_da; [done|done|]. wp_step.
  eapply wp_load_da; [done|done|]. simpl.
  destruct (Z.ltb_spec nb na); [wp_step; split; [done|]; split; lia|].
  destruct (Z.ltb_spec na nb); [wp_step; split; [done|]; split; lia|].
  assert (nb = na) as -> by lia.
  destruct (strncmp_zero ba bb (Z.to_nat na)) as (r & Er & Hr); [lia|lia|done|].
  wp_step; [done|]. split; [done|]. rewrite Hr. naive_solver.
Qed.

(** ** Witnesses *)

(** A small booted machine: 64K of object space with class objects in it. *)
Definition ex_class (id flags das : Z) : M vm pvm_object :=
  p ← pvm_object_alloc 68 (Z.lor PHANTOM_OBJECT_STORAGE_FLAG_IS_INTERNAL
    PHANTOM_OBJECT_STORAGE_FLAG_IS_CLASS) true;
  update p (set_da (DA_class (mkClass flags das (mkObj p p) id null_ref null_ref null_ref
    null_ref null_ref null_ref)));;
  mret (mkObj p p).

Definition ex_sizes : list Z :=
  [0; 68; 0; 0; 4; 8; 4; 16; 0; 116; 56; 300; 556; 812].

Definition ex_boot_prog : M vm unit :=
  nullo ← pvm_object_alloc 0 0 true;
  cls ← mapM (fun x => ex_class (Z.of_nat x.1) (ic_flags x.2.1) x.2.2)
    (zip (seq 0 14) (zip pvm_internal_classes ex_sizes));
  binc ← ex_class 19 (Z.lor PHANTOM_OBJECT_STORAGE_FLAG_IS_INTERNAL
    PHANTOM_OBJECT_STORAGE_FLAG_IS_CHILDFREE) 4;
  let c (i : Z) := default null_ref (cls !!z i) in
  for_each (fun o => update (data o) (set_class (c 1))) cls;;
  update nullo (set_class (c 0));;
  modify (set_root (mkRoot (c 0) (c 1) (c 2) (c 3) (c 4) (c 5) null_ref null_ref (c 6) (c 7)
    (c 8) (c 9) (c 10) (c 11) (c 12) (c 13) null_ref binc null_ref null_ref null_ref
    null_ref null_ref null_ref null_ref null_ref null_ref null_ref (mkObj nullo (data (c
    0))) null_ref null_ref null_ref null_ref null_ref null_ref null_ref null_ref
    null_ref));;
  modify (set_class_objects (cls ++ replicate 5 null_ref ++ [binc] ++ replicate 6 null_ref)).

Definition ex_boot : vm :=
  match (pvm_alloc_init 65536 65536;; pvm_alloc_clear_mem;; ex_boot_prog) (zero_vm ∅) with
  | Ret _ s => s
  | _ => zero_vm ∅
  end.

Lemma ex_boot_wf : heap_wf ex_boot.
Proof. apply heap_wf_check_sound. vm_compute. reflexivity. Qed.

Definition class_of_ex (cls : pvm_object) : option da_class :=
  o ← alloc_at (heap ex_boot) (data cls); as_class (da o).

Lemma class_of_ex_at cls c : class_of_ex cls = Some c -> class_at ex_boot cls c.
Proof.
  unfold class_of_ex, class_at. destruct (alloc_at _ _) as [o|]; [|done]. simpl. eauto.
Qed.

Definition ex_cls (f : pvm_root_t -> pvm_object) : da_class :=
  default zero_class (class_of_ex (f (pvm_root ex_boot))).

Lemma pvm_create_string_object_binary_cat_correct_witness :
  exists p s', pvm_create_string_object_binary_cat (Some [72; 105]) 2 (Some [33]) 1 ex_boot
      = Ret p s' /\
    exists o, alloc_at (heap s') (data p) = Some o /\ da o = DA_string 3 [72; 105; 33].
Proof.
  pose proof (pvm_create_string_object_binary_cat_correct [72; 105] [33]
    (ex_cls string_class)
    ex_boot ex_boot_wf) as H.
  spec H; [apply class_of_ex_at; vm_compute; reflexivity|].
  spec H; [vm_compute; split; [discriminate|reflexivity]|]. spec H; [vm_compute; reflexivity|].
  unfold wpe in H.
  change (Z.of_nat (length [72; 105])) with 2 in H. change (Z.of_nat (length [33])) with 1 in H.
  destruct (pvm_create_string_object_binary_cat (Some [72; 105]) 2 (Some [33]) 1 ex_boot)
    as [p s'|m|m|] eqn:E; [|vm_compute in E; discriminate E|destruct H|destruct H].
  exists p, s'. split; [reflexivity|].
  destruct (fo_obj _ _ _ _ _ _ _ H) as (o & Ho & _ & _ & _ & _ & _ & Hd). exists o. split; assumption.
Defined.

Lemma pvm_create_int_object_get_witness :
  exists s', (p ← pvm_create_int_object 42; pvm_get_int p) ex_boot = Ret 42 s' /\ grows ex_boot s'.
Proof.
  pose proof (pvm_create_int_object_get 42
    (ex_cls int_class)
    ex_boot ex_boot_wf) as H.
  spec H; [apply class_of_ex_at; vm_compute; reflexivity|].
  do 2 (spec H; [vm_compute; split; [discriminate|reflexivity]|]).
  unfold wpe in H.
  destruct ((p ← pvm_create_int_object 42; pvm_get_int p) ex_boot) as [r s'|m|m|] eqn:E;
    [|vm_compute in E; discriminate E|destruct H|destruct H].
  destruct H as [-> H]. exists s'. split; [reflexivity|assumption].
Defined.

(** Two string objects to compare. *)
Definition ex_string (b : list Z) : pvm_object_storage :=
  set_da (DA_string (Z.of_nat (length b)) b) (ex_obj 1 []).
Definition ex_strings (a b : list Z) : vm :=
  zero_vm (<[1000 := ex_string a]> (<[2000 := ex_string b]> ∅)).

Lemma pvm_strcmp_correct_witness :
  exists r, pvm_strcmp (mkObj 1000 0) (mkObj 2000 0) (ex_strings [104; 105] [104; 111])
    = Ret r (ex_strings [104; 105] [104; 111]) /\ r <> 0.
Proof.
  destruct (pvm_strcmp_correct (mkObj 1000 0) (mkObj 2000 0) (ex_string [104; 105])
    (ex_string [104; 111]) 2 2 [104; 105] [104; 111] (ex_strings [104; 105] [104; 111]))
    as (r & H1 & H2).
  - reflexivity.
  - reflexivity.
  - reflexivity.
  - reflexivity.
  - simpl. lia.
  - simpl. lia.
  - repeat constructor; discriminate.
  - exists r. split; [assumption|]. intros Hr. apply H2 in Hr as [_ Hr]. discriminate Hr.
Defined.

(** With a zero byte inside, different strings compare equal. *)
Lemma pvm_strcmp_stops_at_nul :
  pvm_strcmp (mkObj 1000 0) (mkObj 2000 0) (ex_strings [97; 0; 98] [97; 0; 99])
  = Ret 0 (ex_strings [97; 0; 98] [97; 0; 99]).
Proof. reflexivity. Qed.
