(* ===== verification/Stacks.v ===== *)
(** The paged stacks of the machine ([phantom/vm/stacks.c]).

    A stack is a doubly linked list of pages of 64 cells; the first page is the
    root, its [curr] fields lead to the page in use.  The source has the same
    macros expanded for integers, objects and exception handlers: here they are
    written once for a [stack_kind].  A pointer to a page's data area is the
    address of the page object. *)

From S2P Require Import Prelude Heap Refcount Alloc Create.

Definition PVM_STACK_SIZE : nat := 64.

(** What differs between the three expansions of the macros. *)
Record stack_kind (A : Type) := mkKind {
  sk_view : data_area -> option (stack_da A);   (** [pvm_object_da( o, ..._stack )] *)
  sk_put : stack_da A -> data_area;
  sk_class : pvm_root_t -> pvm_object;
  sk_das : Z;                                   (** [sizeof(struct data_area_4_..._stack)] *)
}.
Arguments mkKind {A} _ _ _ _.
Arguments sk_view {A} _ _.
Arguments sk_put {A} _ _.
Arguments sk_class {A} _ _.
Arguments sk_das {A} _.

Definition zero_stack {A} (zero : A) : stack_da A :=
  mkStack zero_common 0 (replicate PVM_STACK_SIZE zero).

Definition as_istack (d : data_area) : option (stack_da Z) :=
  match d with DA_zero => Some (zero_stack 0) | DA_istack s => Some s | _ => None end.
Definition as_ostack (d : data_area) : option (stack_da pvm_object) :=
  match d with DA_zero => Some (zero_stack null_ref) | DA_ostack s => Some s | _ => None end.
Definition as_estack (d : data_area) : option (stack_da pvm_exception_handler) :=
  match d with
  | DA_zero => Some (zero_stack (mkHandler null_ref 0)) | DA_estack s => Some s | _ => None
  end.

Definition istack_kind : stack_kind Z := mkKind as_istack DA_istack istack_class 300.
Definition ostack_kind : stack_kind pvm_object := mkKind as_ostack DA_ostack ostack_class 556.
Definition estack_kind : stack_kind pvm_exception_handler :=
  mkKind as_estack DA_estack estack_class 812.

Definition set_st_root (r : pvm_object) (c : stack_common) : stack_common :=
  mkCommon r (st_curr c) (st_prev c) (st_next c) (free_cell_ptr c) (sSize c).
Definition set_st_curr (r : pvm_object) (c : stack_common) : stack_common :=
  mkCommon (st_root c) r (st_prev c) (st_next c) (free_cell_ptr c) (sSize c).
Definition set_st_prev (r : pvm_object) (c : stack_common) : stack_common :=
  mkCommon (st_root c) (st_curr c) r (st_next c) (free_cell_ptr c) (sSize c).
Definition set_st_next (r : pvm_object) (c : stack_common) : stack_common :=
  mkCommon (st_root c) (st_curr c) (st_prev c) r (free_cell_ptr c) (sSize c).
Definition set_free_cell (n : Z) (c : stack_common) : stack_common :=
  mkCommon (st_root c) (st_curr c) (st_prev c) (st_next c) n (sSize c).

Section Stack.
Context {A : Type} (k : stack_kind A).

Definition load_page (a : Z) : M vm (stack_da A) := load_da (sk_view k) a.
Definition store_page (a : Z) (d : stack_da A) : M vm unit := update a (set_da (sk_put k d)).

Definition set_common (f : stack_common -> stack_common) (d : stack_da A) : stack_da A :=
  mkStack (f (common d)) (curr_da d) (cells d).

(** ** Pages *)

Definition page_is_empty (d : stack_da A) : bool := free_cell_ptr (common d) =? 0.
Definition page_is_full (d : stack_da A) : bool :=
  sSize (common d) <=? free_cell_ptr (common d).

Definition page_push (a : Z) (v : A) : M vm unit :=
  d ← load_page a;
  let n := free_cell_ptr (common d) in
  cs ← some_or_fault (insertZ n v (cells d)) "push outside the page";
  store_page a (mkStack (set_free_cell (u32 (n + 1)) (common d)) (curr_da d) cs).

Definition page_pop (a : Z) : M vm A :=
  d ← load_page a;
  let n := u32 (free_cell_ptr (common d) - 1) in
  v ← some_or_fault (cells d !!z n) "pop outside the page";
  store_page a (set_common (set_free_cell n) d);;
  mret v.

Definition page_top (a : Z) : M vm A :=
  d ← load_page a;
  some_or_fault (cells d !!z u32 (free_cell_ptr (common d) - 1)) "top outside the page".

(** [set_me(to)]: make [to] the current page of the stack with root [rootda]. *)
Definition set_me (rootda : Z) (to : pvm_object) : M vm unit :=
  d ← load_page rootda;
  store_page rootda (mkStack (set_st_curr to (common d)) (data to) (cells d)).

(** [pvm_create_general_stack_object], with the class, page and area sizes of the kind. *)
Definition pvm_create_general_stack_object : M vm pvm_object :=
  c ← gets (fun s => sk_class k (pvm_root s));
  ret ← pvm_object_create_dynamic c (sk_das k);
  d ← load_page (data ret);
  store_page (data ret)
    (mkStack (mkCommon ret ret (mkObj 0 (interface (st_prev (common d))))
                (mkObj 0 (interface (st_next (common d)))) 0 (Z.of_nat PVM_STACK_SIZE))
       (data ret) (cells d));;
  mret ret.

(** [s->common.next = make(); set_next_prev();] *)
Definition make_next (rootda s : Z) : M vm unit :=
  nx ← pvm_create_general_stack_object;
  d ← load_page s;
  store_page s (set_common (set_st_next nx) d);;
  r ← load_page rootda;
  dn ← load_page (data nx);
  store_page (data nx) (set_common (fun c =>
    set_st_root (st_root (common r)) (set_st_prev (st_curr (common r)) c)) dn).

(** [check_underflow()]: the page to pop from. *)
Definition check_underflow (rootda : Z) : M vm Z :=
  r ← load_page rootda;
  let s := curr_da r in
  d ← load_page s;
  if page_is_empty d then
    isnull ← pvm_is_null (st_prev (common d));
    if (isnull : bool) then panic "stack underflow" else
    set_me rootda (st_prev (common d));;
    mret (data (st_prev (common d)))
  else mret s.

(** [check_overflow()]: the page to push to. *)
Definition check_overflow (rootda : Z) : M vm Z :=
  r ← load_page rootda;
  let s := curr_da r in
  d ← load_page s;
  if page_is_full d then
    isnull ← pvm_is_null (st_next (common d));
    (if (isnull : bool) then make_next rootda s else mret tt);;
    d ← load_page s;
    set_me rootda (st_next (common d));;
    mret (data (st_next (common d)))
  else mret s.

(** ** The stack operations *)

(** [checked]: the object stack looks again at the page. *)
Definition stack_push (checked : bool) (rootda : Z) (v : A) : M vm unit :=
  s ← check_overflow rootda;
  d ← load_page s;
  (if checked && page_is_full d then panic "opush page full after mkpage" else mret tt);;
  page_push s v.

Definition stack_pop (checked : bool) (rootda : Z) : M vm A :=
  s ← check_underflow rootda;
  d ← load_page s;
  (if checked && page_is_empty d then panic "opop page empty" else mret tt);;
  page_pop s.

Definition stack_top (checked : bool) (rootda : Z) : M vm A :=
  s ← check_underflow rootda;
  d ← load_page s;
  (if checked && page_is_empty d then panic "otop page empty" else mret tt);;
  page_top s.

Definition stack_empty (rootda : Z) : M vm bool :=
  r ← load_page rootda;
  d ← load_page (curr_da r);
  isnull ← pvm_is_null (st_prev (common d));
  mret (page_is_empty d && isnull).

(** The loop of [abs_get] and [abs_set]: the page and the cell in it.  The
    comparison with the unsigned page size makes the position unsigned. *)
Fixpoint abs_find (msg : string) (fuel : nat) (pagesize : Z) (c : pvm_object) (abs_pos : Z)
    : M vm (pvm_object * Z) :=
  match fuel with
  | O => diverge
  | S fuel' =>
      if pagesize <=? u32 abs_pos then
        d ← load_page (data c);
        isnull ← pvm_is_null (st_next (common d));
        if (isnull : bool) then panic msg
        else abs_find msg fuel' pagesize (st_next (common d)) (i32 (abs_pos - pagesize))
      else mret (c, abs_pos)
  end.

Definition abs_page (msg : string) (rootda abs_pos : Z) : M vm (pvm_object * Z) :=
  r ← load_page rootda;
  s ← get;
  abs_find msg (S (size (heap s))) (sSize (common r)) (st_root (common r)) abs_pos.

Definition stack_abs_get (msg : string) (rootda abs_pos : Z) : M vm A :=
  '(c, pos) ← abs_page msg rootda abs_pos;
  d ← load_page (data c);
  some_or_fault (cells d !!z pos) "abs_get outside the page".

(** [drop_old]: what is done with the value that is overwritten. *)
Definition stack_abs_set (msg : string) (drop_old : A -> M vm unit) (rootda abs_pos : Z) (val : A) : M vm unit :=
  '(c, pos) ← abs_page msg rootda abs_pos;
  d ← load_page (data c);
  old ← some_or_fault (cells d !!z pos) "abs_set outside the page";
  drop_old old;;
  d ← load_page (data c);
  cs ← some_or_fault (insertZ pos val (cells d)) "abs_set outside the page";
  store_page (data c) (mkStack (common d) (curr_da d) cs).

(** The loop of [pull]: down the pages from [c] until the cell is inside one. *)
Fixpoint pull_find (fuel : nat) (pagesize : Z) (c : pvm_object) (displ : Z)
    : M vm (pvm_object * Z) :=
  match fuel with
  | O => diverge
  | S fuel' =>
      if displ <? 0 then
        d ← load_page (data c);
        isnull ← pvm_is_null (st_prev (common d));
        if (isnull : bool) then panic "stack pull: underflow"
        else pull_find fuel' pagesize (st_prev (common d)) (i32 (displ + pagesize))
      else mret (c, displ)
  end.

Definition stack_pull (rootda depth : Z) : M vm A :=
  (if depth <? 0 then panic "stack pull: overflow" else mret tt);;
  r ← load_page rootda;
  s ← load_page (curr_da r);
  st ← get;
  '(c, displ) ← pull_find (S (size (heap st))) (sSize (common s)) (st_curr (common s))
                  (i32 (free_cell_ptr (common s) - depth - 1));
  d ← load_page (data c);
  some_or_fault (cells d !!z displ) "pull outside the page".

(** [..._foreach]: from the top down, until [func] returns true; [pass] is what
    the caller hands to [func], which may change it. *)
Fixpoint page_foreach {P} (func : P -> A -> M vm (bool * P)) (pass : P) (l : list A)
    : M vm (bool * P) :=
  match l with
  | [] => mret (false, pass)
  | v :: rest =>
      '(b, pass) ← func pass v;
      if (b : bool) then mret (true, pass) else page_foreach func pass rest
  end.

Fixpoint stack_foreach_loop {P} (fuel : nat) (func : P -> A -> M vm (bool * P)) (pass : P)
    (c : pvm_object) : M vm (bool * P) :=
  match fuel with
  | O => diverge
  | S fuel' =>
      isnull ← pvm_is_null c;
      if (isnull : bool) then mret (false, pass) else
      d ← load_page (data c);
      let n := Z.to_nat (free_cell_ptr (common d)) in
      (if (n <=? length (cells d))%nat then mret tt else fault "cells outside the page");;
      '(b, pass) ← page_foreach func pass (rev (take n (cells d)));
      if (b : bool) then mret (true, pass) else
      d ← load_page (data c);
      stack_foreach_loop fuel' func pass (st_prev (common d))
  end.

Definition stack_foreach {P} (func : P -> A -> M vm (bool * P)) (pass : P) (rootda : Z)
    : M vm (bool * P) :=
  r ← load_page rootda;
  s ← load_page (curr_da r);
  st ← get;
  stack_foreach_loop (S (S (size (heap st)))) func pass (st_curr (common s)).
End Stack.

(** ** The three stacks *)

Definition pvm_create_istack_object : M vm pvm_object :=
  pvm_create_general_stack_object istack_kind.
Definition pvm_create_ostack_object : M vm pvm_object :=
  pvm_create_general_stack_object ostack_kind.
Definition pvm_create_estack_object : M vm pvm_object :=
  pvm_create_general_stack_object estack_kind.

Definition pvm_ostack_push (rootda : Z) (o : pvm_object) : M vm unit :=
  stack_push ostack_kind true rootda o.
Definition pvm_ostack_pop (rootda : Z) : M vm pvm_object := stack_pop ostack_kind true rootda.
Definition pvm_ostack_top (rootda : Z) : M vm pvm_object := stack_top ostack_kind true rootda.
Definition pvm_ostack_empty (rootda : Z) : M vm bool := stack_empty ostack_kind rootda.
Definition pvm_ostack_abs_get (rootda pos : Z) : M vm pvm_object :=
  stack_abs_get ostack_kind "o abs_get: out of stack" rootda pos.
(** The reference that is overwritten is released. *)
Definition pvm_ostack_abs_set (rootda pos : Z) (val : pvm_object) : M vm unit :=
  stack_abs_set ostack_kind "o abs_set: out of stack"
    (fun old => if data old =? 0 then mret tt else ref_dec_o old) rootda pos val.
Definition pvm_ostack_pull (rootda depth : Z) : M vm pvm_object :=
  stack_pull ostack_kind rootda depth.

Definition pvm_istack_push (rootda : Z) (v : Z) : M vm unit := stack_push istack_kind false rootda v.
Definition pvm_istack_pop (rootda : Z) : M vm Z := stack_pop istack_kind false rootda.
Definition pvm_istack_top (rootda : Z) : M vm Z := stack_top istack_kind false rootda.
Definition pvm_istack_empty (rootda : Z) : M vm bool := stack_empty istack_kind rootda.
Definition pvm_istack_abs_get (rootda pos : Z) : M vm Z :=
  stack_abs_get istack_kind "i abs_get: out of stack" rootda pos.
Definition pvm_istack_abs_set (rootda pos val : Z) : M vm unit :=
  stack_abs_set istack_kind "i abs_set: out of stack" (fun _ => mret tt) rootda pos val.

Definition pvm_estack_push (rootda : Z) (e : pvm_exception_handler) : M vm unit :=
  stack_push estack_kind false rootda e.
Definition pvm_estack_pop (rootda : Z) : M vm pvm_exception_handler :=
  stack_pop estack_kind false rootda.
Definition pvm_estack_top (rootda : Z) : M vm pvm_exception_handler :=
  stack_top estack_kind false rootda.
Definition pvm_estack_empty (rootda : Z) : M vm bool := stack_empty estack_kind rootda.
Definition pvm_estack_foreach {P} (func : P -> pvm_exception_handler -> M vm (bool * P))
    (pass : P) (rootda : Z) : M vm (bool * P) := stack_foreach estack_kind func pass rootda.

(** ** 64 bit access to the integer stack

    The cells are addressed as 64 bit ones: entry [i] is the pair of cells
    [2*i] and [2*i+1], while the tests count single cells. *)

Definition lpage_is_empty (d : stack_da Z) : bool := free_cell_ptr (common d) <? 2.
Definition lpage_is_full (d : stack_da Z) : bool :=
  u32 (sSize (common d) - 1) <=? free_cell_ptr (common d).

Definition lcheck_underflow (rootda : Z) : M vm Z :=
  r ← load_page istack_kind rootda;
  let s := curr_da r in
  d ← load_page istack_kind s;
  if lpage_is_empty d then
    isnull ← pvm_is_null (st_prev (common d));
    if (isnull : bool) then panic "stack underflow" else
    set_me istack_kind rootda (st_prev (common d));;
    mret (data (st_prev (common d)))
  else mret s.

Definition lcheck_overflow (rootda : Z) : M vm Z :=
  r ← load_page istack_kind rootda;
  let s := curr_da r in
  d ← load_page istack_kind s;
  if lpage_is_full d then
    isnull ← pvm_is_null (st_next (common d));
    (if (isnull : bool) then make_next istack_kind rootda s else mret tt);;
    d ← load_page istack_kind s;
    set_me istack_kind rootda (st_next (common d));;
    mret (data (st_next (common d)))
  else mret s.

Definition lpage_write (a n v : Z) : M vm unit :=
  d ← load_page istack_kind a;
  cs ← some_or_fault (insertZ (2 * n) (i32 v) (cells d) ≫= insertZ (2 * n + 1) (i32 (v / 2 ^ 32)))
         "push outside the page";
  store_page istack_kind a (mkStack (set_free_cell (u32 (n + 1)) (common d)) (curr_da d) cs).

Definition lpage_read (d : stack_da Z) (n : Z) : option Z :=
  lo ← cells d !!z (2 * n); hi ← cells d !!z (2 * n + 1); Some (i64 (u32 lo + hi * 2 ^ 32)).

Definition pvm_lstack_push (rootda v : Z) : M vm unit :=
  s ← lcheck_overflow rootda;
  d ← load_page istack_kind s;
  lpage_write s (free_cell_ptr (common d)) v.

Definition pvm_lstack_pop (rootda : Z) : M vm Z :=
  s ← lcheck_underflow rootda;
  d ← load_page istack_kind s;
  let n := u32 (free_cell_ptr (common d) - 1) in
  v ← some_or_fault (lpage_read d n) "pop outside the page";
  store_page istack_kind s (set_common (set_free_cell n) d);;
  mret v.

(** [pvm_lstack_top] returns an [int]. *)
Definition pvm_lstack_top (rootda : Z) : M vm Z :=
  s ← lcheck_underflow rootda;
  d ← load_page istack_kind s;
  v ← some_or_fault (lpage_read d (u32 (free_cell_ptr (common d) - 1))) "top outside the page";
  mret (i32 v).

(** ** Refinement to lists *)

(** Reading and writing a page's data area at its type. *)
Class StackLaws {A} (k : stack_kind A) := {
  sl_get_put d : sk_view k (sk_put k d) = Some d;
  sl_zero : exists z, sk_view k DA_zero = Some (zero_stack z);
  sl_view da d : sk_view k da = Some d -> da = DA_zero \/ da = sk_put k d;
  sl_das : 0 <= sk_das k < 2 ^ 31;
}.

#[export] Instance istack_laws : StackLaws istack_kind.
Proof. split; [done|by exists 0|intros []; naive_solver|simpl; lia]. Qed.
#[export] Instance ostack_laws : StackLaws ostack_kind.
Proof. split; [done|by exists null_ref|intros []; naive_solver|simpl; lia]. Qed.
#[export] Instance estack_laws : StackLaws estack_kind.
Proof. split; [done|by exists (mkHandler null_ref 0)|intros []; naive_solver|simpl; lia]. Qed.

Section Refine.
Context {A : Type} (k : stack_kind A) `{Hk : !StackLaws k}.
Implicit Types (s : vm).

Definition page : Type := Z * Z * list A.
Definition addr (p : page) : Z := p.1.1.
Definition used (p : page) : Z := p.1.2.
Definition content (p : page) : list A := p.2.

(** [d] is the data area of the allocated page [a]. *)
Definition page_da (s : vm) (a : Z) (d : stack_da A) : Prop :=
  exists o, alloc_at (heap s) a = Some o /\ sk_view k (da o) = Some d.

(** The page [p] of the stack with root [r], between its neighbours. *)
Definition page_at (s : vm) (r prev next : Z) (p : page) : Prop :=
  exists d, page_da s (addr p) d /\
    data (st_prev (common d)) = prev /\ data (st_next (common d)) = next /\
    free_cell_ptr (common d) = used p /\ cells d = content p /\
    sSize (common d) = Z.of_nat PVM_STACK_SIZE /\ length (content p) = PVM_STACK_SIZE /\
    data (st_root (common d)) = r /\ (addr p <> r -> data (st_curr (common d)) = addr p).

Definition head_addr (l : list page) (next : Z) : Z :=
  match l with [] => next | p :: _ => addr p end.
Fixpoint last_addr (prev : Z) (l : list page) : Z :=
  match l with [] => prev | p :: l' => last_addr (addr p) l' end.

(** A linked run of pages between [prev] and [next]. *)
Fixpoint chain (s : vm) (r prev : Z) (l : list page) (next : Z) : Prop :=
  match l with
  | [] => True
  | p :: l' => page_at s r prev (head_addr l' next) p /\ chain s r (addr p) l' next
  end.

(** The current page recorded in the root. *)
Definition cur_at (s : vm) (r c : Z) : Prop :=
  exists d, page_da s r d /\ data (st_curr (common d)) = c /\ curr_da d = c.

Definition not_null (s : vm) (a : Z) : Prop := a <> 0 /\ a <> data (null_object (pvm_root s)).

(** The pages [ps], of which the current one is [c], hold [l], bottom first. *)
Record stack_pages (s : vm) (r : Z) (ps : list Z) (pre : list page) (c : page)
    (post : list page) (l : list A) : Prop := {
  sp_addrs : ps = map addr (pre ++ c :: post);
  sp_chain : chain s r 0 (pre ++ c :: post) 0;
  sp_nodup : NoDup ps;
  sp_null a : a ∈ ps -> not_null s a;
  sp_root : head_addr (pre ++ [c]) 0 = r;
  sp_full : Forall (fun p => used p = Z.of_nat PVM_STACK_SIZE) pre;
  sp_used : 0 <= used c <= Z.of_nat PVM_STACK_SIZE;
  sp_free : Forall (fun p => used p = 0) post;
  sp_cur : cur_at s r (addr c);
  sp_list : l = concat (map content pre) ++ take (Z.to_nat (used c)) (content c);
}.

Definition stack_rep (s : vm) (r : Z) (ps : list Z) (l : list A) : Prop :=
  exists pre c post, stack_pages s r ps pre c post l.

(** ** Frames *)

(** Only the page [a] is written. *)
Record wrote (s : vm) (a : Z) (d : stack_da A) (s' : vm) : Prop := {
  wr_wf : heap_wf s';
  wr_env : alloc_env s' = alloc_env s;
  wr_page : page_da s' a d;
  wr_frame x : x <> a -> alloc_at (heap s') x = alloc_at (heap s) x;
}.

Lemma wp_load_page s a d (Q : stack_da A -> vm -> Prop) :
  page_da s a d -> Q d s -> wp (load_page k a) s Q.
Proof. intros (o & Ho & Hd) HQ. eapply wp_load_da; [by apply heap_of_alloc|done|done]. Qed.

Lemma wp_store_page s a d d' (Q : unit -> vm -> Prop) :
  heap_wf s -> page_da s a d -> (forall s', wrote s a d' s' -> Q tt s') ->
  wp (store_page k a d') s Q.
Proof.
  intros Hwf (o & Ho & _) HQ. pose proof (heap_of_alloc _ _ _ Ho) as Eo.
  apply alloc_at_Some in Ho as [_ Ha].
  eapply wp_update; [done|]. apply HQ. split; simpl.
  - by eapply heap_wf_upd.
  - done.
  - exists (set_da (sk_put k d') o). simpl. split; [|apply sl_get_put].
    apply alloc_at_Some. by rewrite lookup_insert_eq.
  - intros x Hx. unfold alloc_at. by rewrite lookup_insert_ne.
Qed.

Lemma env_root s s' : alloc_env s' = alloc_env s -> pvm_root s' = pvm_root s.
Proof. intros E. unfold alloc_env in E. by injection E. Qed.

Lemma page_da_frame s s' a d :
  alloc_at (heap s') a = alloc_at (heap s) a -> page_da s a d -> page_da s' a d.
Proof. intros E (o & Ho & Hd). exists o. by rewrite E. Qed.

Lemma page_da_fun s a d d' : page_da s a d -> page_da s a d' -> d = d'.
Proof. intros (o & Ho & Hd) (o' & Ho' & Hd'). congruence. Qed.

Lemma chain_keeps s s' r prev l next :
  (forall a o, a ∈ map addr l -> alloc_at (heap s) a = Some o -> alloc_at (heap s') a = Some o) ->
  chain s r prev l next -> chain s' r prev l next.
Proof.
  revert prev. induction l as [|p l IH]; intros prev Hf; simpl; [done|].
  intros [(d & (o & Ho & Hd) & Hp) Hc]. split.
  - exists d. split; [|done]. exists o. split; [|done]. apply Hf; [by left|done].
  - apply IH; [|done]. intros a q Ha. apply Hf. by right.
Qed.

Lemma chain_frame s s' r prev l next :
  (forall a, a ∈ map addr l -> alloc_at (heap s') a = alloc_at (heap s) a) ->
  chain s r prev l next -> chain s' r prev l next.
Proof. intros Hf. apply chain_keeps. intros a o Ha. by rewrite Hf. Qed.

Lemma chain_app s r prev l1 l2 next :
  chain s r prev (l1 ++ l2) next <->
  chain s r prev l1 (head_addr l2 next) /\ chain s r (last_addr prev l1) l2 next.
Proof.
  revert prev. induction l1 as [|p l1 IH]; intros prev; simpl; [naive_solver|].
  rewrite IH. assert (head_addr (l1 ++ l2) next = head_addr l1 (head_addr l2 next)) as ->
    by by destruct l1. naive_solver.
Qed.

(** Pages are where the chain says, at any position. *)
Lemma chain_page s r prev l1 p l2 next :
  chain s r prev (l1 ++ p :: l2) next -> page_at s r (last_addr prev l1) (head_addr l2 next) p.
Proof. rewrite chain_app. simpl. naive_solver. Qed.

Lemma wp_page_null s o (Q : bool -> vm -> Prop) :
  (data o = 0 -> Q true s) -> (not_null s (data o) -> Q false s) ->
  (data o = 0 \/ not_null s (data o)) -> wp (pvm_is_null o) s Q.
Proof.
  intros H0 H1 [Hz|Hn]; apply wp_is_null.
  - rewrite Hz. by apply H0.
  - destruct Hn as [Hn0 Hn1]. destruct (Z.eqb_spec (data o) 0); [done|].
    destruct (Z.eqb_spec (data o) (data (null_object (pvm_root s)))); [done|]. by apply H1.
Qed.
End Refine.

Section Moves.
Context {A : Type} (k : stack_kind A) `{Hk : !StackLaws k}.
Implicit Types (s : vm) (pre post : list (page (A := A))).

(** The stack's pages are the only objects that change. *)
Record only_pages (ps : list Z) (s s' : vm) : Prop := {
  op_wf : heap_wf s';
  op_env : alloc_env s' = alloc_env s;
  op_frame x : x ∉ ps -> alloc_at (heap s') x = alloc_at (heap s) x;
}.

Lemma only_pages_trans ps s1 s2 s3 :
  only_pages ps s1 s2 -> only_pages ps s2 s3 -> only_pages ps s1 s3.
Proof.
  intros [A1 A2 A3] [B1 B2 B3]. split; [done|congruence|]. intros x Hx. rewrite B3, A3; done.
Qed.

Lemma not_null_env s s' a : alloc_env s' = alloc_env s -> not_null s a -> not_null s' a.
Proof. intros E. unfold not_null. by rewrite (env_root _ _ E). Qed.

(** The root page may change its record of the current page. *)
Lemma chain_root s s' r prev l next d d' :
  page_da k s r d -> page_da k s' r d' ->
  (forall x, x <> r -> alloc_at (heap s') x = alloc_at (heap s) x) ->
  st_prev (common d') = st_prev (common d) -> st_next (common d') = st_next (common d) ->
  st_root (common d') = st_root (common d) -> sSize (common d') = sSize (common d) ->
  free_cell_ptr (common d') = free_cell_ptr (common d) -> cells d' = cells d ->
  chain k s r prev l next -> chain k s' r prev l next.
Proof.
  intros Hd Hd' Hf E1 E2 E3 E4 E5 E6. revert prev.
  induction l as [|p l IH]; intros prev; simpl; [done|]. intros [(dp & Hp & Hrest) Hc].
  split; [|by apply IH]. destruct (decide (addr p = r)) as [Hr|Hr].
  - rewrite <- Hr in Hd, Hd'. pose proof (page_da_fun k _ _ _ _ Hd Hp) as ->.
    exists d'. split; [done|]. rewrite E1, E2, E3, E4, E5, E6. naive_solver.
  - exists dp. split; [|done]. eapply page_da_frame; [|done]. by apply Hf.
Qed.

Lemma set_me_spec r to all s :
  heap_wf s -> chain k s r 0 all 0 -> (exists c, cur_at k s r c) ->
  wp (set_me k r to) s (fun _ s' =>
    cur_at k s' r (data to) /\ chain k s' r 0 all 0 /\ only_pages [r] s s').
Proof.
  intros Hwf Hc (c & d & Hd & _). unfold set_me. wp_step.
  eapply wp_load_page; [done|]. eapply wp_store_page; [done..|]. intros s' [W1 W2 W3 W4].
  split_and!.
  - eexists. split; [done|]. done.
  - eapply (chain_root s s' r 0 all 0); try done.
  - split; [done|done|]. intros x Hx. apply W4. by intros ->; apply Hx; left.
Qed.

Lemma stack_pages_root s r ps pre c post l : stack_pages k s r ps pre c post l -> r ∈ ps.
Proof.
  intros H. rewrite (sp_addrs _ _ _ _ _ _ _ _ H). pose proof (sp_root _ _ _ _ _ _ _ _ H) as Hr.
  destruct pre; simpl in *; subst; by left.
Qed.

Lemma last_addr_app prev (l : list (page (A := A))) p : last_addr prev (l ++ [p]) = addr p.
Proof. revert prev. induction l as [|q l IH]; intros prev; simpl; [done|apply IH]. Qed.

Lemma stack_pages_only s s' r ps pre c post l :
  stack_pages k s r ps pre c post l -> only_pages [r] s s' -> only_pages ps s s'.
Proof.
  intros H [O1 O2 O3]. split; [done|done|]. intros x Hx. apply O3.
  intros ->%list_elem_of_singleton. apply Hx. by eapply stack_pages_root.
Qed.

(** Moving the current page one down: the page left is empty. *)
Lemma move_down s s' r ps pre p c post l :
  stack_pages k s r ps (pre ++ [p]) c post l -> used c = 0 ->
  only_pages [r] s s' -> cur_at k s' r (addr p) ->
  chain k s' r 0 ((pre ++ [p]) ++ c :: post) 0 ->
  stack_pages k s' r ps pre p (c :: post) l.
Proof.
  intros [H1 H2 H3 H4 H5 H6 H7 H8 H9 H10] Hu [O1 O2 O3] Hcur Hch.
  rewrite <- app_assoc in *. simpl in *. apply Forall_app in H6 as [H6 H6'].
  rewrite Forall_singleton in H6'. unfold PVM_STACK_SIZE in *.
  destruct (chain_page k s' r 0 pre p (c :: post) 0 Hch) as (d & _ & _ & _ & _ & _ & _ & Hlen & _).
  split; try done.
  - intros a Ha. eapply not_null_env; [done|]. auto.
  - destruct pre; done.
  - unfold PVM_STACK_SIZE. lia.
  - by constructor.
  - rewrite H10, Hu. simpl. rewrite app_nil_r, map_app, concat_app. simpl. rewrite app_nil_r.
    rewrite H6', take_ge; [done|]. rewrite Hlen. unfold PVM_STACK_SIZE. lia.
Qed.

(** Moving up from a full page. *)
Lemma move_up s s' r ps pre c p post l :
  stack_pages k s r ps pre c (p :: post) l -> used c = Z.of_nat PVM_STACK_SIZE ->
  only_pages [r] s s' -> cur_at k s' r (addr p) ->
  chain k s' r 0 (pre ++ c :: p :: post) 0 ->
  stack_pages k s' r ps (pre ++ [c]) p post l.
Proof.
  intros [H1 H2 H3 H4 H5 H6 H7 H8 H9 H10] Hu [O1 O2 O3] Hcur Hch.
  apply Forall_cons_1 in H8 as [Hp H8'].
  destruct (chain_page k s' r 0 pre c (p :: post) 0 Hch) as (d & _ & _ & _ & _ & _ & _ & Hlen & _).
  unfold PVM_STACK_SIZE in *. split; rewrite <- ?app_assoc; try done.
  - intros a Ha. eapply not_null_env; [done|]. auto.
  - destruct pre; done.
  - apply Forall_app. split; [done|]. by constructor.
  - unfold PVM_STACK_SIZE. lia.
  - rewrite H10, Hp. simpl. rewrite app_nil_r, map_app, concat_app. simpl. rewrite app_nil_r.
    rewrite Hu, take_ge; [done|]. rewrite Hlen. lia.
Qed.

Lemma cur_page s r ps pre c post l :
  stack_pages k s r ps pre c post l ->
  exists d dc, page_da k s r d /\ curr_da d = addr c /\ page_da k s (addr c) dc /\
    data (st_prev (common dc)) = last_addr 0 pre /\ data (st_next (common dc)) = head_addr post 0 /\
    free_cell_ptr (common dc) = used c /\ cells dc = content c /\
    sSize (common dc) = Z.of_nat PVM_STACK_SIZE /\ length (content c) = PVM_STACK_SIZE.
Proof.
  intros H. destruct (sp_cur _ _ _ _ _ _ _ _ H) as (d & Hd & _ & Hc).
  destruct (chain_page k s r 0 pre c post 0 (sp_chain _ _ _ _ _ _ _ _ H)) as (dc & Hdc & Hrest).
  exists d, dc. naive_solver.
Qed.

Lemma last_addr_in s r ps pre p c post l :
  stack_pages k s r ps (pre ++ [p]) c post l -> not_null s (addr p).
Proof.
  intros H. apply (sp_null _ _ _ _ _ _ _ _ H). rewrite (sp_addrs _ _ _ _ _ _ _ _ H).
  rewrite !map_app. simpl. set_solver.
Qed.

(** The page to pop from. *)
Lemma check_underflow_spec s r ps pre c post l :
  heap_wf s -> stack_pages k s r ps pre c post l -> l <> [] ->
  wp (check_underflow k r) s (fun a s' => exists pre' c' post',
    stack_pages k s' r ps pre' c' post' l /\ a = addr c' /\ 0 < used c' /\ only_pages ps s s').
Proof.
  intros Hwf H Hl. destruct (cur_page _ _ _ _ _ _ _ H) as (d & dc & Hd & Hcd & Hdc & Hp & Hn & Hu & Hcs & _).
  unfold check_underflow. wp_step. eapply wp_load_page; [done|]. rewrite Hcd. wp_step.
  eapply wp_load_page; [done|]. unfold page_is_empty. rewrite Hu.
  destruct (Z.eqb_spec (used c) 0) as [Hz|Hnz].
  - destruct pre as [|p pre _] using rev_ind.
    { exfalso. apply Hl. rewrite (sp_list _ _ _ _ _ _ _ _ H), Hz. done. }
    rewrite last_addr_app in Hp. pose proof (last_addr_in _ _ _ _ _ _ _ _ H) as Hnn.
    wp_step. apply wp_page_null.
    + rewrite Hp. intros Hpz. by destruct Hnn.
    + intros _. wp_step. eapply wp_mono.
      { eapply (set_me_spec r _ ((pre ++ [p]) ++ c :: post)); [done|apply H|].
        eexists. apply H. }
      intros [] s1 (Hcur & Hch & Hop). rewrite Hp in *. wp_step.
      exists pre, p, (c :: post). pose proof (sp_full _ _ _ _ _ _ _ _ H) as Hf.
      apply Forall_app in Hf as [_ Hf]. rewrite Forall_singleton in Hf. unfold PVM_STACK_SIZE in Hf.
      split_and!; [by eapply move_down|done|lia|by eapply stack_pages_only].
    + right. by rewrite Hp.
  - wp_step. exists pre, c, post. pose proof (sp_used _ _ _ _ _ _ _ _ H).
    split_and!; [done|done|lia|by split].
Qed.

Lemma check_underflow_empty s r ps :
  stack_rep k s r ps [] -> check_underflow k r s = Panic "stack underflow".
Proof.
  intros (pre & c & post & H).
  destruct (cur_page _ _ _ _ _ _ _ H) as (d & dc & (o & Ho & Hd) & Hcd & (oc & Hoc & Hdc) & Hp & _ & Hu & _ & _ & Hlen).
  pose proof (sp_list _ _ _ _ _ _ _ _ H) as Hl. symmetry in Hl. apply app_eq_nil in Hl as [Hl1 Hl2].
  assert (used c = 0) as Hz.
  { pose proof (sp_used _ _ _ _ _ _ _ _ H). destruct (content c); [discriminate Hlen|].
    destruct (Z.to_nat (used c)) eqn:E; [lia|discriminate Hl2]. }
  assert (pre = []) as ->.
  { destruct pre as [|p pre]; [done|]. simpl in Hl1. apply app_eq_nil in Hl1 as [Hl1 _].
    destruct (sp_chain _ _ _ _ _ _ _ _ H) as [(dp & _ & _ & _ & _ & _ & _ & Hlp & _) _].
    rewrite Hl1 in Hlp. discriminate Hlp. }
  unfold check_underflow, load_page, load_da, load, pvm_is_null, gets, mbind, M_bind, mret, M_ret.
  rewrite (heap_of_alloc _ _ _ Ho). unfold some_or_fault. rewrite Hd. simpl.
  rewrite Hcd, (heap_of_alloc _ _ _ Hoc), Hdc. simpl. unfold page_is_empty. rewrite Hu, Hz.
  simpl in Hp. simpl. by rewrite Hp.
Qed.
End Moves.

Section Ops.
Context {A : Type} (k : stack_kind A) `{Hk : !StackLaws k}.
Implicit Types (s : vm) (pre post : list (page (A := A))).

Lemma stack_pages_split s r ps pre c post l :
  stack_pages k s r ps pre c post l ->
  (addr c ∉ map addr pre) /\ (addr c ∉ map addr post) /\ addr c ∈ ps.
Proof.
  intros H. pose proof (sp_nodup _ _ _ _ _ _ _ _ H) as Hn.
  rewrite (sp_addrs _ _ _ _ _ _ _ _ H), map_app in *. simpl in *.
  apply list.NoDup_app in Hn as (_ & Hd & Hn). apply NoDup_cons_1_1 in Hn as Hp.
  split_and!; [|done|set_solver]. intros Hin. apply (Hd _ Hin). by left.
Qed.

(** Writing cells and fill level of the current page. *)
Lemma set_cur s s' r ps pre c post l n cs dc :
  stack_pages k s r ps pre c post l -> page_da k s (addr c) dc ->
  wrote k s (addr c) (mkStack (set_free_cell n (common dc)) (curr_da dc) cs) s' ->
  0 <= n <= Z.of_nat PVM_STACK_SIZE -> length cs = PVM_STACK_SIZE ->
  stack_pages k s' r ps pre (addr c, n, cs) post (concat (map content pre) ++ take (Z.to_nat n) cs)
  /\ only_pages ps s s'.
Proof.
  intros H Hdc [W1 W2 W3 W4] Hn Hcs. destruct (stack_pages_split _ _ _ _ _ _ _ H) as (Np & Nq & Hin).
  assert (only_pages ps s s') as Hop.
  { split; [done|done|]. intros x Hx. apply W4. by intros ->. }
  split; [|done]. destruct H as [H1 H2 H3 H4 H5 H6 H7 H8 H9 H10]. split; try done.
  - rewrite H1, !map_app. done.
  - apply chain_app in H2 as [C1 [C2 C3]]. apply chain_app. split; [|split].
    + eapply chain_frame; [|done]. intros a Ha. apply W4. by intros ->.
    + destruct C2 as (d & Hd & Hrest). pose proof (page_da_fun k _ _ _ _ Hdc Hd) as ->.
      destruct Hrest as (E1 & E2 & E3 & E4 & E5 & E6 & E7 & E8).
      exists (mkStack (set_free_cell n (common d)) (curr_da d) cs). split; [exact W3|]. done.
    + eapply chain_frame; [|done]. intros a Ha. apply W4. by intros ->.
  - intros a Ha. eapply not_null_env; [done|]. auto.
  - by destruct pre.
  - destruct H9 as (d & Hd & Hc1 & Hc2). destruct (decide (r = addr c)) as [Hr|Hr].
    + rewrite Hr in *. pose proof (page_da_fun k _ _ _ _ Hdc Hd) as ->. by eexists.
    + exists d. split; [|done]. eapply page_da_frame; [|done]. by apply W4.
Qed.

(** The top element, from the current page. *)
Lemma top_cell s r ps pre c post l v :
  stack_pages k s r ps pre c post (l ++ [v]) -> 0 < used c ->
  content c !!z u32 (used c - 1) = Some v /\
  l = concat (map content pre) ++ take (Z.to_nat (used c - 1)) (content c).
Proof.
  intros H Hu. pose proof (sp_used _ _ _ _ _ _ _ _ H) as Hb. pose proof (sp_list _ _ _ _ _ _ _ _ H) as Hl.
  destruct (cur_page k _ _ _ _ _ _ _ H) as (_ & _ & _ & _ & _ & _ & _ & _ & _ & _ & Hlen).
  unfold PVM_STACK_SIZE in *.
  destruct (lookup_lt_is_Some_2 (content c) (Z.to_nat (used c - 1))) as [w Hw]; [lia|].
  replace (Z.to_nat (used c)) with (S (Z.to_nat (used c - 1))) in Hl by lia.
  rewrite (take_S_r _ _ w) in Hl by done. rewrite app_assoc in Hl. apply app_inj_tail in Hl as [-> ->].
  rewrite u32_id by lia. split; [|done].
  rewrite <- (Z2Nat.id (used c - 1)) by lia. by rewrite lookupZ_nat.
Qed.

(** The stack holds [l] and its current page is not full. *)
Definition stack_room s (r : Z) (ps : list Z) (l : list A) : Prop :=
  exists pre c post, stack_pages k s r ps pre c post l /\ used c < Z.of_nat PVM_STACK_SIZE.

Lemma room_rep s r ps l : stack_room s r ps l -> stack_rep k s r ps l.
Proof. intros (pre & c & post & H & _). by exists pre, c, post. Qed.

(** A pop leaves room for a push. *)
Lemma stack_pop_room chk s r ps l v :
  heap_wf s -> stack_rep k s r ps (l ++ [v]) ->
  wp (stack_pop k chk r) s (fun w s' => w = v /\ stack_room s' r ps l /\ only_pages ps s s').
Proof.
  intros Hwf (pre & c & post & H). unfold stack_pop. wp_step.
  eapply wp_mono; [eapply (check_underflow_spec k); [done|done|by destruct l]|].
  intros a s1 (pre1 & c1 & post1 & H1 & -> & Hu & Hop).
  destruct (cur_page k _ _ _ _ _ _ _ H1) as (_ & dc & _ & _ & Hdc & _ & _ & Hfc & Hcs & _ & Hlen).
  destruct (top_cell _ _ _ _ _ _ _ _ H1 Hu) as [Hv Hl].
  pose proof (sp_used _ _ _ _ _ _ _ _ H1) as Hb. unfold PVM_STACK_SIZE in *.
  wp_step. eapply wp_load_page; [done|]. unfold page_is_empty. rewrite Hfc.
  destruct (Z.eqb_spec (used c1) 0); [lia|]. rewrite andb_false_r. wp_step. wp_step.
  unfold page_pop. wp_step. eapply wp_load_page; [done|]. rewrite Hfc, Hcs. wp_step. wp_step; [done|].
  wp_step. eapply (wp_store_page k); [apply Hop|done|]. intros s2 Hw. wp_step.
  assert (set_common (set_free_cell (u32 (used c1 - 1))) dc =
    mkStack (set_free_cell (used c1 - 1) (common dc)) (curr_da dc) (content c1)) as Eq.
  { unfold set_common. by rewrite u32_id, Hcs by lia. }
  rewrite Eq in Hw. destruct (set_cur _ _ _ _ _ _ _ _ _ _ _ H1 Hdc Hw) as [Hs2 Hop2];
    [unfold PVM_STACK_SIZE; lia|done|].
  split_and!; [done| |by eapply only_pages_trans].
  exists pre1, (addr c1, used c1 - 1, content c1), post1. rewrite Hl. split; [done|].
  unfold PVM_STACK_SIZE, used in *. simpl. lia.
Qed.

Lemma stack_pop_spec chk s r ps l v :
  heap_wf s -> stack_rep k s r ps (l ++ [v]) ->
  wp (stack_pop k chk r) s (fun w s' => w = v /\ stack_rep k s' r ps l /\ only_pages ps s s').
Proof.
  intros Hwf Hr. eapply wp_mono; [by apply stack_pop_room|]. intros w s' (-> & ?%room_rep & ?). done.
Qed.

Lemma stack_top_spec chk s r ps l v :
  heap_wf s -> stack_rep k s r ps (l ++ [v]) ->
  wp (stack_top k chk r) s (fun w s' => w = v /\ stack_rep k s' r ps (l ++ [v]) /\ only_pages ps s s').
Proof.
  intros Hwf (pre & c & post & H). unfold stack_top. wp_step.
  eapply wp_mono; [eapply (check_underflow_spec k); [done|done|by destruct l]|].
  intros a s1 (pre1 & c1 & post1 & H1 & -> & Hu & Hop).
  destruct (cur_page k _ _ _ _ _ _ _ H1) as (_ & dc & _ & _ & Hdc & _ & _ & Hfc & Hcs & _ & Hlen).
  destruct (top_cell _ _ _ _ _ _ _ _ H1 Hu) as [Hv _].
  wp_step. eapply wp_load_page; [done|]. unfold page_is_empty. rewrite Hfc.
  destruct (Z.eqb_spec (used c1) 0); [lia|]. rewrite andb_false_r. wp_step. wp_step.
  unfold page_top. wp_step. eapply wp_load_page; [done|]. rewrite Hfc, Hcs. wp_step; [done|].
  split_and!; [done|by exists pre1, c1, post1|done].
Qed.

Lemma full_nonempty s r ps pre p c post l :
  stack_pages k s r ps (pre ++ [p]) c post l -> l <> [].
Proof.
  intros H. rewrite (sp_list _ _ _ _ _ _ _ _ H). pose proof (sp_chain _ _ _ _ _ _ _ _ H) as Hc.
  rewrite <- app_assoc in Hc. simpl in Hc.
  destruct (chain_page k _ _ _ _ _ _ _ Hc) as (dp & _ & _ & _ & _ & _ & _ & Hlp & _).
  rewrite map_app, concat_app. simpl. rewrite app_nil_r.
  intros [[_ Hnil]%app_eq_nil _]%app_eq_nil. rewrite Hnil in Hlp. discriminate Hlp.
Qed.

Lemma stack_empty_spec s r ps l :
  stack_rep k s r ps l -> wp (stack_empty k r) s (fun b s' => s' = s /\ (b = true <-> l = [])).
Proof.
  intros (pre & c & post & H).
  destruct (cur_page k _ _ _ _ _ _ _ H) as (d & dc & Hd & Hcd & Hdc & Hp & _ & Hfc & _ & _ & Hlen).
  unfold stack_empty. wp_step. eapply wp_load_page; [done|]. rewrite Hcd. wp_step.
  eapply wp_load_page; [done|]. wp_step. unfold page_is_empty. rewrite Hfc.
  pose proof (sp_list _ _ _ _ _ _ _ _ H) as Hl. pose proof (sp_used _ _ _ _ _ _ _ _ H) as Hb.
  destruct pre as [|p pre _] using rev_ind.
  - simpl in Hp, Hl. apply wp_page_null; [|by intros [? _]|by left]. intros _. wp_step. split; [done|].
    rewrite andb_true_r, Hl. destruct (Z.eqb_spec (used c) 0) as [->|]; [done|]. split; [done|].
    destruct (content c); [discriminate Hlen|]. by destruct (Z.to_nat (used c)) eqn:E; [lia|].
  - rewrite last_addr_app in Hp. pose proof (last_addr_in k _ _ _ _ _ _ _ _ H) as Hnn.
    apply wp_page_null; [rewrite Hp; intros Hz; by destruct Hnn| |right; by rewrite Hp].
    intros _. wp_step. split; [done|]. rewrite andb_false_r. split; [done|]. intros Hnil.
    by destruct (full_nonempty _ _ _ _ _ _ _ _ H).
Qed.
End Ops.

(** The null object is not a page. *)
Definition null_ok (s : vm) : Prop :=
  data (null_object (pvm_root s)) = 0 \/
  is_Some (alloc_at (heap s) (data (null_object (pvm_root s)))).

(** Objects that are not pages in [ps] stay; new objects may appear. *)
Record keeps (ps : list Z) (s s' : vm) : Prop := {
  kp_wf : heap_wf s';
  kp_env : alloc_env s' = alloc_env s;
  kp_frame x o : x ∉ ps -> alloc_at (heap s) x = Some o -> alloc_at (heap s') x = Some o;
}.

Section Push.
Context {A : Type} (k : stack_kind A) `{Hk : !StackLaws k}.
Implicit Types (s : vm) (pre post : list (page (A := A))).

Lemma only_pages_keeps ps s s' : only_pages ps s s' -> keeps ps s s'.
Proof. intros [O1 O2 O3]. split; [done|done|]. intros x o Hx. by rewrite O3. Qed.

Lemma keeps_trans ps s1 s2 s3 : keeps ps s1 s2 -> keeps ps s2 s3 -> keeps ps s1 s3.
Proof. intros [A1 A2 A3] [B1 B2 B3]. split; [done|congruence|auto]. Qed.

(** The class of the pages. *)
Definition kind_class (s : vm) : Prop :=
  exists c, class_at s (sk_class k (pvm_root s)) c /\ 0 <= object_flags c < 2 ^ 32.

Lemma create_stack_spec s :
  heap_wf s -> kind_class s ->
  wpe (eq oom) (pvm_create_general_stack_object k) s (fun p s' =>
    grows s s' /\ alloc_at (heap s) (data p) = None /\ 0 < data p /\
    exists z, page_da k s' (data p) (mkStack (mkCommon p p null_ref null_ref 0
      (Z.of_nat PVM_STACK_SIZE)) (data p) (replicate PVM_STACK_SIZE z))).
Proof.
  intros Hwf (c & Hc & Hf). unfold pvm_create_general_stack_object.
  apply wpe_bind, wp_wpe, wp_gets. apply wpe_bind. pose proof sl_das as Hdas.
  eapply wpe_mono; [apply (wpe_create_dynamic _ c); try done|].
  { by destruct (Z.ltb_spec (sk_das k) 0); [lia|]. }
  intros p s1 F1. destruct (fo_obj _ _ _ _ _ _ _ F1) as (o & Ho & _ & _ & _ & _ & _ & Hd).
  destruct sl_zero as [z Hz].
  assert (page_da k s1 (data p) (zero_stack z)) as Hp by (exists o; by rewrite Hd).
  apply wpe_bind, wp_wpe. eapply wp_load_page; [done|].
  destruct F1 as [(W & E & K) F2 F3 _ _].
  apply wpe_bind, wp_wpe. eapply (wp_store_page k); [done|done|]. intros s2 [W1 W2 W3 W4].
  apply wpe_ret. split_and!; try done.
  - split; [done|]. split; [congruence|]. intros x q Hx. rewrite W4; [auto|congruence].
  - by exists z.
Qed.

(** A new stack is empty. *)
Lemma create_stack_rep s :
  heap_wf s -> kind_class s -> null_ok s ->
  wpe (eq oom) (pvm_create_general_stack_object k) s (fun p s' =>
    grows s s' /\ alloc_at (heap s) (data p) = None /\
    stack_rep k s' (data p) [data p] []).
Proof.
  intros Hwf Hc Hnull. eapply wpe_mono; [by apply create_stack_spec|].
  intros p s' (G & Hn & Hp & z & Hd). split_and!; [done|done|].
  exists [], (data p, 0, replicate PVM_STACK_SIZE z), []. split; try done.
  - simpl. split; [|done]. eexists. split; [done|].
    split_and!; done.
  - apply NoDup_singleton.
  - intros a ->%list_elem_of_singleton. split; [lia|]. rewrite (grows_root _ _ G).
    destruct Hnull as [->|[o Ho]]; [lia|]. intros E. congruence.
  - eexists. done.
Qed.

Lemma page_allocated s r ps pre c post l a :
  stack_pages k s r ps pre c post l -> a ∈ ps -> is_Some (alloc_at (heap s) a).
Proof.
  intros H. rewrite (sp_addrs _ _ _ _ _ _ _ _ H).
  intros (p & -> & (l1 & l2 & E)%list_elem_of_split)%list_elem_of_fmap.
  pose proof (sp_chain _ _ _ _ _ _ _ _ H) as Hc. rewrite E in Hc.
  destruct (chain_page k _ _ _ _ _ _ _ Hc) as (d & (o & Ho & _) & _). by exists o.
Qed.

Lemma root_page s r ps pre c post l d :
  stack_pages k s r ps pre c post l -> page_da k s r d -> data (st_root (common d)) = r.
Proof.
  intros H Hd. pose proof (sp_root _ _ _ _ _ _ _ _ H) as Hr. pose proof (sp_chain _ _ _ _ _ _ _ _ H) as Hc.
  destruct pre as [|q pre]; simpl in Hr, Hc; destruct Hc as [(d1 & Hd1 & Hrest) _];
    rewrite Hr in Hd1; pose proof (page_da_fun k _ _ _ _ Hd Hd1) as ->; naive_solver.
Qed.

Lemma root_size s r ps pre c post l d :
  stack_pages k s r ps pre c post l -> page_da k s r d -> sSize (common d) = Z.of_nat PVM_STACK_SIZE.
Proof.
  intros H Hd. pose proof (sp_root _ _ _ _ _ _ _ _ H) as Hr. pose proof (sp_chain _ _ _ _ _ _ _ _ H) as Hc.
  destruct pre as [|q pre]; simpl in Hr, Hc; destruct Hc as [(d1 & Hd1 & Hrest) _];
    rewrite Hr in Hd1; pose proof (page_da_fun k _ _ _ _ Hd Hd1) as ->; naive_solver.
Qed.

(** The page that [make_next()] links behind a current page without successor. *)
Lemma link_next s s' r ps pre c l nx z d dn :
  stack_pages k s r ps pre c [] l -> null_ok s ->
  (forall x o, x <> addr c -> alloc_at (heap s) x = Some o -> alloc_at (heap s') x = Some o) ->
  alloc_env s' = alloc_env s -> 0 < nx -> alloc_at (heap s) nx = None ->
  page_da k s (addr c) d ->
  page_da k s' (addr c) (mkStack (set_st_next dn (common d)) (curr_da d) (cells d)) ->
  data dn = nx -> page_at k s' r (addr c) 0 (nx, 0, replicate PVM_STACK_SIZE z) ->
  stack_pages k s' r (ps ++ [nx]) pre c [(nx, 0, replicate PVM_STACK_SIZE z)] l.
Proof.
  intros H Hnull Hf Henv Hnx Hfresh Hd Hd' Hdn Hnew.
  destruct (stack_pages_split k _ _ _ _ _ _ _ H) as (Np & _ & Hin).
  assert (forall a, a ∈ ps -> is_Some (alloc_at (heap s) a)) as Hal.
  { intros a Ha. by eapply page_allocated. }
  destruct H as [H1 H2 H3 H4 H5 H6 H7 H8 H9 H10]. split; try done.
  - rewrite H1, !map_app. simpl. by rewrite <- app_assoc.
  - apply chain_app in H2 as [C1 [C2 _]]. apply chain_app. split; [|split; [|split; [|done]]].
    + eapply chain_keeps; [|done]. intros a o Ha. apply Hf. by intros ->.
    + destruct C2 as (d0 & Hd0 & E1 & E2 & Hrest). pose proof (page_da_fun k _ _ _ _ Hd Hd0) as ->.
      eexists. split; [exact Hd'|]. done.
    + done.
  - apply list.NoDup_app. split_and!; [done| |apply NoDup_singleton].
    intros a Ha ->%list_elem_of_singleton. destruct (Hal nx Ha). congruence.
  - intros a [Ha| ->%list_elem_of_singleton]%elem_of_app; (eapply not_null_env; [done|]); [auto|].
    split; [lia|]. destruct Hnull as [->|[o Ho]]; [lia|]. intros E. congruence.
  - by constructor.
  - destruct H9 as (d1 & Hd1 & Hc1 & Hc2). destruct (decide (r = addr c)) as [Hr|Hr].
    + rewrite Hr in *. pose proof (page_da_fun k _ _ _ _ Hd Hd1) as ->. by eexists.
    + exists d1. split; [|done]. destruct Hd1 as (o & Ho & Hv). exists o. auto.
Qed.
End Push.

Section PushOp.
Context {A : Type} (k : stack_kind A) `{Hk : !StackLaws k}.
Implicit Types (s : vm) (pre post : list (page (A := A))).

Lemma make_next_spec s r ps pre c l :
  heap_wf s -> kind_class k s -> null_ok s -> stack_pages k s r ps pre c [] l ->
  wpe (eq oom) (make_next k r (addr c)) s (fun _ s' => exists nx z,
    alloc_at (heap s) nx = None /\ keeps ps s s' /\
    stack_pages k s' r (ps ++ [nx]) pre c [(nx, 0, replicate PVM_STACK_SIZE z)] l).
Proof.
  intros Hwf Hc Hnull H. destruct (stack_pages_split k _ _ _ _ _ _ _ H) as (_ & _ & Hin).
  destruct (cur_page k _ _ _ _ _ _ _ H) as (_ & dc & _ & _ & Hdc & _).
  unfold make_next. apply wpe_bind. eapply wpe_mono; [by apply (create_stack_spec k)|].
  intros p s1 ((W1 & E1 & K1) & Hfresh & Hp & z & Hz). apply wp_wpe.
  assert (addr c <> data p) as Hne.
  { intros E. destruct Hdc as (o & Ho & _). congruence. }
  assert (page_da k s1 (addr c) dc) as Hdc1.
  { destruct Hdc as (o & Ho & Hv). exists o. auto. }
  wp_step. eapply wp_load_page; [done|]. wp_step. eapply (wp_store_page k); [done..|].
  intros s2 [W2 E2 P2 F2]. wp_step.
  assert (exists d2, page_da k s2 r d2 /\ data (st_curr (common d2)) = addr c /\ data (st_root (common d2)) = r)
    as (d2 & Hd2 & Hcur & Hroot).
  { destruct (sp_cur _ _ _ _ _ _ _ _ H) as (d & Hd & Hc1 & _).
    pose proof (root_page k _ _ _ _ _ _ _ _ H Hd) as Hr0.
    destruct (decide (r = addr c)) as [Hr|Hr].
    - rewrite Hr in *. pose proof (page_da_fun k _ _ _ _ Hd Hdc) as ->. eexists. split; [exact P2|]. done.
    - exists d. split; [|done]. destruct Hd as (o & Ho & Hv). exists o. rewrite F2 by done. auto. }
  eapply wp_load_page; [done|]. wp_step. eapply wp_load_page.
  { eapply page_da_frame; [|exact Hz]. by apply F2. }
  eapply (wp_store_page k); [done| |].
  { eapply page_da_frame; [|exact Hz]. by apply F2. }
  intros s3 [W3 E3 P3 F3].
  assert (forall x o, x <> addr c -> alloc_at (heap s) x = Some o -> alloc_at (heap s3) x = Some o) as Hf.
  { intros x o Hx Ho. rewrite F3, F2; [auto|done|]. intros ->. congruence. }
  exists (data p), z. split_and!; [done| |].
  - split; [done|congruence|]. intros x o Hx. apply Hf. by intros ->.
  - eapply (link_next k s s3 r ps pre c l (data p) z dc p); try done; [congruence| |].
    + eapply page_da_frame; [|exact P2]. by apply F3.
    + eexists. split; [exact P3|]. done.
Qed.

Lemma keeps_fresh ps fresh s s1 s2 :
  keeps ps s s1 -> Forall (fun x => alloc_at (heap s) x = None) fresh ->
  only_pages (ps ++ fresh) s1 s2 -> keeps ps s s2.
Proof.
  intros [K1 K2 K3] Hf [O1 O2 O3]. split; [done|congruence|]. intros x o Hx Ho.
  rewrite O3; [auto|]. intros [?|Hin]%elem_of_app; [done|].
  rewrite list.Forall_forall in Hf. specialize (Hf x Hin). congruence.
Qed.

Lemma step_up_spec s r ps pre c p post l :
  heap_wf s -> stack_pages k s r ps pre c (p :: post) l -> used c = Z.of_nat PVM_STACK_SIZE ->
  wp (d ← load_page k (addr c);
      set_me k r (st_next (common d));;
      mret (data (st_next (common d)))) s (fun a s' =>
    a = addr p /\ stack_pages k s' r ps (pre ++ [c]) p post l /\ only_pages ps s s').
Proof.
  intros Hwf H Hu. destruct (cur_page k _ _ _ _ _ _ _ H) as (_ & dc & _ & _ & Hdc & _ & Hn & _).
  wp_step. eapply wp_load_page; [done|]. simpl in Hn. wp_step. eapply wp_mono.
  { eapply (set_me_spec k r _ (pre ++ c :: p :: post)); [done|apply H|]. eexists. apply H. }
  intros [] s1 (Hcur & Hch & Hop). rewrite Hn in *. wp_step. split_and!; [done| |].
  - by eapply move_up.
  - by eapply (stack_pages_only k).
Qed.

Lemma next_not_null s r ps pre c p post l :
  stack_pages k s r ps pre c (p :: post) l -> not_null s (addr p).
Proof.
  intros H. apply (sp_null _ _ _ _ _ _ _ _ H). rewrite (sp_addrs _ _ _ _ _ _ _ _ H), map_app.
  simpl. set_solver.
Qed.

Lemma check_overflow_spec s r ps pre c post l :
  heap_wf s -> kind_class k s -> null_ok s -> stack_pages k s r ps pre c post l ->
  wpe (eq oom) (check_overflow k r) s (fun a s' => exists fresh pre' c' post',
    stack_pages k s' r (ps ++ fresh) pre' c' post' l /\ a = addr c' /\
    used c' < Z.of_nat PVM_STACK_SIZE /\ keeps ps s s' /\
    Forall (fun x => alloc_at (heap s) x = None) fresh).
Proof.
  intros Hwf Hkc Hnull H.
  destruct (cur_page k _ _ _ _ _ _ _ H) as (d & dc & Hd & Hcd & Hdc & _ & Hn & Hu & _ & Hsz & _).
  pose proof (sp_used _ _ _ _ _ _ _ _ H) as Hb.
  unfold check_overflow. apply wpe_bind, wp_wpe. eapply wp_load_page; [done|]. rewrite Hcd.
  apply wpe_bind, wp_wpe. eapply wp_load_page; [done|]. unfold page_is_full. rewrite Hu, Hsz.
  destruct (Z.leb_spec (Z.of_nat PVM_STACK_SIZE) (used c)) as [Hfull|Hfree]; last first.
  { apply wpe_ret. exists [], pre, c, post. by rewrite app_nil_r. }
  assert (used c = Z.of_nat PVM_STACK_SIZE) as Hu' by lia. apply wpe_bind.
  destruct post as [|p post]; simpl in Hn; apply wp_wpe, wp_page_null; rewrite ?Hn; try tauto.
  - intros _. apply wpe_bind. eapply wpe_mono; [by apply make_next_spec|].
    intros [] s1 (nx & z & Hfresh & K & H1). apply wp_wpe.
    eapply wp_mono; [eapply step_up_spec; [apply K|exact H1|done]|].
    intros a s2 (-> & H2 & O2).
    assert (Forall (fun x => alloc_at (heap s) x = None) [nx]) as Hf by by constructor.
    exists [nx], (pre ++ [c]), (nx, 0, replicate PVM_STACK_SIZE z), []. split_and!; try done.
    by eapply keeps_fresh.
  - by intros [? _].
  - intros Hz. by destruct (next_not_null _ _ _ _ _ _ _ _ H).
  - intros _. apply wpe_bind, wpe_ret, wp_wpe.
    eapply wp_mono; [by eapply step_up_spec|]. intros a s2 (-> & H2 & O2).
    exists [], (pre ++ [c]), p, post. rewrite app_nil_r. split_and!; try done.
    + pose proof (sp_free _ _ _ _ _ _ _ _ H) as Hf. apply Forall_cons_1 in Hf as [-> _].
      unfold PVM_STACK_SIZE. lia.
    + by apply only_pages_keeps.
  - right. by apply (next_not_null _ _ _ _ _ _ _ _ H).
Qed.

(** Writing the value on a page with room. *)
Lemma push_room_spec chk s r ps pre c post l v :
  heap_wf s -> stack_pages k s r ps pre c post l -> used c < Z.of_nat PVM_STACK_SIZE ->
  wp (d ← load_page k (addr c);
      (if chk && page_is_full d then panic "opush page full after mkpage" else mret tt);;
      page_push k (addr c) v) s (fun _ s' =>
    stack_rep k s' r ps (l ++ [v]) /\ only_pages ps s s').
Proof.
  intros Hwf H1 Hu.
  destruct (cur_page k _ _ _ _ _ _ _ H1) as (_ & dc & _ & _ & Hdc & _ & _ & Hfc & Hcs & Hsz & Hlen).
  pose proof (sp_used _ _ _ _ _ _ _ _ H1) as Hb. unfold PVM_STACK_SIZE in *.
  wp_step. eapply wp_load_page; [done|]. unfold page_is_full. rewrite Hfc, Hsz.
  destruct (Z.leb_spec (Z.of_nat 64) (used c)); [lia|]. rewrite andb_false_r. wp_step. wp_step.
  unfold page_push. wp_step. eapply wp_load_page; [done|]. rewrite Hfc, Hcs. wp_step.
  assert (insertZ (used c) v (content c) = Some (<[Z.to_nat (used c) := v]> (content c))) as ->.
  { rewrite <- (Z2Nat.id (used c)) at 1 by lia. rewrite insertZ_nat; [done|lia]. }
  wp_step; [done|]. eapply (wp_store_page k); [done|done|]. intros s2 Hw.
  rewrite u32_id in Hw by lia.
  destruct (set_cur k _ _ _ _ _ _ _ _ _ _ _ H1 Hdc Hw) as [H2 O2];
    [unfold PVM_STACK_SIZE; lia|by rewrite length_insert|]. split; [|done].
  exists pre, (addr c, used c + 1, <[Z.to_nat (used c):=v]> (content c)), post.
  rewrite (sp_list _ _ _ _ _ _ _ _ H1), <- app_assoc.
  replace (take (Z.to_nat (used c)) (content c) ++ [v]) with
    (take (Z.to_nat (used c + 1)) (<[Z.to_nat (used c):=v]> (content c))); [done|].
  replace (Z.to_nat (used c + 1)) with (S (Z.to_nat (used c))) by lia.
  rewrite (take_S_r _ _ v) by (apply list_lookup_insert_eq; lia).
  by rewrite take_insert_ge by lia.
Qed.

(** Push appends, or the allocator is out of memory; pages may be added. *)
Lemma stack_push_spec chk s r ps l v :
  heap_wf s -> kind_class k s -> null_ok s -> stack_rep k s r ps l ->
  wpe (eq oom) (stack_push k chk r v) s (fun _ s' => exists fresh,
    stack_rep k s' r (ps ++ fresh) (l ++ [v]) /\ keeps ps s s' /\
    Forall (fun x => alloc_at (heap s) x = None) fresh).
Proof.
  intros Hwf Hkc Hnull (pre & c & post & H). unfold stack_push. apply wpe_bind.
  eapply wpe_mono; [by eapply check_overflow_spec|].
  intros a s1 (fresh & pre1 & c1 & post1 & H1 & -> & Hu & K & Hf). apply wp_wpe.
  eapply wp_mono; [by eapply push_room_spec; [apply K| |]|]. intros [] s2 [Hr O].
  exists fresh. split_and!; [done|by eapply keeps_fresh|done].
Qed.

(** With room on the page nothing is allocated. *)
Lemma stack_push_room chk s r ps l v :
  heap_wf s -> stack_room k s r ps l ->
  wp (stack_push k chk r v) s (fun _ s' => stack_rep k s' r ps (l ++ [v]) /\ only_pages ps s s').
Proof.
  intros Hwf (pre & c & post & H & Hu).
  destruct (cur_page k _ _ _ _ _ _ _ H) as (d & dc & Hd & Hcd & Hdc & _ & _ & Hfc & _ & Hsz & _).
  unfold stack_push. wp_step. unfold check_overflow. wp_step. eapply wp_load_page; [done|].
  rewrite Hcd. wp_step. eapply wp_load_page; [done|]. unfold page_is_full. rewrite Hfc, Hsz.
  destruct (Z.leb_spec (Z.of_nat PVM_STACK_SIZE) (used c)); [lia|]. wp_step. by eapply push_room_spec.
Qed.
End PushOp.

Section Walk.
Context {A : Type} (k : stack_kind A) `{Hk : !StackLaws k}.
Implicit Types (s : vm) (pre post : list (page (A := A))).

Lemma chain_length s r prev (all : list page) next p :
  chain k s r prev all next -> p ∈ all -> length (content p) = PVM_STACK_SIZE.
Proof.
  intros Hc (l1 & l2 & ->)%list_elem_of_split.
  destruct (chain_page k _ _ _ _ _ _ _ Hc) as (d & _ & _ & _ & _ & _ & _ & Hl & _). done.
Qed.

(** Cell [i] of the stack: page [i / 64], cell [i mod 64]. *)
Lemma concat_cell pre (cs : list A) (n j : nat) v :
  (forall p, p ∈ pre -> length (content p) = PVM_STACK_SIZE) -> (j < PVM_STACK_SIZE)%nat ->
  (concat (map content pre) ++ cs) !! (PVM_STACK_SIZE * n + j)%nat = Some v ->
  (exists p, pre !! n = Some p /\ content p !! j = Some v) \/
  (length pre <= n)%nat /\ cs !! (PVM_STACK_SIZE * (n - length pre) + j)%nat = Some v.
Proof.
  revert n. induction pre as [|p pre IH]; intros n Hl Hj; simpl map; simpl concat.
  - right. simpl. split; [lia|]. by rewrite Nat.sub_0_r.
  - rewrite <- app_assoc. pose proof (Hl p ltac:(by left)) as Hp. destruct n as [|n].
    + rewrite lookup_app_l by lia. rewrite Nat.mul_0_r. left. by exists p.
    + rewrite lookup_app_r by lia. rewrite Hp.
      replace (PVM_STACK_SIZE * S n + j - PVM_STACK_SIZE)%nat with (PVM_STACK_SIZE * n + j)%nat by lia.
      intros Hv. destruct (IH n) as [?|[? ?]]; [|done|done|by left|right].
      * intros q Hq. apply Hl. by right.
      * split; [simpl; lia|]. done.
Qed.

Lemma cell_at s r ps pre c post l (n j : nat) v :
  stack_pages k s r ps pre c post l -> (j < PVM_STACK_SIZE)%nat ->
  l !! (PVM_STACK_SIZE * n + j)%nat = Some v ->
  exists l1 q l2, pre ++ c :: post = l1 ++ q :: l2 /\ length l1 = n /\ content q !! j = Some v /\
    (length l1 <= length pre)%nat /\ (n = length pre -> q = c /\ (j < Z.to_nat (used c))%nat).
Proof.
  intros H Hj. rewrite (sp_list _ _ _ _ _ _ _ _ H). intros Hv.
  pose proof (sp_used _ _ _ _ _ _ _ _ H) as Hu.
  apply concat_cell in Hv as [(p & Hp & Hv)|[Hn Hv]]; [| |intros p Hp|done].
  - apply list_elem_of_split_length in Hp as (l1 & l2 & -> & ->).
    exists l1, p, (l2 ++ c :: post). rewrite <- app_assoc, length_app. simpl.
    split_and!; try done; lia.
  - apply lookup_take_Some in Hv as [Hv Hlt].
    assert (n = length pre) as ->.
    { unfold PVM_STACK_SIZE in *. lia. }
    rewrite Nat.sub_diag, Nat.mul_0_r in *. exists pre, c, post. by split_and!.
  - eapply chain_length; [apply H|]. apply elem_of_app. by left.
Qed.

(** The pages are distinct objects, so walks along them end. *)
Lemma pages_fuel s r ps pre c post l :
  stack_pages k s r ps pre c post l -> (length (pre ++ c :: post) <= size (heap s))%nat.
Proof.
  intros H. rewrite <- (length_map addr), <- (sp_addrs _ _ _ _ _ _ _ _ H).
  pose proof (sp_nodup _ _ _ _ _ _ _ _ H) as Hn. rewrite <- size_dom.
  rewrite <- (size_list_to_set (C := gset Z) ps) by done. apply subseteq_size.
  intros a Ha%elem_of_list_to_set. apply elem_of_dom.
  destruct (page_allocated k _ _ _ _ _ _ _ _ H Ha) as [o Ho]. exists o. by apply heap_of_alloc.
Qed.

Lemma abs_find_spec msg fuel s r prev l1 q l2 c j :
  chain k s r prev (l1 ++ q :: l2) 0 ->
  (forall p, p ∈ l1 ++ q :: l2 -> not_null s (addr p)) ->
  data c = head_addr (l1 ++ q :: l2) 0 -> (length l1 < fuel)%nat ->
  0 <= j < Z.of_nat PVM_STACK_SIZE -> Z.of_nat (PVM_STACK_SIZE * length l1) + j < 2 ^ 31 ->
  wp (abs_find k msg fuel (Z.of_nat PVM_STACK_SIZE) c (Z.of_nat (PVM_STACK_SIZE * length l1) + j)) s
    (fun r s' => s' = s /\ data r.1 = addr q /\ r.2 = j).
Proof.
  revert fuel prev c. induction l1 as [|p l1 IH]; intros fuel prev c Hc Hnn Hd Hf Hj Hb;
    (destruct fuel as [|fuel]; [simpl in Hf; lia|]); cbn [abs_find]; unfold PVM_STACK_SIZE in *.
  - rewrite u32_id by lia. destruct (Z.leb_spec (Z.of_nat 64) (Z.of_nat (64 * length (A := page (A := A)) []) + j));
      [simpl in *; lia|]. wp_step. simpl in *. split_and!; [done|done|lia].
  - rewrite u32_id by (simpl in *; lia).
    destruct (Z.leb_spec (Z.of_nat 64) (Z.of_nat (64 * length (p :: l1)) + j)); [|simpl in *; lia].
    simpl app in Hc, Hnn, Hd. simpl in Hd. destruct Hc as [(d & Hpd & _ & Hnx & _) Hc].
    wp_step. rewrite Hd. eapply wp_load_page; [done|]. wp_step.
    assert (not_null s (data (st_next (common d)))) as Hn.
    { rewrite Hnx. destruct l1; simpl; apply Hnn; simpl; right; by left. }
    apply wp_page_null; [by destruct Hn|intros _|by right].
    rewrite length_cons in *.
    replace (i32 (Z.of_nat (64 * S (length l1)) + j - Z.of_nat 64))
      with (Z.of_nat (64 * length l1) + j) by (rewrite i32_id; lia).
    eapply IH; [done| |done|lia|done|lia].
    intros p' Hp'. apply Hnn. by right.
Qed.

Lemma sp_all_null s r ps pre c post l p :
  stack_pages k s r ps pre c post l -> p ∈ pre ++ c :: post -> not_null s (addr p).
Proof.
  intros H Hp. apply (sp_null _ _ _ _ _ _ _ _ H). rewrite (sp_addrs _ _ _ _ _ _ _ _ H).
  by apply list_elem_of_fmap_2.
Qed.
End Walk.

Section Index.
Context {A : Type} (k : stack_kind A) `{Hk : !StackLaws k}.
Implicit Types (s : vm) (pre post : list (page (A := A))).

Lemma split_index (i : nat) : exists n j, i = (PVM_STACK_SIZE * n + j)%nat /\ (j < PVM_STACK_SIZE)%nat.
Proof.
  exists (i / PVM_STACK_SIZE)%nat, (i mod PVM_STACK_SIZE)%nat. unfold PVM_STACK_SIZE.
  split; [apply Nat.div_mod; lia|apply Nat.mod_upper_bound; lia].
Qed.

(** The page and cell that [abs_get] and [abs_set] go to. *)
Lemma abs_page_spec msg s r ps pre c post l (n j : nat) v :
  stack_pages k s r ps pre c post l -> l !! (PVM_STACK_SIZE * n + j)%nat = Some v ->
  (j < PVM_STACK_SIZE)%nat -> Z.of_nat (PVM_STACK_SIZE * n + j) < 2 ^ 31 ->
  wp (abs_page k msg r (Z.of_nat (PVM_STACK_SIZE * n + j))) s (fun cp s' => s' = s /\ cp.2 = Z.of_nat j /\
    exists l1 q l2, pre ++ c :: post = l1 ++ q :: l2 /\ length l1 = n /\ content q !! j = Some v /\
      (length l1 <= length pre)%nat /\ (n = length pre -> q = c /\ (j < Z.to_nat (used c))%nat) /\
      data cp.1 = addr q).
Proof.
  intros H Hv Hj Hb. destruct (cell_at k _ _ _ _ _ _ _ _ _ _ H Hj Hv) as (l1 & q & l2 & E & En & Hc & Hle & Hcur).
  destruct (sp_cur _ _ _ _ _ _ _ _ H) as (d & Hd & _). pose proof (root_page k _ _ _ _ _ _ _ _ H Hd) as Hr.
  pose proof (pages_fuel k _ _ _ _ _ _ _ H) as Hfuel. rewrite E, length_app in Hfuel. simpl in Hfuel.
  assert (sSize (common d) = Z.of_nat PVM_STACK_SIZE) as Hsz by by eapply root_size.
  unfold abs_page. wp_step. eapply wp_load_page; [done|]. wp_step. wp_step. rewrite Hsz.
  eapply wp_mono.
  { replace (Z.of_nat (PVM_STACK_SIZE * n + j)) with (Z.of_nat (PVM_STACK_SIZE * length l1) + Z.of_nat j) by lia.
    eapply (abs_find_spec k _ _ s r 0 l1 q l2); [rewrite <- E; apply H| | |lia|lia|lia].
    - intros p Hp. eapply (sp_all_null k); [done|]. by rewrite E.
    - rewrite Hr, <- E, <- (sp_root _ _ _ _ _ _ _ _ H). by destruct pre. }
  intros [c' p'] s' (-> & Hc' & Hp'). split_and!; [done|done|]. by exists l1, q, l2.
Qed.

Lemma stack_abs_get_spec msg s r ps l i v :
  stack_rep k s r ps l -> l !!z i = Some v -> i < 2 ^ 31 ->
  wp (stack_abs_get k msg r i) s (fun w s' => w = v /\ s' = s).
Proof.
  intros (pre & c & post & H) Hv Hi. apply lookupZ_Some in Hv as [Hi0 Hv].
  rewrite <- (Z2Nat.id i) by done. destruct (split_index (Z.to_nat i)) as (n & j & E & Hj).
  rewrite E in *. unfold stack_abs_get. wp_step.
  eapply wp_mono; [eapply abs_page_spec; [done|done|done|lia]|].
  intros [cp pos] s' (-> & Hpos & l1 & q & l2 & E' & _ & Hc & _ & _ & Hcp). simpl in *.
  pose proof (sp_chain _ _ _ _ _ _ _ _ H) as Hch. rewrite E' in Hch.
  destruct (chain_page k _ _ _ _ _ _ _ Hch) as (d & Hd & _ & _ & _ & Hcs & _).
  wp_step. rewrite Hcp. eapply wp_load_page; [done|]. wp_step; [|done].
  by rewrite Hcs, Hpos, lookupZ_nat.
Qed.
End Index.

Section AbsSet.
Context {A : Type} (k : stack_kind A) `{Hk : !StackLaws k}.
Implicit Types (s : vm) (pre post : list (page (A := A))).

(** Writing the cells of any page of a chain. *)
Lemma chain_write s s' r l1 q l2 d cs :
  NoDup (map addr (l1 ++ q :: l2)) -> chain k s r 0 (l1 ++ q :: l2) 0 ->
  page_da k s (addr q) d -> length cs = PVM_STACK_SIZE ->
  wrote k s (addr q) (mkStack (common d) (curr_da d) cs) s' ->
  chain k s' r 0 (l1 ++ (addr q, used q, cs) :: l2) 0.
Proof.
  rewrite map_app. simpl. intros (_ & Hdis & Hn)%list.NoDup_app [C1 [C2 C3]]%chain_app Hd Hcs [W1 W2 W3 W4].
  apply NoDup_cons_1_1 in Hn. apply chain_app. split; [|split].
  - eapply chain_frame; [|done]. intros a Ha. apply W4. intros ->. apply (Hdis _ Ha). by left.
  - destruct C2 as (d0 & Hd0 & E1 & E2 & E3 & E4 & E5 & E6 & E7 & E8).
    pose proof (page_da_fun k _ _ _ _ Hd Hd0) as ->. eexists. split; [exact W3|]. done.
  - eapply chain_frame; [|done]. intros a Ha. apply W4. by intros ->.
Qed.

Lemma cur_write s s' r a b d cs :
  page_da k s a d -> wrote k s a (mkStack (common d) (curr_da d) cs) s' -> cur_at k s r b -> cur_at k s' r b.
Proof.
  intros Hd [W1 W2 W3 W4] (d1 & Hd1 & Hc1 & Hc2). destruct (decide (r = a)) as [->|Hr].
  - pose proof (page_da_fun k _ _ _ _ Hd Hd1) as ->. eexists. split; [exact W3|]. done.
  - exists d1. split; [|done]. eapply page_da_frame; [|done]. by apply W4.
Qed.

Lemma concat_length (l : list (page (A := A))) :
  (forall p, p ∈ l -> length (content p) = PVM_STACK_SIZE) ->
  length (concat (map content l)) = (PVM_STACK_SIZE * length l)%nat.
Proof.
  induction l as [|p l IH]; intros Hl; simpl map; simpl concat; [by rewrite Nat.mul_0_r|].
  rewrite length_app, IH, (Hl p), length_cons by (try intros; try apply Hl; by constructor). lia.
Qed.

(** The written page inside the full ones, and the current one. *)
Lemma write_pre s s' r ps l1 q l2 c post l d j v :
  stack_pages k s r ps (l1 ++ q :: l2) c post l -> (j < PVM_STACK_SIZE)%nat ->
  page_da k s (addr q) d ->
  wrote k s (addr q) (mkStack (common d) (curr_da d) (<[j:=v]> (content q))) s' ->
  stack_pages k s' r ps (l1 ++ (addr q, used q, <[j:=v]> (content q)) :: l2) c post
    (<[(PVM_STACK_SIZE * length l1 + j)%nat := v]> l).
Proof.
  intros H Hj Hd Hw. pose proof (chain_length k _ _ _ _ _ q (sp_chain _ _ _ _ _ _ _ _ H)) as Hq.
  spec Hq; [rewrite <- app_assoc; apply elem_of_app; right; by left|].
  assert (forall p, p ∈ l1 -> length (content p) = PVM_STACK_SIZE) as Hl1.
  { intros p Hp. eapply (chain_length k _ _ _ _ _ p); [apply H|]. rewrite !elem_of_app. by left; left. }
  destruct H as [H1 H2 H3 H4 H5 H6 H7 H8 H9 H10]. rewrite <- app_assoc in *.
  cbn [app] in *. split; try done; rewrite <- ?app_assoc; cbn [app].
  - by rewrite H1, !map_app.
  - eapply chain_write; try done; [by rewrite <- H1|by rewrite length_insert].
  - intros a Ha. eapply not_null_env; [apply Hw|]. auto.
  - rewrite <- H5. by destruct l1.
  - apply Forall_app in H6 as [F1 F2]. apply Forall_cons_1 in F2 as [F2 F3].
    apply Forall_app. split; [done|]. by constructor.
  - by eapply cur_write.
  - rewrite H10, !map_app, !concat_app. cbn [map concat]. rewrite <- !app_assoc.
    rewrite insert_app_r_alt by (rewrite concat_length by done; lia).
    rewrite concat_length by done. f_equal.
    replace (_ - _)%nat with j by lia. by rewrite insert_app_l by lia.
Qed.

Lemma write_cur s s' r ps pre c post l d j v :
  stack_pages k s r ps pre c post l -> (j < Z.to_nat (used c))%nat -> page_da k s (addr c) d ->
  wrote k s (addr c) (mkStack (common d) (curr_da d) (<[j:=v]> (content c))) s' ->
  stack_pages k s' r ps pre (addr c, used c, <[j:=v]> (content c)) post
    (<[(PVM_STACK_SIZE * length pre + j)%nat := v]> l).
Proof.
  intros H Hj Hd Hw. pose proof (chain_length k _ _ _ _ _ c (sp_chain _ _ _ _ _ _ _ _ H)) as Hq.
  spec Hq; [apply elem_of_app; right; by left|].
  assert (forall p, p ∈ pre -> length (content p) = PVM_STACK_SIZE) as Hl1.
  { intros p Hp. eapply (chain_length k _ _ _ _ _ p); [apply H|]. rewrite !elem_of_app. by left. }
  destruct H as [H1 H2 H3 H4 H5 H6 H7 H8 H9 H10]. split; try done.
  - by rewrite H1, !map_app.
  - eapply chain_write; try done; [by rewrite <- H1|by rewrite length_insert].
  - intros a Ha. eapply not_null_env; [apply Hw|]. auto.
  - rewrite <- H5. by destruct pre.
  - by eapply cur_write.
  - rewrite H10. rewrite insert_app_r_alt by (rewrite concat_length by done; lia).
    rewrite concat_length by done. f_equal. replace (_ - _)%nat with j by lia.
    symmetry. by apply take_insert_lt.
Qed.

(** The store, where what is done with the old value changes nothing. *)
Lemma stack_abs_set_spec msg drop s r ps l i v w :
  heap_wf s -> stack_rep k s r ps l -> l !!z i = Some w -> i < 2 ^ 31 ->
  wp (drop w) s (fun _ s' => s' = s) ->
  wp (stack_abs_set k msg drop r i v) s (fun _ s' =>
    stack_rep k s' r ps (<[Z.to_nat i := v]> l) /\ only_pages ps s s').
Proof.
  intros Hwf (pre & c & post & H) [Hi Hv]%lookupZ_Some Hi' Hdrop.
  rewrite <- (Z2Nat.id i) at 1 by lia. destruct (split_index (Z.to_nat i)) as (n & j & E & Hj).
  rewrite E in *. unfold stack_abs_set. wp_step.
  eapply wp_mono; [eapply (abs_page_spec k); [done|done|done|lia]|].
  intros [cp pos] s' (-> & Hpos & l1 & q & l2 & E' & En & Hc & Hle & Hcur & Hcp). simpl in *.
  pose proof (sp_chain _ _ _ _ _ _ _ _ H) as Hch. rewrite E' in Hch.
  destruct (chain_page k _ _ _ _ _ _ _ Hch) as (d & Hd & _ & _ & _ & Hcs & _ & Hlen & _).
  wp_step. rewrite Hcp. eapply wp_load_page; [done|]. wp_step.
  wp_step; [by rewrite Hcs, Hpos, lookupZ_nat|]. wp_step.
  eapply wp_mono; [exact Hdrop|]. intros [] ? ->. wp_step.
  eapply wp_load_page; [done|]. wp_step.
  wp_step; [rewrite Hcs, Hpos; apply insertZ_nat; by rewrite Hlen|].
  eapply (wp_store_page k); [done|done|]. intros s' Hw.
  split.
  - destruct (decide (n = length pre)) as [Ep|Ep].
    + destruct (Hcur Ep) as [-> Hju]. subst n. rewrite Ep. eexists _, _, _. by eapply write_cur.
    + assert (pre !! n = Some q) as Hq.
      { rewrite <- (lookup_app_l pre (c :: post)), E', <- En by lia. by rewrite list_lookup_middle. }
      apply list_elem_of_split_length in Hq as (l1' & l2' & -> & ->). eexists _, _, _. by eapply write_pre.
  - split; [apply Hw|apply Hw|]. intros x Hx. apply Hw. intros ->. apply Hx.
    rewrite (sp_addrs _ _ _ _ _ _ _ _ H), E', map_app. apply elem_of_app. right. by left.
Qed.
End AbsSet.

Section Pull.
Context {A : Type} (k : stack_kind A) `{Hk : !StackLaws k}.
Implicit Types (s : vm) (pre post : list (page (A := A))).

Lemma last_addr_cons prev (l : list (page (A := A))) q m :
  last_addr prev (l ++ q :: m) = last_addr (addr q) m.
Proof. revert prev. induction l as [|p l IH]; intros prev; simpl; [done|apply IH]. Qed.

Lemma last_addr_elem prev (m : list (page (A := A))) :
  last_addr prev m = prev \/ exists p, p ∈ m /\ last_addr prev m = addr p.
Proof.
  destruct m as [|x m _] using rev_ind; [by left|]. right. exists x. rewrite last_addr_app.
  split; [|done]. apply elem_of_app. right. by left.
Qed.

(** The pages from [q] up to the current one. *)
Lemma split_at_cur (pre : list (page (A := A))) c post l1 q l2 n :
  pre ++ c :: post = l1 ++ q :: l2 -> length l1 = n -> (length l1 <= length pre)%nat ->
  exists m, l2 = m ++ post /\ addr c = last_addr (addr q) m /\ length m = (length pre - n)%nat.
Proof.
  intros E En Hle. destruct (decide (length l1 = length pre)) as [Hl|Hl].
  - apply app_inj_1 in E as [-> [= -> ->]]; [|done]. exists []. split_and!; [done|done|simpl; lia].
  - assert (pre !! n = Some q) as Hq.
    { rewrite <- (lookup_app_l pre (c :: post)), E, <- En by lia. by rewrite list_lookup_middle. }
    apply list_elem_of_split_length in Hq as (k1 & k2 & -> & Hk1). rewrite <- app_assoc in E. simpl in E.
    apply app_inj_1 in E as [-> [= <-]]; [|lia].
    exists (k2 ++ [c]). rewrite <- app_assoc, last_addr_app, !length_app. simpl.
    split_and!; [done|done|lia].
Qed.

Lemma pull_find_spec fuel s r (l1 : list page) q m rest c j :
  chain k s r 0 (l1 ++ q :: m ++ rest) 0 ->
  (forall p, p ∈ l1 ++ q :: m ++ rest -> not_null s (addr p)) ->
  data c = last_addr (addr q) m -> (length m < fuel)%nat ->
  0 <= j < Z.of_nat PVM_STACK_SIZE -> Z.of_nat (PVM_STACK_SIZE * length m) < 2 ^ 31 ->
  wp (pull_find k fuel (Z.of_nat PVM_STACK_SIZE) c (j - Z.of_nat (PVM_STACK_SIZE * length m))) s
    (fun r s' => s' = s /\ data r.1 = addr q /\ r.2 = j).
Proof.
  revert fuel rest c. induction m as [|x m IH] using rev_ind; intros fuel rest c Hc Hnn Hd Hf Hj Hb;
    (destruct fuel as [|fuel]; [lia|]); cbn [pull_find]; unfold PVM_STACK_SIZE in *.
  - destruct (Z.ltb_spec (j - Z.of_nat (64 * length (A := page (A := A)) [])) 0); [simpl in *; lia|].
    wp_step. simpl in *. split_and!; [done|done|lia].
  - rewrite length_app in *. simpl length in *. rewrite last_addr_app in Hd. rewrite <- app_assoc in *.
    destruct (Z.ltb_spec (j - Z.of_nat (64 * (length m + 1))) 0); [|lia].
    assert (page_at k s r (last_addr (addr q) m) (head_addr rest 0) x) as (d & Hpd & Hpv & _).
    { pose proof (chain_page k s r 0 (l1 ++ q :: m) x rest 0) as Hx. rewrite last_addr_cons in Hx.
      apply Hx. by rewrite <- app_assoc. }
    wp_step. rewrite Hd. eapply wp_load_page; [done|]. wp_step.
    assert (not_null s (data (st_prev (common d)))) as Hn.
    { rewrite Hpv. destruct (last_addr_elem (addr q) m) as [-> | (p & Hp & ->)]; apply Hnn;
        apply elem_of_app; right; [by left|]. right. apply elem_of_app. by left. }
    apply wp_page_null; [by destruct Hn|intros _|by right].
    replace (i32 (j - Z.of_nat (64 * (length m + 1)) + Z.of_nat 64))
      with (j - Z.of_nat (64 * length m)) by (rewrite i32_id; lia).
    eapply IH; [done|done|done|lia|done|lia].
Qed.

Lemma curr_of s r ps pre c post l dc :
  stack_pages k s r ps pre c post l -> page_da k s (addr c) dc -> data (st_curr (common dc)) = addr c.
Proof.
  intros H Hdc. destruct (sp_cur _ _ _ _ _ _ _ _ H) as (d & Hd & Hc & _).
  destruct (chain_page k s r 0 pre c post 0 (sp_chain _ _ _ _ _ _ _ _ H))
    as (d1 & Hd1 & _ & _ & _ & _ & _ & _ & _ & Hc1).
  pose proof (page_da_fun k _ _ _ _ Hdc Hd1) as ->.
  destruct (decide (addr c = r)) as [Hr|Hr]; [|auto].
  rewrite <- Hr in Hd. by pose proof (page_da_fun k _ _ _ _ Hdc Hd) as ->.
Qed.

(** [pull] with depth 0 is the top. *)
Lemma stack_pull_spec s r ps l depth v :
  stack_rep k s r ps l -> 0 <= depth -> Z.of_nat (length l) < 2 ^ 31 ->
  l !!z (Z.of_nat (length l) - 1 - depth) = Some v ->
  wp (stack_pull k r depth) s (fun w s' => w = v /\ s' = s).
Proof.
  intros (pre & c & post & H) Hdep Hlen Hv. apply lookupZ_Some in Hv as [Hi0 Hv].
  destruct (cur_page k _ _ _ _ _ _ _ H) as (d & dc & Hd & Hcd & Hdc & _ & _ & Hu & _ & Hsz & Hlc).
  pose proof (sp_used _ _ _ _ _ _ _ _ H) as Hub. pose proof (curr_of _ _ _ _ _ _ _ _ H Hdc) as Hcc.
  pose proof (pages_fuel k _ _ _ _ _ _ _ H) as Hfuel. rewrite length_app in Hfuel. simpl in Hfuel.
  assert (Z.of_nat (length l) = Z.of_nat (PVM_STACK_SIZE * length pre) + used c) as Hll.
  { rewrite (sp_list _ _ _ _ _ _ _ _ H), length_app, concat_length, length_take; [lia|].
    intros p Hp. eapply (chain_length k); [apply H|]. apply elem_of_app. by left. }
  destruct (split_index (Z.to_nat (Z.of_nat (length l) - 1 - depth))) as (n & j & E & Hj). rewrite E in Hv.
  destruct (cell_at k _ _ _ _ _ _ _ _ _ _ H Hj Hv) as (l1 & q & l2 & E' & En & Hc & Hle & Hcur).
  assert (exists m, l2 = m ++ post /\ addr c = last_addr (addr q) m /\ length m = (length pre - n)%nat)
    as (m & -> & Hlast & Hm).
  { by eapply split_at_cur. }
  unfold stack_pull. destruct (Z.ltb_spec depth 0); [lia|]. wp_step. wp_step.
  wp_step. eapply wp_load_page; [done|]. rewrite Hcd. wp_step. eapply wp_load_page; [done|]. wp_step. wp_step.
  rewrite Hu, Hsz. wp_step. eapply wp_mono.
  { replace (i32 (used c - depth - 1)) with (Z.of_nat j - Z.of_nat (PVM_STACK_SIZE * length m))
      by (unfold PVM_STACK_SIZE in *; rewrite i32_id; lia).
    eapply (pull_find_spec _ s r l1 q m post); [rewrite <- E'; apply H| |congruence|lia|lia|lia].
    intros p Hp. eapply (sp_all_null k); [done|]. by rewrite E'. }
  intros [c' p'] s' (-> & Hc' & Hp'). simpl in *. wp_step. rewrite Hc'.
  pose proof (sp_chain _ _ _ _ _ _ _ _ H) as Hch. rewrite E' in Hch.
  destruct (chain_page k _ _ _ _ _ _ _ Hch) as (dq & Hdq & _ & _ & _ & Hcs & _).
  eapply wp_load_page; [done|]. wp_step; [|done]. by rewrite Hcs, Hp', lookupZ_nat.
Qed.
End Pull.

Section Foreach.
Context {A P : Type} (k : stack_kind A) `{Hk : !StackLaws k}.
Context (f : P -> A -> bool * P) (I : P -> Prop).
Implicit Types (s : vm) (pre post : list (page (A := A))).

(** The function runs as [f] on the elements [l], as long as [I] holds of what is
    passed along. *)
Definition runs_as (func : P -> A -> M vm (bool * P)) s (l : list A) : Prop :=
  forall pass v, I pass -> v ∈ l -> func pass v s = Ret (f pass v) s /\ I (f pass v).2.

Lemma runs_as_sub func s l l' : runs_as func s l -> l' ⊆ l -> runs_as func s l'.
Proof. intros H Hl pass v HI Hv. apply H; [done|]. by apply Hl. Qed.

(** The search of [..._foreach] on the list of elements, in visiting order. *)
Fixpoint search (pass : P) (l : list A) : bool * P :=
  match l with
  | [] => (false, pass)
  | v :: rest => let (b, pass) := f pass v in if b then (true, pass) else search pass rest
  end.

Lemma search_app pass l1 l2 :
  search pass (l1 ++ l2) = let (b, pass) := search pass l1 in if b then (true, pass) else search pass l2.
Proof.
  revert pass. induction l1 as [|v l1 IH]; intros pass; simpl; [done|].
  destruct (f pass v) as [[] pass']; [done|apply IH].
Qed.

Lemma page_foreach_spec (func : P -> A -> M vm (bool * P)) s pass l :
  runs_as func s l -> I pass ->
  page_foreach func pass l s = Ret (search pass l) s /\ I (search pass l).2.
Proof.
  revert pass. induction l as [|v l IH]; intros pass Hf HI; simpl; [done|].
  unfold mbind, M_bind. destruct (Hf pass v HI) as [-> HI']; [by left|].
  destruct (f pass v) as [[] pass']; [done|].
  apply IH; [|done]. eapply runs_as_sub; [done|]. by intros ? ?; right.
Qed.

Lemma foreach_loop_spec fuel (func : P -> A -> M vm (bool * P)) s r pass (l1 post : list page) c :
  chain k s r 0 (l1 ++ post) 0 -> (forall p, p ∈ l1 ++ post -> not_null s (addr p)) ->
  data c = last_addr 0 l1 -> (length l1 < fuel)%nat ->
  runs_as func s (concat (map (fun p => take (Z.to_nat (used p)) (content p)) l1)) -> I pass ->
  Forall (fun p => 0 <= used p <= Z.of_nat PVM_STACK_SIZE) l1 ->
  wp (stack_foreach_loop k fuel func pass c) s (fun x s' => s' = s /\
    x = search pass (rev (concat (map (fun p => take (Z.to_nat (used p)) (content p)) l1)))).
Proof.
  revert fuel pass post c. induction l1 as [|x l1 IH] using rev_ind;
    intros fuel pass post c Hc Hnn Hd Hfu Hf HI Hu; (destruct fuel as [|fuel]; [lia|]); cbn [stack_foreach_loop].
  - wp_step. apply wp_page_null; [intros _; wp_step; done|intros [? _]; done|by left].
  - rewrite last_addr_app in Hd. rewrite <- app_assoc in Hc, Hnn. simpl in Hc, Hnn.
    destruct (chain_page k s r 0 l1 x post 0 Hc) as (d & Hpd & Hpv & _ & Hfc & Hcs & _ & Hlen & _).
    apply Forall_app in Hu as [Hu1 Hu2]. apply Forall_cons_1 in Hu2 as [Hu2 _].
    assert (not_null s (data c)) as Hn.
    { rewrite Hd. apply Hnn, elem_of_app. right. by left. }
    rewrite map_app, concat_app in *. simpl in *. rewrite app_nil_r in *. rewrite rev_app_distr, search_app.
    wp_step. apply wp_page_null; [by destruct Hn|intros _|by right].
    wp_step. rewrite Hd. eapply wp_load_page; [done|]. rewrite Hfc, Hcs.
    unfold PVM_STACK_SIZE in *. destruct (Nat.leb_spec (Z.to_nat (used x)) (length (content x))); [|lia].
    destruct (page_foreach_spec func s pass (rev (take (Z.to_nat (used x)) (content x)))) as [Hpf HI'];
      [eapply runs_as_sub; [done|]; intros v Hv; apply elem_of_app; right;
       by apply list_elem_of_In, in_rev, list_elem_of_In|done|].
    wp_step. wp_step. wp_step. eexists _, s. split; [exact Hpf|].
    destruct (search pass _) as [[] pass']; [wp_step; done|]. wp_step. eapply wp_load_page; [done|].
    eapply IH; [done|done|done|rewrite length_app in Hfu; simpl in Hfu; lia| |done|done].
    eapply runs_as_sub; [done|]. intros v Hv. apply elem_of_app. by left.
Qed.

Lemma stack_foreach_spec (func : P -> A -> M vm (bool * P)) s r ps l pass :
  stack_rep k s r ps l -> runs_as func s l -> I pass ->
  wp (stack_foreach k func pass r) s (fun x s' => s' = s /\ x = search pass (rev l)).
Proof.
  intros (pre & c & post & H) Hf HI.
  destruct (cur_page k _ _ _ _ _ _ _ H) as (d & dc & Hd & Hcd & Hdc & _).
  pose proof (curr_of k _ _ _ _ _ _ _ _ H Hdc) as Hcc. pose proof (pages_fuel k _ _ _ _ _ _ _ H) as Hfuel.
  assert (concat (map (fun p => take (Z.to_nat (used p)) (content p)) (pre ++ [c])) = l) as El.
  { rewrite (sp_list _ _ _ _ _ _ _ _ H), map_app, concat_app. simpl. rewrite app_nil_r. do 2 f_equal.
    apply map_ext_in. intros p Hp%list_elem_of_In. pose proof (sp_full _ _ _ _ _ _ _ _ H) as Hfl.
    rewrite list.Forall_forall in Hfl. rewrite (Hfl p Hp), take_ge; [done|].
    rewrite (chain_length k _ _ _ _ _ p (sp_chain _ _ _ _ _ _ _ _ H)); [lia|]. apply elem_of_app. by left. }
  unfold stack_foreach. wp_step. eapply wp_load_page; [done|]. rewrite Hcd. wp_step.
  eapply wp_load_page; [done|]. wp_step. wp_step. rewrite <- El in Hf |- *.
  eapply (foreach_loop_spec _ _ _ _ _ _ post); rewrite <- ?app_assoc; simpl.
  - apply H.
  - intros p Hp. by eapply (sp_all_null k).
  - by rewrite last_addr_app.
  - rewrite length_app in Hfuel |- *. simpl in *. lia.
  - done.
  - done.
  - pose proof (sp_used _ _ _ _ _ _ _ _ H). apply Forall_app. split; [|by constructor].
    eapply list.Forall_impl; [apply H|]. simpl. intros p ->. unfold PVM_STACK_SIZE. lia.
Qed.
End Foreach.

(** ** Refinement of a list *)

(** What a client does with a stack, and what it sees. *)
Inductive stack_op (A : Type) : Type := Push (v : A) | Pop | Top | Empty.
Inductive stack_res (A : Type) : Type := Done | Value (v : A) | Flag (b : bool).
Arguments Push {A}. Arguments Pop {A}. Arguments Top {A}. Arguments Empty {A}.
Arguments Done {A}. Arguments Value {A}. Arguments Flag {A}.

Definition unsnoc {A} (l : list A) : option (A * list A) :=
  match rev l with [] => None | v :: l' => Some (v, rev l') end.

(** The specification: a list with the top at its end. *)
Definition list_step {A} (op : stack_op A) (l : list A) : option (stack_res A * list A) :=
  match op with
  | Push v => Some (Done, l ++ [v])
  | Pop => '(v, l) ← unsnoc l; Some (Value v, l)
  | Top => '(v, _) ← unsnoc l; Some (Value v, l)
  | Empty => Some (Flag (bool_decide (length l = 0%nat)), l)
  end.

Fixpoint list_run {A} (ops : list (stack_op A)) (l : list A) : option (list (stack_res A) * list A) :=
  match ops with
  | [] => Some ([], l)
  | op :: ops => '(r, l) ← list_step op l; '(rs, l) ← list_run ops l; Some (r :: rs, l)
  end.

(** The same operations on the heap. *)
Definition heap_step {A} (k : stack_kind A) (chk : bool) (r : Z) (op : stack_op A) : M vm (stack_res A) :=
  match op with
  | Push v => stack_push k chk r v;; mret Done
  | Pop => v ← stack_pop k chk r; mret (Value v)
  | Top => v ← stack_top k chk r; mret (Value v)
  | Empty => b ← stack_empty k r; mret (Flag b)
  end.

Fixpoint heap_run {A} (k : stack_kind A) (chk : bool) (r : Z) (ops : list (stack_op A))
    : M vm (list (stack_res A)) :=
  match ops with
  | [] => mret []
  | op :: ops => x ← heap_step k chk r op; xs ← heap_run k chk r ops; mret (x :: xs)
  end.

Lemma unsnoc_app {A} (l : list A) v : unsnoc (l ++ [v]) = Some (v, l).
Proof. unfold unsnoc. rewrite rev_app_distr. simpl. by rewrite rev_involutive. Qed.

Section Refine.
Context {A : Type} (k : stack_kind A) `{Hk : !StackLaws k} (chk : bool).
Implicit Types (s : vm) (l : list A).

(** A stack whose class and null object are not among its pages. *)
Record stack_inv s r l : Prop := {
  si_wf : heap_wf s;
  si_null : null_ok s;
  si_class : kind_class k s;
  si_rep : exists ps, stack_rep k s r ps l /\ data (sk_class k (pvm_root s)) ∉ ps;
}.

Lemma stack_inv_keeps s s' r l l' ps fresh :
  stack_inv s r l -> stack_rep k s r ps l -> data (sk_class k (pvm_root s)) ∉ ps ->
  keeps ps s s' -> Forall (fun x => alloc_at (heap s) x = None) fresh ->
  stack_rep k s' r (ps ++ fresh) l' -> stack_inv s' r l'.
Proof.
  intros [Hwf Hnull (c & Hc & Hcf) _] (pre & cc & post & H) Hps [K1 K2 K3] Hf Hrep.
  pose proof (env_root _ _ K2) as Er. split; [done| | |].
  - unfold null_ok in *. rewrite Er. destruct Hnull as [Hz|[o Ho]]; [by left|right]. exists o. apply K3; [|done].
    intros Hin. by destruct (sp_null _ _ _ _ _ _ _ _ H _ Hin).
  - exists c. split; [|done]. rewrite Er. destruct Hc as (o & Ho & Hc). exists o. auto.
  - exists (ps ++ fresh). split; [done|]. rewrite Er. intros [?|Hin]%elem_of_app; [done|].
    rewrite list.Forall_forall in Hf. specialize (Hf _ Hin). destruct Hc as (o & Ho & _). congruence.
Qed.

Lemma stack_inv_only s s' r l l' ps :
  stack_inv s r l -> stack_rep k s r ps l -> data (sk_class k (pvm_root s)) ∉ ps ->
  only_pages ps s s' -> stack_rep k s' r ps l' -> stack_inv s' r l'.
Proof.
  intros Hi Hr Hc Ho Hr'. eapply (stack_inv_keeps s s' r l l' ps []); try done.
  - by apply only_pages_keeps.
  - by rewrite app_nil_r.
Qed.

(** What may go wrong: memory, or a pop from the empty stack. *)
Definition stack_failure (failed : Prop) (msg : string) : Prop :=
  msg = oom \/ (failed /\ msg = "stack underflow"%string).

Lemma pop_empty s r ps : stack_rep k s r ps [] -> stack_pop k chk r s = Panic "stack underflow".
Proof. intros H. unfold stack_pop, mbind, M_bind. by rewrite (check_underflow_empty k _ _ _ H). Qed.
Lemma top_empty s r ps : stack_rep k s r ps [] -> stack_top k chk r s = Panic "stack underflow".
Proof. intros H. unfold stack_top, mbind, M_bind. by rewrite (check_underflow_empty k _ _ _ H). Qed.

Lemma heap_step_spec s r l op :
  stack_inv s r l ->
  wpe (stack_failure (list_step op l = None)) (heap_step k chk r op) s
    (fun x s' => exists l', list_step op l = Some (x, l') /\ stack_inv s' r l').
Proof.
  intros Hi. destruct (si_rep _ _ _ Hi) as (ps & Hr & Hc). pose proof (si_wf _ _ _ Hi) as Hwf.
  destruct op as [v| | |]; simpl.
  - apply wpe_bind. eapply wpe_mono; [eapply wpe_weaken; [apply (stack_push_spec k chk s r ps l v)|]|];
      try done; try apply Hi.
    + intros msg <-. by left.
    + intros [] s' (fresh & Hr' & K & Hf). apply wpe_ret. eexists. split; [done|]. by eapply stack_inv_keeps.
  - destruct l as [|v l _] using rev_ind.
    { apply wpe_bind. eapply wpe_panic_eq; [by eapply pop_empty|]. by right. }
    apply wpe_bind, wp_wpe. eapply wp_mono; [by eapply (stack_pop_spec k)|].
    intros w s' (-> & Hr' & Ho). apply wpe_ret. exists l. rewrite unsnoc_app.
    split; [done|]. by eapply stack_inv_only.
  - destruct l as [|v l _] using rev_ind.
    { apply wpe_bind. eapply wpe_panic_eq; [by eapply top_empty|]. by right. }
    apply wpe_bind, wp_wpe. eapply wp_mono; [by eapply (stack_top_spec k)|].
    intros w s' (-> & Hr' & Ho). apply wpe_ret. eexists. rewrite unsnoc_app.
    split; [done|]. by eapply stack_inv_only.
  - apply wpe_bind, wp_wpe. eapply wp_mono; [by eapply (stack_empty_spec k)|].
    intros b s' (-> & Hb). apply wpe_ret. exists l. split; [|done]. do 3 f_equal.
    destruct (bool_decide_reflect (length l = 0%nat)) as [->%nil_length_inv|Hn]; [symmetry; by apply Hb|].
    destruct b; [|done]. by destruct Hn; rewrite (proj1 Hb eq_refl).
Qed.

Lemma list_run_fails op ops (l l' : list A) x :
  list_step op l = Some (x, l') -> list_run ops l' = None -> list_run (op :: ops) l = None.
Proof. simpl. intros ->. simpl. by intros ->. Qed.

Lemma heap_run_spec s r l ops :
  stack_inv s r l ->
  wpe (stack_failure (list_run ops l = None)) (heap_run k chk r ops) s
    (fun xs s' => exists l', list_run ops l = Some (xs, l') /\ stack_inv s' r l').
Proof.
  revert s l. induction ops as [|op ops IH]; intros s l Hi; cbn [heap_run].
  { apply wpe_ret. by exists l. }
  apply wpe_bind. eapply wpe_mono; [eapply wpe_weaken; [by apply (heap_step_spec s r l op)|]|].
  { intros msg [?|[Hn ?]]; [by left|right]. split; [|done]. simpl. by rewrite Hn. }
  intros x s1 (l1 & E1 & H1). apply wpe_bind. eapply wpe_mono; [eapply wpe_weaken; [by apply IH|]|].
  { intros msg [?|[Hn ?]]; [by left|right]. split; [|done]. by eapply list_run_fails. }
  intros xs s2 (l2 & E2 & H2). apply wpe_ret. exists l2. split; [|done].
  simpl. rewrite E1. simpl. by rewrite E2.
Qed.

Lemma create_stack_inv s :
  heap_wf s -> kind_class k s -> null_ok s ->
  wpe (eq oom) (pvm_create_general_stack_object k) s (fun p s' =>
    grows s s' /\ stack_inv s' (data p) []).
Proof.
  intros Hwf Hc Hnull. eapply wpe_mono; [by apply (create_stack_rep k)|].
  intros p s' (G & Hn & Hr). split; [done|]. pose proof (grows_root _ _ G) as Er.
  destruct Hc as (c & Hc & Hcf). split; [apply G| | |].
  - unfold null_ok in *. rewrite Er. destruct Hnull as [?|[o Ho]]; [by left|right].
    exists o. by apply (proj2 (proj2 G)).
  - exists c. split; [|done]. rewrite Er. by eapply grows_class.
  - exists [data p]. split; [done|]. rewrite Er. intros E%list_elem_of_singleton.
    destruct Hc as (o & Ho & _). congruence.
Qed.

(** Creating a stack and using it. *)
Lemma stack_run_spec s ops :
  heap_wf s -> kind_class k s -> null_ok s ->
  wpe (stack_failure (list_run ops [] = None))
    (p ← pvm_create_general_stack_object k; xs ← heap_run k chk (data p) ops; mret (p, xs)) s
    (fun r s' => exists l, list_run ops [] = Some (r.2, l) /\ stack_inv s' (data r.1) l).
Proof.
  intros Hwf Hc Hnull. apply wpe_bind.
  eapply wpe_mono; [eapply wpe_weaken; [by apply create_stack_inv|]|].
  { intros msg <-. by left. }
  intros p s1 (_ & Hi). apply wpe_bind. eapply wpe_mono; [by apply heap_run_spec|].
  intros xs s2 Hq. by apply wpe_ret.
Qed.
End Refine.

(** ** The properties *)

(** C7: each of the three stacks refines a list.  On a well-formed heap, a new
    stack and any sequence of pushes, pops, tops and emptiness tests on it give
    exactly the results that a list gives, across page boundaries, and the pages
    hold that list at the end; the run stops only when the allocator is out of
    memory, or with the underflow panic where the list has nothing to pop. *)
Theorem stack_refines_list {A} (k : stack_kind A) `{!StackLaws k} (chk : bool) s ops :
  heap_wf s -> kind_class k s -> null_ok s ->
  wpe (stack_failure (list_run ops [] = None))
    (p ← pvm_create_general_stack_object k; xs ← heap_run k chk (data p) ops; mret (p, xs)) s
    (fun r s' => exists l, list_run ops [] = Some (r.2, l) /\ stack_inv k s' (data r.1) l).
Proof. apply (stack_run_spec k chk). Qed.

(** random access agrees with the list.  [abs_get] counts from the bottom
    and [pull] from the top; both return the element at that position and
    leave the machine unchanged. *)
Theorem stack_index_correct {A} (k : stack_kind A) `{!StackLaws k} msg s r l i v :
  stack_inv k s r l -> Z.of_nat (length l) < 2 ^ 31 -> l !!z i = Some v ->
  stack_abs_get k msg r i s = Ret v s /\ stack_pull k r (Z.of_nat (length l) - 1 - i) s = Ret v s.
Proof.
  intros Hi Hlen Hv. destruct (si_rep _ _ _ _ Hi) as (ps & Hr & _).
  pose proof (proj1 (lookupZ_Some _ _ _) Hv) as [Hi0 Hlt%lookup_lt_Some]. split.
  - destruct (stack_abs_get_spec k msg s r ps l i v Hr Hv) as (? & ? & E & -> & ->); [lia|done].
  - destruct (stack_pull_spec k s r ps l (Z.of_nat (length l) - 1 - i) v Hr) as (? & ? & E & -> & ->);
      [lia|done| |done]. by replace (_ - _ - _) with i by lia.
Qed.

(** storing at an absolute position of the integer stack replaces that
    element and nothing else. *)
Theorem pvm_istack_abs_set_correct s r l i v :
  stack_inv istack_kind s r l -> Z.of_nat (length l) < 2 ^ 31 -> 0 <= i < Z.of_nat (length l) ->
  exists s', pvm_istack_abs_set r i v s = Ret tt s' /\
    stack_inv istack_kind s' r (<[Z.to_nat i := v]> l).
Proof.
  intros Hi Hlen Hb. destruct (si_rep _ _ _ _ Hi) as (ps & Hr & Hc).
  destruct (lookupZ_is_Some l i Hb) as [w Hw].
  destruct (stack_abs_set_spec istack_kind "i abs_set: out of stack" (fun _ => mret tt) s r ps l i v w
    (si_wf _ _ _ _ Hi) Hr Hw) as ([] & s' & E & Hr' & Ho); [lia|by wp_step|]. exists s'. split; [done|]. by eapply (stack_inv_only istack_kind).
Qed.

(** A long pushed on an empty integer stack cannot be popped again: the fill
    level counts one entry, and the emptiness test wants two cells. *)
Theorem pvm_lstack_push_pop_underflow :
  (p ← pvm_create_istack_object; pvm_lstack_push (data p) 5;; pvm_lstack_pop (data p)) ex_boot
  = Panic "stack underflow".
Proof. vm_compute. reflexivity. Qed.

(** The 33rd long goes beyond the cells of the page. *)
Theorem pvm_lstack_overrun :
  (p ← pvm_create_istack_object; mapM (pvm_lstack_push (data p)) (replicate 33 7)) ex_boot
  = Fault "push outside the page".
Proof. vm_compute. reflexivity. Qed.

(** ** Instances *)

Definition null_ok_b (s : vm) : bool :=
  let a := data (null_object (pvm_root s)) in
  (a =? 0) || match alloc_at (heap s) a with Some _ => true | None => false end.

Lemma null_ok_b_sound s : null_ok_b s = true -> null_ok s.
Proof.
  unfold null_ok_b, null_ok. intros [Hz%Z.eqb_eq|Ha]%orb_true_iff; [by left|right].
  by destruct (alloc_at _ _).
Qed.

Definition kind_class_b {A} (k : stack_kind A) : bool :=
  match class_of_ex (sk_class k (pvm_root ex_boot)) with
  | Some c => (0 <=? object_flags c) && (object_flags c <? 2 ^ 32)
  | None => false
  end.

Lemma kind_class_b_sound {A} (k : stack_kind A) : kind_class_b k = true -> kind_class k ex_boot.
Proof.
  unfold kind_class_b. destruct (class_of_ex _) as [c|] eqn:E; [|done].
  intros [? ?]%andb_true_iff. exists c. split; [by apply class_of_ex_at|lia].
Qed.

(** 70 pushes: more than a page. *)
Definition ex_ops : list (stack_op Z) := map Push (map Z.of_nat (seq 0 70)).
Definition ex_run (ops : list (stack_op Z)) : outcome vm (pvm_object * list (stack_res Z)) :=
  (p ← pvm_create_general_stack_object istack_kind;
   xs ← heap_run istack_kind false (data p) ops; mret (p, xs)) ex_boot.
Definition ex_stack : vm * Z :=
  match ex_run ex_ops with Ret r s => (s, data r.1) | _ => (ex_boot, 0) end.

Lemma ex_stack_inv : stack_inv istack_kind ex_stack.1 ex_stack.2 (map Z.of_nat (seq 0 70)).
Proof.
  pose proof (stack_run_spec istack_kind false ex_boot ex_ops ex_boot_wf
    (kind_class_b_sound istack_kind eq_refl) (null_ok_b_sound ex_boot eq_refl)) as H.
  unfold wpe in H. change ((p ← pvm_create_general_stack_object istack_kind; _) ex_boot)
    with (ex_run ex_ops) in H. unfold ex_stack.
  destruct (ex_run ex_ops) as [r s|m|m|] eqn:E; [|vm_compute in E; discriminate E|destruct H|destruct H].
  destruct H as (l & Hl & Hi). assert (l = map Z.of_nat (seq 0 70)) as <-; [|done].
  destruct (list_run ex_ops []) as [[? l']|] eqn:El; [|discriminate Hl].
  vm_compute in El. injection El as _ <-. vm_compute in Hl. injection Hl as _ <-. reflexivity.
Qed.

Lemma stack_refines_list_witness :
  exists p s', ex_run [Push 3; Push 4; Pop; Top; Empty; Pop; Empty]
      = Ret (p, [Done; Done; Value 4; Value 3; Flag false; Value 3; Flag true]) s' /\
    stack_inv istack_kind s' (data p) [].
Proof.
  pose proof (stack_refines_list istack_kind false ex_boot
    [Push 3; Push 4; Pop; Top; Empty; Pop; Empty] ex_boot_wf
    (kind_class_b_sound istack_kind eq_refl) (null_ok_b_sound ex_boot eq_refl)) as H.
  unfold wpe in H. change ((p ← pvm_create_general_stack_object istack_kind; _) ex_boot)
    with (ex_run [Push 3; Push 4; Pop; Top; Empty; Pop; Empty]) in H.
  destruct (ex_run _) as [[p xs] s|m|m|] eqn:E; [|vm_compute in E; discriminate E|destruct H|destruct H].
  destruct H as (l & Hl & Hi). vm_compute in Hl. injection Hl as <- <-.
  exists p, s. split; [reflexivity|exact Hi].
Defined.

Lemma stack_index_correct_witness :
  stack_abs_get istack_kind "i abs_get: out of stack" ex_stack.2 66 ex_stack.1 = Ret 66 ex_stack.1 /\
  stack_pull istack_kind ex_stack.2 3 ex_stack.1 = Ret 66 ex_stack.1.
Proof.
  exact (stack_index_correct istack_kind _ ex_stack.1 ex_stack.2 _ 66 66 ex_stack_inv eq_refl eq_refl).
Defined.

Lemma pvm_istack_abs_set_correct_witness :
  exists s', pvm_istack_abs_set ex_stack.2 5 (-1) ex_stack.1 = Ret tt s' /\
    stack_inv istack_kind s' ex_stack.2 (<[5%nat := -1]> (map Z.of_nat (seq 0 70))).
Proof.
  apply (pvm_istack_abs_set_correct ex_stack.1 ex_stack.2 _ 5 (-1) ex_stack_inv);
    [reflexivity|split; [discriminate|reflexivity]].
Defined.
