(* ===== verification/Object.v ===== *)
(** * Fields, arrays and classes of objects ([phantom/vm/object.c])

    Access to the fields of plain objects and of arrays, with the growth of
    array pages, the class test, the shallow copy, the accessors that look into
    class objects ([phantom/vm/backtrace.c]), and the lookup of internal
    classes ([phantom/vm/internal.c]).

    [pvm_get_ofield] and [pvm_get_array_ofield] call each other: an array keeps
    its elements in the fields of its page.  The recursion is bounded by fuel;
    the wrappers give one unit per object of the heap. *)

From S2P Require Import Prelude Heap Refcount Alloc Create.

(** ** Access checks *)

Definition verify_p (p : Z) : M vm unit :=
  if p =? 0 then mret tt else
  o ← load p;
  if pvm_object_is_allocated_light o then mret tt else panic "freed object accessed".

Definition verify_o (o : pvm_object) : M vm unit :=
  if data o =? 0 then mret tt else verify_p (data o);; verify_p (interface o).

Definition is_array (o : pvm_object_storage) : bool :=
  flag (_flags o) PHANTOM_OBJECT_STORAGE_FLAG_IS_INTERNAL &&
  flag (_flags o) PHANTOM_OBJECT_STORAGE_FLAG_IS_RESIZEABLE.

(** The slots of the object at [a]: [da_po_ptr(o->da)]. *)
Definition load_slots (a : Z) : M vm (list pvm_object) :=
  o ← load a; some_or_fault (as_slots (da_po_limit o) (da o)) "data area of another type".

Definition set_slot (a : Z) (slot : Z) (value : pvm_object) : M vm unit :=
  l ← load_slots a;
  l' ← some_or_fault (insertZ slot value l) "slot outside the object";
  update a (set_da (DA_slots l')).

(** ** Loading *)

Section Get.
Context (get_ofield : pvm_object -> Z -> M vm pvm_object).

Definition array_get (o slot : Z) : M vm pvm_object :=
  verify_p o;;
  os ← load o;
  (if is_array os then mret tt else panic "attempt to do an array op to non-array");;
  da ← load_da as_array o;
  (if u32 (used_slots da) <=? slot then panic "load: array index out of bounds" else mret tt);;
  get_ofield (page da) slot.

Definition ofield_get (op : pvm_object) (slot : Z) : M vm pvm_object :=
  verify_o op;;
  os ← load (data op);
  if flag (_flags os) PHANTOM_OBJECT_STORAGE_FLAG_IS_INTERNAL then
    if flag (_flags os) PHANTOM_OBJECT_STORAGE_FLAG_IS_RESIZEABLE
    then array_get (data op) slot
    else panic "attempt to load from internal"
  else
  (if da_po_limit os <=? slot then panic "load: slot index out of bounds" else mret tt);;
  l ← load_slots (data op);
  v ← some_or_fault (l !!z slot) "slot outside the object";
  verify_o v;;
  mret v.
End Get.

Fixpoint get_ofield (fuel : nat) (op : pvm_object) (slot : Z) : M vm pvm_object :=
  match fuel with
  | O => diverge
  | S fuel' => ofield_get (get_ofield fuel') op slot
  end.

Definition pvm_get_ofield (op : pvm_object) (slot : Z) : M vm pvm_object :=
  s ← get; get_ofield (S (size (heap s))) op slot.

Definition pvm_get_array_ofield (o slot : Z) : M vm pvm_object :=
  s ← get; array_get (get_ofield (S (size (heap s)))) o slot.

(** [pvm_get_field], from the bare storage. *)
Definition pvm_get_field (o slot : Z) : M vm pvm_object :=
  verify_p o;;
  os ← load o;
  if flag (_flags os) PHANTOM_OBJECT_STORAGE_FLAG_IS_INTERNAL then
    if flag (_flags os) PHANTOM_OBJECT_STORAGE_FLAG_IS_RESIZEABLE
    then pvm_get_array_ofield o slot
    else panic "attempt to load from internal"
  else
  (if da_po_limit os <=? slot then panic "save: slot index out of bounds" else mret tt);;
  l ← load_slots o;
  v ← some_or_fault (l !!z slot) "slot outside the object";
  verify_o v;;
  mret v.

(** ** Storing *)

(** The size of the page that holds [slot]. *)
Definition grown_page_size (slot : Z) : Z :=
  let step := 1024 in
  let n := i32 (if slot <? step / 2 then u32 (slot * 2) else u32 (slot + step)) in
  if n <? 16 then 16 else n.

(** The first [n] slots of the old page, for the copy into the new one. *)
Definition old_slots (page : pvm_object) (n : Z) : M vm (list pvm_object) :=
  l ← load_slots (data page);
  if n <=? Z.of_nat (length l) then mret (take (Z.to_nat n) l) else fault "slots outside the page".

Definition array_resize (o slot : Z) : M vm unit :=
  da ← load_da as_array o;
  isnull ← pvm_is_null (page da);
  if isnull || (u32 (page_size da) <=? slot) then
    let n := grown_page_size slot in
    init ← (if negb isnull && (0 <? page_size da) then old_slots (page da) (page_size da)
            else mret []);
    p ← pvm_create_page_object n init;
    da ← load_da as_array o;
    update o (set_da (DA_array (mkArray p n (used_slots da))))
  else mret tt.

Section Set_.
Context (set_ofield : pvm_object -> Z -> pvm_object -> M vm unit).

Definition array_set (o slot : Z) (value : pvm_object) : M vm unit :=
  verify_p o;;
  verify_o value;;
  os ← load o;
  (if is_array os then mret tt else panic "attempt to do an array op to non-array");;
  array_resize o slot;;
  da ← load_da as_array o;
  (if u32 (used_slots da) <=? slot then
     update o (set_da (DA_array (mkArray (page da) (page_size da) (i32 (slot + 1)))))
   else mret tt);;
  set_ofield (page da) slot value.

Definition ofield_set (op : pvm_object) (slot : Z) (value : pvm_object) : M vm unit :=
  verify_o op;;
  verify_o value;;
  os ← load (data op);
  if flag (_flags os) PHANTOM_OBJECT_STORAGE_FLAG_IS_INTERNAL then
    if flag (_flags os) PHANTOM_OBJECT_STORAGE_FLAG_IS_RESIZEABLE
    then array_set (data op) slot value
    else panic "attempt to save to internal"
  else
  (if da_po_limit os <=? slot then panic "slot index out of bounds" else mret tt);;
  l ← load_slots (data op);
  old ← some_or_fault (l !!z slot) "slot outside the object";
  (if data old =? 0 then mret tt else ref_dec_o old);;
  set_slot (data op) slot value.
End Set_.

Fixpoint set_ofield (fuel : nat) (op : pvm_object) (slot : Z) (value : pvm_object) : M vm unit :=
  match fuel with
  | O => diverge
  | S fuel' => ofield_set (set_ofield fuel') op slot value
  end.

Definition pvm_set_ofield (op : pvm_object) (slot : Z) (value : pvm_object) : M vm unit :=
  s ← get; set_ofield (S (size (heap s))) op slot value.

Definition pvm_set_array_ofield (o slot : Z) (value : pvm_object) : M vm unit :=
  s ← get; array_set (set_ofield (S (size (heap s)))) o slot value.

Definition pvm_set_field (o slot : Z) (value : pvm_object) : M vm unit :=
  verify_p o;;
  verify_o value;;
  os ← load o;
  if flag (_flags os) PHANTOM_OBJECT_STORAGE_FLAG_IS_INTERNAL then
    if flag (_flags os) PHANTOM_OBJECT_STORAGE_FLAG_IS_RESIZEABLE
    then pvm_set_array_ofield o slot value
    else panic "attempt to save to internal"
  else
  (if da_po_limit os <=? slot then panic "load: slot index out of bounds" else mret tt);;
  l ← load_slots o;
  old ← some_or_fault (l !!z slot) "slot outside the object";
  (if data old =? 0 then mret tt else ref_dec_o old);;
  set_slot o slot value.

(** ** Arrays as sequences *)

Definition pvm_append_array (array : Z) (value : pvm_object) : M vm unit :=
  da ← load_da as_array array;
  pvm_set_array_ofield array (u32 (used_slots da)) value.

Definition get_array_size (array : Z) : M vm Z :=
  da ← load_da as_array array; mret (used_slots da).

(** The loop of [pvm_pop_array]: the slot of the first reference to [v]. *)
Fixpoint find_slot (fuel : nat) (v : Z) (l : list pvm_object) (slot used : Z) : M vm (option Z) :=
  match fuel with
  | O => diverge
  | S fuel' =>
      if slot <? used then
        x ← some_or_fault (l !!z slot) "slot outside the page";
        if data x =? v then mret (Some slot) else find_slot fuel' v l (slot + 1) used
      else mret None
  end.

Definition pvm_pop_array (array : Z) (value : pvm_object) : M vm unit :=
  da ← load_da as_array array;
  let used := u32 (used_slots da) in
  l ← (if used =? 0 then mret [] else load_slots (data (page da)));
  found ← find_slot (S (length l)) (data value) l 0 used;
  match found with
  | Some slot =>
      (if slot =? u32 (used_slots da - 1) then mret tt else
         last ← some_or_fault (l !!z u32 (used_slots da - 1)) "slot outside the page";
         set_slot (data (page da)) slot last);;
      da ← load_da as_array array;
      update array (set_da (DA_array (mkArray (page da) (page_size da) (i32 (used_slots da - 1)))))
  | None => panic "attempt to remove non existing element from array"
  end.

(** ** Classes *)

Fixpoint class_is_loop (fuel : nat) (tested : Z) (tclass : pvm_object) : M vm bool :=
  match fuel with
  | O => diverge
  | S fuel' =>
      isnull ← pvm_is_null tclass;
      if (isnull : bool) then mret false else
      if tested =? data tclass then mret true else
      nullc ← gets (fun s => null_class (pvm_root s));
      if data tclass =? data nullc then mret false else
      c ← load_class (data tclass);
      class_is_loop fuel' tested (class_parent c)
  end.

Definition pvm_object_class_is (object tclass : pvm_object) : M vm bool :=
  o ← load (data object);
  s ← get;
  class_is_loop (S (S (size (heap s)))) (data (_class o)) tclass.

Definition pvm_get_default_interface (os : Z) : M vm pvm_object :=
  o ← load os; c ← load_class (data (_class o)); mret (object_default_interface c).

Definition pvm_storage_to_object (st : Z) : M vm pvm_object :=
  i ← pvm_get_default_interface st; mret (mkObj st (data i)).

Definition pvm_check_is_thread (new_thread : pvm_object) : M vm unit :=
  d ← load (data new_thread);
  (if _flags d =? Z.lor PHANTOM_OBJECT_STORAGE_FLAG_IS_INTERNAL PHANTOM_OBJECT_STORAGE_FLAG_IS_THREAD
   then mret tt else panic "Thread object has no INTERNAL flag");;
  c ← gets (fun s => thread_class (pvm_root s));
  isa ← pvm_object_class_is new_thread c;
  if (isa : bool) then mret tt else panic "Thread object class is not .internal.thread".

(** ** Copy *)

(** The loop that counts the copied references, from slot [da_size/8] down. *)
Fixpoint copy_incs (i : nat) (a : Z) : M vm unit :=
  l ← load_slots a;
  x ← some_or_fault (l !!z Z.of_nat i) "slot past the object";
  (if data x =? 0 then mret tt else ref_inc_o x;; mret tt);;
  match i with O => mret tt | S i' => copy_incs i' a end.

Definition pvm_copy_object (in_object : pvm_object) : M vm pvm_object :=
  o ← load (data in_object);
  (if flag (_flags o) PHANTOM_OBJECT_STORAGE_FLAG_IS_INTERNAL
   then panic "internal object copy?!" else mret tt);;
  out ← pvm_object_create_dynamic (_class o) (i32 (_da_size o));
  copy_incs (Z.to_nat (i32 (_da_size o) / sizeof_pvm_object)) (data in_object);;
  o' ← load (data in_object);
  update (data out) (set_da (da o'));;
  mret out.

(** ** Names kept in classes ([backtrace.c]) *)

Definition pvm_get_class (o : pvm_object) : M vm pvm_object :=
  isnull ← pvm_is_null o;
  if (isnull : bool) then mret o else os ← load (data o); mret (_class os).

Definition name_at (names : da_class -> pvm_object) (tclass : pvm_object) (i : Z) : M vm pvm_object :=
  c ← load_class (data tclass);
  isnull ← pvm_is_null (names c);
  if (isnull : bool) then pvm_create_null_object else pvm_get_ofield (names c) (u32 i).

Definition name_count (names : da_class -> pvm_object) (tclass : pvm_object) : M vm Z :=
  c ← load_class (data tclass);
  isnull ← pvm_is_null (names c);
  if (isnull : bool) then mret 0 else get_array_size (data (names c)).

Definition pvm_get_method_name (tclass : pvm_object) (i : Z) := name_at method_names tclass i.
Definition pvm_get_method_name_count (tclass : pvm_object) := name_count method_names tclass.
Definition pvm_get_field_name (tclass : pvm_object) (i : Z) := name_at field_names tclass i.
Definition pvm_get_field_name_count (tclass : pvm_object) := name_count field_names tclass.

Fixpoint find_name (fuel : nat) (mnames mname : pvm_object) (i nitems : Z) : M vm Z :=
  match fuel with
  | O => diverge
  | S fuel' =>
      if i <? nitems then
        cur ← pvm_get_ofield mnames (u32 i);
        diff ← pvm_strcmp cur mname;
        if diff =? 0 then mret i else find_name fuel' mnames mname (i + 1) nitems
      else mret (-1)
  end.

Definition pvm_get_method_ordinal (tclass mname : pvm_object) : M vm Z :=
  c ← load_class (data tclass);
  isnull ← pvm_is_null (method_names c);
  if (isnull : bool) then mret (-1) else
  isnull ← pvm_is_null mname;
  if (isnull : bool) then mret (-1) else
  sc ← gets (fun s => string_class (pvm_root s));
  isa ← pvm_object_class_is mname sc;
  if negb isa then mret (-1) else
  n ← get_array_size (data (method_names c));
  find_name (S (Z.to_nat n)) (method_names c) mname 0 n.

(** ** Internal classes ([internal.c]) *)

Definition pvm_iclass_by_class (cs : Z) : M vm Z :=
  cls ← gets class_objects;
  match list_find (fun c => data c = cs) cls with
  | Some (i, _) => mret (Z.of_nat i)
  | None => panic "no iclass"
  end.

(** [strncmp( table name, name, strlen(name) )]: a prefix is enough. *)
Definition pvm_iclass_by_name (name : string) : M vm Z :=
  match list_find (fun c => String.prefix name (ic_name c) = true) pvm_internal_classes with
  | Some (i, _) => mret (Z.of_nat i)
  | None => panic "no iclass named"
  end.

(** [EQ_STRING_P2C(obj, cstring)] *)
Definition EQ_STRING_P2C (obj : pvm_object) (cstring : string) : M vm bool :=
  '(n, bytes) ← load_da as_string (data obj);
  let c := string_bytes cstring in
  if u32 n =? strlen c then
    d ← some_or_fault (strncmp bytes c (Z.to_nat (u32 n))) "strncmp past the string";
    mret (d =? 0)
  else mret false.

Fixpoint lookup_internal (name : pvm_object) (tab : list (internal_class * pvm_object)) : M vm pvm_object :=
  match tab with
  | [] => mret null_ref
  | (ic, c) :: rest =>
      eq ← EQ_STRING_P2C name (ic_name ic);
      if (eq : bool) then mret c else lookup_internal name rest
  end.

Definition pvm_lookup_internal_class (name : pvm_object) : M vm pvm_object :=
  cls ← gets class_objects;
  eq ← EQ_STRING_P2C name ".internal.object";
  if (eq : bool) then some_or_fault (cls !!z 0) "class table"
  else lookup_internal name (zip pvm_internal_classes cls).

(** ** Properties *)

Definition live (s : vm) (p : Z) : Prop := is_Some (alloc_at (heap s) p).

(** A reference that passes the access checks. *)
Definition valid (s : vm) (o : pvm_object) : Prop :=
  data o = 0 \/ live s (data o) /\ (interface o = 0 \/ live s (interface o)).

(** What a slot may hold that is overwritten: nothing, or a saturated object. *)
Definition saturated (s : vm) (o : pvm_object) : Prop :=
  exists q, alloc_at (heap s) (data o) = Some q /\ refCount (_ah q) = INT_MAX.
Definition spare (s : vm) (o : pvm_object) : Prop := data o = 0 \/ saturated s o.

(** The slots of the plain object at [p]. *)
Definition slots_at (s : vm) (p : Z) (l : list pvm_object) : Prop :=
  exists o, alloc_at (heap s) p = Some o /\
    flag (_flags o) PHANTOM_OBJECT_STORAGE_FLAG_IS_INTERNAL = false /\
    as_slots (da_po_limit o) (da o) = Some l.

(** Only the object at [a] changed. *)
Record upd (s : vm) (a : Z) (o' : pvm_object_storage) (s' : vm) : Prop := {
  up_wf : heap_wf s';
  up_env : alloc_env s' = alloc_env s;
  up_obj : alloc_at (heap s') a = Some o';
  up_frame x : x <> a -> alloc_at (heap s') x = alloc_at (heap s) x;
}.

Section Access.
Implicit Types (s : vm).

Lemma wp_update_da s a o d (Q : unit -> vm -> Prop) :
  heap_wf s -> alloc_at (heap s) a = Some o -> (forall s', upd s a (set_da d o) s' -> Q tt s') ->
  wp (update a (set_da d)) s Q.
Proof.
  intros Hwf Ho HQ. apply alloc_at_Some in Ho as [Ho Ha]. eapply wp_update; [done|].
  apply HQ. split; simpl.
  - by eapply heap_wf_upd.
  - done.
  - apply alloc_at_Some. by rewrite lookup_insert_eq.
  - intros x Hx. unfold alloc_at. by rewrite lookup_insert_ne.
Qed.

Lemma live_upd s a o' s' x : upd s a o' s' -> live s x -> live s' x.
Proof.
  intros [_ _ Ha Hf] [o Ho]. unfold live. destruct (decide (x = a)) as [->|Hx]; [by rewrite Ha|].
  rewrite Hf by done. by exists o.
Qed.

Lemma valid_live s s' o : (forall x, live s x -> live s' x) -> valid s o -> valid s' o.
Proof. unfold valid. naive_solver. Qed.

Lemma valid_upd s a o' s' o : upd s a o' s' -> valid s o -> valid s' o.
Proof. intros U. apply valid_live. intros x. by eapply live_upd. Qed.

Lemma grows_live s s' x : grows s s' -> live s x -> live s' x.
Proof. intros (_ & _ & G) [o Ho]. exists o. auto. Qed.

Lemma upd_root s a o' s' : upd s a o' s' -> pvm_root s' = pvm_root s.
Proof. intros [_ E _ _]. unfold alloc_env in E. by injection E. Qed.

Lemma alloc_marker s x o : heap_wf s -> alloc_at (heap s) x = Some o ->
  object_start_marker (_ah o) = PVM_OBJECT_START_MARKER.
Proof.
  intros [Hl _] [E _]%alloc_at_Some. destruct (lw_all _ Hl x o E) as (i & st & en & Hi & Hx).
  destruct (lw_arena _ Hl i st en Hi) as (_ & _ & bl & Ht & Hc & _).
  destruct (tiled_in _ _ _ _ _ Ht (Hc x o E Hx)) as (_ & q & Eq & Hok & _).
  rewrite E in Eq. injection Eq as <-. apply Hok.
Qed.

Lemma alloc_light s x o : heap_wf s -> alloc_at (heap s) x = Some o ->
  pvm_object_is_allocated_light o = true.
Proof.
  intros Hwf Ho. unfold pvm_object_is_allocated_light. rewrite (alloc_marker s x o Hwf Ho), Z.eqb_refl.
  apply alloc_at_Some in Ho as [_ Ha]. by apply Is_true_true.
Qed.

Lemma wp_verify_p s p (Q : unit -> vm -> Prop) :
  heap_wf s -> (p = 0 \/ live s p) -> Q tt s -> wp (verify_p p) s Q.
Proof.
  intros Hwf Hp HQ. unfold verify_p. destruct (Z.eqb_spec p 0) as [->|Hz]; [by wp_step|].
  destruct Hp as [?|[o Ho]]; [done|]. wp_step. eapply wp_load; [by apply heap_of_alloc|].
  rewrite (alloc_light s p o) by done. by wp_step.
Qed.

Lemma wp_verify_o s o (Q : unit -> vm -> Prop) :
  heap_wf s -> valid s o -> Q tt s -> wp (verify_o o) s Q.
Proof.
  intros Hwf Hv HQ. unfold verify_o. destruct (Z.eqb_spec (data o) 0) as [Hz|Hz]; [by wp_step|].
  destruct Hv as [?|[Hd Hi]]; [done|]. wp_step. apply wp_verify_p; [done|by right|]. by apply wp_verify_p.
Qed.

Lemma wp_load_slots s p l (Q : list pvm_object -> vm -> Prop) :
  slots_at s p l -> Q l s -> wp (load_slots p) s Q.
Proof.
  intros (o & Ho & _ & Hl) HQ. unfold load_slots. wp_step. eapply wp_load; [by apply heap_of_alloc|].
  by eapply wp_some_or_fault.
Qed.

Lemma slots_length s p l o : slots_at s p l -> alloc_at (heap s) p = Some o -> heap_wf s ->
  Z.of_nat (length l) = da_po_limit o.
Proof.
  intros (q & Hq & _ & Hl) Ho [_ Hal]. rewrite Ho in Hq. injection Hq as <-.
  destruct (Hal p o Ho) as (_ & Hd & _). unfold as_slots in Hl. destruct (da o); try done.
  - injection Hl as <-. rewrite length_replicate. unfold da_po_limit, sizeof_pvm_object.
    rewrite Z2Nat.id; [done|]. apply Z.div_pos; lia.
  - destruct (Z.eqb_spec (Z.of_nat (length l0)) (da_po_limit o)); [|done]. by injection Hl as <-.
Qed.

(** Releasing a saturated reference changes nothing. *)
Lemma wp_ref_dec_saturated s o (Q : unit -> vm -> Prop) :
  heap_wf s -> saturated s o -> Q tt s -> wp (ref_dec_o o) s Q.
Proof.
  intros Hwf (q & Hq & Hr) HQ. unfold ref_dec_o, ref_dec_p. wp_step. wp_step. cbn [do_ref_dec_p].
  unfold do_ref_dec_body. destruct (data o =? 0); [by wp_step|].
  wp_step. eapply wp_load; [by apply heap_of_alloc|].
  rewrite (alloc_marker s _ q Hwf Hq), Z.eqb_refl.
  apply alloc_at_Some in Hq as [_ Ha]. unfold is_alloc in Ha. apply Is_true_true in Ha.
  rewrite Ha, Hr. simpl. repeat wp_step. done.
Qed.
End Access.

Section Fields.
Implicit Types (s : vm).

Lemma get_ofield_spec fuel s p l slot v :
  heap_wf s -> data p <> 0 -> valid s p -> slots_at s (data p) l -> l !!z slot = Some v -> valid s v ->
  wp (get_ofield (S fuel) p slot) s (fun w s' => w = v /\ s' = s).
Proof.
  intros Hwf Hz Hp Hl Hv Hvv. pose proof Hl as (o & Ho & Hf & _).
  pose proof (slots_length _ _ _ _ Hl Ho Hwf) as Hlen.
  cbn [get_ofield]. unfold ofield_get. wp_step. apply wp_verify_o; [done|done|]. wp_step.
  eapply wp_load; [by apply heap_of_alloc|]. rewrite Hf.
  apply lookupZ_Some in Hv as Hb. destruct Hb as [Hb0 Hb%lookup_lt_Some].
  destruct (Z.leb_spec (da_po_limit o) slot); [lia|]. wp_step. wp_step. wp_step.
  eapply wp_load_slots; [done|]. wp_step. wp_step; [done|]. wp_step.
  apply wp_verify_o; [done|done|]. by wp_step.
Qed.

(** The end of every store: release the old value, which is spare, and write. *)
Lemma overwrite_spec s a l slot old v :
  heap_wf s -> slots_at s a l -> l !!z slot = Some old -> spare s old ->
  wp ((if data old =? 0 then mret tt else ref_dec_o old);; set_slot a slot v) s (fun _ s' =>
    exists o l', insertZ slot v l = Some l' /\ alloc_at (heap s) a = Some o /\
      upd s a (set_da (DA_slots l') o) s' /\ slots_at s' a l').
Proof.
  intros Hwf Hl Hold Hsp. pose proof Hl as (o & Ho & Hf & Has).
  pose proof (slots_length _ _ _ _ Hl Ho Hwf) as Hlen.
  apply lookupZ_Some in Hold as Hb. destruct Hb as [Hb0 Hb%lookup_lt_Some]. wp_step.
  assert (wp (set_slot a slot v) s (fun _ s' => exists o l',
    insertZ slot v l = Some l' /\ alloc_at (heap s) a = Some o /\
    upd s a (set_da (DA_slots l') o) s' /\ slots_at s' a l')) as Hset.
  { unfold set_slot. wp_step. eapply wp_load_slots; [done|].
    assert (insertZ slot v l = Some (<[Z.to_nat slot:=v]> l)) as Hi.
    { rewrite <- (Z2Nat.id slot) at 1 by done. by apply insertZ_nat. }
    rewrite Hi. wp_step. wp_step; [done|]. eapply wp_update_da; [done|done|]. intros s' U.
    exists o, (<[Z.to_nat slot:=v]> l). split_and!; [done|done|done|].
    eexists. split; [apply U|]. split; [done|]. simpl. unfold da_po_limit in *. simpl.
    rewrite length_insert, Hlen. by rewrite Z.eqb_refl. }
  destruct (Z.eqb_spec (data old) 0) as [|Hne]; [by wp_step|].
  destruct Hsp as [?|Hsat]; [done|]. by apply wp_ref_dec_saturated.
Qed.

(** Storing over a spare slot. *)
Lemma set_ofield_spec fuel s p l slot old v :
  heap_wf s -> data p <> 0 -> valid s p -> valid s v -> slots_at s (data p) l ->
  l !!z slot = Some old -> spare s old ->
  wp (set_ofield (S fuel) p slot v) s (fun _ s' => exists o l',
    insertZ slot v l = Some l' /\ alloc_at (heap s) (data p) = Some o /\
    upd s (data p) (set_da (DA_slots l') o) s' /\ slots_at s' (data p) l').
Proof.
  intros Hwf Hz Hp Hv Hl Hold Hsp. pose proof Hl as (o & Ho & Hf & Has).
  pose proof (slots_length _ _ _ _ Hl Ho Hwf) as Hlen.
  apply lookupZ_Some in Hold as Hb. destruct Hb as [Hb0 Hb%lookup_lt_Some].
  cbn [set_ofield]. unfold ofield_set. wp_step. apply wp_verify_o; [done|done|].
  wp_step. apply wp_verify_o; [done|done|]. wp_step.
  eapply wp_load; [by apply heap_of_alloc|]. rewrite Hf.
  destruct (Z.leb_spec (da_po_limit o) slot); [lia|]. wp_step. wp_step. wp_step.
  eapply wp_load_slots; [done|]. wp_step. wp_step; [done|]. by apply overwrite_spec.
Qed.

(** The same through the storage of a plain object. *)
Lemma set_field_spec s a l slot old v :
  heap_wf s -> valid s v -> slots_at s a l -> l !!z slot = Some old -> spare s old ->
  wp (pvm_set_field a slot v) s (fun _ s' => exists o l',
    insertZ slot v l = Some l' /\ alloc_at (heap s) a = Some o /\
    upd s a (set_da (DA_slots l') o) s' /\ slots_at s' a l').
Proof.
  intros Hwf Hv Hl Hold Hsp. pose proof Hl as (o & Ho & Hf & Has).
  pose proof (slots_length _ _ _ _ Hl Ho Hwf) as Hlen.
  apply lookupZ_Some in Hold as Hb. destruct Hb as [Hb0 Hb%lookup_lt_Some].
  unfold pvm_set_field. wp_step. apply wp_verify_p; [done|right; by exists o|].
  wp_step. apply wp_verify_o; [done|done|]. wp_step.
  eapply wp_load; [by apply heap_of_alloc|]. rewrite Hf.
  destruct (Z.leb_spec (da_po_limit o) slot); [lia|]. wp_step. wp_step. wp_step.
  eapply wp_load_slots; [done|]. wp_step. wp_step; [done|]. by apply overwrite_spec.
Qed.

Lemma get_field_spec s a l slot v :
  heap_wf s -> slots_at s a l -> l !!z slot = Some v -> valid s v ->
  wp (pvm_get_field a slot) s (fun w s' => w = v /\ s' = s).
Proof.
  intros Hwf Hl Hv Hvv. pose proof Hl as (o & Ho & Hf & _).
  pose proof (slots_length _ _ _ _ Hl Ho Hwf) as Hlen.
  unfold pvm_get_field. wp_step. apply wp_verify_p; [done|right; by exists o|]. wp_step.
  eapply wp_load; [by apply heap_of_alloc|]. rewrite Hf.
  apply lookupZ_Some in Hv as Hb. destruct Hb as [Hb0 Hb%lookup_lt_Some].
  destruct (Z.leb_spec (da_po_limit o) slot); [lia|]. wp_step. wp_step. wp_step.
  eapply wp_load_slots; [done|]. wp_step. wp_step; [done|]. wp_step.
  apply wp_verify_o; [done|done|]. by wp_step.
Qed.

(** ** Arrays *)

(** The array object at [a] holds [l]; unused slots are spare. *)
Record array_rep s (a : Z) (l : list pvm_object) : Prop := {
  ar_null : a <> data (null_object (pvm_root s));
  ar_obj : exists o ar, alloc_at (heap s) a = Some o /\ is_array o = true /\
    as_array (da o) = Some ar /\ used_slots ar = Z.of_nat (length l) /\
    (l = [] /\ data (page ar) = 0 \/
     exists sl, slots_at s (data (page ar)) (l ++ sl) /\ page_size ar = Z.of_nat (length (l ++ sl)) /\
       data (page ar) <> 0 /\ data (page ar) <> data (null_object (pvm_root s)) /\
       data (page ar) <> a /\ valid s (page ar) /\ Forall (spare s) sl);
}.

Lemma array_get_spec s a l slot :
  heap_wf s -> array_rep s a l -> Forall (valid s) l -> Z.of_nat (length l) < 2 ^ 31 -> 0 <= slot ->
  pvm_get_array_ofield a slot s =
    match l !!z slot with Some v => Ret v s | None => Panic "load: array index out of bounds" end.
Proof.
  intros Hwf [_ (o & ar & Ho & Ha & Has & Hu & Hpg)] Hvl Hlen Hs.
  assert (wp (verify_p a) s (fun _ s' => s' = s)) as (? & ? & Ev & ->).
  { apply wp_verify_p; [done|right; by exists o|done]. }
  unfold pvm_get_array_ofield, array_get, load_da, load, mbind, M_bind. simpl. rewrite Ev.
  rewrite (heap_of_alloc _ _ _ Ho), Ha. unfold mret, M_ret. rewrite (heap_of_alloc _ _ _ Ho).
  unfold some_or_fault. rewrite Has. cbn -[get_ofield u32]. rewrite Hu, u32_id by lia.
  destruct (Z.leb_spec (Z.of_nat (length l)) slot) as [Hge|Hlt].
  - assert (l !!z slot = None) as ->; [|done]. unfold lookupZ.
    destruct (Z.ltb_spec slot 0); [done|]. apply lookup_ge_None. lia.
  - destruct (lookupZ_is_Some l slot) as [v Hv]; [lia|]. rewrite Hv.
    destruct Hpg as [[-> _]|(sl & Hsl & _ & Hz & _ & _ & Hvp & _)]; [simpl in Hlt; lia|].
    destruct (get_ofield_spec (size (heap s)) s (page ar) (l ++ sl) slot v) as (w & s' & E & -> & ->); try done.
    + apply lookupZ_Some in Hv as [? Hv]. apply lookupZ_Some. split; [done|]. by apply lookup_app_l_Some.
    + rewrite list.Forall_forall in Hvl. apply Hvl. apply lookupZ_Some in Hv as [_ Hv].
      by eapply list_elem_of_lookup_2.
Qed.
End Fields.

Section Append.
Implicit Types (s : vm).

(** The null object that fills new pages. *)
Definition null_saturated s : Prop :=
  data (null_object (pvm_root s)) <> 0 /\ saturated s (null_object (pvm_root s)).

(** The class of pages: plain objects. *)
Definition page_class_ok s : Prop := exists c, class_at s (page_class (pvm_root s)) c /\
  0 <= object_flags c < 2 ^ 32 /\
  flag (object_flags c) PHANTOM_OBJECT_STORAGE_FLAG_IS_INTERNAL = false /\
  (data (object_default_interface c) = 0 \/ live s (data (object_default_interface c))).

Lemma create_page_spec s n init :
  heap_wf s -> page_class_ok s -> Z.of_nat (length init) < n -> n * 8 < 2 ^ 31 ->
  wpe (eq oom) (pvm_create_page_object n init) s (fun p s' =>
    grows s s' /\ 0 < data p /\ alloc_at (heap s) (data p) = None /\ valid s' p /\
    slots_at s' (data p)
      (init ++ replicate (Z.to_nat n - length init) (null_object (pvm_root s)))).
Proof.
  intros Hwf (c & Hc & Hfl & Hint & Hif) Hn Hb. unfold pvm_create_page_object, sizeof_pvm_object.
  rewrite i32_id by lia. apply wpe_bind, wp_wpe, wp_gets. apply wpe_bind.
  eapply wpe_mono.
  { apply (wpe_create_dynamic _ c); [done|done|done|]. destruct (Z.ltb_spec (n * 8) 0); lia. }
  destruct (Z.ltb_spec (n * 8) 0); [lia|]. intros p s1 F1.
  pose proof (grows_root _ _ (fo_grows _ _ _ _ _ _ _ F1)) as Er.
  destruct (fo_obj _ _ _ _ _ _ _ F1) as (o & Ho & _ & Hds & _). apply wp_wpe.
  destruct (Z.ltb_spec (Z.of_nat (length init)) n); [|lia]. simpl. wp_step. wp_step. wp_step.
  unfold pvm_create_null_object. wp_step. rewrite Er. wp_step.
  eapply wp_load; [by apply heap_of_alloc|]. rewrite Hds, Z.leb_refl. wp_step.
  eapply wp_mono; [by apply (fresh_set_da _ _ _ _ _ _ _ _ F1)|]. intros [] s2 F2. wp_step.
  destruct (fo_obj _ _ _ _ _ _ _ F2) as (o2 & Ho2 & _ & Hds2 & Hf2 & _ & _ & Hd2).
  destruct F2 as [G2 N2 P2 I2 _]. split_and!; try done.
  - right. split; [by exists o2|]. rewrite I2.
    destruct Hif as [?|Hl]; [by left|right]. by eapply grows_live.
  - exists o2. split_and!; [done|by rewrite Hf2|]. rewrite Hd2. unfold as_slots, da_po_limit, sizeof_pvm_object.
    rewrite Hds2, Z.div_mul by done. rewrite length_app, length_replicate.
    destruct (Z.eqb_spec (Z.of_nat (length init + (Z.to_nat n - length init))) n); [done|lia].
Qed.

(** An array with its page, and the slots behind the used ones. *)
Record paged s (a : Z) (l sl : list pvm_object) (o : pvm_object_storage) (ar : da_array) : Prop := {
  pg_obj : alloc_at (heap s) a = Some o;
  pg_array : is_array o = true;
  pg_da : as_array (da o) = Some ar;
  pg_used : used_slots ar = Z.of_nat (length l);
  pg_slots : slots_at s (data (page ar)) (l ++ sl);
  pg_size : page_size ar = Z.of_nat (length (l ++ sl));
  pg_nz : data (page ar) <> 0;
  pg_null : data (page ar) <> data (null_object (pvm_root s));
  pg_self : data (page ar) <> a;
  pg_valid : valid s (page ar);
  pg_spare : Forall (spare s) sl;
}.

Lemma grown_page_size_gt slot : 0 <= slot < 2 ^ 27 ->
  slot < grown_page_size slot < 2 ^ 28 /\ 16 <= grown_page_size slot.
Proof.
  intros Hs. unfold grown_page_size. change (1024 / 2) with 512.
  destruct (Z.ltb_spec slot 512); rewrite u32_id, i32_id by lia.
  - destruct (Z.ltb_spec (slot * 2) 16); lia.
  - destruct (Z.ltb_spec (slot + 1024) 16); lia.
Qed.

Lemma saturated_upd s a o o' s' x :
  alloc_at (heap s) a = Some o -> refCount (_ah o') = refCount (_ah o) -> upd s a o' s' ->
  saturated s x -> saturated s' x.
Proof.
  intros Ho Er [_ _ Ha Hf] (q & Hq & Hr). destruct (decide (data x = a)) as [Hx|Hx].
  - exists o'. rewrite Hx in *. split; [done|]. congruence.
  - exists q. rewrite Hf by done. done.
Qed.

Lemma saturated_grows s s' x : grows s s' -> saturated s x -> saturated s' x.
Proof. intros (_ & _ & G) (q & Hq & Hr). exists q. auto. Qed.

(** Installing a page that was just created. *)
Lemma install_page s s1 s2 a l o p n init ar :
  heap_wf s -> null_saturated s -> grows s s1 -> alloc_at (heap s) a = Some o ->
  is_array o = true -> as_array (da o) = Some ar -> used_slots ar = Z.of_nat (length l) ->
  0 < data p -> alloc_at (heap s) (data p) = None -> valid s1 p ->
  take (length l) init = l -> length init = length l -> (length init < n)%nat ->
  slots_at s1 (data p) (init ++ replicate (n - length init) (null_object (pvm_root s))) ->
  upd s1 a (set_da (DA_array (mkArray p (Z.of_nat n) (used_slots ar))) o) s2 ->
  paged s2 a l (replicate (n - length l) (null_object (pvm_root s)))
    (set_da (DA_array (mkArray p (Z.of_nat n) (used_slots ar))) o) (mkArray p (Z.of_nat n) (used_slots ar)).
Proof.
  intros Hwf [Nz (nq & Hnq & Hnr)] G Ho Ha Has Hu Hp Hn Hvp Ht Hl Hlt Hsl U.
  rewrite <- Hl, take_ge in Ht by lia. subst init.
  pose proof (grows_root _ _ G) as Er. pose proof (upd_root _ _ _ _ U) as Er2.
  assert (data p <> a) as Hpa by (intros E; congruence).
  assert (alloc_at (heap s1) a = Some o) as Ho1 by by apply (proj2 (proj2 G)).
  split; simpl; try done.
  - apply U.
  - destruct Hsl as (q & Hq & Hqf & Hqs). exists q. rewrite (up_frame _ _ _ _ U) by done. done.
  - rewrite length_app, length_replicate. lia.
  - lia.
  - rewrite Er2, Er. intros E. congruence.
  - by eapply valid_upd.
  - apply Forall_replicate. right. eapply (saturated_upd s1); [done| |done|]; [done|].
    eapply saturated_grows; [done|]. by exists nq.
Qed.

(** Objects other than [a] and those [P] excludes stay; all stay allocated. *)
Record only_at (P : Z -> Prop) s s' : Prop := {
  oa_wf : heap_wf s';
  oa_env : alloc_env s' = alloc_env s;
  oa_live x : live s x -> live s' x;
  oa_frame x o : ~ P x -> alloc_at (heap s) x = Some o -> alloc_at (heap s') x = Some o;
}.

Lemma only_at_trans (P P' : Z -> Prop) s1 s2 s3 :
  only_at P s1 s2 -> only_at P' s2 s3 -> (forall x, live s1 x -> P' x -> P x) -> only_at P s1 s3.
Proof.
  intros [A1 A2 A3 A4] [B1 B2 B3 B4] HP. split; [done|congruence|auto|].
  intros x o Hx Ho. apply B4; [|auto]. intros Hp. apply Hx, HP; [by exists o|done].
Qed.

Lemma only_at_grows s s' P : grows s s' -> only_at P s s'.
Proof. intros G. split; [apply G|apply G|intros x; by apply grows_live|]. intros x o _. apply G. Qed.

Lemma only_at_upd s a o' s' : upd s a o' s' -> only_at (eq a) s s'.
Proof.
  intros U. split; [apply U|apply U|intros x; by eapply live_upd|]. intros x o Hx Ho.
  rewrite (up_frame _ _ _ _ U); [done|]. congruence.
Qed.

Lemma array_resize_new s a l o ar init :
  heap_wf s -> null_saturated s -> page_class_ok s -> alloc_at (heap s) a = Some o ->
  is_array o = true -> as_array (da o) = Some ar -> used_slots ar = Z.of_nat (length l) ->
  init = l -> Z.of_nat (length l) < 2 ^ 27 ->
  wpe (eq oom) (p ← pvm_create_page_object (grown_page_size (Z.of_nat (length l))) init;
    da ← load_da as_array a;
    update a (set_da (DA_array (mkArray p (grown_page_size (Z.of_nat (length l))) (used_slots da))))) s
  (fun _ s' => exists x sl o' ar', paged s' a l (x :: sl) o' ar' /\ only_at (eq a) s s' /\
     alloc_at (heap s) (data (page ar')) = None).
Proof.
  intros Hwf Hn Hpc Ho Ha Has Hu -> Hlen.
  destruct (grown_page_size_gt (Z.of_nat (length l))) as [Hg Hg16]; [lia|].
  set (n := grown_page_size (Z.of_nat (length l))) in *.
  apply wpe_bind. eapply wpe_mono; [apply create_page_spec; [done|done|lia|lia]|].
  intros p s1 (G & Hp & Hnew & Hvp & Hsl). apply wp_wpe.
  assert (alloc_at (heap s1) a = Some o) as Ho1 by by apply (proj2 (proj2 G)).
  wp_step. eapply wp_load_da; [by apply heap_of_alloc|done|].
  eapply wp_update_da; [apply G|done|]. intros s2 U.
  assert (Z.to_nat n - length l = S (Z.to_nat n - length l - 1))%nat as Hm by lia.
  exists (null_object (pvm_root s)), (replicate (Z.to_nat n - length l - 1) (null_object (pvm_root s))).
  eexists _, _. split_and!.
  - replace n with (Z.of_nat (Z.to_nat n)) in U by lia.
    change (?x :: replicate ?k ?x) with (replicate (S k) x). rewrite <- Hm.
    eapply (install_page s s1 s2 a l o p (Z.to_nat n) l ar); try done; [by rewrite take_ge|lia].
  - eapply only_at_trans; [by eapply only_at_grows|by eapply only_at_upd|done].
  - done.
Qed.

Lemma array_resize_spec s a l :
  heap_wf s -> null_saturated s -> page_class_ok s -> array_rep s a l ->
  Z.of_nat (length l) < 2 ^ 27 ->
  wpe (eq oom) (array_resize a (Z.of_nat (length l))) s (fun _ s' => exists x sl o' ar',
    paged s' a l (x :: sl) o' ar' /\ only_at (eq a) s s' /\
    (alloc_at (heap s) (data (page ar')) = None \/
     exists o ar, alloc_at (heap s) a = Some o /\ as_array (da o) = Some ar /\ page ar' = page ar)).
Proof.
  intros Hwf Hn Hpc [Hna (o & ar & Ho & Ha & Has & Hu & Hpg)] Hlen. unfold array_resize.
  apply wpe_bind, wp_wpe. eapply wp_load_da; [by apply heap_of_alloc|done|].
  apply wpe_bind, wp_wpe, wp_is_null.
  destruct Hpg as [[-> Hz]|(sl & Hsl & Hps & Hz & Hnp & Hself & Hvp & Hsp)].
  - rewrite Hz. simpl. apply wpe_bind, wpe_ret.
    eapply wpe_mono; [by eapply (array_resize_new s a [] o ar [])|]. naive_solver.
  - destruct (Z.eqb_spec (data (page ar)) 0); [done|].
    destruct (Z.eqb_spec (data (page ar)) (data (null_object (pvm_root s)))); [done|]. simpl.
    rewrite Hps, length_app in *. pose proof Hsl as (po & Hpo & _).
    pose proof (slots_length _ _ _ _ Hsl Hpo Hwf) as Hpl. rewrite length_app in Hpl.
    assert (Z.of_nat (length l + length sl) < 2 ^ 32) as Hb.
    { destruct Hwf as [_ Hal]. destruct (Hal _ _ Hpo) as (_ & Hd & _). rewrite Hpl.
      unfold da_po_limit, sizeof_pvm_object. pose proof (Z.div_le_upper_bound (_da_size po) 8 (2^31)). lia. }
    rewrite u32_id by lia. destruct (Z.leb_spec (Z.of_nat (length l + length sl)) (Z.of_nat (length l))) as [Hfull|Hroom].
    + assert (sl = []) as -> by (destruct sl; [done|simpl in Hfull; lia]). rewrite app_nil_r in *.
      apply wpe_bind. eapply (wpe_mono _ _ _ (fun init s' => init = l /\ s' = s)).
      { destruct (Z.ltb_spec 0 (Z.of_nat (length l + length (A:=pvm_object) []))) as [|Hle]; simpl.
        - apply wp_wpe. unfold old_slots. wp_step. eapply wp_load_slots; [done|].
          rewrite Nat.add_0_r, Z.leb_refl. wp_step. by rewrite Nat2Z.id, firstn_all.
        - apply wpe_ret. destruct l; [done|simpl in Hle; lia]. }
      intros init s1 [-> ->]. eapply wpe_mono; [by eapply (array_resize_new s a l o ar l)|]. naive_solver.
    + apply wpe_ret. destruct sl as [|x sl]; [simpl in Hroom; lia|]. exists x, sl, o, ar.
      split_and!; [|by split|right; by exists o, ar]. split; try done. by rewrite Hps, length_app.
Qed.

(** Storing in the first spare slot. *)
Lemma paged_append s a l x sl o ar v fuel :
  heap_wf s -> a <> data (null_object (pvm_root s)) -> paged s a l (x :: sl) o ar -> valid s v ->
  Z.of_nat (length l) < 2 ^ 27 ->
  wp (da ← load_da as_array a;
      (if u32 (used_slots da) <=? Z.of_nat (length l) then
         update a (set_da (DA_array (mkArray (page da) (page_size da) (i32 (Z.of_nat (length l) + 1)))))
       else mret tt);;
      set_ofield (S fuel) (page da) (Z.of_nat (length l)) v) s
  (fun _ s' => array_rep s' a (l ++ [v]) /\ only_at (fun y => y = a \/ y = data (page ar)) s s').
Proof.
  intros Hwf Hna [P1 P2 P3 P4 P5 P6 P7 P8 P9 P10 P11] Hv Hlen. apply Forall_cons_1 in P11 as [Px Psl].
  wp_step. eapply wp_load_da; [by apply heap_of_alloc|done|]. rewrite P4, u32_id, Z.leb_refl by lia.
  wp_step. eapply wp_update_da; [done|done|]. rewrite i32_id by lia. intros s1 U1.
  pose proof (upd_root _ _ _ _ U1) as Er.
  assert (forall y, spare s y -> spare s1 y) as Hspare.
  { intros y [?|Hy]; [by left|right]. by eapply (saturated_upd s); [| |exact U1|]. }
  assert (slots_at s1 (data (page ar)) (l ++ x :: sl)) as Hsl1.
  { destruct P5 as (po & Hpo & Hpf). exists po. by rewrite (up_frame _ _ _ _ U1). }
  eapply wp_mono.
  { eapply (set_ofield_spec _ s1 (page ar) (l ++ x :: sl) _ x); try done; [apply U1| | | |by apply Hspare].
    - by eapply valid_upd.
    - by eapply valid_upd.
    - rewrite lookupZ_nat. by apply list_lookup_middle. }
  intros [] s2 (po & l' & Hins & Hpo & U2 & Hsl2). pose proof (upd_root _ _ _ _ U2) as Er2.
  rewrite insertZ_nat, insert_app_r_alt, Nat.sub_diag in Hins by (rewrite ?length_app; simpl; lia).
  injection Hins as <-. split; last first.
  { eapply only_at_trans; [eapply only_at_trans; [by apply (only_at_grows s s)|by eapply only_at_upd|]|by eapply only_at_upd|].
    - intros y _ <-. by left.
    - intros y _ <-. by right. }
  split; [by rewrite Er2, Er|]. eexists _, _. split_and!.
  - rewrite (up_frame _ _ _ _ U2) by done. apply U1.
  - done.
  - done.
  - simpl. rewrite length_app. simpl. lia.
  - right. exists sl. rewrite <- app_assoc. simpl. rewrite Er2, Er. split_and!; try done.
    + rewrite P6, !length_app. done.
    + eapply valid_upd; [done|]. by eapply valid_upd.
    + eapply list.Forall_impl; [done|]. intros y Hy%Hspare. destruct Hy as [?|Hy]; [by left|right].
      by eapply (saturated_upd s1); [| |exact U2|].
Qed.
End Append.

Section ClassIs.
Context (s : vm).
Implicit Types (c : pvm_object).

Definition is_nullb c : bool :=
  (data c =? 0) || (data c =? data (null_object (pvm_root s))).

(** [x] is the class [c] or one of its parents, up to the null class. *)
Inductive ancestor : pvm_object -> Z -> Prop :=
  | anc_here c : is_nullb c = false -> ancestor c (data c)
  | anc_up c cd x :
      is_nullb c = false -> data c <> data (null_class (pvm_root s)) -> class_at s c cd ->
      ancestor (class_parent cd) x -> ancestor c x.

(** The parent chain of [c] ends after [n] steps. *)
Inductive rooted : nat -> pvm_object -> Prop :=
  | rooted_null c : is_nullb c = true -> rooted 0 c
  | rooted_nullc c : is_nullb c = false -> data c = data (null_class (pvm_root s)) -> rooted 0 c
  | rooted_step n c cd :
      is_nullb c = false -> data c <> data (null_class (pvm_root s)) -> class_at s c cd ->
      rooted n (class_parent cd) -> rooted (S n) c.

Lemma class_at_fun c c' cd cd' : data c = data c' -> class_at s c cd -> class_at s c' cd' -> cd = cd'.
Proof. intros E (o & Ho & Hc) (o' & Ho' & Hc'). congruence. Qed.

Lemma rooted_fun n m c c' : data c = data c' -> rooted n c -> rooted m c' -> n = m.
Proof.
  intros E H. revert m c' E. induction H as [c Hn|c Hn Hz|n c cd Hn Hz Hc H IH]; intros m c' E H';
    inversion H' as [c1 Hn1|c1 Hn1 Hz1|m1 c1 cd1 Hn1 Hz1 Hc1 H1]; subst; try done;
    unfold is_nullb in *; rewrite ?E in *; try congruence.
  f_equal. rewrite (class_at_fun c c' cd cd1) in H, IH by done. by apply (IH m1 (class_parent cd1)).
Qed.

(** The chain has no repetition, so the heap bounds its length. *)
Lemma rooted_list n c : rooted n c -> exists l, length l = n /\ NoDup l /\
  (forall x, x ∈ l -> is_Some (heap s !! x) /\ exists m c', (m <= n)%nat /\ data c' = x /\ rooted m c').
Proof.
  induction 1 as [c Hn|c Hn Hz|n c cd Hn Hz Hc H (l & Hl & Hnd & Hin)]; [exists []..|].
  1,2: split_and!; [done|constructor|]; intros x Hx; by apply not_elem_of_nil in Hx.
  exists (data c :: l). split_and!; [simpl; lia| |].
  - constructor; [|done]. intros Hc'. destruct (Hin _ Hc') as (_ & m & c' & Hm & Ec & Hr).
    assert (rooted (S n) c) as Hr' by by econstructor.
    pose proof (rooted_fun _ _ _ _ Ec Hr Hr'). lia.
  - intros x [->|Hx]%elem_of_cons.
    + split; [destruct Hc as (o & Ho & _); exists o; by apply heap_of_alloc|].
      exists (S n), c. split_and!; [done|done|]. by econstructor.
    + destruct (Hin _ Hx) as (? & m & c' & ? & ? & ?). split; [done|]. exists m, c'. split_and!; [lia|done|done].
Qed.

Lemma rooted_bound n c : rooted n c -> (n <= size (heap s))%nat.
Proof.
  intros (l & <- & Hnd & Hin)%rooted_list. rewrite <- size_dom, <- (size_list_to_set (C := gset Z) l) by done.
  apply subseteq_size. intros x Hx%elem_of_list_to_set. apply elem_of_dom. by apply Hin.
Qed.

Lemma class_is_loop_spec n c fuel tested : rooted n c -> (n < fuel)%nat ->
  wp (class_is_loop fuel tested c) s (fun b s' => s' = s /\ (b = true <-> ancestor c tested)).
Proof.
  intros H. revert fuel. induction H as [c Hn|c Hn Hz|n c cd Hn Hz Hc H IH]; intros fuel Hf;
    (destruct fuel as [|fuel]; [lia|]); cbn [class_is_loop]; wp_step; apply wp_is_null;
    fold (is_nullb c); rewrite Hn.
  - wp_step. split; [done|]. split; [done|]. intros Ha. inversion Ha; congruence.
  - destruct (Z.eqb_spec tested (data c)) as [->|Ht].
    + wp_step. split; [done|]. split; [by constructor|done].
    + wp_step. wp_step. rewrite <- Hz, Z.eqb_refl. wp_step. split; [done|]. split; [done|].
      intros Ha. inversion Ha; congruence.
  - destruct (Z.eqb_spec tested (data c)) as [->|Ht].
    + wp_step. split; [done|]. split; [by constructor|done].
    + wp_step. wp_step. destruct (Z.eqb_spec (data c) (data (null_class (pvm_root s)))); [done|].
      wp_step. unfold load_class. pose proof Hc as (o & Ho & Hcd).
      eapply wp_load_da; [by apply heap_of_alloc|done|].
      eapply wp_mono; [apply IH; lia|]. intros b s' [-> Hb]. split; [done|]. rewrite Hb. split.
      * intros Ha. by eapply anc_up.
      * intros Ha. inversion Ha as [|c1 cd1 x1 Hn1 Hz1 Hc1 Ha1]; subst; [done|].
        by rewrite (class_at_fun c c cd cd1).
Qed.
End ClassIs.

Lemma append_array_spec s a l v :
  heap_wf s -> null_saturated s -> page_class_ok s -> array_rep s a l -> valid s v ->
  Z.of_nat (length l) < 2 ^ 27 ->
  wpe (eq oom) (pvm_append_array a v) s (fun _ s' =>
    array_rep s' a (l ++ [v]) /\
    only_at (fun x => x = a \/ exists o ar, alloc_at (heap s) a = Some o /\
      as_array (da o) = Some ar /\ x = data (page ar)) s s').
Proof.
  intros Hwf Hn Hpc Hr Hv Hlen. pose proof Hr as [Hna (o & ar & Ho & Ha & Has & Hu & _)].
  unfold pvm_append_array. apply wpe_bind, wp_wpe. eapply wp_load_da; [by apply heap_of_alloc|done|].
  rewrite Hu, u32_id by lia. unfold pvm_set_array_ofield. apply wpe_bind, wp_wpe, wp_get.
  unfold array_set. apply wpe_bind, wp_wpe, wp_verify_p; [done|right; by exists o|].
  apply wpe_bind, wp_wpe, wp_verify_o; [done|done|].
  apply wpe_bind, wp_wpe. eapply wp_load; [by apply heap_of_alloc|]. rewrite Ha.
  apply wpe_bind, wpe_ret, wpe_bind. eapply wpe_mono; [by apply array_resize_spec|].
  intros [] s1 (x & sl & o' & ar' & P & O1 & Hpage). apply wp_wpe.
  assert (pvm_root s1 = pvm_root s) as Er.
  { destruct O1 as [_ E _ _]. unfold alloc_env in E. by injection E. }
  eapply wp_mono.
  { eapply (paged_append s1 a l x sl o' ar' v); [apply O1|by rewrite Er|done| |done].
    eapply valid_live; [|done]. apply O1. }
  intros [] s2 [Hr2 O2]. split; [done|].
  eapply only_at_trans; [eapply only_at_trans; [by apply (only_at_grows s s)|exact O1|]|exact O2|].
  - intros y _ <-. by left.
  - intros y [q Hq] [->| ->]; [by left|right]. destruct Hpage as [Hfresh|(o1 & ar1 & ? & ? & ->)]; [congruence|].
    by exists o1, ar1.
Qed.

(** Array indexing is bounds-checked.  Inside the bounds the element comes
    back and nothing changes; outside them the thread stops with a panic. *)
Theorem pvm_get_array_ofield_correct s a l slot :
  heap_wf s -> array_rep s a l -> Forall (valid s) l -> Z.of_nat (length l) < 2 ^ 31 -> 0 <= slot ->
  pvm_get_array_ofield a slot s =
    match l !!z slot with Some v => Ret v s | None => Panic "load: array index out of bounds" end.
Proof. apply array_get_spec. Qed.

(** C29: appending to an array adds the value behind the elements it has, with a
    new and larger page where the old one is full; or the allocator is out of
    memory.  Only the array object and its page change, nothing is freed, and the
    heap stays well formed. *)
Theorem pvm_append_array_correct s a l v :
  heap_wf s -> null_saturated s -> page_class_ok s -> array_rep s a l -> valid s v ->
  Z.of_nat (length l) < 2 ^ 27 ->
  wpe (eq oom) (pvm_append_array a v) s (fun _ s' =>
    array_rep s' a (l ++ [v]) /\
    only_at (fun x => x = a \/ exists o ar, alloc_at (heap s) a = Some o /\
      as_array (da o) = Some ar /\ x = data (page ar)) s s').
Proof. apply append_array_spec. Qed.

(** C30: the class test answers whether the class of the object is the tested
    class or one of its parents, whenever the parent chain ends; it needs no
    bound on the chain, because a chain that ends has no repetition. *)
Theorem pvm_object_class_is_correct s o n object tclass :
  heap s !! data object = Some o -> rooted s n tclass ->
  exists b, pvm_object_class_is object tclass s = Ret b s /\
    (b = true <-> ancestor s tclass (data (_class o))).
Proof.
  intros Ho Hr. pose proof (rooted_bound s n tclass Hr) as Hn.
  assert (wp (pvm_object_class_is object tclass) s (fun b s' =>
    s' = s /\ (b = true <-> ancestor s tclass (data (_class o))))) as (b & s' & E & -> & Hb).
  { unfold pvm_object_class_is. wp_step. eapply wp_load; [done|]. wp_step. wp_step.
    apply (class_is_loop_spec s n); [done|lia]. }
  by exists b.
Qed.

(** ** Instances *)

(** The booted machine with an empty array and an integer. *)
Definition ex_array_prog : M vm (pvm_object * pvm_object) :=
  c ← gets (fun s => array_class (pvm_root s));
  a ← pvm_object_create_fixed c;
  pvm_internal_init_array (data a);;
  v ← pvm_create_int_object 7;
  mret (a, v).
Definition ex_arr : (pvm_object * pvm_object) * vm :=
  match ex_array_prog ex_boot with Ret r s => (r, s) | _ => ((null_ref, null_ref), ex_boot) end.
Definition ex_arr_s : vm := ex_arr.2.
Definition ex_arr_a : Z := data ex_arr.1.1.
Definition ex_arr_v : pvm_object := ex_arr.1.2.

Lemma ex_arr_wf : heap_wf ex_arr_s.
Proof. apply heap_wf_check_sound. vm_compute. reflexivity. Qed.

Lemma ex_arr_null : null_saturated ex_arr_s.
Proof. split; [vm_compute; discriminate|]. eexists. split; vm_compute; reflexivity. Qed.

Lemma ex_arr_page : page_class_ok ex_arr_s.
Proof.
  exists (ex_cls page_class). split_and!.
  - eexists. split; vm_compute; reflexivity.
  - vm_compute. discriminate.
  - vm_compute. reflexivity.
  - vm_compute. reflexivity.
  - right. eexists. vm_compute. reflexivity.
Qed.

Lemma ex_arr_rep : array_rep ex_arr_s ex_arr_a [].
Proof.
  split; [vm_compute; discriminate|]. eexists _, _. split_and!.
  1-4: vm_compute; reflexivity. left. vm_compute. split; reflexivity.
Qed.

Lemma ex_arr_valid : valid ex_arr_s ex_arr_v.
Proof. right. split; [eexists; vm_compute; reflexivity|]. right. eexists. vm_compute. reflexivity. Qed.

(** The state after one append. *)
Definition ex_arr1 : vm :=
  match pvm_append_array ex_arr_a ex_arr_v ex_arr_s with Ret _ s => s | _ => ex_arr_s end.

Lemma ex_arr1_rep : array_rep ex_arr1 ex_arr_a [ex_arr_v] /\ heap_wf ex_arr1.
Proof.
  pose proof (append_array_spec ex_arr_s ex_arr_a [] ex_arr_v ex_arr_wf ex_arr_null ex_arr_page
    ex_arr_rep ex_arr_valid eq_refl) as H. unfold wpe in H. unfold ex_arr1.
  destruct (pvm_append_array ex_arr_a ex_arr_v ex_arr_s) as [r s'|m|m|] eqn:E;
    [|vm_compute in E; discriminate E|destruct H|destruct H].
  destruct H as [H O]. split; [exact H|apply O].
Qed.

Lemma pvm_append_array_correct_witness :
  exists s', pvm_append_array ex_arr_a ex_arr_v ex_arr_s = Ret tt s' /\
    array_rep s' ex_arr_a [ex_arr_v].
Proof.
  pose proof (pvm_append_array_correct ex_arr_s ex_arr_a [] ex_arr_v ex_arr_wf ex_arr_null ex_arr_page
    ex_arr_rep ex_arr_valid eq_refl) as H. unfold wpe in H.
  destruct (pvm_append_array ex_arr_a ex_arr_v ex_arr_s) as [[] s'|m|m|] eqn:E;
    [|vm_compute in E; discriminate E|destruct H|destruct H].
  exists s'. split; [reflexivity|apply H].
Defined.

Lemma pvm_get_array_ofield_correct_witness :
  pvm_get_array_ofield ex_arr_a 0 ex_arr1 = Ret ex_arr_v ex_arr1 /\
  pvm_get_array_ofield ex_arr_a 1 ex_arr1 = Panic "load: array index out of bounds".
Proof.
  assert (Forall (valid ex_arr1) [ex_arr_v]) as Hv.
  { constructor; [|constructor]. right. split; [eexists; vm_compute; reflexivity|].
    right. eexists. vm_compute. reflexivity. }
  split.
  - apply (pvm_get_array_ofield_correct ex_arr1 ex_arr_a [ex_arr_v] 0 (proj2 ex_arr1_rep)
      (proj1 ex_arr1_rep) Hv); [reflexivity|discriminate].
  - apply (pvm_get_array_ofield_correct ex_arr1 ex_arr_a [ex_arr_v] 1 (proj2 ex_arr1_rep)
      (proj1 ex_arr1_rep) Hv); [reflexivity|discriminate].
Defined.

Lemma pvm_object_class_is_correct_witness :
  exists b, pvm_object_class_is ex_arr_v (int_class (pvm_root ex_arr_s)) ex_arr_s = Ret b ex_arr_s /\
    b = true.
Proof.
  destruct (heap ex_arr_s !! data ex_arr_v) as [o|] eqn:E; [|vm_compute in E; discriminate E].
  destruct (pvm_object_class_is_correct ex_arr_s o 1 ex_arr_v (int_class (pvm_root ex_arr_s)) E)
    as (b & Hb & Ha).
  - eapply rooted_step; [vm_compute; reflexivity|vm_compute; discriminate| |].
    + eexists. split; vm_compute; reflexivity.
    + apply rooted_null. vm_compute. reflexivity.
  - exists b. split; [exact Hb|]. apply Ha.
    replace (data (_class o)) with (data (int_class (pvm_root ex_arr_s))).
    + apply anc_here. vm_compute. reflexivity.
    + vm_compute in E. injection E as <-. vm_compute. reflexivity.
Defined.

(** Removing an element moves the last one but leaves it in its old slot too.
    The next append releases what that slot holds: an element that is still in
    the array loses its only reference and is freed. *)
Definition ex_pop_append : M vm (pvm_object * pvm_object * option Z) :=
  av ← ex_array_prog;
  let a := data av.1 in
  v2 ← pvm_create_int_object 8;
  v3 ← pvm_create_int_object 9;
  pvm_append_array a av.2;;
  pvm_append_array a v2;;
  pvm_pop_array a av.2;;
  x ← pvm_get_array_ofield a 0;
  pvm_append_array a v3;;
  o ← load (data x);
  mret (x, v2, Some (alloc_flags (_ah o))).

Theorem pvm_pop_array_frees_moved :
  match ex_pop_append ex_boot with
  | Ret (x, v2, fl) _ => x = v2 /\ fl = Some PVM_OBJECT_AH_ALLOCATOR_FLAG_FREE
  | _ => False
  end.
Proof. vm_compute. split; reflexivity. Qed.

(** The copy of an object looks at one slot more than the object has. *)
Theorem pvm_copy_object_overread :
  (p ← pvm_create_page_object 2 []; pvm_copy_object p) ex_boot = Fault "slot past the object".
Proof. vm_compute. reflexivity. Qed.

(** The lookup of a class by name accepts a prefix of the name. *)
Theorem pvm_iclass_by_name_prefix :
  pvm_iclass_by_name ".internal.c" ex_boot = Ret 1 ex_boot /\
  (ic_name <$> pvm_internal_classes !! 1%nat) = Some ".internal.class"%string.
Proof. vm_compute. split; reflexivity. Qed.
