(* ===== verification/Counted.v ===== *)
(** * Stores into counted objects

    The machine overwrites a reference in two steps: it releases the old value
    and then writes the new one ([pvm_set_field], [pvm_set_ofield] of
    [phantom/vm/object.c]).  Between the two the old reference is still in the
    object but is no longer counted.  Here an object is taken out of the count
    while it is written and put back afterwards, and stores are proved to keep
    the reference counts. *)

From S2P Require Import Prelude Heap Refcount Alloc Create Object.

(** Nothing else is interpreted through the data of [a]: it is not the class of
    an object, nor the container of a directory. *)
Definition inert (h : gmap Z pvm_object_storage) (a : Z) : Prop :=
  forall y q, h !! y = Some q -> data (_class q) <> a /\
    forall d, da q = DA_directory d -> data (container d) <> a.

Section Writes.
Context (exact : bool).
Implicit Types (h : gmap Z pvm_object_storage) (o : pvm_object_storage) (H : gset Z).

Lemma class_of_inert h a o' q :
  data (_class q) <> a -> class_of (<[a := o']> h) q = class_of h q.
Proof. intros Hc. unfold class_of. by rewrite lookup_insert_ne by done. Qed.

Lemma children_inert h a o' q :
  data (_class q) <> a -> (forall d, da q = DA_directory d -> data (container d) <> a) ->
  children (<[a := o']> h) q = children h q.
Proof.
  intros Hc Hd. unfold children, own_refs. rewrite class_of_inert by done.
  destruct (is_childfree q), (is_internal q); try done. simpl.
  destruct (flag _ _ || _ || _); [done|]. destruct (class_of h q) as [ic|]; [|done]. simpl.
  destruct (ic_iter ic); try done. simpl. unfold pvm_gc_iter_directory.
  destruct (da q) as [| | | | | | | | | | | | | | | |d| | |] eqn:E; try done. simpl.
  destruct (nEntries d <=? 0); [done|]. by rewrite lookup_insert_ne by by apply not_eq_sym, Hd.
Qed.

(** The references of an object become the program's own while it is written. *)
Lemma rc_checkout H ext h a o l :
  rc_inv_at exact H ∅ ext h -> h !! a = Some o -> is_alloc o -> a ∉ H -> children h o = Some l ->
  rc_inv_at exact ({[a]} ∪ H) ∅ (l ++ ext) h.
Proof.
  intros [Hnull Hobj Hsafe Hex Hdy Hsub] E Ha HH Hl.
  assert (forall x, nrefs h ({[a]} ∪ H) (l ++ ext) x = nrefs h H ext x) as Hn.
  { intros x. pose proof (nrefs_upd h H ({[a]} ∪ H) a o o ext x E eq_refl) as Hu.
    spec Hu; [by apply dying_upd|]. rewrite insert_id in Hu by done.
    rewrite (contrib_in h ({[a]} ∪ H) x a o), (contrib_out h H x a o l) in Hu
      by (done || by apply elem_of_union_l, elem_of_singleton).
    unfold nrefs in *. rewrite count_app. lia. }
  split; [done|done| | |done|by apply empty_subseteq].
  - intros x Hx. rewrite Hn. by apply Hsafe.
  - intros He x q. rewrite Hn. by apply Hex.
Qed.

(** The new contents of the object take over the references. *)
Lemma rc_checkin H ext h a o d l :
  rc_inv_at exact ({[a]} ∪ H) ∅ (l ++ ext) h -> h !! a = Some o -> is_alloc o -> a ∉ H -> inert h a ->
  children (<[a := set_da d o]> h) (set_da d o) = Some l ->
  rc_inv_at exact H ∅ ext (<[a := set_da d o]> h).
Proof.
  intros [Hnull Hobj Hsafe Hex Hdy Hsub] E Ha HH Hin Hl. set (h' := <[a := set_da d o]> h) in *.
  assert (a <> 0) as Ha0 by congruence.
  assert (forall x, nrefs h' H ext x = nrefs h ({[a]} ∪ H) (l ++ ext) x) as Hn.
  { intros x. unfold nrefs. rewrite count_app.
    rewrite (msum_delete (contrib h' H x) h' a (set_da d o)) by apply lookup_insert_eq.
    rewrite (msum_delete (contrib h ({[a]} ∪ H) x) h a o) by done.
    rewrite (contrib_in h ({[a]} ∪ H) x a o) by by apply elem_of_union_l, elem_of_singleton.
    rewrite (contrib_out h' H x a (set_da d o) l) by done. unfold h'. rewrite delete_insert_eq.
    rewrite (msum_ext (contrib (<[a := set_da d o]> h) H x) (contrib h ({[a]} ∪ H) x) (delete a h)); [lia|].
    intros y q [Hne Ey]%lookup_delete_Some. destruct (Hin y q Ey) as [H1 H2]. unfold contrib.
    rewrite children_inert by done.
    by rewrite (bool_decide_ext (y ∉ H) (y ∉ {[a]} ∪ H)) by (rewrite (dying_upd H a y); done). }
  split.
  - unfold h'. by rewrite lookup_insert_ne.
  - intros y q Ey Hq _. destruct (decide (y = a)) as [->|Hne].
    + unfold h' in Ey. rewrite lookup_insert_eq in Ey. injection Ey as <-.
      destruct (Hobj a o E Ha) as (? & ? & _ & Hf); [apply not_elem_of_empty|]. split_and!; [done|simpl; lia|simpl; lia|by rewrite Hl|].
      destruct (Hin a o E) as [Hc1 _]. unfold h'. by rewrite class_of_inert.
    + unfold h' in Ey. rewrite lookup_insert_ne in Ey by done. destruct (Hin y q Ey) as [H1 H2].
      unfold h'. rewrite children_inert, class_of_inert by done. apply (Hobj y); [done..|apply not_elem_of_empty].
  - intros x Hx. rewrite Hn. intros Hpos. destruct (Hsafe x Hx Hpos) as (? & q & Eq & Hq & Hr).
    split; [done|]. destruct (decide (x = a)) as [->|Hne].
    + exists (set_da d o). unfold h'. rewrite lookup_insert_eq. simplify_eq. done.
    + exists q. unfold h'. by rewrite lookup_insert_ne.
  - intros He x q Eq Hq Hx. rewrite Hn. destruct (decide (x = a)) as [->|Hne].
    + unfold h' in Eq. rewrite lookup_insert_eq in Eq. injection Eq as <-. by apply (Hex He a o).
    + unfold h' in Eq. rewrite lookup_insert_ne in Eq by done. by apply Hex.
  - intros y Hy. by apply not_elem_of_empty in Hy.
  - apply empty_subseteq.
Qed.

Lemma nrefs_perm h H ext ext' x : ext ≡ₚ ext' -> nrefs h H ext x = nrefs h H ext' x.
Proof. intros E. unfold nrefs, count. by rewrite E. Qed.

(** The order of the program's own references does not matter. *)
Lemma rc_inv_perm H D ext ext' h : ext ≡ₚ ext' -> rc_inv_at exact H D ext h -> rc_inv_at exact H D ext' h.
Proof.
  intros E [Hnull Hobj Hsafe Hex Hdy Hsub]. split; try done.
  - intros x Hx. rewrite <- (nrefs_perm h H ext ext' x E). by apply Hsafe.
  - intros He x o. rewrite <- (nrefs_perm h H ext ext' x E). by apply Hex.
Qed.

(** A referenced object is allocated. *)
Lemma rc_ext_alloc H ext h x : rc_inv_at exact H ∅ ext h -> x ∈ ext -> x <> 0 -> exists o, alloc_at h x = Some o.
Proof.
  intros Hi Hx Hz. destruct (rc_safe _ _ _ _ _ Hi x Hz) as (_ & o & E & Ha & _).
  - pose proof (count_pos x ext Hx). unfold nrefs. lia.
  - exists o. by apply alloc_at_Some.
Qed.
End Writes.

(** ** Fields of plain objects *)

(** The counted slots of the plain object at [a]. *)
Definition counted_slots (s : vm) (a : Z) (l : list pvm_object) : Prop :=
  exists o, alloc_at (heap s) a = Some o /\ is_internal o = false /\ is_childfree o = false /\
    as_slots (da_po_limit o) (da o) = Some l.

(** Everything is as before but counts, freed objects and the data of [a]. *)
Record stored (a : Z) (s s' : vm) : Prop := {
  sd_env : env s' = env s;
  sd_data x : x <> a -> strip <$> heap s !! x = strip <$> heap s' !! x;
  sd_alloc x o' : alloc_at (heap s') x = Some o' -> is_Some (alloc_at (heap s) x);
}.

Section Store.
Context (exact : bool).
Implicit Types (s : vm) (l : list pvm_object).

Lemma inert_same h h' a : same_data h h' -> inert h a -> inert h' a.
Proof.
  intros E Hin y q' Ey. pose proof (same_data_lookup _ _ y E) as Hs. rewrite Ey in Hs.
  destruct (h !! y) as [q|] eqn:Eq; [|done]. apply (inj Some) in Hs.
  assert (_class q' = _class q /\ da q' = da q) as [-> ->]
    by (split; [change (_class (strip q') = _class (strip q))|change (da (strip q') = da (strip q))]; by rewrite Hs).
  by apply Hin with y.
Qed.

Lemma slots_swap l (i : nat) old v ext :
  l !! i = Some old ->
  map data l ++ data v :: ext ≡ₚ data old :: map data (<[i := v]> l) ++ ext.
Proof.
  intros Hi. rewrite <- (take_drop_middle l i old Hi) at 1. rewrite insert_take_drop by by eapply lookup_lt_Some.
  rewrite !map_app. simpl. rewrite <- !app_assoc. simpl. solve_Permutation.
Qed.

(** Releasing references keeps the slots of an object that is still referenced. *)
Lemma counted_slots_frame s s1 H ext a l :
  rc_inv_at exact H ∅ ext (heap s1) -> rc_frame ∅ s s1 -> a ∈ ext -> a <> 0 ->
  counted_slots s a l -> counted_slots s1 a l.
Proof.
  intros Hi Hf Ha Ha0 (o & [E Hal]%alloc_at_Some & Hint & Hcf & Hl).
  destruct (rc_ext_alloc _ _ _ _ a Hi Ha Ha0) as [o1 Ho1]. exists o1. split; [done|].
  apply alloc_at_Some in Ho1 as [E1 _].
  pose proof (same_data_lookup _ _ a (rf_data _ _ _ Hf)) as Hs. rewrite E, E1 in Hs. apply (inj Some) in Hs.
  change (is_internal (strip o1) = false /\ is_childfree (strip o1) = false /\
    as_slots (da_po_limit (strip o1)) (da (strip o1)) = Some l). by rewrite <- Hs.
Qed.

(** Writing a slot of an object that was taken out of the count puts it back. *)
Lemma write_spec s a slot v l ext :
  heap_wf s -> rc_inv_at exact {[a]} ∅ (map data (<[Z.to_nat slot := v]> l) ++ ext) (heap s) ->
  counted_slots s a l -> 0 <= slot < Z.of_nat (length l) -> inert (heap s) a ->
  wp (set_slot a slot v) s (fun _ s' =>
    rc_inv exact ∅ ext (heap s') /\ counted_slots s' a (<[Z.to_nat slot := v]> l) /\ heap_wf s' /\
    exists o, alloc_at (heap s) a = Some o /\
      s' = set_heap (<[a := set_da (DA_slots (<[Z.to_nat slot := v]> l)) o]> (heap s)) s).
Proof.
  intros Hwf Hi (o & Ho & Hint & Hcf & Hl) Hslot Hin. pose proof Ho as [E Hal]%alloc_at_Some.
  set (l' := <[Z.to_nat slot := v]> l) in *.
  assert (as_slots (da_po_limit o) (DA_slots l') = Some l') as Hl'.
  { simpl. unfold l'. rewrite length_insert. destruct (Z.eqb_spec (Z.of_nat (length l)) (da_po_limit o)) as [|Hne]; [done|].
    destruct Hne. apply (slots_length s a); [by exists o|done|done]. }
  assert (insertZ slot v l = Some l') as Hins.
  { rewrite <- (Z2Nat.id slot) by lia. apply insertZ_nat. lia. }
  unfold set_slot, load_slots. wp_step. wp_step. eapply wp_load; [done|]. eapply wp_some_or_fault; [done|].
  wp_step. eapply wp_some_or_fault; [done|]. eapply wp_update; [done|]. split_and!.
  - apply (rc_checkin exact ∅ ext (heap s) a o _ (map data l'));
      [by rewrite union_empty_r_L|done|done|apply not_elem_of_empty|done|].
    unfold children. change (is_childfree (set_da _ o)) with (is_childfree o).
    change (is_internal (set_da _ o)) with (is_internal o).
    change (da_po_limit (set_da _ o)) with (da_po_limit o). cbn [da set_da]. by rewrite Hint, Hcf, Hl'.
  - exists (set_da (DA_slots l') o). split; [apply alloc_at_Some; simpl; by rewrite lookup_insert_eq|].
    split_and!; [exact Hint|exact Hcf|exact Hl'].
  - by eapply heap_wf_upd.
  - by exists o.
Qed.

(** Release what the slot holds, then write: the counts follow. *)
Lemma store_spec s a slot v old l ext :
  heap_wf s -> rc_inv exact ∅ (data v :: ext) (heap s) -> a ∈ ext -> a <> 0 ->
  counted_slots s a l -> l !!z slot = Some old -> inert (heap s) a ->
  wp ((if data old =? 0 then mret tt else ref_dec_o old);; set_slot a slot v) s (fun _ s' =>
    heap_wf s' /\ rc_inv exact ∅ ext (heap s') /\ counted_slots s' a (<[Z.to_nat slot := v]> l) /\ stored a s s').
Proof.
  intros Hwf Hi Ha Ha0 Hsl [Hslot Hold]%lookupZ_Some Hin. pose proof (lookup_lt_Some _ _ _ Hold) as Hlt.
  destruct (Hsl) as (o & Ho & Hint & Hcf & Hl). pose proof Ho as [E Hal]%alloc_at_Some.
  assert (children (heap s) o = Some (map data l)) as Hch by (unfold children; by rewrite Hint, Hcf, Hl).
  pose proof (rc_checkout _ _ _ _ a o _ Hi E Hal (not_elem_of_empty a) Hch) as H1. rewrite union_empty_r_L in H1.
  apply (rc_inv_perm _ _ _ _ _ _ (slots_swap l _ old v ext Hold)) in H1.
  wp_step. eapply (wp_mono _ _ (fun _ s1 =>
    rc_inv_at exact {[a]} ∅ (map data (<[Z.to_nat slot := v]> l) ++ ext) (heap s1) /\ rc_frame ∅ s s1)).
  { destruct (Z.eqb_spec (data old) 0) as [Hz|Hz].
    - wp_step. rewrite Hz in H1. split; [by apply (proj1 (rc_inv_null _ _ _ _ _)) in H1|apply rc_frame_refl].
    - apply ref_dec_p_pinned; [done|]. intros y ->%elem_of_singleton _. apply elem_of_app. by right. }
  intros [] s1 [H2 Hf]. pose proof (heap_wf_release _ _ _ _ _ Hwf H2 Hf) as Hwf1.
  eapply wp_mono; [apply (write_spec s1 a slot v l ext Hwf1 H2)|].
  - eapply counted_slots_frame; [done..| |done|done]. apply elem_of_app. by right.
  - lia.
  - exact (inert_same _ _ _ (rf_data _ _ _ Hf) Hin).
  - intros [] s2 (H3 & Hsl2 & Hwf2 & o1 & Ho1 & ->). split_and!; [done..|]. split; simpl.
    + apply Hf.
    + intros x Hx. rewrite lookup_insert_ne by done. apply same_data_lookup, Hf.
    + intros x o' [Ex Hx]%alloc_at_Some. destruct (decide (x = a)) as [->|Hne]; [by rewrite Ho|].
      rewrite lookup_insert_ne in Ex by done. destruct (rf_alloc _ _ _ Hf x o' Ex Hx) as (q & ? & ? & _).
      exists q. by apply alloc_at_Some.
Qed.

(** Whether an internal object or not is looked up first. *)
Lemma set_ofield_counted s op slot v old l ext :
  heap_wf s -> rc_inv exact ∅ (data v :: ext) (heap s) -> data op ∈ ext -> data op <> 0 ->
  counted_slots s (data op) l -> l !!z slot = Some old -> inert (heap s) (data op) ->
  valid s op -> valid s v ->
  wp (pvm_set_ofield op slot v) s (fun _ s' =>
    heap_wf s' /\ rc_inv exact ∅ ext (heap s') /\
    counted_slots s' (data op) (<[Z.to_nat slot := v]> l) /\ stored (data op) s s').
Proof.
  intros Hwf Hi Ha Ha0 Hsl Hold Hin Hop Hv. destruct (Hsl) as (o & Ho & Hint & Hcf & Hl).
  assert (slots_at s (data op) l) as Hat by by exists o.
  pose proof (lookupZ_bound _ _ _ Hold).
  pose proof (slots_length _ _ _ _ Hat Ho Hwf) as Hlen.
  unfold pvm_set_ofield. wp_step. wp_step. cbn [set_ofield]. unfold ofield_set.
  wp_step. apply wp_verify_o; [done..|]. wp_step. apply wp_verify_o; [done..|].
  wp_step. eapply wp_load; [by apply heap_of_alloc|]. unfold is_internal in Hint. rewrite Hint.
  destruct (Z.leb_spec (da_po_limit o) slot); [lia|]. wp_step. wp_step.
  wp_step. eapply wp_load_slots; [done|]. wp_step. eapply wp_some_or_fault; [done|]. by eapply store_spec.
Qed.
End Store.

(** ** Claims *)

(** C16: storing into a field keeps the reference counts.  When the program owns
    a reference to the new value [v] and to the object, [pvm_set_ofield] on a slot
    of a plain object returns, whatever the slot held and however much that
    releases: the slot holds [v], whose reference now belongs to the object, the
    old value has been released, the counts still cover (and, with [exact], equal)
    the references, the heap stays well formed, and no other data changes. *)
Theorem pvm_set_ofield_correct exact s op slot v old l ext :
  heap_wf s -> rc_inv exact ∅ (data v :: ext) (heap s) -> data op ∈ ext -> data op <> 0 ->
  counted_slots s (data op) l -> l !!z slot = Some old -> inert (heap s) (data op) ->
  valid s op -> valid s v ->
  exists s', pvm_set_ofield op slot v s = Ret tt s' /\ heap_wf s' /\ rc_inv exact ∅ ext (heap s') /\
    counted_slots s' (data op) (<[Z.to_nat slot := v]> l) /\ stored (data op) s s'.
Proof.
  intros Hwf Hi Ha Ha0 Hsl Hold Hin Hop Hv.
  destruct (set_ofield_counted exact s op slot v old l ext Hwf Hi Ha Ha0 Hsl Hold Hin Hop Hv) as ([] & s' & E & H).
  by exists s'.
Qed.

(** ** Instances *)

(** A page whose first slot holds the only reference to the integer 1; the
    program holds the page and the integer 2. *)
Definition ex_store_prog : M vm (pvm_object * pvm_object * pvm_object) :=
  v1 ← pvm_create_int_object 1;
  v2 ← pvm_create_int_object 2;
  p ← pvm_create_page_object 2 [v1];
  mret (p, v1, v2).
Definition ex_store : vm * (pvm_object * pvm_object * pvm_object) :=
  match ex_store_prog ex_boot with Ret r s => (s, r) | _ => (ex_boot, (null_ref, null_ref, null_ref)) end.
Definition ex_store_s : vm := ex_store.1.
Definition ex_store_p : pvm_object := ex_store.2.1.1.
Definition ex_store_v1 : pvm_object := ex_store.2.1.2.
Definition ex_store_v2 : pvm_object := ex_store.2.2.

Definition inert_b (h : gmap Z pvm_object_storage) (a : Z) : bool :=
  forallb (fun yq => negb (data (_class yq.2) =? a) &&
    match da yq.2 with DA_directory d => negb (data (container d) =? a) | _ => true end) (map_to_list h).

Lemma inert_b_sound h a : inert_b h a = true -> inert h a.
Proof.
  unfold inert_b. rewrite forallb_map_to_list. intros Hb y q Ey. specialize (Hb y q Ey). simpl in Hb.
  apply andb_true_iff in Hb as [Hc Hd]. split; [lia|]. intros d E. rewrite E in Hd. lia.
Qed.

Definition counted_slots_b (s : vm) (a : Z) (l : list pvm_object) : bool :=
  match alloc_at (heap s) a with
  | Some o => negb (is_internal o) && negb (is_childfree o) &&
              bool_decide (as_slots (da_po_limit o) (da o) = Some l)
  | None => false
  end.

Lemma counted_slots_b_sound s a l : counted_slots_b s a l = true -> counted_slots s a l.
Proof.
  unfold counted_slots_b. destruct (alloc_at _ _) as [o|] eqn:E; [|done].
  rewrite !andb_true_iff, !negb_true_iff, bool_decide_eq_true. intros ((? & ?) & ?). by exists o.
Qed.

Definition valid_b (s : vm) (o : pvm_object) : bool :=
  let live_b p := match alloc_at (heap s) p with Some _ => true | None => false end in
  (data o =? 0) || live_b (data o) && ((interface o =? 0) || live_b (interface o)).

Lemma valid_b_sound s o : valid_b s o = true -> valid s o.
Proof.
  unfold valid_b, valid, live. intros [Hz|[Hd Hi]%andb_true_iff]%orb_true_iff; [left; lia|right].
  split; [by destruct (alloc_at _ (data o))|]. apply orb_true_iff in Hi as [Hi|Hi]; [left; lia|right].
  by destruct (alloc_at _ (interface o)).
Qed.

Lemma pvm_set_ofield_correct_witness :
  exists s', pvm_set_ofield ex_store_p 0 ex_store_v2 ex_store_s = Ret tt s' /\
    rc_inv true ∅ [data ex_store_p] (heap s') /\ alloc_at (heap s') (data ex_store_v1) = None.
Proof.
  destruct (pvm_set_ofield_correct true ex_store_s ex_store_p 0 ex_store_v2 ex_store_v1
    [ex_store_v1; null_object (pvm_root ex_store_s)] [data ex_store_p]) as (s' & E & _ & Hi & _).
  - apply heap_wf_check_sound. vm_compute. reflexivity.
  - apply rc_check_sound. vm_compute. reflexivity.
  - by left.
  - vm_compute. discriminate.
  - apply counted_slots_b_sound. vm_compute. reflexivity.
  - reflexivity.
  - apply inert_b_sound. vm_compute. reflexivity.
  - apply valid_b_sound. vm_compute. reflexivity.
  - apply valid_b_sound. vm_compute. reflexivity.
  - exists s'. split; [exact E|]. split; [exact Hi|].
    assert (match pvm_set_ofield ex_store_p 0 ex_store_v2 ex_store_s with
            | Ret _ s => alloc_at (heap s) (data ex_store_v1) | _ => Some blank_storage end = None) as Hn
      by (vm_compute; reflexivity).
    rewrite E in Hn. exact Hn.
Defined.
