(* ===== verification/Frame.v ===== *)
(** * Call frames, threads and the creation of objects

    The constructors of [phantom/vm/create.c] that are built from other objects:
    code, binaries, call frames with their three stacks, threads, the syscall
    interface of the internal classes; the [init] column of the class table and
    [pvm_create_object] that dispatches on it; and the copies of the current
    frame that a thread keeps ([pvm_exec_load_fast_acc], [phantom/vm/exec.c]). *)

From S2P Require Import Prelude Heap Refcount Alloc Opcodes Create Stacks Object.

(** ** The copies of the current frame in a thread *)

Definition set_th_code (c : code_handler) (t : da_thread) : da_thread :=
  mkThread c (call_frame t) (owner t) (environment t) (_this_object t) (_istack t) (_ostack t)
    (_estack t) (stack_depth t).
Definition set_call_frame (f : pvm_object) (t : da_thread) : da_thread :=
  mkThread (th_code t) f (owner t) (environment t) (_this_object t) (_istack t) (_ostack t)
    (_estack t) (stack_depth t).
Definition set_stack_depth (n : Z) (t : da_thread) : da_thread :=
  mkThread (th_code t) (call_frame t) (owner t) (environment t) (_this_object t) (_istack t)
    (_ostack t) (_estack t) n.
Definition set_IP (ip : Z) (c : code_handler) : code_handler := mkCode (code c) ip (IP_max c).

Definition load_thread (a : Z) : M vm da_thread := load_da as_thread a.
Definition load_frame (a : Z) : M vm da_call_frame := load_da as_frame a.
Definition store_thread (a : Z) (t : da_thread) : M vm unit := update a (set_da (DA_thread t)).
Definition store_frame (a : Z) (f : da_call_frame) : M vm unit := update a (set_da (DA_call_frame f)).

(** The copies that [pvm_exec_load_fast_acc] makes. *)
Definition fast_acc (cf : da_call_frame) (t : da_thread) : da_thread :=
  mkThread (mkCode (cf_code cf) (cf_IP cf) (cf_IP_max cf)) (call_frame t) (owner t) (environment t)
    (cf_this_object cf) (data (cf_istack cf)) (data (cf_ostack cf)) (data (cf_estack cf))
    (stack_depth t).

Definition pvm_exec_load_fast_acc (th : Z) : M vm unit :=
  t ← load_thread th;
  cf ← load_frame (data (call_frame t));
  store_thread th (fast_acc cf t).

Definition set_cf_IP (ip : Z) (f : da_call_frame) : da_call_frame :=
  mkFrame (cf_istack f) (cf_ostack f) (cf_estack f) (cf_IP_max f) (cf_code f) ip
    (cf_this_object f) (cf_prev f) (cf_ordinal f).

Definition pvm_exec_save_fast_acc (th : Z) : M vm unit :=
  t ← load_thread th;
  cf ← load_frame (data (call_frame t));
  store_frame (data (call_frame t)) (set_cf_IP (IP (th_code t)) cf).

(** ** Code and binaries *)

Definition pvm_create_code_object (size : Z) (code : list Z) : M vm pvm_object :=
  c ← gets (fun s => code_class (pvm_root s));
  ret ← pvm_object_create_dynamic c (i32 (size + 4));
  (if Z.of_nat (length code) =? size then mret tt else fault "memcpy past the code");;
  update (data ret) (set_da (DA_code size code));;
  mret ret.

(** The bytes stay zero without [init]. *)
Definition pvm_create_binary_object (size : Z) (init : option (list Z)) : M vm pvm_object :=
  c ← gets (fun s => binary_class (pvm_root s));
  ret ← pvm_object_create_dynamic c (i32 (size + 4));
  bytes ← match init with
          | Some b => if Z.of_nat (length b) =? size then mret b else fault "memcpy past the data"
          | None => mret (replicate (Z.to_nat size) 0)
          end;
  update (data ret) (set_da (DA_binary size bytes));;
  mret ret.

(** ** Call frames *)

Definition pvm_internal_init_call_frame (os : Z) : M vm unit :=
  null ← pvm_create_null_object;
  f ← load_frame os;
  store_frame os (mkFrame (cf_istack f) (cf_ostack f) (cf_estack f) 0 0 0 null null (cf_ordinal f));;
  i ← pvm_create_istack_object;
  f ← load_frame os;
  store_frame os (mkFrame i (cf_ostack f) (cf_estack f) (cf_IP_max f) (cf_code f) (cf_IP f)
    (cf_this_object f) (cf_prev f) (cf_ordinal f));;
  o ← pvm_create_ostack_object;
  f ← load_frame os;
  store_frame os (mkFrame (cf_istack f) o (cf_estack f) (cf_IP_max f) (cf_code f) (cf_IP f)
    (cf_this_object f) (cf_prev f) (cf_ordinal f));;
  e ← pvm_create_estack_object;
  f ← load_frame os;
  store_frame os (mkFrame (cf_istack f) (cf_ostack f) e (cf_IP_max f) (cf_code f) (cf_IP f)
    (cf_this_object f) (cf_prev f) (cf_ordinal f)).

Definition pvm_create_call_frame_object : M vm pvm_object :=
  c ← gets (fun s => call_frame_class (pvm_root s));
  d ← pvm_object_create_fixed c;
  pvm_internal_init_call_frame (data d);;
  mret d.

(** [pvm_exec_set_cs] and [pvm_call_frame_init_code]: run a code object. *)
Definition pvm_exec_set_cs (cf code : Z) : M vm unit :=
  cd ← load_da as_code code;
  f ← load_frame cf;
  store_frame cf (mkFrame (cf_istack f) (cf_ostack f) (cf_estack f) (u32 cd.1) code 0
    (cf_this_object f) (cf_prev f) (cf_ordinal f)).

Definition pvm_call_frame_init_code (cf : Z) (code : pvm_object) : M vm unit :=
  o ← load (data code);
  (if flag (_flags o) PHANTOM_OBJECT_STORAGE_FLAG_IS_CODE then mret tt
   else panic "exec: not a code object");;
  pvm_exec_set_cs cf (data code).

(** ** Threads *)

Definition pvm_create_thread_object (start_cf : pvm_object) : M vm pvm_object :=
  c ← gets (fun s => thread_class (pvm_root s));
  ret ← pvm_object_create_fixed c;
  t ← load_thread (data ret);
  store_thread (data ret) (set_stack_depth 1 (set_call_frame start_cf t));;
  pvm_exec_load_fast_acc (data ret);;
  threads ← gets (fun s => threads_list (pvm_root s));
  pvm_append_array (data threads) ret;;
  ref_inc_o ret;;
  mret ret.

Definition pvm_release_thread_object (thread : pvm_object) : M vm unit :=
  threads ← gets (fun s => threads_list (pvm_root s));
  pvm_pop_array (data threads) thread;;
  ref_dec_o thread.

(** ** The [init] functions of the internal classes *)

(** [pvm_internal_init_istack], [..._ostack], [..._estack] *)
Definition pvm_internal_init_stack {A} (k : stack_kind A) (os : Z) : M vm unit :=
  d ← load_page k os;
  let ret := mkObj os 0 in
  store_page k os (mkStack (mkCommon ret ret (mkObj 0 (interface (st_prev (common d))))
    (mkObj 0 (interface (st_next (common d)))) 0 (Z.of_nat PVM_STACK_SIZE)) os (cells d)).

Definition pvm_internal_init_closure (os : Z) : M vm unit :=
  c ← load_da as_closure os;
  update os (set_da (DA_closure (mkObj 0 (interface c.1)) c.2)).

Definition pvm_internal_init_directory (os : Z) : M vm unit :=
  d ← load_da as_directory os;
  update os (set_da (DA_directory (mkDirectory 256 16 0 (container d))));;
  c ← pvm_create_binary_object (256 * 16) None;
  d ← load_da as_directory os;
  update os (set_da (DA_directory (mkDirectory (elSize d) (capacity d) (nEntries d) c))).

Definition pvm_internal_init_thread (os : Z) : M vm unit :=
  cf ← pvm_create_call_frame_object;
  t ← load_thread os;
  store_thread os (mkThread (mkCode 0 0 0) cf (mkObj 0 (interface (owner t)))
    (mkObj 0 (interface (environment t))) (_this_object t) (_istack t) (_ostack t) (_estack t) 1);;
  pvm_exec_load_fast_acc os.

Section Init.
(** [pvm_create_object], for the parts of an object that are objects. *)
Context (create_object : pvm_object -> M vm pvm_object).
(** The constructors of the classes that own a window: [pvm_internal_init_tty]
    and [pvm_internal_init_window]. *)
Context (init_window : Z -> M vm unit).

Definition pvm_internal_init_class (os : Z) : M vm unit :=
  nullc ← gets (fun s => null_class (pvm_root s));
  null ← pvm_create_null_object;
  c ← load_class os;
  let mk sv := mkClass 0 0 nullc (u32 (-1)) null nullc sv (ip2line_maps c) (method_names c) (field_names c) in
  update os (set_da (DA_class (mk (static_vars c))));;
  arrc ← gets (fun s => array_class (pvm_root s));
  a ← create_object arrc;
  update os (set_da (DA_class (mk a))).

(** [pvm_internal_init_mutex], [..._cond], [..._sema] *)
Definition pvm_internal_init_sync (os : Z) : M vm unit :=
  arrc ← gets (fun s => array_class (pvm_root s));
  a ← create_object arrc;
  y ← load_da as_sync os;
  update os (set_da (DA_sync (mkSync (sy_owner y) a (nwaiting y) (sem_value y)))).

(** The [init] column of [pvm_internal_classes].  The classes that are not
    listed have an empty constructor; that of a connection clears the driver
    pointer, which is not part of the data area modelled here. *)
Definition internal_init (rec os : Z) : M vm unit :=
  match rec with
  | 1 => pvm_internal_init_class os
  | 2 => pvm_internal_init_interface os
  | 3 => pvm_internal_init_code os
  | 6 => pvm_internal_init_string os
  | 7 => pvm_internal_init_array os
  | 8 => pvm_internal_init_page os
  | 9 => pvm_internal_init_thread os
  | 10 => pvm_internal_init_call_frame os
  | 11 => pvm_internal_init_stack istack_kind os
  | 12 => pvm_internal_init_stack ostack_kind os
  | 13 => pvm_internal_init_stack estack_kind os
  | 15 | 23 => init_window os
  | 16 | 17 | 18 => pvm_internal_init_sync os
  | 21 => pvm_internal_init_closure os
  | 24 => pvm_internal_init_directory os
  | _ => mret tt
  end.

Definition create_object_body (type : pvm_object) : M vm pvm_object :=
  ret ← pvm_object_create_fixed type;
  cda ← load_class (data type);
  (if flag (object_flags cda) PHANTOM_OBJECT_STORAGE_FLAG_IS_INTERNAL then
     rec ← pvm_iclass_by_class (data type);
     internal_init rec (data ret)
   else mret tt);;
  mret ret.
End Init.

Fixpoint create_object (init_window : Z -> M vm unit) (fuel : nat) (type : pvm_object)
    : M vm pvm_object :=
  match fuel with
  | O => diverge
  | S fuel' => create_object_body (create_object init_window fuel') init_window type
  end.

(** The constructors create only arrays inside, so two levels are enough for the
    table of internal classes. *)
Definition pvm_create_object (init_window : Z -> M vm unit) (type : pvm_object) : M vm pvm_object :=
  create_object init_window 2 type.

(** ** The syscall interface of the internal classes *)

Definition pvm_create_syscall_code (sys_num : Z) : M vm pvm_object :=
  if sys_num <=? 15 then
    pvm_create_code_object 2 [u8 (opcode_sys_0 + u8 sys_num); code_of_ret]
  else pvm_create_code_object 3 [opcode_sys_8bit; u8 sys_num; code_of_ret].

Fixpoint fill_syscalls (iface : Z) (i : Z) (n : nat) : M vm unit :=
  match n with
  | O => mret tt
  | S n' =>
      c ← pvm_create_syscall_code i;
      set_slot iface i c;;
      fill_syscalls iface (i + 1) n'
  end.

Definition pvm_fill_syscall_interface (iface : pvm_object) (syscall_count : Z) : M vm unit :=
  fill_syscalls (data iface) 0 (Z.to_nat syscall_count).
