(* ===== verification/Code.v ===== *)
(** * Reading the byte code ([phantom/vm/code.c])

    The instruction stream of a thread: a code object, the position in it and
    its size, with the bounds test in front of every access.  The functions take
    the handler and return it with the position moved. *)

From stdpp Require Import pretty.
From S2P Require Import Prelude Heap Refcount Alloc Opcodes Create Stacks Object Frame.

Definition int_size : Z := 4.
Definition long_size : Z := 8.

(** [code->code[i]]: a byte of the code object; outside of it there is no code. *)
Definition code_at (c : code_handler) (i : Z) : M vm Z :=
  cd ← load_da as_code (code c);
  some_or_fault (cd.2 !!z i) "access outside the code".

Definition pvm_code_do_get_int (c : code_handler) (addr : Z) : M vm Z :=
  b3 ← code_at c (addr + 3);
  b2 ← code_at c (addr + 2);
  b1 ← code_at c (addr + 1);
  b0 ← code_at c addr;
  let v := b3 in
  let v := Z.lor v (u32 (Z.shiftl b2 8)) in
  let v := Z.lor v (u32 (Z.shiftl b1 16)) in
  let v := Z.lor v (u32 (Z.shiftl b0 24)) in
  mret (i32 v).

(** The accumulator is an [unsigned long], 32 bits wide, and the result goes
    through a [long]. *)
Definition pvm_code_do_get_int64 (c : code_handler) (addr : Z) : M vm Z :=
  b7 ← code_at c (addr + 7);
  b6 ← code_at c (addr + 6);
  b5 ← code_at c (addr + 5);
  b4 ← code_at c (addr + 4);
  b3 ← code_at c (addr + 3);
  b2 ← code_at c (addr + 2);
  b1 ← code_at c (addr + 1);
  b0 ← code_at c addr;
  let v := u32 b7 in
  let v := u32 (Z.lor v (Z.shiftl b6 8)) in
  let v := u32 (Z.lor v (Z.shiftl b5 16)) in
  let v := u32 (Z.lor v (Z.shiftl b4 24)) in
  let v := u32 (Z.lor v (Z.shiftl b3 32)) in
  let v := u32 (Z.lor v (Z.shiftl b2 40)) in
  let v := u32 (Z.lor v (Z.shiftl b1 48)) in
  let v := u32 (Z.lor v (Z.shiftl b0 56)) in
  mret (u64 (i32 v)).

Definition throw_bounds {A} (ip max_IP : Z) (where_ : string) : M vm A :=
  panic (where_ +:+ ": IP out of bounds (IP=" +:+ pretty (i32 ip) +:+ ", max=" +:+
         pretty (i32 max_IP) +:+ ")").

Definition pvm_code_check_bounds (c : code_handler) (ip : Z) (where_ : string) : M vm unit :=
  if IP_max c <? ip then throw_bounds ip (IP_max c) where_ else mret tt.

Definition pvm_code_get_byte_speculative (c : code_handler) : M vm Z :=
  pvm_code_check_bounds c (IP c) "get_byte";; code_at c (IP c).

Definition pvm_code_get_byte_speculative2 (c : code_handler) : M vm Z :=
  pvm_code_check_bounds c (IP c) "get_byte";; code_at c (u32 (IP c + 1)).

Definition pvm_code_get_byte (c : code_handler) : M vm (Z * code_handler) :=
  pvm_code_check_bounds c (IP c) "get_byte";;
  b ← code_at c (IP c);
  mret (b, set_IP (u32 (IP c + 1)) c).

Definition pvm_code_get_int32 (c : code_handler) : M vm (Z * code_handler) :=
  pvm_code_check_bounds c (u32 (IP c + int_size - 1)) "get_int32";;
  v ← pvm_code_do_get_int c (IP c);
  mret (v, set_IP (u32 (IP c + int_size)) c).

Definition pvm_code_get_int64 (c : code_handler) : M vm (Z * code_handler) :=
  pvm_code_check_bounds c (u32 (IP c + long_size - 1)) "get_int64";;
  v ← pvm_code_do_get_int64 c (IP c);
  mret (i64 v, set_IP (u32 (IP c + long_size)) c).

Definition pvm_code_get_rel_IP_as_abs (c : code_handler) : M vm (Z * code_handler) :=
  '(v, c') ← pvm_code_get_int32 c;
  mret (u32 (i32 (IP c) + v), c').

(** The [n] bytes from position [i] on. *)
Definition code_slice (c : code_handler) (i n : Z) : M vm (list Z) :=
  cd ← load_da as_code (code c);
  if (i + n <=? Z.of_nat (length cd.2)) then mret (take (Z.to_nat n) (drop (Z.to_nat i) cd.2))
  else fault "access outside the code".

(** A negative length reaches [memcpy] as a huge one. *)
Definition pvm_code_get_string (c : code_handler) : M vm (pvm_object * code_handler) :=
  '(len, c1) ← pvm_code_get_int32 c;
  let sp := IP c1 in
  let c2 := set_IP (u32 (IP c1 + len)) c1 in
  pvm_code_check_bounds c2 (u32 (IP c2 - 1)) "get_string";;
  bytes ← (if len <? 0 then mret [] else code_slice c1 sp len);
  o ← pvm_create_string_object_binary (Some bytes) len;
  if len <? 0 then fault "memcpy of a negative size" else mret (o, c2).

(** ** Properties *)

Definition be32 (v : Z) : list Z :=
  [u8 (Z.shiftr v 24); u8 (Z.shiftr v 16); u8 (Z.shiftr v 8); u8 v].

Lemma lor_shiftl a b k : 0 <= k -> 0 <= a < 2 ^ k -> Z.lor a (Z.shiftl b k) = a + b * 2 ^ k.
Proof.
  intros Hk Ha. rewrite Z.shiftl_mul_pow2 by done.
  assert (Z.land a (b * 2 ^ k) = 0) as Hl.
  { apply Z.bits_inj'. intros n Hn. rewrite Z.land_spec, Z.bits_0.
    destruct (Z.lt_ge_cases n k) as [Hlt|Hge].
    - rewrite Z.mul_pow2_bits_low by done. apply andb_false_r.
    - rewrite <- (Z.mod_small a (2 ^ k)) by done. rewrite Z.mod_pow2_bits_high by lia. done. }
  rewrite Z.add_nocarry_lxor by done. by rewrite Z.lxor_lor.
Qed.

Lemma be32_decode v :
  Z.lor (Z.lor (Z.lor (u8 v) (u32 (Z.shiftl (u8 (Z.shiftr v 8)) 8)))
    (u32 (Z.shiftl (u8 (Z.shiftr v 16)) 16))) (u32 (Z.shiftl (u8 (Z.shiftr v 24)) 24)) = u32 v.
Proof.
  assert (forall z, 0 <= u8 z < 256) as Hr by (intros z; apply (wrapU_range 8); lia).
  pose proof (Hr v). pose proof (Hr (Z.shiftr v 8)). pose proof (Hr (Z.shiftr v 16)). pose proof (Hr (Z.shiftr v 24)).
  rewrite !(u32_id (Z.shiftl _ _)) by (rewrite Z.shiftl_mul_pow2 by done; lia).
  rewrite (lor_shiftl (u8 v) _ 8), (lor_shiftl _ _ 16), (lor_shiftl _ _ 24) by lia. unfold u8, u32. rewrite !wrapU_mod, !Z.shiftr_div_pow2 by done.
  change (2 ^ 8) with 256. change (2 ^ 16) with (256 * 256). change (2 ^ 24) with (256 * 256 * 256).
  change (2 ^ 32) with (256 * 256 * 256 * 256).
  Z.to_euclidean_division_equations. lia.
Qed.

(** The code object a handler points to. *)
Definition code_obj (s : vm) (c : code_handler) (n : Z) (bytes : list Z) : Prop :=
  exists o, heap s !! code c = Some o /\ as_code (da o) = Some (n, bytes).

Section Read.
Implicit Types (s : vm) (c : code_handler).

Lemma wp_code_at s c n bytes i b (Q : Z -> vm -> Prop) :
  code_obj s c n bytes -> bytes !!z i = Some b -> Q b s -> wp (code_at c i) s Q.
Proof.
  intros (o & Ho & Hc) Hb HQ. unfold code_at. wp_step. eapply wp_load_da; [done|done|].
  by eapply wp_some_or_fault.
Qed.

Lemma lookup_be32 pre v post (k : nat) b :
  be32 v !! k = Some b -> (pre ++ be32 v ++ post) !!z (Z.of_nat (length pre) + Z.of_nat k) = Some b.
Proof.
  intros Hb. rewrite <- Nat2Z.inj_add, lookupZ_nat, lookup_app_r by lia.
  replace (length pre + k - length pre)%nat with k by lia. by apply lookup_app_l_Some.
Qed.

Lemma i32_of_u32 v : - 2 ^ 31 <= v < 2 ^ 31 -> i32 (u32 v) = v.
Proof.
  intros Hv. unfold i32, u32. rewrite wrapU_mod, wrapS_mod. change (2 ^ (32 - 1)) with (2 ^ 31).
  rewrite Zplus_mod_idemp_l. rewrite Z.mod_small; lia.
Qed.

Lemma get_int_spec s c n pre v post :
  code_obj s c n (pre ++ be32 v ++ post) -> - 2 ^ 31 <= v < 2 ^ 31 ->
  wp (pvm_code_do_get_int c (Z.of_nat (length pre))) s (fun r s' => r = v /\ s' = s).
Proof.
  intros Hc Hv. unfold pvm_code_do_get_int.
  wp_step. eapply wp_code_at; [done|exact (lookup_be32 pre v post 3 _ eq_refl)|].
  wp_step. eapply wp_code_at; [done|exact (lookup_be32 pre v post 2 _ eq_refl)|].
  wp_step. eapply wp_code_at; [done|exact (lookup_be32 pre v post 1 _ eq_refl)|].
  wp_step. rewrite <- (Z.add_0_r (Z.of_nat (length pre))).
  eapply wp_code_at; [done|exact (lookup_be32 pre v post 0 _ eq_refl)|].
  wp_step. split; [|done]. by rewrite be32_decode, i32_of_u32.
Qed.

Lemma check_bounds_ok s c ip w (Q : unit -> vm -> Prop) :
  ip <= IP_max c -> Q tt s -> wp (pvm_code_check_bounds c ip w) s Q.
Proof.
  intros Hi HQ. unfold pvm_code_check_bounds. destruct (Z.ltb_spec (IP_max c) ip); [lia|]. by wp_step.
Qed.

Lemma get_int32_spec s c n pre v post :
  code_obj s c n (pre ++ be32 v ++ post) -> - 2 ^ 31 <= v < 2 ^ 31 ->
  IP c = Z.of_nat (length pre) -> IP c + 3 <= IP_max c -> IP_max c < 2 ^ 31 ->
  wp (pvm_code_get_int32 c) s (fun r s' => r = (v, set_IP (IP c + 4) c) /\ s' = s).
Proof.
  intros Hc Hv Hip Hm Hb. unfold pvm_code_get_int32, int_size. rewrite !u32_id by lia.
  wp_step. apply check_bounds_ok; [lia|]. wp_step. rewrite Hip.
  eapply wp_mono; [by eapply get_int_spec|]. intros r s' [-> ->]. by wp_step.
Qed.
End Read.

(** C38: an operand is read as it was written.  Where the code holds the big
    endian encoding of [v] at the position, [pvm_code_get_int32] returns [v] and
    moves behind it, and [pvm_code_get_rel_IP_as_abs] returns the position of the
    operand displaced by [v]; nothing else changes. *)
Theorem pvm_code_get_int32_correct s c n pre v post :
  code_obj s c n (pre ++ be32 v ++ post) -> - 2 ^ 31 <= v < 2 ^ 31 ->
  IP c = Z.of_nat (length pre) -> IP c + 3 <= IP_max c -> IP_max c < 2 ^ 31 ->
  pvm_code_get_int32 c s = Ret (v, set_IP (IP c + 4) c) s /\
  pvm_code_get_rel_IP_as_abs c s = Ret (u32 (IP c + v), set_IP (IP c + 4) c) s.
Proof.
  intros Hc Hv Hip Hm Hb.
  destruct (get_int32_spec s c n pre v post) as (r & s' & E & -> & ->); try done. split; [done|].
  unfold pvm_code_get_rel_IP_as_abs, mbind, M_bind. rewrite E. simpl. by rewrite i32_id by lia.
Qed.

(** C39: fetching an instruction byte, for every position.  Inside the code the
    byte comes back and the position moves on; behind the end the thread stops
    with a bounds panic; but the position right at the end passes the test and
    the byte behind the code is read. *)
Theorem pvm_code_get_byte_cases s c bytes :
  code_obj s c (Z.of_nat (length bytes)) bytes -> IP_max c = Z.of_nat (length bytes) ->
  IP_max c < 2 ^ 31 -> 0 <= IP c ->
  pvm_code_get_byte c s =
    match bytes !!z IP c with
    | Some b => Ret (b, set_IP (IP c + 1) c) s
    | None => if IP c =? IP_max c then Fault "access outside the code"
              else Panic ("get_byte: IP out of bounds (IP=" +:+ pretty (i32 (IP c)) +:+ ", max=" +:+
                     pretty (i32 (IP_max c)) +:+ ")")
    end.
Proof.
  intros (o & Ho & Hc) Hm Hb Hi.
  unfold pvm_code_get_byte, pvm_code_check_bounds, throw_bounds, panic, code_at, load_da, load, mbind, M_bind.
  destruct (Z.ltb_spec (IP_max c) (IP c)) as [Hgt|Hle].
  - assert (bytes !!z IP c = None) as ->.
    { unfold lookupZ. destruct (Z.ltb_spec (IP c) 0); [done|]. apply lookup_ge_None. lia. }
    destruct (Z.eqb_spec (IP c) (IP_max c)); [lia|done].
  - unfold mret, M_ret. rewrite Ho. unfold some_or_fault. rewrite Hc. simpl.
    destruct (bytes !!z IP c) as [b|] eqn:E; [by rewrite u32_id by lia|].
    destruct (Z.eqb_spec (IP c) (IP_max c)) as [|Hne]; [done|].
    destruct (lookupZ_is_Some bytes (IP c)) as [b Hb']; [lia|]. congruence.
Qed.

(** ** Instances *)

Definition ex_code (bytes : list Z) : vm :=
  zero_vm (<[1000 := set_da (DA_code (Z.of_nat (length bytes)) bytes) (ex_obj 1 [])]> ∅).

Lemma pvm_code_get_int32_correct_witness :
  pvm_code_get_rel_IP_as_abs (mkCode 1000 1 7) (ex_code [6; 255; 255; 255; 254; 8; 0])
  = Ret (u32 (-1), mkCode 1000 5 7) (ex_code [6; 255; 255; 255; 254; 8; 0]).
Proof.
  apply (pvm_code_get_int32_correct (ex_code [6; 255; 255; 255; 254; 8; 0]) (mkCode 1000 1 7) 7
    [6] (-2) [8; 0]); try reflexivity; try (vm_compute; split; congruence).
  - eexists. split; vm_compute; reflexivity.
  - vm_compute. discriminate.
Defined.

Lemma pvm_code_get_byte_cases_witness :
  pvm_code_get_byte (mkCode 1000 1 2) (ex_code [6; 8]) = Ret (8, mkCode 1000 2 2) (ex_code [6; 8]) /\
  pvm_code_get_byte (mkCode 1000 2 2) (ex_code [6; 8]) = Fault "access outside the code".
Proof.
  split.
  - apply (pvm_code_get_byte_cases (ex_code [6; 8]) (mkCode 1000 1 2) [6; 8]);
      [eexists; split; vm_compute; reflexivity|reflexivity|reflexivity|discriminate].
  - apply (pvm_code_get_byte_cases (ex_code [6; 8]) (mkCode 1000 2 2) [6; 8]);
      [eexists; split; vm_compute; reflexivity|reflexivity|reflexivity|discriminate].
Defined.

(** The upper half of a 64 bit operand is lost: [2^32 + 5] is read as 5. *)
Theorem pvm_code_get_int64_truncates :
  pvm_code_get_int64 (mkCode 1000 0 8) (ex_code [0; 0; 0; 1; 0; 0; 0; 5])
  = Ret (5, mkCode 1000 8 8) (ex_code [0; 0; 0; 1; 0; 0; 0; 5]).
Proof. vm_compute. reflexivity. Qed.
