(* ===== verification/Exec.v ===== *)
(** * The bytecode interpreter ([phantom/vm/exec.c])

    The main loop of a thread, one definition per group of instructions, the
    calls, returns and exceptions, the lookup of methods, system calls and
    classes, and the nested runs that look up a class or convert an object to a
    string.

    Integers are 32 bit ([int]) and wrap as the machine does; shift counts are
    taken modulo the width, as by the shift instructions of ia32; a division by
    zero or one that overflows traps and is a [Fault].  Text that is only
    printed is left out, but not the method calls that produce it. *)

From S2P Require Import Prelude Heap Refcount Alloc Opcodes Create Stacks Object Frame Code.

(** ** The rest of the kernel

    What the interpreter calls and is not part of it: the tables of system
    calls, one list of entries per internal class; the wait for a snapshot; the
    constructors of windows. *)
Record kernel := mkKernel {
  k_syscalls : Z -> option (list (option (pvm_object -> Z -> M vm bool)));
  k_wait_4_snap : M vm unit;
  k_init_window : Z -> M vm unit;
}.

(** ** Access to the stacks of a thread *)

Section Access.
Context (th : Z).

Definition os_push (o : pvm_object) : M vm unit := t ← load_thread th; pvm_ostack_push (_ostack t) o.
Definition os_pop : M vm pvm_object := t ← load_thread th; pvm_ostack_pop (_ostack t).
Definition os_top : M vm pvm_object := t ← load_thread th; pvm_ostack_top (_ostack t).
Definition os_empty : M vm bool := t ← load_thread th; pvm_ostack_empty (_ostack t).
Definition os_pull (pos : Z) : M vm pvm_object := t ← load_thread th; pvm_ostack_pull (_ostack t) pos.

Definition is_push (v : Z) : M vm unit := t ← load_thread th; pvm_istack_push (_istack t) v.
Definition is_pop : M vm Z := t ← load_thread th; pvm_istack_pop (_istack t).
Definition is_top : M vm Z := t ← load_thread th; pvm_istack_top (_istack t).
Definition is_empty : M vm bool := t ← load_thread th; pvm_istack_empty (_istack t).

Definition ls_push (v : Z) : M vm unit := t ← load_thread th; pvm_lstack_push (_istack t) v.
Definition ls_pop : M vm Z := t ← load_thread th; pvm_lstack_pop (_istack t).

Definition es_push (e : pvm_exception_handler) : M vm unit :=
  t ← load_thread th; pvm_estack_push (_estack t) e.
Definition es_pop : M vm pvm_exception_handler := t ← load_thread th; pvm_estack_pop (_estack t).
Definition es_empty : M vm bool := t ← load_thread th; pvm_estack_empty (_estack t).

Definition this_object : M vm pvm_object := t ← load_thread th; mret (_this_object t).

(** Read from the code of the thread, moving its position. *)
Definition fetch {A} (f : code_handler -> M vm (A * code_handler)) : M vm A :=
  t ← load_thread th;
  '(v, c) ← f (th_code t);
  t ← load_thread th;
  store_thread th (set_th_code c t);;
  mret v.

Definition get_byte : M vm Z := fetch pvm_code_get_byte.
Definition get_int32 : M vm Z := fetch pvm_code_get_int32.
Definition get_int64 : M vm Z := fetch pvm_code_get_int64.
Definition get_rel : M vm Z := fetch pvm_code_get_rel_IP_as_abs.
Definition get_string : M vm pvm_object := fetch pvm_code_get_string.

(** [da->code.IP = ip] *)
Definition jump (ip : Z) : M vm unit :=
  t ← load_thread th; store_thread th (set_th_code (set_IP (u32 ip) (th_code t)) t).

(** ** Workers *)

Definition pvm_exec_load (slot : Z) : M vm unit :=
  this ← this_object;
  o ← pvm_get_ofield this slot;
  o ← ref_inc_o o;
  os_push o.

Definition pvm_exec_save (slot : Z) : M vm unit :=
  v ← os_pop;
  this ← this_object;
  pvm_set_ofield this slot v.

Definition pvm_exec_iload (slot : Z) : M vm unit :=
  this ← this_object;
  o ← pvm_get_ofield this slot;
  v ← pvm_get_int o;
  is_push v.

Definition pvm_exec_isave (slot : Z) : M vm unit :=
  v ← is_pop;
  o ← pvm_create_int_object v;
  this ← this_object;
  pvm_set_ofield this slot o.

Definition pvm_exec_get (abs_stack_pos : Z) : M vm unit :=
  t ← load_thread th;
  o ← pvm_ostack_abs_get (_ostack t) (i32 abs_stack_pos);
  o ← ref_inc_o o;
  os_push o.

Definition pvm_exec_set (abs_stack_pos : Z) : M vm unit :=
  v ← os_pop;
  t ← load_thread th;
  pvm_ostack_abs_set (_ostack t) (i32 abs_stack_pos) v.

Definition pvm_exec_iget (abs_stack_pos : Z) : M vm unit :=
  t ← load_thread th;
  v ← pvm_istack_abs_get (_istack t) (i32 abs_stack_pos);
  is_push v.

Definition pvm_exec_iset (abs_stack_pos : Z) : M vm unit :=
  v ← is_pop;
  t ← load_thread th;
  pvm_istack_abs_set (_istack t) (i32 abs_stack_pos) v.

(** ** Frames *)

Definition set_cf_prev (p : pvm_object) (f : da_call_frame) : da_call_frame :=
  mkFrame (cf_istack f) (cf_ostack f) (cf_estack f) (cf_IP_max f) (cf_code f) (cf_IP f)
    (cf_this_object f) p (cf_ordinal f).

(** The link is cut first, or the release would follow it. *)
Definition free_call_frame (cf : pvm_object) : M vm unit :=
  f ← load_frame (data cf);
  store_frame (data cf) (set_cf_prev (mkObj 0 (interface (cf_prev f))) f);;
  ref_dec_o cf;;
  t ← load_thread th;
  store_thread th (set_stack_depth (i32 (stack_depth t - 1)) t).

(** [da->call_frame = cf; pvm_exec_load_fast_acc(da);] *)
Definition enter_frame (cf : pvm_object) : M vm unit :=
  t ← load_thread th;
  store_thread th (set_call_frame cf t);;
  pvm_exec_load_fast_acc th.

(** The frame that called the current one. *)
Definition caller : M vm pvm_object :=
  t ← load_thread th;
  f ← load_frame (data (call_frame t));
  mret (cf_prev f).

Definition pvm_exec_do_return : M vm unit :=
  ret ← caller;
  empty ← os_empty;
  return_val ← (if (empty : bool) then pvm_create_null_object else os_pop);
  t ← load_thread th;
  free_call_frame (call_frame t);;
  enter_frame ret;;
  os_push return_val.
End Access.

(** ** Lookup *)

(** The code object of a method.  The bounds test lets one index too many pass. *)
Definition pvm_exec_find_method (o : pvm_object) (method_index : Z) : M vm Z :=
  (if data o =? 0 then panic "pvm_exec_find_method: null object!" else mret tt);;
  iface ← (if interface o =? 0 then
             os ← load (data o);
             if data (_class os) =? 0
             then panic "pvm_exec_find_method: no interface and no class!"
             else c ← load_class (data (_class os)); mret (data (object_default_interface c))
           else mret (interface o));
  (if iface =? 0 then panic "pvm_exec_find_method: no interface found" else mret tt);;
  i ← load iface;
  (if flag (_flags i) PHANTOM_OBJECT_STORAGE_FLAG_IS_INTERFACE then mret tt
   else panic "pvm_exec_find_method: not an interface object");;
  (if da_po_limit i <? method_index
   then panic "pvm_exec_find_method: method index is out of bounds" else mret tt);;
  l ← load_slots iface;
  m ← some_or_fault (l !!z method_index) "method outside the interface";
  mret (data m).

(** [find_dynamic_method]: the class and the ordinal of a method by its name;
    [None] is an error. *)
Definition find_dynamic_method (method_name new_this : pvm_object) : M vm (option Z) :=
  isnull ← pvm_is_null new_this;
  target_class ← (if (isnull : bool) then pvm_create_null_object else pvm_get_class new_this);
  isnull ← pvm_is_null target_class;
  if (isnull : bool) then mret None else
  ord ← pvm_get_method_ordinal target_class method_name;
  if ord <? 0 then mret None else mret (Some ord).

(** ** Exceptions *)

(** The handler passed in carries the thrown object, and the jump back out. *)
Definition catch_comparator (thrown test : pvm_exception_handler)
    : M vm (bool * pvm_exception_handler) :=
  isa ← pvm_object_class_is (eh_object thrown) (eh_object test);
  if (isa : bool) then mret (true, mkHandler (eh_object thrown) (eh_jump test))
  else mret (false, thrown).

Definition pvm_exec_find_catch (stack : Z) (thrown_obj : pvm_object) : M vm (option Z) :=
  '(found, topass) ← pvm_estack_foreach catch_comparator (mkHandler thrown_obj 0) stack;
  mret (if (found : bool) then Some (eh_jump topass) else None).

Section Interp.
Context (K : kernel).
(** [pvm_exec_run_method] *)
Context (run_method : pvm_object -> Z -> list pvm_object -> M vm pvm_object).

(** [pvm_puts] and [pvm_object_print]; the characters themselves are dropped. *)
Definition pvm_puts (o : pvm_object) : M vm unit :=
  os ← load (data o);
  if flag (_flags os) PHANTOM_OBJECT_STORAGE_FLAG_IS_STRING then
    sd ← load_da as_string (data o);
    if (0 <=? sd.1) && (sd.1 <=? Z.of_nat (length sd.2)) then mret tt else fault "print past the string"
  else mret tt.

Definition pvm_object_print (o : pvm_object) : M vm unit :=
  os ← load (data o);
  if flag (_flags os) PHANTOM_OBJECT_STORAGE_FLAG_IS_INT then pvm_get_int o;; mret tt
  else if flag (_flags os) PHANTOM_OBJECT_STORAGE_FLAG_IS_STRING then pvm_puts o
  else r ← run_method o 5 []; pvm_puts r;; ref_dec_o r.

Context (th : Z).

(** Unwind until a frame has a handler; the heap bounds the number of frames. *)
Fixpoint throw_loop (fuel : nat) (thrown_obj : pvm_object) : M vm Z :=
  match fuel with
  | O => diverge
  | S fuel' =>
      t ← load_thread th;
      found ← pvm_exec_find_catch (_estack t) thrown_obj;
      match found with
      | Some jump_to => mret jump_to
      | None =>
          ret ← caller th;
          isnull ← pvm_is_null ret;
          (if (isnull : bool) then
             pvm_object_print thrown_obj;; panic "unwind: nowhere to return"
           else mret tt);;
          t ← load_thread th;
          free_call_frame th (call_frame t);;
          enter_frame th ret;;
          throw_loop fuel' thrown_obj
      end
  end.

Definition pvm_exec_do_throw : M vm unit :=
  thrown_obj ← os_pop th;
  s ← get;
  jump_to ← throw_loop (S (size (heap s))) thrown_obj;
  jump th jump_to;;
  os_push th thrown_obj.

(** ** System calls *)

Definition pvm_exec_find_syscall (class_ : pvm_object) (syscall_index : Z)
    : M vm (option (pvm_object -> Z -> M vm bool)) :=
  co ← load (data class_);
  (if flag (_flags co) PHANTOM_OBJECT_STORAGE_FLAG_IS_CLASS then mret tt
   else panic "pvm_exec_find_syscall: not a class object");;
  c ← load_class (data class_);
  tab ← some_or_fault (k_syscalls K (sys_table_id c)) "no such syscall table";
  some_or_fault (tab !!z syscall_index) "syscall outside the table".

Definition pvm_exec_sys (syscall_index : Z) : M vm unit :=
  o ← this_object th;
  os ← load (data o);
  func ← pvm_exec_find_syscall (_class os) syscall_index;
  match func with
  | None => mret tt
  | Some f => ok ← f o th; if (ok : bool) then mret tt else pvm_exec_do_throw
  end.

(** ** Calls *)

Definition set_cf_ordinal (n : Z) (f : da_call_frame) : da_call_frame :=
  mkFrame (cf_istack f) (cf_ostack f) (cf_estack f) (cf_IP_max f) (cf_code f) (cf_IP f)
    (cf_this_object f) (cf_prev f) n.
Definition set_cf_this (o : pvm_object) (f : da_call_frame) : da_call_frame :=
  mkFrame (cf_istack f) (cf_ostack f) (cf_estack f) (cf_IP_max f) (cf_code f) (cf_IP f)
    o (cf_prev f) (cf_ordinal f).

(** Places for the arguments on the stack of the new frame. *)
Fixpoint push_nulls (cfda : Z) (n : nat) : M vm unit :=
  match n with
  | O => mret tt
  | S n' =>
      null ← pvm_create_null_object;
      f ← load_frame cfda;
      pvm_ostack_push (data (cf_ostack f)) null;;
      push_nulls cfda n'
  end.

(** The top of the caller's stack is the last argument. *)
Fixpoint move_args (cfda : Z) (i : nat) : M vm unit :=
  match i with
  | O => mret tt
  | S i' =>
      v ← os_pop th;
      f ← load_frame cfda;
      pvm_ostack_abs_set (data (cf_ostack f)) (Z.of_nat i') v;;
      move_args cfda i'
  end.

Definition init_cfda (cfda method_index n_param : Z) (new_this : pvm_object) : M vm unit :=
  f ← load_frame cfda;
  store_frame cfda (set_cf_ordinal (i32 method_index) f);;
  push_nulls cfda (Z.to_nat n_param);;
  move_args cfda (Z.to_nat n_param);;
  f ← load_frame cfda;
  pvm_istack_push (data (cf_istack f)) (i32 n_param);;
  isnull ← pvm_is_null new_this;
  new_this ← (if (isnull : bool) then os_pop th else mret new_this);
  code ← pvm_exec_find_method new_this method_index;
  assert_ (negb (code =? 0)) "code != 0";;
  pvm_exec_set_cs cfda code;;
  f ← load_frame cfda;
  store_frame cfda (set_cf_this new_this f).

(** Whether the call is followed by a return, so that the frame can go first. *)
Definition returns_next (do_optimize_ret : bool) : M vm bool :=
  t ← load_thread th;
  b ← pvm_code_get_byte_speculative (th_code t);
  drop_ret ← (if b =? code_of_os_drop then
                b2 ← pvm_code_get_byte_speculative2 (th_code t); mret (b2 =? code_of_ret)
              else mret false);
  if (drop_ret : bool) then mret true else
  b ← pvm_code_get_byte_speculative (th_code t);
  mret ((b =? code_of_ret) && do_optimize_ret).

Definition pvm_exec_call (method_index n_param : Z) (do_optimize_ret : bool) (new_this : pvm_object)
    : M vm unit :=
  last ← returns_next do_optimize_ret;
  optimize_stack ← (if (last : bool) then es_empty th else mret false);
  pvm_exec_save_fast_acc th;;
  new_cf ← pvm_create_call_frame_object;
  init_cfda (data new_cf) method_index n_param new_this;;
  t ← load_thread th;
  (if negb optimize_stack then
     f ← load_frame (data new_cf);
     store_frame (data new_cf) (set_cf_prev (call_frame t) f)
   else
     ret ← caller th;
     f ← load_frame (data new_cf);
     store_frame (data new_cf) (set_cf_prev ret f);;
     free_call_frame th (call_frame t));;
  t ← load_thread th;
  store_thread th (set_stack_depth (i32 (stack_depth t + 1)) t);;
  enter_frame th new_cf.

(** ** Arithmetic

    The operations on the two topmost integers: [u] was on top, [l] below it. *)

(** Quotient of signed [w] bit integers; the machine traps where there is none. *)
Definition div_signed (w a b : Z) : option Z :=
  if (b =? 0) || ((a =? - 2 ^ (w - 1)) && (b =? -1)) then None else Some (Z.quot a b).

Definition int_binop (op : opcode) : option (Z -> Z -> option Z) :=
  match op with
  | opcode_ishl => Some (fun u l => Some (i32 (Z.shiftl u (l mod 32))))
  | opcode_ishr => Some (fun u l => Some (Z.shiftr u (l mod 32)))
  | opcode_ushr => Some (fun u l => Some (i32 (Z.shiftr (u32 u) (l mod 32))))
  | opcode_isum => Some (fun u l => Some (i32 (l + u)))
  | opcode_imul => Some (fun u l => Some (i32 (l * u)))
  | opcode_isubul => Some (fun u l => Some (i32 (u - l)))
  | opcode_isublu => Some (fun u l => Some (i32 (l - u)))
  | opcode_idivul => Some (fun u l => div_signed 32 u l)
  | opcode_idivlu => Some (fun u l => div_signed 32 l u)
  | opcode_ior => Some (fun u l => Some (Z.lor l u))
  | opcode_iand => Some (fun u l => Some (Z.land l u))
  | opcode_ixor => Some (fun u l => Some (Z.lxor l u))
  | opcode_log_or => Some (fun u l => Some (b2z (z2b u || z2b l)))
  | opcode_log_and => Some (fun u l => Some (b2z (z2b u && z2b l)))
  | opcode_log_xor => Some (fun u l => Some (b2z (xorb (z2b u) (z2b l))))
  | opcode_ige => Some (fun u l => Some (b2z (u <=? l)))
  | opcode_ile => Some (fun u l => Some (b2z (l <=? u)))
  | opcode_igt => Some (fun u l => Some (b2z (u <? l)))
  | opcode_ilt => Some (fun u l => Some (b2z (l <? u)))
  | _ => None
  end.

Definition int_unop (op : opcode) : option (Z -> Z) :=
  match op with
  | opcode_inot => Some Z.lnot
  | opcode_log_not => Some (fun v => b2z (negb (z2b v)))
  | _ => None
  end.

Definition exec_arith (op : opcode) : option (M vm unit) :=
  match int_binop op, int_unop op with
  | Some f, _ => Some (
      u ← is_pop th;
      l ← is_pop th;
      v ← some_or_fault (f u l) "division trap";
      is_push th v)
  | _, Some f => Some (v ← is_pop th; is_push th (f v))
  | _, _ => None
  end.

(** The same with the long prefix.  Comparisons push an [int]. *)
Definition long_binop (op : opcode) : option (Z -> Z -> option Z) :=
  match op with
  | opcode_isum => Some (fun u l => Some (i64 (l + u)))
  | opcode_imul => Some (fun u l => Some (i64 (l * u)))
  | opcode_isubul => Some (fun u l => Some (i64 (u - l)))
  | opcode_isublu => Some (fun u l => Some (i64 (l - u)))
  | opcode_idivul => Some (fun u l => div_signed 64 u l)
  | opcode_idivlu => Some (fun u l => div_signed 64 l u)
  | opcode_ior => Some (fun u l => Some (Z.lor l u))
  | opcode_iand => Some (fun u l => Some (Z.land l u))
  | opcode_ixor => Some (fun u l => Some (Z.lxor l u))
  | opcode_log_or => Some (fun u l => Some (b2z (z2b u || z2b l)))
  | opcode_log_and => Some (fun u l => Some (b2z (z2b u && z2b l)))
  | opcode_log_xor => Some (fun u l => Some (b2z (xorb (z2b u) (z2b l))))
  | _ => None
  end.

Definition long_shift (op : opcode) : option (Z -> Z -> Z) :=
  match op with
  | opcode_ishl => Some (fun val n => i64 (Z.shiftl val (n mod 64)))
  | opcode_ishr => Some (fun val n => Z.shiftr val (n mod 64))
  | opcode_ushr => Some (fun val n => i64 (Z.shiftr (u64 val) (n mod 64)))
  | _ => None
  end.

Definition long_compare (op : opcode) : option (Z -> Z -> bool) :=
  match op with
  | opcode_ige => Some (fun u l => u <=? l)
  | opcode_ile => Some (fun u l => l <=? u)
  | opcode_igt => Some (fun u l => u <? l)
  | opcode_ilt => Some (fun u l => l <? u)
  | _ => None
  end.

Definition exec_long (op : opcode) : M vm unit :=
  match long_binop op, long_shift op, long_compare op, int_unop op with
  | Some f, _, _, _ =>
      u ← ls_pop th; l ← ls_pop th; v ← some_or_fault (f u l) "division trap"; ls_push th v
  | _, Some f, _, _ => val ← ls_pop th; n ← is_pop th; ls_push th (f val n)
  | _, _, Some f, _ => u ← ls_pop th; l ← ls_pop th; is_push th (b2z (f u l))
  | _, _, _, Some f => v ← ls_pop th; ls_push th (f v)
  | _, _, _, _ =>
      match op with
      | opcode_i2o => v ← ls_pop th; o ← pvm_create_long_object v; os_push th o
      | opcode_o2i =>
          o ← os_pop th;
          (if data o =? 0 then panic "l-o2i(null)" else mret tt);;
          v ← pvm_get_long o;
          ls_push th v;;
          ref_dec_o o
      | _ => mret tt
      end
  end.

(** ** Stacks and constants *)

(** [twice]: the long or double prefix is set. *)
Definition exec_istack (twice : bool) (op : opcode) : option (M vm unit) :=
  match op with
  | opcode_is_dup => Some (
      if twice then
        i1 ← is_pop th; i2 ← is_pop th;
        is_push th i1;; is_push th i2;; is_push th i1;; is_push th i2
      else v ← is_top th; is_push th v)
  | opcode_is_drop => Some (is_pop th;; if twice then is_pop th;; mret tt else mret tt)
  | opcode_iconst_0 => Some (is_push th 0;; if twice then is_push th 0 else mret tt)
  | opcode_iconst_1 => Some (is_push th 1;; if twice then is_push th 1 else mret tt)
  | opcode_iconst_8bit => Some (v ← get_byte th; if twice then ls_push th v else is_push th v)
  | opcode_iconst_32bit => Some (v ← get_int32 th; if twice then ls_push th v else is_push th v)
  | opcode_iconst_64bit => Some (v ← get_int64 th; ls_push th v)
  | opcode_is_get32 => Some (p ← get_int32 th; pvm_exec_iget th (u32 p))
  | opcode_is_set32 => Some (p ← get_int32 th; pvm_exec_iset th (u32 p))
  | opcode_is_load8 => Some (p ← get_byte th; pvm_exec_iload th p)
  | opcode_is_save8 => Some (p ← get_byte th; pvm_exec_isave th p)
  | _ => None
  end.

Definition exec_ostack (op : opcode) : option (M vm unit) :=
  match op with
  | opcode_os_dup => Some (o ← os_top th; o ← ref_inc_o o; os_push th o)
  | opcode_os_drop => Some (o ← os_pop th; ref_dec_o o)
  | opcode_os_pull32 => Some (p ← get_int32 th; o ← os_pull th p; o ← ref_inc_o o; os_push th o)
  | opcode_os_load8 => Some (p ← get_byte th; pvm_exec_load th p)
  | opcode_os_load32 => Some (p ← get_int32 th; pvm_exec_load th (u32 p))
  | opcode_os_save8 => Some (p ← get_byte th; pvm_exec_save th p)
  | opcode_os_save32 => Some (p ← get_int32 th; pvm_exec_save th (u32 p))
  | opcode_os_get32 => Some (p ← get_int32 th; pvm_exec_get th (u32 p))
  | opcode_os_set32 => Some (p ← get_int32 th; pvm_exec_set th (u32 p))
  | _ => None
  end.

Definition exec_convert (op : opcode) : option (M vm unit) :=
  match op with
  | opcode_i2o => Some (v ← is_pop th; o ← pvm_create_int_object v; os_push th o)
  | opcode_o2i => Some (
      o ← os_pop th;
      (if data o =? 0 then panic "o2i(null)" else mret tt);;
      v ← pvm_get_int o;
      is_push th v;;
      ref_dec_o o)
  | opcode_os_eq => Some (
      o1 ← os_pop th; o2 ← os_pop th;
      is_push th (b2z (data o1 =? data o2));; ref_dec_o o1;; ref_dec_o o2)
  | opcode_os_neq => Some (
      o1 ← os_pop th; o2 ← os_pop th;
      is_push th (b2z (negb (data o1 =? data o2)));; ref_dec_o o1;; ref_dec_o o2)
  | opcode_os_isnull => Some (
      o1 ← os_pop th; isnull ← pvm_is_null o1; is_push th (b2z isnull);; ref_dec_o o1)
  | _ => None
  end.

(** ** Objects *)

Definition pvm_exec_lookup_class_by_name (name : pvm_object) : M vm pvm_object :=
  ret ← pvm_lookup_internal_class name;
  isnull ← pvm_is_null ret;
  if negb isnull then mret ret else
  loader ← gets (fun s => class_loader (pvm_root s));
  isnull ← pvm_is_null loader;
  if (isnull : bool) then pvm_create_null_object else run_method loader 8 [name].

Definition exec_summon (current_thread : pvm_object) (op : opcode) : option (M vm unit) :=
  let root f := Some (o ← gets (fun s => f (pvm_root s)); os_push th o) in
  match op with
  | opcode_summon_null => root null_object
  | opcode_summon_thread => Some (o ← ref_inc_o current_thread; os_push th o)
  | opcode_summon_this => Some (this ← this_object th; o ← ref_inc_o this; os_push th o)
  | opcode_summon_class_class => root class_class
  | opcode_summon_interface_class => root interface_class
  | opcode_summon_code_class => root code_class
  | opcode_summon_int_class => root int_class
  | opcode_summon_string_class => root string_class
  | opcode_summon_array_class => root array_class
  | opcode_summon_by_name => Some (
      name ← get_string th;
      cl ← pvm_exec_lookup_class_by_name name;
      ref_dec_o name;;
      isnull ← pvm_is_null cl;
      (if (isnull : bool) then panic "summon by name: null class" else mret tt);;
      os_push th cl)
  | _ => None
  end.

Definition exec_object (op : opcode) : option (M vm unit) :=
  match op with
  | opcode_new => Some (
      cl ← os_pop th; o ← pvm_create_object (k_init_window K) cl; os_push th o)
  | opcode_copy => Some (
      o ← os_pop th; c ← pvm_copy_object o; os_push th c;; ref_dec_o o)
  | opcode_sconst_bin => Some (o ← get_string th; os_push th o)
  | opcode_general_lock | opcode_general_unlock => Some (os_pop th;; mret tt)
  | _ => None
  end.

(** ** Flow *)

Definition exec_flow (op : opcode) : option (M vm unit) :=
  match op with
  | opcode_jmp => Some (ip ← get_rel th; jump th ip)
  | opcode_djnz => Some (
      new_IP ← get_rel th;
      v ← is_pop th;
      is_push th (i32 (v - 1));;
      t ← is_top th;
      if t =? 0 then mret tt else jump th new_IP)
  | opcode_jz => Some (
      new_IP ← get_rel th;
      test ← is_pop th;
      if test =? 0 then jump th new_IP else mret tt)
  | opcode_switch => Some (
      tabsize ← get_int32 th;
      shift ← get_int32 th;
      divisor ← get_int32 th;
      stack_top ← is_pop th;
      t ← load_thread th;
      let start_table_IP := IP (th_code t) in
      displ ← some_or_fault
        (if u32 divisor =? 0 then None else Some (u32 (i32 (stack_top + shift)) / u32 divisor))
        "division trap";
      new_IP ← (if displ <? u32 tabsize then
                  jump th (start_table_IP + displ * 4);; get_rel th
                else mret (u32 (start_table_IP + u32 tabsize * 4)));
      jump th new_IP)
  | _ => None
  end.

Definition exec_catch (op : opcode) : option (M vm unit) :=
  match op with
  | opcode_throw => Some pvm_exec_do_throw
  | opcode_push_catcher => Some (
      addr ← get_rel th; o ← os_pop th; es_push th (mkHandler o addr))
  | opcode_pop_catcher => Some (e ← es_pop th; ref_dec_o (eh_object e))
  | _ => None
  end.

Definition exec_call (op : opcode) : option (M vm unit) :=
  let call m n := null ← pvm_create_null_object; pvm_exec_call m n true null in
  match op with
  | opcode_short_call_0 => Some (call 0 0)
  | opcode_short_call_1 => Some (call 1 0)
  | opcode_short_call_2 => Some (call 2 0)
  | opcode_short_call_3 => Some (call 3 0)
  | opcode_call_8bit => Some (m ← get_byte th; n ← get_int32 th; call m (u32 n))
  | opcode_call_32bit => Some (m ← get_int32 th; n ← get_int32 th; call (u32 m) (u32 n))
  | opcode_dynamic_invoke => Some (
      method_name ← os_pop th;
      new_this ← os_pop th;
      np ← os_pop th;
      n_param ← pvm_get_int np;
      ord ← find_dynamic_method method_name new_this;
      match ord with
      | None => panic "dynamic invoke failed"
      | Some m => pvm_exec_call (u32 m) (u32 n_param) true new_this
      end)
  | _ => None
  end.

Definition exec_debug : M vm unit :=
  type ← get_byte th;
  (if z2b (Z.land type 0x80) then
     o ← get_string th; pvm_object_print o;; ref_dec_o o
   else mret tt);;
  empty ← is_empty th;
  (if (empty : bool) then mret tt else is_top th;; mret tt);;
  empty ← os_empty th;
  if (empty : bool) then mret tt else o ← os_top th; pvm_object_print o.

Definition exec_default (instruction : Z) : M vm unit :=
  if Z.land instruction 0xF0 =? opcode_sys_0 then pvm_exec_sys (Z.land instruction 0x0F)
  else if instruction =? opcode_sys_8bit then i ← get_byte th; pvm_exec_sys i
  else if Z.land instruction 0xE0 =? opcode_call_00 then
    n_param ← get_byte th;
    null ← pvm_create_null_object;
    pvm_exec_call (Z.land instruction 0x1F) n_param false null
  else panic "thread exec: unknown opcode".

(** ** One instruction *)

Record prefixes := mkPrefixes { prefix_long : bool; prefix_float : bool; prefix_double : bool }.
Definition no_prefix : prefixes := mkPrefixes false false false.

(** The first group that has the instruction. *)
Fixpoint first_of {A} (l : list (option A)) (d : A) : A :=
  match l with
  | [] => d
  | Some x :: _ => x
  | None :: rest => first_of rest d
  end.

(** The instructions that go on to the next one. *)
Definition exec_op (current_thread : pvm_object) (p : prefixes) (instruction : Z) (op : opcode) : M vm unit :=
  first_of
    [ exec_istack (prefix_long p || prefix_double p) op; exec_arith op; exec_convert op;
      exec_summon current_thread op; exec_object op; exec_flow op; exec_catch op;
      exec_call op; exec_ostack op ]
    (exec_default instruction).

(** The main switch: the prefixes after it, or [None] where the thread ends. *)
Definition exec_switch (current_thread : pvm_object) (p : prefixes) (instruction : Z)
    : M vm (option prefixes) :=
  match decode instruction with
  | Some opcode_nop => mret (Some p)
  | Some opcode_debug => exec_debug;; mret (Some p)
  | Some opcode_prefix_long => mret (Some (mkPrefixes true (prefix_float p) (prefix_double p)))
  | Some opcode_prefix_float => mret (Some (mkPrefixes (prefix_long p) true (prefix_double p)))
  | Some opcode_prefix_double => mret (Some (mkPrefixes (prefix_long p) (prefix_float p) true))
  | Some opcode_ret =>
      ret ← caller th;
      isnull ← pvm_is_null ret;
      if (isnull : bool) then mret None else pvm_exec_do_return th;; mret (Some p)
  | Some op => exec_op current_thread p instruction op;; mret (Some p)
  | None => exec_default instruction;; mret (Some p)
  end.

(** One turn of the loop, up to the switch. *)
Definition exec_turn (current_thread : pvm_object) (p : prefixes) : M vm (option prefixes) :=
  snap ← gets snap_request;
  (if (snap : bool) then pvm_exec_save_fast_acc th;; k_wait_4_snap K else mret tt);;
  instruction ← get_byte th;
  (if prefix_long p then
     match decode instruction with Some op => exec_long op | None => mret tt end
   else mret tt);;
  exec_switch current_thread p instruction.
End Interp.

(** ** The loop *)

(** [pvm_exec_run_method], with the interpreter it runs. *)
Fixpoint push_args (cfda : Z) (args : list pvm_object) : M vm unit :=
  match args with
  | [] => mret tt
  | a :: rest =>
      push_args cfda rest;;
      a ← ref_inc_o a;
      f ← load_frame cfda;
      pvm_ostack_push (data (cf_ostack f)) a
  end.

Definition run_method_with (exec : pvm_object -> M vm unit) (this : pvm_object) (method : Z)
    (args : list pvm_object) : M vm pvm_object :=
  new_cf ← pvm_create_call_frame_object;
  let cfda := data new_cf in
  push_args cfda args;;
  f ← load_frame cfda;
  pvm_istack_push (data (cf_istack f)) (Z.of_nat (length args));;
  code ← pvm_exec_find_method this (u32 method);
  pvm_exec_set_cs cfda code;;
  this ← ref_inc_o this;
  f ← load_frame cfda;
  store_frame cfda (set_cf_this this f);;
  thread ← pvm_create_thread_object new_cf;
  exec thread;;
  f ← load_frame cfda;
  ret ← pvm_ostack_pop (data (cf_ostack f));
  pvm_release_thread_object thread;;
  mret ret.

(** [pvm_exec] up to its loop. *)
Definition exec_with (loop : pvm_object -> prefixes -> M vm unit) (current_thread : pvm_object) : M vm unit :=
  c ← gets (fun s => thread_class (pvm_root s));
  isa ← pvm_object_class_is current_thread c;
  (if (isa : bool) then mret tt else panic "attempt to run not a thread");;
  pvm_exec_load_fast_acc (data current_thread);;
  loop current_thread no_prefix.

(** The prefixes are reset behind the switch of every turn. *)
Fixpoint exec_loop (K : kernel) (fuel : nat) (current_thread : pvm_object) (p : prefixes) : M vm unit :=
  match fuel with
  | O => diverge
  | S fuel' =>
      p' ← exec_turn K (run_method_with (exec_with (exec_loop K fuel'))) (data current_thread)
             current_thread p;
      match p' with
      | None => mret tt
      | Some _ => exec_loop K fuel' current_thread no_prefix
      end
  end.

Definition pvm_exec (K : kernel) (fuel : nat) (current_thread : pvm_object) : M vm unit :=
  exec_with (exec_loop K fuel) current_thread.

Definition pvm_exec_run_method (K : kernel) (fuel : nat) : pvm_object -> Z -> list pvm_object -> M vm pvm_object :=
  run_method_with (pvm_exec K fuel).

(** ** Properties *)

(** *** More fuel does not change a run *)

(** [m] is [m'], or it runs out of fuel. *)
Definition upto_fuel {A} (m m' : M vm A) : Prop := forall s, m s = Diverge \/ m s = m' s.
Infix "⊑f" := upto_fuel (at level 70) : pvm_scope.

Section Fuel.
Lemma upto_refl {A} (m : M vm A) : m ⊑f m.
Proof. intros s. by right. Qed.

Lemma upto_bind {A B} (m m' : M vm A) (k k' : A -> M vm B) :
  m ⊑f m' -> (forall a, k a ⊑f k' a) -> (m ≫= k) ⊑f (m' ≫= k').
Proof.
  intros Hm Hk s. unfold mbind, M_bind. destruct (Hm s) as [->| ->]; [by left|].
  destruct (m' s); [apply Hk|by right..].
Qed.

Lemma upto_if {A} (b : bool) (m1 m1' m2 m2' : M vm A) :
  m1 ⊑f m1' -> m2 ⊑f m2' -> (if b then m1 else m2) ⊑f (if b then m1' else m2').
Proof. by destruct b. Qed.

Lemma upto_diverge {A} (m : M vm A) : diverge ⊑f m.
Proof. intros s. by left. Qed.
End Fuel.

Create HintDb fuel.
#[export] Hint Resolve upto_refl upto_bind upto_if upto_diverge : fuel.

Ltac fuel_step :=
  lazymatch goal with
  | |- (_ ≫= _) ⊑f (_ ≫= _) => apply upto_bind; [|intros ?]
  | |- (if ?b then _ else _) ⊑f _ => destruct b
  | |- (match ?x with _ => _ end) ⊑f _ => destruct x
  | |- _ ⊑f _ => solve [eauto with fuel]
  end.

Section FuelExec.
Context (K : kernel).
Context (rm rm' : pvm_object -> Z -> list pvm_object -> M vm pvm_object).
Context (Hrm : forall o m args, rm o m args ⊑f rm' o m args).

#[local] Hint Resolve Hrm : fuel.

Lemma print_fuel o : pvm_object_print rm o ⊑f pvm_object_print rm' o.
Proof. unfold pvm_object_print. repeat fuel_step. Qed.
#[local] Hint Resolve print_fuel : fuel.

Lemma lookup_class_fuel name :
  pvm_exec_lookup_class_by_name rm name ⊑f pvm_exec_lookup_class_by_name rm' name.
Proof. unfold pvm_exec_lookup_class_by_name. repeat fuel_step. Qed.
#[local] Hint Resolve lookup_class_fuel : fuel.

Lemma throw_loop_fuel th n o : throw_loop rm th n o ⊑f throw_loop rm' th n o.
Proof.
  induction n as [|n IH]; cbn [throw_loop]; [apply upto_refl|]. repeat fuel_step; try apply IH.
Qed.
#[local] Hint Resolve throw_loop_fuel : fuel.

Lemma do_throw_fuel th : pvm_exec_do_throw rm th ⊑f pvm_exec_do_throw rm' th.
Proof. unfold pvm_exec_do_throw. repeat fuel_step. Qed.
#[local] Hint Resolve do_throw_fuel : fuel.

Lemma sys_fuel th i : pvm_exec_sys K rm th i ⊑f pvm_exec_sys K rm' th i.
Proof. unfold pvm_exec_sys. repeat fuel_step. Qed.
#[local] Hint Resolve sys_fuel : fuel.

Lemma debug_fuel th : exec_debug rm th ⊑f exec_debug rm' th.
Proof. unfold exec_debug. repeat fuel_step. Qed.
#[local] Hint Resolve debug_fuel : fuel.

Lemma default_fuel th i : exec_default K rm th i ⊑f exec_default K rm' th i.
Proof. unfold exec_default. repeat fuel_step. Qed.
#[local] Hint Resolve default_fuel : fuel.

Lemma op_fuel th cur p i op : exec_op K rm th cur p i op ⊑f exec_op K rm' th cur p i op.
Proof. unfold exec_op. destruct op; simpl; repeat fuel_step. Qed.
#[local] Hint Resolve op_fuel : fuel.

Lemma switch_fuel th cur p i : exec_switch K rm th cur p i ⊑f exec_switch K rm' th cur p i.
Proof. unfold exec_switch. destruct (decode i) as [op|]; [destruct op|]; repeat fuel_step. Qed.
#[local] Hint Resolve switch_fuel : fuel.

Lemma turn_fuel th cur p : exec_turn K rm th cur p ⊑f exec_turn K rm' th cur p.
Proof. unfold exec_turn. repeat fuel_step. Qed.
End FuelExec.

Section FuelLoop.
Context (K : kernel).

Lemma run_method_fuel e e' o m args :
  (forall t, e t ⊑f e' t) -> run_method_with e o m args ⊑f run_method_with e' o m args.
Proof. intros He. unfold run_method_with. repeat fuel_step; apply He. Qed.

Lemma exec_with_fuel l l' t :
  (forall t p, l t p ⊑f l' t p) -> exec_with l t ⊑f exec_with l' t.
Proof. intros Hl. unfold exec_with. repeat fuel_step; apply Hl. Qed.

Lemma exec_loop_fuel n m t p : (n <= m)%nat -> exec_loop K n t p ⊑f exec_loop K m t p.
Proof.
  revert m t p. induction n as [|n IH]; intros m t p Hm; cbn [exec_loop]; [apply upto_diverge|].
  destruct m as [|m]; [lia|]. cbn [exec_loop]. apply upto_bind.
  - apply turn_fuel. intros o i args. apply run_method_fuel. intros t'. apply exec_with_fuel.
    intros t2 p2. apply IH. lia.
  - intros [p'|]; [apply IH; lia|apply upto_refl].
Qed.

Lemma pvm_exec_fuel n m t : (n <= m)%nat -> pvm_exec K n t ⊑f pvm_exec K m t.
Proof. intros Hm. apply exec_with_fuel. intros t' p. by apply exec_loop_fuel. Qed.
End FuelLoop.
