(* ===== verification/Turn.v ===== *)
(** * Integer code: what a turn of the interpreter does

    A small abstract machine for the instructions that work on integers and on
    the position in the code, and the proof that [exec_turn] and [exec_loop]
    ([Exec.v], [phantom/vm/exec.c]) implement it on the heap: on every branch,
    the stack underflow panics and the division traps included. *)

From S2P Require Import Prelude Heap Refcount Alloc Opcodes Create Stacks Object Frame Code Exec.

(** ** The abstract machine

    A position in the code and the integers on the stack, the top first. *)

Inductive iresult :=
  | Goes (ip : Z) (l : list Z)     (** the next instruction *)
  | Stops (msg : string)           (** the thread panics *)
  | Traps (why : string).          (** the machine traps *)

Definition underflow : iresult := Stops "stack underflow".

(** The big endian operand at a position. *)
Definition int_at (code : list Z) (i : Z) : option Z :=
  b0 ← code !!z i; b1 ← code !!z (i + 1); b2 ← code !!z (i + 2); b3 ← code !!z (i + 3);
  Some (i32 (b0 * 2 ^ 24 + b1 * 2 ^ 16 + b2 * 2 ^ 8 + b3)).

(** The target of the relative operand at a position. *)
Definition rel_at (code : list Z) (i : Z) : option Z := v ← int_at code i; Some (u32 (i + v)).

(** The value of 32 bits in two's complement. *)
Definition signed (z : Z) : Z := (z + 2 ^ 31) mod 2 ^ 32 - 2 ^ 31.
(** The quotient, rounded to 0; there is none for 0 and where it has 33 bits. *)
Definition quotient (a b : Z) : option Z :=
  if (b =? 0) || ((b =? -1) && (a =? -2147483648)) then None
  else Some (Z.sgn a * Z.sgn b * (Z.abs a / Z.abs b)).

(** The instructions on the two topmost integers, [u] the upper and [v] the lower
    one, and on one. *)
Definition ibinary (op : opcode) : option (Z -> Z -> option Z) :=
  match op with
  | opcode_isum => Some (fun u v => Some (signed (u + v)))
  | opcode_imul => Some (fun u v => Some (signed (u * v)))
  | opcode_isubul => Some (fun u v => Some (signed (u - v)))
  | opcode_isublu => Some (fun u v => Some (signed (v - u)))
  | opcode_idivul => Some (fun u v => quotient u v)
  | opcode_idivlu => Some (fun u v => quotient v u)
  | opcode_ishl => Some (fun u v => Some (signed (u * 2 ^ (v mod 32))))
  | opcode_ishr => Some (fun u v => Some (u / 2 ^ (v mod 32)))
  | opcode_ushr => Some (fun u v => Some (signed (u mod 2 ^ 32 / 2 ^ (v mod 32))))
  | opcode_ior => Some (fun u v => Some (Z.lor u v))
  | opcode_iand => Some (fun u v => Some (Z.land u v))
  | opcode_ixor => Some (fun u v => Some (Z.lxor u v))
  | opcode_log_or => Some (fun u v => Some (if (u =? 0) && (v =? 0) then 0 else 1))
  | opcode_log_and => Some (fun u v => Some (if (u =? 0) || (v =? 0) then 0 else 1))
  | opcode_log_xor => Some (fun u v => Some (if Bool.eqb (u =? 0) (v =? 0) then 0 else 1))
  | opcode_ige => Some (fun u v => Some (if v <? u then 0 else 1))
  | opcode_ile => Some (fun u v => Some (if u <? v then 0 else 1))
  | opcode_igt => Some (fun u v => Some (if v <=? u then 0 else 1))
  | opcode_ilt => Some (fun u v => Some (if u <=? v then 0 else 1))
  | _ => None
  end.
Definition iunary (op : opcode) : option (Z -> Z) :=
  match op with
  | opcode_inot => Some (fun v => - v - 1)
  | opcode_log_not => Some (fun v => if v =? 0 then 1 else 0)
  | _ => None
  end.

Definition iarith (op : opcode) (ip : Z) (l : list Z) : option iresult :=
  match ibinary op, iunary op with
  | Some f, _ =>
      Some match l with
           | u :: v :: l' => match f u v with Some w => Goes ip (w :: l') | None => Traps "division trap" end
           | _ => underflow
           end
  | _, Some f => Some match l with v :: l' => Goes ip (f v :: l') | [] => underflow end
  | _, _ => None
  end.

Definition istack_op (code : list Z) (op : opcode) (ip : Z) (l : list Z) : option iresult :=
  match op with
  | opcode_is_dup => Some match l with v :: _ => Goes ip (v :: l) | [] => underflow end
  | opcode_is_drop => Some match l with _ :: l' => Goes ip l' | [] => underflow end
  | opcode_iconst_0 => Some (Goes ip (0 :: l))
  | opcode_iconst_1 => Some (Goes ip (1 :: l))
  | opcode_iconst_8bit => v ← code !!z ip; Some (Goes (ip + 1) (v :: l))
  | opcode_iconst_32bit => v ← int_at code ip; Some (Goes (ip + 4) (v :: l))
  | opcode_is_get32 => p ← int_at code ip; v ← rev l !!z p; Some (Goes (ip + 4) (v :: l))
  | opcode_is_set32 =>
      p ← int_at code ip;
      match l with
      | v :: l' => l'' ← insertZ p v (rev l'); Some (Goes (ip + 4) (rev l''))
      | [] => Some underflow
      end
  | _ => None
  end.

(** The target of a [switch] at table position [ip]: an entry of the table, or
    behind it. *)
Definition switch_target (code : list Z) (ip tabsize shift divisor top : Z) : option Z :=
  let displ := u32 (i32 (top + shift)) / u32 divisor in
  if displ <? u32 tabsize then rel_at code (u32 (ip + displ * 4))
  else Some (u32 (ip + u32 tabsize * 4)).

Definition iflow (code : list Z) (op : opcode) (ip : Z) (l : list Z) : option iresult :=
  match op with
  | opcode_jmp => ip' ← rel_at code ip; Some (Goes ip' l)
  | opcode_jz =>
      ip' ← rel_at code ip;
      Some match l with v :: l' => Goes (if v =? 0 then ip' else ip + 4) l' | [] => underflow end
  | opcode_djnz =>
      ip' ← rel_at code ip;
      Some match l with
           | v :: l' => let w := i32 (v - 1) in Goes (if w =? 0 then ip + 4 else ip') (w :: l')
           | [] => underflow
           end
  | opcode_switch =>
      tabsize ← int_at code ip; shift ← int_at code (ip + 4); divisor ← int_at code (ip + 8);
      match l with
      | [] => Some underflow
      | v :: l' => if u32 divisor =? 0 then Some (Traps "division trap")
                   else ip' ← switch_target code (ip + 12) tabsize shift divisor v; Some (Goes ip' l')
      end
  | _ => None
  end.

(** The prefixes are recorded and dropped again before the next instruction. *)
Definition iplain (op : opcode) (ip : Z) (l : list Z) : option iresult :=
  match op with
  | opcode_nop | opcode_prefix_long | opcode_prefix_float | opcode_prefix_double => Some (Goes ip l)
  | _ => None
  end.

(** One instruction; [None] if it is not one of these. *)
Definition istep (code : list Z) (ip : Z) (l : list Z) : option iresult :=
  b ← code !!z ip;
  op ← decode b;
  match iarith op (ip + 1) l, istack_op code op (ip + 1) l, iflow code op (ip + 1) l with
  | Some r, _, _ => Some r
  | _, Some r, _ => Some r
  | _, _, Some r => Some r
  | _, _, _ => iplain op (ip + 1) l
  end.

(** [n] instructions. *)
Fixpoint irun (code : list Z) (n : nat) (ip : Z) (l : list Z) : option (Z * list Z) :=
  match n with
  | O => Some (ip, l)
  | S n' => match istep code ip l with Some (Goes ip' l') => irun code n' ip' l' | _ => None end
  end.

(** The arithmetic of the interpreter is that of the machine. *)
Definition same_fun {A B} (f g : option (A -> B)) (eqv : B -> B -> Prop) : Prop :=
  match f, g with Some f, Some g => forall x, eqv (f x) (g x) | None, None => True | _, _ => False end.

Lemma signed_i32 z : signed z = i32 z.
Proof. reflexivity. Qed.

Lemma quotient_div a b : quotient a b = div_signed 32 a b.
Proof.
  unfold quotient, div_signed. change (- 2 ^ (32 - 1)) with (-2147483648).
  rewrite (andb_comm (b =? -1)). destruct (b =? 0) eqn:E; [done|]. simpl.
  destruct ((a =? -2147483648) && (b =? -1)); [done|]. f_equal. symmetry. apply Z.quot_div. lia.
Qed.

Lemma ibinary_ok op : same_fun (int_binop op) (ibinary op) (fun f g => forall v, f v = g v).
Proof.
  destruct op; simpl; try done; intros u v; rewrite ?signed_i32, ?quotient_div; try reflexivity; f_equal;
    first [ apply Z.lor_comm | apply Z.land_comm | apply Z.lxor_comm | f_equal; lia
          | by rewrite ?Z.shiftl_mul_pow2, ?Z.shiftr_div_pow2 by (apply Z.mod_pos_bound; lia)
          | unfold z2b, b2z; by destruct (u =? 0), (v =? 0)
          | unfold b2z; repeat case_match; lia ].
Qed.
Lemma iunary_ok op : same_fun (int_unop op) (iunary op) eq.
Proof. destruct op; simpl; try done; intros v; unfold z2b, b2z; by destruct (v =? 0). Qed.

(** ** Stacks and the rest of the heap *)

(** Only pages of stacks of kind [k] changed, and nothing was freed. *)
Record calm {A} (k : stack_kind A) (s s' : vm) : Prop := {
  cm_wf : heap_wf s';
  cm_env : alloc_env s' = alloc_env s;
  cm_alloc x : is_Some (alloc_at (heap s) x) -> is_Some (alloc_at (heap s') x);
  cm_frame x o : alloc_at (heap s) x = Some o -> (forall d, da o <> sk_put k d) -> alloc_at (heap s') x = Some o;
}.

Section Inv.
Context {A : Type} (k : stack_kind A) `{Hk : !StackLaws k} (chk : bool).
Implicit Types (s : vm) (l : list A).

(** The invariant, with room on the current page. *)
Definition roomy s (r : Z) l : Prop :=
  stack_inv k s r l /\
  exists ps, stack_room k s r ps l /\ data (sk_class k (pvm_root s)) ∉ ps.

Lemma stack_page_put s r ps l x o :
  stack_rep k s r ps l -> x ∈ ps -> alloc_at (heap s) x = Some o -> exists d, da o = sk_put k d.
Proof.
  intros (pre & c & post & H). rewrite (sp_addrs _ _ _ _ _ _ _ _ H).
  intros (p & -> & (l1 & l2 & E)%list_elem_of_split)%list_elem_of_fmap Ho.
  pose proof (sp_chain _ _ _ _ _ _ _ _ H) as Hc. rewrite E in Hc.
  destruct (chain_page k _ _ _ _ _ _ _ Hc) as (d & (o' & Ho' & Hd) & _ & _ & _ & _ & Hsz & _).
  replace o with o' by congruence. destruct (sl_view _ _ Hd) as [Hz|Hp]; [|by exists d].
  destruct sl_zero as [z Hz']. rewrite Hz, Hz' in Hd. by injection Hd as <-.
Qed.

Lemma keeps_calm s s' r ps ps' l l' :
  stack_rep k s r ps l -> keeps ps s s' -> stack_rep k s' r ps' l' -> ps ⊆ ps' -> calm k s s'.
Proof.
  intros Hr [K1 K2 K3] (pre & c & post & H') Hps. split; [done|done| |].
  - intros x [o Ho]. destruct (decide (x ∈ ps)) as [Hx|Hx]; [|eauto]. eapply (page_allocated k); eauto.
  - intros x o Ho Hv. apply K3; [|done]. intros Hx.
    destruct (stack_page_put _ _ _ _ _ _ Hr Hx Ho) as [d Hd]. by destruct (Hv d).
Qed.

Lemma stack_pages_same s s' r ps pre c post l :
  (forall x, x ∈ ps -> alloc_at (heap s') x = alloc_at (heap s) x) ->
  alloc_env s' = alloc_env s -> stack_pages k s r ps pre c post l -> stack_pages k s' r ps pre c post l.
Proof.
  intros Hf He [H1 H2 H3 H4 H5 H6 H7 H8 H9 H10]. split; try done.
  - eapply chain_frame; [|done]. intros a Ha. apply Hf. by rewrite H1.
  - intros a Ha. eapply not_null_env; [done|auto].
  - destruct H9 as (d & Hd & Hr). exists d. split; [|done]. eapply page_da_frame; [|done]. apply Hf.
    rewrite H1, <- H5. destruct pre; simpl; by left.
Qed.

Lemma stack_rep_same s s' r ps l :
  (forall x, x ∈ ps -> alloc_at (heap s') x = alloc_at (heap s) x) ->
  alloc_env s' = alloc_env s -> stack_rep k s r ps l -> stack_rep k s' r ps l.
Proof. intros Hf He (pre & c & post & H). exists pre, c, post. by eapply stack_pages_same. Qed.

(** Writing an object that is neither a page nor a class. *)
Lemma stack_inv_upd s s' a o o' r l :
  stack_inv k s r l -> alloc_at (heap s) a = Some o -> (forall d, da o <> sk_put k d) -> as_class (da o) = None ->
  upd s a o' s' -> stack_inv k s' r l.
Proof.
  intros [Hwf Hnull (c & (oc & Hoc & Hc) & Hcf) (ps & Hr & Hps)] Ha Hv Hn [U1 U2 U3 U4].
  pose proof (env_root _ _ U2) as Er. split; [done| | |].
  - unfold null_ok in *. rewrite Er. destruct Hnull as [?|[on Hon]]; [by left|right].
    destruct (decide (data (null_object (pvm_root s)) = a)) as [->|Hne]; [by exists o'|].
    exists on. by rewrite U4.
  - exists c. split; [|done]. rewrite Er. exists oc. split; [|done]. rewrite U4; [done|].
    intros E. rewrite E in Hoc. simplify_eq.
  - exists ps. rewrite Er. split; [|done]. eapply stack_rep_same; [|done|done].
    intros x Hx. apply U4. intros ->. destruct (stack_page_put _ _ _ _ _ _ Hr Hx Ha) as [d Hd]. by destruct (Hv d).
Qed.

Lemma inv_pop s r l v :
  stack_inv k s r (l ++ [v]) ->
  wp (stack_pop k chk r) s (fun w s' => w = v /\ roomy s' r l /\ calm k s s').
Proof.
  intros Hi. destruct (si_rep _ _ _ _ Hi) as (ps & Hr & Hc).
  eapply wp_mono; [eapply (stack_pop_room k); [apply Hi|done]|].
  intros w s' (-> & Hroom & O). split; [done|].
  assert (stack_inv k s' r l) by by eapply stack_inv_only, room_rep.
  split; [|by eapply keeps_calm; [done|apply only_pages_keeps|apply room_rep|]].
  split; [done|]. exists ps. split; [done|]. by rewrite (env_root _ _ (op_env _ _ _ O)).
Qed.

Lemma inv_top s r l v :
  stack_inv k s r (l ++ [v]) ->
  wp (stack_top k chk r) s (fun w s' => w = v /\ stack_inv k s' r (l ++ [v]) /\ calm k s s').
Proof.
  intros Hi. destruct (si_rep _ _ _ _ Hi) as (ps & Hr & Hc).
  eapply wp_mono; [eapply (stack_top_spec k); [apply Hi|done]|].
  intros w s' (-> & Hr' & O). split_and!; [done|by eapply stack_inv_only|].
  by eapply keeps_calm; [done|apply only_pages_keeps|..].
Qed.

Lemma inv_push s r l v :
  stack_inv k s r l ->
  wpe (eq oom) (stack_push k chk r v) s (fun _ s' => stack_inv k s' r (l ++ [v]) /\ calm k s s').
Proof.
  intros Hi. destruct (si_rep _ _ _ _ Hi) as (ps & Hr & Hc).
  eapply wpe_mono; [by eapply (stack_push_spec k); [apply Hi..|]|].
  intros [] s' (fresh & Hr' & Hk' & Hf). split; [by eapply stack_inv_keeps|].
  eapply keeps_calm; [done..|]. intros x Hx. apply elem_of_app. by left.
Qed.

Lemma inv_push_room s r l v :
  roomy s r l ->
  wp (stack_push k chk r v) s (fun _ s' => stack_inv k s' r (l ++ [v]) /\ calm k s s').
Proof.
  intros [Hi (ps & Hr & Hc)]. eapply wp_mono; [by eapply (stack_push_room k); [apply Hi|]|].
  intros [] s' [Hr' O]. apply room_rep in Hr.
  split; [by eapply stack_inv_only|by eapply keeps_calm; [done|apply only_pages_keeps|..]].
Qed.
End Inv.

(** ** The machine on the heap *)

(** The thread at another position. *)
Definition at_ip (ip : Z) (t : da_thread) : da_thread := set_th_code (set_IP ip (th_code t)) t.

(** The thread [th] with data area [t] runs [code] and its integer stack is [l]. *)
Record machine (s : vm) (th : Z) (t : da_thread) (code_ : list Z) (l : list Z) : Prop := {
  mc_thread : exists o, alloc_at (heap s) th = Some o /\ da o = DA_thread t;
  mc_code : exists o n, alloc_at (heap s) (code (th_code t)) = Some o /\ da o = DA_code n code_;
  mc_max : IP_max (th_code t) = Z.of_nat (length code_);
  mc_size : Z.of_nat (length code_) < 2 ^ 31;
  mc_bytes : Forall (fun b => 0 <= b < 256) code_;
  mc_stack : stack_inv istack_kind s (_istack t) (rev l);
  mc_snap : snap_request s = false;
}.

(** Nothing but the thread and the pages of integer stacks changed. *)
Record quiet (th : Z) (s s' : vm) : Prop := {
  qt_env : alloc_env s' = alloc_env s;
  qt_frame x o : x <> th -> alloc_at (heap s) x = Some o -> as_istack (da o) = None ->
    alloc_at (heap s') x = Some o;
}.

(** [m] does what the abstract instruction says; memory can run out only where
    the stack grows beyond the [n] integers it had. *)
Definition does {B} (m : M vm B) (s : vm) (th : Z) (t : da_thread) (code_ : list Z) (n : nat)
    (r : iresult) (good : B -> Prop) : Prop :=
  match r with
  | Goes ip l =>
      wpe (fun msg => msg = oom /\ (n < length l)%nat) m s (fun b s' =>
        good b /\ machine s' th (at_ip ip t) code_ l /\ quiet th s s')
  | Stops msg => m s = Panic msg
  | Traps why => m s = Fault why
  end.

Section Machine.
Implicit Types (s : vm) (t : da_thread).

Lemma quiet_refl th s : quiet th s s.
Proof. by split. Qed.

Lemma quiet_trans th s1 s2 s3 : quiet th s1 s2 -> quiet th s2 s3 -> quiet th s1 s3.
Proof. intros [A1 A2] [B1 B2]. split; [congruence|auto]. Qed.

Lemma calm_quiet th s s' : calm istack_kind s s' -> quiet th s s'.
Proof. intros [_ C1 _ C2]. split; [done|]. intros x o _ Ho Hv. apply C2; [done|]. intros d E. by rewrite E in Hv. Qed.

Lemma env_snap s s' : alloc_env s' = alloc_env s -> snap_request s' = snap_request s.
Proof. unfold alloc_env. congruence. Qed.

(** A step on the integer stack. *)
Lemma machine_calm s s' th t code_ l l' :
  machine s th t code_ l -> calm istack_kind s s' -> stack_inv istack_kind s' (_istack t) (rev l') ->
  machine s' th t code_ l'.
Proof.
  intros [(o & Ho & Hd) (oc & n & Hoc & Hdc) M3 M4 M5 M6 M7] [_ C1 _ C2] Hi. split; try done.
  - exists o. split; [|done]. apply C2; [done|]. by rewrite Hd.
  - exists oc, n. split; [|done]. apply C2; [done|]. by rewrite Hdc.
  - by rewrite (env_snap _ _ C1).
Qed.

Lemma wp_load_thread s th t code_ l (Q : da_thread -> vm -> Prop) :
  machine s th t code_ l -> Q t s -> wp (load_thread th) s Q.
Proof.
  intros H HQ. destruct (mc_thread _ _ _ _ _ H) as (o & Ho & Hd).
  eapply wp_load_da; [by apply heap_of_alloc|by rewrite Hd|done].
Qed.

(** Storing the thread with another position. *)
Lemma wp_set_ip s th t code_ l ip (Q : unit -> vm -> Prop) :
  machine s th t code_ l ->
  (forall s', machine s' th (at_ip ip t) code_ l -> quiet th s s' -> Q tt s') ->
  wp (store_thread th (at_ip ip t)) s Q.
Proof.
  intros [(o & Ho & Hd) (oc & n & Hoc & Hdc) M3 M4 M5 M6 M7] HQ.
  eapply wp_update_da; [apply M6|done|]. intros s' U. pose proof U as [U1 U2 U3 U4]. apply HQ.
  - split; try done.
    + by eexists.
    + exists oc, n. simpl. split; [|done]. rewrite U4; [done|]. intros E. rewrite E in Hoc. simplify_eq. congruence.
    + eapply (stack_inv_upd istack_kind); [done|exact Ho|intros d; by rewrite Hd|by rewrite Hd|done].
    + by rewrite (env_snap _ _ U2).
  - split; [done|]. intros x ox Hx Hox _. by rewrite U4.
Qed.

Lemma wp_fetch {A} (f : code_handler -> M vm (A * code_handler)) s th t code_ l v ip (Q : A -> vm -> Prop) :
  machine s th t code_ l -> f (th_code t) s = Ret (v, set_IP ip (th_code t)) s ->
  (forall s', machine s' th (at_ip ip t) code_ l -> quiet th s s' -> Q v s') ->
  wp (fetch th f) s Q.
Proof.
  intros H Hf HQ. unfold fetch. wp_step. eapply wp_load_thread; [done|]. wp_step.
  exists (v, set_IP ip (th_code t)), s. split; [done|]. wp_step. eapply wp_load_thread; [done|].
  wp_step. eapply wp_set_ip; [done|]. intros s' H' Hq. wp_step. auto.
Qed.

Lemma machine_code s th t code_ l : machine s th t code_ l -> exists n, code_obj s (th_code t) n code_.
Proof.
  intros H. destruct (mc_code _ _ _ _ _ H) as (o & n & Ho & Hd). exists n, o.
  split; [by apply heap_of_alloc|by rewrite Hd].
Qed.

Lemma get_byte_reads s th t code_ l b (Q : Z -> vm -> Prop) :
  machine s th t code_ l -> code_ !!z IP (th_code t) = Some b ->
  (forall s', machine s' th (at_ip (IP (th_code t) + 1) t) code_ l -> quiet th s s' -> Q b s') ->
  wp (get_byte th) s Q.
Proof.
  intros H Hb HQ. pose proof (lookupZ_bound _ _ _ Hb). pose proof (mc_max _ _ _ _ _ H). pose proof (mc_size _ _ _ _ _ H).
  destruct (machine_code _ _ _ _ _ H) as [n Hc]. eapply wp_fetch; [done| |done].
  unfold pvm_code_get_byte, pvm_code_check_bounds, mbind at 1, M_bind at 1.
  destruct (Z.ltb_spec (IP_max (th_code t)) (IP (th_code t))); [lia|]. simpl.
  destruct Hc as (o & Ho & Hd). unfold code_at, load_da, load, mbind, M_bind. rewrite Ho. simpl.
  rewrite Hd. simpl. rewrite Hb. simpl. by rewrite u32_id by lia.
Qed.

(** Four bytes are the encoding of the operand they hold. *)
Lemma be32_bytes b0 b1 b2 b3 :
  0 <= b0 < 256 -> 0 <= b1 < 256 -> 0 <= b2 < 256 -> 0 <= b3 < 256 ->
  be32 (i32 (b0 * 2 ^ 24 + b1 * 2 ^ 16 + b2 * 2 ^ 8 + b3)) = [b0; b1; b2; b3].
Proof.
  intros. unfold be32, u8, i32. rewrite !wrapU_mod, wrapS_mod, !Z.shiftr_div_pow2 by done.
  change (2 ^ (32 - 1)) with 2147483648. change (2 ^ 32) with 4294967296. change (2 ^ 24) with 16777216.
  change (2 ^ 16) with 65536. change (2 ^ 8) with 256.
  repeat f_equal; Z.to_euclidean_division_equations; lia.
Qed.

Lemma int_at_split code_ i v :
  Forall (fun b => 0 <= b < 256) code_ -> int_at code_ i = Some v ->
  exists pre post, code_ = pre ++ be32 v ++ post /\ i = Z.of_nat (length pre) /\ - 2 ^ 31 <= v < 2 ^ 31.
Proof.
  rewrite list.Forall_lookup. intros Hb. unfold int_at.
  destruct (code_ !!z i) as [b0|] eqn:E0; [|done]. destruct (code_ !!z (i + 1)) as [b1|] eqn:E1; [|done].
  destruct (code_ !!z (i + 2)) as [b2|] eqn:E2; [|done]. destruct (code_ !!z (i + 3)) as [b3|] eqn:E3; [|done].
  apply lookupZ_Some in E0 as [Hi E0], E1 as [_ E1], E2 as [_ E2], E3 as [_ E3].
  cbn [mbind option_bind]. intros H. injection H as <-.
  exists (take (Z.to_nat i) code_), (drop (Z.to_nat (i + 4)) code_).
  rewrite be32_bytes by eauto. split_and!; [|rewrite length_take; apply lookup_lt_Some in E0; lia|apply i32_range..].
  rewrite <- (take_drop (Z.to_nat i) code_) at 1. f_equal.
  erewrite (drop_S code_), (drop_S code_ b1), (drop_S code_ b2), (drop_S code_ b3);
    [|by replace (S (S (S (Z.to_nat i)))) with (Z.to_nat (i + 3)) by lia
     |by replace (S (S (Z.to_nat i))) with (Z.to_nat (i + 2)) by lia
     |by replace (S (Z.to_nat i)) with (Z.to_nat (i + 1)) by lia|done].
  simpl. do 4 f_equal. f_equal. lia.
Qed.
End Machine.

(** ** Operands and integers *)

Section Operands.
Implicit Types (s : vm) (t : da_thread).

Lemma int_at_bound code_ i v : int_at code_ i = Some v -> 0 <= i /\ i + 3 < Z.of_nat (length code_).
Proof.
  unfold int_at. destruct (code_ !!z i) eqn:E0; [|done]. destruct (code_ !!z (i + 1)); [|done].
  destruct (code_ !!z (i + 2)); [|done]. destruct (code_ !!z (i + 3)) eqn:E3; [|done].
  apply lookupZ_bound in E0, E3. lia.
Qed.

Lemma code_get_int32 s th t code_ l v :
  machine s th t code_ l -> int_at code_ (IP (th_code t)) = Some v ->
  pvm_code_get_int32 (th_code t) s = Ret (v, set_IP (IP (th_code t) + 4) (th_code t)) s.
Proof.
  intros H Hv. pose proof (int_at_bound _ _ _ Hv). pose proof (mc_max _ _ _ _ _ H). pose proof (mc_size _ _ _ _ _ H).
  destruct (machine_code _ _ _ _ _ H) as [n Hc].
  destruct (int_at_split _ _ _ (mc_bytes _ _ _ _ _ H) Hv) as (pre & post & E & Hi & Hr). rewrite E in Hc.
  destruct (get_int32_spec s (th_code t) n pre v post) as (r & s' & Hg & -> & ->); try done; lia.
Qed.

Lemma get_int32_reads s th t code_ l v (Q : Z -> vm -> Prop) :
  machine s th t code_ l -> int_at code_ (IP (th_code t)) = Some v ->
  (forall s', machine s' th (at_ip (IP (th_code t) + 4) t) code_ l -> quiet th s s' -> Q v s') ->
  wp (get_int32 th) s Q.
Proof. intros H Hv HQ. eapply wp_fetch; [done|by eapply code_get_int32|done]. Qed.

Lemma get_rel_reads s th t code_ l ip' (Q : Z -> vm -> Prop) :
  machine s th t code_ l -> rel_at code_ (IP (th_code t)) = Some ip' ->
  (forall s', machine s' th (at_ip (IP (th_code t) + 4) t) code_ l -> quiet th s s' -> Q ip' s') ->
  wp (get_rel th) s Q.
Proof.
  intros H Hr HQ. unfold rel_at in Hr. destruct (int_at _ _) as [v|] eqn:Hv; [|done].
  simpl in Hr. injection Hr as <-. pose proof (int_at_bound _ _ _ Hv). pose proof (mc_size _ _ _ _ _ H).
  eapply wp_fetch; [done| |done].
  unfold pvm_code_get_rel_IP_as_abs, mbind, M_bind. erewrite code_get_int32 by done. simpl.
  by rewrite i32_id by lia.
Qed.

Lemma jump_goes s th t code_ l ip (Q : unit -> vm -> Prop) :
  machine s th t code_ l ->
  (forall s', machine s' th (at_ip (u32 ip) t) code_ l -> quiet th s s' -> Q tt s') ->
  wp (jump th ip) s Q.
Proof.
  intros H HQ. unfold jump. wp_step. eapply wp_load_thread; [done|]. by eapply wp_set_ip.
Qed.

(** The machine with room on its stack. *)
Definition roomy_machine s th t code_ l : Prop :=
  machine s th t code_ l /\ roomy istack_kind s (_istack t) (rev l).

Lemma is_pop_pops s th t code_ v l :
  machine s th t code_ (v :: l) ->
  wp (is_pop th) s (fun w s' => w = v /\ roomy_machine s' th t code_ l /\ quiet th s s').
Proof.
  intros H. unfold is_pop. wp_step. eapply wp_load_thread; [done|].
  eapply wp_mono; [apply (inv_pop istack_kind), H|]. intros w s' (-> & Hr & Hc).
  split_and!; [done| |by apply calm_quiet]. split; [|done]. eapply machine_calm; [done..|apply Hr].
Qed.

Lemma is_top_reads s th t code_ v l :
  machine s th t code_ (v :: l) ->
  wp (is_top th) s (fun w s' => w = v /\ machine s' th t code_ (v :: l) /\ quiet th s s').
Proof.
  intros H. unfold is_top. wp_step. eapply wp_load_thread; [done|].
  eapply wp_mono; [apply (inv_top istack_kind), H|]. intros w s' (-> & Hr & Hc).
  split_and!; [done| |by apply calm_quiet]. by eapply machine_calm.
Qed.

Lemma is_push_room s th t code_ v l :
  roomy_machine s th t code_ l ->
  wp (is_push th v) s (fun _ s' => machine s' th t code_ (v :: l) /\ quiet th s s').
Proof.
  intros [H Hr]. unfold is_push. wp_step. eapply wp_load_thread; [done|].
  eapply wp_mono; [by apply (inv_push_room istack_kind)|]. intros [] s' (Hi & Hc).
  split; [|by apply calm_quiet]. by eapply machine_calm.
Qed.

Lemma is_push_grows s th t code_ v l :
  machine s th t code_ l ->
  wpe (eq oom) (is_push th v) s (fun _ s' => machine s' th t code_ (v :: l) /\ quiet th s s').
Proof.
  intros H. unfold is_push. apply wpe_bind, wp_wpe. eapply wp_load_thread; [done|].
  eapply wpe_mono; [apply (inv_push istack_kind), H|]. intros [] s' (Hi & Hc).
  split; [|by apply calm_quiet]. by eapply machine_calm.
Qed.

Lemma is_pop_empty s th t code_ : machine s th t code_ [] -> is_pop th s = Panic "stack underflow".
Proof.
  intros H. unfold is_pop. eapply wp_bind_eq; [eapply (wp_load_thread _ _ _ _ _ (fun t' s' => t' = t /\ s' = s)); done|].
  intros ? ? [-> ->]. destruct (si_rep _ _ _ _ (mc_stack _ _ _ _ _ H)) as (ps & Hr & _).
  by eapply (pop_empty istack_kind).
Qed.

Lemma is_top_empty s th t code_ : machine s th t code_ [] -> is_top th s = Panic "stack underflow".
Proof.
  intros H. unfold is_top. eapply wp_bind_eq; [eapply (wp_load_thread _ _ _ _ _ (fun t' s' => t' = t /\ s' = s)); done|].
  intros ? ? [-> ->]. destruct (si_rep _ _ _ _ (mc_stack _ _ _ _ _ H)) as (ps & Hr & _).
  by eapply (top_empty istack_kind).
Qed.
End Operands.

(** ** The groups of instructions *)

Section Groups.
Context (th : Z) (code_ : list Z).
Implicit Types (s : vm) (t : da_thread) (l : list Z).

Lemma at_ip_id t : at_ip (IP (th_code t)) t = t.
Proof. by destruct t as [[]]. Qed.

Lemma does_bind {A B} (m : M vm A) (k : A -> M vm B) s t n r good :
  wp m s (fun a s' => quiet th s s' /\ does (k a) s' th t code_ n r good) ->
  does (m ≫= k) s th t code_ n r good.
Proof.
  intros H. destruct r as [ip l|msg|why]; simpl.
  - apply wpe_bind, wp_wpe. eapply wp_mono; [exact H|]. intros a s' [Hq Hd].
    eapply wpe_mono; [exact Hd|]. intros b s2 (? & ? & ?). split_and!; [done..|by eapply quiet_trans].
  - eapply wp_bind_eq; [exact H|]. by intros a s' [_ Hd].
  - eapply wp_bind_eq; [exact H|]. by intros a s' [_ Hd].
Qed.

Lemma does_wp {B} (m : M vm B) s t n ip l (good : B -> Prop) :
  wp m s (fun b s' => good b /\ machine s' th (at_ip ip t) code_ l /\ quiet th s s') ->
  does m s th t code_ n (Goes ip l) good.
Proof. apply wp_wpe. Qed.

Lemma does_ret {B} (b : B) s t n l (good : B -> Prop) :
  machine s th t code_ l -> good b -> does (mret b) s th t code_ n (Goes (IP (th_code t)) l) good.
Proof. intros H Hg. apply does_wp. wp_step. rewrite at_ip_id. split_and!; [done|done|apply quiet_refl]. Qed.

(** What follows an instruction cannot fail. *)
Lemma does_then {A B} (m : M vm A) (b : B) s t n r (good : B -> Prop) :
  does m s th t code_ n r (fun _ => True) -> good b -> does (m;; mret b) s th t code_ n r good.
Proof.
  intros H Hg. destruct r; simpl in *.
  - apply wpe_bind. eapply wpe_mono; [exact H|]. intros ? s' (_ & ? & ?). by apply wpe_ret.
  - unfold mbind, M_bind. by rewrite H.
  - unfold mbind, M_bind. by rewrite H.
Qed.

Lemma does_push v s t n l :
  machine s th t code_ l -> (n <= length l)%nat ->
  does (is_push th v) s th t code_ n (Goes (IP (th_code t)) (v :: l)) (fun _ => True).
Proof.
  intros H Hn. simpl. rewrite at_ip_id. eapply wpe_weaken; [eapply wpe_mono; [by apply is_push_grows|]|].
  - intros [] s' [? ?]. done.
  - intros msg <-. split; [done|]. lia.
Qed.

Lemma does_push_room v s t n l :
  roomy_machine s th t code_ l ->
  does (is_push th v) s th t code_ n (Goes (IP (th_code t)) (v :: l)) (fun _ => True).
Proof.
  intros H. apply does_wp. rewrite at_ip_id. eapply wp_mono; [by apply is_push_room|].
  intros [] s' [? ?]. done.
Qed.

(** A pop in front, on every branch. *)
Lemma does_pop {B} (k : Z -> M vm B) s t n l r good :
  machine s th t code_ l ->
  match l with
  | [] => r = underflow
  | v :: l' => forall s', roomy_machine s' th t code_ l' -> does (k v) s' th t code_ n r good
  end ->
  does (is_pop th ≫= k) s th t code_ n r good.
Proof.
  intros H Hk. destruct l as [|v l].
  - subst r. simpl. unfold mbind, M_bind. by erewrite is_pop_empty.
  - apply does_bind. eapply wp_mono; [by apply is_pop_pops|]. intros w s' (-> & Hr & Hq). auto.
Qed.

(** An operand in front. *)
Lemma does_int {B} (k : Z -> M vm B) s t n l r good v :
  machine s th t code_ l -> int_at code_ (IP (th_code t)) = Some v ->
  (forall s', machine s' th (at_ip (IP (th_code t) + 4) t) code_ l ->
    does (k v) s' th (at_ip (IP (th_code t) + 4) t) code_ n r good) ->
  does (get_int32 th ≫= k) s th t code_ n r good.
Proof.
  intros H Hv Hk. apply does_bind. eapply get_int32_reads; [done..|]. intros s' H' Hq. split; [done|]. by apply Hk.
Qed.

Lemma does_rel {B} (k : Z -> M vm B) s t n l r good ip :
  machine s th t code_ l -> rel_at code_ (IP (th_code t)) = Some ip ->
  (forall s', machine s' th (at_ip (IP (th_code t) + 4) t) code_ l ->
    does (k ip) s' th (at_ip (IP (th_code t) + 4) t) code_ n r good) ->
  does (get_rel th ≫= k) s th t code_ n r good.
Proof.
  intros H Hv Hk. apply does_bind. eapply get_rel_reads; [done..|]. intros s' H' Hq. split; [done|]. by apply Hk.
Qed.

Lemma does_jump s t n l ip :
  machine s th t code_ l -> does (jump th ip) s th t code_ n (Goes (u32 ip) l) (fun _ => True).
Proof. intros H. apply does_wp. eapply jump_goes; [done|]. done. Qed.

Lemma arith_does s t l op m r :
  machine s th t code_ l -> exec_arith th op = Some m -> iarith op (IP (th_code t)) l = Some r ->
  does m s th t code_ (length l) r (fun _ => True).
Proof.
  unfold exec_arith, iarith. intros H. pose proof (ibinary_ok op) as Hb. pose proof (iunary_ok op) as Hu.
  destruct (int_binop op) as [f|], (ibinary op) as [g|]; try done;
    [|destruct (int_unop op) as [f|], (iunary op) as [g|]; try done]; intros [= <-] [= <-].
  - eapply does_pop; [done|]. destruct l as [|u l]; [done|]. intros s1 [H1 _].
    eapply does_pop; [done|]. destruct l as [|v l]; [done|]. intros s2 H2.
    rewrite <-(Hb u v). destruct (f u v) as [w|]; simpl; [|done]. change (mbind ?k (mret w)) with (k w). by apply does_push_room.
  - eapply does_pop; [done|]. destruct l as [|v l]; [done|]. intros s1 H1. rewrite <-(Hu v). by apply does_push_room.
Qed.
End Groups.

Section Groups2.
Context (th : Z) (code_ : list Z).
Implicit Types (s : vm) (t : da_thread) (l : list Z).

Lemma iget_does s t n l p v :
  machine s th t code_ l -> rev l !!z p = Some v -> p < 2 ^ 31 -> (n <= length l)%nat ->
  does (pvm_exec_iget th (u32 p)) s th t code_ n (Goes (IP (th_code t)) (v :: l)) (fun _ => True).
Proof.
  intros H Hv Hp Hn. pose proof (lookupZ_bound _ _ _ Hv). unfold pvm_exec_iget.
  apply does_bind. eapply wp_load_thread; [done|]. split; [apply quiet_refl|].
  apply does_bind. rewrite i32_of_u32 by lia.
  destruct (si_rep _ _ _ _ (mc_stack _ _ _ _ _ H)) as (ps & Hr & _).
  eapply wp_mono; [by apply (stack_abs_get_spec istack_kind _ _ _ _ _ _ v Hr)|].
  intros w s' [-> ->]. split; [apply quiet_refl|]. by apply does_push.
Qed.

Lemma iset_does s t n l p :
  machine s th t code_ l ->
  match l with
  | [] => does (pvm_exec_iset th p) s th t code_ n underflow (fun _ => True)
  | v :: l' => forall l'', insertZ (i32 p) v (rev l') = Some l'' ->
      does (pvm_exec_iset th p) s th t code_ n (Goes (IP (th_code t)) (rev l'')) (fun _ => True)
  end.
Proof.
  intros H. destruct l as [|v l]; [by eapply does_pop|]. intros l'' Hl.
  eapply does_pop; [done|]. intros s1 [H1 _]. apply does_bind. eapply wp_load_thread; [done|].
  split; [apply quiet_refl|]. apply does_wp. rewrite at_ip_id.
  pose proof (mc_stack _ _ _ _ _ H1) as Hi. destruct (si_rep _ _ _ _ Hi) as (ps & Hr & Hc).
  unfold insertZ in Hl. destruct (Z.leb_spec 0 (i32 p)); [|done].
  destruct (Z.ltb_spec (i32 p) (Z.of_nat (length (rev l)))); [|done]. injection Hl as <-.
  destruct (lookupZ_is_Some (rev l) (i32 p)) as [w Hw]; [lia|]. pose proof (i32_range p).
  eapply wp_mono; [eapply (stack_abs_set_spec istack_kind _ _ s1 _ ps _ _ v w); [apply Hi|done|done|lia|by wp_step]|].
  intros [] s2 [Hr2 O]. rewrite <- (rev_involutive (<[_ := _]> _)) in Hr2.
  assert (calm istack_kind s1 s2) by by eapply (keeps_calm istack_kind); [done|apply only_pages_keeps|..].
  split_and!; [done| |by apply calm_quiet].
  eapply machine_calm; [done..|]. by eapply (stack_inv_only istack_kind).
Qed.

Lemma istack_does s t l op m r :
  machine s th t code_ l -> exec_istack th false op = Some m ->
  istack_op code_ op (IP (th_code t)) l = Some r ->
  does m s th t code_ (length l) r (fun _ => True).
Proof.
  intros H Hm Hr. destruct op; try discriminate Hr; cbn [exec_istack istack_op] in *; injection Hm as <-.
  - injection Hr as <-. destruct l as [|v l].
    { simpl. unfold mbind, M_bind. by erewrite is_top_empty. }
    apply does_bind. eapply wp_mono; [by eapply is_top_reads|]. intros w s' (-> & H' & Hq).
    split; [done|]. by apply does_push.
  - injection Hr as <-. eapply does_pop; [done|]. destruct l as [|v l]; [done|]. intros s' [H' _]. by apply does_ret.
  - injection Hr as <-. apply does_then; [|done]. by apply does_push.
  - injection Hr as <-. apply does_then; [|done]. by apply does_push.
  - destruct (code_ !!z _) as [v|] eqn:Hv; [|discriminate Hr]. injection Hr as <-. apply does_bind.
    eapply get_byte_reads; [done..|]. intros s' H' Hq. split; [done|]. by apply (does_push _ _ v _ _ _ _ H').
  - destruct (int_at _ _) as [v|] eqn:Hv; [|discriminate Hr]. injection Hr as <-.
    eapply does_int; [done..|]. intros s' H'. by apply (does_push _ _ v _ _ _ _ H').
  - destruct (int_at _ _) as [p|] eqn:Hp; [|discriminate Hr]. cbn [mbind option_bind] in Hr.
    destruct (_ !!z p) as [v|] eqn:Hv; [|discriminate Hr]. injection Hr as <-.
    eapply does_int; [done..|]. intros s' H'.
    destruct (int_at_split _ _ _ (mc_bytes _ _ _ _ _ H) Hp) as (_ & _ & _ & _ & ?).
    apply (iget_does _ _ _ _ _ _ H'); [done|lia|done].
  - destruct (int_at _ _) as [p|] eqn:Hp; [|discriminate Hr]. cbn [mbind option_bind] in Hr.
    eapply does_int; [done..|]. intros s' H'. pose proof (iset_does _ _ (length l) _ (u32 p) H') as Hs.
    destruct (int_at_split _ _ _ (mc_bytes _ _ _ _ _ H) Hp) as (_ & _ & _ & _ & ?). rewrite i32_of_u32 in Hs by lia.
    destruct l as [|v l]; [injection Hr as <-; exact Hs|].
    destruct (insertZ p v (rev l)) as [l''|] eqn:El; [|discriminate Hr]. injection Hr as <-. by apply Hs.
Qed.
End Groups2.

Section Groups3.
Context (th : Z) (code_ : list Z).
Implicit Types (s : vm) (t : da_thread) (l : list Z).

Lemma rel_at_range i ip : rel_at code_ i = Some ip -> 0 <= ip < 2 ^ 32.
Proof. unfold rel_at. destruct (int_at _ _); [|done]. intros [= <-]. apply u32_range. Qed.

(** A jump to the target an operand gave. *)
Lemma does_jump_to s t n l i ip :
  machine s th t code_ l -> rel_at code_ i = Some ip ->
  does (jump th ip) s th t code_ n (Goes ip l) (fun _ => True).
Proof. intros H Hip. rewrite <- (u32_id ip) at 2 by by eapply rel_at_range. by apply does_jump. Qed.

Lemma switch_does s t n l tabsize shift divisor v ip' :
  machine s th t code_ l -> u32 divisor <> 0 ->
  switch_target code_ (IP (th_code t)) tabsize shift divisor v = Some ip' ->
  does (t ← load_thread th;
        let start_table_IP := IP (th_code t) in
        displ ← some_or_fault
          (if u32 divisor =? 0 then None else Some (u32 (i32 (v + shift)) / u32 divisor))
          "division trap";
        new_IP ← (if displ <? u32 tabsize then
                    jump th (start_table_IP + displ * 4);; get_rel th
                  else mret (u32 (start_table_IP + u32 tabsize * 4)));
        jump th new_IP) s th t code_ n (Goes ip' l) (fun _ => True).
Proof.
  intros H Hd Ht. apply does_bind. eapply wp_load_thread; [done|]. split; [apply quiet_refl|].
  destruct (Z.eqb_spec (u32 divisor) 0); [done|]. cbn [some_or_fault]. apply does_bind. wp_step.
  split; [apply quiet_refl|]. unfold switch_target in Ht. destruct (_ <? _).
  - apply does_bind. wp_step. eapply jump_goes; [done|]. intros s1 H1 Q1.
    eapply get_rel_reads; [done..|]. intros s2 H2 Q2. split; [by eapply quiet_trans|].
    exact (does_jump_to _ _ n _ _ _ H2 Ht).
  - injection Ht as <-. apply does_bind. wp_step. split; [apply quiet_refl|].
    rewrite <- (u32_id (u32 (_ + _))) at 2 by apply u32_range. by apply does_jump.
Qed.

Lemma flow_does s t l op m r :
  machine s th t code_ l -> exec_flow th op = Some m -> iflow code_ op (IP (th_code t)) l = Some r ->
  does m s th t code_ (length l) r (fun _ => True).
Proof.
  intros H Hm Hr. destruct op; try discriminate Hr; cbn [exec_flow iflow] in *; injection Hm as <-.
  - destruct (rel_at _ _) as [ip|] eqn:Hip; [|discriminate Hr]. injection Hr as <-.
    eapply does_rel; [done..|]. intros s1 H1.
    eapply does_pop; [done|]. destruct l as [|v l]; [done|]. intros s2 H2.
    apply does_bind. eapply wp_mono; [by eapply is_push_room|]. intros [] s3 [H3 Q3]. split; [done|].
    apply does_bind. eapply wp_mono; [by eapply is_top_reads|]. intros w s4 (-> & H4 & Q4). split; [done|].
    cbv zeta. destruct (_ =? 0); [exact (does_ret _ _ tt _ _ _ _ _ H4 I)|exact (does_jump_to _ _ _ _ _ _ H4 Hip)].
  - destruct (rel_at _ _) as [ip|] eqn:Hip; [|discriminate Hr]. injection Hr as <-.
    eapply does_rel; [done..|]. intros s1 H1.
    eapply does_pop; [done|]. destruct l as [|v l]; [done|]. intros s2 [H2 _].
    destruct (v =? 0); [exact (does_jump_to _ _ _ _ _ _ H2 Hip)|exact (does_ret _ _ tt _ _ _ _ _ H2 I)].
  - destruct (rel_at _ _) as [ip|] eqn:Hip; [|discriminate Hr]. injection Hr as <-.
    eapply does_rel; [done..|]. intros s1 H1. exact (does_jump_to _ _ _ _ _ _ H1 Hip).
  - destruct (int_at _ (IP _)) as [tab|] eqn:E1; [|discriminate Hr]. cbn [mbind option_bind] in Hr.
    destruct (int_at _ (_ + 4)) as [sh|] eqn:E2; [|discriminate Hr]. cbn [mbind option_bind] in Hr.
    destruct (int_at _ (_ + 8)) as [dv|] eqn:E3; [|discriminate Hr]. cbn [mbind option_bind] in Hr.
    eapply does_int; [done..|]. intros s1 H1. eapply does_int; [done|exact E2|]. intros s2 H2.
    eapply does_int; [done|simpl; by rewrite <- Z.add_assoc|]. intros s3 H3. simpl in H3.
    replace (IP (th_code t) + 4 + 4 + 4) with (IP (th_code t) + 12) in H3 by lia.
    lazymatch goal with |- does ?m _ _ _ _ ?n _ ?g =>
      change (does m s3 th (at_ip (IP (th_code t) + 12) t) code_ n r g) end.
    eapply does_pop; [exact H3|]. destruct l as [|v l]; [by injection Hr as <-|]. intros s4 [H4 _].
    destruct (Z.eqb_spec (u32 dv) 0) as [Hz|Hz].
    + injection Hr as <-. eapply does_bind, wp_load_thread; [done|]. split; [apply quiet_refl|]. done.
    + destruct (switch_target _ _ _ _ _ _) as [ip|] eqn:Et; [|discriminate Hr]. injection Hr as <-.
      pose proof (switch_does _ _ (length (v :: l)) _ _ _ _ _ _ H4 Hz Et) as Hs.
      destruct (Z.eqb_spec (u32 dv) 0); [done|]. exact Hs.
Qed.
End Groups3.

(** ** A turn and the loop *)

Section Turns.
Context (K : kernel) (rm : pvm_object -> Z -> list pvm_object -> M vm pvm_object).
Context (th : Z) (cur : pvm_object).

(** The instruction is found in its group. *)
Lemma op_arith i op m : exec_arith th op = Some m -> exec_op K rm th cur no_prefix i op = m.
Proof. intros Hm. destruct op; try discriminate Hm; injection Hm as <-; reflexivity. Qed.
Lemma op_istack i op m : exec_istack th false op = Some m -> exec_op K rm th cur no_prefix i op = m.
Proof. unfold exec_op. simpl. by intros ->. Qed.
Lemma op_flow i op m : exec_flow th op = Some m -> exec_op K rm th cur no_prefix i op = m.
Proof. intros Hm. destruct op; try discriminate Hm; injection Hm as <-; reflexivity. Qed.

Lemma switch_op i op r ip l code_ :
  decode i = Some op ->
  (iarith op ip l = Some r \/ istack_op code_ op ip l = Some r \/ iflow code_ op ip l = Some r) ->
  exec_switch K rm th cur no_prefix i = (exec_op K rm th cur no_prefix i op;; mret (Some no_prefix)).
Proof. unfold exec_switch. intros ->. destruct op; simpl; naive_solver. Qed.

Lemma arith_exists op ip l r : iarith op ip l = Some r -> exists m, exec_arith th op = Some m.
Proof.
  unfold iarith, exec_arith. pose proof (ibinary_ok op). pose proof (iunary_ok op).
  destruct (int_binop op), (ibinary op), (int_unop op), (iunary op); naive_solver.
Qed.
Lemma istack_exists code_ op ip l r : istack_op code_ op ip l = Some r -> exists m, exec_istack th false op = Some m.
Proof. destruct op; simpl; intros; try discriminate; by eexists. Qed.
Lemma flow_exists code_ op ip l r : iflow code_ op ip l = Some r -> exists m, exec_flow th op = Some m.
Proof. destruct op; simpl; intros; try discriminate; by eexists. Qed.

Lemma switch_does_op s t code_ l i op r :
  machine s th t code_ l -> decode i = Some op ->
  match iarith op (IP (th_code t)) l, istack_op code_ op (IP (th_code t)) l, iflow code_ op (IP (th_code t)) l with
  | Some r, _, _ => Some r | _, Some r, _ => Some r | _, _, Some r => Some r
  | _, _, _ => iplain op (IP (th_code t)) l
  end = Some r ->
  does (exec_switch K rm th cur no_prefix i) s th t code_ (length l) r (fun p => p <> None).
Proof.
  intros H Hd Hr.
  destruct (iarith _ _ _) as [r'|] eqn:Ea.
  { injection Hr as ->. rewrite (switch_op i op r (IP (th_code t)) l code_) by auto. destruct (arith_exists _ _ _ _ Ea) as [m Hm].
    erewrite op_arith by done. apply does_then; [|done]. by eapply arith_does. }
  destruct (istack_op _ _ _ _) as [r'|] eqn:Ei.
  { injection Hr as ->. rewrite (switch_op i op r (IP (th_code t)) l code_) by auto. destruct (istack_exists _ _ _ _ _ Ei) as [m Hm].
    erewrite op_istack by done. apply does_then; [|done]. by eapply istack_does. }
  destruct (iflow _ _ _ _) as [r'|] eqn:Ef.
  { injection Hr as ->. rewrite (switch_op i op r (IP (th_code t)) l code_) by auto. destruct (flow_exists _ _ _ _ _ Ef) as [m Hm].
    erewrite op_flow by done. apply does_then; [|done]. by eapply flow_does. }
  unfold exec_switch. rewrite Hd. destruct op; try discriminate Hr; injection Hr as <-; by apply does_ret.
Qed.

Lemma turn_does s t code_ l r :
  machine s th t code_ l -> istep code_ (IP (th_code t)) l = Some r ->
  does (exec_turn K rm th cur no_prefix) s th t code_ (length l) r (fun p => p <> None).
Proof.
  intros H Hr. unfold istep in Hr.
  destruct (code_ !!z _) as [b|] eqn:Eb; [|discriminate Hr]. cbn [mbind option_bind] in Hr.
  destruct (decode b) as [op|] eqn:Ed; [|discriminate Hr]. cbn [mbind option_bind] in Hr.
  unfold exec_turn. apply does_bind. wp_step. split; [apply quiet_refl|]. rewrite (mc_snap _ _ _ _ _ H).
  apply does_bind. wp_step. split; [apply quiet_refl|].
  apply does_bind. eapply get_byte_reads; [done..|]. intros s1 H1 Hq. split; [done|].
  apply does_bind. cbn [prefix_long no_prefix]. wp_step. split; [apply quiet_refl|].
  exact (switch_does_op _ _ _ _ _ _ _ H1 Ed Hr).
Qed.
End Turns.

Section Loop.
Context (K : kernel) (cur : pvm_object).
Notation th := (data cur).

Lemma loop_step fuel s t code_ l ip' l' :
  machine s th t code_ l -> istep code_ (IP (th_code t)) l = Some (Goes ip' l') ->
  (exec_loop K (S fuel) cur no_prefix s = Panic oom /\ (length l < length l')%nat) \/
  exists s', machine s' th (at_ip ip' t) code_ l' /\ quiet th s s' /\
    exec_loop K (S fuel) cur no_prefix s = exec_loop K fuel cur no_prefix s'.
Proof.
  intros H Hi. pose proof (turn_does K (run_method_with (exec_with (exec_loop K fuel))) th cur _ _ _ _ _ H Hi) as Hd.
  simpl in Hd. unfold wpe in Hd. cbn [exec_loop]. unfold mbind, M_bind.
  destruct (exec_turn _ _ _ _ _ s) as [[p|] s'|msg|why|]; [|naive_solver..].
  destruct Hd as (_ & Hm & Hq). right. by exists s'.
Qed.

Lemma loop_run fuel n s t code_ l ip' l' :
  machine s th t code_ l -> irun code_ n (IP (th_code t)) l = Some (ip', l') ->
  exec_loop K (n + fuel) cur no_prefix s = Panic oom \/
  exists s', machine s' th (at_ip ip' t) code_ l' /\ quiet th s s' /\
    exec_loop K (n + fuel) cur no_prefix s = exec_loop K fuel cur no_prefix s'.
Proof.
  revert s t l. induction n as [|n IH]; intros s t l H Hr; simpl in Hr.
  - injection Hr as <- <-. right. exists s. rewrite at_ip_id. split_and!; [done|apply quiet_refl|done].
  - change (S n + fuel)%nat with (S (n + fuel)).
    destruct (istep _ _ _) as [[ip1 l1|msg|why]|] eqn:Ei; try discriminate Hr.
    destruct (loop_step (n + fuel) _ _ _ _ _ _ H Ei) as [[Ho _]|(s1 & H1 & Q1 & E1)]; [by left|].
    destruct (IH s1 _ _ H1 Hr) as [Ho|(s2 & H2 & Q2 & E2)]; [left; congruence|right].
    exists s2. split_and!; [done|by eapply quiet_trans|congruence].
Qed.

(** The turns of a [djnz] that jumps to itself. *)
Definition djnz_turns (v : Z) : Z := if 0 <? v then v else v + 2 ^ 32.

Lemma djnz_run fuel n s t code_ v l :
  machine s th t code_ (v :: l) -> code_ !!z IP (th_code t) = Some 0x04 ->
  int_at code_ (IP (th_code t) + 1) = Some (-1) -> - 2 ^ 31 <= v < 2 ^ 31 -> djnz_turns v = Z.of_nat n ->
  exists s', machine s' th (at_ip (IP (th_code t) + 5) t) code_ (0 :: l) /\ quiet th s s' /\
    exec_loop K (n + fuel) cur no_prefix s = exec_loop K fuel cur no_prefix s'.
Proof.
  intros H Hop Hrel. revert s t v H Hop Hrel.
  induction n as [|n IH]; intros s t v H Hop Hrel Hv Hn; unfold djnz_turns in Hn.
  { destruct (Z.ltb_spec 0 v); lia. }
  change (S n + fuel)%nat with (S (n + fuel)).
  pose proof (int_at_bound _ _ _ Hrel) as Hb. pose proof (lookupZ_bound _ _ _ Hop). pose proof (mc_size _ _ _ _ _ H) as Hsz.
  assert (istep code_ (IP (th_code t)) (v :: l) =
    Some (Goes (if i32 (v - 1) =? 0 then IP (th_code t) + 5 else IP (th_code t)) (i32 (v - 1) :: l))) as Hi.
  { unfold istep. rewrite Hop. simpl. unfold rel_at. rewrite Hrel. simpl. rewrite u32_id by lia.
    by replace (IP (th_code t) + 1 + 4) with (IP (th_code t) + 5) by lia;
       replace (IP (th_code t) + 1 + -1) with (IP (th_code t)) by lia. }
  destruct (loop_step (n + fuel) _ _ _ _ _ _ H Hi) as [[_ Hlt]|(s1 & H1 & Q1 & E1)]; [simpl in Hlt; lia|].
  pose proof (i32_range (v - 1)) as Hw. assert (i32 (v - 1) = if v =? - 2 ^ 31 then 2 ^ 31 - 1 else v - 1) as Ew.
  { destruct (Z.eqb_spec v (- 2 ^ 31)) as [->|]; [done|]. apply i32_id. lia. }
  destruct (Z.eqb_spec (i32 (v - 1)) 0) as [Hz|Hz].
  - assert (n = 0%nat) as -> by (destruct (Z.ltb_spec 0 v), (Z.eqb_spec v (- 2 ^ 31)); lia).
    rewrite Hz in H1. by exists s1.
  - rewrite at_ip_id in H1. destruct (IH s1 t (i32 (v - 1)) H1 Hop Hrel) as (s2 & Hm2 & Q2 & E2); [lia| |].
    { unfold djnz_turns.
      destruct (Z.ltb_spec 0 v), (Z.ltb_spec 0 (i32 (v - 1))), (Z.eqb_spec v (- 2 ^ 31)); lia. }
    exists s2. split_and!; [done|by eapply quiet_trans|congruence].
Qed.
End Loop.

(** ** Claims *)



(** C27: a counting loop ends.  A [djnz] that jumps to itself counts the top of
    the stack down and is left after as many turns as the counter says (a counter
    that is not positive goes around through the smallest integer first), with 0
    on the stack and the position behind the instruction; it needs no memory. *)
Theorem djnz_loop_ends K cur fuel s t code_ v l :
  machine s (data cur) t code_ (v :: l) -> code_ !!z IP (th_code t) = Some 0x04 ->
  int_at code_ (IP (th_code t) + 1) = Some (-1) -> - 2 ^ 31 <= v < 2 ^ 31 ->
  exists s', machine s' (data cur) (at_ip (IP (th_code t) + 5) t) code_ (0 :: l) /\
    quiet (data cur) s s' /\
    exec_loop K (Z.to_nat (if 0 <? v then v else v + 2 ^ 32) + fuel) cur no_prefix s
    = exec_loop K fuel cur no_prefix s'.
Proof.
  intros H Hop Hrel Hv. eapply djnz_run; [done..|]. unfold djnz_turns. destruct (Z.ltb_spec 0 v); lia.
Qed.

(** ** Instances *)

Lemma one_page_rep {A} (k : stack_kind A) s r d :
  page_da k s r d -> not_null s r ->
  data (st_prev (common d)) = 0 -> data (st_next (common d)) = 0 -> data (st_root (common d)) = r ->
  data (st_curr (common d)) = r -> curr_da d = r -> sSize (common d) = Z.of_nat PVM_STACK_SIZE ->
  length (cells d) = PVM_STACK_SIZE -> 0 <= free_cell_ptr (common d) <= Z.of_nat PVM_STACK_SIZE ->
  stack_rep k s r [r] (take (Z.to_nat (free_cell_ptr (common d))) (cells d)).
Proof.
  intros Hd Hn. intros. exists [], (r, free_cell_ptr (common d), cells d), []. split; try done.
  - split; [|done]. by exists d.
  - apply NoDup_singleton.
  - by intros a ->%list_elem_of_singleton.
  - by exists d.
Qed.

(** A thread on [code_] with the integers [l], the top first. *)
Definition ex_thread_prog (code_ l : list Z) : M vm pvm_object :=
  cf ← pvm_create_call_frame_object;
  c ← pvm_create_code_object (Z.of_nat (length code_)) code_;
  pvm_exec_set_cs (data cf) (data c);;
  cls ← gets (fun s => thread_class (pvm_root s));
  ret ← pvm_object_create_fixed cls;
  t ← load_thread (data ret);
  store_thread (data ret) (set_stack_depth 1 (set_call_frame cf t));;
  pvm_exec_load_fast_acc (data ret);;
  for_each (is_push (data ret)) (rev l);;
  mret ret.

Definition ex_thread (code_ l : list Z) : vm * pvm_object :=
  match ex_thread_prog code_ l ex_boot with Ret o s => (s, o) | _ => (ex_boot, null_ref) end.
Definition thread_of (s : vm) (th : Z) : da_thread :=
  default zero_thread (o ← alloc_at (heap s) th; as_thread (da o)).

(** A test on the object at an address. *)
Definition obj_b (s : vm) (a : Z) (f : data_area -> bool) : bool :=
  match alloc_at (heap s) a with Some o => f (da o) | None => false end.

(** The invariant of a stack on one page, as a test. *)
Definition one_page_b {A} `{EqDecision A} (k : stack_kind A) (s : vm) (r : Z) (l : list A) : bool :=
  heap_wf_check s && null_ok_b s &&
  obj_b s (data (sk_class k (pvm_root s))) (fun d =>
    match as_class d with Some c => (0 <=? object_flags c) && (object_flags c <? 2 ^ 32) | None => false end) &&
  obj_b s r (fun da => match sk_view k da with
    | Some d =>
        let c := common d in
        negb (r =? 0) && negb (r =? data (null_object (pvm_root s))) &&
        (data (st_prev c) =? 0) && (data (st_next c) =? 0) && (data (st_root c) =? r) &&
        (data (st_curr c) =? r) && (curr_da d =? r) && (sSize c =? 64) &&
        (Z.of_nat (length (cells d)) =? 64) && (0 <=? free_cell_ptr c) && (free_cell_ptr c <=? 64) &&
        negb (data (sk_class k (pvm_root s)) =? r) &&
        bool_decide (take (Z.to_nat (free_cell_ptr c)) (cells d) = l)
    | None => false
    end).

(** Everything [machine] asks for, as a test. *)
Definition machine_b (s : vm) (th : Z) (code_ l : list Z) : bool :=
  let t := thread_of s th in
  one_page_b istack_kind s (_istack t) (rev l) &&
  obj_b s th (fun d => match d with DA_thread _ => true | _ => false end) &&
  obj_b s (code (th_code t)) (fun d => match d with DA_code _ c => bool_decide (c = code_) | _ => false end) &&
  (IP_max (th_code t) =? Z.of_nat (length code_)) && (Z.of_nat (length code_) <? 2 ^ 31) &&
  forallb (fun b => (0 <=? b) && (b <? 256)) code_ && negb (snap_request s).

Lemma obj_b_true s a f : obj_b s a f = true -> exists o, alloc_at (heap s) a = Some o /\ f (da o) = true.
Proof. unfold obj_b. destruct (alloc_at _ _) as [o|]; [|done]. by exists o. Qed.

Lemma one_page_b_sound {A} `{EqDecision A} (k : stack_kind A) s r l :
  one_page_b k s r l = true -> stack_inv k s r l.
Proof.
  unfold one_page_b. rewrite !andb_true_iff.
  intros (((Hwf & Hnull) & (ok & Hok & Hdk)%obj_b_true) & (oi & Hoi & Hdi)%obj_b_true).
  destruct (as_class (da ok)) as [c|] eqn:Ecc; [|discriminate Hdk].
  destruct (sk_view k (da oi)) as [d|] eqn:Ed; [|discriminate Hdi].
  rewrite !andb_true_iff, !negb_true_iff, bool_decide_eq_true in Hdi. destruct Hdi as [Hdi <-].
  split; [by apply heap_wf_check_sound|by apply null_ok_b_sound|exists c; split; [by exists ok|lia]|].
  exists [r]. split.
  - apply one_page_rep; unfold PVM_STACK_SIZE; try lia; [by exists oi|split; lia].
  - rewrite list_elem_of_singleton. lia.
Qed.

Lemma thread_of_obj s th :
  obj_b s th (fun d => match d with DA_thread _ => true | _ => false end) = true ->
  exists o, alloc_at (heap s) th = Some o /\ da o = DA_thread (thread_of s th).
Proof.
  intros (o & Ho & Hd)%obj_b_true. exists o. split; [done|]. unfold thread_of. rewrite Ho. simpl. by destruct (da o).
Qed.

Lemma machine_b_sound s th code_ l :
  machine_b s th code_ l = true -> machine s th (thread_of s th) code_ l.
Proof.
  unfold machine_b. rewrite !andb_true_iff, negb_true_iff.
  intros ((((((Hst & Hth) & (oc & Hoc & Hdc)%obj_b_true) & Hmax) & Hsz) & Hbytes) & Hsnap).
  destruct (da oc) as [| | | | | |n c| | | | | | | | | | | | |] eqn:Ec; try discriminate Hdc.
  apply bool_decide_eq_true in Hdc as ->. split; [by apply thread_of_obj|by exists oc, n|lia|lia| | |done].
  - apply list.Forall_forall. intros x Hx. rewrite forallb_forall in Hbytes. apply list_elem_of_In in Hx.
    specialize (Hbytes x Hx). lia.
  - by apply one_page_b_sound.
Qed.

Section Ex.
Context (code_ l : list Z).
Definition ex_s : vm := (ex_thread code_ l).1.
Definition ex_cur : pvm_object := (ex_thread code_ l).2.
Definition ex_t : da_thread := thread_of ex_s (data ex_cur).

Lemma ex_machine : machine_b ex_s (data ex_cur) code_ l = true -> machine ex_s (data ex_cur) ex_t code_ l.
Proof. apply machine_b_sound. Qed.
End Ex.

(** A kernel without system calls. *)
Definition ex_kernel : kernel := mkKernel (fun _ => None) (mret tt) (fun _ => mret tt).
Definition ex_turn (code_ l : list Z) : outcome vm (option prefixes) :=
  exec_turn ex_kernel (fun o _ _ => mret o) (data (ex_cur code_ l)) (ex_cur code_ l) no_prefix (ex_s code_ l).


(** [6 * 7] *)
Definition ex_mul : list Z := [0x22; 6; 0x22; 7; 0x43].


Definition ex_djnz : list Z := [0x04; 255; 255; 255; 255].

Lemma djnz_loop_ends_witness :
  exists s', machine s' (data (ex_cur ex_djnz [3; 9])) 
      (at_ip (IP (th_code (ex_t ex_djnz [3; 9])) + 5) (ex_t ex_djnz [3; 9])) ex_djnz [0; 9] /\
    exec_loop ex_kernel (Z.to_nat 3 + 0) (ex_cur ex_djnz [3; 9]) no_prefix (ex_s ex_djnz [3; 9])
    = exec_loop ex_kernel 0 (ex_cur ex_djnz [3; 9]) no_prefix s'.
Proof.
  destruct (djnz_loop_ends ex_kernel (ex_cur ex_djnz [3; 9]) 0 (ex_s ex_djnz [3; 9]) (ex_t ex_djnz [3; 9]) ex_djnz
    3 [9] (ex_machine ex_djnz [3; 9] ltac:(vm_compute; reflexivity)) ltac:(vm_compute; reflexivity)
    ltac:(vm_compute; reflexivity) ltac:(lia)) as (s' & H & _ & E).
  change (if 0 <? 3 then 3 else 3 + 2 ^ 32) with 3 in E.
  exists s'. split; [exact H|exact E].
Defined.

(** The long prefix is forgotten before the instruction behind it: in
    [prefix_long; isum] the sum is one of 32 bit integers. *)
Theorem prefix_long_has_no_effect fuel :
  exec_loop ex_kernel (2 + fuel) (ex_cur [0x5C; 0x42] [1; 2; 3; 4]) no_prefix (ex_s [0x5C; 0x42] [1; 2; 3; 4])
    = Panic oom \/
  exists s', machine s' (data (ex_cur [0x5C; 0x42] [1; 2; 3; 4])) (at_ip 2 (ex_t [0x5C; 0x42] [1; 2; 3; 4]))
      [0x5C; 0x42] [3; 3; 4] /\
    exec_loop ex_kernel (2 + fuel) (ex_cur [0x5C; 0x42] [1; 2; 3; 4]) no_prefix (ex_s [0x5C; 0x42] [1; 2; 3; 4])
    = exec_loop ex_kernel fuel (ex_cur [0x5C; 0x42] [1; 2; 3; 4]) no_prefix s'.
Proof.
  destruct (loop_run ex_kernel (ex_cur [0x5C; 0x42] [1; 2; 3; 4]) fuel 2
    (ex_s [0x5C; 0x42] [1; 2; 3; 4]) (ex_t [0x5C; 0x42] [1; 2; 3; 4]) [0x5C; 0x42] [1; 2; 3; 4] 2 [3; 3; 4]
    (ex_machine [0x5C; 0x42] [1; 2; 3; 4] ltac:(vm_compute; reflexivity)) ltac:(vm_compute; reflexivity))
    as [E|(s' & H & _ & E)]; 
    [left; exact E|right; exists s'; split; [exact H|exact E]].
Qed.


(** [3; djnz; ret] *)
Definition ex_count : list Z := [0x22; 3; 0x04; 255; 255; 255; 255; 0x08].

