(* ===== verification/Throw.v ===== *)
(** * Exceptions

    The search for a handler ([pvm_exec_find_catch], [catch_comparator]) and the
    throw ([pvm_exec_do_throw]) of [phantom/vm/exec.c], against a description on
    the list of handlers of a frame. *)

From S2P Require Import Prelude Heap Refcount Alloc Opcodes Create Stacks Object Frame Code Exec Turn.

(** ** The handlers of a frame *)

Section Catch.
Context (s : vm).

(** The handler takes objects of class [cls]. *)
Definition catches (cls : Z) (e : pvm_exception_handler) : Prop := ancestor s (eh_object e) cls.

(** The innermost handler that takes the class: the last of the list. *)
Definition innermost (cls : Z) (hs : list pvm_exception_handler) (r : option pvm_exception_handler) : Prop :=
  match r with
  | Some e => exists outer inner, hs = outer ++ e :: inner /\ catches cls e /\ Forall (fun i => ~ catches cls i) inner
  | None => Forall (fun e => ~ catches cls e) hs
  end.

(** Every handler names a class whose parents end. *)
Definition handlers_ok (hs : list pvm_exception_handler) : Prop :=
  Forall (fun e => exists n, rooted s n (eh_object e)) hs.

Context (thrown : pvm_object) (o : pvm_object_storage).
Context (Ho : heap s !! data thrown = Some o).

(** The comparator, as a function of the handler. *)
Definition compares (e : pvm_exception_handler) : bool :=
  match pvm_object_class_is thrown (eh_object e) s with Ret b _ => b | _ => false end.
Definition compare (pass e : pvm_exception_handler) : bool * pvm_exception_handler :=
  if compares e then (true, mkHandler thrown (eh_jump e)) else (false, pass).

Lemma class_is_spec n c :
  rooted s n c ->
  exists b, pvm_object_class_is thrown c s = Ret b s /\ (b = true <-> ancestor s c (data (_class o))).
Proof.
  intros Hr. pose proof (rooted_bound s n c Hr) as Hn.
  assert (wp (pvm_object_class_is thrown c) s (fun b s' =>
    s' = s /\ (b = true <-> ancestor s c (data (_class o))))) as (b & s' & E & -> & Hb); [|by exists b].
  unfold pvm_object_class_is. wp_step. eapply wp_load; [done|]. wp_step. wp_step.
  apply (class_is_loop_spec s n); [done|lia].
Qed.

Lemma compares_spec n e : rooted s n (eh_object e) -> compares e = true <-> catches (data (_class o)) e.
Proof. intros Hr. destruct (class_is_spec n _ Hr) as (b & E & Hb). unfold compares. by rewrite E. Qed.

Lemma comparator_spec hs :
  handlers_ok hs -> runs_as compare (fun pass => eh_object pass = thrown) catch_comparator s hs.
Proof.
  intros Hok pass e Hp He. unfold handlers_ok in Hok. rewrite list.Forall_forall in Hok.
  destruct (Hok e He) as [n Hr]. destruct (class_is_spec n _ Hr) as (b & E & _).
  unfold catch_comparator, compare, compares, mbind, M_bind. rewrite Hp, E. by destruct b.
Qed.

Lemma search_compare pass l :
  search compare pass l =
  match filter (fun e => compares e = true) l with
  | e :: _ => (true, mkHandler thrown (eh_jump e))
  | [] => (false, pass)
  end.
Proof.
  induction l as [|e l IH]; simpl; [done|]. unfold compare at 1. rewrite filter_cons.
  destruct (compares e); [by rewrite decide_True|]. rewrite decide_False by done. exact IH.
Qed.

(** The first match from the top is the innermost handler. *)
Lemma filter_innermost hs :
  handlers_ok hs ->
  match filter (fun e => compares e = true) (rev hs) with
  | e :: _ => innermost (data (_class o)) hs (Some e)
  | [] => innermost (data (_class o)) hs None
  end.
Proof.
  induction hs as [|e hs IH] using rev_ind; intros Hok; [constructor|].
  apply Forall_app in Hok as [Hok He]. apply Forall_cons_1 in He as [[n He] _].
  rewrite rev_app_distr. cbn [rev app]. rewrite filter_cons. destruct (decide (compares e = true)) as [Hc|Hc].
  - exists hs, []. split_and!; [done|by eapply compares_spec|constructor].
  - rewrite (compares_spec n) in Hc by done. specialize (IH Hok). destruct (filter _ (rev hs)) as [|e' ?]; simpl in *.
    + apply Forall_app. split; [done|]. by constructor.
    + destruct IH as (outer & inner & -> & Hc' & Hi). exists outer, (inner ++ [e]).
      split_and!; [by rewrite <- app_assoc|done|]. apply Forall_app. split; [done|]. by constructor.
Qed.

Lemma find_catch_spec r ps hs :
  stack_rep estack_kind s r ps hs -> handlers_ok hs ->
  exists e, innermost (data (_class o)) hs e /\
    pvm_exec_find_catch r thrown s = Ret (eh_jump <$> e) s.
Proof.
  intros Hr Hok. pose proof (filter_innermost hs Hok) as Hf.
  destruct (stack_foreach_spec estack_kind compare (fun pass => eh_object pass = thrown) catch_comparator s r ps hs
    (mkHandler thrown 0) Hr (comparator_spec hs Hok) eq_refl) as (x & s' & E & -> & Hx).
  rewrite search_compare in Hx. unfold pvm_exec_find_catch, pvm_estack_foreach, mbind, M_bind. rewrite E, Hx.
  destruct (filter _ (rev hs)) as [|e ?]; [by exists None|by exists (Some e)].
Qed.

(** Which handler is innermost is determined. *)
Lemma innermost_fun cls hs r1 r2 : innermost cls hs r1 -> innermost cls hs r2 -> r1 = r2.
Proof.
  destruct r1 as [e1|], r2 as [e2|]; simpl; [| | |done].
  - intros (o1 & i1 & -> & H1 & F1) (o2 & i2 & E & H2 & F2). f_equal.
    apply app_eq_inv in E as [(k & -> & E)|(k & -> & E)]; destruct k as [|x k]; simpl in E.
    + by injection E.
    + injection E as -> ->. apply Forall_app in F2 as [_ F2]. by apply Forall_cons_1 in F2 as [? _].
    + by injection E.
    + injection E as -> ->. apply Forall_app in F1 as [_ F1]. by apply Forall_cons_1 in F1 as [? _].
  - intros (o1 & i1 & -> & H1 & F1) F. apply Forall_app in F as [_ F]. by apply Forall_cons_1 in F as [? _].
  - intros F (o1 & i1 & -> & H1 & F1). apply Forall_app in F as [_ F]. by apply Forall_cons_1 in F as [? _].
Qed.
End Catch.

(** ** Changes of one kind of stack leave the others alone *)

Section Calm.
Implicit Types (s : vm).

(** Neither classes nor pages of another kind are pages of kind [k]. *)
Lemma calm_class {A} (k : stack_kind A) s s' cls c :
  (forall d, as_class (sk_put k d) = None) -> calm k s s' -> class_at s cls c -> class_at s' cls c.
Proof.
  intros Hk [_ _ _ C] (o & Ho & Hc). exists o. split; [|done]. apply C; [done|]. intros d E. rewrite E, Hk in Hc. done.
Qed.

Lemma inv_calm {A B} (k : stack_kind A) (k2 : stack_kind B) `{!StackLaws k2} s s' r l :
  (forall d, as_class (sk_put k d) = None) -> (forall d d2, sk_put k2 d2 <> sk_put k d) ->
  calm k s s' -> stack_inv k2 s r l -> stack_inv k2 s' r l.
Proof.
  intros Hc Hne C [Hwf Hnull (c & Hcls & Hcf) (ps & Hr & Hps)]. pose proof (env_root _ _ (cm_env _ _ _ C)) as Er.
  split; [apply C| | |].
  - unfold null_ok in *. rewrite Er. destruct Hnull as [?|?]; [by left|right]. by apply C.
  - exists c. rewrite Er. split; [by eapply calm_class|done].
  - exists ps. rewrite Er. split; [|done]. eapply (stack_rep_same k2); [|apply C|done].
    intros x Hx. destruct Hr as (pre & cp & post & H). destruct (page_allocated k2 _ _ _ _ _ _ _ _ H Hx) as [o Ho].
    rewrite Ho. eapply cm_frame; [done|done|]. intros d.
    destruct (stack_page_put k2 s r ps l x o) as [d2 ->]; [by exists pre, cp, post|done|done|apply Hne].
Qed.

Context {A : Type} (k : stack_kind A) (Hk : forall d, as_class (sk_put k d) = None).
Context (s s' : vm) (C : calm k s s').

Lemma is_nullb_calm c : is_nullb s' c = is_nullb s c.
Proof. unfold is_nullb. by rewrite (env_root _ _ (cm_env _ _ _ C)). Qed.

Lemma rooted_calm n c : rooted s n c -> rooted s' n c.
Proof.
  pose proof (env_root _ _ (cm_env _ _ _ C)) as Er.
  induction 1 as [c Hn|c Hn Hz|n c cd Hn Hz Hc H IH].
  - apply rooted_null. by rewrite is_nullb_calm.
  - apply rooted_nullc; [by rewrite is_nullb_calm|by rewrite Er].
  - eapply rooted_step; [by rewrite is_nullb_calm|by rewrite Er|by eapply calm_class|done].
Qed.

Lemma ancestor_calm n c x : rooted s n c -> ancestor s' c x <-> ancestor s c x.
Proof.
  pose proof (env_root _ _ (cm_env _ _ _ C)) as Er.
  induction 1 as [c Hn|c Hn Hz|n c cd Hn Hz Hc H IH].
  - split; intros Ha; inversion Ha; rewrite ?is_nullb_calm in *; congruence.
  - split; intros Ha; inversion Ha; subst; rewrite ?is_nullb_calm, ?Er in *; try congruence; constructor;
      rewrite ?is_nullb_calm; done.
  - assert (class_at s' c cd) as Hc' by by eapply calm_class.
    split; intros Ha; inversion Ha as [c0 H0 E0|c0 cd0 x0 H0 H1 H2 H3 E0]; subst; rewrite ?is_nullb_calm, ?Er in *.
    + by constructor.
    + rewrite (class_at_fun _ _ _ _ _ eq_refl H2 Hc') in H3. eapply anc_up; [done..|]. by apply IH.
    + constructor. by rewrite is_nullb_calm.
    + rewrite (class_at_fun _ _ _ _ _ eq_refl H2 Hc) in H3.
      eapply anc_up; [by rewrite is_nullb_calm|by rewrite Er|done|]. by apply IH.
Qed.

Lemma handlers_ok_calm hs : handlers_ok s hs -> handlers_ok s' hs.
Proof.
  unfold handlers_ok. intros H. eapply list.Forall_impl; [done|]. intros e [n Hr]. exists n. by apply rooted_calm.
Qed.

Lemma innermost_calm cls hs r : handlers_ok s hs -> innermost s cls hs r -> innermost s' cls hs r.
Proof.
  unfold handlers_ok. rewrite list.Forall_forall. intros Hok.
  assert (forall e, e ∈ hs -> catches s' cls e <-> catches s cls e) as Hcat.
  { intros e He. destruct (Hok e He) as [n Hr]. by eapply ancestor_calm. }
  destruct r as [e|]; simpl.
  - intros (outer & inner & -> & Hc & Hi). exists outer, inner. split_and!; [done| |].
    + apply Hcat; [|done]. apply elem_of_app. right. by left.
    + rewrite list.Forall_forall in Hi |- *. intros i Hin. rewrite Hcat; [by apply Hi|].
      apply elem_of_app. right. by right.
  - rewrite !list.Forall_forall. intros H e He. rewrite Hcat by done. by apply H.
Qed.
End Calm.

(** ** The throw *)

Definition thread_obj (s : vm) (th : Z) (t : da_thread) : Prop :=
  exists o, alloc_at (heap s) th = Some o /\ da o = DA_thread t.

(** The thread's current frame: objects [os] and handlers [hs], the top last. *)
Record frame_at (s : vm) (th : Z) (t : da_thread) (os : list pvm_object) (hs : list pvm_exception_handler) : Prop := {
  fa_thread : thread_obj s th t;
  fa_ostack : stack_inv ostack_kind s (_ostack t) os;
  fa_estack : stack_inv estack_kind s (_estack t) hs;
}.

(** An allocated object of class [cls] that is not itself a page of a stack. *)
Definition throwable (s : vm) (obj : pvm_object) (cls : Z) : Prop :=
  exists o, alloc_at (heap s) (data obj) = Some o /\ data (_class o) = cls /\ forall d, da o <> DA_ostack d.

(** The data areas of stacks, threads and classes differ. *)
Lemma estack_not_ostack (d : stack_da pvm_object) (d2 : stack_da pvm_exception_handler) :
  sk_put estack_kind d2 <> sk_put ostack_kind d.
Proof. discriminate. Qed.

Section Throw.
Context (rm : pvm_object -> Z -> list pvm_object -> M vm pvm_object) (th : Z).
Implicit Types (s : vm) (t : da_thread).

Lemma wp_thread s t (Q : da_thread -> vm -> Prop) : thread_obj s th t -> Q t s -> wp (load_thread th) s Q.
Proof.
  intros (o & Ho & Hd) HQ. eapply wp_load_da; [by apply heap_of_alloc|by rewrite Hd|done].
Qed.

Lemma thread_calm {A} (k : stack_kind A) s s' t :
  (forall d, sk_put k d <> DA_thread t) -> calm k s s' -> thread_obj s th t -> thread_obj s' th t.
Proof.
  intros Hk C (o & Ho & Hd). exists o. split; [|done]. eapply cm_frame; [done|done|].
  intros d. rewrite Hd. intros E. by destruct (Hk d).
Qed.

(** A pop leaves the frame with room on its stack of objects. *)
Lemma os_pop_frame s t os v hs :
  frame_at s th t (os ++ [v]) hs ->
  wp (os_pop th) s (fun w s' => w = v /\ frame_at s' th t os hs /\
    roomy ostack_kind s' (_ostack t) os /\ calm ostack_kind s s').
Proof.
  intros [Ht Ho He]. unfold os_pop. wp_step. eapply wp_thread; [done|].
  eapply wp_mono; [by apply (inv_pop ostack_kind)|]. intros w s' (-> & Hr & C). split_and!; try done.
  split; [by eapply (thread_calm ostack_kind)|apply Hr|by eapply (inv_calm ostack_kind estack_kind); [|apply estack_not_ostack|..]].
Qed.

(** The position of the thread changes; its stacks do not. *)
Lemma roomy_upd {A} (k : stack_kind A) `{!StackLaws k} s s' a o o' r l :
  roomy k s r l -> alloc_at (heap s) a = Some o -> (forall d, da o <> sk_put k d) -> as_class (da o) = None ->
  upd s a o' s' -> roomy k s' r l.
Proof.
  intros [Hi (ps & Hr & Hps)] Ha Hv Hn U. pose proof (stack_inv_upd k _ _ _ _ _ _ _ Hi Ha Hv Hn U) as Hi'.
  split; [done|]. exists ps. rewrite (env_root _ _ (up_env _ _ _ _ U)). split; [|done].
  assert (forall x, x ∈ ps -> alloc_at (heap s') x = alloc_at (heap s) x) as Hsame.
  { intros x Hx. apply U. intros ->. destruct (stack_page_put k _ _ _ _ _ _ (room_rep k _ _ _ _ Hr) Hx Ha) as [d Hd].
    by destruct (Hv d). }
  destruct Hr as (pre & c & post & H & Hu). exists pre, c, post. split; [|done].
  by eapply (stack_pages_same k); [|apply U|].
Qed.

Lemma jump_frame s t os hs ip :
  frame_at s th t os hs -> roomy ostack_kind s (_ostack t) os ->
  wp (jump th ip) s (fun _ s' => frame_at s' th (at_ip (u32 ip) t) os hs /\
    roomy ostack_kind s' (_ostack t) os /\ alloc_env s' = alloc_env s /\
    forall x, x <> th -> alloc_at (heap s') x = alloc_at (heap s) x).
Proof.
  intros [Ht Ho He] Hr. unfold jump. wp_step. eapply wp_thread; [done|]. destruct Ht as (o & Hth & Hd).
  eapply wp_update_da; [apply Ho|done|]. intros s' U.
  assert (forall {A} (k : stack_kind A), (forall d, sk_put k d <> DA_thread t) -> forall d, da o <> sk_put k d) as Hne.
  { intros A k Hk d E. rewrite Hd in E. by destruct (Hk d). }
  split_and!; [|eapply (roomy_upd ostack_kind); [done|done|by apply Hne|by rewrite Hd|done]|apply U|apply U].
  split; [by exists (set_da (DA_thread (at_ip (u32 ip) t)) o); split; [apply U|]| |].
  - eapply (stack_inv_upd ostack_kind); [done|exact Hth|by apply Hne|by rewrite Hd|done].
  - eapply (stack_inv_upd estack_kind); [done|exact Hth|by apply Hne|by rewrite Hd|done].
Qed.

Lemma os_push_frame s t os v hs :
  frame_at s th t os hs -> roomy ostack_kind s (_ostack t) os ->
  wp (os_push th v) s (fun _ s' => frame_at s' th t (os ++ [v]) hs /\ calm ostack_kind s s').
Proof.
  intros [Ht Ho He] Hr. unfold os_push. wp_step. eapply wp_thread; [done|].
  eapply wp_mono; [by apply (inv_push_room ostack_kind)|]. intros [] s' [Hi C]. split; [|done].
  split; [by eapply (thread_calm ostack_kind)|done|by eapply (inv_calm ostack_kind estack_kind); [|apply estack_not_ostack|..]].
Qed.
End Throw.

Section ThrowSpec.
Context (rm : pvm_object -> Z -> list pvm_object -> M vm pvm_object) (th : Z).
Implicit Types (s : vm) (t : da_thread).

(** Nothing but the thread and pages of stacks of objects changed. *)
Record quiet_objs (s s' : vm) : Prop := {
  qo_env : alloc_env s' = alloc_env s;
  qo_frame x o : x <> th -> alloc_at (heap s) x = Some o -> (forall d, da o <> DA_ostack d) ->
    alloc_at (heap s') x = Some o;
}.

Lemma find_catch_frame s t os hs obj cls :
  frame_at s th t os hs -> handlers_ok s hs -> throwable s obj cls ->
  exists e, innermost s cls hs e /\ pvm_exec_find_catch (_estack t) obj s = Ret (eh_jump <$> e) s.
Proof.
  intros [_ _ He] Hok (o & Ho & <- & _). destruct (si_rep _ _ _ _ He) as (ps & Hr & _).
  eapply find_catch_spec; [by apply heap_of_alloc|done|done].
Qed.

Lemma throwable_calm s s' obj cls : calm ostack_kind s s' -> throwable s obj cls -> throwable s' obj cls.
Proof. intros C (o & Ho & Hc & Hd). exists o. split; [by eapply cm_frame|done]. Qed.

Lemma throw_caught s t os hs obj cls e :
  frame_at s th t (os ++ [obj]) hs -> handlers_ok s hs -> throwable s obj cls ->
  innermost s cls hs (Some e) ->
  wp (pvm_exec_do_throw rm th) s (fun _ s' =>
    frame_at s' th (at_ip (u32 (eh_jump e)) t) (os ++ [obj]) hs /\ quiet_objs s s').
Proof.
  intros Hf Hok Hobj Hin. unfold pvm_exec_do_throw. wp_step. eapply wp_mono; [by apply os_pop_frame|].
  intros w s1 (-> & F1 & R1 & C1). wp_step. wp_step. wp_step.
  destruct (find_catch_frame s1 t os hs obj cls F1) as (e' & Hin' & E).
  { by eapply (handlers_ok_calm ostack_kind). }
  { by eapply throwable_calm. }
  assert (e' = Some e) as ->.
  { eapply innermost_fun; [done|]. by eapply (innermost_calm ostack_kind). }
  cbn [throw_loop]. wp_step. eapply wp_thread; [apply F1|]. wp_step. eexists _, s1. split; [exact E|].
  cbn [fmap option_fmap option_map]. wp_step. wp_step. eapply wp_mono; [by apply jump_frame|].
  intros [] s2 (F2 & R2 & He2 & Hsame). eapply wp_mono; [by apply os_push_frame|].
  intros [] s3 [F3 C3]. split; [done|]. split.
  - rewrite (cm_env _ _ _ C3), He2. apply C1.
  - intros x o Hx Ho Hd. eapply cm_frame; [done| |done]. rewrite Hsame by done. by eapply cm_frame.
Qed.

(** The frame has no caller and the object is an integer. *)
Lemma throw_uncaught s t os hs obj cls f o v :
  frame_at s th t (os ++ [obj]) hs -> handlers_ok s hs -> throwable s obj cls ->
  innermost s cls hs None ->
  (exists oc, alloc_at (heap s) (data (call_frame t)) = Some oc /\ da oc = DA_call_frame f) ->
  is_nullb s (cf_prev f) = true ->
  alloc_at (heap s) (data obj) = Some o -> flag (_flags o) PHANTOM_OBJECT_STORAGE_FLAG_IS_INT = true ->
  da o = DA_int v ->
  pvm_exec_do_throw rm th s = Panic "unwind: nowhere to return".
Proof.
  intros Hf Hok Hobj Hin (oc & Hoc & Hdc) Hnull Ho Hint Hv. unfold pvm_exec_do_throw.
  eapply wp_bind_eq; [by apply os_pop_frame|]. intros w s1 (-> & F1 & R1 & C1).
  destruct (find_catch_frame s1 t os hs obj cls F1) as (e' & Hin' & E).
  { by eapply (handlers_ok_calm ostack_kind). }
  { by eapply throwable_calm. }
  assert (e' = None) as ->.
  { eapply innermost_fun; [done|]. by eapply (innermost_calm ostack_kind). }
  assert (alloc_at (heap s1) (data (call_frame t)) = Some oc) as Hoc1.
  { eapply cm_frame; [done|done|]. by rewrite Hdc. }
  assert (heap s1 !! data obj = Some o) as Ho1.
  { apply heap_of_alloc. eapply cm_frame; [done|done|]. by rewrite Hv. }
  eapply (wp_bind_eq get _ s1 (fun a s' => a = s1 /\ s' = s1)); [by wp_step|]. intros ? ? [-> ->].
  assert (forall n, throw_loop rm th (S n) obj s1 = Panic "unwind: nowhere to return") as Ht;
    [|unfold mbind at 1, M_bind at 1; by rewrite Ht].
  intros n. cbn [throw_loop].
  eapply wp_bind_eq; [eapply (wp_thread _ _ _ (fun t' s' => t' = t /\ s' = s1)); [apply F1|done]|]. intros ? ? [-> ->].
  rewrite (bind_Ret _ _ _ _ _ E). cbn [fmap option_fmap option_map].
  eapply (wp_bind_eq (caller th) _ _ (fun p s' => p = cf_prev f /\ s' = s1)).
  { unfold caller. wp_step. eapply wp_thread; [apply F1|]. wp_step. eapply wp_load_da;
      [by apply heap_of_alloc|by rewrite Hdc|]. by wp_step. }
  intros ? ? [-> ->]. eapply (wp_bind_eq _ _ _ (fun b s' => b = true /\ s' = s1)).
  { apply wp_is_null. fold (is_nullb s1 (cf_prev f)). rewrite (is_nullb_calm ostack_kind s s1 C1). by rewrite Hnull. }
  intros ? ? [-> ->]. unfold pvm_object_print, pvm_get_int, load_da, load, mbind, M_bind. rewrite Ho1. simpl.
  rewrite Hint. cbn. rewrite Ho1. cbn. by rewrite Hv.
Qed.
End ThrowSpec.

(** ** Claims *)

(** C28: the search for a handler finds the innermost one.  With the handlers
    [hs] on the exception stack of the frame (the innermost last), an object is
    caught by the last handler whose class is the class of the object or one that
    inherits from it in the order [pvm_object_class_is] tests, and by none if there
    is no such handler; the search changes nothing. *)
Theorem pvm_exec_find_catch_correct s th t os hs obj cls :
  frame_at s th t os hs -> handlers_ok s hs -> throwable s obj cls ->
  exists e, innermost s cls hs e /\ pvm_exec_find_catch (_estack t) obj s = Ret (eh_jump <$> e) s.
Proof. apply find_catch_frame. Qed.

(** C19: a throw that the current frame catches.  The thread goes on at the
    address of the innermost matching handler with the thrown object on the stack
    again, the handlers still in place; nothing but the thread and pages of object
    stacks changes, and no memory is needed. *)
Theorem pvm_exec_do_throw_caught rm s th t os hs obj cls e :
  frame_at s th t (os ++ [obj]) hs -> handlers_ok s hs -> throwable s obj cls ->
  innermost s cls hs (Some e) ->
  exists s', pvm_exec_do_throw rm th s = Ret tt s' /\
    frame_at s' th (at_ip (u32 (eh_jump e)) t) (os ++ [obj]) hs /\ quiet_objs th s s'.
Proof.
  intros Hf Hok Hobj Hin. destruct (throw_caught rm th s t os hs obj cls e Hf Hok Hobj Hin) as ([] & s' & E & H).
  by exists s'.
Qed.

(** C37: an integer that is thrown in the first frame of a thread and that no
    handler takes stops the thread. *)
Theorem pvm_exec_do_throw_uncaught rm s th t os hs obj cls f o v :
  frame_at s th t (os ++ [obj]) hs -> handlers_ok s hs -> throwable s obj cls ->
  innermost s cls hs None ->
  (exists oc, alloc_at (heap s) (data (call_frame t)) = Some oc /\ da oc = DA_call_frame f) ->
  is_nullb s (cf_prev f) = true ->
  alloc_at (heap s) (data obj) = Some o -> flag (_flags o) PHANTOM_OBJECT_STORAGE_FLAG_IS_INT = true ->
  da o = DA_int v ->
  pvm_exec_do_throw rm th s = Panic "unwind: nowhere to return".
Proof. apply throw_uncaught. Qed.

(** ** Instances *)

(** A class and its parents. *)
Fixpoint parents (fuel : nat) (s : vm) (c : pvm_object) : option (list Z) :=
  match fuel with
  | O => None
  | S fuel' =>
      if is_nullb s c then Some [] else
      if data c =? data (null_class (pvm_root s)) then Some [data c] else
      o ← alloc_at (heap s) (data c); cd ← as_class (da o);
      l ← parents fuel' s (class_parent cd); Some (data c :: l)
  end.

Lemma parents_spec fuel s c l :
  parents fuel s c = Some l -> (exists n, rooted s n c) /\ forall x, ancestor s c x <-> x ∈ l.
Proof.
  revert c l. induction fuel as [|fuel IH]; intros c l; simpl; [done|].
  destruct (is_nullb s c) eqn:En.
  { intros [= <-]. split; [exists 0%nat; by constructor|]. intros x. rewrite elem_of_nil.
    split; [|done]. intros Ha. inversion Ha; congruence. }
  destruct (Z.eqb_spec (data c) (data (null_class (pvm_root s)))) as [Ez|Ez].
  { intros [= <-]. split; [exists 0%nat; by constructor|]. intros x. rewrite list_elem_of_singleton. split.
    - intros Ha. inversion Ha; congruence.
    - intros ->. by constructor. }
  destruct (alloc_at _ _) as [o|] eqn:Eo; [|done]. simpl. destruct (as_class (da o)) as [cd|] eqn:Ec; [|done]. simpl.
  destruct (parents fuel s _) as [l'|] eqn:Ep; [|done]. intros [= <-]. destruct (IH _ _ Ep) as [[n Hn] Hl].
  assert (class_at s c cd) as Hc by by exists o.
  split; [exists (S n); by eapply rooted_step|]. intros x. rewrite elem_of_cons. split.
  - intros Ha. inversion Ha as [|c0 cd0 x0 H0 H1 H2 H3 E0]; subst; [by left|right].
    apply Hl. by rewrite <- (class_at_fun _ _ _ _ _ eq_refl H2 Hc).
  - intros [->|Hx]; [by constructor|]. eapply anc_up; [done..|]. by apply Hl.
Qed.

(** A thread that is about to throw the integer 5, with handlers for integers
    (at 7) and, inside, for strings (at 9). *)
Definition ex_throw_prog (hs : pvm_root_t -> list pvm_exception_handler) : M vm (pvm_object * pvm_object) :=
  cur ← ex_thread_prog [0] [];
  o ← pvm_create_int_object 5;
  os_push (data cur) o;;
  r ← gets pvm_root;
  for_each (es_push (data cur)) (hs r);;
  mret (cur, o).

(** What the claims ask for, as a test. *)
Section ThrowTest.
Context (s : vm) (th : Z) (obj : pvm_object) (hs : list pvm_exception_handler).

Definition throw_b : bool :=
  obj_b s th (fun d => match d with DA_thread _ => true | _ => false end) &&
  one_page_b ostack_kind s (_ostack (thread_of s th)) [obj] &&
  one_page_b estack_kind s (_estack (thread_of s th)) hs &&
  forallb (fun e => match parents 3 s (eh_object e) with Some _ => true | None => false end) hs &&
  match alloc_at (heap s) (data obj) with
  | Some o => (data (_class o) =? data (int_class (pvm_root s))) &&
              bool_decide (as_int (da o) = Some 5) && flag (_flags o) PHANTOM_OBJECT_STORAGE_FLAG_IS_INT &&
              match da o with DA_int _ => true | _ => false end
  | None => false
  end.

Lemma throw_b_sound :
  throw_b = true ->
  frame_at s th (thread_of s th) [obj] hs /\ handlers_ok s hs /\
  throwable s obj (data (int_class (pvm_root s))) /\
  exists o, alloc_at (heap s) (data obj) = Some o /\
    flag (_flags o) PHANTOM_OBJECT_STORAGE_FLAG_IS_INT = true /\ da o = DA_int 5.
Proof.
  unfold throw_b. rewrite !andb_true_iff. intros ((((Hth & Ho) & He) & Hp) & Hobj). split_and!.
  - split; [by apply thread_of_obj|by apply one_page_b_sound|by apply one_page_b_sound].
  - unfold handlers_ok. apply list.Forall_forall. intros e Hin. rewrite forallb_forall in Hp.
    apply list_elem_of_In in Hin. specialize (Hp e Hin).
    destruct (parents _ _ _) as [l|] eqn:El; [|done]. by apply parents_spec in El as [? _].
  - destruct (alloc_at _ _) as [o|] eqn:Eo; [|done]. rewrite !andb_true_iff in Hobj.
    exists o. destruct Hobj as (((? & _) & _) & Hd). split_and!; [done|lia|]. by destruct (da o).
  - destruct (alloc_at _ _) as [o|] eqn:Eo; [|done]. rewrite !andb_true_iff, bool_decide_eq_true in Hobj.
    destruct Hobj as (((_ & Hv) & Hf) & Hd). exists o. split_and!; [done|done|].
    destruct (da o); try discriminate Hd. by injection Hv as ->.
Qed.
End ThrowTest.

Section ExThrow.
Context (hs : pvm_root_t -> list pvm_exception_handler).
Definition ex_throw : vm * (pvm_object * pvm_object) :=
  match ex_throw_prog hs ex_boot with Ret r s => (s, r) | _ => (ex_boot, (null_ref, null_ref)) end.
Definition ex_throw_s : vm := ex_throw.1.
Definition ex_throw_th : Z := data ex_throw.2.1.
Definition ex_throw_o : pvm_object := ex_throw.2.2.
Definition ex_throw_t : da_thread := thread_of ex_throw_s ex_throw_th.
Definition ex_throw_hs : list pvm_exception_handler := hs (pvm_root ex_throw_s).
Definition ex_throw_ok := throw_b_sound ex_throw_s ex_throw_th ex_throw_o ex_throw_hs.
End ExThrow.

Definition ex_handlers (r : pvm_root_t) : list pvm_exception_handler :=
  [mkHandler (int_class r) 7; mkHandler (string_class r) 9].

(** The string handler is inside and does not match. *)
Lemma ex_innermost :
  innermost (ex_throw_s ex_handlers) (data (int_class (pvm_root (ex_throw_s ex_handlers))))
    (ex_throw_hs ex_handlers) (Some (mkHandler (int_class (pvm_root (ex_throw_s ex_handlers))) 7)).
Proof.
  exists [], [mkHandler (string_class (pvm_root (ex_throw_s ex_handlers))) 9]. split_and!; [reflexivity| |].
  - apply anc_here. vm_compute. reflexivity.
  - constructor; [|constructor]. unfold catches. cbn [eh_object].
    destruct (parents 3 (ex_throw_s ex_handlers) (string_class (pvm_root (ex_throw_s ex_handlers)))) as [l|] eqn:El;
      [|vm_compute in El; discriminate El].
    destruct (parents_spec _ _ _ _ El) as [_ Hl]. rewrite Hl.
    assert (l = [data (string_class (pvm_root (ex_throw_s ex_handlers)))]) as ->
      by (vm_compute in El; injection El as <-; vm_compute; reflexivity).
    rewrite list_elem_of_singleton. vm_compute. discriminate.
Qed.

Lemma pvm_exec_find_catch_correct_witness :
  pvm_exec_find_catch (_estack (ex_throw_t ex_handlers)) (ex_throw_o ex_handlers) (ex_throw_s ex_handlers)
  = Ret (Some 7) (ex_throw_s ex_handlers).
Proof.
  destruct (ex_throw_ok ex_handlers ltac:(vm_compute; reflexivity)) as (Hf & Hok & Ht & _).
  destruct (pvm_exec_find_catch_correct (ex_throw_s ex_handlers) _ _ _ _ _ _ Hf Hok Ht) as (e & He & E).
  unfold ex_throw_t. rewrite E, (innermost_fun _ _ _ _ _ He ex_innermost). reflexivity.
Defined.

Lemma pvm_exec_do_throw_caught_witness :
  exists s', pvm_exec_do_throw (fun o _ _ => mret o) (ex_throw_th ex_handlers) (ex_throw_s ex_handlers) = Ret tt s' /\
    frame_at s' (ex_throw_th ex_handlers) (at_ip (u32 7) (ex_throw_t ex_handlers)) [ex_throw_o ex_handlers]
      (ex_throw_hs ex_handlers).
Proof.
  destruct (ex_throw_ok ex_handlers ltac:(vm_compute; reflexivity)) as (Hf & Hok & Ht & _).
  destruct (pvm_exec_do_throw_caught (fun o _ _ => mret o) (ex_throw_s ex_handlers) _ _ [] _ _ _ _ Hf Hok Ht
    ex_innermost) as (s' & E & H & _).
  exists s'. split; [exact E|exact H].
Defined.

Lemma pvm_exec_do_throw_uncaught_witness :
  pvm_exec_do_throw (fun o _ _ => mret o) (ex_throw_th (fun _ => [])) (ex_throw_s (fun _ => []))
  = Panic "unwind: nowhere to return".
Proof.
  destruct (ex_throw_ok (fun _ => []) ltac:(vm_compute; reflexivity)) as (Hf & Hok & Ht & o & Ho & Hi & Hv).
  destruct (alloc_at (heap (ex_throw_s (fun _ => []))) (data (call_frame (ex_throw_t (fun _ => []))))) as [oc|] eqn:Ec;
    [|vm_compute in Ec; discriminate Ec].
  destruct (da oc) as [| | | | | | | | |f| | | | | | | | | |] eqn:Ed;
    try (vm_compute in Ec; injection Ec as <-; discriminate Ed).
  apply (pvm_exec_do_throw_uncaught (fun o _ _ => mret o) (ex_throw_s (fun _ => [])) _ _ [] [] _ _ f o 5 Hf Hok Ht
    (list.Forall_nil_2 _) (ex_intro _ oc (conj Ec Ed))); [|exact Ho|exact Hi|exact Hv].
  vm_compute in Ec. injection Ec as <-. injection Ed as <-. vm_compute. reflexivity.
Defined.
