(* ===== verification/Root.v ===== *)
(** * The root object: start up, restart, kernel environment ([phantom/vm/root.c])

    The first object of the object space holds the references the kernel needs
    to run.  A fresh system creates the internal classes and the lists the
    machine keeps, saves them in the slots of the root object, sets up the kernel
    environment and runs the boot class; an old one loads the same references
    back from the slots and restarts the objects on the restart list. *)

From S2P Require Import Prelude Heap Refcount Alloc Opcodes Create Stacks Object Counted Frame Code Exec.

(** ** The members of [pvm_root], by the slot each is saved in *)

Definition set_root_member (slot : Z) (v : pvm_object) (r : pvm_root_t) : pvm_root_t :=
  let f i old := if slot =? i then v else old in
  mkRoot
    (f PVM_ROOT_OBJECT_NULL_CLASS (null_class r)) (f PVM_ROOT_OBJECT_CLASS_CLASS (class_class r))
    (f PVM_ROOT_OBJECT_INTERFACE_CLASS (interface_class r)) (f PVM_ROOT_OBJECT_CODE_CLASS (code_class r))
    (f PVM_ROOT_OBJECT_INT_CLASS (int_class r)) (f PVM_ROOT_OBJECT_LONG_CLASS (long_class r))
    (float_class r) (double_class r)
    (f PVM_ROOT_OBJECT_STRING_CLASS (string_class r)) (f PVM_ROOT_OBJECT_ARRAY_CLASS (array_class r))
    (f PVM_ROOT_OBJECT_PAGE_CLASS (page_class r)) (f PVM_ROOT_OBJECT_THREAD_CLASS (thread_class r))
    (f PVM_ROOT_OBJECT_CALL_FRAME_CLASS (call_frame_class r))
    (f PVM_ROOT_OBJECT_ISTACK_CLASS (istack_class r)) (f PVM_ROOT_OBJECT_OSTACK_CLASS (ostack_class r))
    (f PVM_ROOT_OBJECT_ESTACK_CLASS (estack_class r)) (f PVM_ROOT_OBJECT_BOOT_CLASS (boot_class r))
    (f PVM_ROOT_OBJECT_BINARY_CLASS (binary_class r)) (f PVM_ROOT_OBJECT_BITMAP_CLASS (bitmap_class r))
    (f PVM_ROOT_OBJECT_WORLD_CLASS (world_class r)) (f PVM_ROOT_OBJECT_CLOSURE_CLASS (closure_class r))
    (weakref_class r)
    (f PVM_ROOT_OBJECT_WINDOW_CLASS (window_class r))
    (f PVM_ROOT_OBJECT_DIRECTORY_CLASS (directory_class r))
    (f PVM_ROOT_OBJECT_CONNECTION_CLASS (connection_class r))
    (f PVM_ROOT_OBJECT_MUTEX_CLASS (mutex_class r)) (f PVM_ROOT_OBJECT_COND_CLASS (cond_class r))
    (f PVM_ROOT_OBJECT_SEMA_CLASS (sema_class r))
    (f PVM_ROOT_OBJECT_NULL (null_object r)) (f PVM_ROOT_OBJECT_SYSINTERFACE (sys_interface_object r))
    (f PVM_ROOT_OBJECT_CLASS_LOADER (class_loader r)) (f PVM_ROOT_OBJECT_THREAD_LIST (threads_list r))
    (f PVM_ROOT_OBJECT_RESTART_LIST (restart_list r)) (f PVM_ROOT_OBJECT_USERS_LIST (users_list r))
    (f PVM_ROOT_OBJECT_KERNEL_ENVIRONMENT (kernel_environment r))
    (f PVM_ROOT_OBJECT_OS_ENTRY (os_entry r)) (f PVM_ROOT_OBJECT_ROOT_DIR (root_dir r))
    (f PVM_ROOT_KERNEL_STATISTICS (kernel_stats r)).

(** The members that are not classes, with their slots, in the order they are saved. *)
Definition saved_members : list (Z * (pvm_root_t -> pvm_object)) :=
  [ (PVM_ROOT_OBJECT_NULL, null_object); (PVM_ROOT_OBJECT_SYSINTERFACE, sys_interface_object);
    (PVM_ROOT_OBJECT_CLASS_LOADER, class_loader);
    (PVM_ROOT_OBJECT_THREAD_LIST, threads_list); (PVM_ROOT_OBJECT_RESTART_LIST, restart_list);
    (PVM_ROOT_OBJECT_USERS_LIST, users_list);
    (PVM_ROOT_OBJECT_KERNEL_ENVIRONMENT, kernel_environment);
    (PVM_ROOT_OBJECT_OS_ENTRY, os_entry); (PVM_ROOT_OBJECT_ROOT_DIR, root_dir);
    (PVM_ROOT_KERNEL_STATISTICS, kernel_stats) ].

(** The same in the order they are loaded. *)
Definition loaded_members : list Z :=
  [ PVM_ROOT_OBJECT_NULL; PVM_ROOT_OBJECT_THREAD_LIST; PVM_ROOT_OBJECT_SYSINTERFACE;
    PVM_ROOT_OBJECT_RESTART_LIST; PVM_ROOT_OBJECT_USERS_LIST; PVM_ROOT_OBJECT_CLASS_LOADER;
    PVM_ROOT_OBJECT_KERNEL_ENVIRONMENT; PVM_ROOT_OBJECT_OS_ENTRY; PVM_ROOT_OBJECT_ROOT_DIR;
    PVM_ROOT_KERNEL_STATISTICS ].

Definition set_member (slot : Z) (v : pvm_object) : M vm unit :=
  modify (fun s => set_root (set_root_member slot v (pvm_root s)) s).

(** ** The classes *)

Definition pvm_iclass_by_root_index (index : Z) : M vm Z :=
  match list_find (fun c => ic_root_index c = index) pvm_internal_classes with
  | Some (i, _) => mret (Z.of_nat i)
  | None => panic "no iclass with root index"
  end.

(** [SET_ROOT_CLASS(cn,ri)] *)
Definition SET_ROOT_CLASS (ri : Z) : M vm unit :=
  i ← pvm_iclass_by_root_index ri;
  cls ← gets class_objects;
  c ← some_or_fault (cls !!z i) "class table";
  set_member ri c.

Definition set_root_from_table : M vm unit :=
  for_each SET_ROOT_CLASS
    [ PVM_ROOT_OBJECT_NULL_CLASS; PVM_ROOT_OBJECT_CLASS_CLASS; PVM_ROOT_OBJECT_INTERFACE_CLASS;
      PVM_ROOT_OBJECT_CODE_CLASS; PVM_ROOT_OBJECT_INT_CLASS; PVM_ROOT_OBJECT_LONG_CLASS;
      PVM_ROOT_OBJECT_STRING_CLASS; PVM_ROOT_OBJECT_ARRAY_CLASS; PVM_ROOT_OBJECT_PAGE_CLASS;
      PVM_ROOT_OBJECT_THREAD_CLASS; PVM_ROOT_OBJECT_CALL_FRAME_CLASS; PVM_ROOT_OBJECT_ISTACK_CLASS;
      PVM_ROOT_OBJECT_OSTACK_CLASS; PVM_ROOT_OBJECT_ESTACK_CLASS; PVM_ROOT_OBJECT_BOOT_CLASS;
      PVM_ROOT_OBJECT_BINARY_CLASS; PVM_ROOT_OBJECT_BITMAP_CLASS; PVM_ROOT_OBJECT_CLOSURE_CLASS;
      PVM_ROOT_OBJECT_WORLD_CLASS; PVM_ROOT_OBJECT_WINDOW_CLASS; PVM_ROOT_OBJECT_DIRECTORY_CLASS;
      PVM_ROOT_OBJECT_CONNECTION_CLASS; PVM_ROOT_OBJECT_MUTEX_CLASS; PVM_ROOT_OBJECT_COND_CLASS;
      PVM_ROOT_OBJECT_SEMA_CLASS ].

(** ** Persistent statistics ([libphantom/stats.c])

    An array of [struct persistent_kernel_stats], two [u_int64_t] each, in the
    bytes of a binary object. *)

Definition MAX_STAT_COUNTERS : Z := 128.
Definition STAT_CNT_PERSISTENT_DA_SIZE : Z := MAX_STAT_COUNTERS * 16.
Definition STAT_CNT_SNAPSHOT : Z := 1.

(** Little endian access to the bytes [off] .. [off+7]. *)
Definition get_u64 (off : Z) (b : list Z) : Z :=
  foldr (fun x acc => x + 256 * acc) 0 (take 8 (drop (Z.to_nat off) b)).
Fixpoint le_bytes (n : nat) (v : Z) : list Z :=
  match n with
  | O => []
  | S n' => v mod 256 :: le_bytes n' (v / 256)
  end.
Definition put_u64 (off v : Z) (b : list Z) : list Z :=
  take (Z.to_nat off) b ++ le_bytes 8 v ++ drop (Z.to_nat off + 8) b.

(** [pdata[i].total_prev_runs] is at [16 * i], [total_prev_and_this_runs] behind it. *)
Definition total_prev_runs (i : nat) : Z := 16 * Z.of_nat i.
Definition total_prev_and_this_runs (i : nat) : Z := 16 * Z.of_nat i + 8.

Definition stat_set_persistent_storage (pdata : list Z) : list Z :=
  foldl (fun b i => put_u64 (total_prev_runs i) (get_u64 (total_prev_and_this_runs i) b) b)
    pdata (seq 0 (Z.to_nat MAX_STAT_COUNTERS)).

Definition start_persistent_stats : M vm unit :=
  st ← gets (fun s => kernel_stats (pvm_root s));
  '(data_size, b) ← load_da as_binary (data st);
  if data_size <? STAT_CNT_PERSISTENT_DA_SIZE then mret tt
  else update (data st) (set_da (DA_binary data_size (stat_set_persistent_storage b))).

(** The counter [STAT_CNT_OS_REBOOTS] that is counted here too is not persistent. *)
Definition process_specific_restarts : M vm unit :=
  start_persistent_stats;;
  st ← gets (fun s => kernel_stats (pvm_root s));
  '(data_size, b) ← load_da as_binary (data st);
  let off := total_prev_runs (Z.to_nat STAT_CNT_SNAPSHOT) in
  (if off + 8 <=? Z.of_nat (length b) then mret tt else fault "counters past the object");;
  update (data st) (set_da (DA_binary data_size (put_u64 off (u64 (get_u64 off b + 1)) b))).

(** ** Creation of the root objects *)

Definition N_SYS_METHODS : Z := 64.
Definition sizeof_class : Z := 68.

(** Store a new object as member of [pvm_root]. *)
Definition new_member (slot : Z) (m : M vm pvm_object) : M vm unit := o ← m; set_member slot o.

Section Start.
Context (K : kernel).
(** [sizeof] the data areas, in the order of the table: some of them contain
    structures of the window system and of the host. *)
Context (da_sizes : list Z).

Fixpoint create_classes (i : Z) (tab : list (internal_class * Z)) : M vm (list pvm_object) :=
  match tab with
  | [] => mret []
  | (ic, da_size) :: rest =>
      curr ← pvm_object_alloc sizeof_class
        (Z.lor PHANTOM_OBJECT_STORAGE_FLAG_IS_INTERNAL PHANTOM_OBJECT_STORAGE_FLAG_IS_CLASS) true;
      da ← load_class curr;
      update curr (set_da (DA_class (mkClass (ic_flags ic) da_size (object_default_interface da) i
        (class_name da) (class_parent da) (static_vars da) (ip2line_maps da) (method_names da)
        (field_names da))));;
      sys ← gets (fun s => sys_interface_object (pvm_root s));
      others ← create_classes (i + 1) rest;
      mret (mkObj curr (data sys) :: others)
  end.

Definition link_class (c : pvm_object) : M vm unit :=
  r ← gets pvm_root;
  da ← load_class (data c);
  update (data c) (set_da (DA_class (mkClass (object_flags da) (object_data_area_size da)
    (sys_interface_object r) (sys_table_id da) (class_name da) (null_class r) (static_vars da)
    (ip2line_maps da) (method_names da) (field_names da))));;
  update (data c) (set_class (class_class r)).

Definition name_class (x : internal_class * pvm_object) : M vm unit :=
  name ← pvm_create_string_object (string_bytes (ic_name x.1));
  da ← load_class (data x.2);
  update (data x.2) (set_da (DA_class (mkClass (object_flags da) (object_data_area_size da)
    (object_default_interface da) (sys_table_id da) name (class_parent da) (static_vars da)
    (ip2line_maps da) (method_names da) (field_names da)))).

Definition pvm_create_directory_object : M vm pvm_object :=
  c ← gets (fun s => directory_class (pvm_root s)); pvm_object_create_fixed c.

Definition create_array : M vm pvm_object :=
  c ← gets (fun s => array_class (pvm_root s)); pvm_create_object (k_init_window K) c.

Definition pvm_create_root_objects : M vm unit :=
  root ← gets pvm_object_space_start;
  roota ← pvm_object_alloc (PVM_ROOT_OBJECTS_COUNT * sizeof_pvm_object) 0 true;
  assert_ (root =? roota) "root == roota";;
  new_member PVM_ROOT_OBJECT_SYSINTERFACE
    (d ← pvm_object_alloc (N_SYS_METHODS * sizeof_pvm_object) PHANTOM_OBJECT_STORAGE_FLAG_IS_INTERFACE false;
     mret (mkObj d d));;
  sys ← gets (fun s => sys_interface_object (pvm_root s));
  new_member PVM_ROOT_OBJECT_NULL (d ← pvm_object_alloc 0 0 true; mret (mkObj d (data sys)));;
  cls ← create_classes 0 (zip pvm_internal_classes da_sizes);
  modify (set_class_objects cls);;
  set_root_from_table;;
  r ← gets pvm_root;
  update (data (null_object r)) (set_class (null_class r));;
  update (data (sys_interface_object r)) (set_class (interface_class r));;
  for_each link_class cls;;
  for_each name_class (zip pvm_internal_classes cls);;
  pvm_fill_syscall_interface (sys_interface_object r) N_SYS_METHODS;;
  new_member PVM_ROOT_OBJECT_THREAD_LIST create_array;;
  new_member PVM_ROOT_OBJECT_KERNEL_ENVIRONMENT create_array;;
  new_member PVM_ROOT_OBJECT_RESTART_LIST create_array;;
  new_member PVM_ROOT_OBJECT_USERS_LIST create_array;;
  new_member PVM_ROOT_OBJECT_ROOT_DIR pvm_create_directory_object;;
  new_member PVM_ROOT_KERNEL_STATISTICS (pvm_create_binary_object STAT_CNT_PERSISTENT_DA_SIZE None);;
  r ← gets pvm_root;
  ref_saturate_o (threads_list r);;
  ref_saturate_o (kernel_environment r);;
  ref_saturate_o (users_list r);;
  ref_saturate_o (kernel_stats r);;
  start_persistent_stats.

(** ** Saving and loading the root object *)

Definition save_member (root : Z) (x : Z * (pvm_root_t -> pvm_object)) : M vm unit :=
  v ← gets (fun s => x.2 (pvm_root s)); pvm_set_field root x.1 v.

Definition pvm_save_root_objects : M vm unit :=
  root ← gets pvm_object_space_start;
  o ← load root;
  assert_ (object_start_marker (_ah o) =? PVM_OBJECT_START_MARKER) "object_start_marker";;
  cls ← gets class_objects;
  for_each (fun x => pvm_set_field root (ic_root_index x.1) x.2) (zip pvm_internal_classes cls);;
  for_each (save_member root) saved_members.

(** The part of [pvm_root_init] that loads the references. *)
Fixpoint load_classes (root : Z) (tab : list internal_class) : M vm (list pvm_object) :=
  match tab with
  | [] => mret []
  | ic :: rest =>
      c ← pvm_get_field root (ic_root_index ic); others ← load_classes root rest; mret (c :: others)
  end.

Definition load_root_objects : M vm unit :=
  root ← gets pvm_object_space_start;
  s ← get;
  o ← load root;
  assert_ (pvm_object_is_allocated (pvm_object_space_end s) root o) "pvm_object_is_allocated( root )";;
  cls ← load_classes root pvm_internal_classes;
  modify (set_class_objects cls);;
  set_root_from_table;;
  for_each (fun slot => new_member slot (pvm_get_field root slot)) loaded_members.
End Start.

(** ** The kernel environment

    C strings are lists of bytes without the terminating zero.  The entries of
    the environment are string objects [key=value]; string objects have no
    terminating zero, so a search that does not find its byte runs past the
    object. *)

Definition EQ_CHAR : Z := 61.

(** [strchr( s, c ) - s] *)
Fixpoint strchr (c : Z) (s : list Z) : option Z :=
  match s with
  | [] => None
  | x :: rest => if x =? c then Some 0 else
                 if x =? 0 then None else i ← strchr c rest; Some (i + 1)
  end.

(** The search in the bytes of a string object. *)
Definition strchr_data (c : Z) (s : list Z) : M vm (option Z) :=
  match strchr c s with
  | Some i => mret (Some i)
  | None => if existsb (Z.eqb 0) s then mret None else fault "strchr past the string"
  end.

Fixpoint env_name_loop (fuel : nat) (env : Z) (name : list Z) (i items : Z) : M vm Z :=
  match fuel with
  | O => diverge
  | S fuel' =>
      if i <? items then
        o ← pvm_get_array_ofield env i;
        '(_, ed) ← load_da as_string (data o);
        eqpos ← strchr_data EQ_CHAR ed;
        match eqpos with
        | None => env_name_loop fuel' env name (i + 1) items
        | Some keylen =>
            d ← some_or_fault (strncmp ed (name ++ [0]) (Z.to_nat keylen)) "strncmp past the string";
            if d =? 0 then mret i else env_name_loop fuel' env name (i + 1) items
        end
      else mret (-1)
  end.

Definition get_env_name_pos (name : list Z) : M vm Z :=
  env ← gets (fun s => kernel_environment (pvm_root s));
  items ← get_array_size (data env);
  env_name_loop (S (Z.to_nat items)) (data env) name 0 items.

Definition MAX_ENV_KEY : Z := 256.

Definition phantom_setenv (name value : list Z) : M vm unit :=
  let ename := take (Z.to_nat (MAX_ENV_KEY - 2)) name ++ [EQ_CHAR] in
  s ← pvm_create_string_object_binary_cat (Some ename) (Z.of_nat (length ename))
        (Some value) (Z.of_nat (length value));
  pos ← get_env_name_pos name;
  env ← gets (fun s => kernel_environment (pvm_root s));
  if pos <? 0 then pvm_append_array (data env) s
  else pvm_set_array_ofield (data env) pos s.

(** A C string in a buffer: the bytes before the first zero. *)
Fixpoint c_string (s : list Z) : list Z :=
  match s with
  | [] => []
  | x :: rest => if x =? 0 then [] else x :: c_string rest
  end.

(** The value, for the return code 1.  The last of the [vsize] bytes that
    [strncpy] writes is replaced by zero, so the byte it reads behind the end of
    the string does not matter. *)
Definition phantom_getenv (name : list Z) (vsize : Z) : M vm (option (list Z)) :=
  pos ← get_env_name_pos name;
  if pos <? 0 then mret None else
  assert_ (1 <? vsize) "vsize > 1";;
  env ← gets (fun s => kernel_environment (pvm_root s));
  o ← pvm_get_array_ofield (data env) pos;
  if data o =? 0 then mret None else
  '(el, ed) ← load_da as_string (data o);
  eqpos ← strchr_data EQ_CHAR ed;
  match eqpos with
  | None => mret None
  | Some i =>
      let vsize := Z.min vsize (i32 (el - (i + 1)) + 1) in
      mret (Some (c_string (take (Z.to_nat (vsize - 1)) (drop (Z.to_nat (i + 1)) ed))))
  end.

Definition load_env (e : list Z) : M vm unit :=
  match strchr EQ_CHAR e with
  | None => mret tt
  | Some eq => phantom_setenv (take (Z.to_nat (Z.min eq 128)) e) (drop (Z.to_nat (eq + 1)) e)
  end.

(** [main_env]: the environment of the boot loader. *)
Definition load_kernel_boot_env (main_env : list (list Z)) : M vm unit :=
  let setenv n v := phantom_setenv (string_bytes n) (string_bytes v) in
  setenv "root.shell" ".ru.dz.phantom.system.shell";;
  setenv "root.init" ".ru.dz.phantom.system.init";;
  setenv "root.boot" ".ru.dz.phantom.system.boot";;
  for_each load_env main_env.

(** ** The restart list *)

Definition pvm_add_object_to_restart_list (o : pvm_object) : M vm unit :=
  ref_inc_o o;;
  rl ← gets (fun s => restart_list (pvm_root s));
  pvm_append_array (data rl) o.

(** [pvm_is_eq(o1,o2)] assigns: the new first argument, and the condition. *)
Definition pvm_is_eq (o1 o2 : pvm_object) : pvm_object * bool :=
  (mkObj (data o2) (interface o1), negb (data o2 =? 0)).

Fixpoint remove_restart_loop (fuel : nat) (list_ : Z) (o : pvm_object) (i items : Z) : M vm unit :=
  match fuel with
  | O => diverge
  | S fuel' =>
      if i <? items then
        o1 ← pvm_get_array_ofield list_ i;
        let '(o, eq) := pvm_is_eq o o1 in
        if eq then
          null ← pvm_create_null_object;
          pvm_set_array_ofield list_ i null
        else remove_restart_loop fuel' list_ o (i + 1) items
      else mret tt
  end.

Definition pvm_remove_object_from_restart_list (o : pvm_object) : M vm unit :=
  curr_restart_list ← gets (fun s => restart_list (pvm_root s));
  items ← get_array_size (data curr_restart_list);
  isnull ← pvm_is_null curr_restart_list;
  if (isnull : bool) then mret tt
  else remove_restart_loop (S (Z.to_nat items)) (data curr_restart_list) o 0 items.

(** ** Boot and restart *)

(** The drivers and the window system, and the loader of class files. *)
Record devices := mkDevices {
  phantom_connect_object : Z -> Z -> M vm Z;      (** connection, thread or 0 *)
  phantom_disconnect_object : Z -> M vm Z;
  w_restart : Z -> M vm unit;                     (** [w_restart_init], [w_restart_attach] *)
  pvm_load_class_from_module : list Z -> M vm (option pvm_object);
}.

Section Boot.
Context (K : kernel) (D : devices) (da_sizes : list Z) (fuel : nat).

Definition pvm_connect_object (o : pvm_object) (tc : Z) : M vm Z :=
  pvm_add_object_to_restart_list o;;
  phantom_connect_object D (data o) tc.

Definition pvm_disconnect_object (o : pvm_object) (tc : Z) : M vm Z :=
  pvm_remove_object_from_restart_list o;;
  phantom_disconnect_object D (data o).

(** The functions in the [restart] column.  [pvm_restart_connection] also clears
    the driver pointer, which is not part of the data area modelled here. *)
Definition restart_object (f : restart_func) (o : pvm_object) : M vm unit :=
  match f with
  | restart_none | restart_directory => mret tt
  | restart_tty | restart_window => pvm_add_object_to_restart_list o;; w_restart D (data o)
  | restart_connection => pvm_connect_object o 0;; mret tt
  end.

Definition find_restart_f (class_ : pvm_object) : M vm restart_func :=
  c ← load (data class_);
  (if flag (_flags c) PHANTOM_OBJECT_STORAGE_FLAG_IS_CLASS then mret tt
   else panic "find_restart_f: not a class object");;
  da ← load_class (data class_);
  assert_ (sys_table_id da <? Z.of_nat (length pvm_internal_classes)) "sys_table_id < pvm_n_internal_classes";;
  ic ← some_or_fault (pvm_internal_classes !!z sys_table_id da) "class table";
  mret (ic_restart ic).

Definition handle_object_at_restart (o : pvm_object) : M vm unit :=
  os ← load (data o);
  if negb (flag (_flags os) PHANTOM_OBJECT_STORAGE_FLAG_IS_INTERNAL) then mret tt else
  rf ← find_restart_f (_class os);
  restart_object rf o.

Fixpoint restart_loop (n : nat) (list_ i items : Z) : M vm unit :=
  match n with
  | O => diverge
  | S n' =>
      if i <? items then
        o ← pvm_get_array_ofield list_ i;
        isnull ← pvm_is_null o;
        (if (isnull : bool) then mret tt else handle_object_at_restart o);;
        restart_loop n' list_ (i + 1) items
      else mret tt
  end.

Definition process_generic_restarts (root : Z) : M vm unit :=
  prev ← gets (fun s => restart_list (pvm_root s));
  ref_inc_o prev;;
  new_member PVM_ROOT_OBJECT_RESTART_LIST (create_array K);;
  rl ← gets (fun s => restart_list (pvm_root s));
  pvm_set_field root PVM_ROOT_OBJECT_RESTART_LIST rl;;
  items ← get_array_size (data prev);
  isnull ← pvm_is_null prev;
  if (isnull : bool) then mret tt else
  restart_loop (S (Z.to_nat items)) (data prev) 0 items;;
  ref_dec_o prev.

Definition boot_class_name : M vm (list Z) :=
  v ← phantom_getenv (string_bytes "root.boot") 128;
  mret (default (string_bytes ".ru.dz.phantom.system.boot") v).

Definition pvm_boot : M vm unit :=
  bc ← gets (fun s => boot_class (pvm_root s));
  system_boot ← pvm_create_object (k_init_window K) bc;
  name ← boot_class_name;
  cls ← pvm_load_class_from_module D name;
  match cls with
  | None => panic "Unable to load user boot class"
  | Some user_boot_class =>
      user_boot ← pvm_create_object (k_init_window K) user_boot_class;
      pvm_exec_run_method K fuel user_boot 8 [system_boot];; mret tt
  end.

(** Memory that holds no object yet has no start marker. *)
Definition pvm_root_init (main_env : list (list Z)) : M vm unit :=
  root ← gets pvm_object_space_start;
  s ← get;
  let marker := match heap s !! root with Some o => object_start_marker (_ah o) | None => 0 end in
  if negb (marker =? PVM_OBJECT_START_MARKER) then
    pvm_alloc_clear_mem;;
    pvm_create_root_objects K da_sizes;;
    pvm_save_root_objects;;
    load_kernel_boot_env main_env;;
    pvm_boot
  else
    load_root_objects;;
    process_specific_restarts;;
    process_generic_restarts root.

Definition create_and_run_object (class_name : list Z) (method : Z) : M vm unit :=
  let method := if method <? 0 then 8 else method in
  name ← pvm_create_string_object class_name;
  user_class ← pvm_exec_lookup_class_by_name (pvm_exec_run_method K fuel) name;
  isnull ← pvm_is_null user_class;
  if (isnull : bool) then mret tt else
  user_o ← pvm_create_object (k_init_window K) user_class;
  ref_dec_o user_class;;
  pvm_exec_run_method K fuel user_o method [];;
  ref_dec_o user_o.
End Boot.

(** ** Properties *)

Section RootObject.
Implicit Types (s : vm).

(** Store references in slots of a plain object. *)
Definition put_slots (ps : list (Z * pvm_object)) (l : list pvm_object) : list pvm_object :=
  foldl (fun l p => <[Z.to_nat p.1 := p.2]> l) l ps.

Lemma put_slots_other ps l slot : slot ∉ ps.*1 -> Forall (fun p => 0 <= p.1) ps -> 0 <= slot ->
  put_slots ps l !!z slot = l !!z slot.
Proof.
  revert l. induction ps as [|[i v] ps IH]; intros l Hn Hp Hs; [done|]. cbn [put_slots foldl].
  apply list.Forall_cons in Hp as [Hi Hp]. simpl in *. apply not_elem_of_cons in Hn as [Hne Hn].
  fold (put_slots ps (<[Z.to_nat i:=v]> l)). rewrite IH by done.
  rewrite <- (Z2Nat.id slot), !lookupZ_nat by done. apply list_lookup_insert_ne. lia.
Qed.

Lemma put_slots_in ps l slot v : NoDup ps.*1 -> (slot, v) ∈ ps ->
  Forall (fun p => 0 <= p.1 < Z.of_nat (length l)) ps -> put_slots ps l !!z slot = Some v.
Proof.
  revert l. induction ps as [|[i w] ps IH]; intros l Hd Hin Hp; [by apply elem_of_nil in Hin|].
  apply list.NoDup_cons in Hd as [Hn Hd]. apply list.Forall_cons in Hp as [Hi Hp]. simpl in *.
  fold (put_slots ps (<[Z.to_nat i:=w]> l)). apply elem_of_cons in Hin as [[= -> ->]|Hin].
  - rewrite put_slots_other; [|done| |lia].
    + rewrite <- (Z2Nat.id i) at 2 by lia. rewrite lookupZ_nat, list_lookup_insert_eq; [done|lia].
    + eapply list.Forall_impl; [done|]. simpl. lia.
  - apply IH; [done|done|]. by rewrite length_insert.
Qed.

Lemma put_slots_app ps qs l : put_slots (ps ++ qs) l = put_slots qs (put_slots ps l).
Proof. unfold put_slots. by rewrite foldl_app. Qed.

Lemma put_slots_length ps l : length (put_slots ps l) = length l.
Proof. revert l. induction ps as [|p ps IH]; intros l; [done|]. simpl. by rewrite IH, length_insert. Qed.

(** The object at [a] has slots [l], and nothing else changed since [s0] but its
    data area. *)
Record saved (a : Z) (o : pvm_object_storage) (s0 : vm) (l : list pvm_object) (s : vm) : Prop := {
  sv_slots : slots_at s a l;
  sv_only : only_at (eq a) s0 s;
  sv_head : exists d, alloc_at (heap s) a = Some (set_da d o);
}.

(** A run of stores over null slots. *)
Lemma save_slots_spec {A} (g : A -> Z * pvm_object) (f : A -> M vm unit) a o s0 l s xs :
  heap_wf s0 -> saved a o s0 l s -> NoDup (map g xs).*1 ->
  Forall (fun x => valid s0 (g x).2) xs ->
  (forall x s, x ∈ xs -> alloc_env s = alloc_env s0 -> f x s = pvm_set_field a (g x).1 (g x).2 s) ->
  Forall (fun x => exists old, l !!z (g x).1 = Some old /\ data old = 0) xs ->
  wp (for_each f xs) s (fun _ s' => saved a o s0 (put_slots (map g xs) l) s').
Proof.
  intros Hwf. revert l s. induction xs as [|x xs IH]; intros l s Hs Hd Hv Hf Ho; cbn [for_each map]; [by wp_step|].
  apply list.NoDup_cons in Hd as [Hn Hd]. apply list.Forall_cons in Hv as [Hv Hvs].
  apply list.Forall_cons in Ho as [(old & Hold & H0) Hos]. destruct Hs as [S1 S2 [d S3]].
  destruct (set_field_spec s a l (g x).1 old (g x).2) as ([] & s1 & E1 & o1 & l' & El & Eo & U & Hl');
    [apply S2| |done|done|by left|].
  - eapply valid_live; [|done]. apply S2.
  - wp_step. exists tt, s1. split; [rewrite Hf; [done|by left|apply S2]|].
    rewrite S3 in Eo. injection Eo as <-.
    apply lookupZ_Some in Hold as Hb. destruct Hb as [Hb0 Hb%lookup_lt_Some].
    assert (l' = <[Z.to_nat (g x).1 := (g x).2]> l) as ->.
    { rewrite <- (Z2Nat.id (g x).1), insertZ_nat in El by lia. by injection El as <-. }
    apply IH; [|done|done| |].
    + split; [done| |by eexists; apply U]. eapply only_at_trans; [done|by eapply only_at_upd|done].
    + intros y s2 Hy He. apply Hf; [by right|done].
    + rewrite list.Forall_forall in Hos |- *. intros y Hy. destruct (Hos y Hy) as (q & Hq & Hq0).
      exists q. split; [|done]. apply lookupZ_Some in Hq as [Hp0 Hq]. apply lookupZ_Some. split; [done|].
      rewrite list_lookup_insert_ne; [done|]. intros E. apply Hn. apply list_elem_of_fmap.
      exists (g y). split; [lia|]. apply list_elem_of_fmap. by exists y.
Qed.

Lemma load_classes_spec a l s tab : heap_wf s -> slots_at s a l -> forall cls,
  Forall2 (fun ic c => l !!z ic_root_index ic = Some c /\ valid s c) tab cls ->
  load_classes a tab s = Ret cls s.
Proof.
  intros Hwf Hl. induction tab as [|ic tab IH]; intros cls H; inversion H as [|? c ? cls' [Hc Hv] Hr]; subst; [done|].
  cbn [load_classes]. destruct (get_field_spec s a l _ c Hwf Hl Hc Hv) as (? & ? & E & -> & ->).
  rewrite (bind_Ret _ _ _ _ _ E). by rewrite (bind_Ret _ _ _ _ _ (IH cls' Hr)).
Qed.
End RootObject.

(** The members of [pvm_root] are the classes of the table, and those that no
    code assigns are null. *)
Definition root_linked (s : vm) : Prop :=
  set_root_from_table s = Ret tt s /\
  float_class (pvm_root s) = null_ref /\ double_class (pvm_root s) = null_ref /\
  weakref_class (pvm_root s) = null_ref.

(** [pvm_root] after the loads. *)
Definition with_members (vs : list pvm_object) (r : pvm_root_t) : pvm_root_t :=
  foldl (fun r p => set_root_member p.1 p.2 r) r (zip loaded_members vs).

Section Reload.
Implicit Types (s : vm).

Lemma heap_wf_set_root r s : heap_wf s -> heap_wf (set_root r s).
Proof. intros [[] ?]. by split. Qed.

Lemma heap_wf_set_class_objects l s : heap_wf s -> heap_wf (set_class_objects l s).
Proof. intros [[] ?]. by split. Qed.

Lemma load_members_spec a l s slots vs : heap_wf s -> slots_at s a l ->
  Forall2 (fun slot v => l !!z slot = Some v /\ valid s v) slots vs ->
  forall r, for_each (fun slot => new_member slot (pvm_get_field a slot)) slots (set_root r s)
    = Ret tt (set_root (foldl (fun r p => set_root_member p.1 p.2 r) r (zip slots vs)) s).
Proof.
  intros Hwf Hl H. induction H as [|slot v slots vs [Hv Hvv] H IH]; intros r; [done|].
  cbn [for_each zip zip_with foldl]. destruct (get_field_spec (set_root r s) a l slot v (heap_wf_set_root r s Hwf) Hl Hv Hvv) as (? & ? & E & -> & ->).
  assert (new_member slot (pvm_get_field a slot) (set_root r s) = Ret tt (set_root (set_root_member slot v r) s)) as Em.
  { unfold new_member. by rewrite (bind_Ret _ _ _ _ _ E). }
  rewrite (bind_Ret _ _ _ _ _ Em). apply IH.
Qed.

Lemma linked_classes s l : class_objects s = l -> length l = 26%nat ->
  exists r, set_root_from_table s = Ret tt (set_root r s).
Proof.
  destruct s as [h b e st en cu g1 g2 r cls fin sn]. simpl. intros <- Hl.
  do 26 (destruct cls as [|? cls]; [done|]). destruct cls; [|done]. eexists. by vm_compute.
Qed.

(** Linking the root to the table of classes, then loading the other members,
    gives back the root that was linked to it. *)
Lemma relink s s0 : root_linked s -> length (class_objects s) = 26%nat ->
  pvm_root s0 = zero_root -> class_objects s0 = class_objects s ->
  exists r, set_root_from_table s0 = Ret tt (set_root r s0) /\
    with_members (map (fun slot => default null_ref (snd <$> find (fun p => p.1 =? slot)
      (map (fun x => (x.1, x.2 (pvm_root s))) saved_members))) loaded_members) r = pvm_root s.
Proof.
  destruct s as [h b e st en cu g1 g2 r cls fin sn], s0 as [h' b' e' st' en' cu' g1' g2' r' cls' fin' sn'].
  intros (Hr & Hf & Hd & Hw) Hl H0 Hc. simpl in *. subst r' cls'.
  do 26 (destruct cls as [|? cls]; [done|]). destruct cls; [|done].
  destruct r. simpl in Hf, Hd, Hw. vm_compute in Hr. injection Hr. intros. subst.
  eexists. split; vm_compute; reflexivity.
Qed.
End Reload.

Section RoundTrip.
Implicit Types (s : vm).

(** The slots of the root object and what is saved there. *)
Definition class_slot (x : internal_class * pvm_object) : Z * pvm_object := (ic_root_index x.1, x.2).
Definition member_slot (r : pvm_root_t) (x : Z * (pvm_root_t -> pvm_object)) : Z * pvm_object :=
  (x.1, x.2 r).
Definition class_slots s : list (Z * pvm_object) :=
  map class_slot (zip pvm_internal_classes (class_objects s)).
Definition member_slots s : list (Z * pvm_object) := map (member_slot (pvm_root s)) saved_members.

Lemma root_slots s : length (class_objects s) = 26%nat ->
  (class_slots s ++ member_slots s).*1 = map ic_root_index pvm_internal_classes ++ saved_members.*1.
Proof.
  intros Hl. rewrite fmap_app. f_equal. unfold class_slots, class_slot.
  generalize dependent (class_objects s). intros cls Hl. do 26 (destruct cls as [|? cls]; [done|]).
  by destruct cls.
Qed.

Lemma root_slots_nodup s : length (class_objects s) = 26%nat ->
  NoDup (class_slots s ++ member_slots s).*1 /\
  Forall (fun p => 0 <= p.1 < PVM_ROOT_OBJECTS_COUNT) (class_slots s ++ member_slots s).
Proof.
  intros Hl. split.
  - rewrite root_slots by done. apply (bool_decide_unpack _). by vm_compute.
  - apply (Forall_fmap fst (fun i => 0 <= i < PVM_ROOT_OBJECTS_COUNT)). rewrite root_slots by done.
    apply (bool_decide_unpack _). by vm_compute.
Qed.

(** What the saved slots hold. *)
Lemma saved_class s l : length (class_objects s) = 26%nat -> length l = Z.to_nat PVM_ROOT_OBJECTS_COUNT ->
  Forall (valid s) (class_objects s) ->
  Forall2 (fun ic c => put_slots (class_slots s ++ member_slots s) l !!z ic_root_index ic = Some c /\ valid s c)
    pvm_internal_classes (class_objects s).
Proof.
  intros Hl Hlen Hv. destruct (root_slots_nodup s Hl) as [Hd Hp]. apply Forall2_same_length_lookup.
  split; [by rewrite Hl|]. intros i ic c Hi Hc. split; [|by eapply Forall_lookup_1].
  apply put_slots_in; [done| |].
  - apply elem_of_app. left. apply list_elem_of_fmap. exists (ic, c). split; [done|].
    apply (list_elem_of_lookup_2 _ i). by rewrite lookup_zip_with, Hi, Hc.
  - eapply list.Forall_impl; [exact Hp|]. rewrite Hlen. simpl. unfold PVM_ROOT_OBJECTS_COUNT. lia.
Qed.

Lemma saved_member s l : length (class_objects s) = 26%nat -> length l = Z.to_nat PVM_ROOT_OBJECTS_COUNT ->
  Forall (fun x => valid s (x.2 (pvm_root s))) saved_members ->
  Forall2 (fun slot v => put_slots (class_slots s ++ member_slots s) l !!z slot = Some v /\ valid s v)
    loaded_members (map (fun slot => default null_ref (snd <$> find (fun p => p.1 =? slot)
      (map (fun x => (x.1, x.2 (pvm_root s))) saved_members))) loaded_members).
Proof.
  intros Hl Hlen Hv. destruct (root_slots_nodup s Hl) as [Hd Hp].
  assert (forall x, x ∈ saved_members ->
    put_slots (class_slots s ++ member_slots s) l !!z x.1 = Some (x.2 (pvm_root s)) /\ valid s (x.2 (pvm_root s))) as Hx.
  { intros x Hx. split; [|by apply (proj1 (list.Forall_forall _ _) Hv)]. apply put_slots_in; [done| |].
    - apply elem_of_app. right. apply list_elem_of_fmap. by exists x.
    - eapply list.Forall_impl; [exact Hp|]. rewrite Hlen. simpl. unfold PVM_ROOT_OBJECTS_COUNT. lia. }
  assert (forall i slot f, saved_members !! i = Some (slot, f) -> 
    put_slots (class_slots s ++ member_slots s) l !!z slot = Some (f (pvm_root s)) /\ valid s (f (pvm_root s))) as Hi.
  { intros i slot f E. apply (Hx (slot, f)). by eapply list_elem_of_lookup_2. }
  cbn. constructor; [by apply (Hi 0%nat)|]. constructor; [by apply (Hi 3%nat)|].
  constructor; [by apply (Hi 1%nat)|]. constructor; [by apply (Hi 4%nat)|].
  constructor; [by apply (Hi 5%nat)|]. constructor; [by apply (Hi 2%nat)|].
  constructor; [by apply (Hi 6%nat)|]. constructor; [by apply (Hi 7%nat)|].
  constructor; [by apply (Hi 8%nat)|]. constructor; [by apply (Hi 9%nat)|]. done.
Qed.
End RoundTrip.

Section RoundTrip2.
Implicit Types (s : vm).

Lemma save_root_spec s l o :
  let a := pvm_object_space_start s in
  heap_wf s -> slots_at s a l -> alloc_at (heap s) a = Some o ->
  length l = Z.to_nat PVM_ROOT_OBJECTS_COUNT -> Forall (fun o => data o = 0) l ->
  length (class_objects s) = 26%nat -> Forall (valid s) (class_objects s) ->
  Forall (fun x => valid s (x.2 (pvm_root s))) saved_members ->
  wp pvm_save_root_objects s (fun _ s1 => saved a o s (put_slots (class_slots s ++ member_slots s) l) s1).
Proof.
  intros a Hwf Hl Ho Hlen Hnull Hc Hcv Hmv. destruct (root_slots_nodup s Hc) as [Hd Hp].
  assert (forall x, x ∈ class_slots s ++ member_slots s -> exists old, l !!z x.1 = Some old /\ data old = 0) as Hold.
  { intros x Hx. apply (proj1 (list.Forall_forall _ _) Hp) in Hx.
    destruct (lookup_lt_is_Some_2 l (Z.to_nat x.1)) as [old E].
    { rewrite Hlen. unfold PVM_ROOT_OBJECTS_COUNT in *. lia. }
    exists old. split; [apply lookupZ_Some; split; [lia|done]|]. by apply (Forall_lookup_1 _ _ _ _ Hnull E). }
  unfold pvm_save_root_objects. wp_step. wp_step. wp_step. eapply wp_load; [by apply heap_of_alloc|].
  rewrite (alloc_marker s a o Hwf Ho), Z.eqb_refl. simpl assert_. wp_step. wp_step. wp_step. wp_step. wp_step.
  rewrite fmap_app in Hd. apply list.NoDup_app in Hd as (Hd1 & Hd2 & Hd3). apply list.Forall_app in Hp as [Hp1 Hp2].
  eapply wp_mono; [apply (save_slots_spec class_slot _ a o s l s); try done|].
  - split; [done|by apply only_at_grows, grows_refl|]. exists (da o). by destruct o.
  - apply list.Forall_forall. intros [ic c] Hx%elem_of_zip_r. by apply (proj1 (list.Forall_forall _ _) Hcv).
  - apply list.Forall_forall. intros x Hx. apply Hold, elem_of_app. left. by apply list_elem_of_fmap_2.
  - intros [] s2 H2. rewrite put_slots_app. apply (save_slots_spec (member_slot (pvm_root s))); try done.
    + intros x s3 Hx He. unfold save_member. assert (pvm_root s3 = pvm_root s) as <-; [|done].
      unfold alloc_env in He. by injection He.
    + apply list.Forall_forall. intros x Hx.
      assert (member_slot (pvm_root s) x ∈ member_slots s) as Hm by by apply list_elem_of_fmap_2.
      rewrite put_slots_other; [apply Hold, elem_of_app; by right| | |].
      * intros Hin. apply (Hd2 _ Hin). by apply list_elem_of_fmap_2.
      * eapply list.Forall_impl; [exact Hp1|]. simpl. lia.
      * by apply (proj1 (list.Forall_forall _ _) Hp2) in Hm as [? _].
Qed.

Lemma load_root_spec s s0 l :
  let a := pvm_object_space_start s0 in
  heap_wf s0 -> slots_at s0 a l -> root_linked s -> length (class_objects s) = 26%nat -> pvm_root s0 = zero_root ->
  Forall2 (fun ic c => l !!z ic_root_index ic = Some c /\ valid s0 c) pvm_internal_classes (class_objects s) ->
  Forall2 (fun slot v => l !!z slot = Some v /\ valid s0 v)
    loaded_members (map (fun slot => default null_ref (snd <$> find (fun p => p.1 =? slot)
      (map (fun x => (x.1, x.2 (pvm_root s))) saved_members))) loaded_members) ->
  load_root_objects s0 = Ret tt (set_root (pvm_root s) (set_class_objects (class_objects s) s0)).
Proof.
  intros a Hwf Hl Hlink Hc Hr Hcls Hm. pose proof Hl as (o & Ho & _). apply alloc_at_Some in Ho as [Eo Ha].
  unfold load_root_objects, gets, get. unfold mbind at 1, M_bind at 1. unfold mbind at 1, M_bind at 1.
  fold a. erewrite bind_Ret by (unfold load; by rewrite Eo).
  destruct (lw_all _ (proj1 Hwf) a o Eo) as (i & st & en & Hi & Hx).
  rewrite (is_allocated_ok s0 i st en a o) by done. rewrite (bind_Ret _ _ s0 tt s0) by done.
  rewrite (bind_Ret _ _ _ _ _ (load_classes_spec a l s0 _ Hwf Hl _ Hcls)).
  set (s2 := set_class_objects (class_objects s) s0). rewrite (bind_Ret _ _ s0 tt s2) by done.
  destruct (relink s s2) as (r & Er & Em); [done..|]. rewrite (bind_Ret _ _ _ _ _ Er).
  etransitivity; [apply (load_members_spec a l s2 _ _ (heap_wf_set_class_objects _ _ Hwf) Hl Hm)|].
  do 2 f_equal. exact Em.
Qed.
End RoundTrip2.

(** ** The claim on restarts *)

(** C22: the references of the kernel survive a restart.  When the root object is
    fresh, [pvm_save_root_objects] writes the root object and nothing else; a
    machine that starts on that memory with empty globals gets back, by loading
    the root object, the same table of classes and the same [pvm_root], member by
    member. *)
Theorem root_objects_restored s l :
  heap_wf s -> slots_at s (pvm_object_space_start s) l ->
  length l = Z.to_nat PVM_ROOT_OBJECTS_COUNT -> Forall (fun o => data o = 0) l ->
  length (class_objects s) = 26%nat -> Forall (valid s) (class_objects s) ->
  Forall (fun x => valid s (x.2 (pvm_root s))) saved_members -> root_linked s ->
  exists s1, pvm_save_root_objects s = Ret tt s1 /\ only_at (eq (pvm_object_space_start s)) s s1 /\
    forall s0, heap_wf s0 -> heap s0 = heap s1 ->
      pvm_object_space_start s0 = pvm_object_space_start s -> pvm_root s0 = zero_root ->
      load_root_objects s0 = Ret tt (set_root (pvm_root s) (set_class_objects (class_objects s) s0)).
Proof.
  intros Hwf Hl Hlen Hnull Hc Hcv Hmv Hlink. pose proof Hl as (o & Ho & _).
  destruct (save_root_spec s l o) as ([] & s1 & E1 & [S1 S2 _]); [done..|].
  exists s1. split; [done|]. split; [done|]. intros s0 Hwf0 Eh Es Er.
  assert (forall v, valid s v -> valid s0 v) as Hv.
  { intros v Hv. apply (valid_live s1); [unfold live; by rewrite Eh|]. eapply valid_live; [apply S2|done]. }
  eapply load_root_spec; try done.
  - rewrite Es. unfold slots_at in *. by rewrite Eh.
  - apply (list.Forall2_impl _ _ _ _ (saved_class s l Hc Hlen Hcv)). intros ic c [? ?]. by auto.
  - apply (list.Forall2_impl _ _ _ _ (saved_member s l Hc Hlen Hmv)). intros slot v [? ?]. by auto.
Qed.

(** ** The environment as a list of keys and values *)

Section Env.
Implicit Types (s : vm) (e : list Z * list Z) (es : list (list Z * list Z)).

(** The string object at [a] holds the bytes [b]. *)
Definition string_at s (a : Z) (b : list Z) : Prop :=
  exists o, alloc_at (heap s) a = Some o /\ da o = DA_string (Z.of_nat (length b)) b.

Definition env_string e : list Z := e.1 ++ EQ_CHAR :: e.2.

Definition key_ok (k : list Z) : Prop := Forall (fun x => x <> 0 /\ x <> EQ_CHAR) k.
Definition text_ok (v : list Z) : Prop := Forall (fun x => x <> 0) v.
Definition entry_ok e : Prop :=
  key_ok e.1 /\ text_ok e.2 /\ Z.of_nat (length (env_string e)) < 2 ^ 31.

(** The entry the code takes for [name]: the first whose key is a prefix of it. *)
Definition env_find (name : list Z) es : option (nat * (list Z * list Z)) :=
  list_find (fun e => e.1 `prefix_of` name) es.

Record env_rep s es : Prop := {
  er_array : exists l, array_rep s (data (kernel_environment (pvm_root s))) l /\
    Forall (valid s) l /\ Forall2 (fun o e => string_at s (data o) (env_string e)) l es;
  er_entries : Forall entry_ok es;
  er_len : Z.of_nat (length es) < 2 ^ 27;
}.

Lemma strchr_entry k v : key_ok k -> strchr EQ_CHAR (k ++ EQ_CHAR :: v) = Some (Z.of_nat (length k)).
Proof.
  induction 1 as [|x k [Hz He] Hk IH]; [done|]. cbn [app strchr].
  destruct (Z.eqb_spec x EQ_CHAR); [done|]. destruct (Z.eqb_spec x 0); [done|]. rewrite IH. simpl.
  f_equal. lia.
Qed.

Lemma strncmp_key k t name : text_ok k -> text_ok name ->
  exists r, strncmp (k ++ t) (name ++ [0]) (length k) = Some r /\ (r = 0 <-> k `prefix_of` name).
Proof.
  intros Hk. revert name. induction Hk as [|x k Hx Hk IH]; intros name Hn; simpl.
  - exists 0. split; [done|]. split; [intros _; apply prefix_nil|done].
  - destruct name as [|y name]; simpl.
    + assert (~ x :: k `prefix_of` []) as Hnp by by intros ?%prefix_nil_inv.
      destruct (Z.ltb_spec x 0); [by exists (-1)|]. destruct (Z.ltb_spec 0 x); [by exists 1|]. lia.
    + apply list.Forall_cons in Hn as [Hy Hn].
      destruct (Z.ltb_spec x y); [exists (-1); split; [done|]; split; [done|intros Hp%prefix_cons_inv_1; lia]|].
      destruct (Z.ltb_spec y x); [exists 1; split; [done|]; split; [done|intros Hp%prefix_cons_inv_1; lia]|].
      assert (x = y) as -> by lia. destruct (Z.eqb_spec y 0); [done|].
      destruct (IH name Hn) as (r & Er & Hr). exists r. split; [done|]. rewrite Hr. split.
      * apply prefix_cons.
      * apply prefix_cons_inv_2.
Qed.

Lemma load_env_string s es i o e l : 
  Forall2 (fun o e => string_at s (data o) (env_string e)) l es -> l !! i = Some o -> es !! i = Some e ->
  load_da as_string (data o) s = Ret (Z.of_nat (length (env_string e)), env_string e) s.
Proof.
  intros H Hl He. destruct (Forall2_lookup_lr _ _ _ _ _ _ H Hl He) as (q & Hq & Hd).
  unfold load_da. erewrite bind_Ret by (unfold load; by rewrite (heap_of_alloc _ _ _ Hq)).
  by rewrite Hd.
Qed.

Lemma strchr_data_entry e s : key_ok e.1 ->
  strchr_data EQ_CHAR (env_string e) s = Ret (Some (Z.of_nat (length e.1))) s.
Proof. intros Hk. unfold strchr_data, env_string. by rewrite strchr_entry. Qed.

Lemma key_text k : key_ok k -> text_ok k.
Proof. intros H. eapply list.Forall_impl; [exact H|]. naive_solver. Qed.

(** The index the search returns. *)
Definition env_pos (name : list Z) es : Z :=
  match env_find name es with Some (i, _) => Z.of_nat i | None => -1 end.

Lemma env_name_loop_spec s a l es name pre post : 
  heap_wf s -> array_rep s a l -> Forall (valid s) l -> Z.of_nat (length l) < 2 ^ 31 ->
  Forall2 (fun o e => string_at s (data o) (env_string e)) l es -> Forall entry_ok es -> text_ok name ->
  es = pre ++ post -> Forall (fun e => ~ e.1 `prefix_of` name) pre ->
  env_name_loop (S (length post)) a name (Z.of_nat (length pre)) (Z.of_nat (length es)) s
  = Ret (env_pos name es) s.
Proof.
  intros Hwf Hr Hv Hlen H2 Hok Hn. revert pre. induction post as [|e post IH]; intros pre -> Hpre.
  - rewrite app_nil_r. cbn [env_name_loop length]. rewrite Z.ltb_irrefl. unfold env_pos, env_find.
    by rewrite (proj2 (list_find_None _ _)).
  - cbn [env_name_loop]. rewrite length_app. cbn [length].
    destruct (Z.ltb_spec (Z.of_nat (length pre)) (Z.of_nat (length pre + S (length post)))); [|lia].
    assert ((pre ++ e :: post) !! length pre = Some e) as Hee by by apply list_lookup_middle.
    destruct (lookup_lt_is_Some_2 l (length pre)) as [o Ho].
    { rewrite (Forall2_length H2), length_app. simpl. lia. }
    rewrite (bind_Ret _ _ s o s).
    2:{ rewrite (array_get_spec s a l) by (done || lia). by rewrite lookupZ_nat, Ho. }
    rewrite (bind_Ret _ _ _ _ _ (load_env_string _ _ _ _ _ _ H2 Ho Hee)).
    pose proof (Forall_lookup_1 _ _ _ _ Hok Hee) as (Hk & _).
    rewrite (bind_Ret _ _ _ _ _ (strchr_data_entry e s Hk)). rewrite Nat2Z.id.
    destruct (strncmp_key e.1 (EQ_CHAR :: e.2) name) as (r & Er & Hpr); [by apply key_text|done|].
    unfold env_string. rewrite Er. rewrite (bind_Ret _ _ s r s) by done.
    destruct (Z.eqb_spec r 0) as [Hr0|Hr0].
    + assert (env_pos name (pre ++ e :: post) = Z.of_nat (length pre)) as ->; [|done].
      unfold env_pos, env_find. rewrite (proj2 (list_find_Some _ _ (length pre) e)); [done|].
      split_and!; [done|by apply Hpr|]. intros j y Hj Hlt. rewrite lookup_app_l in Hj by done.
      by apply (Forall_lookup_1 _ _ _ _ Hpre Hj).
    + specialize (IH (pre ++ [e])). rewrite <- app_assoc, length_app in IH. cbn [app length] in IH.
      replace (Z.of_nat (length pre) + 1) with (Z.of_nat (length pre + 1)) by lia.
      rewrite length_app in IH. cbn [length] in IH. apply IH; [done|].
      apply list.Forall_app. split; [done|]. apply list.Forall_singleton. by rewrite <- Hpr.
Qed.
End Env.

Section EnvOps.
Implicit Types (s : vm) (e : list Z * list Z) (es : list (list Z * list Z)).

Lemma env_rep_length s l es : array_rep s (data (kernel_environment (pvm_root s))) l ->
  Forall2 (fun o e => string_at s (data o) (env_string e)) l es ->
  get_array_size (data (kernel_environment (pvm_root s))) s = Ret (Z.of_nat (length es)) s.
Proof.
  intros [_ (o & ar & Ho & _ & Has & Hu & _)] H2. unfold get_array_size, load_da, load. unfold mbind at 1 2, M_bind at 1 2.
  rewrite (heap_of_alloc _ _ _ Ho), Has. cbn. rewrite Hu. by rewrite (Forall2_length H2).
Qed.

Lemma env_name_pos_spec s es name : heap_wf s -> env_rep s es -> text_ok name ->
  get_env_name_pos name s = Ret (env_pos name es) s.
Proof.
  intros Hwf [(l & Hr & Hv & H2) Hok Hlen] Hn. unfold get_env_name_pos. rewrite bind_gets.
  rewrite (bind_Ret _ _ _ _ _ (env_rep_length s l es Hr H2)). rewrite Nat2Z.id.
  apply (env_name_loop_spec s _ l es name [] es); try done. rewrite (Forall2_length H2). lia.
Qed.

Lemma alloc_pos s x o : heap_wf s -> alloc_at (heap s) x = Some o -> x <> 0.
Proof.
  intros Hwf Ho. destruct (lw_all _ (proj1 Hwf) x o (heap_of_alloc _ _ _ Ho)) as (j & st & en & Hj & Hx).
  destruct (lw_arena _ (proj1 Hwf) j st en Hj) as (? & _). pose proof (lw_space _ (proj1 Hwf)). lia.
Qed.

Lemma c_string_text v : text_ok v -> c_string v = v.
Proof. induction 1 as [|x v Hx Hv IH]; [done|]. simpl. destruct (Z.eqb_spec x 0); [done|]. by rewrite IH. Qed.

Lemma getenv_spec s es name vsize : heap_wf s -> env_rep s es -> text_ok name -> 1 < vsize ->
  phantom_getenv name vsize s =
    Ret ((fun ie => take (Z.to_nat (vsize - 1)) ie.2.2) <$> env_find name es) s.
Proof.
  intros Hwf He Hn Hvs. unfold phantom_getenv.
  rewrite (bind_Ret _ _ _ _ _ (env_name_pos_spec s es name Hwf He Hn)). unfold env_pos.
  destruct (env_find name es) as [[i e]|] eqn:Ef; [|done].
  destruct (Z.ltb_spec (Z.of_nat i) 0); [lia|]. rewrite bind_assert, bind_gets by lia.
  destruct He as [(l & Hr & Hv & H2) Hok Hlen].
  apply list_find_Some in Ef as (Hi & _). destruct (lookup_lt_is_Some_2 l i) as [o Ho].
  { rewrite (Forall2_length H2). by apply lookup_lt_Some in Hi. }
  rewrite (bind_Ret _ _ s o s).
  2:{ rewrite (array_get_spec s _ l); try done; [by rewrite lookupZ_nat, Ho|].
      rewrite (Forall2_length H2). lia. }
  destruct (Forall2_lookup_lr _ _ _ _ _ _ H2 Ho Hi) as (q & Hq & _).
  destruct (Z.eqb_spec (data o) 0) as [Hz|_]; [by apply alloc_pos in Hq|].
  rewrite (bind_Ret _ _ _ _ _ (load_env_string _ _ _ _ _ _ H2 Ho Hi)).
  destruct (Forall_lookup_1 _ _ _ _ Hok Hi) as (Hk & Ht & Hl).
  rewrite (bind_Ret _ _ _ _ _ (strchr_data_entry e s Hk)). cbn [fmap option_fmap option_map snd].
  unfold env_string in *. rewrite length_app in *. cbn [length] in *.
  replace (Z.to_nat (Z.of_nat (length e.1) + 1)) with (length (e.1 ++ [EQ_CHAR])) by (rewrite length_app; simpl; lia).
  replace (e.1 ++ EQ_CHAR :: e.2) with ((e.1 ++ [EQ_CHAR]) ++ e.2) by by rewrite <- app_assoc.
  rewrite drop_app_length. unfold mret, M_ret. do 2 f_equal. rewrite i32_id by lia.
  rewrite c_string_text by by apply list.Forall_take.
  destruct (Z.le_ge_cases vsize (Z.of_nat (length e.2) + 1)).
  - f_equal. lia.
  - rewrite !take_ge by lia. done.
Qed.

Lemma array_rep_grows s s' a l : grows s s' -> array_rep s a l -> array_rep s' a l.
Proof.
  intros G [Hn (o & ar & Ho & Ha & Has & Hu & Hp)]. pose proof (grows_root _ _ G) as Er.
  split; [by rewrite Er|]. exists o, ar. destruct G as (W & E & A). split_and!; try done; [by apply A|].
  destruct Hp as [?|(sl & Hs & Hsz & H0 & Hne & Hna & Hv & Hsp)]; [by left|right].
  exists sl. rewrite Er. split_and!; try done.
  - destruct Hs as (q & Hq & ?). exists q. split; [by apply A|done].
  - eapply valid_live; [|done]. intros x. by apply grows_live.
  - eapply list.Forall_impl; [done|]. intros y [?|(q & Hq & Hr)]; [by left|right]. exists q. split; [by apply A|done].
Qed.
End EnvOps.

Section SetEnv.
Implicit Types (s : vm) (es : list (list Z * list Z)).

Lemma env_string_not_nil e : env_string e <> [].
Proof. unfold env_string. by destruct e.1. Qed.

(** Strings survive an append to an array. *)
Lemma string_at_append s1 s2 a l x b : heap_wf s1 -> array_rep s1 a l ->
  only_at (fun x => x = a \/ exists o ar, alloc_at (heap s1) a = Some o /\
    as_array (da o) = Some ar /\ x = data (Heap.page ar)) s1 s2 ->
  string_at s1 x b -> b <> [] -> string_at s2 x b.
Proof.
  intros Hwf [_ (ao & ar & Hao & _ & Has & _ & Hpg)] O (o & Ho & Hd) Hb. exists o. split; [|done].
  apply (oa_frame _ _ _ O); [|done]. intros [->|(o' & ar' & Ho' & Har' & ->)].
  - rewrite Ho in Hao. injection Hao as <-. by rewrite Hd in Has.
  - rewrite Hao in Ho'. injection Ho' as <-. rewrite Has in Har'. injection Har' as <-.
    destruct Hpg as [[_ H0]|(sl & (q & Hq & _ & Hqs) & _)]; [by apply alloc_pos in Ho|].
    rewrite Ho in Hq. injection Hq as <-. by rewrite Hd in Hqs.
Qed.

Lemma env_rep_append s1 s2 es l p e : heap_wf s1 ->
  array_rep s1 (data (kernel_environment (pvm_root s1))) l ->
  Forall (valid s1) l -> Forall2 (fun o e => string_at s1 (data o) (env_string e)) l es ->
  Forall entry_ok es -> entry_ok e -> Z.of_nat (length es) + 1 < 2 ^ 27 ->
  valid s1 p -> string_at s1 (data p) (env_string e) ->
  array_rep s2 (data (kernel_environment (pvm_root s1))) (l ++ [p]) ->
  only_at (fun x => x = data (kernel_environment (pvm_root s1)) \/ exists o ar,
    alloc_at (heap s1) (data (kernel_environment (pvm_root s1))) = Some o /\
    as_array (da o) = Some ar /\ x = data (Heap.page ar)) s1 s2 ->
  env_rep s2 (es ++ [e]).
Proof.
  intros Hwf Hr Hv H2 Hok He Hlen Hvp Hp Hr2 O.
  assert (pvm_root s2 = pvm_root s1) as Er.
  { pose proof (oa_env _ _ _ O) as E. unfold alloc_env in E. by injection E. }
  assert (forall v, valid s1 v -> valid s2 v) as Hval by (intros v; apply valid_live; apply O).
  split.
  - rewrite Er. exists (l ++ [p]). split; [done|]. split.
    + apply list.Forall_app. split; [|by constructor; [apply Hval|]].
      eapply list.Forall_impl; [exact Hv|exact Hval].
    + apply Forall2_app.
      * apply (list.Forall2_impl _ _ _ _ H2). intros o e' Ho.
        eapply string_at_append; [done|exact Hr|exact O|done|apply env_string_not_nil].
      * constructor; [|done]. eapply string_at_append; [done|exact Hr|exact O|done|apply env_string_not_nil].
  - apply list.Forall_app. split; [done|]. by constructor.
  - rewrite length_app. simpl. lia.
Qed.

(** The class of strings. *)
Definition string_class_ok s : Prop := exists c, class_at s (string_class (pvm_root s)) c /\
  0 <= object_flags c < 2 ^ 32 /\ live s (data (object_default_interface c)).

Lemma env_rep_grows s s' es : grows s s' -> env_rep s es -> env_rep s' es.
Proof.
  intros G [(l & Hr & Hv & H2) Hok Hlen]. pose proof (grows_root _ _ G) as Er. split; [|done|done].
  rewrite Er. exists l. split; [by eapply array_rep_grows|]. split.
  - eapply list.Forall_impl; [exact Hv|]. intros v. apply valid_live. intros x. by apply grows_live.
  - apply (list.Forall2_impl _ _ _ _ H2). intros o e (q & Hq & Hd). exists q. split; [by apply G|done].
Qed.

Lemma setenv_new_spec s es name value : heap_wf s -> env_rep s es ->
  null_saturated s -> page_class_ok s -> string_class_ok s ->
  entry_ok (name, value) -> Z.of_nat (length name) <= MAX_ENV_KEY - 2 ->
  sizeof_string + Z.of_nat (length (env_string (name, value))) < 2 ^ 31 ->
  Z.of_nat (length es) + 1 < 2 ^ 27 -> env_find name es = None ->
  wpe (eq oom) (phantom_setenv name value) s (fun _ s' => heap_wf s' /\ env_rep s' (es ++ [(name, value)])).
Proof.
  intros Hwf He Hns Hpc (c & Hc & Hfl & Hif) Hent Hkl Hsz Hlen Hnone. unfold phantom_setenv.
  rewrite take_ge by lia. unfold env_string in Hsz. rewrite length_app in Hsz. cbn [length fst snd] in Hsz.
  apply wpe_bind. eapply wpe_mono; [apply (string_cat_spec _ _ c); try done|].
  { rewrite length_app. simpl. lia. }
  intros p s1 F. pose proof (fo_grows _ _ _ _ _ _ _ F) as G. pose proof (grows_root _ _ G) as Er.
  destruct (fo_obj _ _ _ _ _ _ _ F) as (q & Hq & _ & _ & _ & _ & _ & Hd).
  pose proof (env_rep_grows _ _ _ G He) as He1. assert (heap_wf s1) as Hwf1 by apply G.
  apply wpe_bind, wp_wpe. eexists _, s1. split.
  { apply (env_name_pos_spec s1 es name); [done|done|]. apply key_text, Hent. }
  apply wpe_bind, wp_wpe, wp_gets. unfold env_pos. rewrite Hnone. cbn.
  destruct He1 as [(l & Hr & Hv & H2) Hok _].
  assert (valid s1 p) as Hvp.
  { right. split; [by exists q|]. right. rewrite (fo_iface _ _ _ _ _ _ _ F). by eapply grows_live. }
  eapply wpe_mono; [apply (append_array_spec s1 _ l p); try done|].
  - destruct Hns as [? ?]. split; [by rewrite Er|]. rewrite Er. by eapply saturated_grows.
  - destruct Hpc as (pc & ? & ? & ? & Hi). exists pc. rewrite Er. split; [by eapply grows_class|]. do 2 (split; [done|]).
    destruct Hi; [by left|right]. by eapply grows_live.
  - rewrite (Forall2_length H2). lia.
  - intros [] s2 [Hr2 O]. split; [apply O|]. apply (env_rep_append s1 s2 es l p); try done.
    exists q. split; [done|]. rewrite Hd. unfold env_string. cbn [fst snd].
    rewrite <- app_assoc. cbn [app]. f_equal. rewrite !length_app. cbn [length]. lia.
Qed.
End SetEnv.

(** [phantom_getenv] returns, without any change, the value of the first
    entry of the environment whose key is a prefix of the name asked for, cut to
    the size of the buffer, and reports failure when there is none. *)
Theorem phantom_getenv_correct s es name vsize : heap_wf s -> env_rep s es -> text_ok name -> 1 < vsize ->
  phantom_getenv name vsize s =
    Ret ((fun ie => take (Z.to_nat (vsize - 1)) ie.2.2) <$> env_find name es) s.
Proof. apply getenv_spec. Qed.

(** C40: a value that is set can be read back.  For a name without an entry, at
    most 254 bytes long and without [=], [phantom_setenv] appends an entry, and
    [phantom_getenv] with a large enough buffer then returns the value; unless
    memory runs out. *)
Theorem phantom_setenv_getenv s es name value vsize : heap_wf s -> env_rep s es ->
  null_saturated s -> page_class_ok s -> string_class_ok s ->
  entry_ok (name, value) -> Z.of_nat (length name) <= MAX_ENV_KEY - 2 ->
  sizeof_string + Z.of_nat (length (env_string (name, value))) < 2 ^ 31 ->
  Z.of_nat (length es) + 1 < 2 ^ 27 -> env_find name es = None ->
  Z.of_nat (length value) < vsize -> 1 < vsize ->
  wpe (eq oom) (phantom_setenv name value;; phantom_getenv name vsize) s (fun r s' =>
    r = Some value /\ env_rep s' (es ++ [(name, value)])).
Proof.
  intros Hwf He Hns Hpc Hsc Hent Hkl Hsz Hlen Hnone Hvl Hvs. apply wpe_bind.
  eapply wpe_mono; [by apply (setenv_new_spec s es)|]. intros [] s1 [Hwf1 He1].
  apply wp_wpe. eexists _, s1. split; [apply (getenv_spec s1 _ name vsize Hwf1 He1)|split; [|done]].
  - apply key_text, Hent.
  - done.
  - unfold env_find in *. rewrite list_find_app_r by done. cbn [list_find]. rewrite decide_True by done.
    cbn. f_equal. rewrite take_ge; [done|lia].
Qed.

(** ** Instances *)

(** A fresh system in 256K of memory, with example sizes of the data areas. *)
Definition ex_da_sizes : list Z :=
  [0; 68; 0; 0; 4; 8; 4; 16; 0; 116; 56; 300; 556; 812; 4; 400; 32; 32; 32; 4; 20; 12; 4; 400; 32; 64].
Definition ex_bare : kernel := mkKernel (fun _ => None) (mret tt) (fun _ => mret tt).
Definition end_state {A} (m : M vm A) (s : vm) : vm := match m s with Ret _ s' => s' | _ => s end.
Definition ex_root : vm :=
  end_state (pvm_alloc_init 65536 262144;; pvm_alloc_clear_mem;; pvm_create_root_objects ex_bare ex_da_sizes)
    (zero_vm ∅).

Lemma ex_root_wf : heap_wf ex_root.
Proof. apply heap_wf_check_sound. vm_compute. reflexivity. Qed.

Definition slots_b (s : vm) (a : Z) : option (list pvm_object) :=
  o ← alloc_at (heap s) a;
  if flag (_flags o) PHANTOM_OBJECT_STORAGE_FLAG_IS_INTERNAL then None else as_slots (da_po_limit o) (da o).

Lemma slots_b_sound s a l : slots_b s a = Some l -> slots_at s a l.
Proof.
  unfold slots_b. destruct (alloc_at _ _) as [o|] eqn:E; [|done]. simpl. destruct (flag _ _) eqn:F; [done|].
  by exists o.
Qed.

Lemma forall_valid_b s l : forallb (valid_b s) l = true -> Forall (valid s) l.
Proof. intros H. apply list.Forall_forall. intros x Hx. apply valid_b_sound. rewrite forallb_forall in H. by apply H, list_elem_of_In. Qed.

Lemma members_valid_b s : forallb (fun x => valid_b s (x.2 (pvm_root s))) saved_members = true ->
  Forall (fun x => valid s (x.2 (pvm_root s))) saved_members.
Proof.
  intros H. apply list.Forall_forall. intros x Hx. apply valid_b_sound.
  rewrite forallb_forall in H. by apply (H x), list_elem_of_In.
Qed.

Lemma only_at_start P s s' : only_at P s s' -> pvm_object_space_start s' = pvm_object_space_start s.
Proof. intros O. pose proof (oa_env _ _ _ O) as E. unfold alloc_env in E. by injection E. Qed.

Lemma set_root_root r s : pvm_root (set_root r s) = r.
Proof. done. Qed.

#[global] Instance pvm_root_t_eq_dec : EqDecision pvm_root_t.
Proof. solve_decision. Defined.

Definition root_linked_b (s : vm) : bool :=
  (length (class_objects s) =? 26)%nat &&
  match set_root_from_table s with Ret _ s' => bool_decide (pvm_root s' = pvm_root s) | _ => false end &&
  bool_decide (float_class (pvm_root s) = null_ref) && bool_decide (double_class (pvm_root s) = null_ref) &&
  bool_decide (weakref_class (pvm_root s) = null_ref).

Lemma root_linked_b_sound s : root_linked_b s = true -> root_linked s.
Proof.
  unfold root_linked_b. rewrite !andb_true_iff, !bool_decide_eq_true, Nat.eqb_eq. intros ((((Hl & Hr) & ?) & ?) & ?).
  split; [|done]. destruct (linked_classes s _ eq_refl Hl) as [r E]. rewrite E in Hr |- *.
  apply bool_decide_eq_true in Hr. simpl in Hr. subst r. by destruct s.
Qed.

Lemma ex_root_linked : root_linked ex_root.
Proof. apply root_linked_b_sound. vm_compute. reflexivity. Qed.

Lemma root_objects_restored_witness :
  exists s1, pvm_save_root_objects ex_root = Ret tt s1 /\
    exists s2, load_root_objects (set_root zero_root s1) = Ret tt s2 /\ pvm_root s2 = pvm_root ex_root.
Proof.
  destruct (root_objects_restored ex_root (replicate 103 null_ref)) as (s1 & E1 & O & H).
  - exact ex_root_wf.
  - apply slots_b_sound. vm_compute. reflexivity.
  - reflexivity.
  - apply list.Forall_replicate. reflexivity.
  - vm_compute. reflexivity.
  - apply forall_valid_b. vm_compute. reflexivity.
  - apply members_valid_b. vm_compute. reflexivity.
  - exact ex_root_linked.
  - exists s1. split; [exact E1|]. eexists. split; [apply H|].
    + apply heap_wf_set_root. exact (oa_wf _ _ _ O).
    + reflexivity.
    + exact (only_at_start _ _ _ O).
    + reflexivity.
    + exact (set_root_root _ _).
Defined.

Definition live_b (s : vm) (p : Z) : bool := match alloc_at (heap s) p with Some _ => true | None => false end.

Lemma live_b_sound s p : live_b s p = true -> live s p.
Proof. unfold live_b, live. by destruct (alloc_at _ _). Qed.

Definition null_saturated_b (s : vm) : bool :=
  let p := data (null_object (pvm_root s)) in
  negb (p =? 0) && match alloc_at (heap s) p with Some q => refCount (_ah q) =? INT_MAX | None => false end.

Lemma null_saturated_b_sound s : null_saturated_b s = true -> null_saturated s.
Proof.
  unfold null_saturated_b, null_saturated, saturated. rewrite andb_true_iff, negb_true_iff.
  destruct (alloc_at _ _) as [q|]; [|by intros [_ ?]]. intros [H1 H2]. split; [lia|]. exists q. split; [done|lia].
Qed.

(** A class whose objects have flags [0 .. 2^32) and a live interface. *)
Definition class_b (s : vm) (cls : pvm_object) : option da_class :=
  o ← alloc_at (heap s) (data cls); c ← as_class (da o);
  if (0 <=? object_flags c) && (object_flags c <? 2 ^ 32) && live_b s (data (object_default_interface c))
  then Some c else None.

Lemma class_b_sound s cls c : class_b s cls = Some c -> class_at s cls c /\
  0 <= object_flags c < 2 ^ 32 /\ live s (data (object_default_interface c)).
Proof.
  unfold class_b, class_at. destruct (alloc_at _ _) as [o|] eqn:Eo; [|done]. simpl.
  destruct (as_class (da o)) as [c'|] eqn:Ec; [|done]. simpl.
  destruct (0 <=? _) eqn:H1; [|done]. destruct (_ <? _) eqn:H2; [|done]. simpl.
  destruct (live_b s _) eqn:H3; [|done]. intros [= ->]. split; [by exists o|]. split; [lia|].
  by apply live_b_sound.
Qed.

Definition plain_class_b (s : vm) (cls : pvm_object) : bool :=
  match class_b s cls with
  | Some c => negb (flag (object_flags c) PHANTOM_OBJECT_STORAGE_FLAG_IS_INTERNAL)
  | None => false
  end.

Lemma page_class_b s : plain_class_b s (page_class (pvm_root s)) = true -> page_class_ok s.
Proof.
  unfold plain_class_b. destruct (class_b s _) as [c|] eqn:E; [|done]. intros H%negb_true_iff.
  apply class_b_sound in E as (? & ? & ?). exists c. split_and!; try done; [lia..|by right].
Qed.

Lemma string_class_b s : (exists c, class_b s (string_class (pvm_root s)) = Some c) -> string_class_ok s.
Proof. intros [c E]. apply class_b_sound in E as (? & ? & ?). by exists c. Qed.

(** An array without elements. *)
Definition empty_array_b (s : vm) (a : Z) : bool :=
  negb (a =? data (null_object (pvm_root s))) &&
  match alloc_at (heap s) a with
  | Some o => is_array o && match as_array (da o) with
      | Some ar => (used_slots ar =? 0) && (data (Heap.page ar) =? 0) | None => false end
  | None => false
  end.

Lemma empty_env_b s : empty_array_b s (data (kernel_environment (pvm_root s))) = true -> env_rep s [].
Proof.
  unfold empty_array_b. rewrite andb_true_iff, negb_true_iff. intros [Hn Hb].
  destruct (alloc_at _ _) as [o|] eqn:Eo; [|done]. apply andb_true_iff in Hb as [Ha Hb].
  destruct (as_array (da o)) as [ar|] eqn:Ear; [|done]. apply andb_true_iff in Hb as [Hu Hp].
  split; [|by constructor|done]. exists []. split; [|by split; constructor].
  split; [lia|]. exists o, ar. split_and!; try done; [simpl; lia|]. left. split; [done|lia].
Qed.

Lemma ex_root_env : env_rep ex_root [].
Proof. apply empty_env_b. vm_compute. reflexivity. Qed.
Lemma ex_root_null : null_saturated ex_root.
Proof. apply null_saturated_b_sound. vm_compute. reflexivity. Qed.
Lemma ex_root_page : page_class_ok ex_root.
Proof. apply page_class_b. vm_compute. reflexivity. Qed.
Definition ex_string_class : da_class := default zero_class (class_b ex_root (string_class (pvm_root ex_root))).
Lemma ex_root_string : string_class_ok ex_root.
Proof. apply string_class_b. exists ex_string_class. vm_compute. reflexivity. Qed.

Definition ex_name : list Z := string_bytes "root.shell".
Definition ex_value : list Z := string_bytes "sh".

Lemma ex_entry_ok : entry_ok (ex_name, ex_value).
Proof. split_and!; [repeat constructor; discriminate|repeat constructor; discriminate|vm_compute; reflexivity]. Qed.

(** The system with one variable set. *)
Definition ex_env : vm := end_state (phantom_setenv ex_name ex_value) ex_root.

Lemma end_state_wpe {A} (m : M vm A) s (Q : A -> vm -> Prop) :
  wpe (eq oom) m s Q -> (match m s with Ret _ _ => true | _ => false end) = true -> exists a, Q a (end_state m s).
Proof. unfold wpe, end_state. destruct (m s); naive_solver. Qed.

Lemma ex_env_rep : heap_wf ex_env /\ env_rep ex_env [(ex_name, ex_value)].
Proof.
  destruct (end_state_wpe _ _ _ (setenv_new_spec ex_root [] ex_name ex_value ex_root_wf ex_root_env ex_root_null
    ex_root_page ex_root_string ex_entry_ok ltac:(vm_compute; discriminate) ltac:(vm_compute; reflexivity)
    ltac:(vm_compute; reflexivity) eq_refl)) as [? H]; [vm_compute; reflexivity|exact H].
Qed.

Lemma phantom_getenv_correct_witness :
  phantom_getenv ex_name 128 ex_env = Ret (Some ex_value) ex_env.
Proof.
  etransitivity.
  - apply (phantom_getenv_correct ex_env [(ex_name, ex_value)] ex_name 128 (proj1 ex_env_rep) (proj2 ex_env_rep)).
    + repeat constructor; discriminate.
    + reflexivity.
  - f_equal.
Defined.

Lemma phantom_setenv_getenv_witness :
  exists s', (phantom_setenv ex_name ex_value;; phantom_getenv ex_name 128) ex_root = Ret (Some ex_value) s'.
Proof.
  pose proof (phantom_setenv_getenv ex_root [] ex_name ex_value 128 ex_root_wf ex_root_env ex_root_null
    ex_root_page ex_root_string ex_entry_ok ltac:(vm_compute; discriminate) ltac:(vm_compute; reflexivity)
    ltac:(vm_compute; reflexivity) eq_refl eq_refl eq_refl) as H. unfold wpe in H.
  destruct ((phantom_setenv ex_name ex_value;; phantom_getenv ex_name 128) ex_root) as [r s'|m|m|] eqn:E;
    [|vm_compute in E; discriminate E|destruct H|destruct H].
  destruct H as [-> _]. exists s'. reflexivity.
Defined.

(** ** Deviations *)

Definition result {A} (m : M vm A) (s : vm) : option A := match m s with Ret a _ => Some a | _ => None end.

(** A variable is found under every name that its key is a prefix of. *)
Lemma getenv_finds_prefix :
  result (phantom_getenv (string_bytes "root.shell.class") 128) ex_env = Some (Some ex_value).
Proof. vm_compute. reflexivity. Qed.

(** ... so that setting such a name replaces the variable. *)
Lemma setenv_replaces_prefix :
  result (phantom_setenv (string_bytes "root.shell.class") (string_bytes "c");;
          phantom_getenv ex_name 128) ex_env = Some None.
Proof. vm_compute. reflexivity. Qed.

(** The object that is to be removed from the restart list plays no role: the
    comparison assigns, and the first element goes. *)
Lemma remove_restart_loop_ignores n list_ o o' i items s :
  remove_restart_loop n list_ o i items s = remove_restart_loop n list_ o' i items s.
Proof.
  revert o o' i s. induction n as [|n IH]; intros o o' i s; [done|]. cbn [remove_restart_loop].
  destruct (i <? items); [|done]. unfold mbind, M_bind.
  destruct (pvm_get_array_ofield list_ i s) as [o1 s1| | |]; try done. cbn. destruct (negb _); [done|]. apply IH.
Qed.

Theorem remove_from_restart_list_ignores o o' s :
  pvm_remove_object_from_restart_list o s = pvm_remove_object_from_restart_list o' s.
Proof.
  unfold pvm_remove_object_from_restart_list, mbind, M_bind, gets, pvm_is_null.
  destruct (get_array_size _ s) as [items s1| | |]; try done. cbn -[remove_restart_loop].
  destruct (_ || _); [done|]. apply remove_restart_loop_ignores.
Qed.
