(* ===== verification/Syscall.v ===== *)
(** * System calls of the internal classes ([phantom/vm/syscall.c], [syscall_sync.c])

    A system call is a method of an internal class that is written in C.  It
    takes its parameters from the stacks of the calling thread, whose address is
    [tc], and leaves a result or an exception object there; it returns whether it
    returned normally.

    The macros of [include/vm/syscall_tools.h] that leave the function early take
    the rest of the function as their last argument. *)

From S2P Require Import Prelude Printf Heap Refcount Alloc Opcodes Create Stacks Object Frame Code Exec Root.

(** ** Library functions *)

(** [update_hash] and [calc_hash] of [libphantom/hashfunc.c], for [unsigned int]
    of 32 bits and signed characters. *)
Definition HIGH_BITS : Z := 0xF0000000.
Definition update_hash (hash_value datum : Z) : Z :=
  let h := u32 (Z.shiftl hash_value 4 + wrapS 8 datum) in
  let i := Z.land h HIGH_BITS in
  if i =? 0 then h else Z.land (Z.lxor h (Z.shiftr i 24)) (Z.lxor HIGH_BITS (2 ^ 32 - 1)).
Definition calc_hash (bytes : list Z) : Z := foldl update_hash 0 bytes.

(** [strnstrn]: the position of [s2] in [s1]; the loop runs [l1-l2+1] times. *)
Fixpoint strnstrn_loop (n : nat) (s1 s2 : list Z) (pos : Z) : option Z :=
  match n with
  | O => None
  | S n' =>
      if bool_decide (take (length s2) s1 = s2) then Some pos
      else strnstrn_loop n' (tail s1) s2 (pos + 1)
  end.
Definition strnstrn (s1 : list Z) (l1 : Z) (s2 : list Z) (l2 : Z) : option Z :=
  if l2 =? 0 then Some 0
  else strnstrn_loop (Z.to_nat (l1 - l2 + 1)) s1 (take (Z.to_nat l2) s2) 0.

(** ** The rest of the kernel *)
Record sysenv := mkSysenv {
  se_where : Z -> list Z;                  (** [__FILE__ ":" line] of syscall.c *)
  se_da_bytes : pvm_object_storage -> list Z;   (** the data area as bytes *)
  se_run_method : pvm_object -> Z -> list pvm_object -> M vm pvm_object;
  se_init_window : Z -> M vm unit;
  se_devices : devices;
  se_activate_thread : pvm_object -> M vm unit;
  se_set_background : pvm_object -> M vm unit;      (** paint a bitmap on the screen *)
  se_string2bmp : Z -> list Z -> M vm bool;         (** true for an error *)
  se_paint_bitmap : Z -> pvm_object -> Z -> Z -> M vm unit;
  se_do_operation : Z -> option (Z -> Z -> pvm_object -> M vm Z);   (** by connection *)
  se_set_name : Z -> list Z -> M vm unit;           (** the name in a connection *)
  se_sizeof_name : Z;
  se_syscall_block : pvm_object -> Z -> M vm bool;
  se_sizeof_thread : Z;                    (** [sizeof(struct data_area_4_thread)] *)
}.

Definition ENXIO : Z := 6.

Definition as_connection (d : data_area) : option da_connection :=
  match d with
  | DA_zero => Some (mkConnection 0 null_ref 0 null_ref) | DA_connection c => Some c | _ => None end.

Section Syscalls.
Context (E : sysenv).

Definition syscall : Type := pvm_object -> Z -> M vm bool.

Section Macros.
Context (tc : Z).

Definition SYSCALL_RETURN (obj : pvm_object) : M vm bool := os_push tc obj;; mret true.
Definition SYSCALL_THROW (obj : pvm_object) : M vm bool := os_push tc obj;; mret false.
Definition SYSCALL_RETURN_NOTHING : M vm bool := o ← pvm_create_null_object; SYSCALL_RETURN o.
Definition throw_bytes (b : list Z) : M vm bool := o ← pvm_create_string_object b; SYSCALL_THROW o.
Definition SYSCALL_THROW_STRING (str : string) : M vm bool := throw_bytes (string_bytes str).
Definition return_string (str : string) : M vm bool :=
  o ← pvm_create_string_object (string_bytes str); SYSCALL_RETURN o.
Definition return_int (v : Z) : M vm bool := o ← pvm_create_int_object v; SYSCALL_RETURN o.

Definition POP_ARG : M vm pvm_object := os_pop tc.
Definition POP_ISTACK : M vm Z := is_pop tc.

Definition CHECK_PARAM_COUNT (n_param must_have : Z) (k : M vm bool) : M vm bool :=
  if n_param <? must_have then SYSCALL_THROW_STRING "sys: need more parameters" else k.

Definition is_of_class (cls : pvm_root_t -> pvm_object) (obj : pvm_object) : M vm bool :=
  o ← load (data obj); c ← gets (fun s => cls (pvm_root s)); mret (data (_class o) =? data c).
Definition IS_PHANTOM_STRING := is_of_class string_class.
Definition IS_PHANTOM_INT := is_of_class int_class.

Definition ASSERT_STRING (obj : pvm_object) (line : Z) (k : M vm bool) : M vm bool :=
  isa ← IS_PHANTOM_STRING obj;
  if (isa : bool) then k else throw_bytes (string_bytes "not a string arg: " ++ se_where E line).
Definition ASSERT_INT (obj : pvm_object) (line : Z) (k : M vm bool) : M vm bool :=
  isa ← IS_PHANTOM_INT obj;
  if (isa : bool) then k else throw_bytes (string_bytes "not an integer arg: " ++ se_where E line).

Definition POP_INT (line : Z) (k : Z -> M vm bool) : M vm bool :=
  ival ← POP_ARG;
  ASSERT_INT ival line (v ← pvm_get_int ival; ref_dec_o ival;; k v).

(** [int n_param = POP_ISTACK; CHECK_PARAM_COUNT(n_param, must_have)] *)
Definition params (must_have : Z) (k : M vm bool) : M vm bool :=
  n_param ← POP_ISTACK; CHECK_PARAM_COUNT n_param must_have k.
End Macros.

(** ** Default calls *)

Definition invalid_syscall : syscall := fun o tc => SYSCALL_THROW_STRING tc "invalid syscall called".
Definition si_void_0_construct : syscall := fun oo tc => SYSCALL_RETURN_NOTHING tc.
Definition si_void_1_destruct : syscall := fun o tc => SYSCALL_RETURN_NOTHING tc.
Definition si_void_2_class : syscall := fun this_obj tc =>
  o ← load (data this_obj); SYSCALL_RETURN tc (_class o).
Definition si_void_3_clone : syscall := fun o tc => SYSCALL_THROW_STRING tc "void clone called".
Definition si_void_4_equals : syscall := fun me tc =>
  params tc 1 (
    him ← POP_ARG tc;
    let ret := b2z (data me =? data him) in
    ref_dec_o him;;
    return_int tc ret).
Definition si_void_5_tostring : syscall := fun o tc => return_string tc "(void)".
Definition si_void_6_toXML : syscall := fun o tc => return_string tc "<void>".
Definition si_void_7_fromXML : syscall := fun o tc => return_string tc "(void)".
Definition si_void_8_def_op_1 : syscall := fun o tc => SYSCALL_THROW_STRING tc "void default op 1 called".
Definition si_void_9_def_op_2 : syscall := fun o tc => SYSCALL_THROW_STRING tc "void default op 2 called".
Definition si_void_15_hashcode : syscall := fun me tc =>
  o ← load (data me); return_int tc (i32 (calc_hash (se_da_bytes E o))).

(** ** int and long *)

Definition si_int_3_clone : syscall := fun me tc => v ← pvm_get_int me; return_int tc v.
Definition si_int_4_equals : syscall := fun me tc =>
  params tc 1 (
    him ← POP_ARG tc;
    mo ← load (data me); ho ← load (data him);
    a ← pvm_get_int me; b ← pvm_get_int him;
    ref_dec_o him;;
    return_int tc (b2z ((data (_class mo) =? data (_class ho)) && (a =? b)))).

(** A new string object from a formatted buffer. *)
Definition return_printed (tc size : Z) (fmt : string) (arg : va) : M vm bool :=
  buf ← some_or_fault (snprintf size fmt [arg]) "snprintf";
  o ← pvm_create_string_object buf; SYSCALL_RETURN tc o.

Definition si_int_5_tostring : syscall := fun me tc =>
  v ← pvm_get_int me; return_printed tc 32 "%d" (va_word v).
Definition si_int_6_toXML : syscall := fun me tc =>
  pvm_get_int me;; SYSCALL_THROW_STRING tc "int toXML called".

Definition si_long_3_clone : syscall := fun me tc =>
  v ← pvm_get_long me; o ← pvm_create_long_object v; SYSCALL_RETURN tc o.
Definition si_long_4_equals : syscall := fun me tc =>
  params tc 1 (
    him ← POP_ARG tc;
    mo ← load (data me); ho ← load (data him);
    a ← pvm_get_long me; b ← pvm_get_long him;
    ref_dec_o him;;
    return_int tc (b2z ((data (_class mo) =? data (_class ho)) && (a =? b)))).
Definition si_long_5_tostring : syscall := fun me tc =>
  v ← pvm_get_long me; return_printed tc 100 "%Ld" (va_quad v).
Definition si_long_6_toXML : syscall := fun me tc =>
  pvm_get_long me;; SYSCALL_THROW_STRING tc "int toXML called".

(** ** string *)

(** [n] bytes from [off] on. *)
Definition slice (off n : Z) (b : list Z) : M vm (list Z) :=
  if (0 <=? off) && (0 <=? n) && (off + n <=? Z.of_nat (length b))
  then mret (take (Z.to_nat n) (drop (Z.to_nat off) b)) else fault "bytes outside the object".

Definition return_bytes (tc off n : Z) (b : list Z) : M vm bool :=
  v ← slice off n b; o ← pvm_create_string_object_binary (Some v) n; SYSCALL_RETURN tc o.

Definition si_string_3_clone : syscall := fun me tc =>
  ASSERT_STRING tc me 362 (
    '(n, b) ← load_da as_string (data me); return_bytes tc 0 n b).

Definition string_equal (me him : pvm_object) : M vm bool :=
  '(n, b) ← load_da as_string (data me);
  '(n', b') ← load_da as_string (data him);
  mo ← load (data me); ho ← load (data him);
  if negb (data (_class mo) =? data (_class ho)) || negb (n =? n') then mret false else
  d ← some_or_fault (strncmp b b' (Z.to_nat n)) "strncmp past the string";
  mret (d =? 0).

Definition si_string_4_equals : syscall := fun me tc =>
  params tc 1 (
    him ← POP_ARG tc;
    isnull ← pvm_is_null him;
    let finish ret := ref_dec_o him;; return_int tc (b2z ret) in
    if (isnull : bool) then finish false
    else ASSERT_STRING tc him 379 (ret ← string_equal me him; finish ret)).

Definition si_string_5_tostring : syscall := fun me tc => SYSCALL_RETURN tc me.

Definition si_string_8_substring : syscall := fun me tc =>
  ASSERT_STRING tc me 405 (params tc 2 (
    POP_INT tc 411 (fun parmlen => POP_INT tc 412 (fun index =>
      '(n, b) ← load_da as_string (data me);
      if (index <? 0) || (n <=? index) then
        SYSCALL_THROW_STRING tc "string.substring index is out of bounds"
      else
        let len := i32 (n - index) in
        let len := if parmlen <? len then parmlen else len in
        if len <? 0 then SYSCALL_THROW_STRING tc "string.substring length is negative"
        else return_bytes tc index len b)))).

Definition si_string_9_charat : syscall := fun me tc =>
  ASSERT_STRING tc me 433 (params tc 1 (
    POP_INT tc 439 (fun index =>
      '(len, b) ← load_da as_string (data me);
      if i32 (len - 1) <? index then
        SYSCALL_THROW_STRING tc "string.charAt index is out of bounds"
      else c ← some_or_fault (b !!z index) "charAt outside the string"; return_int tc c))).

Definition si_string_10_concat : syscall := fun me tc =>
  params tc 1 (
    him ← POP_ARG tc;
    ASSERT_STRING tc him 459 (
      '(n, b) ← load_da as_string (data me);
      '(n', b') ← load_da as_string (data him);
      v ← slice 0 n b; v' ← slice 0 n' b';
      ret ← pvm_create_string_object_binary_cat (Some v) n (Some v') n';
      ref_dec_o him;;
      SYSCALL_RETURN tc ret)).

Definition si_string_11_length : syscall := fun me tc =>
  ASSERT_STRING tc me 477 (params tc 0 (
    '(n, b) ← load_da as_string (data me); return_int tc n)).

Definition si_string_12_find : syscall := fun me tc =>
  params tc 1 (
    him ← POP_ARG tc;
    ASSERT_STRING tc him 494 (
      '(n, b) ← load_da as_string (data me);
      '(n', b') ← load_da as_string (data him);
      let pos := default (-1) (strnstrn b n b' n') in
      ref_dec_o him;;
      return_int tc pos)).

(** ** thread *)

(** [OLD_VM_SLEEP] is 0. *)
Definition si_thread_10_pause : syscall := fun me tc =>
  if negb (data me =? tc) then SYSCALL_THROW_STRING tc "Thread can pause itself only"
  else SYSCALL_THROW_STRING tc "Not this way".
Definition si_thread_11_continue : syscall := fun me tc => SYSCALL_THROW_STRING tc "Not this way".

Definition si_thread_14_getOsInterface : syscall := fun me tc =>
  root ← gets pvm_object_space_start;
  o ← pvm_get_field root PVM_ROOT_OBJECT_OS_ENTRY;
  o ← ref_inc_o o; SYSCALL_RETURN tc o.
Definition si_thread_13_getUser : syscall := fun me tc =>
  t ← load_thread (data me); SYSCALL_RETURN tc (owner t).

Definition set_environment (e : pvm_object) (t : da_thread) : da_thread :=
  mkThread (th_code t) (call_frame t) (owner t) e (_this_object t) (_istack t) (_ostack t)
    (_estack t) (stack_depth t).

Definition si_thread_12_getEnvironment : syscall := fun me tc =>
  t ← load_thread (data me);
  isnull ← pvm_is_null (environment t);
  (if (isnull : bool) then
     env ← pvm_create_string_object (string_bytes ".phantom.environment");
     cl ← pvm_exec_lookup_class_by_name (se_run_method E) env;
     e ← pvm_create_object (se_init_window E) cl;
     t ← load_thread (data me);
     store_thread (data me) (set_environment e t);;
     ref_dec_o env
   else mret tt);;
  t ← load_thread (data me);
  SYSCALL_RETURN tc (environment t).

(** The classes that only add a name: [si_thread_5_tostring] and the like. *)
Definition tostring (name : string) : syscall := fun me tc => return_string tc name.

(** ** class *)

Definition si_class_class_8_new_class : syscall := fun me tc =>
  params tc 3 (
    class_name ← POP_ARG tc;
    POP_INT tc 764 (fun n_object_slots =>
      iface ← POP_ARG tc;
      ASSERT_STRING tc class_name 767 (
        new_class ← pvm_create_class_object class_name iface (i32 (sizeof_pvm_object * n_object_slots));
        SYSCALL_RETURN tc new_class))).

Definition si_class_10_set_static : syscall := fun me tc =>
  params tc 2 (
    static_val ← POP_ARG tc;
    POP_INT tc 787 (fun n_slot =>
      meda ← load_class (data me);
      pvm_set_ofield (static_vars meda) (u32 n_slot) static_val;;
      SYSCALL_RETURN_NOTHING tc)).

Definition si_class_11_get_static : syscall := fun me tc =>
  params tc 2 (
    POP_INT tc 802 (fun n_slot =>
      meda ← load_class (data me);
      ret ← pvm_get_ofield (static_vars meda) (u32 n_slot);
      ret ← ref_inc_o ret;
      SYSCALL_RETURN tc ret)).

Definition si_class_14_instanceof : syscall := fun me tc =>
  params tc 1 (
    instance ← POP_ARG tc;
    isa ← pvm_object_class_is instance me;
    ref_dec_o instance;;
    return_int tc (b2z isa)).

(** ** boot *)

Definition si_bootstrap_8_load_class : syscall := fun me tc =>
  params tc 1 (
    let bufs := 1024 in
    name ← POP_ARG tc;
    ASSERT_STRING tc name 948 (
      '(n, b) ← load_da as_string (data name);
      v ← slice 0 (Z.min bufs n) b;
      ref_dec_o name;;
      let buf := c_string v in
      cls ← pvm_load_class_from_module (se_devices E) buf;
      match cls with
      | None =>
          let msg := string_bytes " - class load error" in
          if bufs - 2 - Z.of_nat (length msg) <=? Z.of_nat (length buf)
          then throw_bytes tc (drop 3 msg) else throw_bytes tc (buf ++ msg)
      | Some new_class => SYSCALL_RETURN tc new_class
      end)).

Fixpoint print_loop (tc : Z) (n_param : nat) : M vm unit :=
  match n_param with
  | O => mret tt
  | S n =>
      o ← POP_ARG tc;
      pvm_object_print (se_run_method E) o;;
      ref_dec_o o;;
      print_loop tc n
  end.

(** A negative count runs until the stack is empty. *)
Definition si_bootstrap_16_print : syscall := fun me tc =>
  n_param ← POP_ISTACK tc;
  print_loop tc (Z.to_nat (u32 n_param));;
  SYSCALL_RETURN_NOTHING tc.

Definition si_bootstrap_17_register_class_loader : syscall := fun me tc =>
  params tc 1 (
    loader ← POP_ARG tc;
    set_member PVM_ROOT_OBJECT_CLASS_LOADER loader;;
    root ← gets pvm_object_space_start;
    pvm_set_field root PVM_ROOT_OBJECT_CLASS_LOADER loader;;
    SYSCALL_RETURN_NOTHING tc).

Definition si_bootstrap_18_thread : syscall := fun me tc =>
  params tc 1 (
    object ← POP_ARG tc;
    new_cf ← pvm_create_call_frame_object;
    let cfda := data new_cf in
    f ← load_frame cfda;
    pvm_ostack_push (data (cf_ostack f)) me;;
    pvm_istack_push (data (cf_istack f)) 1;;
    code ← pvm_exec_find_method object 8;
    pvm_exec_set_cs cfda code;;
    f ← load_frame cfda;
    store_frame cfda (set_cf_this object f);;
    thread ← pvm_create_thread_object new_cf;
    se_activate_thread E thread;;
    SYSCALL_RETURN_NOTHING tc).

Definition si_bootstrap_19_create_binary : syscall := fun me tc =>
  params tc 1 (
    POP_INT tc 1100 (fun nbytes =>
      o ← pvm_create_binary_object nbytes None; SYSCALL_RETURN tc o)).

Definition si_bootstrap_20_set_screen_background : syscall := fun me tc =>
  params tc 1 (
    bmp ← POP_ARG tc;
    c ← gets (fun s => bitmap_class (pvm_root s));
    isa ← pvm_object_class_is bmp c;
    if negb isa then SYSCALL_THROW_STRING tc "not a bitmap" else
    se_set_background E bmp;;
    ref_dec_o bmp;;
    SYSCALL_RETURN_NOTHING tc).

Definition si_bootstrap_21_sleep : syscall := fun me tc =>
  params tc 1 (POP_INT tc 1175 (fun msec => SYSCALL_RETURN_NOTHING tc)).

Definition si_bootstrap_22_set_os_interface : syscall := fun me tc =>
  params tc 1 (
    o ← POP_ARG tc;
    set_member PVM_ROOT_OBJECT_OS_ENTRY o;;
    ref_saturate_o o;;
    root ← gets pvm_object_space_start;
    pvm_set_field root PVM_ROOT_OBJECT_OS_ENTRY o;;
    SYSCALL_RETURN_NOTHING tc).

Definition si_bootstrap_23_getenv : syscall := fun me tc =>
  e ← gets (fun s => kernel_environment (pvm_root s)); e ← ref_inc_o e; SYSCALL_RETURN tc e.

(** ** array *)

Definition si_array_8_get_iterator : syscall := fun me tc =>
  params tc 0 (SYSCALL_THROW_STRING tc "get iterator is not implemented yet").
Definition si_array_9_get_subarray : syscall := fun me tc =>
  params tc 2 (SYSCALL_THROW_STRING tc "get subarray is not implemented yet").

Definition si_array_10_get : syscall := fun me tc =>
  params tc 1 (
    POP_INT tc 1285 (fun index =>
      da ← load_da as_array (data me);
      if u32 (used_slots da) <=? u32 index
      then SYSCALL_THROW_STRING tc "array get - index is out of bounds" else
      o ← pvm_get_ofield (Heap.page da) (u32 index);
      o ← ref_inc_o o; SYSCALL_RETURN tc o)).

Definition si_array_11_set : syscall := fun me tc =>
  params tc 2 (
    POP_INT tc 1304 (fun index =>
      value ← POP_ARG tc;
      pvm_set_array_ofield (data me) (u32 index) value;;
      value ← ref_inc_o value; SYSCALL_RETURN tc value)).

Definition si_array_12_size : syscall := fun me tc =>
  params tc 0 (da ← load_da as_array (data me); return_int tc (used_slots da)).

(** ** binary *)

Definition sizeof_binary : Z := 4.
(** [me.data->_da_size - sizeof( struct data_area_4_binary )] as unsigned *)
Definition binary_size (a : Z) : M vm Z := o ← load a; mret (u32 (_da_size o - sizeof_binary)).

(** Only prints a dump. *)
Definition si_binary_5_tostring : syscall := fun o tc => return_string tc "(binary)".

Definition si_binary_8_getbyte : syscall := fun me tc =>
  POP_INT tc 1374 (fun index =>
    size ← binary_size (data me);
    if size <=? u32 index then SYSCALL_THROW_STRING tc "binary index out of bounds" else
    '(_, b) ← load_da as_binary (data me);
    v ← some_or_fault (b !!z u32 index) "byte outside the object";
    return_int tc v).

(** Write [v] at [off] of a binary object. *)
Definition binary_write (a off : Z) (v : list Z) : M vm unit :=
  '(n, b) ← load_da as_binary a;
  if off + Z.of_nat (length v) <=? Z.of_nat (length b) then
    update a (set_da (DA_binary n (take (Z.to_nat off) b ++ v ++ drop (Z.to_nat off + length v) b)))
  else fault "write outside the object".

Definition si_binary_9_setbyte : syscall := fun me tc =>
  POP_INT tc 1390 (fun byte => POP_INT tc 1391 (fun index =>
    size ← binary_size (data me);
    if size <=? u32 index then SYSCALL_THROW_STRING tc "binary index out of bounds" else
    binary_write (data me) (u32 index) [u8 byte];;
    SYSCALL_RETURN_NOTHING tc)).

Definition si_binary_10_setrange : syscall := fun me tc =>
  POP_INT tc 1410 (fun len => POP_INT tc 1411 (fun frompos => POP_INT tc 1412 (fun topos =>
    src ← POP_ARG tc;
    size ← binary_size (data me);
    if size <? u32 (u32 topos + u32 len)
    then SYSCALL_THROW_STRING tc "binary copy dest index/len out of bounds" else
    src_size ← binary_size (data src);
    if src_size <? u32 (u32 frompos + u32 len)
    then SYSCALL_THROW_STRING tc "binary copy src index/len out of bounds" else
    '(_, b) ← load_da as_binary (data src);
    v ← slice (u32 frompos) (u32 len) b;
    binary_write (data me) (u32 topos) v;;
    ref_dec_o src;;
    SYSCALL_RETURN_NOTHING tc))).

(** ** closure *)

Definition si_closure_9_getordinal : syscall := fun me tc =>
  '(_, ordinal) ← load_da as_closure (data me); return_int tc ordinal.
Definition si_closure_10_setordinal : syscall := fun me tc =>
  params tc 1 (
    POP_INT tc 1477 (fun v =>
      '(o, _) ← load_da as_closure (data me);
      update (data me) (set_da (DA_closure o v));;
      SYSCALL_RETURN_NOTHING tc)).
Definition si_closure_11_setobject : syscall := fun me tc =>
  params tc 1 (
    v ← POP_ARG tc;
    '(_, n) ← load_da as_closure (data me);
    update (data me) (set_da (DA_closure v n));;
    SYSCALL_RETURN_NOTHING tc).

(** ** bitmap *)

Definition si_bitmap_8_fromstring : syscall := fun me tc =>
  params tc 1 (
    s ← POP_ARG tc;
    '(_, b) ← load_da as_string (data s);
    err ← se_string2bmp E (data me) b;
    if (err : bool) then SYSCALL_THROW_STRING tc "can not parse graphics data" else
    ref_dec_o s;;
    SYSCALL_RETURN_NOTHING tc).

Definition si_bitmap_9_paintto : syscall := fun me tc =>
  params tc 1 (
    POP_INT tc 1555 (fun y => POP_INT tc 1556 (fun x =>
      tty ← POP_ARG tc;
      se_paint_bitmap E (data me) tty x y;;
      ref_dec_o tty;;
      SYSCALL_RETURN_NOTHING tc))).

(** ** world *)

(** The thread is found by arithmetic on a [struct data_area_4_thread *], which
    counts in units of that structure. *)
Definition si_world_8_getMyThread : syscall := fun o tc =>
  tcl ← gets (fun s => thread_class (pvm_root s));
  cda ← load_class (data tcl);
  let out := mkObj (u32 (tc + sizeof_storage - sizeof_storage * se_sizeof_thread E))
                   (data (object_default_interface cda)) in
  out ← ref_inc_o out;
  SYSCALL_RETURN tc out.

(** ** connection *)

Definition si_connection_8_connect : syscall := fun o tc =>
  params tc 1 (
    s ← POP_ARG tc;
    isa ← IS_PHANTOM_STRING s;
    if negb isa then
      ref_dec_o s;; SYSCALL_THROW_STRING tc "connection.connect: not a string arg"
    else
    '(slen, b) ← load_da as_string (data s);
    if se_sizeof_name E <? u32 (slen + 1) then
      ref_dec_o s;; SYSCALL_THROW_STRING tc "string arg too long"
    else
    se_set_name E (data o) b;;
    ref_dec_o s;;
    ret ← pvm_connect_object (se_devices E) o tc;
    return_int tc ret).

Definition si_connection_9_disconnect : syscall := fun o tc =>
  params tc 0 (ret ← pvm_disconnect_object (se_devices E) o tc; return_int tc ret).

(** [PVM_CONNECTION_WAKE] is 0. *)
Definition si_connection_10_check : syscall := fun o tc =>
  params tc 1 (POP_INT tc 1867 (fun op_index => return_int tc ENXIO)).

Definition si_connection_11_do : syscall := fun o tc =>
  params tc 2 (
    POP_INT tc 1903 (fun op_index =>
      arg ← POP_ARG tc;
      ret ← match se_do_operation E (data o) with
            | None => mret ENXIO
            | Some f => f op_index tc arg
            end;
      ref_dec_o arg;;
      return_int tc ret)).

Definition si_connection_12_set_callback : syscall := fun o tc =>
  params tc 2 (
    POP_INT tc 1930 (fun nmethod =>
      callback_object ← POP_ARG tc;
      c ← load_da as_connection (data o);
      isnull ← pvm_is_null (cn_callback c);
      update (data o) (set_da (DA_connection
        (mkConnection (cn_owner c) callback_object nmethod (p_kernel_state_object c))));;
      return_int tc (b2z (negb isnull)))).

Definition si_connection_13_blocking : syscall := fun o tc => se_syscall_block E o tc.

(** ** The tables *)

(** The calls every class has, and what replaces them. *)
Definition table (calls : list (nat * syscall)) (n : nat) : list (option syscall) :=
  foldl (fun t c => <[c.1 := Some c.2]> t)
    (map Some [si_void_0_construct; si_void_1_destruct; si_void_2_class; si_void_3_clone;
       si_void_4_equals; si_void_5_tostring; si_void_6_toXML; si_void_7_fromXML;
       si_void_8_def_op_1; si_void_9_def_op_2; invalid_syscall; invalid_syscall; invalid_syscall;
       invalid_syscall; invalid_syscall; si_void_15_hashcode] ++ replicate (n - 16) None) calls.

Definition syscall_table_4_void := table [] 16.
Definition syscall_table_4_int :=
  table [(3%nat, si_int_3_clone); (4%nat, si_int_4_equals); (5%nat, si_int_5_tostring);
         (6%nat, si_int_6_toXML)] 16.
Definition syscall_table_4_long :=
  table [(3%nat, si_long_3_clone); (4%nat, si_long_4_equals); (5%nat, si_long_5_tostring);
         (6%nat, si_long_6_toXML)] 16.
Definition syscall_table_4_string :=
  table [(3%nat, si_string_3_clone); (4%nat, si_string_4_equals); (5%nat, si_string_5_tostring);
         (8%nat, si_string_8_substring); (9%nat, si_string_9_charat); (10%nat, si_string_10_concat);
         (11%nat, si_string_11_length); (12%nat, si_string_12_find)] 16.
Definition syscall_table_4_thread :=
  table [(5%nat, tostring "thread"); (10%nat, si_thread_10_pause); (11%nat, si_thread_11_continue);
         (12%nat, si_thread_12_getEnvironment); (13%nat, si_thread_13_getUser);
         (14%nat, si_thread_14_getOsInterface)] 16.
(** [syscall_table_4_call_frame], [..._istack], [..._ostack], [..._estack],
    [..._interface], [..._code], [..._page] *)
Definition syscall_table_named (name : string) := table [(5%nat, tostring name)] 16.
Definition syscall_table_4_class :=
  table [(5%nat, tostring "class"); (8%nat, si_class_class_8_new_class); (10%nat, si_class_10_set_static);
         (11%nat, si_class_11_get_static); (14%nat, si_class_14_instanceof)] 16.
Definition syscall_table_4_boot :=
  table [(5%nat, tostring "bootstrap"); (8%nat, si_bootstrap_8_load_class); (9%nat, invalid_syscall);
         (16%nat, si_bootstrap_16_print); (17%nat, si_bootstrap_17_register_class_loader);
         (18%nat, si_bootstrap_18_thread); (19%nat, si_bootstrap_19_create_binary);
         (20%nat, si_bootstrap_20_set_screen_background); (21%nat, si_bootstrap_21_sleep);
         (22%nat, si_bootstrap_22_set_os_interface); (23%nat, si_bootstrap_23_getenv)] 24.
Definition syscall_table_4_array :=
  table [(5%nat, tostring "array"); (8%nat, si_array_8_get_iterator); (9%nat, si_array_9_get_subarray);
         (10%nat, si_array_10_get); (11%nat, si_array_11_set); (12%nat, si_array_12_size)] 16.
Definition syscall_table_4_binary :=
  table [(5%nat, si_binary_5_tostring); (8%nat, si_binary_8_getbyte); (9%nat, si_binary_9_setbyte);
         (10%nat, si_binary_10_setrange)] 16.
Definition syscall_table_4_closure :=
  table [(5%nat, si_binary_5_tostring); (8%nat, invalid_syscall); (9%nat, si_closure_9_getordinal);
         (10%nat, si_closure_10_setordinal); (11%nat, si_closure_11_setobject)] 16.
Definition syscall_table_4_bitmap :=
  table [(5%nat, tostring "(bitmap)"); (8%nat, si_bitmap_8_fromstring); (9%nat, si_bitmap_9_paintto)] 16.
Definition syscall_table_4_world :=
  table [(5%nat, tostring "(world)"); (8%nat, si_world_8_getMyThread); (9%nat, invalid_syscall)] 16.
Definition syscall_table_4_directory :=
  table [(5%nat, tostring "(directory)"); (8%nat, invalid_syscall); (9%nat, invalid_syscall)] 16.
Definition syscall_table_4_connection :=
  table [(5%nat, tostring "(connection)"); (8%nat, si_connection_8_connect);
         (9%nat, si_connection_9_disconnect); (10%nat, si_connection_10_check);
         (11%nat, si_connection_11_do); (12%nat, si_connection_12_set_callback);
         (13%nat, si_connection_13_blocking)] 16.

(** ** mutex, cond and sema ([phantom/vm/syscall_sync.c])

    [OLD_VM_SLEEP] is 0: nothing here waits. *)

(** Only prints. *)
Definition vm_mutex_lock (me : pvm_object) (tc : Z) : M vm unit := mret tt.
(** The throwing macro returns 0 from this function, which its caller takes for
    an [errno_t]. *)
Definition vm_mutex_unlock (me : pvm_object) (tc : Z) : M vm Z :=
  ok ← SYSCALL_THROW_STRING tc "Not this way"; mret (b2z ok).

Definition EINVAL : Z := 22.
Definition si_mutex_8_lock : syscall := fun me tc => vm_mutex_lock me tc;; SYSCALL_RETURN_NOTHING tc.
Definition si_mutex_9_unlock : syscall := fun me tc =>
  rc ← vm_mutex_unlock me tc;
  if rc =? EINVAL then SYSCALL_THROW_STRING tc "mutex unlock - not owner" else SYSCALL_RETURN_NOTHING tc.
Definition si_mutex_10_trylock : syscall := fun me tc => SYSCALL_RETURN_NOTHING tc.

Definition si_cond_8_wait : syscall := fun me tc => SYSCALL_THROW_STRING tc "wait not impl".
Definition si_cond_9_twait : syscall := fun me tc => SYSCALL_THROW_STRING tc "timed wait not impl".
Definition si_cond_10_broadcast : syscall := fun me tc => SYSCALL_RETURN_NOTHING tc.
Definition si_cond_11_signal : syscall := fun me tc => SYSCALL_RETURN_NOTHING tc.

Definition si_sema_8_acquire : syscall := fun me tc => SYSCALL_THROW_STRING tc "Not this way".
Definition si_sema_9_tacquire : syscall := fun me tc => SYSCALL_THROW_STRING tc "timed acquire not impl".
Definition si_sema_10_zero : syscall := fun me tc =>
  y ← load_da as_sync (data me);
  (if 0 <? sem_value y
   then update (data me) (set_da (DA_sync (mkSync (sy_owner y) (waiting_threads_array y) (nwaiting y) 0)))
   else mret tt);;
  SYSCALL_RETURN_NOTHING tc.
Definition si_sema_11_release : syscall := fun me tc => SYSCALL_THROW_STRING tc "Not this way".

Definition syscall_table_4_mutex :=
  table [(5%nat, tostring "mutex"); (8%nat, si_mutex_8_lock); (9%nat, si_mutex_9_unlock);
         (10%nat, si_mutex_10_trylock)] 16.
Definition syscall_table_4_cond :=
  table [(5%nat, tostring ".internal.cond"); (8%nat, si_cond_8_wait); (9%nat, si_cond_9_twait);
         (10%nat, si_cond_10_broadcast); (11%nat, si_cond_11_signal)] 16.
Definition syscall_table_4_sema :=
  table [(5%nat, tostring ".internal.sema"); (8%nat, si_sema_8_acquire); (9%nat, si_sema_9_tacquire);
         (10%nat, si_sema_10_zero); (11%nat, si_sema_11_release)] 16.

(** By [sys_table_id]; the calls of terminals and windows draw on the screen. *)
Definition syscall_tables (other : Z -> option (list (option syscall))) (id : Z)
    : option (list (option syscall)) :=
  switch id [ (0, Some syscall_table_4_void); (1, Some syscall_table_4_class);
    (2, Some (syscall_table_named "interface")); (3, Some (syscall_table_named "code"));
    (4, Some syscall_table_4_int); (5, Some syscall_table_4_long); (6, Some syscall_table_4_string);
    (7, Some syscall_table_4_array); (8, Some (syscall_table_named "page"));
    (9, Some syscall_table_4_thread); (10, Some (syscall_table_named "call_frame"));
    (11, Some (syscall_table_named "istack")); (12, Some (syscall_table_named "ostack"));
    (13, Some (syscall_table_named "estack")); (14, Some syscall_table_4_boot);
    (15, other 15); (16, Some syscall_table_4_mutex); (17, Some syscall_table_4_cond);
    (18, Some syscall_table_4_sema);
    (19, Some syscall_table_4_binary); (20, Some syscall_table_4_bitmap);
    (21, Some syscall_table_4_closure); (22, Some syscall_table_4_world); (23, other 23);
    (24, Some syscall_table_4_directory); (25, Some syscall_table_4_connection) ]
  ≫= fun t => t.
End Syscalls.
