(* ===== verification/SysSpec.v ===== *)
(** * The system calls of strings against a specification

    What the calls of [syscall_table_4_string] in [phantom/vm/syscall.c] do to the
    stacks of the caller, its arguments and the heap, against functions on lists
    of bytes. *)

From S2P Require Import Prelude Printf Heap Refcount Alloc Gc Opcodes Create Stacks Object Frame Code Exec.
From S2P Require Import Turn Throw Root Syscall.

(** ** The specification *)

(** What an integer or a string object holds. *)
Inductive val := VInt (v : Z) | VStr (b : list Z).

(** The first position of [b'] in [b]. *)
Definition first_at (b b' : list Z) : option nat :=
  fst <$> list_find (fun i => take (length b') (drop i b) = b') (seq 0 (S (length b - length b'))).

Definition throws (msg : string) : option (bool * val) := Some (false, VStr (string_bytes msg)).
Definition returns (v : val) : option (bool * val) := Some (true, v).

(** Method [i] of a string [b] with the parameters [args]: whether it returns or
    throws, and what; [None] where nothing is promised. *)
Definition string_method (i : nat) (b : list Z) (args : list val) : option (bool * val) :=
  match i, args with
  | 4%nat, [VStr b'] =>
      returns (VInt (b2z (bool_decide (length b = length b') && bool_decide (c_string b = c_string b'))))
  | 8%nat, [VInt index; VInt n] =>
      if (index <? 0) || (Z.of_nat (length b) <=? index)
      then throws "string.substring index is out of bounds"
      else if n <? 0 then throws "string.substring length is negative"
      else returns (VStr (take (Z.to_nat n) (drop (Z.to_nat index) b)))
  | 9%nat, [VInt index] =>
      if index <? 0 then None else
      match b !!z index with
      | Some c => returns (VInt c)
      | None => throws "string.charAt index is out of bounds"
      end
  | 10%nat, [VStr b'] => returns (VStr (b ++ b'))
  | 11%nat, [] => returns (VInt (Z.of_nat (length b)))
  | 12%nat, [VStr b'] => returns (VInt (default (-1) (Z.of_nat <$> first_at b b')))
  | _, _ => None
  end.

(** ** The machine at a system call *)

Definition val_class (v : val) (r : pvm_root_t) : pvm_object :=
  match v with VInt _ => int_class r | VStr _ => string_class r end.
Definition val_da (v : val) : data_area :=
  match v with VInt v => DA_int v | VStr b => DA_string (Z.of_nat (length b)) b end.

(** The flags of an object without children or finalizer. *)
Definition leaf_flags (f : Z) : bool :=
  flag f PHANTOM_OBJECT_STORAGE_FLAG_IS_CHILDFREE && flag f PHANTOM_OBJECT_STORAGE_FLAG_IS_INTERNAL &&
  negb (flag f PHANTOM_OBJECT_STORAGE_FLAG_IS_FINALIZER).

Definition value_obj (s : vm) (v : val) (o : pvm_object_storage) : Prop :=
  data (_class o) = data (val_class v (pvm_root s)) /\ da o = val_da v /\ leaf_flags (_flags o) = true.

(** [p] is an object of the value's class that holds [v]. *)
Definition holds (s : vm) (p : pvm_object) (v : val) : Prop :=
  data p <> data (null_object (pvm_root s)) /\
  exists o, alloc_at (heap s) (data p) = Some o /\ value_obj s v o.

(** Each of the objects [l] has at least as many counted references as it occurs
    in [l]. *)
Definition counted_refs (s : vm) (l : list Z) : Prop :=
  forall x, x ∈ l -> exists o, alloc_at (heap s) x = Some o /\
    (Z.of_nat (count x l) <= refCount (_ah o) \/ refCount (_ah o) = INT_MAX).

(** The thread [tc] with the objects [os] and the integers [l] on its stacks;
    the top is the last object and the first integer. *)
Record caller (s : vm) (tc : Z) (t : da_thread) (os : list pvm_object) (l : list Z) : Prop := {
  ca_thread : thread_obj s tc t;
  ca_ostack : stack_inv ostack_kind s (_ostack t) os;
  ca_istack : stack_inv istack_kind s (_istack t) (rev l);
}.

(** The class of a value can make objects. *)
Definition maker (s : vm) (cls : pvm_object) : Prop :=
  exists c, class_at s cls c /\ 0 <= object_flags c < 2 ^ 32 /\ 0 <= object_data_area_size c < 2 ^ 31 /\
    leaf_flags (object_flags c) = true.

(** A page of a stack of integers or objects. *)
Definition stack_page (d : data_area) : bool :=
  match d with DA_istack _ | DA_ostack _ => true | _ => false end.

(** Nothing changed but the objects [A] and pages of stacks. *)
Record sys_quiet (A : list Z) (s s' : vm) : Prop := {
  sq_env : alloc_env s' = alloc_env s;
  sq_frame x o : alloc_at (heap s) x = Some o -> x ∉ A -> stack_page (da o) = false ->
    alloc_at (heap s') x = Some o;
}.

(** A system call that began in [s0] and may release the objects [A], with the
    objects [objs] still to be released or returned. *)
Record in_call (s0 : vm) (A : list Z) (tc : Z) (t : da_thread) (os : list pvm_object) (l : list Z)
    (objs : list pvm_object) (vals : list val) (s : vm) : Prop := {
  ic_caller : caller s tc t os l;
  ic_ints : maker s (int_class (pvm_root s));
  ic_strings : maker s (string_class (pvm_root s));
  ic_quiet : sys_quiet A s0 s;
  ic_holds : Forall2 (holds s) objs vals;
  ic_refs : counted_refs s (data <$> objs);
}.

(** ** Steps of a call *)

Section Steps.
Implicit Types (s : vm) (A : list Z).

Lemma sys_quiet_trans A s1 s2 s3 : sys_quiet A s1 s2 -> sys_quiet A s2 s3 -> sys_quiet A s1 s3.
Proof. intros [A1 A2] [B1 B2]. split; [congruence|]. intros x o Ho Hx Hp. by apply B2; [apply A2|..]. Qed.

Lemma grows_quiet A s s' : grows s s' -> sys_quiet A s s'.
Proof. intros (_ & He & Hf). split; [done|auto]. Qed.

Lemma calm_ostack_quiet A s s' : calm ostack_kind s s' -> sys_quiet A s s'.
Proof. intros [_ C1 _ C2]. split; [done|]. intros x o Ho _ Hp. apply C2; [done|]. intros d E. by rewrite E in Hp. Qed.

Lemma calm_istack_quiet A s s' : calm istack_kind s s' -> sys_quiet A s s'.
Proof. intros [_ C1 _ C2]. split; [done|]. intros x o Ho _ Hp. apply C2; [done|]. intros d E. by rewrite E in Hp. Qed.

Lemma quiet_root A s s' : sys_quiet A s s' -> pvm_root s' = pvm_root s.
Proof. intros H. apply env_root, H. Qed.

(** Values and classes are not pages. *)
Lemma holds_quiet A s s' p v : sys_quiet A s s' -> data p ∉ A -> holds s p v -> holds s' p v.
Proof.
  intros Q Hp (Hn & o & Ho & Hc & Hd & Hf). unfold holds, value_obj. rewrite (quiet_root _ _ _ Q).
  split; [done|]. exists o. split; [|done]. eapply sq_frame; [done..|]. rewrite Hd. by destruct v.
Qed.

Lemma maker_quiet A s s' cls :
  sys_quiet A s s' -> (forall o, alloc_at (heap s) (data cls) = Some o -> data cls ∉ A) ->
  maker s cls -> maker s' cls.
Proof.
  intros Q Hp (c & (o & Ho & Hc) & H). exists c. split; [|done]. exists o. split; [|done].
  eapply sq_frame; [done|done|by eapply Hp|]. by destruct (da o).
Qed.

Lemma counted_quiet s s' objs vals :
  sys_quiet [] s s' -> Forall2 (holds s) objs vals -> counted_refs s (data <$> objs) -> counted_refs s' (data <$> objs).
Proof.
  intros Q Hh Hc x Hx. destruct (Hc x Hx) as (o & Ho & Hr). exists o. split; [|done].
  eapply sq_frame; [done|done|apply not_elem_of_nil|].
  apply list_elem_of_fmap in Hx as (p & -> & (i & Hi)%list_elem_of_lookup).
  destruct (Forall2_lookup_l _ _ _ _ _ Hh Hi) as (v & _ & _ & o' & Ho' & _ & Hd & _).
  assert (o' = o) as -> by congruence. rewrite Hd. by destruct v.
Qed.

(** A step that changes pages of stacks or makes new objects. *)
Lemma in_call_step s0 A tc t os l os' l' objs vals s s' :
  in_call s0 A tc t os l objs vals s -> sys_quiet [] s s' -> caller s' tc t os' l' ->
  in_call s0 A tc t os' l' objs vals s'.
Proof.
  intros [C Mi Ms Q Hh Hr] Q' C'. pose proof (quiet_root _ _ _ Q') as Er.
  assert (sys_quiet A s s') as Q''. { split; [apply Q'|]. intros x o Ho _ Hp. eapply sq_frame; try done. apply not_elem_of_nil. }
  split; [done| | |by eapply sys_quiet_trans| |by eapply counted_quiet].
  - rewrite Er. eapply maker_quiet; [exact Q'| |done]. intros o _. apply not_elem_of_nil.
  - rewrite Er. eapply maker_quiet; [exact Q'| |done]. intros o _. apply not_elem_of_nil.
  - eapply list.Forall2_impl; [done|]. intros p v. eapply holds_quiet; [exact Q'|]. apply not_elem_of_nil.
Qed.

(** Only values may change. *)
Record spares (A : list Z) s s' : Prop := {
  ap_wf : heap_wf s';
  ap_env : alloc_env s' = alloc_env s;
  ap_frame x o : alloc_at (heap s) x = Some o -> x ∉ A -> alloc_at (heap s') x = Some o;
  ap_vals x : x ∈ A -> x <> data (null_object (pvm_root s)) /\
    forall o, alloc_at (heap s) x = Some o -> exists v, da o = val_da v;
}.

Lemma grows_spares s s' : grows s s' -> spares [] s s'.
Proof. intros (W & E & F). split; [done|done|auto|]. intros x Hx. by apply not_elem_of_nil in Hx. Qed.

Lemma spares_quiet A s s' : spares A s s' -> sys_quiet A s s'.
Proof. intros [_ E F _]. split; [done|auto]. Qed.

Lemma spares_keep A s s' x o :
  spares A s s' -> alloc_at (heap s) x = Some o -> (forall v, da o <> val_da v) -> alloc_at (heap s') x = Some o.
Proof.
  intros [_ _ F V] Ho Hv. apply F; [done|]. intros Hx. destruct (V x Hx) as [_ H].
  destruct (H o Ho) as [v Hd]. by destruct (Hv v).
Qed.

Lemma inv_spares {B} (k : stack_kind B) `{!StackLaws k} A s s' r l :
  (forall d v, sk_put k d <> val_da v) -> spares A s s' -> stack_inv k s r l -> stack_inv k s' r l.
Proof.
  intros Hk Sp [Hwf Hnull (c & (oc & Hoc & Hc) & Hcf) (ps & Hr & Hps)].
  pose proof (env_root _ _ (ap_env _ _ _ Sp)) as Er. split; [apply Sp| | |].
  - unfold null_ok in *. rewrite Er. destruct Hnull as [?|[on Hon]]; [by left|right].
    exists on. eapply ap_frame; [done..|]. intros Hx. by destruct (ap_vals _ _ _ Sp _ Hx).
  - exists c. rewrite Er. split; [|done]. exists oc. split; [|done]. eapply spares_keep; [done..|].
    intros v E. rewrite E in Hc. by destruct v.
  - exists ps. rewrite Er. split; [|done]. eapply (stack_rep_same k); [|apply Sp|done].
    intros x Hx. pose proof Hr as (pre & cp & post & H). destruct (page_allocated k _ _ _ _ _ _ _ _ H Hx) as [o Ho].
    rewrite Ho. eapply spares_keep; [done..|]. destruct (stack_page_put k s r ps l x o Hr Hx Ho) as [d ->]. apply Hk.
Qed.

Lemma caller_spares A s s' tc t os l : spares A s s' -> caller s tc t os l -> caller s' tc t os l.
Proof.
  intros Sp [(o & Ho & Hd) H1 H2]. split.
  - exists o. split; [|done]. eapply spares_keep; [done..|]. rewrite Hd. by intros [].
  - eapply (inv_spares ostack_kind); [|done..]. by intros d [].
  - eapply (inv_spares istack_kind); [|done..]. by intros d [].
Qed.

(** Pops and pushes. *)
Lemma caller_pop_int s tc t os v l :
  caller s tc t os (v :: l) ->
  wp (POP_ISTACK tc) s (fun w s' => w = v /\ caller s' tc t os l /\ calm istack_kind s s').
Proof.
  intros [Ht Ho Hi]. unfold POP_ISTACK, is_pop. wp_step. eapply wp_thread; [done|]. simpl in Hi.
  eapply wp_mono; [by apply (inv_pop istack_kind)|]. intros w s' (-> & [Hr _] & C). split_and!; try done.
  split; [by eapply (thread_calm _ istack_kind)|by eapply (inv_calm istack_kind ostack_kind)|done].
Qed.

Lemma caller_pop_obj s tc t os p l :
  caller s tc t (os ++ [p]) l ->
  wp (POP_ARG tc) s (fun w s' => w = p /\ caller s' tc t os l /\ calm ostack_kind s s').
Proof.
  intros [Ht Ho Hi]. unfold POP_ARG, os_pop. wp_step. eapply wp_thread; [done|].
  eapply wp_mono; [by apply (inv_pop ostack_kind)|]. intros w s' (-> & [Hr _] & C). split_and!; try done.
  split; [by eapply (thread_calm _ ostack_kind)|done|by eapply (inv_calm ostack_kind istack_kind)].
Qed.

Lemma caller_push_obj s tc t os p l :
  caller s tc t os l ->
  wpe (eq oom) (os_push tc p) s (fun _ s' => caller s' tc t (os ++ [p]) l /\ calm ostack_kind s s').
Proof.
  intros [Ht Ho Hi]. unfold os_push. apply wpe_bind, wp_wpe. eapply wp_thread; [done|].
  eapply wpe_mono; [by apply (inv_push ostack_kind)|]. intros w s' [Hr C]. split; [|done].
  split; [by eapply (thread_calm _ ostack_kind)|done|by eapply (inv_calm ostack_kind istack_kind)].
Qed.

(** Writing a header. *)
Lemma heap_wf_header s p o o' :
  heap_wf s -> alloc_at (heap s) p = Some o -> block_ok o' -> exact_size (_ah o') = exact_size (_ah o) ->
  _da_size o' = _da_size o -> (is_alloc o' -> 0 < refCount (_ah o') <= INT_MAX) ->
  heap_wf (set_heap (<[p := o']> (heap s)) s).
Proof.
  intros [Hl Hal] Ho Hb Hs Hd Hr. pose proof (Hal _ _ Ho) as (_ & Hda & Hsz). apply heap_of_alloc in Ho.
  split; [by eapply layout_wf_upd|]. intros x q [Ex Hq]%alloc_at_Some. simpl in Ex. destruct (decide (x = p)) as [->|].
  - rewrite lookup_insert_eq in Ex. injection Ex as <-. unfold alloc_ok. rewrite Hs, Hd. auto.
  - rewrite lookup_insert_ne in Ex by done. apply (Hal x). by apply alloc_at_Some.
Qed.

Lemma count_ge x y l : (count x l <= count x (y :: l))%nat.
Proof. rewrite count_cons. lia. Qed.

(** The object written by a release. *)
Lemma released_spares s p v o o' :
  heap_wf s -> holds s p v -> alloc_at (heap s) (data p) = Some o -> block_ok o' ->
  exact_size (_ah o') = exact_size (_ah o) -> _da_size o' = _da_size o ->
  (is_alloc o' -> 0 < refCount (_ah o') <= INT_MAX) ->
  spares [data p] s (set_heap (<[data p := o']> (heap s)) s).
Proof.
  intros Hwf (Hn & o1 & Ho1 & _ & Hd & _) Ho Hb Hs Hds Hr. split.
  - by eapply heap_wf_header.
  - done.
  - intros x q Hq Hx. simpl. unfold alloc_at. rewrite lookup_insert_ne; [done|]. intros E. apply Hx. rewrite E. by left.
  - intros x ->%list_elem_of_singleton. split; [done|]. intros q Hq. exists v. congruence.
Qed.

(** The counts that remain. *)
Lemma counted_released s p l o o' :
  counted_refs s (data p :: l) -> alloc_at (heap s) (data p) = Some o ->
  (data p ∈ l -> is_alloc o' /\ (refCount (_ah o') = refCount (_ah o) - 1)) ->
  (refCount (_ah o) < INT_MAX) ->
  counted_refs (set_heap (<[data p := o']> (heap s)) s) l.
Proof.
  intros Hc Ho Ha Hr x Hx. destruct (Hc x) as (ox & Hox & Hrx); [by right|]. rewrite count_cons in Hrx.
  destruct (decide (x = data p)) as [->|Hne].
  - destruct (Ha Hx) as [Ha1 Ha2]. exists o'. split; [apply alloc_at_Some; simpl; by rewrite lookup_insert_eq|].
    assert (ox = o) as -> by congruence. rewrite Ha2. destruct Hrx; [left; lia|lia].
  - exists ox. split; [|destruct Hrx; [left; lia|by right]]. simpl. unfold alloc_at. by rewrite lookup_insert_ne.
Qed.

Lemma counted_tail s a l : counted_refs s (a :: l) -> counted_refs s l.
Proof.
  intros Hc x Hx. destruct (Hc x) as (o & Ho & Hr); [by right|]. rewrite count_cons in Hr. exists o.
  split; [done|]. destruct Hr; [left; lia|by right].
Qed.

Lemma spares_refl s p v : heap_wf s -> holds s p v -> spares [data p] s s.
Proof.
  intros Hwf (Hn & o & Ho & _ & Hd & _). split; [done|done|done|].
  intros x ->%list_elem_of_singleton. split; [done|]. intros q Hq. exists v. congruence.
Qed.

(** Releasing a value drops its count or frees it. *)
Lemma release_value s p v l :
  heap_wf s -> holds s p v -> counted_refs s (data p :: l) ->
  wp (ref_dec_o p) s (fun _ s' => spares [data p] s s' /\ counted_refs s' l /\
    (data p ∈ l -> holds s' p v)).
Proof.
  intros Hwf Hh Hc. pose proof Hh as (Hn & o & Ho & Hcl & Hd & Hf).
  pose proof (alloc_marker s _ o Hwf Ho) as Hm. pose proof (proj2 Hwf _ _ Ho) as (Hr & Hds & Hsz).
  pose proof Ho as [Eo Ha]%alloc_at_Some. pose proof Hf as Hlf. unfold leaf_flags in Hf. rewrite !andb_true_iff, negb_true_iff in Hf.
  destruct Hf as [[Hf1 Hf2] Hf3]. assert (block_ok o) as Hb by by eapply layout_block_ok; [apply Hwf|].
  unfold ref_dec_o, ref_dec_p. wp_step. wp_step. cbn [do_ref_dec_p]. unfold do_ref_dec_body.
  assert (wp (mret tt) s (fun _ s' => spares [data p] s s' /\ counted_refs s' l /\ (data p ∈ l -> holds s' p v))) as Hsame.
  { wp_step. split_and!; [by eapply spares_refl|by eapply counted_tail|done]. }
  destruct (data p =? 0); [done|]. wp_step. eapply wp_load; [done|].
  rewrite Hm, Z.eqb_refl. change (flag (alloc_flags (_ah o)) PVM_OBJECT_AH_ALLOCATOR_FLAG_ALLOCATED) with (is_alloc o).
  pose proof Ha as Ha'. apply Is_true_true in Ha'. rewrite Ha'.
  destruct (Z.ltb_spec 0 (refCount (_ah o))); [|lia]. simpl assert_. wp_step. wp_step. wp_step. wp_step. wp_step. wp_step.
  destruct (Z.ltb_spec (refCount (_ah o)) INT_MAX); [|done]. wp_step. eapply wp_update; [done|].
  destruct (Z.eqb_spec (refCount (_ah o) - 1) 0) as [Hz|Hz].
  - unfold is_childfree. rewrite Hf1, Hf3. wp_step. wp_step. eapply wp_update; [simpl; by rewrite lookup_insert_eq|].
    simpl. rewrite insert_insert_eq. change (set_heap ?h (set_heap _ s)) with (set_heap h s).
    assert (data p ∉ l) as Hl.
    { intros Hl%count_pos. destruct (Hc (data p)) as (o1 & Ho1 & Hr1); [by left|]. rewrite count_cons, decide_True in Hr1 by done.
      assert (o1 = o) as -> by congruence. destruct Hr1; lia. }
    split_and!; [eapply released_spares; try done|eapply counted_released; done|done].
    destruct Hb as (? & ? & ? & _). split_and!; try done. by left.
  - unfold ref_dec_nonzero. wp_step. eapply wp_load; [simpl; by rewrite lookup_insert_eq|].
    unfold is_internal. cbn [set_refCount set_ah _flags]. rewrite Hf2. cbn [negb]. wp_step.
    split_and!; [eapply released_spares; try done|by eapply counted_released|].
    + intros _. simpl. lia.
    + intros _. split; [done|]. exists (set_refCount (refCount (_ah o) - 1) o). split; [|done].
      apply alloc_at_Some. simpl. by rewrite lookup_insert_eq.
Qed.

Context (s0 : vm) (A : list Z) (tc : Z) (t : da_thread).
Implicit Types (os objs : list pvm_object) (l : list Z) (vals : list val) (Q : bool -> vm -> Prop).

Abbreviation in_call := (in_call s0 A tc t).

Lemma call_pop_int {B} os v l objs vals s (k : Z -> M vm B) (Q : B -> vm -> Prop) :
  in_call os (v :: l) objs vals s -> (forall s', in_call os l objs vals s' -> wpe (eq oom) (k v) s' Q) ->
  wpe (eq oom) (n ← POP_ISTACK tc; k n) s Q.
Proof.
  intros H HQ. apply wpe_bind, wp_wpe. eapply wp_mono; [eapply caller_pop_int, H|].
  intros w s' (-> & C & Hc). apply HQ. eapply in_call_step; [done|by apply calm_istack_quiet|done].
Qed.

Lemma call_pop_obj {B} os p l objs vals s (k : pvm_object -> M vm B) (Q : B -> vm -> Prop) :
  in_call (os ++ [p]) l objs vals s -> (forall s', in_call os l objs vals s' -> wpe (eq oom) (k p) s' Q) ->
  wpe (eq oom) (o ← POP_ARG tc; k o) s Q.
Proof.
  intros H HQ. apply wpe_bind, wp_wpe. eapply wp_mono; [eapply caller_pop_obj, H|].
  intros w s' (-> & C & Hc). apply HQ. eapply in_call_step; [done|by apply calm_ostack_quiet|done].
Qed.

Lemma call_release {B} os p v l objs vals s (m : M vm B) (Q : B -> vm -> Prop) :
  in_call os l (p :: objs) (v :: vals) s -> data p ∈ A ->
  (forall s', in_call os l objs vals s' -> wpe (eq oom) m s' Q) ->
  wpe (eq oom) (ref_dec_o p;; m) s Q.
Proof.
  intros [C Mi Ms Qs (Hh & Hhs)%list.Forall2_cons_1 Hr] HA HQ. apply wpe_bind, wp_wpe.
  assert (heap_wf s) as Hwf by apply (ca_ostack _ _ _ _ _ C).
  eapply wp_mono; [by eapply release_value|]. intros [] s' (Sp & Hr' & Hp). apply HQ.
  pose proof (spares_quiet _ _ _ Sp) as Q1. pose proof (quiet_root _ _ _ Q1) as Er.
  assert (forall c o, as_class (da o) = Some c -> alloc_at (heap s) (data p) = Some o -> False) as Hnc.
  { intros c o Hc Ho. destruct Hh as (_ & o1 & Ho1 & _ & Hd & _). assert (o1 = o) as -> by congruence.
    rewrite Hd in Hc. by destruct v. }
  assert (forall cls, maker s cls -> maker s' cls) as HM.
  { intros cls Hm. eapply maker_quiet; [done| |done]. destruct Hm as (c & (o & Ho & Hc) & _).
    intros o' _ E%list_elem_of_singleton. rewrite E in Ho. by eapply Hnc. }
  split; [by eapply caller_spares|rewrite Er; auto|rewrite Er; auto| | |done].
  - eapply sys_quiet_trans; [done|]. split; [apply Q1|]. intros x o Ho Hx Hpg. eapply sq_frame; try done.
    by intros ->%list_elem_of_singleton.
  - apply list.Forall2_same_length_lookup. apply list.Forall2_same_length_lookup in Hhs as [Hlen Hl]. split; [done|].
    intros i q w Hq Hw. pose proof (Hl i q w Hq Hw) as Hqw. destruct (decide (data q = data p)) as [E|Hne].
    + assert (data p ∈ data <$> objs) as Hin. { rewrite <- E. apply list_elem_of_fmap_2. by eapply list_elem_of_lookup_2. }
      specialize (Hp Hin). destruct Hqw as (Hn & o & Ho & Hv), Hp as (Hn' & o' & Ho' & Hv').
      split; [by rewrite E|]. rewrite E in *. exists o'. split; [done|].
      destruct Hh as (_ & o1 & Ho1 & Hv1). assert (o1 = o) as -> by congruence. clear HQ Hnc.
      unfold value_obj in *. rewrite Er in *. destruct Hv as (? & Hd & ?), Hv1 as (? & Hd1 & ?), Hv' as (? & Hd' & ?).
      assert (w = v) as ->; [|done]. rewrite Hd in Hd1. destruct w, v; simpl in Hd1; congruence.
    + eapply holds_quiet; [done| |done]. by intros ?%list_elem_of_singleton.
Qed.

(** A new value. *)
Lemma call_new {B} os l objs vals s v p das c s1 (m : M vm B) (Q : B -> vm -> Prop) :
  in_call os l objs vals s -> fresh_of s s1 (val_class v (pvm_root s)) c das p (val_da v) ->
  leaf_flags (object_flags c) = true ->
  (in_call os l (objs ++ [p]) (vals ++ [v]) s1 -> wpe (eq oom) m s1 Q) -> wpe (eq oom) m s1 Q.
Proof.
  intros H F Hf HQ. apply HQ. pose proof (fo_grows _ _ _ _ _ _ _ F) as G. pose proof (grows_root _ _ G) as Er.
  destruct (in_call_step _ _ _ _ _ _ os l _ _ _ s1 H) as [C Mi Ms Qs Hh Hr];
    [by apply grows_quiet|eapply caller_spares; [by apply grows_spares|apply H]|].
  destruct (fo_obj _ _ _ _ _ _ _ F) as (o & Ho & Hcl & _ & Hfl & Hrc & _ & Hd).
  assert (data p ∉ data <$> objs) as Hp.
  { intros (q & E & (i & Hi)%list_elem_of_lookup)%list_elem_of_fmap.
    destruct (Forall2_lookup_l _ _ _ _ _ (ic_holds _ _ _ _ _ _ _ _ _ H) Hi) as (w & _ & _ & o' & Ho' & _).
    pose proof (fo_new _ _ _ _ _ _ _ F). congruence. }
  split; try done.
  - apply Forall2_app; [done|]. constructor; [|constructor]. split.
    + rewrite Er. pose proof (si_null _ _ _ _ (ca_ostack _ _ _ _ _ (ic_caller _ _ _ _ _ _ _ _ _ H))) as [Hz|[on Hon]].
      * pose proof (fo_pos _ _ _ _ _ _ _ F). lia.
      * pose proof (fo_new _ _ _ _ _ _ _ F). congruence.
    + exists o. split; [done|]. split_and!; [by rewrite Er, Hcl|done|by rewrite Hfl].
  - rewrite fmap_app. intros x [Hx|Hx]%elem_of_app.
    + destruct (Hr x Hx) as (ox & Hox & Hrx). exists ox. split; [done|]. rewrite count_app.
      replace (count x (data <$> [p])) with 0%nat; [by rewrite Nat.add_0_r|].
      simpl. rewrite count_cons, decide_False; [done|]. by intros ->.
    + apply list_elem_of_singleton in Hx as ->. exists o. split; [done|]. left. rewrite count_app, Hrc. simpl.
      rewrite count_cons, decide_True by done. destruct (count (data p) (data <$> objs)) eqn:E; [done|].
      destruct Hp. apply count_in. lia.
Qed.

Definition finished os l objs vals (ok : bool) (v : val) : bool -> vm -> Prop := fun r s' =>
  r = ok /\ exists o, in_call (os ++ [o]) l (objs ++ [o]) (vals ++ [v]) s'.

Lemma call_push os l objs vals o ok s v :
  in_call os l (objs ++ [o]) (vals ++ [v]) s ->
  wpe (eq oom) (os_push tc o;; mret ok) s (finished os l objs vals ok v).
Proof.
  intros H. apply wpe_bind. eapply wpe_mono; [by eapply caller_push_obj, H|]. intros [] s' [C Hc].
  apply wpe_ret. split; [done|]. exists o. eapply in_call_step; [done|by apply calm_ostack_quiet|done].
Qed.

Lemma new_int {B} os l objs vals s v (k : pvm_object -> M vm B) (Q : B -> vm -> Prop) :
  in_call os l objs vals s ->
  (forall p s', in_call os l (objs ++ [p]) (vals ++ [VInt v]) s' -> wpe (eq oom) (k p) s' Q) ->
  wpe (eq oom) (o ← pvm_create_int_object v; k o) s Q.
Proof.
  intros H HQ. destruct (ic_ints _ _ _ _ _ _ _ _ _ H) as (c & Hc & Hf & Hd & Hl).
  assert (heap_wf s) as Hwf by apply (ca_ostack _ _ _ _ _ (ic_caller _ _ _ _ _ _ _ _ _ H)).
  apply wpe_bind. unfold pvm_create_int_object. apply wpe_bind, wp_wpe, wp_gets. apply wpe_bind.
  eapply wpe_mono; [by apply (wpe_create_fixed _ c)|]. intros p s1 F1.
  apply wpe_bind, wp_wpe. eapply wp_mono; [apply (fresh_set_da _ _ _ _ _ _ _ _ F1)|]. intros [] s2 F2.
  apply wpe_ret. eapply (call_new os l objs vals s (VInt v)); [done..|]. apply HQ.
Qed.
End Steps.

(** ** The macros *)

Section Macros.
Context (E : sysenv) (s0 : vm) (A : list Z) (tc : Z) (t : da_thread).
Implicit Types (s : vm) (os objs : list pvm_object) (l : list Z) (vals : list val) (Q : bool -> vm -> Prop).
Abbreviation in_call := (in_call s0 A tc t).
Abbreviation finished := (finished s0 A tc t).

Lemma wp_load_str s p b (Q : Z * list Z -> vm -> Prop) :
  holds s p (VStr b) -> Q (Z.of_nat (length b), b) s -> wp (load_da as_string (data p)) s Q.
Proof. intros (_ & o & Ho & _ & Hd & _) HQ. eapply wp_load_da; [by apply heap_of_alloc|by rewrite Hd|done]. Qed.

Lemma wp_is_of_class s p v (Q : bool -> vm -> Prop) :
  holds s p v -> Q true s -> wp (is_of_class (val_class v) p) s Q.
Proof.
  intros (_ & o & Ho & Hc & _) HQ. unfold is_of_class. wp_step. eapply wp_load; [by apply heap_of_alloc|].
  wp_step. wp_step. wp_step. by rewrite Hc, Z.eqb_refl.
Qed.

Lemma call_assert_string s p b line m Q :
  holds s p (VStr b) -> wpe (eq oom) m s Q -> wpe (eq oom) (ASSERT_STRING E tc p line m) s Q.
Proof.
  intros Hp HQ. unfold ASSERT_STRING. apply wpe_bind, wp_wpe. by eapply (wp_is_of_class s p (VStr b)).
Qed.

Lemma call_params os n l objs vals s must m Q :
  in_call os (n :: l) objs vals s -> must <= n ->
  (forall s', in_call os l objs vals s' -> wpe (eq oom) m s' Q) -> wpe (eq oom) (params tc must m) s Q.
Proof.
  intros H Hn HQ. unfold params. eapply call_pop_int; [done|]. intros s' H'. unfold CHECK_PARAM_COUNT.
  destruct (Z.ltb_spec n must); [lia|]. auto.
Qed.

Lemma call_arg_int os p v l objs vals s line k Q :
  in_call (os ++ [p]) l (p :: objs) (VInt v :: vals) s -> data p ∈ A ->
  (forall s', in_call os l objs vals s' -> wpe (eq oom) (k v) s' Q) -> wpe (eq oom) (POP_INT E tc line k) s Q.
Proof.
  intros H HA HQ. unfold POP_INT. eapply call_pop_obj; [done|]. intros s' H'.
  pose proof (ic_holds _ _ _ _ _ _ _ _ _ H') as (Hp & _)%list.Forall2_cons_1.
  unfold ASSERT_INT. apply wpe_bind, wp_wpe. eapply (wp_is_of_class s' p (VInt v)); [done|].
  apply wpe_bind, wp_wpe. destruct Hp as (_ & o & Ho & _ & Hd & _).
  eapply wp_load_da; [by apply heap_of_alloc|by rewrite Hd|]. by eapply call_release.
Qed.

Lemma call_return_int os l objs vals s v :
  in_call os l objs vals s -> wpe (eq oom) (return_int tc v) s (finished os l objs vals true (VInt v)).
Proof. intros H. unfold return_int. eapply new_int; [done|]. intros p s' H'. by apply call_push. Qed.

Lemma call_new_string {B} os l objs vals s b (k : pvm_object -> M vm B) (Q : B -> vm -> Prop) :
  in_call os l objs vals s -> sizeof_string + Z.of_nat (length b) < 2 ^ 31 ->
  (forall p s', in_call os l (objs ++ [p]) (vals ++ [VStr b]) s' -> wpe (eq oom) (k p) s' Q) ->
  wpe (eq oom) (o ← pvm_create_string_object_binary (Some b) (Z.of_nat (length b)); k o) s Q.
Proof.
  intros H Hl HQ. destruct (ic_strings _ _ _ _ _ _ _ _ _ H) as (c & Hc & Hf & Hd & Hlf).
  assert (heap_wf s) as Hwf by apply (ca_ostack _ _ _ _ _ (ic_caller _ _ _ _ _ _ _ _ _ H)).
  apply wpe_bind. eapply wpe_mono; [by apply (string_binary_spec b c)|]. intros p s1 F.
  eapply (call_new _ _ _ _ os l objs vals s (VStr b)); [done|exact F|done|]. apply HQ.
Qed.

Lemma call_throw os l objs vals s str :
  in_call os l objs vals s -> strlen (string_bytes str) = Z.of_nat (length (string_bytes str)) ->
  sizeof_string + Z.of_nat (length (string_bytes str)) < 2 ^ 31 ->
  wpe (eq oom) (SYSCALL_THROW_STRING tc str) s (finished os l objs vals false (VStr (string_bytes str))).
Proof.
  intros H Hs Hl. unfold SYSCALL_THROW_STRING, throw_bytes, pvm_create_string_object.
  rewrite Hs, Nat2Z.id, firstn_all. eapply call_new_string; [done..|]. intros p s' H'. by apply call_push.
Qed.

Lemma call_return_bytes os l objs vals s off n b :
  in_call os l objs vals s -> 0 <= off -> 0 <= n -> off + n <= Z.of_nat (length b) ->
  sizeof_string + n < 2 ^ 31 ->
  wpe (eq oom) (return_bytes tc off n b) s
    (finished os l objs vals true (VStr (take (Z.to_nat n) (drop (Z.to_nat off) b)))).
Proof.
  intros H Ho Hn Hb Hl. unfold return_bytes, slice.
  destruct (Z.leb_spec 0 off), (Z.leb_spec 0 n), (Z.leb_spec (off + n) (Z.of_nat (length b))); try lia. simpl.
  apply wpe_bind, wpe_ret. set (v := take _ _).
  assert (n = Z.of_nat (length v)) as Ev. { unfold v. rewrite length_take, length_drop. lia. }
  rewrite Ev at 1. eapply call_new_string; [done|by rewrite <- Ev|]. intros p s' H'. by apply call_push.
Qed.
End Macros.

(** ** Searching and comparing *)

Lemma strnstrn_loop_spec n s1 s2 pos :
  strnstrn_loop n s1 s2 pos =
  (fun i => pos + Z.of_nat i) <$> (fst <$> list_find (fun i => take (length s2) (drop i s1) = s2) (seq 0 n)).
Proof.
  revert s1 pos. induction n as [|n IH]; intros s1 pos; [done|].
  cbn [strnstrn_loop seq list_find]. rewrite drop_0. case_bool_decide as Ht; case_decide; try done.
  - simpl. f_equal. lia.
  - rewrite IH, <- fmap_S_seq, list_find_fmap.
    rewrite (list_find_ext ((fun i => take (length s2) (drop i s1) = s2) ∘ S)
      (fun i => take (length s2) (drop i (tail s1)) = s2)).
    + destruct (list_find _ _) as [[i x]|]; simpl; [f_equal; lia|done].
    + intros i. by destruct s1; simpl; rewrite ?drop_nil.
Qed.

Lemma strnstrn_first b b' :
  strnstrn b (Z.of_nat (length b)) b' (Z.of_nat (length b')) = Z.of_nat <$> first_at b b'.
Proof.
  unfold strnstrn, first_at. destruct (Z.eqb_spec (Z.of_nat (length b')) 0) as [Hz|Hz].
  - destruct b'; [|simpl in Hz; lia]. cbn [seq list_find length]. by rewrite decide_True.
  - rewrite Nat2Z.id, firstn_all, strnstrn_loop_spec. destruct (decide (length b' <= length b)%nat).
    + replace (Z.to_nat _) with (S (length b - length b')) by lia. by destruct (list_find _ _) as [[]|].
    + replace (Z.to_nat _) with 0%nat by lia. replace (S (length b - length b')) with 1%nat by lia.
      cbn [seq list_find]. rewrite drop_0, decide_False; [done|].
      intros Ht%(f_equal length). rewrite length_take in Ht. lia.
Qed.

Lemma strncmp_c_string a b n :
  length a = n -> length b = n ->
  exists r, strncmp a b n = Some r /\ (r =? 0) = bool_decide (c_string a = c_string b).
Proof.
  revert a b. induction n as [|n IH]; intros [|x a] [|y b] Ha Hb; simpl in *; try lia; [by exists 0|].
  assert (forall r : Z, r <> 0 -> x <> y -> exists r', Some r = Some r' /\
    (r' =? 0) = bool_decide ((if x =? 0 then [] else x :: c_string a) = (if y =? 0 then [] else y :: c_string b))) as Hne.
  { intros r Hr Hxy. exists r. split; [done|]. rewrite bool_decide_false; [by apply Z.eqb_neq|].
    destruct (Z.eqb_spec x 0), (Z.eqb_spec y 0); congruence. }
  destruct (Z.ltb_spec x y); [apply Hne; lia|]. destruct (Z.ltb_spec y x); [apply Hne; lia|].
  assert (x = y) as -> by lia. destruct (Z.eqb_spec y 0); [by exists 0|].
  destruct (IH a b) as (r & Er & Hr); [lia..|]. exists r. split; [done|]. rewrite Hr.
  apply bool_decide_ext. split; [by intros ->|by intros [= ->]].
Qed.

(** ** The calls *)

Definition fits (v : val) : Prop :=
  match v with VInt _ => True | VStr b => sizeof_string + Z.of_nat (length b) < 2 ^ 31 end.

Section Calls.
Context (E : sysenv) (s0 : vm) (A : list Z) (tc : Z) (t : da_thread) (me : pvm_object) (b : list Z).
Implicit Types (s : vm) (os objs : list pvm_object) (l : list Z) (vals : list val).
Abbreviation in_call := (in_call s0 A tc t).
Abbreviation finished os l := (finished s0 A tc t os l [me] [VStr b]).

Lemma me_holds os l s : in_call os l [me] [VStr b] s -> holds s me (VStr b).
Proof. by intros [_ _ _ _ (H & _)%list.Forall2_cons_1 _]. Qed.

Lemma two_holds os l objs vals p v s :
  in_call os l (p :: me :: objs) (v :: VStr b :: vals) s -> holds s p v /\ holds s me (VStr b).
Proof. by intros [_ _ _ _ (H & (H' & _)%list.Forall2_cons_1)%list.Forall2_cons_1 _]. Qed.

Lemma substring_call os l pi pn index n k r s :
  in_call (os ++ [pi; pn]) (k :: l) [pn; pi; me] [VInt n; VInt index; VStr b] s -> 2 <= k ->
  data pi ∈ A -> data pn ∈ A -> fits (VStr b) ->
  string_method 8 b [VInt index; VInt n] = Some r ->
  wpe (eq oom) (si_string_8_substring E me tc) s (finished os l r.1 r.2).
Proof.
  intros H Hk Hi Hn Hf Hr. unfold si_string_8_substring. eapply call_assert_string.
  { destruct H as [_ _ _ _ (_ & (_ & (H & _)%list.Forall2_cons_1)%list.Forall2_cons_1)%list.Forall2_cons_1 _]. done. }
  eapply call_params; [done|done|]. clear s H. intros s H.
  eapply (call_arg_int _ _ _ _ _ (os ++ [pi])); [rewrite <- app_assoc; exact H|done|]. clear s H. intros s H.
  eapply call_arg_int; [exact H|done|]. clear s H. intros s H.
  apply wpe_bind, wp_wpe. eapply wp_load_str; [by eapply me_holds|]. simpl in Hf, Hr. unfold sizeof_string in Hf.
  destruct (Z.ltb_spec index 0) as [|H1]; [injection Hr as <-; by apply call_throw|].
  destruct (Z.leb_spec (Z.of_nat (length b)) index) as [|H2]; [injection Hr as <-; by apply call_throw|].
  cbn [orb] in *. rewrite i32_id by lia.
  destruct (Z.ltb_spec n 0) as [H3|H3].
  - injection Hr as <-. destruct (Z.ltb_spec n (Z.of_nat (length b) - index)); [|lia].
    destruct (Z.ltb_spec n 0); [|lia]. by apply call_throw.
  - injection Hr as <-. set (len := if n <? _ then n else _).
    assert (len = Z.min n (Z.of_nat (length b) - index)) as El.
    { unfold len. destruct (Z.ltb_spec n (Z.of_nat (length b) - index)); lia. }
    destruct (Z.ltb_spec len 0); [lia|]. cbn [fst snd].
    replace (take (Z.to_nat n) (drop (Z.to_nat index) b)) with (take (Z.to_nat len) (drop (Z.to_nat index) b)).
    + apply call_return_bytes; unfold sizeof_string; (done || lia).
    + rewrite El. destruct (decide (n <= Z.of_nat (length b) - index)); [by rewrite Z.min_l|].
      rewrite Z.min_r by lia. rewrite !take_ge; [done|rewrite length_drop; lia..].
Qed.

Lemma charat_call os l p index k r s :
  in_call (os ++ [p]) (k :: l) [p; me] [VInt index; VStr b] s -> 1 <= k -> data p ∈ A -> fits (VStr b) ->
  string_method 9 b [VInt index] = Some r ->
  wpe (eq oom) (si_string_9_charat E me tc) s (finished os l r.1 r.2).
Proof.
  intros H Hk Hp Hf Hr. unfold si_string_9_charat. eapply call_assert_string; [by eapply two_holds|].
  eapply call_params; [done|done|]. clear s H. intros s H.
  eapply call_arg_int; [exact H|done|]. clear s H. intros s H.
  apply wpe_bind, wp_wpe. eapply wp_load_str; [by eapply me_holds|]. simpl in Hf, Hr. unfold sizeof_string in Hf.
  rewrite i32_id by lia. destruct (Z.ltb_spec index 0) as [|H1]; [done|].
  destruct (b !!z index) as [c|] eqn:Ec.
  - injection Hr as <-. pose proof (lookupZ_bound _ _ _ Ec).
    destruct (Z.ltb_spec (Z.of_nat (length b) - 1) index); [lia|]. apply wpe_bind, wpe_ret. by apply call_return_int.
  - injection Hr as <-. destruct (Z.ltb_spec (Z.of_nat (length b) - 1) index); [by apply call_throw|].
    destruct (lookup_lt_is_Some_2 b (Z.to_nat index)) as [c Hc]; [lia|].
    assert (b !!z index = Some c); [|congruence]. by apply lookupZ_Some.
Qed.

Lemma concat_call os l p b' k s :
  in_call (os ++ [p]) (k :: l) [p; me] [VStr b'; VStr b] s -> 1 <= k -> data p ∈ A -> fits (VStr (b ++ b')) ->
  wpe (eq oom) (si_string_10_concat E me tc) s (finished os l true (VStr (b ++ b'))).
Proof.
  intros H Hk Hp Hf. unfold si_string_10_concat. eapply call_params; [done|done|]. clear s H. intros s H.
  eapply call_pop_obj; [done|]. clear s H. intros s H. destruct (two_holds _ _ _ _ _ _ _ H) as [H1 H2].
  eapply call_assert_string; [done|]. apply wpe_bind, wp_wpe. eapply wp_load_str; [done|].
  apply wpe_bind, wp_wpe. eapply wp_load_str; [done|].
  unfold slice. rewrite !Z.add_0_l, !Z.leb_refl.
  destruct (Z.leb_spec 0 (Z.of_nat (length b))); [|lia]. destruct (Z.leb_spec 0 (Z.of_nat (length b'))); [|lia].
  apply wpe_bind, wpe_ret, wpe_bind, wpe_ret. rewrite !Nat2Z.id, !drop_0, !firstn_all.
  destruct (ic_strings _ _ _ _ _ _ _ _ _ H) as (c & Hc & Hfl & Hd & Hlf). simpl in Hf. rewrite length_app in Hf.
  assert (heap_wf s) as Hwf by apply (ca_ostack _ _ _ _ _ (ic_caller _ _ _ _ _ _ _ _ _ H)).
  apply wpe_bind. eapply wpe_mono; [by apply (string_cat_spec b b' c); [..|lia]|]. intros o s1 F.
  eapply (call_new _ _ _ _ os l [p; me] [VStr b'; VStr b] s (VStr (b ++ b'))); [done| |done|].
  { simpl. rewrite length_app, Nat2Z.inj_add. exact F. }
  intros H'. eapply call_release; [exact H'|done|]. intros s2 H2'. by apply (call_push _ _ _ _ os l [me]).
Qed.

Lemma length_call os l k s :
  in_call os (k :: l) [me] [VStr b] s -> 0 <= k ->
  wpe (eq oom) (si_string_11_length E me tc) s (finished os l true (VInt (Z.of_nat (length b)))).
Proof.
  intros H Hk. unfold si_string_11_length. eapply call_assert_string; [by eapply me_holds|].
  eapply call_params; [done|done|]. clear s H. intros s H.
  apply wpe_bind, wp_wpe. eapply wp_load_str; [by eapply me_holds|]. by apply call_return_int.
Qed.

Lemma find_call os l p b' k s :
  in_call (os ++ [p]) (k :: l) [p; me] [VStr b'; VStr b] s -> 1 <= k -> data p ∈ A ->
  wpe (eq oom) (si_string_12_find E me tc) s
    (finished os l true (VInt (default (-1) (Z.of_nat <$> first_at b b')))).
Proof.
  intros H Hk Hp. unfold si_string_12_find. eapply call_params; [done|done|]. clear s H. intros s H.
  eapply call_pop_obj; [done|]. clear s H. intros s H. destruct (two_holds _ _ _ _ _ _ _ H) as [H1 H2].
  eapply call_assert_string; [done|]. apply wpe_bind, wp_wpe. eapply wp_load_str; [done|].
  apply wpe_bind, wp_wpe. eapply wp_load_str; [done|]. rewrite strnstrn_first.
  eapply call_release; [exact H|done|]. intros s' H'. by apply call_return_int.
Qed.

Lemma wp_string_equal s p b' (Q : bool -> vm -> Prop) :
  holds s me (VStr b) -> holds s p (VStr b') ->
  Q (bool_decide (length b = length b') && bool_decide (c_string b = c_string b')) s ->
  wp (string_equal me p) s Q.
Proof.
  intros Hm Hp HQ. unfold string_equal. wp_step. eapply wp_load_str; [done|]. wp_step. eapply wp_load_str; [done|].
  destruct Hm as (_ & om & Hom & Hcm & _), Hp as (_ & op & Hop & Hcp & _).
  wp_step. eapply wp_load; [by apply heap_of_alloc|]. wp_step. eapply wp_load; [by apply heap_of_alloc|].
  rewrite Hcm, Hcp. simpl val_class. rewrite Z.eqb_refl. cbn [negb orb].
  destruct (Z.eqb_spec (Z.of_nat (length b)) (Z.of_nat (length b'))) as [El|El].
  - rewrite bool_decide_true in HQ by lia. cbn [negb].
    destruct (strncmp_c_string b b' (length b)) as (r & Er & Hr); [lia|lia|].
    wp_step. eapply wp_some_or_fault; [by rewrite Nat2Z.id|]. wp_step. by rewrite Hr.
  - rewrite bool_decide_false in HQ by lia. cbn [negb]. by wp_step.
Qed.

Lemma equals_call os l p b' k s :
  in_call (os ++ [p]) (k :: l) [p; me] [VStr b'; VStr b] s -> 1 <= k -> data p ∈ A ->
  wpe (eq oom) (si_string_4_equals E me tc) s (finished os l true
    (VInt (b2z (bool_decide (length b = length b') && bool_decide (c_string b = c_string b'))))).
Proof.
  intros H Hk Hp. unfold si_string_4_equals. eapply call_params; [done|done|]. clear s H. intros s H.
  eapply call_pop_obj; [done|]. clear s H. intros s H. destruct (two_holds _ _ _ _ _ _ _ H) as [H1 H2].
  assert (heap_wf s) as Hwf by apply (ca_ostack _ _ _ _ _ (ic_caller _ _ _ _ _ _ _ _ _ H)).
  apply wpe_bind, wp_wpe, wp_is_null. pose proof H1 as (Hn & o & Ho & _).
  pose proof (alloc_pos _ _ _ Hwf Ho). destruct (Z.eqb_spec (data p) 0); [done|].
  destruct (Z.eqb_spec (data p) (data (null_object (pvm_root s)))); [done|]. cbn [orb].
  eapply call_assert_string; [done|]. apply wpe_bind, wp_wpe. eapply wp_string_equal; [done..|].
  eapply call_release; [exact H|done|]. intros s' H'. by apply call_return_int.
Qed.

(** Whatever the method, the object and the parameters are as the specification
    wants them. *)
Lemma string_call i os l objs args r s :
  in_call (os ++ objs) (Z.of_nat (length args) :: l) (reverse objs ++ [me]) (reverse args ++ [VStr b]) s ->
  length objs = length args -> (forall p, p ∈ objs -> data p ∈ A) -> fits (VStr b) -> fits r.2 ->
  string_method i b args = Some r ->
  exists f, syscall_table_4_string E !! i = Some (Some f) /\
    wpe (eq oom) (f me tc) s (finished os l r.1 r.2).
Proof.
  intros H Hlen HA Hf Hfr Hr. assert (0 <= Z.of_nat (length args)) as H0 by lia.
  repeat match goal with j : nat |- _ => destruct j as [|j]; try done end;
    (destruct args as [|[] [|[] []]]; try done); (destruct objs as [|p [|q []]]; try done);
    (eexists; split; [reflexivity|]).
  - injection Hr as <-. eapply equals_call; [exact H|done|apply HA; set_solver].
  - eapply substring_call; [exact H|done|apply HA; set_solver..|done|done].
  - eapply charat_call; [exact H|done|apply HA; set_solver|done|done].
  - injection Hr as <-. eapply concat_call; [exact H|done|apply HA; set_solver|done].
  - injection Hr as <-. rewrite app_nil_r in H. by eapply length_call.
  - injection Hr as <-. eapply find_call; [exact H|done|apply HA; set_solver].
Qed.
End Calls.

Lemma counted_perm s l l' : Permutation l l' -> counted_refs s l -> counted_refs s l'.
Proof.
  intros Hp Hc x Hx. destruct (Hc x) as (o & Ho & Hr); [by rewrite Hp|]. exists o. split; [done|].
  unfold count in *. by rewrite <- Hp.
Qed.

Lemma strlen_text b : Forall (fun c => c <> 0) b -> strlen b = Z.of_nat (length b).
Proof. induction 1 as [|c b Hc Hb IH]; [done|]. cbn [strlen length]. destruct (Z.eqb_spec c 0); [done|]. lia. Qed.

(** ** Properties *)


(** C34: [int.toString] pushes a new string that reads back as the number: for
    every 32 bit value the text is a decimal number that [strtol] takes to its end,
    nothing else changes, and the call stops only when memory runs out. *)
Theorem si_int_5_tostring_correct me tc t os l v s :
  caller s tc t os l -> maker s (int_class (pvm_root s)) -> maker s (string_class (pvm_root s)) ->
  holds s me (VInt v) -> - 2 ^ 31 <= v < 2 ^ 31 ->
  wpe (eq oom) (si_int_5_tostring me tc) s (fun ok s' => ok = true /\ exists o text,
    caller s' tc t (os ++ [o]) l /\ holds s' o (VStr text) /\ strtol text 10 = (v, []) /\ sys_quiet [] s s').
Proof.
  intros Hc Hi Hs Hm Hv. destruct (snprintf_dec v 32 Hv) as (text & Et & Hst & Hnz & Hlen); [done|].
  assert (in_call s [] tc t os l [] [] s) as H.
  { split; try done. intros x Hx. by apply not_elem_of_nil in Hx. }
  unfold si_int_5_tostring. apply wpe_bind, wp_wpe. pose proof Hm as (_ & o & Ho & _ & Hd & _).
  eapply wp_load_da; [by apply heap_of_alloc|by rewrite Hd|]. unfold return_printed. rewrite Et.
  apply wpe_bind, wpe_ret. unfold pvm_create_string_object.
  rewrite strlen_text, Nat2Z.id, firstn_all by done. eapply call_new_string; [exact H|unfold sizeof_string; lia|].
  intros p s' H'. eapply wpe_mono; [by apply (call_push s [] tc t os l [] [] p true s' (VStr text))|].
  intros ok s1 (-> & q & [C _ _ Q (Hq & _)%list.Forall2_cons_1 _]). split; [done|]. by exists q, text.
Qed.

(** ** Witnesses *)

(** A kernel without devices. *)
Definition ex_sysenv : sysenv :=
  mkSysenv (fun _ => []) (fun _ => []) (fun o _ _ => mret o) (fun _ => mret tt)
    (mkDevices (fun _ _ => mret 0) (fun _ => mret 0) (fun _ => mret tt) (fun _ => mret None))
    (fun _ => mret tt) (fun _ => mret tt) (fun _ _ => mret false) (fun _ _ _ _ => mret tt)
    (fun _ => None) (fun _ _ => mret tt) 16 (fun _ _ => mret true) 116.

(** Whether a class makes leaves, an object holds a value, and so on. *)
Definition maker_b (s : vm) (cls : pvm_object) : bool :=
  obj_b s (data cls) (fun d => match as_class d with
    | Some c => (0 <=? object_flags c) && (object_flags c <? 2 ^ 32) && (0 <=? object_data_area_size c) &&
        (object_data_area_size c <? 2 ^ 31) && leaf_flags (object_flags c)
    | None => false
    end).

Definition val_da_b (v : val) (d : data_area) : bool :=
  match v, d with
  | VInt v, DA_int w => v =? w
  | VStr b, DA_string n w => (n =? Z.of_nat (length b)) && bool_decide (w = b)
  | _, _ => false
  end.

Definition holds_b (s : vm) (p : pvm_object) (v : val) : bool :=
  negb (data p =? data (null_object (pvm_root s))) &&
  match alloc_at (heap s) (data p) with
  | Some o => (data (_class o) =? data (val_class v (pvm_root s))) && val_da_b v (da o) && leaf_flags (_flags o)
  | None => false
  end.

Definition counted_refs_b (s : vm) (l : list Z) : bool :=
  forallb (fun x => match alloc_at (heap s) x with
    | Some o => Z.of_nat (count x l) <=? refCount (_ah o) | None => false end) l.

Definition caller_b (s : vm) (tc : Z) (os : list pvm_object) (l : list Z) : bool :=
  let t := thread_of s tc in
  obj_b s tc (fun d => match d with DA_thread _ => true | _ => false end) &&
  one_page_b ostack_kind s (_ostack t) os && one_page_b istack_kind s (_istack t) (rev l).

Lemma maker_b_sound s cls : maker_b s cls = true -> maker s cls.
Proof.
  intros (o & Ho & Hc)%obj_b_true. destruct (as_class (da o)) as [c|] eqn:Ec; [|done].
  rewrite !andb_true_iff in Hc. destruct Hc as [Hc Hl]. exists c. split; [by exists o|]. split_and!; (done || lia).
Qed.

Lemma val_da_b_sound v d : val_da_b v d = true -> d = val_da v.
Proof.
  destruct v, d; simpl; try done; [by intros ->%Z.eqb_eq|].
  rewrite andb_true_iff, bool_decide_eq_true. by intros [->%Z.eqb_eq ->].
Qed.

Lemma holds_b_sound s p v : holds_b s p v = true -> holds s p v.
Proof.
  unfold holds_b. rewrite andb_true_iff, negb_true_iff. intros [Hn H]. split; [lia|].
  destruct (alloc_at _ _) as [o|]; [|done]. rewrite !andb_true_iff in H. destruct H as [[Hc Hd] Hf].
  exists o. split; [done|]. split_and!; [lia|by apply val_da_b_sound|done].
Qed.

Lemma counted_refs_b_sound s l : counted_refs_b s l = true -> counted_refs s l.
Proof.
  unfold counted_refs_b. rewrite forallb_forall. intros H x Hx. specialize (H x). rewrite <- list_elem_of_In in H.
  specialize (H Hx). destruct (alloc_at _ _) as [o|]; [|done]. exists o. split; [done|]. left. lia.
Qed.

Lemma caller_b_sound s tc os l : caller_b s tc os l = true -> caller s tc (thread_of s tc) os l.
Proof.
  unfold caller_b. rewrite !andb_true_iff. intros [[Ht Ho] Hi].
  split; [by apply thread_of_obj|by apply one_page_b_sound|by apply one_page_b_sound].
Qed.

Definition ex_new (v : val) : M vm pvm_object :=
  match v with VInt v => pvm_create_int_object v | VStr b => pvm_create_string_object b end.

(** A thread with [os] on its stack of objects that calls a method of [me]. *)
Definition ex_call_prog (me : val) (args : list val) : M vm (pvm_object * pvm_object * list pvm_object) :=
  th ← ex_thread_prog [] [Z.of_nat (length args)];
  o ← ex_new me;
  objs ← mapM ex_new args;
  for_each (os_push (data th)) objs;;
  mret (th, o, objs).
Definition ex_call (me : val) (args : list val) : vm * (pvm_object * pvm_object * list pvm_object) :=
  match ex_call_prog me args ex_boot with Ret r s => (s, r) | _ => (ex_boot, (null_ref, null_ref, [])) end.

(** Everything a call needs, as a test. *)
Definition ready_b (s : vm) (th o : pvm_object) (objs : list pvm_object) (me : val) (args : list val) : bool :=
  caller_b s (data th) objs [Z.of_nat (length args)] && maker_b s (int_class (pvm_root s)) &&
  maker_b s (string_class (pvm_root s)) && holds_b s o me &&
  (length objs =? length args)%nat && forallb (fun x => holds_b s x.1 x.2) (zip objs args) &&
  counted_refs_b s (data <$> o :: objs).

Lemma ready_b_sound s th o objs me args : ready_b s th o objs me args = true ->
  caller s (data th) (thread_of s (data th)) ([] ++ objs) [Z.of_nat (length args)] /\
  maker s (int_class (pvm_root s)) /\ maker s (string_class (pvm_root s)) /\ holds s o me /\
  Forall2 (holds s) objs args /\ counted_refs s (data <$> o :: objs).
Proof.
  unfold ready_b. rewrite !andb_true_iff. intros [[[[[[H1 H2] H3] H4] H5%Nat.eqb_eq] H6] H7].
  split_and!; [by apply caller_b_sound|by apply maker_b_sound|by apply maker_b_sound|by apply holds_b_sound| |
    by apply counted_refs_b_sound].
  apply list.Forall2_same_length_lookup. split; [done|]. intros i p v Hp Hv. rewrite forallb_forall in H6.
  apply holds_b_sound, (H6 (p, v)), list_elem_of_In, list_elem_of_lookup. exists i.
  rewrite lookup_zip_with, Hp, Hv. done.
Qed.

Definition ex_sub := ex_call (VStr (string_bytes "phantom")) [VInt 2; VInt 3].
Definition ex_str := ex_call (VInt (-1234)) [].

Definition returned (r : outcome vm bool) : bool := match r with Ret true _ => true | _ => false end.


Lemma si_int_5_tostring_correct_witness :
  returned (si_int_5_tostring ex_str.2.1.2 (data ex_str.2.1.1) ex_str.1) = true /\
  wpe (eq oom) (si_int_5_tostring ex_str.2.1.2 (data ex_str.2.1.1)) ex_str.1 (fun ok s' => ok = true /\
    exists o text, holds s' o (VStr text) /\ strtol text 10 = (-1234, [])).
Proof.
  split; [vm_compute; reflexivity|].
  destruct (ready_b_sound ex_str.1 ex_str.2.1.1 ex_str.2.1.2 ex_str.2.2 (VInt (-1234)) [])
    as (H1 & H2 & H3 & H4 & _); [vm_compute; reflexivity|].
  eapply wpe_mono; [apply (si_int_5_tostring_correct _ _ _ _ _ (-1234) _ H1 H2 H3 H4);
    vm_compute; split; [discriminate|reflexivity]|].
  intros ok s' (Hok & o & text & _ & Ho & Ht & _). split; [exact Hok|exists o, text; split; [exact Ho|exact Ht]].
Defined.

(** ** Deviations *)

(** [charAt] accepts a negative index and reads before the string. *)
Lemma charat_negative :
  let '(s, (th, o, _)) := ex_call (VStr (string_bytes "phantom")) [VInt (-1)] in
  si_string_9_charat ex_sysenv o (data th) s = Fault "charAt outside the string".
Proof. vm_compute. reflexivity. Qed.

(** Strings of equal length are equal for [equals] if they agree up to a zero byte. *)
Lemma equals_stops_at_nul : string_method 4 [1; 0; 2] [VStr [1; 0; 3]] = returns (VInt 1).
Proof. reflexivity. Qed.

(** A method beyond the table of its class is read from what follows the table. *)
Lemma syscall_outside_table E : length (syscall_table_4_string E) = 16%nat /\ syscall_table_4_string E !! 16%nat = None.
Proof. split; reflexivity. Qed.

(** The number of objects on a thread's stack. *)
Definition ostack_depth (s : vm) (th : Z) : option Z :=
  o ← alloc_at (heap s) (_ostack (thread_of s th)); d ← as_ostack (da o); Some (free_cell_ptr (common d)).

(** Unlocking a mutex leaves the exception below the result of a normal return. *)
Lemma mutex_unlock_returns :
  let '(s, (th, o, _)) := ex_call (VInt 0) [] in
  match si_mutex_9_unlock o (data th) s with
  | Ret ok s' => ok && bool_decide (ostack_depth s (data th) = Some 0 /\ ostack_depth s' (data th) = Some 2)
  | _ => false
  end = true.
Proof. vm_compute. reflexivity. Qed.
