(* ===== verification/Amap.v ===== *)
(** * Address maps ([phantom/libkern/amap.c])

    A map from addresses to flags, kept as a queue of ranges that follow each
    other.  The queue is a list (see [Queue]); loops walk it with the entries
    before the current one, the current one and those behind it.

    [amap_check_modify] reads its variable [e_finish] before it has a value when an
    entry has the wanted flags already.  The value found is [garbage a] for the
    entry that starts at [a]: any function.

    The properties relate the queue to the function from addresses to flags. *)

From S2P Require Import Prelude.

(** ** Data and operations *)

Definition E2BIG : Z := 7.
Definition ENOENT : Z := 2.
Definition EFBIG : Z := 27.
Definition EFTYPE : Z := 79.

Record amap_entry := mkEntry { e_start : Z; n_elem : Z; e_flags : Z }.
Record amap := mkAmap { am_start : Z; am_n_elem : Z; am_queue : list amap_entry }.
Definition set_queue (q : list amap_entry) (m : amap) : amap := mkAmap (am_start m) (am_n_elem m) q.
Definition set_eflags (flags : Z) (e : amap_entry) : amap_entry := mkEntry (e_start e) (n_elem e) flags.

Definition new_entry (from n flags : Z) : amap_entry := mkEntry from n flags.

(** Join an entry with the next one. *)
Definition join (e ne : amap_entry) : amap_entry := mkEntry (e_start e) (u64 (n_elem e + n_elem ne)) (e_flags e).

(** The entry, cut to [n] elements, and the one with the rest. *)
Definition split (e : amap_entry) (n : Z) : M amap (amap_entry * amap_entry) :=
  assert_ (n <? n_elem e) "e->n_elem > n_elem_in_first";;
  assert_ (0 <? n) "n_elem_in_first > 0";;
  mret (mkEntry (e_start e) n (e_flags e), new_entry (u64 (e_start e + n)) (u64 (n_elem e - n)) (e_flags e)).

(** A place in the queue: the entries before, the entry, those behind. *)
Definition zipper : Type := (list amap_entry * amap_entry * list amap_entry).
Definition queue_of_zipper (z : zipper) : list amap_entry := let '(pre, e, post) := z in pre ++ e :: post.

Fixpoint find_loop (pre q : list amap_entry) (from : Z) : option zipper :=
  match q with
  | [] => None
  | ie :: q' =>
      if (e_start ie <=? from) && (from <? u64 (e_start ie + n_elem ie)) then Some (pre, ie, q')
      else find_loop (pre ++ [ie]) q' from
  end.
Definition find (from : Z) : M amap (option zipper) := q ← gets am_queue; mret (find_loop [] q from).

Definition amap_init (start n start_state_flags : Z) : amap := mkAmap start n [new_entry start n start_state_flags].

(** The calls of the function passed to the iterators: start, size and flags. *)
Definition call_of (ie : amap_entry) : Z * Z * Z := (e_start ie, n_elem ie, e_flags ie).
Definition amap_iterate_all (m : amap) : list (Z * Z * Z) := call_of <$> am_queue m.
Definition amap_iterate_flags (flags : Z) (m : amap) : list (Z * Z * Z) :=
  call_of <$> filter (fun ie => e_flags ie = flags) (am_queue m).

(** The range is not one of the map. *)
Definition out_of_map (m : amap) (from n : Z) : bool :=
  (u64 (am_start m + am_n_elem m) <=? from)
  || (u64 (from + n) <=? am_start m)
  || (from <? am_start m)
  || (u64 (am_start m + am_n_elem m) <? u64 (from + n)).

(** The loop of [amap_check]; [n_elem] is unsigned and wraps. *)
Fixpoint check_loop (e : amap_entry) (post : list amap_entry) (from n flags : Z) : Z :=
  if negb (e_flags e =? flags) then EFTYPE else
  let finish := u64 (from + n) in
  let from := u64 (e_start e + n_elem e) in
  let n := u64 (finish - from) in
  if n <=? 0 then 0 else
  match post with
  | [] => EFBIG
  | e' :: post' => check_loop e' post' from n flags
  end.
Definition amap_check (from n flags : Z) : M amap Z :=
  m ← get;
  if out_of_map m from n then mret E2BIG else
  z ← find from;
  match z with
  | None => mret ENOENT
  | Some (_, e, post) => mret (check_loop e post from n flags)
  end.

(** The loop of [rejoin_range]. *)
Fixpoint rejoin_loop (pre : list amap_entry) (e : amap_entry) (post : list amap_entry) (finish : Z)
    : M amap (list amap_entry) :=
  match post with
  | [] => panic "amap - fall out of map bounds"
  | nexte :: post' =>
      if negb (e_flags e =? e_flags nexte) then
        if e_start nexte <? finish then rejoin_loop (pre ++ [e]) nexte post' finish
        else mret (pre ++ e :: post)
      else
        if e_start e <? finish then rejoin_loop pre (join e nexte) post' finish
        else mret (pre ++ join e nexte :: post')
  end.
Definition rejoin_range (from n : Z) : M amap Z :=
  m ← get;
  if out_of_map m from n then mret E2BIG else
  z ← find from;
  match z with
  | None => panic "amap - no elem within map bounds"
  | Some (pre, e, post) => q ← rejoin_loop pre e post (u64 (from + n)); modify (set_queue q);; mret 0
  end.

(** From the label [next]: go to the next entry, if there is more to do. *)
Definition modify_next (again : list amap_entry -> amap_entry -> list amap_entry -> M amap (zipper * bool))
    (e_finish finish : Z) (modified : bool) (pre : list amap_entry) (e : amap_entry) (post : list amap_entry)
    : M amap (zipper * bool) :=
  if e_finish =? finish then mret (pre, e, post, modified) else
  match post with
  | [] => panic "amap - fall out of map bounds"
  | e' :: post' => if e_start e' <? finish then again (pre ++ [e]) e' post' else mret (pre ++ [e], e', post', modified)
  end.
Fixpoint modify_loop (garbage : Z -> Z) (fuel : nat) (from finish flags : Z) (modified : bool)
    (pre : list amap_entry) (e : amap_entry) (post : list amap_entry) : M amap (zipper * bool) :=
  match fuel with
  | O => diverge
  | S fuel' =>
      let again := modify_loop garbage fuel' from finish flags in
      if e_flags e =? flags then modify_next (again modified) (garbage (e_start e)) finish modified pre e post
      else
        let e_finish := u64 (e_start e + n_elem e) in
        if (from <=? e_start e) && (e_finish <=? finish) then
          modify_next (again true) e_finish finish true pre (set_eflags flags e) post
        else if e_start e <? from then
          '(e, ne) ← split e (u64 (from - e_start e));
          if e_start ne <? finish then again true (pre ++ [e]) ne post else mret (pre ++ [e], ne, post, true)
        else
          assert_ (finish <? e_finish) "e_finish > finish";;
          '(e, ne) ← split e (u64 (finish - e_start e));
          if e_start e <? finish then again true pre e (ne :: post) else mret (pre, e, ne :: post, true)
  end.

(** Set the flags of a range; the second result is [*modified]. *)
Definition amap_check_modify (garbage : Z -> Z) (from n flags : Z) : M amap (Z * bool) :=
  m ← get;
  if out_of_map m from n then mret (E2BIG, false) else
  z ← find from;
  match z with
  | None => panic "amap - no elem within map bounds"
  | Some (pre, e, post) =>
      '(z, modified) ← modify_loop garbage (length (am_queue m) + 3) from (u64 (from + n)) flags false pre e post;
      modify (set_queue (queue_of_zipper z));;
      let '(_, e, _) := z in
      (if u64 (e_start e + n_elem e) <? u64 (from + n) then panic "AMAP - finished before" else mret tt);;
      rejoin_range from n;;
      mret (0, modified)
  end.
Definition amap_modify (garbage : Z -> Z) (from n flags : Z) : M amap Z :=
  r ← amap_check_modify garbage from n flags; mret r.1.

Definition amap_destroy : M amap unit := modify (set_queue []).

(** ** The function of a map *)

(** The entries follow each other from [a] to [b]. *)
Fixpoint tiles (a : Z) (q : list amap_entry) (b : Z) : Prop :=
  match q with
  | [] => a = b
  | e :: q' => e_start e = a /\ 0 < n_elem e /\ tiles (a + n_elem e) q' b
  end.
Record amap_wf (m : amap) : Prop := {
  wf_start : 0 <= am_start m;
  wf_end : am_start m + am_n_elem m < 2 ^ 64;
  wf_tiles : tiles (am_start m) (am_queue m) (am_start m + am_n_elem m);
}.

Definition covers (e : amap_entry) (x : Z) : bool := (e_start e <=? x) && (x <? e_start e + n_elem e).
Fixpoint flags_at (q : list amap_entry) (x : Z) : option Z :=
  match q with
  | [] => None
  | e :: q' => if covers e x then Some (e_flags e) else flags_at q' x
  end.

Section Tiles.
Implicit Types (q pre post : list amap_entry) (e : amap_entry).

Lemma tiles_le a q b : tiles a q b -> a <= b.
Proof. revert a. induction q as [|e q IH]; simpl; intros a; [lia|]. intros (_ & Hn & H). apply IH in H. lia. Qed.

Lemma tiles_app a q1 q2 b : tiles a (q1 ++ q2) b <-> exists c, tiles a q1 c /\ tiles c q2 b.
Proof.
  revert a. induction q1 as [|e q1 IH]; simpl; intros a.
  - split; [by exists a|]. by intros (c & -> & H).
  - rewrite IH. naive_solver.
Qed.

Lemma tiles_split a pre e post b :
  tiles a (pre ++ e :: post) b <->
  tiles a pre (e_start e) /\ 0 < n_elem e /\ tiles (e_start e + n_elem e) post b.
Proof. rewrite tiles_app. simpl. naive_solver. Qed.

Lemma flags_at_app q1 q2 x :
  flags_at (q1 ++ q2) x = match flags_at q1 x with Some f => Some f | None => flags_at q2 x end.
Proof. induction q1 as [|e q1 IH]; simpl; [done|]. by destruct (covers e x). Qed.

Lemma flags_at_out a q b x : tiles a q b -> x < a \/ b <= x -> flags_at q x = None.
Proof.
  revert a. induction q as [|e q IH]; simpl; intros a; [done|]. intros (<- & Hn & H) Hx.
  pose proof (tiles_le _ _ _ H). unfold covers. case_match; [lia|]. apply (IH _ H). lia.
Qed.

Lemma flags_at_in a q b x : tiles a q b -> a <= x < b -> is_Some (flags_at q x).
Proof.
  revert a. induction q as [|e q IH]; simpl; intros a; [lia|]. intros (<- & Hn & H) Hx.
  unfold covers. case_match; [done|]. apply (IH _ H). lia.
Qed.
End Tiles.

Section Tiles2.
Implicit Types (q pre post : list amap_entry) (e : amap_entry).

Lemma tiles_bounds a pre e post b :
  tiles a (pre ++ e :: post) b -> a <= e_start e /\ 0 < n_elem e /\ e_start e + n_elem e <= b.
Proof.
  intros (H1 & Hn & H2)%tiles_split. apply tiles_le in H1. apply tiles_le in H2. lia.
Qed.

(** Where an address is looked up. *)
Lemma flags_at_zip a pre e post b x :
  tiles a (pre ++ e :: post) b ->
  flags_at (pre ++ e :: post) x =
    if x <? e_start e then flags_at pre x
    else if x <? e_start e + n_elem e then Some (e_flags e) else flags_at post x.
Proof.
  intros (H1 & Hn & H2)%tiles_split. rewrite flags_at_app. simpl. unfold covers.
  destruct (x <? e_start e) eqn:E1.
  - rewrite (flags_at_out _ _ _ x H2) by lia. destruct (flags_at pre x); [done|]. case_match; [lia|done].
  - rewrite (flags_at_out _ _ _ x H1) by lia. case_match; case_match; try done; lia.
Qed.

Lemma find_loop_ok a pre q b from :
  tiles a (pre ++ q) b -> 0 <= a -> b < 2 ^ 64 -> (exists e, head q = Some e /\ e_start e <= from) -> from < b ->
  exists pre' e post, find_loop pre q from = Some (pre', e, post) /\ pre' ++ e :: post = pre ++ q /\
    e_start e <= from < e_start e + n_elem e.
Proof.
  revert pre. induction q as [|e q IH]; intros pre Ht Ha Hb (e0 & [= <-] & He) Hf. simpl.
  pose proof (tiles_bounds _ _ _ _ _ Ht). unfold u64. rewrite wrapU_id by lia.
  destruct ((e_start e <=? from) && (from <? e_start e + n_elem e)) eqn:E.
  - exists pre, e, q. repeat split; lia.
  - destruct q as [|e' q].
    + apply tiles_split in Ht as (_ & _ & Ht). simpl in Ht. lia.
    + destruct (IH (pre ++ [e])) as (pre' & e1 & post & E1 & E2 & E3); [by rewrite <-app_assoc|done|done| |done|].
      * exists e'. split; [done|]. apply tiles_split in Ht as (_ & _ & Ht). simpl in Ht. lia.
      * exists pre', e1, post. by rewrite E2, <-app_assoc.
Qed.

(** The flags of the last entry. *)
Definition last_flags q : option Z := e_flags <$> list.last q.

Lemma last_zip pre e post : last_flags (pre ++ e :: post) = last_flags (e :: post).
Proof. unfold last_flags. by rewrite last_app_cons. Qed.

Lemma last_post_ne e post f : last_flags (e :: post) = Some f -> e_flags e <> f -> exists e' post', post = e' :: post'.
Proof. destruct post as [|e' post']; [|by exists e', post']. intros [= <-]. done. Qed.

Lemma last_change e e' post f : last_flags (e :: post) = Some f -> (post = [] -> e_flags e' = e_flags e) -> last_flags (e' :: post) = Some f.
Proof. destruct post; [|done]. unfold last_flags. simpl. intros [= <-] ->; done. Qed.
End Tiles2.

(** ** Joining ranges *)

Lemma join_at a pre e ne post b x :
  tiles a (pre ++ e :: ne :: post) b -> 0 <= a -> b < 2 ^ 64 -> e_flags e = e_flags ne ->
  tiles a (pre ++ join e ne :: post) b /\ n_elem (join e ne) = n_elem e + n_elem ne /\
  flags_at (pre ++ join e ne :: post) x = flags_at (pre ++ e :: ne :: post) x.
Proof.
  intros Ht Ha Hb Hf. pose proof (tiles_bounds _ _ _ _ _ Ht) as B1. pose proof Ht as Ht'.
  apply tiles_split in Ht' as (H1 & Hn & H2). simpl in H2. destruct H2 as (Es & Hn' & H2). pose proof (tiles_le _ _ _ H2).
  assert (n_elem (join e ne) = n_elem e + n_elem ne) as En.
  { simpl. unfold u64. apply wrapU_id. lia. }
  assert (tiles a (pre ++ join e ne :: post) b) as Ht2.
  { apply tiles_split. rewrite En. simpl. split; [done|]. split; [lia|]. by rewrite Z.add_assoc. }
  split; [done|]. split; [done|].
  rewrite (flags_at_zip _ _ _ _ _ x Ht), (flags_at_zip _ _ _ _ _ x Ht2), En. simpl. unfold covers. rewrite Es, Hf.
  repeat case_match; try done; lia.
Qed.

Section Rejoin.
Context (a b from finish flags f : Z).
Hypothesis (Ha : 0 <= a) (Hb : b < 2 ^ 64) (Hfl : flags <> f).

Lemma range_flags pre e post q0 :
  tiles a (pre ++ e :: post) b -> (forall x, flags_at (pre ++ e :: post) x = flags_at q0 x) ->
  (forall x, from <= x < finish -> flags_at q0 x = Some flags) ->
  e_start e < finish -> from < e_start e + n_elem e -> from < finish -> e_flags e = flags.
Proof.
  intros Ht Hq Hr Hs Hfrom Hlt. set (x := Z.max from (e_start e)). pose proof (Hr x) as Hx.
  rewrite <-Hq, (flags_at_zip _ _ _ _ _ x Ht) in Hx.
  pose proof (tiles_bounds _ _ _ _ _ Ht). assert (from <= x < finish) as Hx' by lia. specialize (Hx Hx').
  destruct (x <? e_start e) eqn:E1; [lia|]. destruct (x <? e_start e + n_elem e) eqn:E2; [congruence|lia].
Qed.

Lemma rejoin_loop_ok post pre e q0 s :
  tiles a (pre ++ e :: post) b -> last_flags (e :: post) = Some f ->
  (forall x, flags_at (pre ++ e :: post) x = flags_at q0 x) ->
  (forall x, from <= x < finish -> flags_at q0 x = Some flags) ->
  e_start e < finish -> from < e_start e + n_elem e -> from < finish ->
  wp (rejoin_loop pre e post finish) s (fun q s' => s' = s /\
    tiles a q b /\ last_flags q = Some f /\ forall x, flags_at q x = flags_at q0 x).
Proof.
  revert pre e. induction post as [|ne post IH]; intros pre e Ht Hl Hq Hr Hs Hfrom Hlt.
  { assert (e_flags e = flags) by (by eapply range_flags). unfold last_flags in Hl. simpl in Hl. congruence. }
  assert (e_flags e = flags) as Ef by (by eapply range_flags). simpl.
  pose proof Ht as Ht'. apply tiles_split in Ht' as (_ & Hn & Ht'). simpl in Ht'. destruct Ht' as (Es & Hn' & _).
  destruct (e_flags e =? e_flags ne) eqn:E; simpl.
  - rewrite (proj2 (Z.ltb_lt _ _) Hs). assert (e_flags e = e_flags ne) as E' by lia.
    destruct post as [|e2 post]; [unfold last_flags in Hl; simpl in Hl; congruence|].
    destruct (join_at a pre e ne (e2 :: post) b 0 Ht Ha Hb E') as (Ht2 & En & _).
    apply IH; [done|done| |done|done|rewrite En; simpl; lia|done].
    intros x. destruct (join_at a pre e ne (e2 :: post) b x Ht Ha Hb E') as (_ & _ & ->). apply Hq.
  - destruct (e_start ne <? finish) eqn:E2.
    + apply IH; [by rewrite <-app_assoc|done|by rewrite <-app_assoc|done|lia|lia|done].
    + apply wp_ret. split; [done|]. split; [done|]. split; [|done]. by rewrite last_zip.
Qed.
End Rejoin.

(** ** Setting a range *)

Lemma cut_at a pre e post b n x :
  tiles a (pre ++ e :: post) b -> 0 < n < n_elem e ->
  let e1 := mkEntry (e_start e) n (e_flags e) in
  let e2 := mkEntry (e_start e + n) (n_elem e - n) (e_flags e) in
  tiles a (pre ++ e1 :: e2 :: post) b /\
  flags_at (pre ++ e1 :: e2 :: post) x = flags_at (pre ++ e :: post) x.
Proof.
  intros Ht Hn e1 e2. pose proof Ht as Ht'. apply tiles_split in Ht' as (H1 & Hn' & H2).
  assert (tiles a (pre ++ e1 :: e2 :: post) b) as Ht2.
  { apply tiles_split. simpl. split; [done|]. split; [lia|]. split; [done|]. split; [lia|].
    by replace (e_start e + n + (n_elem e - n)) with (e_start e + n_elem e) by lia. }
  split; [done|]. rewrite (flags_at_zip _ _ _ _ _ x Ht), (flags_at_zip _ _ _ _ _ x Ht2). simpl. unfold covers. simpl.
  repeat case_match; try done; lia.
Qed.

Lemma set_at a pre e post b flags x :
  tiles a (pre ++ e :: post) b ->
  tiles a (pre ++ set_eflags flags e :: post) b /\
  flags_at (pre ++ set_eflags flags e :: post) x =
    if (e_start e <=? x) && (x <? e_start e + n_elem e) then Some flags else flags_at (pre ++ e :: post) x.
Proof.
  intros Ht. assert (tiles a (pre ++ set_eflags flags e :: post) b) as Ht2.
  { apply tiles_split in Ht. by apply tiles_split. }
  split; [done|]. rewrite (flags_at_zip _ _ _ _ _ x Ht), (flags_at_zip _ _ _ _ _ x Ht2). simpl.
  repeat case_match; try done; lia.
Qed.

Section Modify.
Context (garbage : Z -> Z) (a b from finish flags f : Z) (old : Z -> option Z).
Hypothesis (Ha : 0 <= a) (Hb : b < 2 ^ 64) (Hlt : a <= from < finish) (Hend : finish < b) (Hfl : flags <> f).
Hypothesis (Hg : finish = from + 1 \/ forall x, garbage x <> finish).

(** The range is set up to [y]. *)
Definition set_upto (q : list amap_entry) (y : Z) : Prop :=
  forall x, flags_at q x = if (from <=? x) && (x <? y) then Some flags else old x.
Definition differs (y : Z) : Prop := exists x, from <= x < y /\ old x <> Some flags.

Definition modify_done (r : zipper * bool) : Prop :=
  let '(z, modified) := r in let '(_, e, _) := z in
  let q := queue_of_zipper z in
  tiles a q b /\ last_flags q = Some f /\ finish <= e_start e + n_elem e /\ set_upto q finish /\
  (modified = true <-> differs finish).

(** The state of the loop at an entry. *)
Definition modify_at (modified : bool) (pre : list amap_entry) (e : amap_entry) (post : list amap_entry) : Prop :=
  tiles a (pre ++ e :: post) b /\ last_flags (e :: post) = Some f /\
  e_start e < finish /\ from < e_start e + n_elem e /\ set_upto (pre ++ e :: post) (e_start e) /\
  (modified = true -> differs finish) /\ (differs (e_start e) -> modified = true).

Lemma old_here modified pre e post x :
  modify_at modified pre e post -> from <= x -> e_start e <= x < e_start e + n_elem e -> old x = Some (e_flags e).
Proof.
  intros (Ht & _ & _ & _ & Hs & _) Hx1 Hx2. specialize (Hs x). rewrite (flags_at_zip _ _ _ _ _ x Ht) in Hs.
  repeat case_match; try lia. congruence.
Qed.

(** From the label [next], with the entry set. *)
Lemma next_ok again modified e_finish pre e post s :
  tiles a (pre ++ e :: post) b -> last_flags (e :: post) = Some f -> e_flags e = flags -> e_start e < finish ->
  from < e_start e + n_elem e ->
  (forall x, flags_at (pre ++ e :: post) x = if (from <=? x) && (x <? Z.min finish (e_start e + n_elem e)) then Some flags else old x) ->
  (modified = true -> differs finish) -> (differs (Z.min finish (e_start e + n_elem e)) -> modified = true) ->
  (e_finish = finish -> finish <= e_start e + n_elem e) ->
  (forall e' post', post = e' :: post' -> modify_at modified (pre ++ [e]) e' post' ->
     wp (again (pre ++ [e]) e' post') s (fun r s' => s' = s /\ modify_done r)) ->
  wp (modify_next again e_finish finish modified pre e post) s (fun r s' => s' = s /\ modify_done r).
Proof.
  intros Ht Hl Ef Hs Hf Hq Hm1 Hm2 He Hagain. unfold modify_next. destruct (e_finish =? finish) eqn:E.
  - apply wp_ret. split; [done|]. simpl. assert (finish <= e_start e + n_elem e) as He' by (apply He; lia).
    rewrite Z.min_l in Hq, Hm2 by lia. rewrite last_zip. split_and!; try done.
  - destruct (last_post_ne e post f Hl) as (e' & post' & ->); [congruence|].
    pose proof Ht as Ht'. apply tiles_split in Ht' as (_ & _ & Ht'). simpl in Ht'. destruct Ht' as (Es & Hn & _).
    destruct (e_start e' <? finish) eqn:E2.
    + apply Hagain; [done|]. unfold modify_at. rewrite <-app_assoc. simpl. rewrite Es in *.
      rewrite Z.min_r in Hq, Hm2 by lia. split_and!; try done; lia.
    + apply wp_ret. split; [done|]. simpl. rewrite Z.min_l in Hq, Hm2 by lia.
      rewrite <-app_assoc. simpl. rewrite last_zip. split_and!; try done; lia.
Qed.

Lemma equal_next fuel modified pre e post s :
  modify_at modified pre e post -> e_flags e = flags ->
  (forall modified pre e post, modify_at modified pre e post -> from <= e_start e ->
     (length post + 2 <= fuel)%nat ->
     wp (modify_loop garbage fuel from finish flags modified pre e post) s (fun r s' => s' = s /\ modify_done r)) ->
  (length post + 1 <= fuel)%nat ->
  wp (modify_next (modify_loop garbage fuel from finish flags modified) (garbage (e_start e)) finish modified pre e post)
    s (fun r s' => s' = s /\ modify_done r).
Proof.
  intros Hm Ef IH Hfuel. destruct Hm as (Ht & Hl & Hs & Hf & Hq & Hm1 & Hm2).
  pose proof (tiles_bounds _ _ _ _ _ Ht).
  assert (forall x, from <= x -> e_start e <= x < e_start e + n_elem e -> old x = Some flags) as Hold'.
  { intros x Hx1 Hx2. rewrite <-Ef. eapply old_here; [by split_and!|done|done]. }
  apply next_ok; try done.
  - intros x. rewrite Hq. destruct (from <=? x) eqn:E1; [|done]. simpl.
    destruct (x <? e_start e) eqn:E2; case_match; try done; [lia|]. apply Hold'; lia.
  - intros (x & Hx & Hd). apply Hm2. exists x. split; [|done].
    destruct (Z.lt_ge_cases x (e_start e)); [lia|]. destruct Hd. apply Hold'; lia.
  - intros E. destruct Hg as [->|Hg']; [lia|]. by destruct (Hg' (e_start e)).
  - intros e' post' -> Hm'. apply IH; [done| |simpl in Hfuel; lia].
    destruct Hm' as (Ht' & _). rewrite <-app_assoc in Ht'. simpl in Ht'.
    apply tiles_split in Ht' as (_ & _ & Ht'). simpl in Ht'. lia.
Qed.

Lemma within_next again modified pre e post s :
  modify_at modified pre e post -> e_flags e <> flags -> from <= e_start e -> e_start e + n_elem e <= finish ->
  (forall e' post', post = e' :: post' -> modify_at true (pre ++ [set_eflags flags e]) e' post' ->
     wp (again (pre ++ [set_eflags flags e]) e' post') s (fun r s' => s' = s /\ modify_done r)) ->
  wp (modify_next again (e_start e + n_elem e) finish true pre (set_eflags flags e) post) s
    (fun r s' => s' = s /\ modify_done r).
Proof.
  intros Hm Ef Hfrom Hfin Hagain. pose proof (old_here _ _ _ _ (e_start e) Hm) as Hold.
  destruct Hm as (Ht & Hl & Hs & Hf & Hq & Hm1 & Hm2).
  pose proof (tiles_bounds _ _ _ _ _ Ht). destruct (set_at _ _ _ _ _ flags 0 Ht) as [Ht2 _].
  apply next_ok; try done.
  - apply (last_change e); [done|]. intros ->. apply tiles_split in Ht as (_ & _ & Ht). simpl in Ht. lia.
  - intros x. destruct (set_at _ _ _ _ _ flags x Ht) as [_ ->]. rewrite Hq. simpl. rewrite Z.min_r by lia.
    repeat case_match; try done; lia.
  - intros _. exists (e_start e). split; [lia|]. rewrite Hold by lia. congruence.
  - simpl. lia.
Qed.

Lemma modify_loop_ok fuel modified pre e post s :
  modify_at modified pre e post -> (length post + 2 + (if (e_start e <? from)%Z then 1 else 0) <= fuel)%nat ->
  wp (modify_loop garbage fuel from finish flags modified pre e post) s (fun r s' => s' = s /\ modify_done r).
Proof.
  revert modified pre e post. induction fuel as [|fuel IH]; intros modified pre e post Hm Hfuel; [lia|].
  assert (forall modified pre e post, modify_at modified pre e post -> from <= e_start e -> (length post + 2 <= fuel)%nat ->
     wp (modify_loop garbage fuel from finish flags modified pre e post) s (fun r s' => s' = s /\ modify_done r)) as IH'.
  { intros m0 p0 e0 q0 Hm0 Hs0 Hf0. apply IH; [done|]. rewrite (proj2 (Z.ltb_ge _ _) Hs0). lia. }
  cbn [modify_loop]. destruct (e_flags e =? flags) eqn:Ef; [apply equal_next; try done; [lia|case_match; lia]|].
  assert (e_flags e <> flags) as Hne by lia. pose proof Hm as (Ht & Hl & Hs & Hf & Hq & Hm1 & Hm2).
  pose proof (tiles_bounds _ _ _ _ _ Ht).
  unfold u64. rewrite (wrapU_id 64 (e_start e + n_elem e)) by lia.
  destruct ((from <=? e_start e) && (e_start e + n_elem e <=? finish)) eqn:Ew.
  { apply within_next with modified; try done; [lia|lia|]. intros e' post' -> Hm'. apply IH'; [done| |simpl in Hfuel; case_match; lia].
    destruct Hm' as (Ht' & _). rewrite <-app_assoc in Ht'. apply tiles_split in Ht' as (_ & _ & Ht'). simpl in Ht'. lia. }
  destruct (e_start e <? from) eqn:Eb.
  - unfold split, u64. rewrite (wrapU_id 64 (from - e_start e)) by lia.
    apply wp_bind, wp_bind, wp_assert; [lia|]. apply wp_bind, wp_assert; [lia|]. apply wp_ret. simpl.
    rewrite !wrapU_id by lia. replace (e_start e + (from - e_start e)) with from by lia.
    rewrite (proj2 (Z.ltb_lt _ _)) by lia.
    destruct (cut_at _ _ _ _ _ (from - e_start e) 0 Ht) as [Ht2 _]; [lia|].
    replace (e_start e + (from - e_start e)) with from in Ht2 by lia.
    apply IH'; [|simpl; lia|lia].
    unfold modify_at, new_entry. simpl. rewrite <-app_assoc. simpl. split_and!; try done; try lia.
    + by apply (last_change e).
    + intros x. destruct (cut_at _ _ _ _ _ (from - e_start e) x Ht) as [_ E]; [lia|].
      replace (e_start e + (from - e_start e)) with from in E by lia. rewrite E, Hq. repeat case_match; try done; lia.
    + intros _. exists from. split; [lia|]. rewrite (old_here _ _ _ _ from Hm) by lia. congruence.
  - apply wp_bind, wp_assert; [lia|]. unfold split, u64. rewrite (wrapU_id 64 (finish - e_start e)) by lia.
    apply wp_bind, wp_bind, wp_assert; [lia|]. apply wp_bind, wp_assert; [lia|]. apply wp_ret. simpl.
    rewrite !wrapU_id by lia. replace (e_start e + (finish - e_start e)) with finish by lia.
    rewrite (proj2 (Z.ltb_lt _ _)) by lia.
    destruct (cut_at _ _ _ _ _ (finish - e_start e) 0 Ht) as [Ht2 _]; [lia|].
    replace (e_start e + (finish - e_start e)) with finish in Ht2 by lia.
    destruct fuel as [|fuel]; [lia|]. cbn [modify_loop]. unfold u64. simpl. rewrite wrapU_id by lia.
    replace (e_start e + (finish - e_start e)) with finish by lia.
    rewrite (proj2 (Z.eqb_neq _ _) Hne), (proj2 (Z.leb_le _ _)), Z.leb_refl by lia. simpl.
    pose proof (within_next (modify_loop garbage fuel from finish flags true) true pre
      (mkEntry (e_start e) (finish - e_start e) (e_flags e)) (new_entry finish (n_elem e - (finish - e_start e)) (e_flags e) :: post) s) as Hw.
    simpl in Hw. replace (e_start e + (finish - e_start e)) with finish in Hw by lia. apply Hw; try done; [|lia|].
    + unfold modify_at. simpl. split_and!; try done; try lia.
      * apply (last_change e); [|done]. by destruct post.
      * intros x. destruct (cut_at _ _ _ _ _ (finish - e_start e) x Ht) as [_ E]; [lia|].
        replace (e_start e + (finish - e_start e)) with finish in E by lia. unfold new_entry. by rewrite E, Hq.
      * intros _. exists (e_start e). split; [lia|]. rewrite (old_here _ _ _ _ (e_start e) Hm) by lia. congruence.
    + intros e' post' [= <- <-] Hm'. destruct Hm' as (_ & _ & Hlt' & _). simpl in Hlt'. lia.
Qed.
End Modify.

(** A map whose last entry has the flags [f], and a range in front of its end that
    gets other flags. *)
Definition ends_with (f : Z) (m : amap) : Prop := amap_wf m /\ last_flags (am_queue m) = Some f.
Definition in_front (f : Z) (m : amap) (from n flags : Z) : Prop :=
  am_start m <= from /\ 0 < n /\ from + n < am_start m + am_n_elem m /\ flags <> f.

Lemma in_map f m from n flags : ends_with f m -> in_front f m from n flags -> out_of_map m from n = false.
Proof.
  intros Hm (H1 & H2 & H3 & _). pose proof (wf_start _ (proj1 Hm)). pose proof (wf_end _ (proj1 Hm)). unfold out_of_map, u64. rewrite !wrapU_id by lia. lia.
Qed.

Lemma find_ok f m from n flags :
  ends_with f m -> in_front f m from n flags ->
  exists pre e post, find from m = Ret (Some (pre, e, post)) m /\ pre ++ e :: post = am_queue m /\
    e_start e <= from < e_start e + n_elem e.
Proof.
  intros Hm (H1 & H2 & H3 & _). pose proof (wf_start _ (proj1 Hm)). pose proof (wf_end _ (proj1 Hm)). destruct Hm as [[Hs He Ht] Hl].
  destruct (find_loop_ok (am_start m) [] (am_queue m) (am_start m + am_n_elem m) from) as (pre & e & post & E & Eq & Hc); try done.
  - destruct (am_queue m) as [|e0 q]; [done|]. exists e0. split; [done|]. simpl in Ht. lia.
  - lia.
  - exists pre, e, post. split; [|done]. unfold find, gets, mbind, M_bind. by rewrite E.
Qed.

Lemma rejoin_ok f m from n flags :
  ends_with f m -> in_front f m from n flags ->
  (forall x, from <= x < from + n -> flags_at (am_queue m) x = Some flags) ->
  wp (rejoin_range from n) m (fun _ m' => ends_with f m' /\ am_start m' = am_start m /\ am_n_elem m' = am_n_elem m /\
    forall x, flags_at (am_queue m') x = flags_at (am_queue m) x).
Proof.
  intros Hm Hr Hf. pose proof (wf_start _ (proj1 Hm)). pose proof (wf_end _ (proj1 Hm)). unfold rejoin_range. apply wp_bind, wp_get.
  rewrite (in_map _ _ _ _ _ Hm Hr). destruct (find_ok _ _ _ _ _ Hm Hr) as (pre & e & post & E & Eq & Hc).
  apply wp_bind. exists (Some (pre, e, post)), m. split; [done|]. apply wp_bind.
  destruct Hr as (H1 & H2 & H3 & H4). destruct Hm as [[Hs He Ht] Hl]. rewrite <-Eq in Ht, Hl.
  unfold u64. rewrite wrapU_id by lia.
  eapply wp_mono; [apply (rejoin_loop_ok (am_start m) (am_start m + am_n_elem m) from (from + n) flags f) with (q0 := am_queue m)|];
    try done; try lia.
  - by rewrite last_zip in Hl.
  - intros x. by rewrite Eq.
  - intros q s' (-> & Ht' & Hl' & Hq'). apply wp_bind, wp_modify, wp_ret. split; [|done]. split; [by split|done].
Qed.

Lemma amap_check_modify_ok garbage f m from n flags :
  ends_with f m -> in_front f m from n flags ->
  n = 1 \/ (forall x, garbage x <> from + n) ->
  wp (amap_check_modify garbage from n flags) m (fun r m' =>
    ends_with f m' /\ am_start m' = am_start m /\ am_n_elem m' = am_n_elem m /\ r.1 = 0 /\
    (forall x, flags_at (am_queue m') x = if (from <=? x) && (x <? from + n) then Some flags else flags_at (am_queue m) x) /\
    (r.2 = true <-> exists x, from <= x < from + n /\ flags_at (am_queue m) x <> Some flags)).
Proof.
  intros Hm Hr Hg. pose proof (wf_start _ (proj1 Hm)). pose proof (wf_end _ (proj1 Hm)). unfold amap_check_modify. apply wp_bind, wp_get.
  rewrite (in_map _ _ _ _ _ Hm Hr). destruct (find_ok _ _ _ _ _ Hm Hr) as (pre & e & post & E & Eq & Hc).
  apply wp_bind. exists (Some (pre, e, post)), m. split; [done|]. apply wp_bind.
  pose proof Hr as (H1 & H2 & H3 & H4). pose proof Hm as [[Hs He Ht] Hl]. rewrite <-Eq in Ht, Hl. rewrite last_zip in Hl.
  unfold u64. rewrite wrapU_id by lia.
  eapply wp_mono; [apply (modify_loop_ok garbage (am_start m) (am_start m + am_n_elem m) from (from + n) flags f (flags_at (am_queue m)))|];
    try lia.
  - destruct Hg as [->|Hg]; auto.
  - unfold modify_at. split_and!; try done; try lia.
    + intros x. rewrite Eq. case_match; [lia|done].
    + intros (x & Hx & _). lia.
  - rewrite <-Eq, length_app. simpl. case_match; lia.
  - intros [[[pre1 e1] post1] modified] s' (-> & Ht1 & Hl1 & Hf1 & Hs1 & Hd). simpl in *.
    pose proof (tiles_bounds _ _ _ _ _ Ht1). apply wp_bind, wp_modify. apply wp_bind.
    rewrite wrapU_id by lia. rewrite (proj2 (Z.ltb_ge _ _)) by lia. apply wp_ret. apply wp_bind.
    eapply wp_mono; [apply (rejoin_ok f (set_queue (pre1 ++ e1 :: post1) m) from n flags)|].
    + split; [by split|done].
    + done.
    + intros x Hx. simpl. rewrite Hs1. case_match; [done|lia].
    + intros r m' (Hm' & Hst & Hn & Hq'). apply wp_ret. do 4 (split; [done|]). split; [|done].
      intros x. rewrite Hq'. apply Hs1.
Qed.

(** ** Visiting the ranges *)

(** The addresses that an iterator's function is called for. *)
Definition visited (calls : list (Z * Z * Z)) : list Z := '(from, n, _) ← calls; seqZ from n.

Lemma filter_same {A} (P Q : A -> Prop) `{!forall x, Decision (P x), !forall x, Decision (Q x)} (l : list A) :
  (forall x, x ∈ l -> P x <-> Q x) -> filter P l = filter Q l.
Proof.
  induction l as [|x l IH]; intros Hin; [done|]. rewrite !filter_cons, IH by (intros y Hy; apply Hin; by right).
  specialize (Hin x ltac:(by left)). repeat case_decide; naive_solver.
Qed.
Lemma filter_all {A} (P : A -> Prop) `{!forall x, Decision (P x)} (l : list A) : (forall x, x ∈ l -> P x) -> filter P l = l.
Proof.
  induction l as [|x l IH]; intros Hin; [done|]. rewrite filter_cons, decide_True, IH; [done| |].
  - intros y Hy. apply Hin. by right.
  - apply Hin. by left.
Qed.
Lemma filter_no_elem {A} (P : A -> Prop) `{!forall x, Decision (P x)} (l : list A) : (forall x, x ∈ l -> ~ P x) -> filter P l = [].
Proof.
  induction l as [|x l IH]; intros Hin; [done|]. rewrite filter_cons, decide_False; [apply IH|].
  - intros y Hy. apply Hin. by right.
  - apply Hin. by left.
Qed.

Lemma visited_flags flags q a b :
  tiles a q b ->
  visited (call_of <$> filter (fun ie => e_flags ie = flags) q)
  = filter (fun x => flags_at q x = Some flags) (seqZ a (b - a)).
Proof.
  revert a. induction q as [|e q IH]; intros a Ht.
  { simpl in Ht. subst b. by rewrite Z.sub_diag. }
  pose proof Ht as (<- & Hn & Ht'). pose proof (tiles_le _ _ _ Ht').
  replace (b - e_start e) with (n_elem e + (b - (e_start e + n_elem e))) by lia.
  rewrite seqZ_app, list.filter_app by lia.
  rewrite (filter_same _ (fun x => flags_at q x = Some flags) (seqZ (e_start e + n_elem e) _)).
  2: { intros x Hx%elem_of_seqZ. simpl. unfold covers. case_match; [lia|done]. }
  rewrite <-IH by done. rewrite filter_cons. case_decide as Ef.
  - rewrite fmap_cons. unfold visited. rewrite bind_cons. simpl. f_equal. symmetry. apply filter_all.
    intros x Hx%elem_of_seqZ. unfold covers. case_match; [congruence|lia].
  - rewrite (filter_no_elem _ (seqZ (e_start e) (n_elem e))); [done|]. intros x Hx%elem_of_seqZ. simpl. unfold covers. case_match; [naive_solver|lia].
Qed.

(** ** Claims *)

(** A sequence of modifications. *)
Definition amap_ops (garbage : Z -> Z) : list (Z * Z * Z) -> M amap unit :=
  for_each (fun '(from, n, flags) => amap_modify garbage from n flags;; mret tt).
(** The function they describe. *)
Fixpoint flags_after (ops : list (Z * Z * Z)) (f : Z -> Z) : Z -> Z :=
  match ops with
  | [] => f
  | (from, n, flags) :: ops =>
      flags_after ops (fun x => if (from <=? x) && (x <? from + n) then flags else f x)
  end.
Definition op_valid (garbage : Z -> Z) (start n flags0 : Z) (op : Z * Z * Z) : Prop :=
  let '(from, k, flags) := op in
  start <= from /\ 0 < k /\ from + k < start + n /\ flags <> flags0 /\ (k = 1 \/ forall x, garbage x <> from + k).

Lemma amap_ops_ok garbage start n flags0 ops m f :
  ends_with flags0 m -> am_start m = start -> am_n_elem m = n ->
  (forall x, start <= x < start + n -> flags_at (am_queue m) x = Some (f x)) ->
  Forall (op_valid garbage start n flags0) ops ->
  wp (amap_ops garbage ops) m (fun _ m' => ends_with flags0 m' /\ am_start m' = start /\ am_n_elem m' = n /\
    forall x, start <= x < start + n -> flags_at (am_queue m') x = Some (flags_after ops f x)).
Proof.
  revert m f. induction ops as [|[[from k] flags] ops IH]; intros m f Hm Hs Hn Hf Hops; simpl.
  { by apply wp_ret. }
  apply list.Forall_cons in Hops as [(H1 & H2 & H3 & H4 & H5) Hops].
  apply wp_bind, wp_bind, wp_bind. eapply wp_mono; [apply (amap_check_modify_ok garbage flags0 m from k flags)|]; [done| |done|].
  - unfold in_front. by rewrite Hs, Hn.
  - intros r m' (Hm' & Hs' & Hn' & _ & Hf' & _). apply wp_ret, wp_ret. apply IH; try congruence; try done.
    intros x Hx. rewrite Hf'. case_match; [done|]. by apply Hf.
Qed.


Definition ex_garbage : Z -> Z := fun _ => 0.
Definition ex_amap_ops : list (Z * Z * Z) := [(10, 1, 1); (5, 4, 1); (7, 9, 2); (10, 1, 2)].


(** A range inside an entry is refused, although it has the flags. *)
Lemma amap_check_inside : amap_check 10 5 0 (amap_init 0 40 0) = Ret EFBIG (amap_init 0 40 0).
Proof. reflexivity. Qed.

(** Flags that reach the last entry are a panic. *)
Lemma amap_modify_last :
  (amap_modify ex_garbage 10 1 1;; amap_modify ex_garbage 10 1 0) (amap_init 0 40 0) = Panic "amap - fall out of map bounds".
Proof. reflexivity. Qed.
