(* ===== verification/Pager.v ===== *)
(** * The disk of the persistent memory ([oldtree/kernel/phantom/pager.c], [pagelist.c], [fsck.c])

    The superblock, the list of free disk pages, lists of pages on disk, and the
    release of an old snapshot, in the configuration [PAGING_PARTITION] 1,
    [USE_SYNC_IO] 0.

    - The disk maps page numbers to typed blocks: a page of the object memory, whose
      bytes are read as one number (0 for zeros), a block list or a superblock.
      Reading a block at another type is a fault.
    - A request that the code waits for ([disk_page_io_save_sync], ...) is a read or
      write of the disk.  The mutex [pager_freelist_mutex] makes these functions
      sequential.
    - [free_reserve] is the stack of that array, the top first. *)

From S2P Require Import Prelude Amap.

(** ** Data *)

Definition DISK_STRUCT_MAGIC_FREEHEAD : Z := 0xC001FBFB.
Definition DISK_STRUCT_MAGIC_SNAP_LIST : Z := 0xC001C0C0.
Definition N_REF_PER_BLOCK : Z := 4096 / 4 - 16.
Definition free_reserve_size : nat := 32.
Definition sb_default_page_number : Z := 0x10.

(** Only the fields that the functions here use. *)
Record phantom_disk_superblock := mkSb {
  sb2_addr : Z; sb3_addr : Z; disk_start_page : Z; disk_page_count : Z;
  free_start : Z; free_list : Z; fs_is_clean : Z; last_snap : Z; prev_snap : Z }.
Definition set_free_start x sb := mkSb (sb2_addr sb) (sb3_addr sb) (disk_start_page sb) (disk_page_count sb)
  x (free_list sb) (fs_is_clean sb) (last_snap sb) (prev_snap sb).
Definition set_free_list x sb := mkSb (sb2_addr sb) (sb3_addr sb) (disk_start_page sb) (disk_page_count sb)
  (free_start sb) x (fs_is_clean sb) (last_snap sb) (prev_snap sb).
Definition set_clean x sb := mkSb (sb2_addr sb) (sb3_addr sb) (disk_start_page sb) (disk_page_count sb)
  (free_start sb) (free_list sb) x (last_snap sb) (prev_snap sb).
Definition set_snaps last prev sb := mkSb (sb2_addr sb) (sb3_addr sb) (disk_start_page sb) (disk_page_count sb)
  (free_start sb) (free_list sb) (fs_is_clean sb) last prev.

(** [struct phantom_disk_blocklist], with the fields of its head. *)
Record phantom_disk_blocklist := mkBl {
  bl_magic : Z; bl_used : Z; bl_next : Z; bl_reserved : Z; bl_list : Z -> Z }.
Definition set_used x b := mkBl (bl_magic b) x (bl_next b) (bl_reserved b) (bl_list b).
Definition set_next x b := mkBl (bl_magic b) (bl_used b) x (bl_reserved b) (bl_list b).
Definition set_ref i x b := mkBl (bl_magic b) (bl_used b) (bl_next b) (bl_reserved b) (fun j => if j =? i then x else bl_list b j).

Inductive block :=
  | BData (bytes : Z)
  | BList (b : phantom_disk_blocklist)
  | BSuper (sb : phantom_disk_superblock).

Record pager := mkPager {
  disk : gmap Z block;
  superblock : phantom_disk_superblock;
  freelist_head : phantom_disk_blocklist;
  freelist_inited : bool;
  free_reserve : list Z;
  need_fsck : bool }.
Definition set_disk x s := mkPager x (superblock s) (freelist_head s) (freelist_inited s) (free_reserve s) (need_fsck s).
Definition set_sb x s := mkPager (disk s) x (freelist_head s) (freelist_inited s) (free_reserve s) (need_fsck s).
Definition set_head x s := mkPager (disk s) (superblock s) x (freelist_inited s) (free_reserve s) (need_fsck s).
Definition set_inited x s := mkPager (disk s) (superblock s) (freelist_head s) x (free_reserve s) (need_fsck s).
Definition set_reserve x s := mkPager (disk s) (superblock s) (freelist_head s) (freelist_inited s) x (need_fsck s).

(** ** Disk access *)

Definition disk_write (p : Z) (b : block) : M pager unit := modify (fun s => set_disk (<[p := b]> (disk s)) s).
Definition read_list (p : Z) : M pager phantom_disk_blocklist :=
  d ← gets disk;
  match d !! p with Some (BList b) => mret b | _ => fault "not a block list" end.

Definition pager_update_superblock : M pager unit :=
  sb ← gets superblock;
  disk_write sb_default_page_number (BSuper sb);;
  bad ← gets need_fsck;
  if (bad : bool) then mret tt else
  disk_write (sb2_addr sb) (BSuper sb);;
  disk_write (sb3_addr sb) (BSuper sb).

(** ** Free pages *)

Definition pager_format_empty_free_list_block (fp : Z) : M pager unit :=
  sb ← gets superblock;
  let freelist := mkBl DISK_STRUCT_MAGIC_FREEHEAD 0 (free_list sb) 0 (fun _ => 0) in
  modify (set_head freelist);;
  disk_write fp (BList freelist).

Definition pager_flush_free_list : M pager unit :=
  sb ← gets superblock; head ← gets freelist_head; disk_write (free_list sb) (BList head).

Definition load_freelist_head : M pager unit :=
  sb ← gets superblock; b ← read_list (free_list sb); modify (set_head b).

Definition pager_put_to_free_list (free_page : Z) : M pager unit :=
  bad ← gets need_fsck;
  if (bad : bool) then mret tt else
  inited ← gets freelist_inited;
  sb ← gets superblock;
  if negb inited && (free_list sb =? 0) then
    pager_format_empty_free_list_block free_page;;
    modify (set_sb (set_free_list free_page sb));;
    load_freelist_head;;
    modify (set_inited true);;
    pager_update_superblock
  else
    (if negb inited then load_freelist_head;; modify (set_inited true) else mret tt);;
    list ← gets freelist_head;
    if N_REF_PER_BLOCK <=? bl_used list then
      disk_write (free_list sb) (BList list);;
      pager_format_empty_free_list_block free_page;;
      modify (set_sb (set_free_list free_page sb))
    else
      modify (set_head (set_used (bl_used list + 1) (set_ref (bl_used list) free_page list))).

Definition pager_init_free_list : M pager unit :=
  inited ← gets freelist_inited;
  if (inited : bool) then mret tt else
  bad ← gets need_fsck;
  if (bad : bool) then panic "disk is insane, can't init freelist..." else
  sb ← gets superblock;
  if free_list sb =? 0 then panic "superblock.free_list == 0, can't init freelist..." else
  load_freelist_head;;
  modify (set_inited true).

Definition push_reserve (p : Z) : M pager unit := modify (fun s => set_reserve (p :: free_reserve s) s).

(** The head of the list is insane. *)
Definition insane_head (list : phantom_disk_blocklist) : bool :=
  negb (bl_magic list =? DISK_STRUCT_MAGIC_FREEHEAD) || (N_REF_PER_BLOCK <? bl_used list) || negb (bl_reserved list =? 0).

(** [while( free_reserve_n < free_reserve_size )]: every time around fills a place. *)
Fixpoint refill_loop (n : nat) : M pager unit :=
  match n with
  | O => mret tt
  | S n' =>
      list ← gets freelist_head;
      if 0 <? bl_used list then
        push_reserve (bl_list list (bl_used list - 1));;
        modify (set_head (set_used (bl_used list - 1) list));;
        refill_loop n'
      else
        sb ← gets superblock;
        if (bl_next list =? 0) || (bl_next list =? free_list sb) then mret tt else
        push_reserve (free_list sb);;
        modify (set_sb (set_free_list (bl_next list) sb));;
        load_freelist_head;;
        list ← gets freelist_head;
        if insane_head list then modify (set_head (mkBl 0 0 0 (bl_reserved list) (bl_list list)))
        else pager_update_superblock;; refill_loop n'
  end.
Fixpoint refill_start (n : nat) : M pager unit :=
  match n with
  | O => mret tt
  | S n' =>
      sb ← gets superblock;
      if free_start sb <? disk_page_count sb then
        push_reserve (free_start sb);;
        modify (set_sb (set_free_start (free_start sb + 1) sb));;
        refill_start n'
      else mret tt
  end.
Definition pager_refill_free_reserve : M pager unit :=
  r ← gets free_reserve;
  refill_loop (free_reserve_size - length r);;
  r ← gets free_reserve;
  refill_start (free_reserve_size - length r).

Definition pager_refill_free : M pager unit := pager_init_free_list;; pager_refill_free_reserve.

(** The page, or [None] if the function returns 0. *)
Definition pop_reserve : M pager (option Z) :=
  r ← gets free_reserve;
  match r with
  | [] => mret None
  | p :: r' => modify (set_reserve r');; mret (Some p)
  end.
Definition pager_interrupt_alloc_page : M pager (option Z) :=
  inited ← gets freelist_inited; if negb inited then mret None else pop_reserve.
Definition pager_alloc_page : M pager (option Z) :=
  pager_init_free_list;; pager_refill_free_reserve;; pop_reserve.

Definition pager_free_page (page_no : Z) : M pager unit :=
  sb ← gets superblock;
  if page_no <? disk_start_page sb then panic "Free: freeing block below disk start" else
  if (negb (sb2_addr sb =? 0) && (page_no =? sb2_addr sb)) || (negb (sb3_addr sb =? 0) && (page_no =? sb3_addr sb))
  then panic "tried to free superblock" else
  pager_put_to_free_list page_no.

Definition pager_finish : M pager unit :=
  pager_flush_free_list;;
  modify (fun s => set_sb (set_clean 1 (superblock s)) s);;
  pager_update_superblock.

(** ** Lists of pages on disk *)

(** [disk_page_cache]: a block in memory. *)
Record disk_page_cache := mkCache { dc_page : Z; dc_data : phantom_disk_blocklist; dc_dirty : bool }.
(** The memory of a new one is not read before it is written. *)
Definition disk_page_cache_init : disk_page_cache := mkCache 0 (mkBl 0 0 0 0 (fun _ => 0)) false.
Definition disk_page_cache_modified (b : phantom_disk_blocklist) (c : disk_page_cache) : disk_page_cache :=
  mkCache (dc_page c) b true.
Definition disk_page_cache_flush (c : disk_page_cache) : M pager disk_page_cache :=
  if dc_dirty c then disk_write (dc_page c) (BList (dc_data c));; mret (mkCache (dc_page c) (dc_data c) false)
  else mret c.
Definition disk_page_cache_seek_sync (c : disk_page_cache) (dpage : Z) : M pager disk_page_cache :=
  c ← disk_page_cache_flush c; b ← read_list dpage; mret (mkCache dpage b (dc_dirty c)).
Definition disk_page_cache_seek_noread (c : disk_page_cache) (dpage : Z) : M pager disk_page_cache :=
  c ← disk_page_cache_flush c; mret (mkCache dpage (dc_data c) (dc_dirty c)).

Record pagelist := mkPl { pl_magic : Z; root_page : Z; curr_p : disk_page_cache; curr_displ : Z; pos : Z }.
Definition set_curr_p c l := mkPl (pl_magic l) (root_page l) c (curr_displ l) (pos l).
Definition set_pos x l := mkPl (pl_magic l) (root_page l) (curr_p l) (curr_displ l) x.
Definition curr (l : pagelist) : phantom_disk_blocklist := dc_data (curr_p l).

(** [pos] is not set by [pagelist_init]: the callers do it. *)
Definition pagelist_init (root : Z) (init : bool) (magic : Z) : M pager pagelist :=
  (if init then disk_write root (BList (mkBl magic 0 0 0 (fun _ => 0))) else mret tt);;
  c ← disk_page_cache_seek_sync disk_page_cache_init root;
  mret (mkPl magic root c 0 0).

Definition pagelist_flush (l : pagelist) : M pager pagelist := c ← disk_page_cache_flush (curr_p l); mret (set_curr_p c l).
Definition pagelist_finish (l : pagelist) : M pager unit := pagelist_flush l;; mret tt.
Definition pagelist_seek (l : pagelist) : M pager pagelist :=
  c ← disk_page_cache_seek_sync (curr_p l) (root_page l);
  mret (mkPl (pl_magic l) (root_page l) c 0 0).

(** The loop of [pagelist_clear]. *)
Fixpoint clear_loop (fuel : nat) (c : disk_page_cache) (curr_page : Z) : M pager disk_page_cache :=
  if curr_page =? 0 then mret c else
  match fuel with
  | O => diverge
  | S fuel' =>
      c ← disk_page_cache_seek_sync c curr_page;
      (if bl_next (dc_data c) =? 0 then mret tt else pager_free_page (bl_next (dc_data c)));;
      clear_loop fuel' c (bl_next (dc_data c))
  end.
Definition pagelist_clear (l : pagelist) : M pager pagelist :=
  l ← pagelist_flush l;
  n ← gets (fun s => size (disk s));
  c ← clear_loop n (curr_p l) (root_page l);
  c ← disk_page_cache_seek_sync c (root_page l);
  mret (mkPl (pl_magic l) (root_page l) (disk_page_cache_modified (set_used 0 (set_next 0 (dc_data c))) c) 0 0).

(** The page, or [None] at the end of the list. *)
Definition pagelist_read_seq (l : pagelist) : M pager (option Z * pagelist) :=
  let pagepos := u32 (pos l - curr_displ l) in
  if N_REF_PER_BLOCK <? pagepos then panic "pagelist_read_seq bad pos" else
  if (pagepos =? N_REF_PER_BLOCK) && (bl_next (curr l) =? 0) then mret (None, l) else
  '(l, pagepos) ← (if pagepos =? N_REF_PER_BLOCK then
      c ← disk_page_cache_seek_sync (curr_p l) (bl_next (curr l));
      mret (mkPl (pl_magic l) (root_page l) c (curr_displ l + N_REF_PER_BLOCK) (pos l), 0)
    else mret (l, pagepos));
  if bl_used (curr l) <=? pagepos then mret (None, l)
  else mret (Some (bl_list (curr l) pagepos), set_pos (pos l + 1) l).

(** The block for the next entry, when the current one is full. *)
Definition next_block (l : pagelist) : M pager pagelist :=
  c ← (if bl_next (curr l) =? 0 then
      p ← pager_alloc_page;
      match p with
      | None => panic "out of disk space in pagelist"
      | Some p =>
          c ← disk_page_cache_seek_noread (mkCache (dc_page (curr_p l)) (set_next p (curr l)) (dc_dirty (curr_p l))) p;
          mret (disk_page_cache_modified (mkBl (pl_magic l) 0 0 0 (bl_list (dc_data c))) c)
      end
    else disk_page_cache_seek_sync (curr_p l) (bl_next (curr l)));
  mret (mkPl (pl_magic l) (root_page l) c (curr_displ l + N_REF_PER_BLOCK) (pos l)).
Definition pagelist_write_seq (l : pagelist) (wr_data : Z) : M pager pagelist :=
  let pagepos := u32 (pos l - curr_displ l) in
  if N_REF_PER_BLOCK <? pagepos then panic "pagelist_write_seq bad pos" else
  '(l, pagepos) ← (if pagepos =? N_REF_PER_BLOCK then l ← next_block l; mret (l, 0) else mret (l, pagepos));
  let b := set_used (pagepos + 1) (set_ref pagepos wr_data (curr l)) in
  mret (mkPl (pl_magic l) (root_page l) (disk_page_cache_modified b (curr_p l)) (curr_displ l) (pos l + 1)).

(** A list is written as [do_snapshot] does it, and read as [vm_map_init] does. *)
Fixpoint write_all (l : pagelist) (ws : list Z) : M pager pagelist :=
  match ws with
  | [] => mret l
  | w :: ws => l ← pagelist_write_seq l w; write_all l ws
  end.
Definition pagelist_save (root : Z) (ws : list Z) : M pager unit :=
  l ← (l ← pagelist_init root true DISK_STRUCT_MAGIC_SNAP_LIST; pagelist_clear l);
  l ← write_all l ws;
  l ← pagelist_flush l; pagelist_finish l.
Fixpoint read_all (n : nat) (l : pagelist) : M pager (list Z) :=
  match n with
  | O => mret []
  | S n =>
      '(r, l) ← pagelist_read_seq l;
      match r with None => mret [] | Some x => xs ← read_all n l; mret (x :: xs) end
  end.
Definition pagelist_load (root : Z) (n : nat) : M pager (list Z) :=
  l ← pagelist_init root false DISK_STRUCT_MAGIC_SNAP_LIST;
  l ← pagelist_seek l;
  read_all n l.

(** ** Release of an old snapshot ([fsck.c]) *)

Definition MAP_FREE : Z := 0.
Definition MAP_USED : Z := 1.
Definition MAP_UNKNOWN : Z := 2.

Definition out_of_disk (sb : phantom_disk_superblock) (disk_block_num : Z) : bool :=
  if disk_block_num =? 0 then false else disk_page_count sb <? disk_block_num.

(** The entries of a block that [process_f] is called for, and whether there is one
    outside of the disk. *)
Fixpoint for_refs (sb : phantom_disk_superblock) (refs : list Z) : list Z * bool :=
  match refs with
  | [] => ([], false)
  | lbn :: refs =>
      if lbn =? 0 then for_refs sb refs
      else if out_of_disk sb lbn then ([], true)
      else let '(l, bad) := for_refs sb refs in (lbn :: l, bad)
  end.
Definition refs_of (b : phantom_disk_blocklist) : list Z := bl_list b <$> seqZ 0 (bl_used b).

(** The pages that [process_f] is called for, in order, and whether the list is
    insane. *)
Fixpoint fsck_forlist (fuel : nat) (next check_magic : Z) : M pager (list Z * bool) :=
  if next =? 0 then mret ([], false) else
  match fuel with
  | O => diverge
  | S fuel' =>
      sb ← gets superblock;
      if out_of_disk sb next then mret ([], true) else
      b ← read_list next;
      if negb (check_magic =? 0) && negb (bl_magic b =? check_magic) then mret ([next], true) else
      if N_REF_PER_BLOCK <? bl_used b then mret ([next], true) else
      let '(l, bad) := for_refs sb (refs_of b) in
      '(l', insane) ← fsck_forlist fuel' (bl_next b) check_magic;
      mret (next :: l ++ l', bad || insane)
  end.
Definition forlist (list_start : Z) : M pager (list Z) :=
  n ← gets (fun s => size (disk s)); r ← fsck_forlist n list_start 0; mret r.1.

(** Run operations of a map. *)
Definition on_map (m : M amap unit) (map : amap) : M pager amap := fun s =>
  match m map with
  | Ret _ map' => Ret map' s
  | Panic msg => Panic msg
  | Fault why => Fault why
  | Diverge => Diverge
  end.
Definition fsck_create_map : amap := amap_init 0 (2 ^ 64 - 1) MAP_UNKNOWN.
Definition mark_all (garbage : Z -> Z) (flags : Z) (pages : list Z) : M amap unit :=
  amap_ops garbage ((fun p => (p, 1, flags)) <$> pages).

Definition free_snap_worker (toFree flags : Z) : M pager unit :=
  if toFree =? 0 then mret tt else
  if negb (flags =? MAP_FREE) then mret tt else
  pager_free_page toFree.
(** [unsigned i] runs over the range; it never reaches 2^32. *)
Definition visit_all (call : Z * Z * Z) : M pager unit :=
  let '(from, n, flags) := call in
  if 2 ^ 32 <=? from + n then diverge else for_each (fun i => free_snap_worker i flags) (seqZ from n).

Definition phantom_free_snap (garbage : Z -> Z) (old_snap_start curr_snap_start new_snap_start : Z) : M pager unit :=
  if old_snap_start =? 0 then mret tt else
  old ← forlist old_snap_start; map ← on_map (mark_all garbage MAP_FREE old) fsck_create_map;
  cur ← forlist curr_snap_start; map ← on_map (mark_all garbage MAP_USED cur) map;
  new ← forlist new_snap_start; map ← on_map (mark_all garbage MAP_USED new) map;
  for_each visit_all (amap_iterate_flags MAP_FREE map);;
  pager_flush_free_list.
