(* ===== verification/PagerSpec.v ===== *)
(** * Free pages, page lists and the release of snapshots

    The free list hands out each free page once; what is written to a page list is
    read back; the release of an old snapshot frees exactly the pages that no other
    snapshot uses. *)

From S2P Require Import Prelude Amap Pager.

(** ** The free pages *)

(** Blocks on disk that follow each other from page [p] to page [e]. *)
Fixpoint seg (P : phantom_disk_blocklist -> Prop) (d : gmap Z block) (p : Z) (bs : list (Z * phantom_disk_blocklist)) (e : Z) : Prop :=
  match bs with
  | [] => p = e
  | (q, b) :: bs' => p = q /\ q <> 0 /\ d !! q = Some (BList b) /\ P b /\ seg P d (bl_next b) bs' e
  end.
(** The blocks behind the head of the free list. *)
Definition fl_sane (b : phantom_disk_blocklist) : Prop := insane_head b = false /\ 0 <= bl_used b.
Definition fl_chain (d : gmap Z block) (p : Z) (bs : list (Z * phantom_disk_blocklist)) : Prop := seg fl_sane d p bs 0.
Definition block_pages (qb : Z * phantom_disk_blocklist) : list Z := qb.1 :: refs_of qb.2.
Definition never_used (sb : phantom_disk_superblock) : list Z := seqZ (free_start sb) (disk_page_count sb - free_start sb).
(** All free pages; the first one is the block of the head, which is only handed out
    when another block becomes the head. *)
Definition all_free (s : pager) (bs : list (Z * phantom_disk_blocklist)) : list Z :=
  free_list (superblock s) :: free_reserve s ++ refs_of (freelist_head s) ++ (bs ≫= block_pages) ++ never_used (superblock s).

Definition sb_pages (sb : phantom_disk_superblock) : list Z := [sb_default_page_number; sb2_addr sb; sb3_addr sb].
Definition page_ok (sb : phantom_disk_superblock) (p : Z) : Prop :=
  0 < p /\ disk_start_page sb <= p < disk_page_count sb /\ p ∉ sb_pages sb.

Record pager_inv (s : pager) (bs : list (Z * phantom_disk_blocklist)) : Prop := {
  pi_inited : freelist_inited s = true;
  pi_sane : need_fsck s = false;
  pi_head : insane_head (freelist_head s) = false;
  pi_used : 0 <= bl_used (freelist_head s);
  pi_chain : fl_chain (disk s) (bl_next (freelist_head s)) bs;
  pi_nodup : NoDup (all_free s bs);
  pi_ok : Forall (page_ok (superblock s)) (all_free s bs);
}.

(** What [alloc] and [free] keep of the superblock. *)
Definition same_fixed (sb sb' : phantom_disk_superblock) : Prop :=
  sb2_addr sb' = sb2_addr sb /\ sb3_addr sb' = sb3_addr sb /\ disk_start_page sb' = disk_start_page sb /\
  disk_page_count sb' = disk_page_count sb /\ fs_is_clean sb' = fs_is_clean sb /\
  last_snap sb' = last_snap sb /\ prev_snap sb' = prev_snap sb.

(** Only the pages [changed] and superblocks were written. *)
Record pframe (changed : list Z) (s s' : pager) : Prop := {
  pf_disk : forall x, x ∉ changed -> x ∉ sb_pages (superblock s) -> disk s' !! x = disk s !! x;
  pf_sb : same_fixed (superblock s) (superblock s');
  pf_super : forall x, x ∉ changed -> x ∈ sb_pages (superblock s) ->
    disk s' !! x = disk s !! x \/ exists sb, disk s' !! x = Some (BSuper sb) /\ same_fixed (superblock s) sb;
}.

Lemma same_fixed_refl sb : same_fixed sb sb.
Proof. by repeat split. Qed.
Lemma same_fixed_trans sb1 sb2 sb3 : same_fixed sb1 sb2 -> same_fixed sb2 sb3 -> same_fixed sb1 sb3.
Proof. unfold same_fixed. intuition congruence. Qed.
Lemma same_fixed_pages sb sb' : same_fixed sb sb' -> sb_pages sb' = sb_pages sb.
Proof. intros (E1 & E2 & _). unfold sb_pages. by rewrite E1, E2. Qed.
Lemma page_ok_fixed sb sb' p : same_fixed sb sb' -> page_ok sb p -> page_ok sb' p.
Proof. intros H. pose proof (same_fixed_pages _ _ H) as E. destruct H as (_ & _ & E1 & E2 & _). unfold page_ok. by rewrite E, E1, E2. Qed.

Lemma pframe_refl l s : pframe l s s.
Proof. split; auto using same_fixed_refl. Qed.
Lemma pframe_trans l l1 l2 s s1 s2 : l1 ⊆ l -> l2 ⊆ l -> pframe l1 s s1 -> pframe l2 s1 s2 -> pframe l s s2.
Proof.
  intros H1 H2 [A1 B1 C1] [A2 B2 C2]. pose proof (same_fixed_pages _ _ B1) as E. rewrite E in A2, C2. split.
  - intros x Hx Hs. rewrite A2, A1; auto.
  - by eapply same_fixed_trans.
  - intros x Hx Hs. destruct (C2 x) as [->|(sb & E2 & Hf)]; auto. right. exists sb. split; [done|]. by eapply same_fixed_trans.
Qed.

(** ** Entries of a block *)

Lemma refs_push b x : 0 <= bl_used b -> refs_of (set_used (bl_used b + 1) (set_ref (bl_used b) x b)) = refs_of b ++ [x].
Proof.
  intros Hu. unfold refs_of. simpl. rewrite seqZ_app by lia. rewrite fmap_app. f_equal.
  - apply list_fmap_ext. intros i y Hy. apply lookup_seqZ in Hy as [-> ?]. case_match; [lia|done].
  - simpl. by rewrite Z.eqb_refl.
Qed.
Lemma refs_pop b : 0 < bl_used b -> refs_of b = refs_of (set_used (bl_used b - 1) b) ++ [bl_list b (bl_used b - 1)].
Proof.
  intros Hu. unfold refs_of. simpl. replace (bl_used b) with (bl_used b - 1 + 1) at 1 by lia.
  rewrite seqZ_app by lia. by rewrite fmap_app.
Qed.
Lemma refs_empty b : bl_used b = 0 -> refs_of b = [].
Proof. unfold refs_of. by intros ->. Qed.

Lemma seg_same P d d' p bs e : seg P d p bs e -> (forall q, q ∈ bs.*1 -> d' !! q = d !! q) -> seg P d' p bs e.
Proof.
  revert p. induction bs as [|[q b] bs IH]; intros p H Hd; [done|].
  destruct H as (-> & Hq & Hb & HP & Hc). simpl. rewrite Hd by (by left).
  split_and!; try done. apply IH; [done|]. intros q' Hq'. apply Hd. by right.
Qed.
Lemma seg_app P d p bs1 bs2 e : seg P d p (bs1 ++ bs2) e <-> exists m, seg P d p bs1 m /\ seg P d m bs2 e.
Proof.
  revert p. induction bs1 as [|[q b] bs1 IH]; intros p; simpl.
  - split; [by exists p|]. by intros (m & -> & H).
  - rewrite IH. naive_solver.
Qed.
Lemma chain_pages_tail s bs q : q ∈ bs.*1 -> q ∈ tail (all_free s bs).
Proof.
  intros ([q' b] & -> & Hb)%list_elem_of_fmap. simpl.
  rewrite !elem_of_app. right. right. left. apply list_elem_of_bind. exists (q', b). split; [by left|done].
Qed.
Lemma chain_pages_in s bs q : q ∈ bs.*1 -> q ∈ all_free s bs.
Proof. intros H. right. by apply (chain_pages_tail s bs). Qed.
Lemma chain_not_head s bs q : pager_inv s bs -> q ∈ bs.*1 -> q <> free_list (superblock s).
Proof. intros Hi Hq ->. pose proof (pi_nodup _ _ Hi) as [Hn _]%list.NoDup_cons. by apply Hn, (chain_pages_tail s bs). Qed.

(** ** Allocation *)

Lemma update_superblock_ok s bs :
  pager_inv s bs -> wp pager_update_superblock s (fun _ s' => (pframe [] s s' /\ pager_inv s' bs /\ all_free s' bs = all_free s bs) /\
    free_reserve s' = free_reserve s).
Proof.
  intros [I1 I2 I3 I4 I5 I6 I7]. unfold pager_update_superblock, disk_write.
  apply wp_bind, wp_gets. apply wp_bind, wp_modify. apply wp_bind, wp_gets. simpl. rewrite I2.
  apply wp_bind, wp_modify. apply wp_modify. simpl.
  assert (forall x, x ∉ sb_pages (superblock s) ->
    <[sb3_addr (superblock s) := BSuper (superblock s)]> (<[sb2_addr (superblock s) := BSuper (superblock s)]>
      (<[sb_default_page_number := BSuper (superblock s)]> (disk s))) !! x = disk s !! x) as Hd.
  { intros x Hx. unfold sb_pages in Hx. rewrite !not_elem_of_cons in Hx. rewrite !lookup_insert_ne by naive_solver. done. }
  split; [|done]. split; [split|split; [split|]]; simpl; try done.
  - intros x _ Hx. by apply Hd.
  - intros x _ Hx. right. exists (superblock s). split; [|apply same_fixed_refl].
    unfold sb_pages in Hx. rewrite !elem_of_cons in Hx.
    destruct (decide (x = sb3_addr (superblock s))) as [->|]; [by rewrite lookup_insert_eq|rewrite lookup_insert_ne by done].
    destruct (decide (x = sb2_addr (superblock s))) as [->|]; [by rewrite lookup_insert_eq|rewrite lookup_insert_ne by done].
    destruct Hx as [->|Hx]; [by rewrite lookup_insert_eq|]. destruct Hx as [?|[?|Hx]]; try done. by apply not_elem_of_nil in Hx.
  - eapply seg_same; [done|]. intros q Hq. apply Hd.
    apply (chain_pages_in s) in Hq. rewrite list.Forall_forall in I7. by apply I7 in Hq as (_ & _ & ?).
Qed.

(** The free pages stay, in another place. *)
Definition kept (s : pager) (bs : list (Z * phantom_disk_blocklist)) (s' : pager) : Prop :=
  exists bs', pager_inv s' bs' /\ all_free s' bs' ≡ₚ all_free s bs /\ pframe [] s s'.

Lemma inv_perm s bs s' bs' :
  pager_inv s bs -> freelist_inited s' = true -> need_fsck s' = false -> insane_head (freelist_head s') = false ->
  0 <= bl_used (freelist_head s') -> fl_chain (disk s') (bl_next (freelist_head s')) bs' ->
  all_free s' bs' ≡ₚ all_free s bs -> pframe [] s s' -> kept s bs s'.
Proof.
  intros [I1 I2 I3 I4 I5 I6 I7] J1 J2 J3 J4 J5 Hp Hf. exists bs'. split; [|done]. split; try done.
  - by rewrite Hp.
  - rewrite Hp. eapply list.Forall_impl; [done|]. intros p. apply page_ok_fixed, Hf.
Qed.

Lemma kept_trans s bs s1 s2 : kept s bs s1 -> (forall bs1, pager_inv s1 bs1 -> kept s1 bs1 s2) -> kept s bs s2.
Proof.
  intros (bs1 & I1 & P1 & F1) H. destruct (H bs1 I1) as (bs2 & I2 & P2 & F2). exists bs2. split; [done|].
  split; [by rewrite P2|]. by eapply pframe_trans; [..|done|done].
Qed.
Lemma wp_kept {A} (m : M pager A) s bs s1 Q :
  kept s bs s1 -> (forall bs1, pager_inv s1 bs1 -> wp m s1 (fun a s' => kept s1 bs1 s' /\ Q a s')) ->
  wp m s1 (fun a s' => kept s bs s' /\ Q a s').
Proof.
  intros Hk H. pose proof Hk as (bs1 & I1 & P1 & F1). eapply wp_mono; [by apply (H bs1)|]. intros a s' [Hk' HQ]. split; [|done].
  destruct Hk' as (bs2 & I2 & P2 & F2). exists bs2. split; [done|]. split; [by rewrite P2|]. by eapply pframe_trans; [..|done|done].
Qed.
Lemma kept_refl s bs : pager_inv s bs -> kept s bs s.
Proof. intros H. exists bs. split; [done|]. split; [done|]. apply pframe_refl. Qed.

Lemma take_entry s bs list :
  pager_inv s bs -> freelist_head s = list -> 0 < bl_used list ->
  kept s bs (set_head (set_used (bl_used list - 1) list) (set_reserve (bl_list list (bl_used list - 1) :: free_reserve s) s)).
Proof.
  intros Hi <- Hu. pose proof Hi as [I1 I2 I3 I4 I5 I6 I7]. apply (inv_perm s bs _ bs); try done; simpl; try lia.
  - unfold insane_head in *. simpl. lia.
  - unfold all_free. simpl. rewrite (refs_pop (freelist_head s)) by done. solve_Permutation.
  - split; simpl; [done|by repeat split|auto].
Qed.

Lemma take_head s bs list q b bs' :
  pager_inv s bs -> freelist_head s = list -> bl_used list = 0 -> bs = (q, b) :: bs' -> bl_next list = q ->
  kept s bs (set_head b (set_sb (set_free_list q (superblock s)) (set_reserve (free_list (superblock s) :: free_reserve s) s))).
Proof.
  intros Hi <- Hu -> <-. pose proof Hi as [I1 I2 I3 I4 (_ & Hq & Hb & [Hs Hu'] & Hc) I6 I7].
  apply (inv_perm s ((bl_next (freelist_head s), b) :: bs') _ bs'); try done; simpl.
  - unfold all_free. simpl. rewrite (refs_empty (freelist_head s)) by done. simpl. unfold block_pages. simpl.
    unfold never_used. simpl. solve_Permutation.
  - split; simpl; [done|by repeat split|auto].
Qed.

Lemma head_ok s bs : pager_inv s bs -> page_ok (superblock s) (free_list (superblock s)).
Proof. intros Hi. by pose proof (pi_ok _ _ Hi) as [? _]%list.Forall_cons. Qed.

Lemma head_next s bs : pager_inv s bs -> bl_next (freelist_head s) <> free_list (superblock s).
Proof.
  intros Hi E. pose proof (pi_chain _ _ Hi) as Hc. destruct bs as [|[q b] bs].
  - unfold fl_chain in Hc. simpl in Hc. destruct (head_ok _ _ Hi) as [? _]. lia.
  - destruct Hc as (Eq & _). apply (chain_not_head _ _ q Hi); [by left|congruence].
Qed.

Lemma refill_loop_ok n s bs :
  pager_inv s bs -> wp (refill_loop n) s (fun _ s' => kept s bs s' /\
    (free_reserve s' <> [] \/ s' = s /\ (n = O \/ bl_used (freelist_head s) <= 0 /\ bl_next (freelist_head s) = 0))).
Proof.
  revert s bs. induction n as [|n IH]; intros s bs Hi; simpl; [by apply wp_ret; split; [apply kept_refl|auto]|].
  apply wp_bind, wp_gets. destruct (0 <? bl_used (freelist_head s)) eqn:Eu.
  - apply wp_bind, wp_modify. apply wp_bind, wp_modify.
    eapply wp_kept; [by apply (take_entry s bs _ Hi eq_refl); lia|]. intros bs1 Hi1.
    eapply wp_mono; [by apply (IH _ bs1)|]. intros _ s' [Hk' H']. split; [done|]. left. by destruct H' as [|[-> _]].
  - apply wp_bind, wp_gets. pose proof (head_next s bs Hi) as Hn. rewrite (proj2 (Z.eqb_neq _ _) Hn), orb_false_r.
    destruct (bl_next (freelist_head s) =? 0) eqn:En; [apply wp_ret; split; [by apply kept_refl|right; split; [done|]; lia]|].
    pose proof Hi as [I1 I2 I3 I4 I5 I6 I7]. destruct bs as [|[q b] bs]; [unfold fl_chain in I5; simpl in I5; lia|].
    pose proof I5 as (Eq & Hq & Hb & [Hs Hu] & Hc).
    apply wp_bind, wp_modify. apply wp_bind, wp_modify. apply wp_bind. unfold load_freelist_head, read_list.
    apply wp_bind, wp_gets. apply wp_bind, wp_bind, wp_gets. simpl. rewrite Eq, Hb. apply wp_ret, wp_modify. simpl.
    apply wp_bind, wp_gets. simpl. rewrite Hs.
    eapply wp_kept; [by apply (take_head s _ _ q b bs Hi eq_refl ltac:(lia) eq_refl Eq)|]. intros bs1 Hi1. apply wp_bind.
    eapply wp_mono; [by apply (update_superblock_ok _ bs1)|]. intros _ s' [(Hf & Hi' & Ha) Hr0].
    assert (free_reserve s' <> []) as Hr by (by rewrite Hr0).
    eapply wp_kept; [|intros bs2 Hi2; eapply wp_mono; [by apply (IH _ bs2)|]]; [exists bs1; by rewrite Ha|].
    intros _ s2 [Hk' H']. split; [done|]. left. by destruct H' as [|[-> _]].
Qed.

Lemma take_start s bs :
  pager_inv s bs -> free_start (superblock s) < disk_page_count (superblock s) ->
  kept s bs (set_sb (set_free_start (free_start (superblock s) + 1) (superblock s))
    (set_reserve (free_start (superblock s) :: free_reserve s) s)).
Proof.
  intros Hi Hlt. pose proof Hi as [I1 I2 I3 I4 I5 I6 I7]. apply (inv_perm s bs _ bs); try done; simpl.
  - unfold all_free, never_used. simpl.
    replace (disk_page_count (superblock s) - free_start (superblock s))
      with (1 + (disk_page_count (superblock s) - (free_start (superblock s) + 1))) by lia.
    rewrite seqZ_app by lia. simpl. solve_Permutation.
  - split; simpl; [done|by repeat split|auto].
Qed.

Lemma refill_start_ok n s bs :
  pager_inv s bs -> wp (refill_start n) s (fun _ s' => kept s bs s' /\
    (free_reserve s' <> [] \/ s' = s /\ (n = O \/ disk_page_count (superblock s) <= free_start (superblock s)))).
Proof.
  revert s bs. induction n as [|n IH]; intros s bs Hi; simpl; [by apply wp_ret; split; [apply kept_refl|auto]|].
  apply wp_bind, wp_gets. destruct (free_start (superblock s) <? disk_page_count (superblock s)) eqn:E.
  - apply wp_bind, wp_modify. apply wp_bind, wp_modify.
    eapply wp_kept; [by apply (take_start s bs Hi); lia|]. intros bs1 Hi1.
    eapply wp_mono; [by apply (IH _ bs1)|]. intros _ s' [Hk' H']. split; [done|]. left. by destruct H' as [|[-> _]].
  - apply wp_ret. split; [by apply kept_refl|]. right. split; [done|]. lia.
Qed.

Lemma pager_init_ok s bs : pager_inv s bs -> pager_init_free_list s = Ret tt s.
Proof. intros Hi. unfold pager_init_free_list, mbind, M_bind, gets. by rewrite (pi_inited _ _ Hi). Qed.

Definition exhausted (s : pager) : Prop :=
  free_reserve s = [] /\ bl_used (freelist_head s) <= 0 /\ bl_next (freelist_head s) = 0 /\
  disk_page_count (superblock s) <= free_start (superblock s).

Lemma exhausted_free s bs : pager_inv s bs -> exhausted s -> all_free s bs = [free_list (superblock s)].
Proof.
  intros [I1 I2 I3 I4 I5 I6 I7] (Hr & Hu & Hn & Hs). assert (bs = []) as ->.
  { destruct bs as [|[q b] bs]; [done|]. destruct I5 as (E & ? & _). congruence. }
  unfold all_free, never_used. rewrite Hr, (refs_empty (freelist_head s)) by lia. simpl. by rewrite seqZ_nil by lia.
Qed.

Lemma refill_ok s bs :
  pager_inv s bs -> wp pager_refill_free_reserve s (fun _ s' => kept s bs s' /\ (free_reserve s' = [] -> exhausted s')).
Proof.
  intros Hi. unfold pager_refill_free_reserve. apply wp_bind, wp_gets, wp_bind.
  eapply wp_mono; [by apply (refill_loop_ok _ s bs)|]. intros _ s1 [Hk1 H1]. apply wp_bind, wp_gets.
  eapply wp_kept; [done|]. intros bs1 Hi1. eapply wp_mono; [by apply (refill_start_ok _ s1 bs1)|].
  intros _ s2 [Hk2 H2]. split; [done|]. intros Hr. destruct H2 as [|[-> H2]]; [done|]. rewrite Hr in H2. simpl in H2.
  destruct H1 as [|[-> H1]]; [done|]. rewrite Hr in H1. simpl in H1.
  destruct H1 as [|[Hu Hn]]; [lia|]. destruct H2 as [|H2]; [lia|]. done.
Qed.

(** A page is allocated: it was free, nothing else changes. *)
Lemma pager_alloc_ok s bs :
  pager_inv s bs ->
  wp pager_alloc_page s (fun r s' => exists bs', pager_inv s' bs' /\ pframe [] s s' /\
    match r with
    | Some p => all_free s bs ≡ₚ p :: all_free s' bs'
    | None => all_free s' bs' = [free_list (superblock s')] /\ all_free s bs ≡ₚ all_free s' bs'
    end).
Proof.
  intros Hi. unfold pager_alloc_page. apply wp_bind. exists tt, s. split; [by apply (pager_init_ok s bs)|].
  apply wp_bind. eapply wp_mono; [by apply (refill_ok s bs)|]. intros _ s1 [(bs1 & Hi1 & P1 & F1) H1].
  unfold pop_reserve. apply wp_bind, wp_gets. destruct (free_reserve s1) as [|p r] eqn:Er.
  - apply wp_ret. exists bs1. split; [done|]. split; [done|]. split; [|by rewrite P1]. by apply exhausted_free; auto.
  - apply wp_bind, wp_modify, wp_ret. exists bs1.
    assert (all_free s1 bs1 ≡ₚ p :: all_free (set_reserve r s1) bs1) as Hp.
    { unfold all_free. rewrite Er. simpl. solve_Permutation. }
    destruct Hi1 as [I1 I2 I3 I4 I5 I6 I7]. split; [|split].
    + split; try done; rewrite Hp in I6, I7; [by apply list.NoDup_cons in I6 as []|by apply list.Forall_cons in I7 as []].
    + destruct F1 as [A B C]. by split.
    + by rewrite <-P1.
Qed.

(** ** Release *)

Lemma put_full s bs p :
  pager_inv s bs -> page_ok (superblock s) p -> p ∉ all_free s bs ->
  let b := mkBl DISK_STRUCT_MAGIC_FREEHEAD 0 (free_list (superblock s)) 0 (fun _ => 0) in
  let s' := set_sb (set_free_list p (superblock s)) (set_head b
    (set_disk (<[p := BList b]> (<[free_list (superblock s) := BList (freelist_head s)]> (disk s))) s)) in
  let bs' := (free_list (superblock s), freelist_head s) :: bs in
  pager_inv s' bs' /\ all_free s' bs' ≡ₚ p :: all_free s bs.
Proof.
  intros Hi Hok Hp b s' bs'. pose proof Hi as [I1 I2 I3 I4 I5 I6 I7].
  assert (all_free s' bs' ≡ₚ p :: all_free s bs) as HP.
  { unfold all_free, s', bs'. simpl. unfold block_pages, never_used. simpl. solve_Permutation. }
  assert (p <> free_list (superblock s)) as Hne by (intros ->; apply Hp; by left).
  split; [|done]. split; try done; simpl.
  - split_and!; try done.
    + destruct (head_ok _ _ Hi) as [? _]. lia.
    + by rewrite lookup_insert_ne, lookup_insert_eq by done.
    + eapply seg_same; [done|]. intros q Hq. rewrite !lookup_insert_ne; [done| |].
      * intros <-. by apply (chain_not_head s bs _ Hi Hq).
      * intros ->. apply Hp. by apply chain_pages_in.
  - rewrite HP. by apply NoDup_cons_2.
  - rewrite HP. by apply list.Forall_cons_2.
Qed.

(** A page is released: it becomes free. *)
Lemma pager_free_ok s bs p :
  pager_inv s bs -> page_ok (superblock s) p -> p ∉ all_free s bs ->
  wp (pager_free_page p) s (fun _ s' => exists bs', pager_inv s' bs' /\
    pframe [p; free_list (superblock s)] s s' /\ all_free s' bs' ≡ₚ p :: all_free s bs).
Proof.
  intros Hi Hok Hp. pose proof Hok as (H0 & [H1 H2] & H3). unfold sb_pages in H3. rewrite !not_elem_of_cons in H3.
  unfold pager_free_page. apply wp_bind, wp_gets. rewrite (proj2 (Z.ltb_ge _ _) H1).
  rewrite (proj2 (Z.eqb_neq p (sb2_addr _))), (proj2 (Z.eqb_neq p (sb3_addr _))) by naive_solver. rewrite !andb_false_r.
  pose proof Hi as [I1 I2 I3 I4 I5 I6 I7]. unfold pager_put_to_free_list. apply wp_bind, wp_gets. rewrite I2.
  apply wp_bind, wp_gets. rewrite I1. apply wp_bind, wp_gets. simpl. apply wp_bind, wp_ret. apply wp_bind, wp_gets.
  destruct (N_REF_PER_BLOCK <=? bl_used (freelist_head s)) eqn:Eu.
  - unfold disk_write, pager_format_empty_free_list_block. apply wp_bind, wp_modify. apply wp_bind, wp_bind, wp_gets.
    apply wp_bind, wp_modify. apply wp_modify, wp_modify. simpl.
    destruct (put_full s bs p Hi Hok Hp) as [Hi' HP]. eexists. split; [exact Hi'|]. split; [|exact HP].
    split; simpl; [|by repeat split|].
    + intros x [Hx1 [Hx2 _]%not_elem_of_cons]%not_elem_of_cons _. by rewrite !lookup_insert_ne by done.
    + intros x [Hx1 [Hx2 _]%not_elem_of_cons]%not_elem_of_cons _. left. by rewrite !lookup_insert_ne by done.
  - apply wp_modify. exists bs.
    assert (all_free (set_head (set_used (bl_used (freelist_head s) + 1) (set_ref (bl_used (freelist_head s)) p (freelist_head s))) s) bs
      ≡ₚ p :: all_free s bs) as HP.
    { unfold all_free. simpl. rewrite refs_push by done. solve_Permutation. }
    split; [|split; [|exact HP]].
    + split; try done; simpl; [|lia|rewrite HP; by apply NoDup_cons_2|rewrite HP; by apply list.Forall_cons_2].
      unfold insane_head in *. simpl. lia.
    + split; simpl; [done|by repeat split|auto].
Qed.

(** ** Page lists *)

(** Blocks of a snapshot list. *)
Definition pl_sane (b : phantom_disk_blocklist) : Prop := 0 <= bl_used b <= N_REF_PER_BLOCK /\ bl_magic b = DISK_STRUCT_MAGIC_SNAP_LIST.
Definition pl_full (b : phantom_disk_blocklist) : Prop := bl_used b = N_REF_PER_BLOCK /\ bl_magic b = DISK_STRUCT_MAGIC_SNAP_LIST.
Definition entries (bs : list (Z * phantom_disk_blocklist)) : list Z := bs ≫= (fun qb => refs_of qb.2).

(** A list on disk: all blocks but the last are full. *)
Fixpoint plist (d : gmap Z block) (p : Z) (bs : list (Z * phantom_disk_blocklist)) : Prop :=
  match bs with
  | [] => False
  | (q, b) :: bs' =>
      p = q /\ q <> 0 /\ d !! q = Some (BList b) /\
      match bs' with
      | [] => pl_sane b /\ bl_next b = 0
      | _ => pl_full b /\ plist d (bl_next b) bs'
      end
  end.

(** A list that is being written: the blocks [cs] are on disk, the current one is in
    memory. *)
Record writing (d : gmap Z block) (l : pagelist) (cs : list (Z * phantom_disk_blocklist)) (ws : list Z) : Prop := {
  wr_seg : seg pl_full d (root_page l) cs (dc_page (curr_p l));
  wr_page : dc_page (curr_p l) <> 0;
  wr_dirty : dc_dirty (curr_p l) = true;
  wr_next : bl_next (curr l) = 0;
  wr_used : pl_sane (curr l);
  wr_pos : pos l = curr_displ l + bl_used (curr l);
  wr_entries : entries cs ++ refs_of (curr l) = ws;
  wr_magic : pl_magic l = DISK_STRUCT_MAGIC_SNAP_LIST;
}.
(** The pages of such a list. *)
Definition own_pages (l : pagelist) (cs : list (Z * phantom_disk_blocklist)) : list Z := cs.*1 ++ [dc_page (curr_p l)].

Lemma N_REF_value : N_REF_PER_BLOCK = 1008.
Proof. reflexivity. Qed.

Lemma refs_push_at b x n : n = bl_used b -> 0 <= n -> refs_of (set_used (n + 1) (set_ref n x b)) = refs_of b ++ [x].
Proof. intros ->. apply refs_push. Qed.

Lemma entries_app bs1 bs2 : entries (bs1 ++ bs2) = entries bs1 ++ entries bs2.
Proof. unfold entries. apply bind_app. Qed.

(** The end of [pagelist_write_seq]: there is room in the block. *)
Lemma write_here d l cs ws x :
  writing d l cs ws -> bl_used (curr l) < N_REF_PER_BLOCK ->
  let n := bl_used (curr l) in
  let b := set_used (n + 1) (set_ref n x (curr l)) in
  let l' := mkPl (pl_magic l) (root_page l) (disk_page_cache_modified b (curr_p l)) (curr_displ l) (pos l + 1) in
  writing d l' cs (ws ++ [x]) /\ own_pages l' cs = own_pages l cs.
Proof.
  intros [W1 W2 W3 W4 W5 W6 W7 W8] Hn n b l'. unfold pl_sane in *. split; [|done]. split; try done; unfold l', curr; simpl.
  - unfold pl_sane, b. simpl. lia.
  - unfold b, n, curr in *. simpl. lia.
  - unfold b. rewrite refs_push_at by (unfold n; lia). by rewrite app_assoc, W7.
Qed.

Lemma pagepos_ok d l cs ws : writing d l cs ws -> u32 (pos l - curr_displ l) = bl_used (curr l).
Proof.
  intros [W1 W2 W3 W4 W5 W6 W7 W8]. rewrite W6. unfold pl_sane in W5. rewrite N_REF_value in W5.
  rewrite u32_id; lia.
Qed.

Definition out_of_disk_space (msg : string) : Prop := msg = "out of disk space in pagelist".

(** A page that is not free is written. *)
Lemma inv_write s bs x b : pager_inv s bs -> x ∉ all_free s bs -> pager_inv (set_disk (<[x := b]> (disk s)) s) bs.
Proof.
  intros [I1 I2 I3 I4 I5 I6 I7] Hx. split; try done. simpl. eapply seg_same; [done|].
  intros q Hq. apply lookup_insert_ne. intros ->. by apply Hx, chain_pages_in.
Qed.
Lemma write_frame s x b : pframe [x] s (set_disk (<[x := b]> (disk s)) s).
Proof.
  split; simpl; [|apply same_fixed_refl|]; intros y [Hy _]%not_elem_of_cons; rewrite lookup_insert_ne by done; auto.
Qed.

Lemma next_block_ok s bs l cs ws :
  pager_inv s bs -> writing (disk s) l cs ws -> bl_used (curr l) = N_REF_PER_BLOCK ->
  NoDup (own_pages l cs) -> (forall q, q ∈ own_pages l cs -> q ∉ all_free s bs /\ q ∉ sb_pages (superblock s)) ->
  wpe out_of_disk_space (next_block l) s (fun l' s' => exists bs' p,
    pager_inv s' bs' /\ writing (disk s') l' (cs ++ [(dc_page (curr_p l), set_next p (curr l))]) ws /\
    root_page l' = root_page l /\ bl_used (curr l') = 0 /\ dc_page (curr_p l') = p /\
    all_free s bs ≡ₚ p :: all_free s' bs' /\ pframe [dc_page (curr_p l)] s s').
Proof.
  intros Hi HW Hfull Hnd Hown. pose proof HW as [W1 W2 W3 W4 W5 W6 W7 W8]. unfold next_block. rewrite W4. simpl.
  apply wpe_bind, wpe_bind. eapply wpe_mono; [apply wp_wpe, (pager_alloc_ok s bs Hi)|].
  intros [p|] s1 (bs1 & Hi1 & F1 & P1); [|by apply wpe_panic].
  apply wp_wpe, wp_bind. unfold disk_page_cache_seek_noread, disk_page_cache_flush. simpl. rewrite W3.
  apply wp_bind, wp_bind. unfold disk_write. apply wp_modify, wp_ret, wp_ret, wp_ret, wpe_ret. simpl.
  destruct (Hown (dc_page (curr_p l))) as [Hf Hsb]; [apply elem_of_app; right; by left|].
  assert (dc_page (curr_p l) ∉ all_free s1 bs1 /\ dc_page (curr_p l) <> p) as [Hf1 Hp].
  { rewrite P1 in Hf. by apply not_elem_of_cons in Hf as [? ?]. }
  exists bs1, p. split_and!; try done.
  - by apply inv_write.
  - split; simpl; try done.
    + apply seg_app. exists (dc_page (curr_p l)). split.
      * eapply seg_same; [done|]. intros q Hq. destruct (Hown q) as [Hqf Hqs]; [apply elem_of_app; by left|].
        rewrite lookup_insert_ne; [by apply F1; [apply not_elem_of_nil|]|].
        intros <-. apply list.NoDup_app in Hnd as (_ & Hnd & _). apply (Hnd _ Hq). by left.
      * simpl. rewrite lookup_insert_eq. split_and!; try done. split; [done|apply W5].
    + pose proof (pi_ok _ _ Hi) as Hok. rewrite P1 in Hok. apply list.Forall_cons in Hok as [[? _] _]. lia.
    + unfold curr, disk_page_cache_modified in *. simpl. rewrite W6. lia.
    + rewrite entries_app. unfold entries at 2, curr at 2, refs_of at 2. simpl. rewrite !app_nil_r. done.
  - eapply (pframe_trans _ [] [dc_page (curr_p l)]); [set_solver|done|exact F1|apply write_frame].
Qed.

(** An entry is written. *)
Lemma pagelist_write_ok s bs l cs ws x :
  pager_inv s bs -> writing (disk s) l cs ws -> NoDup (own_pages l cs) ->
  (forall q, q ∈ own_pages l cs -> q ∉ all_free s bs /\ q ∉ sb_pages (superblock s)) ->
  wpe out_of_disk_space (pagelist_write_seq l x) s (fun l' s' => exists bs' cs' new,
    pager_inv s' bs' /\ writing (disk s') l' cs' (ws ++ [x]) /\ root_page l' = root_page l /\
    own_pages l' cs' = own_pages l cs ++ new /\ all_free s bs ≡ₚ new ++ all_free s' bs' /\
    pframe (own_pages l cs) s s').
Proof.
  intros Hi HW Hnd Hown. unfold pagelist_write_seq. rewrite (pagepos_ok _ _ _ _ HW).
  pose proof (wr_used _ _ _ _ HW) as Hu. unfold pl_sane in Hu. rewrite (proj2 (Z.ltb_ge _ _)) by lia.
  destruct (bl_used (curr l) =? N_REF_PER_BLOCK) eqn:E.
  - apply wpe_bind, wpe_bind. eapply wpe_mono; [apply (next_block_ok s bs l cs ws); try done; lia|].
    intros l' s' (bs' & p & Hi' & HW' & Hr & Hu' & Hp & HP & HF). apply wpe_ret, wpe_ret.
    pose proof (write_here _ _ _ _ x HW') as Hw. rewrite Hu' in Hw. destruct Hw as [Hw Ho]; [rewrite N_REF_value; lia|].
    exists bs', (cs ++ [(dc_page (curr_p l), set_next p (curr l))]), [p]. split_and!; try done.
    + rewrite Ho. unfold own_pages. rewrite fmap_app, Hp. by simpl.
    + eapply (pframe_trans _ _ []); [|set_solver|exact HF|apply pframe_refl].
      intros y Hy. apply elem_of_app. by right.
  - apply wpe_bind, wpe_ret, wpe_ret. destruct (write_here _ _ _ _ x HW) as [Hw Ho]; [lia|].
    exists bs, cs, []. split_and!; try done.
    + by rewrite Ho, app_nil_r.
    + apply pframe_refl.
Qed.

Lemma plist_end d p cs q b :
  seg pl_full d p cs q -> q <> 0 -> d !! q = Some (BList b) -> pl_sane b -> bl_next b = 0 -> plist d p (cs ++ [(q, b)]).
Proof.
  revert p. induction cs as [|[q' b'] cs IH]; intros p Hs Hq Hb Hn E.
  - simpl in Hs. by subst p.
  - destruct Hs as (-> & Hq' & Hb' & Hf & Hs). specialize (IH _ Hs Hq Hb Hn E). simpl.
    split_and!; try done. destruct (cs ++ [(q, b)]) eqn:Ec; [by destruct cs|]. done.
Qed.

Lemma plist_same d d' p bs : plist d p bs -> (forall q, q ∈ bs.*1 -> d' !! q = d !! q) -> plist d' p bs.
Proof.
  revert p. induction bs as [|[q b] bs IH]; intros p H Hd; [done|].
  destruct H as (-> & Hq & Hb & H). simpl. rewrite Hd by (by left). split_and!; try done.
  destruct bs as [|qb bs]; [done|]. destruct H as [Hf H]. split; [done|]. apply IH; [done|].
  intros q' Hq'. apply Hd. by right.
Qed.

(** A new list is empty. *)
Lemma pagelist_start s bs root :
  pager_inv s bs -> root <> 0 -> root ∉ all_free s bs ->
  wp (l ← pagelist_init root true DISK_STRUCT_MAGIC_SNAP_LIST; pagelist_clear l) s (fun l s' =>
    pager_inv s' bs /\ all_free s' bs = all_free s bs /\ writing (disk s') l [] [] /\ root_page l = root /\
    own_pages l [] = [root] /\ pframe [root] s s').
Proof.
  intros Hi Hr Hf. unfold pagelist_init, disk_page_cache_seek_sync, disk_page_cache_flush, read_list, disk_write. simpl.
  set (b := mkBl DISK_STRUCT_MAGIC_SNAP_LIST 0 0 0 (fun _ => 0)). set (s1 := set_disk (<[root := BList b]> (disk s)) s).
  assert (disk s1 !! root = Some (BList b)) as Hb by (by apply lookup_insert_eq).
  apply wp_bind, wp_bind, wp_modify. apply wp_bind, wp_bind, wp_ret, wp_bind, wp_bind, wp_gets. fold s1. rewrite Hb.
  apply wp_ret, wp_ret, wp_ret. unfold pagelist_clear, pagelist_flush, disk_page_cache_flush. simpl.
  apply wp_bind, wp_bind, wp_ret, wp_ret. apply wp_bind, wp_gets. apply wp_bind.
  assert (exists n, size (disk s1) = S n) as [n ->].
  { exists (pred (size (disk s1))). pose proof (map_size_non_empty_iff (disk s1)) as Hne.
    destruct Hne as [_ Hne]. destruct (size (disk s1)); [|done]. destruct Hne; [|done]. intros E. by rewrite E in Hb. }
  unfold set_curr_p. cbn [clear_loop root_page curr_p pl_magic]. rewrite (proj2 (Z.eqb_neq _ _) Hr). unfold disk_page_cache_seek_sync, disk_page_cache_flush, read_list. simpl.
  apply wp_bind, wp_bind, wp_ret, wp_bind, wp_bind, wp_gets. rewrite Hb. apply wp_ret, wp_ret. apply wp_bind, wp_ret. simpl.
  replace (clear_loop n (mkCache root b false) 0) with (mret (mkCache root b false) : M pager disk_page_cache) by (by destruct n).
  apply wp_ret. apply wp_bind, wp_bind, wp_ret, wp_bind, wp_bind, wp_gets. rewrite Hb. apply wp_ret, wp_ret, wp_ret.
  split_and!; try done.
  - by apply inv_write.
  - apply write_frame.
Qed.

(** The end: the last block is written. *)
Lemma pagelist_finish_ok s bs l cs ws :
  pager_inv s bs -> writing (disk s) l cs ws -> NoDup (own_pages l cs) ->
  (forall q, q ∈ own_pages l cs -> q ∉ all_free s bs) ->
  wp (l ← pagelist_flush l; pagelist_finish l) s (fun _ s' =>
    pager_inv s' bs /\ all_free s' bs = all_free s bs /\ pframe (own_pages l cs) s s' /\
    exists bl, plist (disk s') (root_page l) bl /\ entries bl = ws /\ bl.*1 = own_pages l cs).
Proof.
  intros Hi [W1 W2 W3 W4 W5 W6 W7 W8] Hnd Hown. unfold pagelist_flush, pagelist_finish, disk_page_cache_flush, disk_write.
  rewrite W3. apply wp_bind, wp_bind, wp_bind, wp_modify, wp_ret, wp_ret. simpl. unfold pagelist_flush, disk_page_cache_flush. simpl.
  apply wp_bind, wp_bind, wp_ret, wp_ret, wp_ret.
  assert (dc_page (curr_p l) ∈ own_pages l cs) as Hin by (apply elem_of_app; right; by left).
  split_and!; try done.
  - by apply inv_write; auto.
  - eapply (pframe_trans _ _ []); [|set_solver|apply write_frame|apply pframe_refl]. set_solver.
  - exists (cs ++ [(dc_page (curr_p l), curr l)]). split_and!.
    + apply plist_end; try done; [|by apply lookup_insert_eq]. eapply seg_same; [done|]. intros q Hq. apply lookup_insert_ne.
      intros <-. apply list.NoDup_app in Hnd as (_ & Hnd & _). apply (Hnd _ Hq). by left.
    + rewrite entries_app. unfold entries at 2. simpl. by rewrite app_nil_r.
    + unfold own_pages. by rewrite fmap_app.
Qed.

(** A list that is being read: [rs] is still to come. *)
Definition reading (d : gmap Z block) (l : pagelist) (rs : list Z) : Prop :=
  exists k q b bs, curr_p l = mkCache q b false /\ pos l - curr_displ l = k /\ 0 <= k <= bl_used b /\ pl_sane b /\
    rs = drop (Z.to_nat k) (refs_of b) ++ entries bs /\
    match bs with
    | [] => bl_next b = 0
    | _ => pl_full b /\ plist d (bl_next b) bs
    end.

Lemma plist_reading d p q b bs m root displ pos :
  plist d p ((q, b) :: bs) -> pos = displ -> reading d (mkPl m root (mkCache q b false) displ pos) (entries ((q, b) :: bs)).
Proof.
  intros (-> & Hq & Hb & H) ->. exists 0, q, b, bs. simpl. split_and!; try done; try lia.
  - destruct bs; [apply H|]. destruct H as [[H _] _]. rewrite H, N_REF_value. lia.
  - destruct bs; [apply H|]. destruct H as [[H Hm] _]. unfold pl_sane. rewrite H, N_REF_value. lia.
  - by destruct bs as [|? ?]; [apply H|].
Qed.

Lemma refs_lookup b k : 0 <= k < bl_used b -> drop (Z.to_nat k) (refs_of b) = bl_list b k :: drop (Z.to_nat (k + 1)) (refs_of b).
Proof.
  intros Hk. replace (Z.to_nat (k + 1)) with (S (Z.to_nat k)) by lia. apply drop_S. unfold refs_of.
  rewrite list_lookup_fmap, (lookup_seqZ_lt _ _ (Z.to_nat k)) by lia. simpl. by rewrite Z2Nat.id by lia.
Qed.

Lemma refs_length b : 0 <= bl_used b -> length (refs_of b) = Z.to_nat (bl_used b).
Proof. intros. unfold refs_of. by rewrite length_fmap, length_seqZ. Qed.

(** An entry is read, or the list is at its end. *)
Lemma pagelist_read_ok s l rs :
  reading (disk s) l rs ->
  wp (pagelist_read_seq l) s (fun r s' => s' = s /\
    match rs with
    | [] => r.1 = None
    | x :: rs' => r.1 = Some x /\ reading (disk s) r.2 rs'
    end).
Proof.
  intros (k & q & b & bs & Hc & Hk & Hku & Hs & -> & Hbs). unfold pagelist_read_seq, curr. rewrite Hc. simpl.
  pose proof Hs as Hs'. unfold pl_sane in Hs'. rewrite N_REF_value in *. rewrite u32_id by lia. rewrite Hk.
  rewrite (proj2 (Z.ltb_ge _ _)) by lia.
  destruct (decide (k < bl_used b)) as [Hlt|Hge].
  - rewrite (proj2 (Z.eqb_neq k 1008)) by lia. simpl. apply wp_bind, wp_ret. rewrite Hc. simpl.
    rewrite (proj2 (Z.leb_gt _ _)) by lia. apply wp_ret. split; [done|].
    rewrite refs_lookup by lia. simpl. split; [done|]. exists (k + 1), q, b, bs. split_and!; try done; simpl; lia.
  - assert (k = bl_used b) as -> by lia. rewrite drop_ge by (rewrite refs_length; lia). simpl.
    destruct bs as [|[q' b'] bs].
    + rewrite Hbs. destruct (bl_used b =? 1008) eqn:E; simpl; [by apply wp_ret|].
      apply wp_bind, wp_ret. rewrite Hc. simpl. rewrite Z.leb_refl. by apply wp_ret.
    + destruct Hbs as [[Hf _] Hp]. rewrite N_REF_value in Hf. rewrite Hf. simpl.
      pose proof Hp as (Eq & Hq' & Hb' & Hrest). rewrite Eq, (proj2 (Z.eqb_neq _ _) Hq'). simpl.
      unfold disk_page_cache_seek_sync, disk_page_cache_flush, read_list. simpl.
      apply wp_bind, wp_bind, wp_bind, wp_ret, wp_bind, wp_bind, wp_gets. rewrite Hb'. apply wp_ret, wp_ret, wp_ret. simpl.
      unfold curr. simpl. destruct (bl_used b' <=? 0) eqn:Eu.
      * apply wp_ret. split; [done|]. rewrite (refs_empty b').
        -- destruct bs as [|qb bs]; [done|]. destruct Hrest as [Hf' _]. unfold pl_full in Hf'. rewrite N_REF_value in Hf'. lia.
        -- destruct bs; destruct Hrest as [H1 _]; unfold pl_sane, pl_full in H1; rewrite N_REF_value in H1; lia.
      * apply wp_ret. split; [done|].
        pose proof (refs_lookup b' 0 ltac:(lia)) as Hl. simpl in Hl. rewrite drop_0 in Hl. rewrite Hl. simpl. split; [done|].
        exists 1, q', b', bs. split_and!; try done; simpl; try lia.
        -- destruct bs; destruct Hrest as [H1 _]; unfold pl_sane, pl_full in *; rewrite N_REF_value in *; lia.
        -- by destruct bs; [apply Hrest|].
Qed.

(** The whole state while a list is written. *)
Record wstate (s : pager) (bs : list (Z * phantom_disk_blocklist)) (l : pagelist) (cs : list (Z * phantom_disk_blocklist)) (ws : list Z) : Prop := {
  ws_inv : pager_inv s bs;
  ws_writing : writing (disk s) l cs ws;
  ws_nodup : NoDup (own_pages l cs ++ all_free s bs);
  ws_ok : Forall (page_ok (superblock s)) (own_pages l cs);
}.

Lemma wstate_write s bs l cs ws x :
  wstate s bs l cs ws ->
  wpe out_of_disk_space (pagelist_write_seq l x) s (fun l' s' => exists bs' cs', wstate s' bs' l' cs' (ws ++ [x]) /\
    root_page l' = root_page l /\ own_pages l' cs' ++ all_free s' bs' ≡ₚ own_pages l cs ++ all_free s bs /\
    (exists new, own_pages l' cs' = own_pages l cs ++ new) /\ pframe (own_pages l cs) s s').
Proof.
  intros [Hi HW Hnd Hok]. pose proof Hnd as (Hnd1 & Hdis & _)%list.NoDup_app.
  eapply wpe_mono; [apply (pagelist_write_ok s bs l cs ws x Hi HW Hnd1)|].
  { intros q Hq. split; [by apply Hdis|]. rewrite list.Forall_forall in Hok. by apply Hok in Hq as (_ & _ & ?). }
  intros l' s' (bs' & cs' & new & Hi' & HW' & Hr & Ho & HP & HF). exists bs', cs'.
  assert (own_pages l' cs' ++ all_free s' bs' ≡ₚ own_pages l cs ++ all_free s bs) as HP'.
  { rewrite Ho, HP. by rewrite app_assoc. }
  split_and!; try done; [|by exists new]. split; try done; [by rewrite HP'|].
  rewrite Ho. apply list.Forall_app_2; (eapply list.Forall_impl; [|intros q; apply page_ok_fixed, HF]); [done|].
  pose proof (pi_ok _ _ Hi) as Hf. rewrite HP in Hf. by apply list.Forall_app in Hf as [].
Qed.

Lemma wstate_write_all s bs l cs ws xs :
  wstate s bs l cs ws ->
  wpe out_of_disk_space (write_all l xs) s (fun l' s' => exists bs' cs', wstate s' bs' l' cs' (ws ++ xs) /\
    root_page l' = root_page l /\ own_pages l' cs' ++ all_free s' bs' ≡ₚ own_pages l cs ++ all_free s bs /\
    (exists new, own_pages l' cs' = own_pages l cs ++ new) /\ pframe (own_pages l' cs') s s').
Proof.
  revert s bs l cs ws. induction xs as [|x xs IH]; intros s bs l cs ws Hw; simpl.
  - apply wpe_ret. exists bs, cs. rewrite app_nil_r. split_and!; try done; [exists []; by rewrite app_nil_r|apply pframe_refl].
  - apply wpe_bind. eapply wpe_mono; [by apply (wstate_write s bs l cs ws x)|].
    intros l1 s1 (bs1 & cs1 & Hw1 & Hr1 & HP1 & [new1 E1] & F1). eapply wpe_mono; [by apply (IH _ _ _ _ _ Hw1)|].
    intros l2 s2 (bs2 & cs2 & Hw2 & Hr2 & HP2 & [new2 E2] & F2). exists bs2, cs2. rewrite <-app_assoc in Hw2. simpl in Hw2.
    split_and!; try done; [congruence|by rewrite HP2|exists (new1 ++ new2); by rewrite E2, E1, app_assoc|].
    eapply pframe_trans; [..|exact F1|exact F2]; [rewrite E2, E1|]; set_solver.
Qed.

Lemma read_all_ok n s l rs : reading (disk s) l rs -> wp (read_all n l) s (fun r s' => s' = s /\ r = take n rs).
Proof.
  revert l rs. induction n as [|n IH]; intros l rs Hr; simpl; [by apply wp_ret|].
  apply wp_bind. eapply wp_mono; [by apply pagelist_read_ok|]. intros [r l'] s' [-> H].
  destruct rs as [|x rs]; simpl in H; [subst r; by apply wp_ret|]. destruct H as [-> Hr'].
  apply wp_bind. eapply wp_mono; [by apply IH|]. intros xs s' [-> ->]. by apply wp_ret.
Qed.

Lemma pagelist_load_ok s root bl n :
  plist (disk s) root bl -> wp (pagelist_load root n) s (fun r s' => s' = s /\ r = take n (entries bl)).
Proof.
  intros Hp. destruct bl as [|[q b] bl]; [done|]. pose proof Hp as (-> & Hq & Hb & _).
  unfold pagelist_load, pagelist_init, pagelist_seek, disk_page_cache_seek_sync, disk_page_cache_flush, read_list. simpl.
  apply wp_bind, wp_bind, wp_ret. apply wp_bind, wp_bind, wp_ret, wp_bind, wp_bind, wp_gets. rewrite Hb. apply wp_ret, wp_ret, wp_ret.
  simpl. apply wp_bind, wp_bind, wp_bind, wp_ret, wp_bind, wp_bind, wp_gets. rewrite Hb. apply wp_ret, wp_ret, wp_ret.
  by apply read_all_ok, plist_reading with q.
Qed.

(** ** The pages of a list *)

Definition list_pages (bs : list (Z * phantom_disk_blocklist)) : list Z :=
  bs ≫= (fun qb => qb.1 :: filter (fun p => p <> 0) (refs_of qb.2)).

Lemma for_refs_ok sb refs :
  Forall (fun p => 0 <= p <= disk_page_count sb) refs -> for_refs sb refs = (filter (fun p => p <> 0) refs, false).
Proof.
  induction 1 as [|p refs Hp _ IH]; [done|]. simpl. rewrite filter_cons, IH. unfold out_of_disk.
  destruct (p =? 0) eqn:E; case_decide; try lia; [done|]. by rewrite (proj2 (Z.ltb_ge _ _)) by lia.
Qed.

Definition in_disk (sb : phantom_disk_superblock) (p : Z) : Prop := 0 <= p <= disk_page_count sb.

Lemma forlist_loop s root bs fuel :
  plist (disk s) root bs -> Forall (in_disk (superblock s)) (bs.*1 ++ entries bs) -> (length bs <= fuel)%nat ->
  fsck_forlist fuel root 0 s = Ret (list_pages bs, false) s.
Proof.
  revert root fuel. induction bs as [|[q b] bs IH]; intros root fuel Hp Hd Hf; [done|].
  destruct Hp as (-> & Hq & Hb & Hrest). destruct fuel as [|fuel]; [simpl in Hf; lia|]. cbn [fsck_forlist].
  rewrite (proj2 (Z.eqb_neq _ _) Hq). unfold read_list, mbind, M_bind, gets, mret, M_ret.
  assert (Forall (in_disk (superblock s)) (refs_of b) /\ in_disk (superblock s) q /\
    Forall (in_disk (superblock s)) (bs.*1 ++ entries bs)) as (Hd1 & Hd2 & Hd3).
  { simpl in Hd. rewrite list.Forall_cons, !list.Forall_app in Hd. rewrite list.Forall_app. naive_solver. }
  assert (out_of_disk (superblock s) q = false) as ->.
  { unfold out_of_disk, in_disk in *. rewrite (proj2 (Z.eqb_neq _ _) Hq). lia. }
  rewrite Hb. simpl. assert (bl_used b <= N_REF_PER_BLOCK) as Hu.
  { destruct bs; destruct Hrest as [H _]; unfold pl_sane, pl_full in H; lia. }
  rewrite (proj2 (Z.ltb_ge _ _) Hu), (for_refs_ok _ _ Hd1).
  assert (fsck_forlist fuel (bl_next b) 0 s = Ret (list_pages bs, false) s) as ->.
  { destruct bs as [|qb bs]; [|destruct Hrest as [_ Hrest]; apply IH; [done|done|simpl in *; lia]].
    destruct Hrest as [_ ->]. by destruct fuel. }
  done.
Qed.

Lemma plist_length d p bs : plist d p bs -> NoDup bs.*1 -> (length bs <= size d)%nat.
Proof.
  intros Hp Hnd. rewrite <-(length_fmap fst), <-size_dom.
  assert (list_to_set bs.*1 ⊆ dom d) as Hs.
  { intros q Hq%elem_of_list_to_set. revert p Hp. induction bs as [|[q' b] bs IH]; intros p Hp; [by apply not_elem_of_nil in Hq|].
    destruct Hp as (-> & _ & Hb & Hrest). simpl in Hq, Hnd. apply list.NoDup_cons in Hnd as [_ Hnd].
    apply elem_of_cons in Hq as [->|Hq]; [by apply elem_of_dom_2 in Hb|].
    destruct bs as [|qb bs]; [by apply not_elem_of_nil in Hq|]. by eapply IH; [..|apply Hrest]. }
  apply subseteq_size in Hs. by rewrite size_list_to_set in Hs.
Qed.

Lemma forlist_ok s root bs :
  plist (disk s) root bs -> NoDup bs.*1 -> Forall (in_disk (superblock s)) (bs.*1 ++ entries bs) ->
  forlist root s = Ret (list_pages bs) s.
Proof.
  intros Hp Hnd Hd. unfold forlist, mbind, M_bind, gets.
  by rewrite (forlist_loop s root bs) by (done || by eapply plist_length).
Qed.

Lemma list_pages_in sb bs : Forall (in_disk sb) (bs.*1 ++ entries bs) -> Forall (fun p => in_disk sb p) (list_pages bs).
Proof.
  rewrite !list.Forall_forall. intros H p ([q b] & Hp & Hb)%list_elem_of_bind. apply H. apply elem_of_app.
  simpl in Hp. apply elem_of_cons in Hp as [->|[_ Hp]%list_elem_of_filter].
  - left. apply list_elem_of_fmap. by exists (q, b).
  - right. apply list_elem_of_bind. by exists (q, b).
Qed.

(** ** Marking *)

Definition map_is (f : Z -> Z) (m : amap) : Prop :=
  ends_with MAP_UNKNOWN m /\ am_start m = 0 /\ am_n_elem m = 2 ^ 64 - 1 /\
  forall x, 0 <= x < 2 ^ 64 - 1 -> flags_at (am_queue m) x = Some (f x).

Lemma flags_after_marks flags pages f x :
  flags_after ((fun p => (p, 1, flags)) <$> pages) f x = if decide (x ∈ pages) then flags else f x.
Proof.
  revert f. induction pages as [|p pages IH]; intros f; simpl; [done|]. rewrite IH.
  destruct (decide (x ∈ pages)); destruct (decide (x ∈ p :: pages)) as [H|H]; try done.
  - destruct H. by right.
  - apply elem_of_cons in H as [->|?]; [|done]. case_match; [done|lia].
  - apply not_elem_of_cons in H as [Hne _]. case_match; [lia|done].
Qed.

Lemma mark_all_ok garbage flags pages f m s :
  map_is f m -> flags <> MAP_UNKNOWN -> Forall (fun p => 0 <= p < 2 ^ 32) pages ->
  exists m', on_map (mark_all garbage flags pages) m s = Ret m' s /\ map_is (fun x => if decide (x ∈ pages) then flags else f x) m'.
Proof.
  intros (Hm & Hs & Hn & Hf) Hfl Hp.
  destruct (amap_ops_ok garbage 0 (2 ^ 64 - 1) MAP_UNKNOWN ((fun p => (p, 1, flags)) <$> pages) m f) as (u & m' & E & H); try done.
  - rewrite list.Forall_fmap. refine (list.Forall_impl _ _ _ Hp _). intros p Hp'. unfold compose, op_valid. split_and!; try lia; try done.
  - exists m'. split.
    + unfold on_map, mark_all. by rewrite E.
    + destruct H as (H1 & H2 & H3 & H4). split_and!; try done. intros x Hx. rewrite H4 by lia. f_equal. apply flags_after_marks.
Qed.

Lemma map_created : map_is (fun _ => MAP_UNKNOWN) fsck_create_map.
Proof.
  split_and!; try done. intros x Hx. unfold fsck_create_map, amap_init. simpl. unfold covers. simpl.
  case_match; [done|lia].
Qed.

(** ** Visiting *)

Lemma for_each_app {S A} (f : A -> M S unit) l1 l2 s : for_each f (l1 ++ l2) s = (for_each f l1;; for_each f l2) s.
Proof.
  revert s. induction l1 as [|x l1 IH]; intros s; [done|]. simpl. unfold mbind, M_bind in *. destruct (f x s); [apply IH|done..].
Qed.

Lemma visit_all_ok calls s :
  Forall (fun '(from, n, flags) => from + n < 2 ^ 32 /\ flags = MAP_FREE) calls ->
  for_each visit_all calls s = for_each (fun i => free_snap_worker i MAP_FREE) (visited calls) s.
Proof.
  intros H. revert s. induction H as [|[[from n] flags] calls [Hn ->] _ IH]; intros s; [done|].
  unfold visited. rewrite bind_cons, for_each_app. cbn [for_each].
  assert (visit_all (from, n, MAP_FREE) = for_each (fun i => free_snap_worker i MAP_FREE) (seqZ from n)) as ->.
  { unfold visit_all. by rewrite (proj2 (Z.leb_gt _ _)) by lia. }
  unfold mbind, M_bind in *. destruct (for_each _ (seqZ from n) s); [apply IH|done..].
Qed.

Lemma visit_flags f m :
  map_is f m -> (forall x, 0 <= x < 2 ^ 64 - 1 -> f x = MAP_FREE -> x < 2 ^ 32 - 1) ->
  let calls := amap_iterate_flags MAP_FREE m in
  Forall (fun '(from, n, flags) => from + n < 2 ^ 32 /\ flags = MAP_FREE) calls /\
  NoDup (visited calls) /\ forall x, x ∈ visited calls <-> 0 <= x < 2 ^ 64 - 1 /\ f x = MAP_FREE.
Proof.
  intros ([[Hs0 He Ht] _] & Hs & Hn & Hf) Hmax calls.
  assert (visited calls = filter (fun x => flags_at (am_queue m) x = Some MAP_FREE) (seqZ 0 (2 ^ 64 - 1))) as Hv.
  { unfold calls, amap_iterate_flags. rewrite (visited_flags _ _ _ _ Ht), Hs, Hn. f_equal. }
  assert (forall x, x ∈ visited calls <-> 0 <= x < 2 ^ 64 - 1 /\ f x = MAP_FREE) as Hin.
  { intros x. rewrite Hv, list_elem_of_filter, elem_of_seqZ. split.
    - intros [H1 H2]. rewrite Hf in H1 by lia. split; [lia|congruence].
    - intros [H1 H2]. split; [|lia]. rewrite Hf by lia. congruence. }
  split_and!; [|rewrite Hv; apply list.NoDup_filter, NoDup_seqZ|done].
  apply list.Forall_forall. intros [[from n] flags] Hc. pose proof Hc as Hc'.
  unfold calls, amap_iterate_flags in Hc'. apply list_elem_of_fmap in Hc' as (e & [= -> -> ->] & [Hfl He']%list_elem_of_filter).
  split; [|done]. apply list_elem_of_split in He' as (q1 & q2 & Eq). rewrite Eq in Ht.
  pose proof (tiles_bounds _ _ _ _ _ Ht). assert (e_start e + n_elem e - 1 ∈ visited calls) as Hlast.
  { apply list_elem_of_bind. exists (call_of e). split; [|done]. simpl. apply elem_of_seqZ. lia. }
  apply Hin in Hlast as [H1 H2]. specialize (Hmax _ H1 H2). lia.
Qed.

(** ** Releasing *)

Lemma free_pages_ok l s bs :
  pager_inv s bs -> NoDup l -> Forall (page_ok (superblock s)) l -> (forall p, p ∈ l -> p ∉ all_free s bs) ->
  wp (for_each (fun i => free_snap_worker i MAP_FREE) l) s (fun _ s' => exists bs',
    pager_inv s' bs' /\ all_free s' bs' ≡ₚ l ++ all_free s bs /\ pframe (l ++ all_free s bs) s s').
Proof.
  revert s bs. induction l as [|p l IH]; intros s bs Hi Hnd Hok Hfree; cbn [for_each].
  - apply wp_ret. exists bs. split_and!; [done..|apply pframe_refl].
  - apply list.NoDup_cons in Hnd as [Hp Hnd]. apply list.Forall_cons in Hok as [Hpok Hok]. apply wp_bind.
    unfold free_snap_worker at 1. pose proof Hpok as [H0 _]. rewrite (proj2 (Z.eqb_neq p 0)) by lia. simpl.
    eapply wp_mono; [apply (pager_free_ok s bs p); [done..|apply Hfree; by left]|].
    intros _ s1 (bs1 & Hi1 & F1 & P1). eapply wp_mono; [apply (IH s1 bs1); try done|].
    + eapply list.Forall_impl; [done|]. intros q. apply page_ok_fixed, F1.
    + intros q Hq. rewrite P1. apply not_elem_of_cons. split; [by intros ->|]. apply Hfree. by right.
    + intros _ s2 (bs2 & Hi2 & P2 & F2). exists bs2. split; [done|]. split.
      * rewrite P2, P1. simpl. by rewrite Permutation_middle.
      * eapply (pframe_trans _ [p; free_list (superblock s)] (l ++ all_free s1 bs1)); [|intros x Hx; revert Hx; rewrite P1; set_solver|done|exact F2].
        unfold all_free. set_solver.
Qed.

Lemma flush_ok s bs :
  pager_inv s bs -> wp pager_flush_free_list s (fun _ s' =>
    pager_inv s' bs /\ all_free s' bs = all_free s bs /\ pframe (all_free s bs) s s' /\
    disk s' !! free_list (superblock s') = Some (BList (freelist_head s'))).
Proof.
  intros Hi. unfold pager_flush_free_list, disk_write. apply wp_bind, wp_gets, wp_bind, wp_gets, wp_modify. simpl.
  split_and!; try done.
  - pose proof Hi as [I1 I2 I3 I4 I5 I6 I7]. split; try done. simpl. eapply seg_same; [done|]. intros q Hq.
    apply lookup_insert_ne. intros E. by eapply chain_not_head.
  - eapply (pframe_trans _ _ []); [|set_solver|apply write_frame|apply pframe_refl]. unfold all_free. set_solver.
  - apply lookup_insert_eq.
Qed.

Lemma wp_eq {S A} (m : M S A) s a s' (Q : A -> S -> Prop) : m s = Ret a s' -> Q a s' -> wp m s Q.
Proof. intros E H. by exists a, s'. Qed.

(** A snapshot list on disk, with its pages inside the disk. *)
Definition snap_list (s : pager) (root : Z) (bs : list (Z * phantom_disk_blocklist)) : Prop :=
  plist (disk s) root bs /\ NoDup bs.*1 /\ Forall (in_disk (superblock s)) (bs.*1 ++ entries bs).

Lemma snap_list_forlist s root bs (P : list Z -> pager -> Prop) : snap_list s root bs -> P (list_pages bs) s -> wp (forlist root) s P.
Proof. intros (H1 & H2 & H3). by apply wp_eq, forlist_ok. Qed.

Lemma snap_list_marks s root bs :
  disk_page_count (superblock s) < 2 ^ 32 - 1 -> snap_list s root bs -> Forall (fun p => 0 <= p < 2 ^ 32) (list_pages bs).
Proof.
  intros Hc (_ & _ & H). eapply list.Forall_impl; [by apply list_pages_in|]. unfold in_disk. intros p Hp. lia.
Qed.

(** The map at the end: what [old] has and neither [cur] nor [new] has is to be freed. *)
Definition released (old cur new : list (Z * phantom_disk_blocklist)) (p : Z) : Prop :=
  p ∈ list_pages old /\ p ∉ list_pages cur /\ p ∉ list_pages new.

Lemma marks_released old cur new p :
  (if decide (p ∈ list_pages new) then MAP_USED else
   if decide (p ∈ list_pages cur) then MAP_USED else
   if decide (p ∈ list_pages old) then MAP_FREE else MAP_UNKNOWN) = MAP_FREE <-> released old cur new p.
Proof. unfold released. repeat case_decide; naive_solver. Qed.

Lemma free_snap_ok garbage s bs r_old r_cur r_new old cur new :
  pager_inv s bs -> r_old <> 0 -> disk_page_count (superblock s) < 2 ^ 32 - 1 ->
  snap_list s r_old old -> snap_list s r_cur cur -> snap_list s r_new new ->
  Forall (fun p => page_ok (superblock s) p /\ p ∉ all_free s bs) (list_pages old) ->
  wp (phantom_free_snap garbage r_old r_cur r_new) s (fun _ s' => exists bs' freed,
    pager_inv s' bs' /\ all_free s' bs' ≡ₚ freed ++ all_free s bs /\
    (forall p, p ∈ freed <-> released old cur new p) /\
    disk s' !! free_list (superblock s') = Some (BList (freelist_head s')) /\
    pframe (freed ++ all_free s bs) s s').
Proof.
  intros Hi Hr Hc Ho Hu Hn Hold. rewrite list.Forall_forall in Hold.
  unfold phantom_free_snap. rewrite (proj2 (Z.eqb_neq _ _) Hr).
  apply wp_bind, (snap_list_forlist _ _ _ _ Ho), wp_bind.
  destruct (mark_all_ok garbage MAP_FREE (list_pages old) _ _ s map_created) as (m1 & E1 & M1); [done|by eapply snap_list_marks|].
  apply (wp_eq _ _ _ _ _ E1), wp_bind, (snap_list_forlist _ _ _ _ Hu), wp_bind.
  destruct (mark_all_ok garbage MAP_USED (list_pages cur) _ _ s M1) as (m2 & E2 & M2); [done|by eapply snap_list_marks|].
  apply (wp_eq _ _ _ _ _ E2), wp_bind, (snap_list_forlist _ _ _ _ Hn), wp_bind.
  destruct (mark_all_ok garbage MAP_USED (list_pages new) _ _ s M2) as (m3 & E3 & M3); [done|by eapply snap_list_marks|].
  apply (wp_eq _ _ _ _ _ E3). apply wp_bind.
  destruct (visit_flags _ _ M3) as (V1 & V2 & V3).
  { intros x _ Hx. apply marks_released in Hx as [Hx _]. apply Hold in Hx as [(_ & Hx & _) _]. lia. }
  assert (forall p, p ∈ visited (amap_iterate_flags MAP_FREE m3) <-> released old cur new p) as Hfreed.
  { intros p. rewrite V3, marks_released. split; [by intros [_ ?]|]. intros Hp. split; [|done].
    destruct Hp as [Hp _]. apply Hold in Hp as [(H0 & Hp & _) _]. lia. }
  unfold wp at 1. rewrite (visit_all_ok _ _ V1). eapply (wp_mono (for_each _ _)); [apply (free_pages_ok _ s bs Hi V2)|].
  - apply list.Forall_forall. intros p [Hp _]%Hfreed. by apply Hold.
  - intros p [Hp _]%Hfreed. by apply Hold.
  - intros _ s1 (bs1 & Hi1 & P1 & F1). eapply wp_mono; [by apply (flush_ok s1 bs1)|].
    intros _ s2 (Hi2 & P2 & F2 & D2). exists bs1, (visited (amap_iterate_flags MAP_FREE m3)).
    split_and!; try done; [by rewrite P2|]. eapply (pframe_trans _ _ (all_free s1 bs1)); [reflexivity| |done..].
    intros x Hx. by rewrite P1 in Hx.
Qed.

(** C8: [phantom_free_snap] releases exactly the pages of the oldest snapshot that neither the current nor the
    new one has, the pages of its list included: the free pages become those and the ones that were free, each
    once, the free list is on disk, and no other page of the disk is written. *)
Theorem free_snap_correct garbage s bs r_old r_cur r_new old cur new :
  pager_inv s bs -> r_old <> 0 -> disk_page_count (superblock s) < 2 ^ 32 - 1 ->
  snap_list s r_old old -> snap_list s r_cur cur -> snap_list s r_new new ->
  Forall (fun p => page_ok (superblock s) p /\ p ∉ all_free s bs) (list_pages old) ->
  wp (phantom_free_snap garbage r_old r_cur r_new) s (fun _ s' => exists bs' freed,
    pager_inv s' bs' /\ all_free s' bs' ≡ₚ freed ++ all_free s bs /\
    (forall p, p ∈ freed <-> released old cur new p) /\
    disk s' !! free_list (superblock s') = Some (BList (freelist_head s')) /\
    pframe (freed ++ all_free s bs) s s').
Proof. apply free_snap_ok. Qed.

(** ** Save and load *)

Lemma pagelist_save_ok s bs root ws :
  pager_inv s bs -> page_ok (superblock s) root -> root ∉ all_free s bs ->
  wpe out_of_disk_space (pagelist_save root ws) s (fun _ s' => exists bs' bl,
    pager_inv s' bs' /\ plist (disk s') root bl /\ entries bl = ws /\
    bl.*1 ++ all_free s' bs' ≡ₚ root :: all_free s bs /\ pframe bl.*1 s s').
Proof.
  intros Hi Hok Hf. pose proof Hok as [H0 _]. unfold pagelist_save. apply wpe_bind, wp_wpe.
  eapply wp_mono; [apply (pagelist_start s bs); [done|lia|done]|].
  intros l s1 (Hi1 & P1 & W1 & R1 & O1 & F1). apply wpe_bind.
  assert (wstate s1 bs l [] []) as Hw.
  { split; try done; rewrite O1; [rewrite P1; apply list.NoDup_cons; split; [done|by apply pi_nodup]|].
    apply list.Forall_singleton. by eapply page_ok_fixed, Hok; apply F1. }
  eapply wpe_mono; [by apply (wstate_write_all s1 bs l [] [] ws)|].
  intros l2 s2 (bs2 & cs2 & [Hi2 W2 N2 _] & R2 & P2 & [new E2] & F2). apply wp_wpe.
  pose proof N2 as (N2' & Hdis & _)%list.NoDup_app.
  eapply wp_mono; [by apply (pagelist_finish_ok s2 bs2 l2 cs2 ws)|].
  intros _ s3 (Hi3 & P3 & F3 & bl & Hbl & He & Ho). exists bs2, bl. rewrite Ho, P3, P2, O1, P1. split_and!; try done.
  - congruence.
  - eapply pframe_trans; [..|exact F1|]; [rewrite E2, O1; set_solver|reflexivity|].
    by eapply pframe_trans; [..|exact F2|exact F3].
Qed.

(** C15: What [save_snap] writes with a page list is what is read back from its root page, entry by entry and in
    order, however many blocks the list takes; the only way to fail is that the disk is full.  The blocks of the
    list are its root and pages that were free, and no other page of the disk is written. *)
Theorem pagelist_roundtrip s bs root ws :
  pager_inv s bs -> page_ok (superblock s) root -> root ∉ all_free s bs ->
  wpe out_of_disk_space (pagelist_save root ws) s (fun _ s' =>
    (forall n, pagelist_load root n s' = Ret (take n ws) s') /\
    exists bs' blocks, pager_inv s' bs' /\ blocks ++ all_free s' bs' ≡ₚ root :: all_free s bs /\ pframe blocks s s').
Proof.
  intros Hi Hok Hf. eapply wpe_mono; [by apply (pagelist_save_ok s bs)|].
  intros _ s' (bs' & bl & Hi' & Hbl & <- & HP & HF). split.
  - intros n. destruct (pagelist_load_ok s' root bl n Hbl) as (r & s'' & E & -> & ->). done.
  - by exists bs', bl.*1.
Qed.

(** A disk of 1056 pages, of which the last 32 were never used. *)
Definition ex_head : phantom_disk_blocklist := mkBl DISK_STRUCT_MAGIC_FREEHEAD 0 0 0 (fun _ => 0).
Definition ex_sb : phantom_disk_superblock := mkSb 0x100 0x220 0x10 0x420 0x400 0x20 0 0 0.
Definition ex_snap (ws : list Z) : phantom_disk_blocklist :=
  mkBl DISK_STRUCT_MAGIC_SNAP_LIST (Z.of_nat (length ws)) 0 0 (fun i => nth (Z.to_nat i) ws 0).
Definition ex_pager : pager :=
  mkPager {[ 0x20 := BList ex_head; 0x30 := BList (ex_snap [0x40; 0x41; 0; 0x42]);
             0x31 := BList (ex_snap [0x40; 0x43; 0; 0x42]); 0x32 := BList (ex_snap [0x44; 0x43; 0; 0x45]) ]}
    ex_sb ex_head true [] false.
Lemma ex_inv : pager_inv ex_pager [].
Proof. split; try done; apply (bool_decide_unpack _); by vm_compute. Qed.

Lemma pagelist_roundtrip_witness :
  pager_inv ex_pager [] /\
  wpe out_of_disk_space (pagelist_save 0x33 (seqZ 1 1500)) ex_pager (fun _ s' =>
    (forall n, pagelist_load 0x33 n s' = Ret (take n (seqZ 1 1500)) s') /\
    exists bs' blocks, pager_inv s' bs' /\ blocks ++ all_free s' bs' ≡ₚ 0x33 :: all_free ex_pager [] /\ pframe blocks ex_pager s').
Proof.
  split; [exact ex_inv|]. apply (pagelist_roundtrip ex_pager [] 0x33 (seqZ 1 1500)); [exact ex_inv| |].
  - apply (bool_decide_unpack _). by vm_compute.
  - apply (bool_decide_unpack _). by vm_compute.
Defined.

Lemma ex_snap_list root ws :
  (root, ws) ∈ [(0x30, [0x40; 0x41; 0; 0x42]); (0x31, [0x40; 0x43; 0; 0x42]); (0x32, [0x44; 0x43; 0; 0x45])] ->
  snap_list ex_pager root [(root, ex_snap ws)].
Proof.
  intros H. repeat (apply elem_of_cons in H as [[= -> ->]|H]; [split_and!; try done; apply (bool_decide_unpack _); by vm_compute|]).
  by apply not_elem_of_nil in H.
Qed.

Definition ex_old := [(0x30, ex_snap [0x40; 0x41; 0; 0x42])].
Definition ex_cur := [(0x31, ex_snap [0x40; 0x43; 0; 0x42])].
Definition ex_new := [(0x32, ex_snap [0x44; 0x43; 0; 0x45])].

Lemma free_snap_correct_witness :
  snap_list ex_pager 0x30 ex_old /\ released ex_old ex_cur ex_new 0x41 /\
  wp (phantom_free_snap ex_garbage 0x30 0x31 0x32) ex_pager (fun _ s' => exists bs' freed,
    pager_inv s' bs' /\ all_free s' bs' ≡ₚ freed ++ all_free ex_pager [] /\
    (forall p, p ∈ freed <-> released ex_old ex_cur ex_new p) /\
    disk s' !! free_list (superblock s') = Some (BList (freelist_head s')) /\
    pframe (freed ++ all_free ex_pager []) ex_pager s').
Proof.
  split; [apply ex_snap_list; set_solver|]. split; [apply (bool_decide_unpack _); by vm_compute|].
  apply (free_snap_correct ex_garbage ex_pager [] 0x30 0x31 0x32 ex_old ex_cur ex_new).
  - exact ex_inv.
  - done.
  - done.
  - apply ex_snap_list. set_solver.
  - apply ex_snap_list. set_solver.
  - apply ex_snap_list. set_solver.
  - apply (bool_decide_unpack _). by vm_compute.
Defined.
