(* ===== verification/PagerInit.v ===== *)
(** * Start of the pager ([oldtree/kernel/phantom/pager.c], [disk_struct.c], [fsck.c])

    A disk that was only formatted gets its copies of the superblock and its free list;
    otherwise the three superblocks are compared, the lists of the snapshots checked and
    the head of the free list is read.

    - [BSuper] is a block whose checksum and magic numbers are right.
    - The superblock has a version, which is an argument here, and lists of the boot
      loader, the kernel, its modules and the log, which nothing in the kernel makes; they
      are left out. *)

From S2P Require Import Prelude Amap Pager.

Definition sb_default_page_numbers : list Z := [0x10; 0x100; 0x220; 0x333].
Definition PHANTOM_DEFAULT_DISK_START : Z := 0x10.
Definition DISK_STRUCT_VERSION_MINOR : Z := 3.
Definition DISK_STRUCT_VERSION_MAJOR : Z := 1.

#[global] Instance superblock_eq_dec : EqDecision phantom_disk_superblock.
Proof. solve_decision. Defined.

Definition set_copies (sb2 sb3 : Z) (sb : phantom_disk_superblock) : phantom_disk_superblock :=
  mkSb sb2 sb3 (disk_start_page sb) (disk_page_count sb) (free_start sb) (free_list sb) (fs_is_clean sb) (last_snap sb) (prev_snap sb).
Definition set_need_fsck (x : bool) (s : pager) : pager :=
  mkPager (disk s) (superblock s) (freelist_head s) (freelist_inited s) (free_reserve s) x.

(** ** Superblocks *)

(** [fs_is_clean] is a [char] that is only compared with 0. *)
Definition phantom_disk_format (n_pages : Z) : phantom_disk_superblock :=
  mkSb 0 0 PHANTOM_DEFAULT_DISK_START n_pages 1 0 0xFF 0 0.

Definition superblocks_are_equal (a b : phantom_disk_superblock) : bool := bool_decide (a = b).

Definition read_check_superblock (addr : Z) : M pager (option phantom_disk_superblock) :=
  d ← gets disk; mret (match d !! addr with Some (BSuper sb) => Some sb | _ => None end).

(** The superblock and where it is. *)
Fixpoint find_superblock (pages : list Z) (exclude : Z) : M pager (option (phantom_disk_superblock * Z)) :=
  match pages with
  | [] => mret None
  | curr :: pages =>
      if (curr =? 0) || (curr =? exclude) then find_superblock pages exclude else
      sb ← read_check_superblock curr;
      match sb with
      | Some sb => mret (Some (sb, curr))
      | None => find_superblock pages exclude
      end
  end.

(** ** Check of the lists *)

(** [fsck_forlist] without a function to call: whether the list is insane. *)
Fixpoint fsck_checklist (fuel : nat) (next check_magic : Z) : M pager bool :=
  if next =? 0 then mret false else
  match fuel with
  | O => diverge
  | S fuel' =>
      sb ← gets superblock;
      if out_of_disk sb next then mret true else
      b ← read_list next;
      if negb (check_magic =? 0) && negb (bl_magic b =? check_magic) then mret true else
      if N_REF_PER_BLOCK <? bl_used b then mret true else
      fsck_checklist fuel' (bl_next b) check_magic
  end.
Definition checklist (list_start : Z) : M pager bool :=
  n ← gets (fun s => size (disk s)); fsck_checklist n list_start DISK_STRUCT_MAGIC_SNAP_LIST.

(** A list that is insane is forgotten. *)
Definition phantom_fsck_lists : M pager bool :=
  sb ← gets superblock;
  last ← (if last_snap sb =? 0 then mret false else checklist (last_snap sb));
  (if (last : bool) then modify (fun s => set_sb (set_snaps 0 (prev_snap (superblock s)) (superblock s)) s);; pager_update_superblock else mret tt);;
  sb ← gets superblock;
  prev ← (if prev_snap sb =? 0 then mret false else checklist (prev_snap sb));
  (if (prev : bool) then modify (fun s => set_sb (set_snaps (last_snap (superblock s)) 0 (superblock s)) s);; pager_update_superblock else mret tt);;
  mret (last || prev).

(** With or without errors, nothing is rebuilt. *)
Definition phantom_fsck : M pager unit := phantom_fsck_lists;; mret tt.

(** ** Start up *)

(** [while( free == sb_default_page_numbers[0] || ...) free++] *)
Fixpoint skip_superblocks (n : nat) (free : Z) : Z :=
  match n with
  | O => free
  | S n => if bool_decide (free ∈ sb_default_page_numbers) then skip_superblocks n (free + 1) else free
  end.

Definition pager_fix_incomplete_format : M pager unit :=
  let sb2a := 0x100 in
  let sb3a := 0x220 in
  modify (fun s => set_sb (set_copies sb2a sb3a (superblock s)) s);;
  sb ← gets superblock;
  let free := skip_superblocks (length sb_default_page_numbers) (disk_start_page sb) in
  let max := Z.max (Z.max sb2a sb3a) free + 1 in
  modify (fun s => set_sb (set_free_list 0 (set_free_start max (superblock s))) s);;
  pager_format_empty_free_list_block free;;
  modify (fun s => set_sb (set_free_list free (superblock s)) s);;
  for_each (fun i => if bool_decide (i = free \/ i ∈ sb_default_page_numbers) then mret tt else pager_put_to_free_list i)
    (seqZ (disk_start_page sb) (max - disk_start_page sb));;
  pager_update_superblock.

Definition no_fsck : M pager unit := panic "I don't have any fsck yet. I must die.".

Definition pager_get_superblock (version : Z) : M pager unit :=
  root ← read_check_superblock sb_default_page_number;
  match root with
  | None => no_fsck
  | Some root_sb =>
      let sb_found_page_numbers := [sb2_addr root_sb; sb3_addr root_sb] in
      sb1 ← find_superblock sb_found_page_numbers 0;
      sb2 ← match sb1 with Some (_, found_sb1) => find_superblock sb_found_page_numbers found_sb1 | None => mret None end;
      match sb1, sb2 with
      | None, None =>
          if (sb2_addr root_sb =? 0) && (sb3_addr root_sb =? 0) && negb (free_start root_sb =? 0) && (free_list root_sb =? 0)
            && negb (fs_is_clean root_sb =? 0)
          then modify (set_sb root_sb);; pager_fix_incomplete_format;; phantom_fsck
          else no_fsck
      | Some (sb1, _), Some (sb2, _) =>
          if superblocks_are_equal root_sb sb1 && superblocks_are_equal root_sb sb2 then
            if negb (Z.shiftr version 16 =? DISK_STRUCT_VERSION_MAJOR) then panic "Can't work with this FS" else
            if DISK_STRUCT_VERSION_MINOR <? Z.land version 0xFFFF then panic "Can't work with this FS" else
            modify (set_sb root_sb);;
            if fs_is_clean root_sb =? 0 then no_fsck else phantom_fsck
          else no_fsck
      | _, _ => no_fsck
      end
  end.

Definition pager_fast_fsck : M pager unit :=
  pager_init_free_list;;
  flist ← gets freelist_head;
  if insane_head flist then modify (set_need_fsck true) else mret tt.

Definition partition_pager_init (version : Z) : M pager unit :=
  pager_get_superblock version;;
  pager_fast_fsck;;
  bad ← gets need_fsck;
  if (bad : bool) then no_fsck else pager_update_superblock.

(** The pager after a start of the machine, with a disk. *)
Definition power_on (d : gmap Z block) : pager :=
  mkPager d (mkSb 0 0 0 0 0 0 0 0 0) (mkBl 0 0 0 0 (fun _ => 0)) false [] false.
