(* ===== verification/Snap.v ===== *)
(** * Paging and snapshots of the object memory ([oldtree/kernel/phantom/vm_map.c])

    The pages of the object memory, page faults, paging out, the reclaiming of memory
    and the snapshot, as steps that threads, the disk and the snapshot thread take in
    any order.

    - A step is what runs under the lock of a page up to the next place where the code
      waits or releases the lock.  A thread that finds a page busy waits and then looks
      again from the start of the loop: such a step changes nothing.
    - The content of a page is one number, 0 for a page of zeros; [None] is the unknown
      content of a new page of physical memory.  Physical memory is there when it is
      asked for: [hal_alloc_phys_page] waits until a page is reclaimed.
    - A request to the disk is started ([io_start]) and ends ([io_done]) in any order.
      The content of a disk page that is being written is not known until the request
      ends.
    - The flag and the page number of [curr_page], [make_page] and [prev_page] are one
      [option].  A request is present while [flag_pager_io_busy] is set. *)

From S2P Require Import Prelude Amap Pager.

(** ** Data *)

Inductive access := RO | RW.
#[global] Instance access_eq_dec : EqDecision access.
Proof. solve_decision. Defined.

(** What the request does, with the copy that the disk writes from. *)
Inductive io_kind :=
  | Pageout
  | Cow (copy : option Z)
  | Pagein.
Record pager_io_request := mkIo { kind : io_kind; disk_page : Z; started : bool }.

Record vm_page := mkPage {
  content : option Z;
  mapping : option access;
  pager_io : option pager_io_request;
  flag_phys_mem : bool;
  flag_phys_protect : bool;
  flag_phys_dirty : bool;
  curr_page : option Z;
  make_page : option Z;
  prev_page : option Z;
  wired_count : Z;
  (** A thread waits in [page_fault_write] for the page to be read. *)
  write_waiting : bool }.
Definition set_content (x : option Z) (p : vm_page) : vm_page :=
  mkPage x (mapping p) (pager_io p) (flag_phys_mem p) (flag_phys_protect p) (flag_phys_dirty p)
    (curr_page p) (make_page p) (prev_page p) (wired_count p) (write_waiting p).
Definition set_mapping (x : option access) (p : vm_page) : vm_page :=
  mkPage (content p) x (pager_io p) (flag_phys_mem p) (flag_phys_protect p) (flag_phys_dirty p)
    (curr_page p) (make_page p) (prev_page p) (wired_count p) (write_waiting p).
Definition set_io (x : option pager_io_request) (p : vm_page) : vm_page :=
  mkPage (content p) (mapping p) x (flag_phys_mem p) (flag_phys_protect p) (flag_phys_dirty p)
    (curr_page p) (make_page p) (prev_page p) (wired_count p) (write_waiting p).
Definition set_phys (mem protect dirty : bool) (p : vm_page) : vm_page :=
  mkPage (content p) (mapping p) (pager_io p) mem protect dirty
    (curr_page p) (make_page p) (prev_page p) (wired_count p) (write_waiting p).
Definition set_curr (x : option Z) (p : vm_page) : vm_page :=
  mkPage (content p) (mapping p) (pager_io p) (flag_phys_mem p) (flag_phys_protect p) (flag_phys_dirty p)
    x (make_page p) (prev_page p) (wired_count p) (write_waiting p).
Definition set_make (x : option Z) (p : vm_page) : vm_page :=
  mkPage (content p) (mapping p) (pager_io p) (flag_phys_mem p) (flag_phys_protect p) (flag_phys_dirty p)
    (curr_page p) x (prev_page p) (wired_count p) (write_waiting p).
Definition set_prev (x : option Z) (p : vm_page) : vm_page :=
  mkPage (content p) (mapping p) (pager_io p) (flag_phys_mem p) (flag_phys_protect p) (flag_phys_dirty p)
    (curr_page p) (make_page p) x (wired_count p) (write_waiting p).
Definition set_wired (x : Z) (p : vm_page) : vm_page :=
  mkPage (content p) (mapping p) (pager_io p) (flag_phys_mem p) (flag_phys_protect p) (flag_phys_dirty p)
    (curr_page p) (make_page p) (prev_page p) x (write_waiting p).
Definition set_waiting (b : bool) (p : vm_page) : vm_page :=
  mkPage (content p) (mapping p) (pager_io p) (flag_phys_mem p) (flag_phys_protect p) (flag_phys_dirty p)
    (curr_page p) (make_page p) (prev_page p) (wired_count p) b.

(** Where the snapshot thread is in [do_snapshot]. *)
Inductive snap_pc :=
  | Idle
  | Kick1 (k : nat)
  | Mark
  | Kick2 (k : nat)
  | Finalize (k : nat)
  | Unset
  | Create
  | Save1 (k : nat) (saver : pagelist)
  | Save2 (k : nat) (saver : pagelist)
  | Save3 (k : nat) (saver : pagelist)
  | Finish (saver : pagelist)
  | Commit (k : nat) (new_snap_head : Z)
  | Super (new_snap_head : Z)
  | Free (to_free : Z)
  | Update.

Record vm_map := mkVm {
  pg : pager;
  pages : list vm_page;
  clean_q : list nat;
  dirty_q : list nat;
  is_in_snapshot_process : bool;
  snapper : snap_pc }.
Definition set_pg (x : pager) (s : vm_map) : vm_map := mkVm x (pages s) (clean_q s) (dirty_q s) (is_in_snapshot_process s) (snapper s).
Definition set_pages (x : list vm_page) (s : vm_map) : vm_map := mkVm (pg s) x (clean_q s) (dirty_q s) (is_in_snapshot_process s) (snapper s).
Definition set_clean_q (x : list nat) (s : vm_map) : vm_map := mkVm (pg s) (pages s) x (dirty_q s) (is_in_snapshot_process s) (snapper s).
Definition set_dirty_q (x : list nat) (s : vm_map) : vm_map := mkVm (pg s) (pages s) (clean_q s) x (is_in_snapshot_process s) (snapper s).
Definition set_in_snap (x : bool) (s : vm_map) : vm_map := mkVm (pg s) (pages s) (clean_q s) (dirty_q s) x (snapper s).
Definition set_snapper (x : snap_pc) (s : vm_map) : vm_map := mkVm (pg s) (pages s) (clean_q s) (dirty_q s) (is_in_snapshot_process s) x.

Definition page (i : nat) : M vm_map vm_page := ps ← gets pages; some_or_fault (ps !! i) "no such page".
Definition update (i : nat) (f : vm_page -> vm_page) : M vm_map unit := modify (fun s => set_pages (alter f i (pages s)) s).

(** Run an operation of the pager. *)
Definition on_pager {A} (m : M pager A) : M vm_map A := fun s =>
  match m (pg s) with
  | Ret a x => Ret a (set_pg x s)
  | Panic msg => Panic msg
  | Fault why => Fault why
  | Diverge => Diverge
  end.

Definition busy (p : vm_page) : bool := bool_decide (is_Some (pager_io p)).
(** [p->pager_io.phys_page == p->phys_addr] *)
Definition own_page (r : pager_io_request) : bool := match kind r with Cow _ => false | _ => true end.

(** ** Queues of pages that have memory *)

Definition is_on_reclaim_q (i : nat) (s : vm_map) : bool := bool_decide (i ∈ clean_q s) || bool_decide (i ∈ dirty_q s).

Definition put_on_clean_q (i : nat) : M vm_map unit :=
  on ← gets (is_on_reclaim_q i);
  assert_ (negb on) "!is_on_reclaim_q(p)";;
  modify (fun s => set_clean_q (clean_q s ++ [i]) s).
Definition put_on_dirty_q (i : nat) : M vm_map unit :=
  on ← gets (is_on_reclaim_q i);
  assert_ (negb on) "!is_on_reclaim_q(p)";;
  modify (fun s => set_dirty_q (i :: dirty_q s) s).
Definition remove_from_clean_q (i : nat) : M vm_map unit :=
  q ← gets clean_q;
  assert_ (0 <? Z.of_nat (length q)) "clean_q_size > 0";;
  on ← gets (is_on_reclaim_q i);
  assert_ on "is_on_reclaim_q(p)";;
  if bool_decide (i ∈ q) then modify (set_clean_q (filter (fun j => j <> i) q)) else fault "removed from the wrong queue".
Definition remove_from_dirty_q (i : nat) : M vm_map unit :=
  q ← gets dirty_q;
  assert_ (0 <? Z.of_nat (length q)) "dirty_q_size > 0";;
  on ← gets (is_on_reclaim_q i);
  assert_ on "is_on_reclaim_q(p)";;
  if bool_decide (i ∈ q) then modify (set_dirty_q (filter (fun j => j <> i) q)) else fault "removed from the wrong queue".
Definition move_to_dirty_q (i : nat) : M vm_map unit := remove_from_clean_q i;; put_on_dirty_q i.

(** ** Paging out *)

Definition hal_page_control (i : nat) (a : option access) : M vm_map unit := update i (set_mapping a).

Definition vm_page_req_pageout (i : nat) : M vm_map unit :=
  me ← page i;
  if busy me then mret tt else
  if negb (flag_phys_mem me) then mret tt else
  if negb (flag_phys_dirty me) then mret tt else
  match curr_page me with
  | Some _ => mret tt
  | None =>
      p ← on_pager pager_alloc_page;
      match p with
      | None => panic "can't alloc disk page in req pageout"
      | Some p => update i (set_curr (Some p))
      end
  end;;
  hal_page_control i (Some RO);;
  me ← page i;
  curr ← some_or_fault (curr_page me) "no curr_page";
  update i (fun p => set_io (Some (mkIo Pageout curr false)) (set_phys (flag_phys_mem p) true (flag_phys_dirty p) p));;
  remove_from_dirty_q i.

Definition pageout_callback (i : nat) : M vm_map unit :=
  p ← page i;
  assert_ (busy p) "vmp->flag_pager_io_busy";;
  update i (fun p => set_phys (flag_phys_mem p) (flag_phys_protect p) false p);;
  put_on_clean_q i;;
  update i (set_io None).

Definition snapper_COW_callback (i : nat) : M vm_map unit :=
  p ← page i;
  assert_ (busy p) "vmp->flag_pager_io_busy";;
  update i (set_io None).

Definition pagein_callback (i : nat) : M vm_map unit :=
  p ← page i;
  assert_ (busy p) "vmp->flag_pager_io_busy";;
  hal_page_control i (Some (if flag_phys_protect p then RO else RW));;
  update i (fun p => set_phys (flag_phys_mem p) (flag_phys_protect p) false p);;
  put_on_clean_q i;;
  update i (set_io None).

(** ** Page faults *)

(** Where the content of a page is on disk; 0 for a page of zeros. *)
Definition backing (p : vm_page) : Z :=
  match curr_page p with
  | Some q => q
  | None =>
      match make_page p with
      | Some q => q
      | None => match prev_page p with Some q => q | None => 0 end
      end
  end.

(** The result is whether the caller must return now. *)
Definition page_fault_snap_aid (i : nat) : M vm_map bool :=
  p ← page i;
  match make_page p with
  | Some _ => mret false
  | None =>
      if negb (flag_phys_mem p) || negb (flag_phys_dirty p) then
        match curr_page p with
        | Some c => update i (fun p => set_curr None (set_make (Some c) p));; mret false
        | None =>
            match prev_page p with
            | Some c => update i (fun p => set_prev None (set_make (Some c) p));; mret false
            | None => update i (set_make (Some 0));; mret false
            end
        end
      else
        assert_ (negb (busy p)) "!p->flag_pager_io_busy";;
        c ← (match curr_page p with
             | Some c => update i (fun p => set_curr None (set_make (Some c) p));; mret c
             | None =>
                 c ← on_pager pager_alloc_page;
                 match c with
                 | None => panic "can't alloc disk page in req pageout"
                 | Some c => update i (set_make (Some c));; mret c
                 end
             end);
        update i (set_io (Some (mkIo (Cow (content p)) c false)));;
        hal_page_control i (Some RW);;
        assert_ (flag_phys_dirty p) "p->flag_phys_dirty";;
        update i (fun p => set_phys (flag_phys_mem p) false true p);;
        mret true
  end.

(** Start to read a page. *)
Definition pagein (i : nat) (from : Z) : M vm_map unit :=
  p ← page i;
  assert_ (negb (busy p)) "!p->flag_pager_io_busy";;
  update i (set_io (Some (mkIo Pagein from false))).

Definition page_fault_read (i : nat) : M vm_map unit :=
  p ← page i;
  if busy p then mret tt else
  if flag_phys_mem p then mret tt else
  update i (fun p => set_content None (set_phys true true false p));;
  let from := backing p in
  if from =? 0 then
    update i (set_content (Some 0));;
    put_on_clean_q i;;
    hal_page_control i (Some RO)
  else pagein i from.

(** [page_fault_write] behind its first loop. *)
Definition page_fault_write_go (i : nat) : M vm_map unit :=
  p ← page i;
  if flag_phys_mem p && negb (flag_phys_protect p) then
    if flag_phys_dirty p then mret tt
    else move_to_dirty_q i;; update i (fun p => set_phys (flag_phys_mem p) (flag_phys_protect p) true p)
  else
  snap ← gets is_in_snapshot_process;
  done ← (if (snap : bool) && negb (bool_decide (is_Some (make_page p))) then page_fault_snap_aid i else mret false);
  if (done : bool) then mret tt else
  p ← page i;
  if flag_phys_mem p then
    if flag_phys_protect p then
      hal_page_control i (Some RW);;
      update i (fun p => set_phys (flag_phys_mem p) false true p);;
      move_to_dirty_q i
    else mret tt
  else
  update i (fun p => set_content None (set_phys true false false p));;
  let from := backing p in
  if from =? 0 then
    update i (set_content (Some 0));;
    hal_page_control i (Some RW);;
    update i (fun p => set_phys (flag_phys_mem p) (flag_phys_protect p) true p);;
    put_on_dirty_q i
  else
    pagein i from;;
    update i (set_waiting true).

(** A write fault; [dequeued] is whether [pager_dequeue_from_pageout] takes the
    request back.  It waits while the page is being read or written. *)
Definition page_fault_write (i : nat) (dequeued : bool) : M vm_map unit :=
  p ← page i;
  snap ← gets is_in_snapshot_process;
  match pager_io p with
  | Some r =>
      if own_page r then
        if (snap : bool) && negb (bool_decide (is_Some (make_page p))) && dequeued then
          (if flag_phys_dirty p then put_on_dirty_q i else put_on_clean_q i);;
          update i (set_io None);;
          page_fault_write_go i
        else mret tt
      else page_fault_write_go i
  | None => page_fault_write_go i
  end.

(** The end of [page_fault_write], when the page has been read. *)
Definition page_fault_write_read (i : nat) : M vm_map unit :=
  p ← page i;
  update i (set_waiting false);;
  if flag_phys_mem p then
    update i (fun p => set_phys (flag_phys_mem p) (flag_phys_protect p) true p);;
    move_to_dirty_q i
  else mret tt.

(** ** Reclaiming memory *)

(** [p] is the page that was last in the queue at some time before. *)
Definition physmem_try_to_reclaim_page (i : nat) : M vm_map unit :=
  p ← page i;
  on ← gets (is_on_reclaim_q i);
  if flag_phys_mem p && negb (flag_phys_dirty p) && on && (wired_count p =? 0) then
    remove_from_clean_q i;;
    update i (fun p => set_phys false (flag_phys_protect p) (flag_phys_dirty p) p);;
    hal_page_control i None
  else mret tt.

Definition need_pageout (dirty clean : Z) : bool :=
  if dirty =? 0 then false else
  if clean <? 8 then clean <=? dirty else
  if clean <? 32 then clean * 16 <? dirty else clean * 4096 <? dirty.

(** One turn of [balance_clean_dirty], with the lengths of the queues and the last page
    of [dirty_q] that it has read. *)
Definition balance_clean_dirty (dirty clean : Z) (i : nat) : M vm_map unit :=
  if need_pageout dirty clean then
    p ← page i;
    if flag_phys_mem p && flag_phys_dirty p then vm_page_req_pageout i else mret tt
  else mret tt.

(** A page that is not in memory is also touched, which is a [Load]. *)
Definition wire_page (i : nat) : M vm_map unit := update i (fun p => set_wired (wired_count p + 1) p).
Definition unwire_page (i : nat) : M vm_map unit :=
  p ← page i; assert_ (0 <? wired_count p) "p->wired_count > 0";; update i (fun p => set_wired (wired_count p - 1) p).

(** ** Requests to the disk *)

(** The disk begins with the request: a page that is written is in an unknown state. *)
Definition io_start (i : nat) : M vm_map unit :=
  p ← page i;
  match pager_io p with
  | Some r =>
      update i (set_io (Some (mkIo (kind r) (disk_page r) true)));;
      match kind r with
      | Pagein => mret tt
      | _ => on_pager (modify (fun s => set_disk (delete (disk_page r) (disk s)) s))
      end
  | None => mret tt
  end.

Definition write_data (q : Z) (c : option Z) : M pager unit :=
  match c with Some c => disk_write q (BData c) | None => mret tt end.
Definition read_data (q : Z) (d : gmap Z block) : option Z := match d !! q with Some (BData c) => Some c | _ => None end.

(** The request is done: the callback. *)
Definition io_done (i : nat) : M vm_map unit :=
  p ← page i;
  match pager_io p with
  | Some r =>
      match kind r with
      | Pageout => on_pager (write_data (disk_page r) (content p));; pageout_callback i
      | Cow c => on_pager (write_data (disk_page r) c);; snapper_COW_callback i
      | Pagein => d ← gets (fun s => disk (pg s)); update i (set_content (read_data (disk_page r) d));; pagein_callback i
      end
  | None => mret tt
  end.

(** ** The snapshot *)

Definition mark_for_snap (i : nat) : M vm_map unit :=
  p ← page i;
  if bool_decide (is_Some (make_page p)) then panic "mark_for_snap got flag_have_make set" else
  if negb (flag_phys_mem p) then mret tt else
  if flag_phys_protect p then mret tt else
  hal_page_control i (Some RO);;
  update i (fun p => set_phys (flag_phys_mem p) true (flag_phys_dirty p) p).

Definition kick_pageout (i : nat) : M vm_map unit :=
  p ← page i; if flag_phys_dirty p then vm_page_req_pageout i else mret tt.

(** The result is false when the snapshot thread has to wait. *)
Definition finalize_snap (i : nat) : M vm_map bool :=
  p ← page i;
  match make_page p with
  | Some _ => mret true
  | None =>
      if busy p then mret false else
      assert_ (negb (flag_phys_dirty p)) "!p->flag_phys_dirty";;
      match curr_page p with
      | Some c => update i (fun p => set_curr None (set_make (Some c) p));; mret true
      | None =>
          match prev_page p with
          | Some c => update i (fun p => set_prev None (set_make (Some c) p));; mret true
          | None => update i (set_make (Some 0));; mret true
          end
      end
  end.

(** [save_snap] up to the call of [pagelist_write_seq], the call, and the rest. *)
Definition unused_page (p : vm_page) : bool :=
  bool_decide (make_page p = Some 0 /\ curr_page p = None /\ prev_page p = None).
Definition save_snap_pageout (i : nat) : M vm_map unit :=
  p ← page i; if unused_page p then mret tt else vm_page_req_pageout i.
Definition save_snap_write (i : nat) (saver : pagelist) : M vm_map pagelist :=
  p ← page i;
  match make_page p with
  | None => panic "p->flag_have_make"
  | Some q => on_pager (pagelist_write_seq saver q)
  end.
Definition save_snap_done (i : nat) : M vm_map unit :=
  p ← page i; update i (fun p => set_prev (make_page p) (set_make None p)).

(** The result is false when the snapshot thread has to wait. *)
Definition wait_commit_snap (i : nat) : M vm_map bool :=
  p ← page i;
  match pager_io p with
  | Some r => mret (bool_decide (curr_page p = Some (disk_page r)))
  | None => mret true
  end.

(** [vm_map_for_all], with a function that may have to wait. *)
Definition for_page (k : nat) (f : nat -> M vm_map bool) (again next : snap_pc) : M vm_map unit :=
  ps ← gets pages;
  if bool_decide (k < length ps)%nat then
    done ← f k;
    if (done : bool) then modify (set_snapper again) else mret tt
  else modify (set_snapper next).
Definition always (f : nat -> M vm_map unit) (i : nat) : M vm_map bool := f i;; mret true.

(** What an observer sees of a step. *)
Inductive event :=
  | Loaded (i : nat) (c : Z)
  | Stored (i : nat) (f : Z -> Z)
  | Marked
  | Saved.

(** The next step of [do_snapshot]. *)
Definition do_snapshot (garbage : Z -> Z) : M vm_map (option event) :=
  pc ← gets snapper;
  match pc with
  | Idle => modify (set_snapper (Kick1 0));; mret None
  | Kick1 k => for_page k (always kick_pageout) (Kick1 (S k)) Mark;; mret None
  | Mark =>
      modify (set_in_snap true);;
      ps ← gets pages;
      for_each mark_for_snap (seq 0 (length ps));;
      modify (set_snapper (Kick2 0));;
      mret (Some Marked)
  | Kick2 k => for_page k (always kick_pageout) (Kick2 (S k)) (Finalize 0);; mret None
  | Finalize k => for_page k finalize_snap (Finalize (S k)) Unset;; mret None
  | Unset => modify (set_in_snap false);; modify (set_snapper Create);; mret None
  | Create =>
      head ← on_pager pager_alloc_page;
      match head with
      | None => panic "out of disk!"
      | Some new_snap_head =>
          saver ← on_pager (l ← pagelist_init new_snap_head true DISK_STRUCT_MAGIC_SNAP_LIST; pagelist_clear l);
          modify (set_snapper (Save1 0 saver));; mret None
      end
  | Save1 k saver => for_page k (always save_snap_pageout) (Save2 k saver) (Finish saver);; mret None
  | Save2 k saver => saver ← save_snap_write k saver; modify (set_snapper (Save3 k saver));; mret None
  | Save3 k saver => save_snap_done k;; modify (set_snapper (Save1 (S k) saver));; mret None
  | Finish saver =>
      on_pager (l ← pagelist_flush saver; pagelist_finish l);;
      modify (set_snapper (Commit 0 (root_page saver)));; mret None
  | Commit k head => for_page k wait_commit_snap (Commit (S k) head) (Super head);; mret None
  | Super head =>
      sb ← gets (fun s => superblock (pg s));
      on_pager (modify (set_sb (set_snaps head (last_snap sb) sb));; pager_update_superblock);;
      modify (set_snapper (Free (prev_snap sb)));;
      mret (Some Saved)
  | Free to_free =>
      sb ← gets (fun s => superblock (pg s));
      on_pager (phantom_free_snap garbage to_free (prev_snap sb) (last_snap sb));;
      modify (set_snapper Update);; mret None
  | Update => on_pager pager_update_superblock;; modify (set_snapper Idle);; mret None
  end.

(** ** Threads *)

(** A thread changes a page; without write access it faults. *)
Definition store (i : nat) (f : Z -> Z) (dequeued : bool) : M vm_map (option event) :=
  p ← page i;
  if bool_decide (mapping p = Some RW) then
    c ← some_or_fault (content p) "unknown content";
    update i (set_content (Some (f c)));;
    mret (Some (Stored i f))
  else page_fault_write i dequeued;; mret None.
(** A thread reads a page; it faults when the page is not mapped. *)
Definition load (i : nat) : M vm_map (option event) :=
  p ← page i;
  match mapping p with
  | Some _ => c ← some_or_fault (content p) "unknown content"; mret (Some (Loaded i c))
  | None => page_fault_read i;; mret None
  end.

(** ** Steps *)

Inductive op :=
  | Store (i : nat) (f : Z -> Z) (dequeued : bool)
  | Resume (i : nat)
  | Load (i : nat)
  | Reclaim (i : nat)
  | Balance (dirty clean : Z) (i : nat)
  | Wire (i : nat)
  | Unwire (i : nat)
  | Start (i : nat)
  | Done (i : nat)
  | Snapshot.

Definition quiet (m : M vm_map unit) : M vm_map (option event) := m;; mret None.
Definition step (garbage : Z -> Z) (o : op) : M vm_map (option event) :=
  match o with
  | Store i f dequeued => store i f dequeued
  | Resume i => quiet (page_fault_write_read i)
  | Load i => load i
  | Reclaim i => quiet (physmem_try_to_reclaim_page i)
  | Balance dirty clean i => quiet (balance_clean_dirty dirty clean i)
  | Wire i => quiet (wire_page i)
  | Unwire i => quiet (unwire_page i)
  | Start i => quiet (io_start i)
  | Done i => quiet (io_done i)
  | Snapshot => do_snapshot garbage
  end.

(** A write fault takes back only a request that pages out and has not been started,
    and a thread that has waited for a page to be read goes on before another writes
    there or the page is reclaimed. *)
Definition store_ok (p : vm_page) (dequeued : bool) : bool :=
  match pager_io p with
  | Some r => negb dequeued || match kind r with Pageout => negb (started r) | _ => false end
  | None => negb (write_waiting p)
  end.
(** The step can happen. *)
Definition enabled (o : op) (s : vm_map) : bool :=
  let at_page i f := match pages s !! i with Some p => f p | None => false end in
  match o with
  | Store i _ dequeued => at_page i (fun p => store_ok p dequeued)
  | Resume i => at_page i (fun p => write_waiting p && negb (busy p))
  | Load i | Balance _ _ i | Wire i => at_page i (fun _ => true)
  | Reclaim i => at_page i (fun p => negb (write_waiting p))
  | Unwire i => at_page i (fun p => 0 <? wired_count p)
  | Start i => at_page i (fun p => match pager_io p with Some r => negb (started r) | None => false end)
  | Done i => at_page i (fun p => match pager_io p with Some r => started r | None => false end)
  | Snapshot =>
      (** [phantom_snapper_wait_4_threads]: no thread is in a fault. *)
      match snapper s with Mark => forallb (fun p => negb (write_waiting p)) (pages s) | _ => true end
  end.

(** The events of the steps that can happen. *)
Fixpoint run (garbage : Z -> Z) (ops : list op) : M vm_map (list event) :=
  match ops with
  | [] => mret []
  | o :: ops =>
      can ← gets (enabled o);
      if (can : bool) then
        e ← step garbage o;
        es ← run garbage ops;
        mret (match e with Some e => e :: es | None => es end)
      else run garbage ops
  end.

(** ** Start up *)

Definition vm_page_init : vm_page := mkPage None None None false false false None None None 0 false.

(** The pages that are read with [pagelist_read_seq]; a list that is too short leaves
    the rest without. *)
Definition vm_map_init (page_count : nat) : M pager (list vm_page) :=
  sb ← gets superblock;
  if last_snap sb =? 0 then mret (replicate page_count vm_page_init) else
  l ← pagelist_load (last_snap sb) page_count;
  mret (((fun q => set_prev (if q =? 0 then None else Some q) vm_page_init) <$> l)
        ++ replicate (page_count - length l) vm_page_init).

(** The map after start up. *)
Definition boot (page_count : nat) (x : pager) : option vm_map :=
  match vm_map_init page_count x with
  | Ret ps x => Some (mkVm x ps [] [] false Idle)
  | _ => None
  end.

(** What a read of every page finds after a restart. *)
Definition zero_or_data (d : gmap Z block) (q : Z) : option Z := if q =? 0 then Some 0 else read_data q d.
Definition restart (page_count : nat) (d : gmap Z block) : option (list (option Z)) :=
  match d !! sb_default_page_number with
  | Some (BSuper sb) =>
      match vm_map_init page_count (mkPager d sb (mkBl 0 0 0 0 (fun _ => 0)) false [] false) with
      | Ret ps _ => Some ((fun p => zero_or_data d (backing p)) <$> ps)
      | _ => None
      end
  | _ => None
  end.
