(* ===== verification/SnapInv.v ===== *)
(** * The invariant of paging and snapshots

    What the disk holds while pages are written, saved and released, and what every page
    is at each stage of a snapshot.  The ghost state is the memory that a program sees,
    its image when the last snapshot was marked, and the image of the last snapshot that
    is complete. *)

From S2P Require Import Prelude Amap Pager PagerSpec Snap.

(** Membership in parts of a list. *)
Ltac in_list := rewrite ?elem_of_app in *; tauto.

(** ** What an observer sees *)

Record ghost := mkGhost { mem : list Z; marked : list Z; saved : list Z }.

Definition spec_step (e : event) (g : ghost) : option ghost :=
  match e with
  | Loaded i c => if decide (mem g !! i = Some c) then Some g else None
  | Stored i f => Some (mkGhost (alter f i (mem g)) (marked g) (saved g))
  | Marked => Some (mkGhost (mem g) (mem g) (saved g))
  | Saved => Some (mkGhost (mem g) (marked g) (marked g))
  end.
Fixpoint spec_run (es : list event) (g : ghost) : option ghost :=
  match es with [] => Some g | e :: es => spec_step e g ≫= spec_run es end.

(** ** The disk *)

Definition blocks : Type := list (Z * phantom_disk_blocklist).

(** The entry of a page in a snapshot list; 0 if there is none. *)
Definition entry (l : blocks) (i : nat) : Z := default 0 (entries l !! i).

(** The page lists of a superblock: none, or one with an entry for every page. *)
Definition listed (d : gmap Z block) (n : nat) (root : Z) (l : blocks) : Prop :=
  if root =? 0 then l = [] else plist d root l /\ NoDup l.*1 /\ length (entries l) = n.

(** Pages that a page of memory has for itself: neither of a snapshot nor "no page". *)
Definition own_slot (l : Z) (o : option Z) : list Z :=
  match o with Some q => if decide (q = 0 \/ q = l) then [] else [q] | None => [] end.
Definition own (l : Z) (p : vm_page) : list Z :=
  option_list (curr_page p) ++ own_slot l (make_page p) ++ own_slot l (prev_page p).
Definition owned (l : blocks) (ps : list vm_page) : list Z := concat (imap (fun i p => own (entry l i) p) ps).

(** The last snapshot [Lst], the one before [Prv], one that is to be released [Old], and
    the pages [used] by the memory and the list that is being made. *)
Record dinv (x : pager) (bs Lst Prv Old : blocks) (image used : list Z) : Prop := {
  di_pager : pager_inv x bs;
  di_count : disk_page_count (superblock x) < 2 ^ 32 - 1;
  di_super : exists sb, disk x !! sb_default_page_number = Some (BSuper sb) /\ same_fixed (superblock x) sb;
  di_last : listed (disk x) (length image) (last_snap (superblock x)) Lst;
  di_prev : listed (disk x) (length image) (prev_snap (superblock x)) Prv;
  di_order : prev_snap (superblock x) <> 0 -> last_snap (superblock x) <> 0;
  di_nodup : NoDup (used ++ all_free x bs);
  di_ok : Forall (page_ok (superblock x)) (used ++ all_free x bs);
  di_lists : Forall (fun q => page_ok (superblock x) q /\ q ∉ used ++ all_free x bs)
    (list_pages Lst ++ list_pages Prv ++ list_pages Old);
  di_image : forall i c, image !! i = Some c -> zero_or_data (disk x) (entry Lst i) = Some c;
}.

Lemma entry_page l i : entry l i = 0 \/ entry l i ∈ list_pages l.
Proof.
  unfold entry. destruct (entries l !! i) as [q|] eqn:E; simpl; [|by left].
  destruct (decide (q = 0)) as [|Hq]; [by left|right]. apply list_elem_of_lookup_2 in E.
  apply list_elem_of_bind in E as ([a b] & Hq' & Hb). apply list_elem_of_bind. exists (a, b). split; [|done].
  right. by apply list_elem_of_filter.
Qed.

Lemma block_page l q : q ∈ l.*1 -> q ∈ list_pages l.
Proof.
  intros ([a b] & -> & H)%list_elem_of_fmap. apply list_elem_of_bind. exists (a, b). split; [by left|done].
Qed.

Lemma zero_or_data_same d d' q : (q <> 0 -> d' !! q = d !! q) -> zero_or_data d' q = zero_or_data d q.
Proof. unfold zero_or_data, read_data. intros H. destruct (q =? 0) eqn:E; [done|]. rewrite H; [done|lia]. Qed.

Lemma listed_same d d' n root l :
  listed d n root l -> (forall q, q ∈ list_pages l -> d' !! q = d !! q) -> listed d' n root l.
Proof.
  unfold listed. destruct (root =? 0); [done|]. intros (H1 & H2 & H3) Hd. split_and!; try done.
  eapply plist_same; [done|]. intros q Hq. by apply Hd, block_page.
Qed.

(** A page that is not free and no superblock stays when only [ch] is written. *)
Lemma pframe_same ch x x' q :
  pframe ch x x' -> page_ok (superblock x) q -> q ∉ ch -> disk x' !! q = disk x !! q.
Proof. intros [H _ _] (_ & _ & Hq) Hc. by apply H. Qed.

(** Writes to [used] and free pages, and allocation. *)
Lemma dinv_frame x bs Lst Prv Old image used x' bs' used' ch :
  dinv x bs Lst Prv Old image used -> pager_inv x' bs' -> pframe ch x x' -> ch ⊆ used ++ all_free x bs ->
  used' ++ all_free x' bs' ≡ₚ used ++ all_free x bs -> dinv x' bs' Lst Prv Old image used'.
Proof.
  intros [D1 D2 D3 D4 D5 D6 D7 D8 D9 D10] Hi HF Hch HP. pose proof HF as [F1 F2 F3].
  pose proof F2 as (_ & _ & _ & Ec & _ & El & Ep).
  assert (forall q, q ∈ list_pages Lst ++ list_pages Prv ++ list_pages Old -> disk x' !! q = disk x !! q) as Hsame.
  { intros q Hq. rewrite list.Forall_forall in D9. destruct (D9 q Hq) as [Hok Hn]. eapply pframe_same; [done..|]. intros H%Hch. done. }
  split; try done.
  - by rewrite Ec.
  - destruct D3 as (sb & Hsb & Hfix). assert (sb_default_page_number ∉ ch) as Hnc.
    { intros H%Hch. rewrite list.Forall_forall in D8. apply D8 in H as (_ & _ & H). apply H. by left. }
    destruct (F3 _ Hnc) as [E|(sb' & E & Hfix')]; [by left| |].
    + exists sb. rewrite E. split; [done|]. destruct Hfix as (G1 & G2 & G3 & G4 & G5 & G6 & G7).
      destruct F2 as (K1 & K2 & K3 & K4 & K5 & K6 & K7). split_and!; congruence.
    + exists sb'. split; [done|]. destruct Hfix' as (G1 & G2 & G3 & G4 & G5 & G6 & G7).
      destruct F2 as (K1 & K2 & K3 & K4 & K5 & K6 & K7). split_and!; congruence.
  - rewrite El. eapply listed_same; [done|]. intros q Hq. apply Hsame. clear - Hq. in_list.
  - rewrite Ep. eapply listed_same; [done|]. intros q Hq. apply Hsame. clear - Hq. in_list.
  - by rewrite El, Ep.
  - by rewrite HP.
  - rewrite HP. eapply list.Forall_impl; [done|]. intros q. by apply page_ok_fixed.
  - eapply list.Forall_impl; [done|]. intros q [Hq1 Hq2]. rewrite HP. split; [by eapply page_ok_fixed|done].
  - intros i c Hc. rewrite <-(D10 i c Hc). apply zero_or_data_same. intros H0.
    destruct (entry_page Lst i) as [|Hin]; [done|]. apply Hsame. clear - Hin. in_list.
Qed.

(** One page of memory changes its pages on disk. *)
Lemma owned_split_at (f : nat -> vm_page -> list Z) ps i p :
  ps !! i = Some p -> exists rest, concat (imap f ps) ≡ₚ f i p ++ rest /\
    forall p', concat (imap f (<[i := p']> ps)) ≡ₚ f i p' ++ rest.
Proof.
  revert f i. induction ps as [|a ps IH]; intros f i Hi; [done|]. destruct i as [|i]; simpl in *.
  - injection Hi as ->. exists (concat (imap (f ∘ S) ps)). done.
  - destruct (IH (f ∘ S) i Hi) as (rest & H1 & H2). exists (f 0%nat a ++ rest). split.
    + rewrite H1. unfold compose. solve_Permutation.
    + intros p'. rewrite (H2 p'). unfold compose. solve_Permutation.
Qed.

Lemma owned_split l ps i p :
  ps !! i = Some p -> exists rest, owned l ps ≡ₚ own (entry l i) p ++ rest /\
    forall p', owned l (<[i := p']> ps) ≡ₚ own (entry l i) p' ++ rest.
Proof. apply (owned_split_at (fun i p => own (entry l i) p)). Qed.

Lemma owned_in l ps i p q : ps !! i = Some p -> q ∈ own (entry l i) p -> q ∈ owned l ps.
Proof. intros Hi Hq. destruct (owned_split l ps i p Hi) as (rest & -> & _). apply elem_of_app. by left. Qed.

Lemma owned_elem (f : nat -> vm_page -> list Z) ps q :
  q ∈ concat (imap f ps) -> exists i p, ps !! i = Some p /\ q ∈ f i p.
Proof.
  revert f. induction ps as [|a ps IH]; intros f Hq; [by apply not_elem_of_nil in Hq|].
  simpl in Hq. apply elem_of_app in Hq as [Hq|Hq]; [by exists 0%nat, a|].
  destruct (IH _ Hq) as (i & p & Hi & Hp). by exists (S i), p.
Qed.

Lemma owned_disjoint l ps i j p p' q :
  NoDup (owned l ps) -> ps !! i = Some p -> ps !! j = Some p' -> i <> j ->
  q ∈ own (entry l i) p -> q ∉ own (entry l j) p'.
Proof.
  intros Hnd Hi Hj Hij Hq Hq'. destruct (owned_split l ps i p Hi) as (rest & HP & Hup).
  rewrite HP in Hnd. apply list.NoDup_app in Hnd as (_ & Hd & _). apply (Hd q Hq).
  specialize (Hup vm_page_init). assert (q ∈ owned l (<[i := vm_page_init]> ps)) as Hin.
  { eapply owned_in; [by rewrite list_lookup_insert_ne|done]. }
  rewrite Hup in Hin. apply elem_of_app in Hin as [Hin|Hin]; [|done]. by apply not_elem_of_nil in Hin.
Qed.

(** ** Pages *)

(** How far the snapshot is with a page: not begun or complete; it may not be written,
    kicked out and finalized; its entry is in the new list; its data is on disk. *)
Inductive stage := Normal | Open (kicked final : bool) | Written | Committed.

Definition stage_of (pc : snap_pc) (i : nat) : stage :=
  match pc with
  | Kick2 k => Open (bool_decide (i < k)%nat) false
  | Finalize k => Open true (bool_decide (i < k)%nat)
  | Unset | Create => Open true true
  | Save1 k _ | Save2 k _ | Save3 k _ => if decide (i < k)%nat then Written else Open true true
  | Finish _ => Written
  | Commit k _ => if decide (i < k)%nat then Committed else Written
  | Super _ => Committed
  | Idle | Kick1 _ | Mark | Free _ | Update => Normal
  end.
Definition in_snap (pc : snap_pc) : bool := match pc with Kick2 _ | Finalize _ | Unset => true | _ => false end.

Section Page.
Context (d : gmap Z block) (m im l : Z).
Implicit Types p : vm_page.

Definition holds (q c : Z) : Prop := zero_or_data d q = Some c.

(** Disk page [q] has the image of the page, or a copy of it is on its way there. *)
Definition snapped (q : Z) (p : vm_page) : Prop :=
  match pager_io p with
  | Some (mkIo (Cow c) q' _) => q' = q /\ c = Some im /\ q <> 0 /\ q <> l
  | _ => holds q im
  end.
Definition no_cow (p : vm_page) : Prop := match pager_io p with Some (mkIo (Cow _) _ _) => False | _ => True end.
Definition paging_out (p : vm_page) : Prop := match pager_io p with Some (mkIo Pageout _ _) => True | _ => False end.

(** A page of which the snapshot has nothing yet. *)
Definition unmade (kicked : bool) (p : vm_page) : Prop :=
  (flag_phys_mem p = true -> flag_phys_protect p = true) /\ write_waiting p = false /\
  (kicked = true -> flag_phys_dirty p = true -> paging_out p).

Definition stage_ok (st : stage) (p : vm_page) : Prop :=
  match st with
  | Normal => make_page p = None /\ default 0 (prev_page p) = l /\ no_cow p
  | Open kicked final =>
      match make_page p with
      | Some q => snapped q p /\ (prev_page p = None \/ default 0 (prev_page p) = l)
      | None =>
          final = false /\ m = im /\ default 0 (prev_page p) = l /\ no_cow p /\ unmade kicked p
      end
  | Written => make_page p = None /\ exists q, prev_page p = Some q /\ snapped q p
  | Committed => make_page p = None /\ no_cow p /\ exists q, prev_page p = Some q /\ holds q im
  end.

(** The page, its request and the queues, for the content [m] that a program sees. *)
Definition io_ok (on_clean on_dirty : bool) (p : vm_page) : Prop :=
  match pager_io p with
  | None =>
      if flag_phys_mem p then
        content p = Some m /\ mapping p = Some (if flag_phys_protect p then RO else RW) /\
        on_clean = negb (flag_phys_dirty p) /\ on_dirty = flag_phys_dirty p /\
        (flag_phys_dirty p = false -> flag_phys_protect p = negb (write_waiting p)) /\
        (write_waiting p = true -> flag_phys_dirty p = false)
      else
        mapping p = None /\ on_clean = false /\ on_dirty = false /\ flag_phys_dirty p = false /\ write_waiting p = false
  | Some (mkIo Pageout q _) =>
      flag_phys_mem p = true /\ flag_phys_protect p = true /\ flag_phys_dirty p = true /\ content p = Some m /\
      mapping p = Some RO /\ on_clean = false /\ on_dirty = false /\ curr_page p = Some q /\ write_waiting p = false
  | Some (mkIo (Cow _) q _) =>
      flag_phys_mem p = true /\ flag_phys_protect p = false /\ flag_phys_dirty p = true /\ content p = Some m /\
      mapping p = Some RW /\ on_clean = false /\ on_dirty = true /\ curr_page p = None /\ write_waiting p = false
  | Some (mkIo Pagein q _) =>
      flag_phys_mem p = true /\ flag_phys_protect p = negb (write_waiting p) /\ flag_phys_dirty p = false /\
      mapping p = None /\ on_clean = false /\ on_dirty = false /\ q = backing p /\ q <> 0
  end.

(** Only a snapshot protects a page that stays dirty. *)
Definition dirty_ok (st : stage) (p : vm_page) : Prop :=
  pager_io p = None -> flag_phys_dirty p = true -> flag_phys_protect p = true ->
  make_page p = None /\ exists kicked, st = Open kicked false.

Record pinv (st : stage) (on_clean on_dirty : bool) (p : vm_page) : Prop := {
  pi_clean : flag_phys_dirty p = false -> holds (backing p) m;
  pi_io : io_ok on_clean on_dirty p;
  pi_stage : stage_ok st p;
  pi_dirty : dirty_ok st p;
}.
End Page.

(** A step that leaves what the page has for the snapshot. *)
Lemma snapped_no_cow d im l q p : no_cow p -> snapped d im l q p <-> holds d q im.
Proof. unfold no_cow, snapped. by destruct (pager_io p) as [[[] ? ?]|]. Qed.

Lemma stage_same d m im l st p p' :
  stage_ok d m im l st p -> make_page p' = make_page p -> prev_page p' = prev_page p -> no_cow p -> no_cow p' ->
  (forall kicked, st = Open kicked false -> make_page p = None -> unmade kicked p -> unmade kicked p') ->
  stage_ok d m im l st p'.
Proof.
  intros H Em Ep Hc Hc' Hu. unfold stage_ok in *. rewrite Em, Ep. destruct st; [naive_solver| | |naive_solver].
  - destruct (make_page p) as [q|]; [|naive_solver]. rewrite snapped_no_cow in H by done. by rewrite snapped_no_cow.
  - destruct H as (? & q & ? & H). rewrite snapped_no_cow in H by done. split; [done|]. exists q. by rewrite snapped_no_cow.
Qed.

(** The pages on disk that a page of memory looks at. *)
Definition seen (p : vm_page) : list Z :=
  option_list (curr_page p) ++ option_list (make_page p) ++ option_list (prev_page p).
Lemma seen_own l p q : q ∈ seen p -> q = 0 \/ q = l \/ q ∈ own l p.
Proof.
  unfold seen, own, own_slot. destruct (curr_page p), (make_page p), (prev_page p); simpl;
    repeat case_decide; set_solver.
Qed.
Lemma backing_seen p : backing p = 0 \/ backing p ∈ seen p.
Proof.
  unfold backing, seen. destruct (curr_page p), (make_page p), (prev_page p); simpl; set_solver.
Qed.

Lemma pinv_same d d' m im l st c w p :
  pinv d m im l st c w p -> (forall q, q ∈ seen p -> q <> 0 -> d' !! q = d !! q) -> pinv d' m im l st c w p.
Proof.
  intros [H1 H2 H3 H4] Hd. assert (forall q x, q = 0 \/ q ∈ seen p -> holds d q x -> holds d' q x) as Hh.
  { intros q x Hq H. unfold holds. rewrite <-H. apply zero_or_data_same. intros H0. destruct Hq as [|Hq]; [done|auto]. }
  assert (forall q, q ∈ seen p -> snapped d im l q p -> snapped d' im l q p) as Hs.
  { unfold snapped. intros q Hq. destruct (pager_io p) as [[[] ? ?]|]; naive_solver. }
  split; [|done| |done].
  - intros Hc. apply Hh; [apply backing_seen|auto].
  - unfold stage_ok in *. destruct st; try done.
    + destruct (make_page p) as [q|] eqn:E; [|done]. destruct H3 as [H3 ?]. split; [|done]. apply Hs; [|done].
      unfold seen. rewrite E. set_solver.
    + destruct H3 as (? & q & E & H3). split; [done|]. exists q. split; [done|]. apply Hs; [|done]. unfold seen. rewrite E. set_solver.
    + destruct H3 as (? & ? & q & E & H3). split_and!; try done. exists q. split; [done|]. apply Hh; [|done].
      right. unfold seen. rewrite E. set_solver.
Qed.

(** ** The whole state *)

(** The entries of the new list are those that the pages have. *)
Definition entries_of (ps : list vm_page) (ws : list Z) : Prop :=
  forall i q, ws !! i = Some q -> exists p, ps !! i = Some p /\ prev_page p = Some q.

(** The blocks [bl] of the list that is being made, and the snapshot to be released. *)
Definition pc_ok (pc : snap_pc) (x : pager) (ps : list vm_page) (Old bl : blocks) (new : list Z) : Prop :=
  match pc with
  | Save1 k l => exists cs ws, new = own_pages l cs /\ writing (disk x) l cs ws /\ length ws = k /\ (k <= length ps)%nat /\ entries_of ps ws
  | Save2 k l => exists cs ws, new = own_pages l cs /\ writing (disk x) l cs ws /\ length ws = k /\ (k < length ps)%nat /\ entries_of ps ws
  | Save3 k l => exists cs ws p q, new = own_pages l cs /\ writing (disk x) l cs (ws ++ [q]) /\ length ws = k /\ entries_of ps ws /\
      ps !! k = Some p /\ make_page p = Some q
  | Finish l => exists cs ws, new = own_pages l cs /\ writing (disk x) l cs ws /\ length ws = length ps /\ entries_of ps ws
  | Commit _ root | Super root =>
      new = bl.*1 /\ plist (disk x) root bl /\ length (entries bl) = length ps /\ entries_of ps (entries bl)
  | Free root => new = [] /\ listed (disk x) (length ps) root Old /\ (root <> 0 -> prev_snap (superblock x) <> 0)
  | _ => new = []
  end /\ match pc with Free _ => True | _ => Old = [] end.

Record sinv (s : vm_map) (g : ghost) (bs Lst Prv Old bl : blocks) (new : list Z) : Prop := {
  si_disk : dinv (pg s) bs Lst Prv Old (saved g) (new ++ owned Lst (pages s));
  si_pc : pc_ok (snapper s) (pg s) (pages s) Old bl new;
  si_snap : is_in_snapshot_process s = in_snap (snapper s);
  si_mem : length (mem g) = length (pages s);
  si_marked : length (marked g) = length (pages s);
  si_saved : length (saved g) = length (pages s);
  si_pages : forall i p m im, pages s !! i = Some p -> mem g !! i = Some m -> marked g !! i = Some im ->
    pinv (disk (pg s)) m im (entry Lst i) (stage_of (snapper s) i)
      (bool_decide (i ∈ clean_q s)) (bool_decide (i ∈ dirty_q s)) p;
}.
Definition inv (s : vm_map) (g : ghost) : Prop := exists bs Lst Prv Old bl new, sinv s g bs Lst Prv Old bl new.

Lemma writing_same d d' l cs ws :
  writing d l cs ws -> (forall q, q ∈ own_pages l cs -> d' !! q = d !! q) -> writing d' l cs ws.
Proof.
  intros [W1 W2 W3 W4 W5 W6 W7 W8] Hd. split; try done. eapply seg_same; [done|]. intros q Hq. apply Hd. apply elem_of_app. by left.
Qed.

(** The pages of lists and other pages are not among the free ones or those of one page. *)
Lemma used_parts x bs Lst Prv Old image new ps i p :
  dinv x bs Lst Prv Old image (new ++ owned Lst ps) -> ps !! i = Some p ->
  (forall q, q ∈ new -> page_ok (superblock x) q /\ q ∉ own (entry Lst i) p /\ q ∉ all_free x bs) /\
  (forall j p' q, ps !! j = Some p' -> j <> i -> q ∈ own (entry Lst j) p' ->
    page_ok (superblock x) q /\ q ∉ own (entry Lst i) p /\ q ∉ all_free x bs) /\
  (forall q, q ∈ list_pages Lst ++ list_pages Prv ++ list_pages Old ->
    page_ok (superblock x) q /\ q ∉ own (entry Lst i) p /\ q ∉ all_free x bs) /\
  (forall q, q ∈ own (entry Lst i) p -> page_ok (superblock x) q /\ q ∉ all_free x bs).
Proof.
  intros [_ _ _ _ _ _ D7 D8 D9 _] Hi. rewrite list.Forall_forall in D8, D9.
  pose proof (fun q => owned_in Lst ps i p q Hi) as Hin. apply list.NoDup_app in D7 as (Hnd & Hfree & _).
  apply list.NoDup_app in Hnd as (_ & Hnew & Hown). split_and!.
  - intros q Hq. assert (q ∈ new ++ owned Lst ps) as Hu by in_list. split_and!; [apply D8; in_list| |by apply Hfree].
    intros H%Hin. by eapply Hnew.
  - intros j p' q Hj Hij Hq. pose proof (owned_in _ _ _ _ _ Hj Hq) as Hu. assert (q ∈ new ++ owned Lst ps) as Hu' by (clear - Hu; in_list).
    split_and!; [apply D8; clear - Hu'; in_list| |by apply Hfree]. by eapply owned_disjoint.
  - intros q Hq. destruct (D9 q Hq) as [H1 H2]. specialize (Hin q). clear - H1 H2 Hin. split_and!; [done|in_list..].
  - intros q Hq%Hin. assert (q ∈ new ++ owned Lst ps) as Hu by (clear - Hq; in_list). split; [apply D8; clear - Hu; in_list|by apply Hfree].
Qed.

Lemma entries_of_insert ps ws i p p' :
  entries_of ps ws -> ps !! i = Some p -> prev_page p' = prev_page p -> entries_of (<[i := p']> ps) ws.
Proof.
  intros H Hi E j q Hj. destruct (H j q Hj) as (a & Ha & Hq). destruct (decide (i = j)) as [->|].
  - exists p'. rewrite list_lookup_insert_eq by (by eapply lookup_lt_Some). split; [done|]. congruence.
  - exists a. by rewrite list_lookup_insert_ne.
Qed.

Lemma pc_ok_same pc x x' ps Old bl new i p p' :
  pc_ok pc x ps Old bl new -> (forall q, q ∈ new ++ list_pages Old -> disk x' !! q = disk x !! q) ->
  same_fixed (superblock x) (superblock x') -> ps !! i = Some p ->
  (make_page p' = make_page p /\ prev_page p' = prev_page p) \/ in_snap pc = true -> pc_ok pc x' (<[i := p']> ps) Old bl new.
Proof.
  intros [H HOld] Hd (_ & _ & _ & _ & _ & _ & Ep) Hi Hp. split; [|done].
  assert (forall ws, entries_of ps ws -> in_snap pc = false -> entries_of (<[i := p']> ps) ws) as He.
  { intros ws He Hs. destruct Hp as [[_ Hp]|]; [by eapply entries_of_insert|congruence]. }
  destruct pc; simpl in *; rewrite ?length_insert; try done.
  - destruct H as (cs & ws & -> & HW & H1 & H2 & H3). exists cs, ws. split_and!; auto. eapply writing_same; [done|]. intros; apply Hd, elem_of_app; by left.
  - destruct H as (cs & ws & -> & HW & H1 & H2 & H3). exists cs, ws. split_and!; auto. eapply writing_same; [done|]. intros; apply Hd, elem_of_app; by left.
  - destruct H as (cs & ws & a & q & -> & HW & H1 & H2 & H3 & H4). destruct Hp as [[Hm _]|]; [|done].
    exists cs, ws, (if decide (i = k) then p' else a), q. split_and!; auto; [eapply writing_same; [done|]; intros; apply Hd, elem_of_app; by left| |].
    + case_decide as E; [rewrite <-E; by rewrite list_lookup_insert_eq by (by eapply lookup_lt_Some)|by rewrite list_lookup_insert_ne].
    + case_decide; [|done]. congruence.
  - destruct H as (cs & ws & -> & HW & H1 & H2). exists cs, ws. split_and!; auto. eapply writing_same; [done|]. intros; apply Hd, elem_of_app; by left.
  - destruct H as (-> & H1 & H2 & H3). split_and!; auto. eapply plist_same; [done|]. intros; apply Hd, elem_of_app; by left.
  - destruct H as (-> & H1 & H2 & H3). split_and!; auto. eapply plist_same; [done|]. intros; apply Hd, elem_of_app; by left.
  - destruct H as (-> & H1 & H2). rewrite Ep. split_and!; auto. eapply listed_same; [done|]. intros; apply Hd, elem_of_app; by right.
Qed.

(** ** Steps of one page *)

Lemma mem_same g i m : mem g !! i = Some m -> mkGhost (<[i := m]> (mem g)) (marked g) (saved g) = g.
Proof. intros H. rewrite list_insert_id by done. by destruct g. Qed.

Section Step.
Context (s : vm_map) (g : ghost) (bs Lst Prv Old bl : blocks) (new : list Z) (i : nat) (p : vm_page) (m im : Z).
Context (HS : sinv s g bs Lst Prv Old bl new).
Context (Hi : pages s !! i = Some p) (Hm : mem g !! i = Some m) (Him : marked g !! i = Some im).
Local Abbreviation l := (entry Lst i).

(** The page, its content, the queues and free pages of the disk change; on disk only
    pages of this page are written. *)
Lemma sinv_page_pc p' m' x' bs' ch cq dq pc' :
  pager_inv x' bs' -> pframe ch (pg s) x' -> ch ⊆ own l p ->
  own l p' ++ all_free x' bs' ≡ₚ own l p ++ all_free (pg s) bs ->
  (forall j, j <> i -> (j ∈ cq <-> j ∈ clean_q s) /\ (j ∈ dq <-> j ∈ dirty_q s)) ->
  ((forall q, q ∈ new ++ list_pages Old -> disk x' !! q = disk (pg s) !! q) -> pc_ok pc' x' (<[i := p']> (pages s)) Old bl new) ->
  in_snap pc' = in_snap (snapper s) -> (forall j, j <> i -> stage_of pc' j = stage_of (snapper s) j) ->
  pinv (disk x') m' im l (stage_of pc' i) (bool_decide (i ∈ cq)) (bool_decide (i ∈ dq)) p' ->
  sinv (mkVm x' (<[i := p']> (pages s)) cq dq (is_in_snapshot_process s) pc')
    (mkGhost (<[i := m']> (mem g)) (marked g) (saved g)) bs' Lst Prv Old bl new.
Proof.
  intros Hx HF Hch HP Hq Hpc Hsn Hst Hpi. destruct HS as [S1 S2 S3 S4 S5 S6 S7].
  destruct (used_parts _ _ _ _ _ _ _ _ _ _ S1 Hi) as (U1 & U2 & U3 & U4).
  assert (forall q, q ∈ new ++ list_pages Lst ++ list_pages Prv ++ list_pages Old -> disk x' !! q = disk (pg s) !! q) as Hsame.
  { intros q Hq'. apply elem_of_app in Hq' as [Hq'|Hq']; [destruct (U1 q Hq') as (O1 & O2 & _)|destruct (U3 q Hq') as (O1 & O2 & _)];
      (eapply pframe_same; [done..|by intros H%Hch]). }
  split; simpl; rewrite ?length_insert; try done.
  - destruct (owned_split Lst (pages s) i p Hi) as (rest & P1 & P2). eapply dinv_frame; [exact S1|done..| |].
    + intros q Hq'%Hch. rewrite P1. clear - Hq'. in_list.
    + rewrite P1, P2. rewrite <-!app_assoc. apply Permutation_app_head.
      rewrite (Permutation_app_comm rest (all_free x' bs')), (Permutation_app_comm rest (all_free (pg s) bs)), !app_assoc.
      by rewrite HP.
  - apply Hpc. intros q Hq'. apply Hsame. clear - Hq'. in_list.
  - congruence.
  - intros j p0 m0 im0 Hj Hm0 Him0. destruct (decide (j = i)) as [->|Hij].
    + rewrite list_lookup_insert_eq in Hj by (by eapply lookup_lt_Some).
      rewrite list_lookup_insert_eq in Hm0 by (by eapply lookup_lt_Some). simplify_eq. done.
    + rewrite list_lookup_insert_ne in Hj by done. rewrite list_lookup_insert_ne in Hm0 by done. destruct (Hq j Hij) as [Q1 Q2].
      rewrite (bool_decide_ext _ _ Q1), (bool_decide_ext _ _ Q2), (Hst j Hij). eapply pinv_same; [by apply S7|].
      intros q Hs H0. destruct (seen_own (entry Lst j) p0 q Hs) as [|[->|Ho]]; [done| |].
      * destruct (entry_page Lst j) as [|Hin]; [done|]. apply Hsame. clear - Hin. in_list.
      * destruct (U2 j p0 q Hj Hij Ho) as (O1 & O2 & _). eapply pframe_same; [done..|by intros H%Hch].
Qed.

Lemma sinv_page p' m' x' bs' ch cq dq :
  pager_inv x' bs' -> pframe ch (pg s) x' -> ch ⊆ own l p ->
  own l p' ++ all_free x' bs' ≡ₚ own l p ++ all_free (pg s) bs ->
  (forall j, j <> i -> (j ∈ cq <-> j ∈ clean_q s) /\ (j ∈ dq <-> j ∈ dirty_q s)) ->
  (make_page p' = make_page p /\ prev_page p' = prev_page p) \/ in_snap (snapper s) = true ->
  pinv (disk x') m' im l (stage_of (snapper s) i) (bool_decide (i ∈ cq)) (bool_decide (i ∈ dq)) p' ->
  sinv (mkVm x' (<[i := p']> (pages s)) cq dq (is_in_snapshot_process s) (snapper s))
    (mkGhost (<[i := m']> (mem g)) (marked g) (saved g)) bs' Lst Prv Old bl new.
Proof.
  intros Hx HF Hch HP Hq Hpc Hpi. eapply sinv_page_pc; try done.
  intros Hd. eapply pc_ok_same; [apply HS|done|apply HF|done..].
Qed.

(** The same without a change of content and disk. *)
Lemma sinv_update p' cq dq :
  own l p' ≡ₚ own l p ->
  (forall j, j <> i -> (j ∈ cq <-> j ∈ clean_q s) /\ (j ∈ dq <-> j ∈ dirty_q s)) ->
  (make_page p' = make_page p /\ prev_page p' = prev_page p) \/ in_snap (snapper s) = true ->
  pinv (disk (pg s)) m im l (stage_of (snapper s) i) (bool_decide (i ∈ cq)) (bool_decide (i ∈ dq)) p' ->
  sinv (mkVm (pg s) (<[i := p']> (pages s)) cq dq (is_in_snapshot_process s) (snapper s)) g bs Lst Prv Old bl new.
Proof.
  intros HP Hq Hpc Hpi. rewrite <-(mem_same g i m Hm). apply (sinv_page p' m (pg s) bs []); try done.
  - apply HS.
  - apply pframe_refl.
  - intros q Hq'. by apply not_elem_of_nil in Hq'.
  - by rewrite HP.
Qed.

Lemma sinv_pinv : pinv (disk (pg s)) m im l (stage_of (snapper s) i) (bool_decide (i ∈ clean_q s)) (bool_decide (i ∈ dirty_q s)) p.
Proof. by apply HS. Qed.
End Step.
Arguments sinv_page_pc {s g bs Lst Prv Old bl new i p m im}.
Arguments sinv_page {s g bs Lst Prv Old bl new i p m im}.
Arguments sinv_update {s g bs Lst Prv Old bl new i p m im}.
Arguments sinv_pinv {s g bs Lst Prv Old bl new i p m im}.

(** The snapshot thread goes on. *)
Lemma sinv_move s g bs Lst Prv Old bl new pc' bl' b :
  sinv s g bs Lst Prv Old bl new -> pc_ok pc' (pg s) (pages s) Old bl' new -> b = in_snap pc' ->
  (forall i p m im c w, pages s !! i = Some p -> pinv (disk (pg s)) m im (entry Lst i) (stage_of (snapper s) i) c w p ->
    pinv (disk (pg s)) m im (entry Lst i) (stage_of pc' i) c w p) ->
  sinv (mkVm (pg s) (pages s) (clean_q s) (dirty_q s) b pc') g bs Lst Prv Old bl' new.
Proof. intros [S1 S2 S3 S4 S5 S6 S7] Hpc -> Hst. split; try done. simpl. intros. apply Hst; [done|]. by apply S7. Qed.

Lemma sinv_stage s g bs Lst Prv Old bl new pc' bl' :
  sinv s g bs Lst Prv Old bl new -> pc_ok pc' (pg s) (pages s) Old bl' new -> in_snap (snapper s) = in_snap pc' ->
  (forall i, (i < length (pages s))%nat -> stage_of pc' i = stage_of (snapper s) i) ->
  sinv (set_snapper pc' s) g bs Lst Prv Old bl' new.
Proof.
  intros HS Hpc Hsn Hst. eapply sinv_move; [done..| |].
  - rewrite <-Hsn. apply HS.
  - intros i p m im c w Hi Hp. rewrite Hst; [done|by eapply lookup_lt_Some].
Qed.

(** The pager works for the list that is being made. *)
Lemma sinv_pager s g bs Lst Prv Old bl new x' bs' ch new' pc' bl' :
  sinv s g bs Lst Prv Old bl new -> pager_inv x' bs' -> pframe ch (pg s) x' -> ch ⊆ new ++ all_free (pg s) bs ->
  new' ++ all_free x' bs' ≡ₚ new ++ all_free (pg s) bs -> pc_ok pc' x' (pages s) Old bl' new' ->
  in_snap (snapper s) = in_snap pc' -> (forall i, (i < length (pages s))%nat -> stage_of pc' i = stage_of (snapper s) i) ->
  sinv (set_snapper pc' (set_pg x' s)) g bs' Lst Prv Old bl' new'.
Proof.
  intros HS Hx HF Hch HP Hpc Hsn Hst. pose proof HS as [S1 S2 S3 S4 S5 S6 S7]. split; simpl; try done.
  - eapply dinv_frame; [done..| |].
    + intros q Hq%Hch. clear - Hq. in_list.
    + rewrite <-!app_assoc. rewrite (Permutation_app_comm (owned Lst (pages s)) (all_free x' bs')).
      rewrite (Permutation_app_comm (owned Lst (pages s)) (all_free (pg s) bs)), !app_assoc. by rewrite HP.
  - by rewrite <-Hsn.
  - intros i p m im Hi Hm Him. rewrite Hst by (by eapply lookup_lt_Some). eapply pinv_same; [by apply S7|].
    destruct (used_parts _ _ _ _ _ _ _ _ _ _ S1 Hi) as (U1 & _ & U3 & U4). intros q Hq H0.
    assert (page_ok (superblock (pg s)) q /\ q ∉ new /\ q ∉ all_free (pg s) bs) as (Hok & Hn & Hf).
    { destruct (seen_own (entry Lst i) p q Hq) as [|[->|Ho]]; [done| |].
      - destruct (entry_page Lst i) as [|Hin]; [done|].
        destruct (U3 (entry Lst i)) as (K1 & _ & K3); [clear - Hin; in_list|]. split_and!; try done.
        intros Hin'. pose proof (di_lists _ _ _ _ _ _ _ S1) as DL. rewrite list.Forall_forall in DL.
        destruct (DL (entry Lst i)) as [_ DL']; [clear - Hin; in_list|]. apply DL'. clear - Hin'. in_list.
      - destruct (U4 q Ho). split_and!; try done. intros Hin. by destruct (U1 q Hin) as (_ & ? & _). }
    eapply pframe_same; [done..|]. intros Hc%Hch. clear - Hc Hn Hf. in_list.
Qed.
