(* ===== verification/SnapOps.v ===== *)
(** * Paging keeps the invariant

    Every step of a thread, of the disk and of the pager on one page. *)

From S2P Require Import Prelude Amap Pager PagerSpec Snap SnapInv.

(** The only reasons to panic. *)
Definition no_space (msg : string) : Prop :=
  msg = "can't alloc disk page in req pageout" \/ msg = "out of disk!" \/ msg = "out of disk space in pagelist".

(** ** Running the operations of one page *)

(** The state with page [i], the pager and the queues replaced. *)
Definition with_page (s : vm_map) (i : nat) (p : vm_page) (x : pager) (cq dq : list nat) : vm_map :=
  mkVm x (<[i := p]> (pages s)) cq dq (is_in_snapshot_process s) (snapper s).

Lemma alter_insert {A} (f : A -> A) i x (l : list A) : alter f i (<[i := x]> l) = <[i := f x]> l.
Proof. revert i. induction l as [|y l IH]; intros [|i]; [done..|]. simpl. f_equal. apply IH. Qed.

Lemma with_page_id s i p : pages s !! i = Some p -> with_page s i p (pg s) (clean_q s) (dirty_q s) = s.
Proof. intros H. unfold with_page. rewrite list_insert_id by done. by destruct s. Qed.

Lemma with_page_twice s i p p' x x' cq dq cq' dq' :
  with_page (with_page s i p x cq dq) i p' x' cq' dq' = with_page s i p' x' cq' dq'.
Proof. unfold with_page. simpl. by rewrite list_insert_insert_eq. Qed.

Section Run.
Context (s : vm_map) (i : nat) (Hi : (i < length (pages s))%nat).
Implicit Types (p : vm_page) (x : pager) (cq dq : list nat).

Lemma page_at p x cq dq (Q : vm_page -> vm_map -> Prop) :
  Q p (with_page s i p x cq dq) -> wpe no_space (page i) (with_page s i p x cq dq) Q.
Proof.
  intros H. unfold page. apply wp_wpe, wp_bind, wp_gets. simpl. rewrite list_lookup_insert_eq by done. by apply wp_ret.
Qed.
Lemma update_at f p x cq dq (Q : unit -> vm_map -> Prop) :
  Q tt (with_page s i (f p) x cq dq) -> wpe no_space (update i f) (with_page s i p x cq dq) Q.
Proof.
  intros H. unfold update. apply wp_wpe, wp_modify. unfold set_pages, with_page. simpl.
  by rewrite alter_insert.
Qed.
Lemma put_clean_at p x cq dq (Q : unit -> vm_map -> Prop) :
  i ∉ cq -> i ∉ dq -> Q tt (with_page s i p x (cq ++ [i]) dq) -> wpe no_space (put_on_clean_q i) (with_page s i p x cq dq) Q.
Proof.
  intros H1 H2 HQ. unfold put_on_clean_q. apply wp_wpe, wp_bind, wp_gets, wp_bind, wp_assert; [|by apply wp_modify].
  unfold is_on_reclaim_q. simpl. by rewrite !bool_decide_eq_false_2.
Qed.
Lemma put_dirty_at p x cq dq (Q : unit -> vm_map -> Prop) :
  i ∉ cq -> i ∉ dq -> Q tt (with_page s i p x cq (i :: dq)) -> wpe no_space (put_on_dirty_q i) (with_page s i p x cq dq) Q.
Proof.
  intros H1 H2 HQ. unfold put_on_dirty_q. apply wp_wpe, wp_bind, wp_gets, wp_bind, wp_assert; [|by apply wp_modify].
  unfold is_on_reclaim_q. simpl. by rewrite !bool_decide_eq_false_2.
Qed.

Lemma elem_length {A} (a : A) q : a ∈ q -> (0 <? Z.of_nat (length q)) = true.
Proof. destruct q; [by intros ?%not_elem_of_nil|]. intros _. by apply Z.ltb_lt. Qed.

Lemma remove_clean_at p x cq dq (Q : unit -> vm_map -> Prop) :
  i ∈ cq -> Q tt (with_page s i p x (filter (fun j => j <> i) cq) dq) ->
  wpe no_space (remove_from_clean_q i) (with_page s i p x cq dq) Q.
Proof.
  intros H HQ. unfold remove_from_clean_q. apply wp_wpe, wp_bind, wp_gets, wp_bind, wp_assert; [by eapply elem_length|].
  apply wp_bind, wp_gets, wp_bind, wp_assert; [unfold is_on_reclaim_q; simpl; by rewrite bool_decide_eq_true_2|].
  simpl. rewrite bool_decide_eq_true_2 by done. by apply wp_modify.
Qed.
Lemma remove_dirty_at p x cq dq (Q : unit -> vm_map -> Prop) :
  i ∈ dq -> Q tt (with_page s i p x cq (filter (fun j => j <> i) dq)) ->
  wpe no_space (remove_from_dirty_q i) (with_page s i p x cq dq) Q.
Proof.
  intros H HQ. unfold remove_from_dirty_q. apply wp_wpe, wp_bind, wp_gets, wp_bind, wp_assert; [by eapply elem_length|].
  apply wp_bind, wp_gets, wp_bind, wp_assert; [unfold is_on_reclaim_q; simpl; rewrite (bool_decide_eq_true_2 (i ∈ dq)) by done; apply orb_true_r|].
  simpl. rewrite bool_decide_eq_true_2 by done. by apply wp_modify.
Qed.

Lemma pager_at {A} (m : M pager A) E p x cq dq (Q : A -> vm_map -> Prop) :
  wpe E m x (fun a x' => Q a (with_page s i p x' cq dq)) -> (forall msg, E msg -> no_space msg) ->
  wpe no_space (on_pager m) (with_page s i p x cq dq) Q.
Proof. intros H HE. unfold wpe, on_pager in *. simpl. destruct (m x); auto. Qed.
End Run.


Section Alloc.
Context (s : vm_map) (g : ghost) (bs Lst Prv Old bl : blocks) (new : list Z) (i : nat) (p : vm_page) (m im : Z).
Context (HS : sinv s g bs Lst Prv Old bl new).
Context (Hi : pages s !! i = Some p) (Hm : mem g !! i = Some m) (Him : marked g !! i = Some im).
Local Abbreviation l := (entry Lst i).

(** What a page sees on disk is not changed by writes elsewhere. *)
Lemma pinv_pager ch x' st c w p' :
  pframe ch (pg s) x' -> (forall q, q ∈ ch -> q ∉ seen p') -> (forall q, q ∈ seen p' -> q = 0 \/ q = l \/ q ∈ own l p) ->
  pinv (disk (pg s)) m im l st c w p' -> pinv (disk x') m im l st c w p'.
Proof.
  intros HF Hch Hs Hp. eapply pinv_same; [done|]. intros q Hq H0.
  destruct (used_parts _ _ _ _ _ _ _ _ _ _ (si_disk _ _ _ _ _ _ _ _ HS) Hi) as (_ & _ & U3 & U4).
  eapply pframe_same; [done| |intros H; by eapply Hch]. destruct (Hs q Hq) as [|[->|Ho]]; [done| |by apply U4].
  destruct (entry_page Lst i) as [|Hin]; [done|]. apply U3. clear - Hin. in_list.
Qed.

Lemma alloc_at p' cq dq (Q : option Z -> vm_map -> Prop) :
  (forall q x' bs', pager_inv x' bs' -> pframe [] (pg s) x' -> all_free (pg s) bs ≡ₚ q :: all_free x' bs' ->
    Q (Some q) (with_page s i p' x' cq dq)) ->
  (forall x', Q None (with_page s i p' x' cq dq)) ->
  wpe no_space (on_pager pager_alloc_page) (with_page s i p' (pg s) cq dq) Q.
Proof.
  intros HQ HN. eapply (pager_at _ _ _ (fun _ => False)); [|done]. apply wp_wpe.
  eapply wp_mono; [apply pager_alloc_ok, (di_pager _ _ _ _ _ _ _ (si_disk _ _ _ _ _ _ _ _ HS))|].
  intros [q|] x' (bs' & H1 & H2 & H3); [by eapply HQ|by apply HN].
Qed.
End Alloc.
Arguments pinv_pager {s g bs Lst Prv Old bl new i p m im}.
Arguments alloc_at {s g bs Lst Prv Old bl new i}.

(** A step leaves the invariant, the snapshot thread where it was, and page [i] with [R]. *)
Definition keeps (s : vm_map) (g : ghost) (i : nat) (R : vm_page -> Prop) (s' : vm_map) : Prop :=
  inv s' g /\ snapper s' = snapper s /\ exists p, pages s' = <[i := p]> (pages s) /\ R p.

Lemma keeps_with s g bs Lst Prv Old bl new i p x cq dq (R : vm_page -> Prop) :
  (i < length (pages s))%nat -> sinv (with_page s i p x cq dq) g bs Lst Prv Old bl new -> R p ->
  keeps s g i R (with_page s i p x cq dq).
Proof.
  intros Hi HS HR. split; [by exists bs, Lst, Prv, Old, bl, new|]. split; [done|]. by exists p.
Qed.

Lemma keeps_page s g i R s' p : keeps s g i R s' -> pages s !! i = Some p -> inv s' g /\ snapper s' = snapper s /\ exists p', pages s' !! i = Some p' /\ R p'.
Proof.
  intros (H1 & H2 & p' & E & HR) Hi. split_and!; try done. exists p'. rewrite E. split; [|done].
  by apply list_lookup_insert_eq, (lookup_lt_Some _ _ _ Hi).
Qed.

Lemma keeps_then s g i R R' s1 s2 : keeps s g i R s1 -> keeps s1 g i R' s2 -> keeps s g i R' s2.
Proof.
  intros (_ & E1 & p1 & P1 & _) (H2 & E2 & p2 & P2 & HR). split_and!; try done; [congruence|].
  exists p2. split; [|done]. by rewrite P2, P1, list_insert_insert_eq.
Qed.

Lemma keeps_same s g i p (R : vm_page -> Prop) : inv s g -> pages s !! i = Some p -> R p -> keeps s g i R s.
Proof. intros H Hi HR. split_and!; try done. exists p. by rewrite list_insert_id. Qed.

Lemma inv_at s g i p :
  inv s g -> pages s !! i = Some p -> exists bs Lst Prv Old bl new m im, sinv s g bs Lst Prv Old bl new /\
    mem g !! i = Some m /\ marked g !! i = Some im /\
    pinv (disk (pg s)) m im (entry Lst i) (stage_of (snapper s) i) (bool_decide (i ∈ clean_q s)) (bool_decide (i ∈ dirty_q s)) p.
Proof.
  intros (bs & Lst & Prv & Old & bl & new & HS) Hi. pose proof (lookup_lt_Some _ _ _ Hi) as Hlt.
  destruct (lookup_lt_is_Some_2 (mem g) i) as [m Hm]; [by rewrite (si_mem _ _ _ _ _ _ _ _ HS)|].
  destruct (lookup_lt_is_Some_2 (marked g) i) as [im Him]; [by rewrite (si_marked _ _ _ _ _ _ _ _ HS)|].
  exists bs, Lst, Prv, Old, bl, new, m, im. split_and!; try done. by apply HS.
Qed.

(** The queues of the other pages. *)
Lemma others_filter i (q : list nat) j : j <> i -> j ∈ filter (fun j => j <> i) q <-> j ∈ q.
Proof. intros H. rewrite list_elem_of_filter. naive_solver. Qed.
Lemma on_filter i (q : list nat) : bool_decide (i ∈ filter (fun j => j <> i) q) = false.
Proof. apply bool_decide_eq_false_2. rewrite list_elem_of_filter. naive_solver. Qed.
Lemma on_back i (q : list nat) : bool_decide (i ∈ q ++ [i]) = true.
Proof. apply bool_decide_eq_true_2. set_solver. Qed.
Lemma on_front i (q : list nat) : bool_decide (i ∈ i :: q) = true.
Proof. apply bool_decide_eq_true_2. set_solver. Qed.
Lemma off_filter i (q : list nat) : i ∉ filter (fun j => j <> i) q.
Proof. rewrite list_elem_of_filter. naive_solver. Qed.

Ltac queues := intros ?j ?Hj; rewrite ?elem_of_app, ?elem_of_cons, ?others_filter by done; rewrite ?elem_of_nil; tauto.
Ltac on_queues := rewrite ?on_filter, ?on_back, ?on_front.
(** Facts of the form [bool_decide P = b]. *)
Ltac decided :=
  repeat match goal with
  | H : bool_decide _ = true |- _ => apply bool_decide_eq_true_1 in H
  | H : bool_decide _ = false |- _ => apply bool_decide_eq_false_1 in H
  | H : true = bool_decide _ |- _ => symmetry in H
  | H : false = bool_decide _ |- _ => symmetry in H
  end.

(** ** Paging out *)

(** A dirty page gets a place on disk. *)
Lemma alloc_curr_ok s g bs Lst Prv Old bl new i p m im q x' bs' :
  sinv s g bs Lst Prv Old bl new -> pages s !! i = Some p -> mem g !! i = Some m -> marked g !! i = Some im ->
  pager_io p = None -> flag_phys_dirty p = true -> curr_page p = None ->
  pager_inv x' bs' -> pframe [] (pg s) x' -> all_free (pg s) bs ≡ₚ q :: all_free x' bs' ->
  sinv (with_page s i (set_curr (Some q) p) x' (clean_q s) (dirty_q s)) g bs' Lst Prv Old bl new.
Proof.
  intros HS Hi Hm Him Hio Hd Hc Hx HF HP. rewrite <-(mem_same g i m Hm).
  eapply (sinv_page HS Hi Hm Him _ _ _ _ []); try done; [by intros ? ?%not_elem_of_nil| |by left|].
  - unfold own. simpl. rewrite Hc, HP. simpl. solve_Permutation.
  - destruct (sinv_pinv HS Hi Hm Him) as [H1 H2 H3 H4].
    assert (pinv (disk x') m im (entry Lst i) (stage_of (snapper s) i) (bool_decide (i ∈ clean_q s)) (bool_decide (i ∈ dirty_q s)) p) as [_ K2 K3 K4].
    { apply (pinv_pager HS Hi []); [done|by intros ? ?%not_elem_of_nil|intros a; apply seen_own|by split]. }
    split; [simpl; congruence| |exact K3|exact K4]. unfold io_ok in *. simpl. by rewrite Hio in *.
Qed.

Lemma start_pageout_ok s g bs Lst Prv Old bl new i p m im q :
  sinv s g bs Lst Prv Old bl new -> pages s !! i = Some p -> mem g !! i = Some m -> marked g !! i = Some im ->
  pager_io p = None -> flag_phys_mem p = true -> flag_phys_dirty p = true -> curr_page p = Some q ->
  let p' := set_io (Some (mkIo Pageout q false)) (set_phys (flag_phys_mem p) true (flag_phys_dirty p) (set_mapping (Some RO) p)) in
  sinv (with_page s i p' (pg s) (clean_q s) (filter (fun j => j <> i) (dirty_q s))) g bs Lst Prv Old bl new.
Proof.
  intros HS Hi Hm Him Hio Hmem Hd Hc p'.
  destruct (sinv_pinv HS Hi Hm Him) as [H1 H2 H3 H4].
  unfold io_ok in H2. rewrite Hio, Hmem, Hd in H2. destruct H2 as (H2 & _ & Hcq & Hdq & _ & Hw).
  apply (sinv_update HS Hi Hm Him); [done|queues|by left|]. on_queues. rewrite Hcq. split; [simpl; congruence|..].
  - unfold io_ok. simpl. split_and!; try done. destruct (write_waiting p); [by discriminate Hw|done].
  - eapply stage_same; [done..|unfold no_cow; by rewrite Hio|done|]. intros k _ _ (U1 & U2 & U3). by split_and!.
  - by intros ?.
Qed.

(** The operations of one page run in a state of the form [with_page]. *)
Lemma at_page {A} s i p (m : M vm_map A) (Q : A -> vm_map -> Prop) :
  pages s !! i = Some p ->
  ((i < length (pages s))%nat -> wpe no_space m (with_page s i p (pg s) (clean_q s) (dirty_q s)) Q) -> wpe no_space m s Q.
Proof. intros Hi H. rewrite (with_page_id s i p Hi) in H. by apply H, (lookup_lt_Some _ _ _ Hi). Qed.

Ltac on_q := first [by decided | apply off_filter].
Ltac run_step :=
  lazymatch goal with
  | |- wpe _ (mret _) _ _ => apply wpe_ret
  | |- wpe _ (mbind _ _) _ _ => apply wpe_bind
  | |- wpe _ (page _) _ _ => apply page_at; [assumption|]
  | |- wpe _ (update _ _) _ _ => apply update_at
  | |- wpe _ (hal_page_control _ _) _ _ => unfold hal_page_control
  | |- wpe _ (some_or_fault (Some _) _) _ _ => apply wpe_ret
  | |- wpe _ (put_on_clean_q _) _ _ => apply put_clean_at; [on_q|on_q|]
  | |- wpe _ (put_on_dirty_q _) _ _ => apply put_dirty_at; [on_q|on_q|]
  | |- wpe _ (remove_from_clean_q _) _ _ => apply remove_clean_at; [by decided|]
  | |- wpe _ (remove_from_dirty_q _) _ _ => apply remove_dirty_at; [by decided|]
  end.
Ltac run := repeat (run_step; simpl).

Definition pageout_of (p p' : vm_page) : Prop :=
  write_waiting p' = write_waiting p /\ make_page p' = make_page p /\ prev_page p' = prev_page p /\ (flag_phys_dirty p' = true -> is_Some (pager_io p')).

Lemma busy_None p : busy p = false -> pager_io p = None.
Proof. unfold busy. intros H%bool_decide_eq_false_1. by destruct (pager_io p); [destruct H|]. Qed.

Lemma req_pageout_ok s g i p :
  inv s g -> pages s !! i = Some p -> wpe no_space (vm_page_req_pageout i) s (fun _ => keeps s g i (pageout_of p)).
Proof.
  intros Hinv Hi. eapply at_page; [done|]. intros Hlt. unfold vm_page_req_pageout. run.
  rewrite with_page_id by done.
  destruct (busy p) eqn:Hb.
  { apply wpe_ret. eapply keeps_same; [done..|]. split_and!; try done. intros _. by apply bool_decide_eq_true_1 in Hb. }
  apply busy_None in Hb.
  destruct (inv_at s g i p Hinv Hi) as (bs & Lst & Prv & Old & bl & new & m & im & HS & Hm & Him & [_ H2 _ _]).
  unfold io_ok in H2. rewrite Hb in H2. destruct (flag_phys_mem p) eqn:Hmem; simpl.
  2: { apply wpe_ret. eapply keeps_same; [done..|]. split_and!; try done. destruct H2 as (_ & _ & _ & -> & _). done. }
  destruct (flag_phys_dirty p) eqn:Hd; simpl; [|apply wpe_ret; eapply keeps_same; [done..|]; split_and!; congruence].
  destruct H2 as (_ & _ & Hcq & Hdq & _). apply wpe_bind.
  destruct (curr_page p) as [q|] eqn:Hc.
  - apply wpe_ret. eapply at_page; [done|]. intros _. run. rewrite Hc. run.
    eapply keeps_with; [done|by apply (start_pageout_ok _ _ _ _ _ _ _ _ _ _ _ _ _ HS Hi Hm Him)|by split_and!].
  - eapply at_page; [done|]. intros _. apply wpe_bind.
    eapply alloc_at; [done| |intros; by left]. intros q x' bs' Hx HF HP. apply update_at.
    pose proof (alloc_curr_ok _ _ _ _ _ _ _ _ _ _ _ _ _ _ _ HS Hi Hm Him Hb Hd Hc Hx HF HP) as HS'.
    run.
    eapply keeps_with; [done| |by split_and!].
    rewrite <-(with_page_twice s i (set_curr (Some q) p) _ x' _ (clean_q s) (dirty_q s)).
    apply (start_pageout_ok _ _ _ _ _ _ _ _ i (set_curr (Some q) p) m im q HS'); try done. by apply list_lookup_insert_eq.
Qed.

(** ** Page faults for reading *)

Definition any_page (p : vm_page) : Prop := True.

Lemma holds_zero d m : holds d 0 m -> m = 0.
Proof. unfold holds, zero_or_data. simpl. congruence. Qed.

Lemma page_fault_read_ok s g i p :
  inv s g -> pages s !! i = Some p -> wpe no_space (page_fault_read i) s (fun _ => keeps s g i any_page).
Proof.
  intros Hinv Hi. eapply at_page; [done|]. intros Hlt. unfold page_fault_read. run. rewrite with_page_id by done.
  destruct (busy p) eqn:Hb; [apply wpe_ret; by eapply keeps_same|]. apply busy_None in Hb.
  destruct (flag_phys_mem p) eqn:Hmem; [apply wpe_ret; by eapply keeps_same|].
  destruct (inv_at s g i p Hinv Hi) as (bs & Lst & Prv & Old & bl & new & m & im & HS & Hm & Him & [H1 H2 H3 H4]).
  unfold io_ok in H2. rewrite Hb, Hmem in H2. destruct H2 as (Hmap & Hcq & Hdq & Hd & Hw). specialize (H1 Hd).
  eapply at_page; [done|]. intros _. apply wpe_bind, update_at.
  assert (no_cow p) as Hnc by (unfold no_cow; by rewrite Hb).
  destruct (backing p =? 0) eqn:E0.
  - apply Z.eqb_eq in E0. rewrite E0 in H1. apply holds_zero in H1 as ->. run.
    eapply keeps_with; [done| |done]. apply (sinv_update HS Hi Hm Him); [done|queues|by left|]. on_queues. rewrite Hdq. split.
    + intros _. change (backing _) with (backing p). by rewrite E0.
    + unfold io_ok. simpl. rewrite Hb, Hw. by split_and!.
    + eapply stage_same; [done..| |]; [unfold no_cow; simpl; by rewrite Hb|]. intros k _ _ (U1 & U2 & U3). by split_and!.
    + intros ?. simpl. congruence.
  - apply Z.eqb_neq in E0. unfold pagein. run. unfold busy. simpl. rewrite Hb. simpl. run.
    eapply keeps_with; [done| |done]. apply (sinv_update HS Hi Hm Him); [done|queues|by left|]. rewrite Hcq, Hdq. split.
    + by intros _.
    + unfold io_ok. simpl. rewrite Hw. by split_and!.
    + eapply stage_same; [done..|]. intros k _ _ (U1 & U2 & U3). by split_and!.
    + intros ?. simpl. congruence.
Qed.

(** A page that is mapped has the content that a program sees. *)
Lemma mapped_content m c w p a : io_ok m c w p -> mapping p = Some a -> content p = Some m.
Proof.
  unfold io_ok. intros H Ha. destruct (pager_io p) as [[[] q st]|]; [naive_solver..|].
  destruct (flag_phys_mem p); naive_solver.
Qed.

(** What a step does for an observer. *)
Definition observed (g : ghost) (e : option event) (s : vm_map) : Prop :=
  exists g', match e with Some e => spec_step e g = Some g' | None => g' = g end /\ inv s g'.

Lemma load_ok s g i p : inv s g -> pages s !! i = Some p -> wpe no_space (load i) s (observed g).
Proof.
  intros Hinv Hi. eapply at_page; [done|]. intros Hlt. unfold load. run. rewrite with_page_id by done.
  destruct (mapping p) as [a|] eqn:Ea.
  - destruct (inv_at s g i p Hinv Hi) as (bs & Lst & Prv & Old & bl & new & m & im & HS & Hm & Him & [H1 H2 H3 H4]).
    rewrite (mapped_content _ _ _ _ _ H2 Ea). run. exists g. split; [|done]. simpl. by rewrite decide_True.
  - apply wpe_bind. eapply wpe_mono; [by eapply page_fault_read_ok|]. intros _ s' [H _]. apply wpe_ret. by exists g.
Qed.

(** ** Requests to the disk *)

(** A disk that differs only at a page that is not free. *)
Lemma inv_disk x bs q d' :
  pager_inv x bs -> q ∉ all_free x bs -> (forall y, y <> q -> d' !! y = disk x !! y) -> pager_inv (set_disk d' x) bs.
Proof.
  intros [I1 I2 I3 I4 I5 I6 I7] Hq Hd. split; try done. simpl. eapply seg_same; [done|].
  intros y Hy. apply Hd. intros ->. by apply Hq, chain_pages_in.
Qed.
Lemma disk_frame x q d' : (forall y, y <> q -> d' !! y = disk x !! y) -> pframe [q] x (set_disk d' x).
Proof.
  intros Hd. split; simpl; [|apply same_fixed_refl|]; intros y [Hy _]%not_elem_of_cons; rewrite Hd by done; auto.
Qed.

(** The stage of a page depends on the pages on disk that a snapshot has. *)
Definition of_snap (p : vm_page) : list Z := option_list (make_page p) ++ option_list (prev_page p).
Lemma stage_disk d d' m im l st p :
  stage_ok d m im l st p -> (forall q, no_cow p -> q ∈ of_snap p -> q <> 0 -> d' !! q = d !! q) -> stage_ok d' m im l st p.
Proof.
  intros H Hd. assert (forall q, q ∈ of_snap p -> no_cow p -> holds d q im -> holds d' q im) as Hh.
  { intros q Hq Hc E. unfold holds. rewrite <-E. apply zero_or_data_same. intros H0. by apply Hd. }
  assert (forall q, q ∈ of_snap p -> snapped d im l q p -> snapped d' im l q p) as Hs.
  { unfold snapped, no_cow in *. intros q Hq. destruct (pager_io p) as [[[] ? ?]|]; auto. }
  unfold stage_ok, of_snap in *. destruct st; try done.
  - destruct (make_page p) as [q|]; [|done]. destruct H as [H ?]. split; [|done]. apply Hs; [by left|done].
  - destruct H as (E & q & Ep & H). split; [done|]. exists q. split; [done|]. rewrite E, Ep in Hs. apply Hs; [by left|done].
  - destruct H as (E & Hc & q & Ep & H). split_and!; try done. exists q. split; [done|]. rewrite E, Ep in Hh. apply Hh; [by left|done..].
Qed.

Section Io.
Context (s : vm_map) (g : ghost) (bs Lst Prv Old bl : blocks) (new : list Z) (i : nat) (p : vm_page) (m im : Z).
Context (HS : sinv s g bs Lst Prv Old bl new).
Context (Hi : pages s !! i = Some p) (Hm : mem g !! i = Some m) (Him : marked g !! i = Some im).
Local Abbreviation l := (entry Lst i).

Lemma own_facts : NoDup (own l p) /\ (l = 0 \/ l ∉ own l p) /\
  forall q, q ∈ own l p -> q <> 0 /\ q ∉ all_free (pg s) bs.
Proof.
  pose proof (si_disk _ _ _ _ _ _ _ _ HS) as HD.
  destruct (used_parts _ _ _ _ _ _ _ _ _ _ HD Hi) as (_ & _ & U3 & U4). split_and!.
  - destruct HD as [_ _ _ _ _ _ D7 _ _ _]. destruct (owned_split Lst (pages s) i p Hi) as (rest & P1 & _).
    rewrite P1 in D7. apply list.NoDup_app in D7 as (D7 & _ & _). apply list.NoDup_app in D7 as (_ & _ & D7).
    by apply list.NoDup_app in D7 as (D7 & _ & _).
  - destruct (entry_page Lst i) as [|Hin]; [by left|]. right. apply U3. clear - Hin. in_list.
  - intros q Hq. destruct (U4 q Hq) as [[H0 _] Hf]. split; [lia|done].
Qed.

(** The place of a page on disk is not in a snapshot. *)
Lemma curr_not_snap q : curr_page p = Some q -> q ∉ of_snap p /\ q ∈ own l p.
Proof.
  intros Hc. destruct own_facts as (Hnd & Hl & Ho). unfold own in *. rewrite Hc in *. simpl in *.
  assert (q <> 0) as H0 by (apply Ho; by left). apply list.NoDup_cons in Hnd as [Hn _].
  assert (q <> l) as Hql. { intros E. destruct Hl as [Hl|Hl]; [congruence|]. apply Hl, elem_of_cons. by left. }
  split; [|by left]. unfold of_snap, own_slot in *. intros [Hq|Hq]%elem_of_app; apply Hn, elem_of_app; [left|right].
  - destruct (make_page p) as [a|]; [|done]. simpl in Hq. apply list_elem_of_singleton in Hq as <-. rewrite decide_False by tauto. by left.
  - destruct (prev_page p) as [a|]; [|done]. simpl in Hq. apply list_elem_of_singleton in Hq as <-. rewrite decide_False by tauto. by left.
Qed.

(** A copy goes to a page that is not in a snapshot yet. *)
Lemma cow_own c q st : pager_io p = Some (mkIo (Cow c) q st) -> q ∈ own l p /\ c = Some im.
Proof.
  intros Hio. destruct (sinv_pinv HS Hi Hm Him) as [_ _ H3 _]. unfold stage_ok, snapped, no_cow in H3. rewrite Hio in H3.
  unfold own, own_slot. destruct (stage_of (snapper s) i); [tauto| | |tauto].
  - destruct (make_page p) as [a|]; [|tauto]. destruct H3 as ((-> & -> & H0 & H1) & _). split; [|done].
    rewrite decide_False by tauto. rewrite !elem_of_app. right. left. by left.
  - destruct H3 as (_ & a & -> & -> & -> & H0 & H1). split; [|done]. rewrite decide_False by tauto. rewrite !elem_of_app. right. right. by left.
Qed.

(** The page and the content of one of its pages on disk change. *)
Lemma sinv_io p' d' q cq dq :
  q ∈ own l p -> (forall y, y <> q -> d' !! y = disk (pg s) !! y) -> own l p' = own l p ->
  (forall j, j <> i -> (j ∈ cq <-> j ∈ clean_q s) /\ (j ∈ dq <-> j ∈ dirty_q s)) ->
  make_page p' = make_page p -> prev_page p' = prev_page p ->
  pinv d' m im l (stage_of (snapper s) i) (bool_decide (i ∈ cq)) (bool_decide (i ∈ dq)) p' ->
  sinv (with_page s i p' (set_disk d' (pg s)) cq dq) g bs Lst Prv Old bl new.
Proof.
  intros Hq Hd HO Hqs Em Ep Hp. rewrite <-(mem_same g i m Hm).
  pose proof (si_disk _ _ _ _ _ _ _ _ HS) as HD.
  apply (sinv_page HS Hi Hm Him p' m (set_disk d' (pg s)) bs [q]); try done.
  - eapply inv_disk; [apply HD|by apply own_facts|done].
  - by apply disk_frame.
  - intros y Hy%list_elem_of_singleton. by subst y.
  - by rewrite HO.
  - by left.
Qed.
End Io.
Arguments own_facts {s g bs Lst Prv Old bl new i p}.
Arguments curr_not_snap {s g bs Lst Prv Old bl new i p}.
Arguments cow_own {s g bs Lst Prv Old bl new i p m im}.
Arguments sinv_io {s g bs Lst Prv Old bl new i p m im}.

(** A dirty page may lose what is on disk, unless a snapshot has it. *)
Lemma pinv_dirty d d' m im l st c w p p' :
  pinv d m im l st c w p -> flag_phys_dirty p' = true -> io_ok m c w p' -> stage_ok d m im l st p' -> is_Some (pager_io p') ->
  (forall q, no_cow p' -> q ∈ of_snap p' -> q <> 0 -> d' !! q = d !! q) -> pinv d' m im l st c w p'.
Proof. intros _ Hd Hio Hst Hsome Hs. split; [congruence|done|by eapply stage_disk|]. intros E. rewrite E in Hsome. by destruct Hsome. Qed.

(** The request of the page is with the disk, or there is none. *)
Definition io_of (p : vm_page) (started_ : bool) (p' : vm_page) : Prop :=
  write_waiting p' = write_waiting p /\
  match pager_io p' with Some r => started_ = true /\ started r = true | None => started_ = false end.

Lemma io_start_ok s g i p :
  inv s g -> pages s !! i = Some p -> enabled (Start i) s = true -> wpe no_space (io_start i) s (fun _ => keeps s g i (io_of p true)).
Proof.
  intros Hinv Hi Hen. simpl in Hen. rewrite Hi in Hen.
  destruct (inv_at s g i p Hinv Hi) as (bs & Lst & Prv & Old & bl & new & m & im & HS & Hm & Him & HP).
  pose proof HP as [H1 H2 H3 H4]. destruct (pager_io p) as [[k q st]|] eqn:Hio; [|done]. simpl in Hen. destruct st; [done|].
  eapply at_page; [done|]. intros Hlt. unfold io_start. run. rewrite Hio. run.
  assert (stage_ok (disk (pg s)) m im (entry Lst i) (stage_of (snapper s) i) (set_io (Some (mkIo k q true)) p)) as H3'.
  { revert H3. unfold stage_ok, snapped, no_cow, unmade, paging_out. simpl. rewrite Hio. by destruct k. }
  assert (io_ok m (bool_decide (i ∈ clean_q s)) (bool_decide (i ∈ dirty_q s)) (set_io (Some (mkIo k q true)) p)) as H2'.
  { revert H2. unfold io_ok. simpl. rewrite Hio. by destruct k. }
  assert (forall y, y <> q -> delete q (disk (pg s)) !! y = disk (pg s) !! y) as Hdel.
  { intros y Hy. by apply lookup_delete_ne. }
  destruct k as [|c|]; simpl.
  - unfold io_ok in H2. rewrite Hio in H2. destruct H2 as (_ & _ & Hd & _ & _ & _ & _ & Hc & _).
    destruct (curr_not_snap HS Hi q Hc) as [Hns Hq].
    eapply (pager_at _ _ _ (fun _ => False)); [|done]. apply wp_wpe, wp_modify. eapply keeps_with; [done| |done].
    eapply (sinv_io HS Hi Hm Him); try done. eapply pinv_dirty; try done.
    intros y _ Hy _. apply Hdel. intros ->. by apply Hns.
  - destruct (cow_own HS Hi Hm Him c q false Hio) as [Hq _]. unfold io_ok in H2. rewrite Hio in H2. destruct H2 as (_ & _ & Hd & _).
    eapply (pager_at _ _ _ (fun _ => False)); [|done]. apply wp_wpe, wp_modify. eapply keeps_with; [done| |done].
    eapply (sinv_io HS Hi Hm Him); try done. by eapply pinv_dirty.
  - apply wpe_ret. eapply keeps_with; [done| |done]. apply (sinv_update HS Hi Hm Him); [done|queues|by left|]. by split.
Qed.

Lemma assert_busy (p : vm_page) (s : vm_map) what (Q : unit -> vm_map -> Prop) :
  is_Some (pager_io p) -> Q tt s -> wpe no_space (assert_ (busy p) what) s Q.
Proof. intros H HQ. unfold busy. by rewrite bool_decide_eq_true_2. Qed.

Lemma io_done_ok s g i p :
  inv s g -> pages s !! i = Some p -> wpe no_space (io_done i) s (fun _ => keeps s g i (io_of p false)).
Proof.
  intros Hinv Hi. destruct (inv_at s g i p Hinv Hi) as (bs & Lst & Prv & Old & bl & new & m & im & HS & Hm & Him & HP).
  eapply at_page; [done|]. intros Hlt. unfold io_done. run.
  destruct (pager_io p) as [[k q st]|] eqn:Hio; [|apply wpe_ret; rewrite with_page_id by done; eapply keeps_same; [done..|unfold io_of; by rewrite Hio]].
  destruct HP as [H1 H2 H3 H4]. unfold io_ok in H2. rewrite Hio in H2. destruct k as [|c|]; simpl; apply wpe_bind.
  - destruct H2 as (Hmem & Hpr & Hd & Hc & Hmap & Hcq & Hdq & Hcu & Hw). destruct (curr_not_snap HS Hi q Hcu) as [Hns Hq].
    rewrite Hc. eapply (pager_at _ _ _ (fun _ => False)); [|done]. apply wp_wpe, wp_modify. unfold pageout_callback. run.
    apply assert_busy; [by rewrite Hio|]. run. eapply keeps_with; [done| |done].
    assert (forall y, y <> q -> <[q := BData m]> (disk (pg s)) !! y = disk (pg s) !! y) as Hd' by (intros; by apply lookup_insert_ne).
    eapply (sinv_io HS Hi Hm Him); try done; [queues|]. on_queues. rewrite Hdq. split.
    + intros _. unfold backing. simpl. rewrite Hcu. unfold holds, zero_or_data, read_data.
      destruct (own_facts HS Hi) as (_ & _ & Ho). rewrite (proj2 (Z.eqb_neq q 0)) by (by apply Ho). by rewrite lookup_insert_eq.
    + unfold io_ok. simpl. rewrite Hmem, Hc, Hmap, Hpr, Hw. by split_and!.
    + eapply stage_disk; [eapply stage_same; [exact H3|done..| |done|]|].
      * unfold no_cow. by rewrite Hio.
      * intros k _ _ (U1 & U2 & U3). by split_and!.
      * intros y _ Hy _. apply Hd'. by intros ->.
    + intros ?. simpl. congruence.
  - destruct H2 as (Hmem & Hpr & Hd & Hc & Hmap & Hcq & Hdq & Hcu & Hw). destruct (cow_own HS Hi Hm Him c q st Hio) as [Hq ->].
    eapply (pager_at _ _ _ (fun _ => False)); [|done]. apply wp_wpe, wp_modify. unfold snapper_COW_callback. run.
    apply assert_busy; [by rewrite Hio|]. run. eapply keeps_with; [done| |done].
    assert (holds (<[q := BData im]> (disk (pg s))) q im) as Hh.
    { unfold holds, zero_or_data, read_data. destruct (own_facts HS Hi) as (_ & _ & Ho).
      rewrite (proj2 (Z.eqb_neq q 0)) by (by apply Ho). by rewrite lookup_insert_eq. }
    eapply (sinv_io HS Hi Hm Him _ _ q); try done; [intros; by apply lookup_insert_ne|]. split; [simpl; congruence|..].
    + unfold io_ok. simpl. rewrite Hmem, Hc, Hmap, Hpr, Hw, Hd. by split_and!.
    + revert H3. unfold stage_ok, snapped, no_cow, unmade. simpl. rewrite Hio. destruct (stage_of _ _); try tauto.
      * destruct (make_page p) as [a|]; [|tauto]. intros ((-> & _) & H). done.
      * intros (? & a & ? & -> & _). split; [done|]. by exists a.
    + intros ?. simpl. congruence.
  - destruct H2 as (Hmem & Hpr & Hd & Hmap & Hcq & Hdq & Hbk & H0). specialize (H1 Hd).
    apply wp_wpe, wp_gets. apply wpe_bind. apply update_at. unfold pagein_callback. run. apply assert_busy; [simpl; by rewrite Hio|]. run.
    eapply keeps_with; [done| |done]. apply (sinv_update HS Hi Hm Him); [done|queues|by left|]. on_queues. rewrite Hdq. split.
    + intros _. done.
    + unfold io_ok. simpl. rewrite Hmem. split_and!; try done. unfold holds, zero_or_data in H1. rewrite <-Hbk in H1.
      by rewrite (proj2 (Z.eqb_neq q 0) H0) in H1.
    + eapply stage_same; [exact H3|done..| |done|].
      * unfold no_cow. by rewrite Hio.
      * intros k _ _ (U1 & U2 & U3). by split_and!.
    + intros ?. simpl. congruence.
Qed.

(** ** Reclaiming memory *)

Lemma is_on_clean m d p s i :
  io_ok m (bool_decide (i ∈ clean_q s)) d p -> flag_phys_mem p = true -> flag_phys_dirty p = false -> is_on_reclaim_q i s = true ->
  d = bool_decide (i ∈ dirty_q s) -> pager_io p = None /\ bool_decide (i ∈ clean_q s) = true /\ d = false.
Proof.
  unfold io_ok, is_on_reclaim_q. intros H Hm Hd Hon ->. destruct (pager_io p) as [[[] q st]|].
  - destruct H as (_ & _ & ? & _). congruence.
  - destruct H as (_ & _ & ? & _). congruence.
  - destruct H as (_ & _ & _ & _ & H1 & H2 & _). by rewrite H1, H2 in Hon.
  - rewrite Hm, Hd in H. destruct H as (_ & _ & H1 & H2 & _). done.
Qed.

Lemma reclaim_ok s g i p :
  inv s g -> pages s !! i = Some p -> write_waiting p = false ->
  wpe no_space (physmem_try_to_reclaim_page i) s (fun _ => keeps s g i any_page).
Proof.
  intros Hinv Hi Hw. eapply at_page; [done|]. intros Hlt. unfold physmem_try_to_reclaim_page. run.
  rewrite with_page_id by done. apply wp_wpe, wp_gets.
  destruct (flag_phys_mem p) eqn:Hmem; simpl; [|apply wpe_ret; by eapply keeps_same].
  destruct (flag_phys_dirty p) eqn:Hd; simpl; [apply wpe_ret; by eapply keeps_same|].
  destruct (is_on_reclaim_q i s) eqn:Hon; simpl; [|apply wpe_ret; by eapply keeps_same].
  destruct (wired_count p =? 0); [|apply wpe_ret; by eapply keeps_same].
  destruct (inv_at s g i p Hinv Hi) as (bs & Lst & Prv & Old & bl & new & m & im & HS & Hm & Him & [H1 H2 H3 H4]).
  destruct (is_on_clean _ _ _ _ _ H2 Hmem Hd Hon eq_refl) as (Hio & Hcq & Hdq).
  eapply at_page; [done|]. intros _. run. eapply keeps_with; [done| |done].
  apply (sinv_update HS Hi Hm Him); [done|queues|by left|]. on_queues. rewrite Hdq. split.
  - intros _. by apply H1.
  - unfold io_ok. simpl. by rewrite Hio.
  - assert (no_cow p) as Hnc by (unfold no_cow; by rewrite Hio). eapply stage_same; [done..|].
    intros k _ _ (U1 & U2 & U3). by split_and!.
  - intros _. simpl. congruence.
Qed.

Lemma wire_ok s g i p (f : vm_page -> Z) :
  inv s g -> pages s !! i = Some p -> wpe no_space (update i (fun p => set_wired (f p) p)) s (fun _ => keeps s g i any_page).
Proof.
  intros Hinv Hi. eapply at_page; [done|]. intros Hlt. run.
  destruct (inv_at s g i p Hinv Hi) as (bs & Lst & Prv & Old & bl & new & m & im & HS & Hm & Him & [H1 H2 H3 H4]).
  eapply keeps_with; [done| |done]. by apply (sinv_update HS Hi Hm Him); [done|queues|by left|split].
Qed.

Lemma balance_ok s g i p dirty clean :
  inv s g -> pages s !! i = Some p -> wpe no_space (balance_clean_dirty dirty clean i) s (fun _ => keeps s g i any_page).
Proof.
  intros Hinv Hi. unfold balance_clean_dirty. destruct (need_pageout dirty clean); [|apply wpe_ret; by eapply keeps_same].
  eapply at_page; [done|]. intros Hlt. run. rewrite with_page_id by done.
  destruct (flag_phys_mem p && flag_phys_dirty p); [|apply wpe_ret; by eapply keeps_same].
  eapply wpe_mono; [by eapply req_pageout_ok|]. intros _ s' (K1 & K2 & p' & K3 & _). split_and!; try done. by exists p'.
Qed.

(** ** Page faults for writing *)

Lemma write_read_ok s g i p :
  inv s g -> pages s !! i = Some p -> write_waiting p = true -> busy p = false ->
  wpe no_space (page_fault_write_read i) s (fun _ => keeps s g i any_page).
Proof.
  intros Hinv Hi Hw Hb%busy_None.
  destruct (inv_at s g i p Hinv Hi) as (bs & Lst & Prv & Old & bl & new & m & im & HS & Hm & Him & [H1 H2 H3 H4]).
  unfold io_ok in H2. rewrite Hb in H2. destruct (flag_phys_mem p) eqn:Hmem; [|destruct H2 as (_ & _ & _ & _ & ?); congruence].
  destruct H2 as (Hc & Hmap & Hcq & Hdq & Hpr & Hd). specialize (Hd Hw). rewrite Hd in *. specialize (Hpr eq_refl). rewrite Hw in Hpr.
  simpl in *. eapply at_page; [done|]. intros Hlt. unfold page_fault_write_read, move_to_dirty_q. run. rewrite Hmem. run.

  eapply keeps_with; [done| |done]. apply (sinv_update HS Hi Hm Him); [done|queues|by left|]. on_queues. split.
  - simpl. congruence.
  - unfold io_ok. simpl. rewrite Hb, Hmem, Hmap, Hpr, Hc. by split_and!.
  - assert (no_cow p) as Hnc by (unfold no_cow; by rewrite Hb). eapply stage_same; [done..|].
    intros k _ _ (U1 & U2 & U3). congruence.
  - intros _ _. simpl. congruence.
Qed.

(** The place on disk of a page that has not changed goes to the snapshot. *)
Definition take_make (p : vm_page) : vm_page :=
  match curr_page p with
  | Some c => set_curr None (set_make (Some c) p)
  | None => match prev_page p with Some c => set_prev None (set_make (Some c) p) | None => set_make (Some 0) p end
  end.

Lemma take_make_fields p :
  make_page p = None -> make_page (take_make p) = Some (backing p) /\ backing (take_make p) = backing p /\
  pager_io (take_make p) = pager_io p /\ content (take_make p) = content p /\ mapping (take_make p) = mapping p /\
  flag_phys_mem (take_make p) = flag_phys_mem p /\ flag_phys_protect (take_make p) = flag_phys_protect p /\
  flag_phys_dirty (take_make p) = flag_phys_dirty p /\ write_waiting (take_make p) = write_waiting p.
Proof. unfold take_make, backing. intros E. destruct (curr_page p) eqn:E1, (prev_page p) eqn:E2; simpl; by rewrite ?E, ?E1, ?E2. Qed.

Lemma take_make_own s g bs Lst Prv Old bl new i p :
  sinv s g bs Lst Prv Old bl new -> pages s !! i = Some p -> make_page p = None -> default 0 (prev_page p) = entry Lst i ->
  own (entry Lst i) (take_make p) ≡ₚ own (entry Lst i) p.
Proof.
  intros HS Hi Hm Hl. destruct (own_facts HS Hi) as (_ & Hll & Ho). destruct (curr_page p) as [c|] eqn:Hc.
  - destruct (curr_not_snap HS Hi c Hc) as [_ Hin]. destruct (Ho c Hin) as [H0 _].
    assert (c <> entry Lst i) as Hne by (intros ->; tauto).
    unfold take_make, own. rewrite Hc, Hm. simpl. rewrite decide_False by tauto. done.
  - unfold take_make, own. rewrite Hc, Hm. destruct (prev_page p) as [c|] eqn:Hp; simpl in *; rewrite ?Hc, ?Hp; simpl.
    + by rewrite !decide_True by tauto.
    + done.
Qed.

Lemma open_stage pc i : in_snap pc = true -> exists k f, stage_of pc i = Open k f.
Proof. destruct pc; try done; simpl; eauto. Qed.

Lemma take_make_ok s g bs Lst Prv Old bl new i p m im :
  sinv s g bs Lst Prv Old bl new -> pages s !! i = Some p -> mem g !! i = Some m -> marked g !! i = Some im ->
  in_snap (snapper s) = true -> pager_io p = None -> make_page p = None -> flag_phys_dirty p = false ->
  sinv (with_page s i (take_make p) (pg s) (clean_q s) (dirty_q s)) g bs Lst Prv Old bl new.
Proof.
  intros HS Hi Hm Him Hsn Hio Hmk Hd. destruct (sinv_pinv HS Hi Hm Him) as [H1 H2 H3 H4]. specialize (H1 Hd).
  destruct (open_stage _ i Hsn) as (k & f & Est). rewrite Est in H3. pose proof H3 as H3'. simpl in H3. rewrite Hmk in H3.
  destruct H3 as (_ & <- & Hl & _ & Hu).
  destruct (take_make_fields p Hmk) as (E1 & E2 & E3 & E4 & E5 & E6 & E7 & E8 & E9).
  apply (sinv_update HS Hi Hm Him); [by eapply take_make_own|queues|by right|]. rewrite Est. split.
  - intros _. by rewrite E2.
  - unfold io_ok in *. by rewrite E3, E4, E5, E6, E7, E8, E9, Hio in *.
  - simpl. rewrite E1. unfold snapped. rewrite E3, Hio. split; [done|]. unfold take_make.
    destruct (curr_page p); simpl; [by right|]. destruct (prev_page p) eqn:Ep; simpl; [by left|]. rewrite Ep. by left.
  - intros _. rewrite E8. congruence.
Qed.

(** A dirty page is copied, and the copy goes to a page on disk of its own. *)
Definition cow_page (c : Z) (p : vm_page) : vm_page :=
  set_phys (flag_phys_mem p) false true (set_mapping (Some RW)
    (set_io (Some (mkIo (Cow (content p)) c false)) (set_curr None (set_make (Some c) p)))).

Lemma cow_ok s g bs Lst Prv Old bl new i p m im c x' bs' cq dq :
  sinv s g bs Lst Prv Old bl new -> pages s !! i = Some p -> mem g !! i = Some m -> marked g !! i = Some im ->
  in_snap (snapper s) = true -> make_page p = None -> content p = Some m -> flag_phys_mem p = true -> write_waiting p = false ->
  i ∉ cq -> i ∈ dq -> (forall j, j <> i -> (j ∈ cq <-> j ∈ clean_q s) /\ (j ∈ dq <-> j ∈ dirty_q s)) ->
  pager_inv x' bs' -> pframe [] (pg s) x' -> option_list (curr_page p) ++ all_free (pg s) bs ≡ₚ c :: all_free x' bs' ->
  sinv (with_page s i (cow_page c p) x' cq dq) g bs' Lst Prv Old bl new.
Proof.
  intros HS Hi Hm Him Hsn Hmk Hc Hmem Hw Hcq Hdq Hqs Hx HF HP. destruct (sinv_pinv HS Hi Hm Him) as [H1 H2 H3 H4].
  destruct (open_stage _ i Hsn) as (k & f & Est). rewrite Est in H3. simpl in H3. rewrite Hmk in H3. destruct H3 as (_ & <- & Hl & _ & Hu).
  assert (own_slot (entry Lst i) (prev_page p) = []) as Hpo.
  { unfold own_slot. destruct (prev_page p) as [a|]; [|done]. simpl in Hl. by rewrite decide_True by tauto. }
  assert (page_ok (superblock (pg s)) c /\ c ∉ list_pages Lst) as [[H0 _] Hcl].
  { destruct (used_parts _ _ _ _ _ _ _ _ _ _ (si_disk _ _ _ _ _ _ _ _ HS) Hi) as (_ & _ & U3 & U4).
    assert (c ∈ option_list (curr_page p) ++ all_free (pg s) bs) as Hin by (rewrite HP; by left).
    assert (c ∈ own (entry Lst i) p \/ c ∈ all_free (pg s) bs) as Hin'.
    { unfold own. clear - Hin. rewrite !elem_of_app in *. tauto. }
    split.
    - destruct Hin' as [H|H]; [by apply U4|]. pose proof (di_ok _ _ _ _ _ _ _ (si_disk _ _ _ _ _ _ _ _ HS)) as Hok.
      rewrite list.Forall_forall in Hok. apply Hok. clear - H. in_list.
    - intros H. destruct (U3 c) as (_ & ? & ?); [clear - H; in_list|]. tauto. }
  assert (c <> entry Lst i) as Hne.
  { intros E. destruct (entry_page Lst i) as [E'|E']; [lia|]. by rewrite <-E in E'. }
  rewrite <-(mem_same g i m Hm).
  apply (sinv_page HS Hi Hm Him (cow_page c p) m x' bs' []); try done; [by intros ? ?%not_elem_of_nil| |by right|].
  - unfold own. simpl. rewrite Hmk, Hpo. simpl. rewrite decide_False by (intros [->| ->]; [lia|tauto]). simpl. by rewrite app_nil_r, <-HP.
  - rewrite Est. split; [simpl; congruence|..].
    + unfold io_ok. simpl. split_and!; try done; [by apply bool_decide_eq_false_2|by apply bool_decide_eq_true_2].
    + simpl. unfold snapped. simpl. split_and!; try done; [lia|by right].
    + by intros ?.
Qed.

(** A dirty page that the snapshot has not got yet is copied; it has no request, or the
    one that it had has been taken back. *)
Lemma snap_cow_ok s g i p bs Lst Prv Old bl new m im cq dq :
  sinv s g bs Lst Prv Old bl new -> pages s !! i = Some p -> mem g !! i = Some m -> marked g !! i = Some im ->
  in_snap (snapper s) = true -> make_page p = None -> content p = Some m -> flag_phys_mem p = true -> flag_phys_dirty p = true ->
  write_waiting p = false -> i ∉ cq -> i ∈ dq ->
  (forall j, j <> i -> (j ∈ cq <-> j ∈ clean_q s) /\ (j ∈ dq <-> j ∈ dirty_q s)) ->
  wpe no_space (page_fault_snap_aid i) (with_page s i (set_io None p) (pg s) cq dq)
    (fun done s' => done = true /\ keeps s g i any_page s').
Proof.
  intros HS Hi Hm Him Hsn Hmk Hct Hmem Hd Hw Hcq Hdq Hqs. pose proof (lookup_lt_Some _ _ _ Hi) as Hlt.
  unfold page_fault_snap_aid. run. rewrite Hmk, Hmem, Hd. simpl. run. destruct (curr_page p) as [c|] eqn:Hc.
  - run. split; [done|]. eapply keeps_with; [done| |done].
    apply (cow_ok _ _ _ _ _ _ _ _ _ _ _ _ _ _ _ _ _ HS Hi Hm Him Hsn Hmk Hct Hmem Hw Hcq Hdq Hqs); [apply HS|apply pframe_refl|by rewrite Hc].
  - apply wpe_bind. eapply alloc_at; [done| |intros; by left]. intros c x' bs' Hx HF HP. run.
    split; [done|]. eapply keeps_with; [done| |done].
    replace (set_phys _ _ _ _) with (cow_page c p) by (unfold cow_page; by rewrite <-Hc at 1; destruct p).
    apply (cow_ok _ _ _ _ _ _ _ _ _ _ _ _ _ _ _ _ _ HS Hi Hm Him Hsn Hmk Hct Hmem Hw Hcq Hdq Hqs); [done..|by rewrite Hc].
Qed.

(** The snapshot takes a page that is clean. *)
Lemma snap_clean_ok s g i p :
  inv s g -> pages s !! i = Some p -> in_snap (snapper s) = true -> make_page p = None -> pager_io p = None ->
  flag_phys_dirty p = false ->
  wpe no_space (page_fault_snap_aid i) s (fun done s' => done = false /\ keeps s g i (fun p' => is_Some (make_page p') /\
    pager_io p' = None /\ write_waiting p' = write_waiting p /\ flag_phys_mem p' = flag_phys_mem p /\
      flag_phys_protect p' = flag_phys_protect p) s').
Proof.
  intros Hinv Hi Hsn Hmk Hio Hd.
  destruct (inv_at s g i p Hinv Hi) as (bs & Lst & Prv & Old & bl & new & m & im & HS & Hm & Him & [H1 H2 H3 H4]).
  eapply at_page; [done|]. intros Hlt. unfold page_fault_snap_aid. run. rewrite Hmk, Hd, orb_true_r.
  destruct (take_make_fields p Hmk) as (E1 & E2 & E3 & E4 & E5 & E6 & E7 & E8 & E9).
  pose proof (take_make_ok _ _ _ _ _ _ _ _ _ _ _ _ HS Hi Hm Him Hsn Hio Hmk Hd) as HS'.
  assert (keeps s g i (fun p' => is_Some (make_page p') /\
    pager_io p' = None /\ write_waiting p' = write_waiting p /\ flag_phys_mem p' = flag_phys_mem p /\
    flag_phys_protect p' = flag_phys_protect p) (with_page s i (take_make p) (pg s) (clean_q s) (dirty_q s))) as HK.
  { eapply keeps_with; [done..|]. rewrite E1, E3, E6, E7, E9. by eauto. }
  clear HS'. unfold take_make in HK. destruct (curr_page p) as [c|]; [by run|]. destruct (prev_page p) as [c|]; by run.
Qed.

(** Nothing of the snapshot is lost when the page is written. *)
Definition may_write (st : stage) (p : vm_page) : Prop := forall k, st = Open k false -> make_page p <> None.

Lemma get_page_ok s g i p :
  inv s g -> pages s !! i = Some p -> pager_io p = None -> write_waiting p = false -> may_write (stage_of (snapper s) i) p ->
  (flag_phys_mem p = true -> flag_phys_protect p = true) ->
  wpe no_space (p ← page i;
    if flag_phys_mem p then
      if flag_phys_protect p then
        hal_page_control i (Some RW);;
        update i (fun p => set_phys (flag_phys_mem p) false true p);;
        move_to_dirty_q i
      else mret tt
    else
    update i (fun p => set_content None (set_phys true false false p));;
    let from := backing p in
    if from =? 0 then
      update i (set_content (Some 0));;
      hal_page_control i (Some RW);;
      update i (fun p => set_phys (flag_phys_mem p) (flag_phys_protect p) true p);;
      put_on_dirty_q i
    else
      pagein i from;;
      update i (set_waiting true)) s (fun _ => keeps s g i any_page).
Proof.
  intros Hinv Hi Hio Hw Hmay Hpr.
  destruct (inv_at s g i p Hinv Hi) as (bs & Lst & Prv & Old & bl & new & m & im & HS & Hm & Him & [H1 H2 H3 H4]).
  assert (no_cow p) as Hnc by (unfold no_cow; by rewrite Hio).
  eapply at_page; [done|]. intros Hlt. run. unfold io_ok in H2. rewrite Hio in H2. destruct (flag_phys_mem p) eqn:Hmem.
  - specialize (Hpr eq_refl). rewrite Hpr. destruct H2 as (Hc & Hmap & Hcq & Hdq & _ & _).
    assert (flag_phys_dirty p = false) as Hd.
    { destruct (flag_phys_dirty p) eqn:Hd; [|done]. destruct (H4 Hio Hd Hpr) as (Hmk & k & E). by destruct (Hmay k E). }
    rewrite Hd in *. simpl in Hcq. unfold move_to_dirty_q. run. eapply keeps_with; [done| |done].
    apply (sinv_update HS Hi Hm Him); [done|queues|by left|]. on_queues. split.
    + simpl. congruence.
    + unfold io_ok. simpl. rewrite Hio, Hmem, Hw. by split_and!.
    + eapply stage_same; [done..|]. intros k E Hmk. by destruct (Hmay k E).
    + intros _ _. simpl. congruence.
  - destruct H2 as (Hmap & Hcq & Hdq & Hd & _). specialize (H1 Hd). run. destruct (backing p =? 0) eqn:E0.
    + apply Z.eqb_eq in E0. rewrite E0 in H1. apply holds_zero in H1 as ->. run. eapply keeps_with; [done| |done].
      apply (sinv_update HS Hi Hm Him); [done|queues|by left|]. on_queues. rewrite Hcq. split.
      * simpl. congruence.
      * unfold io_ok. simpl. rewrite Hio, Hw. by split_and!.
      * eapply stage_same; [done..|]. intros k E Hmk. by destruct (Hmay k E).
      * intros _ _. simpl. congruence.
    + apply Z.eqb_neq in E0. unfold pagein. run. unfold busy. simpl. rewrite Hio. simpl. run. eapply keeps_with; [done| |done].
      apply (sinv_update HS Hi Hm Him); [done|queues|by left|]. rewrite Hcq, Hdq. split.
      * by intros _.
      * unfold io_ok. simpl. by split_and!.
      * eapply stage_same; [done..|]. intros k E Hmk. by destruct (Hmay k E).
      * by intros ?.
Qed.

Lemma closed_stage pc i k : in_snap pc = false -> stage_of pc i <> Open k false.
Proof. destruct pc; try done; simpl; repeat case_decide; done. Qed.

(** A fault for writing that does not have to wait. *)
Lemma write_go_ok s g i p :
  inv s g -> pages s !! i = Some p -> pager_io p = None -> write_waiting p = false ->
  wpe no_space (page_fault_write_go i) s (fun _ => keeps s g i any_page).
Proof.
  intros Hinv Hi Hio Hw.
  destruct (inv_at s g i p Hinv Hi) as (bs & Lst & Prv & Old & bl & new & m & im & HS & Hm & Him & HP). pose proof HP as [H1 H2 H3 H4].
  unfold io_ok in H2. rewrite Hio in H2. pose proof (si_snap _ _ _ _ _ _ _ _ HS) as Hsnap.
  eapply at_page; [done|]. intros Hlt. unfold page_fault_write_go. run. rewrite with_page_id by done.
  destruct (flag_phys_mem p && negb (flag_phys_protect p)) eqn:Hrw.
  { apply andb_true_iff in Hrw as [Hmem Hpr%negb_true_iff]. rewrite Hmem, Hpr, Hw in H2.
    destruct (flag_phys_dirty p); [apply wpe_ret; by eapply keeps_same|]. destruct H2 as (_ & _ & _ & _ & H2 & _). by specialize (H2 eq_refl). }
  assert (flag_phys_mem p = true -> flag_phys_protect p = true) as Hpr.
  { intros E. rewrite E in Hrw. by apply negb_false_iff in Hrw. }
  apply wpe_bind, wp_wpe, wp_gets. rewrite Hsnap. apply wpe_bind.
  destruct (in_snap (snapper s) && negb (bool_decide (is_Some (make_page p)))) eqn:Haid.
  - apply andb_true_iff in Haid as [Hsn Hmk%negb_true_iff%bool_decide_eq_false_1].
    assert (make_page p = None) as Hmk' by (destruct (make_page p); [destruct Hmk; eauto|done]). clear Hmk.
    destruct (flag_phys_dirty p) eqn:Hd.
    + destruct (flag_phys_mem p) eqn:Hmem; [|destruct H2 as (_ & _ & _ & ? & _); done]. destruct H2 as (Hc & _ & Hcq & Hdq & _). simpl in Hcq.
      assert (s = with_page s i (set_io None p) (pg s) (clean_q s) (dirty_q s)) as Es.
      { rewrite <-(with_page_id s i p Hi) at 1. f_equal. rewrite <-Hio. by destruct p. }
      rewrite Es at 1. eapply wpe_mono; [by eapply snap_cow_ok; try done; decided|]. intros done s' [-> HK]. by run.
    + eapply wpe_mono; [by apply (snap_clean_ok s g i p)|].
      intros done s' [-> HK]. destruct (keeps_page _ _ _ _ _ _ HK Hi) as (Hinv' & Epc & p' & Hi' & Hmk & Hio' & Hw' & Hmem' & Hpr').
      eapply wpe_mono; [apply (get_page_ok s' g i p')|]; try done; try congruence.
      * intros k _. destruct Hmk as [? Hmk]. congruence.
      * rewrite Hmem', Hpr'. done.
      * intros ? s2 HK2. by eapply keeps_then.
  - apply wpe_ret. apply (get_page_ok s g i p); try done. intros k E Hmk. rewrite Hmk in Haid. simpl in Haid. rewrite andb_true_r in Haid.
    by eapply closed_stage.
Qed.

(** A copy of the page is being written: the page itself can be. *)
Lemma write_cow_ok s g i p c q st :
  inv s g -> pages s !! i = Some p -> pager_io p = Some (mkIo (Cow c) q st) ->
  wpe no_space (page_fault_write_go i) s (fun _ => keeps s g i any_page).
Proof.
  intros Hinv Hi Hio.
  destruct (inv_at s g i p Hinv Hi) as (bs & Lst & Prv & Old & bl & new & m & im & HS & Hm & Him & [H1 H2 H3 H4]).
  unfold io_ok in H2. rewrite Hio in H2. destruct H2 as (Hmem & Hpr & Hd & _).
  eapply at_page; [done|]. intros Hlt. unfold page_fault_write_go. run. rewrite Hmem, Hpr, Hd. simpl. run.
  rewrite with_page_id by done. by eapply keeps_same.
Qed.

Lemma page_fault_write_ok s g i p dequeued :
  inv s g -> pages s !! i = Some p -> store_ok p dequeued = true ->
  wpe no_space (page_fault_write i dequeued) s (fun _ => keeps s g i any_page).
Proof.
  intros Hinv Hi Hok. unfold store_ok in Hok.
  destruct (inv_at s g i p Hinv Hi) as (bs & Lst & Prv & Old & bl & new & m & im & HS & Hm & Him & [H1 H2 H3 H4]).
  pose proof (si_snap _ _ _ _ _ _ _ _ HS) as Hsnap.
  eapply at_page; [done|]. intros Hlt. unfold page_fault_write. run. rewrite with_page_id by done. apply wp_wpe, wp_gets.
  destruct (pager_io p) as [[k q st]|] eqn:Hio; [|apply (write_go_ok s g i p); try done; by destruct (write_waiting p)].
  unfold own_page. simpl in *. destruct k as [|c|].
  - rewrite Hsnap. destruct (in_snap (snapper s)) eqn:Hsn; simpl; [|apply wpe_ret; by eapply keeps_same].
    destruct (make_page p) as [a|] eqn:Hmk; simpl; [apply wpe_ret; by eapply keeps_same|].
    destruct dequeued; simpl; [|apply wpe_ret; by eapply keeps_same].
    unfold io_ok in H2. rewrite Hio in H2. destruct H2 as (Hmem & Hpr & Hd & Hc & Hmap & Hcq & Hdq & Hcu & Hw).
    rewrite Hd. eapply at_page; [done|]. intros _. run. unfold page_fault_write_go. run. rewrite Hmem, Hpr. simpl.
    apply wpe_bind, wp_wpe, wp_gets. simpl. rewrite Hsnap, Hmk. simpl. apply wpe_bind.
    eapply wpe_mono; [eapply snap_cow_ok; try done; [by decided|by left|queues]|]. intros done s' [-> HK]. by run.
  - by eapply write_cow_ok.
  - destruct dequeued; [done|]. rewrite andb_false_r. apply wpe_ret. by eapply keeps_same.
Qed.

(** A page that is mapped for writing. *)
Lemma mapped_rw m c w p :
  io_ok m c w p -> mapping p = Some RW ->
  flag_phys_mem p = true /\ flag_phys_protect p = false /\ (flag_phys_dirty p = false -> pager_io p = None /\ write_waiting p = true) /\
  forall m', io_ok m' c w (set_content (Some m') p).
Proof.
  unfold io_ok. intros H Ha. simpl. destruct (pager_io p) as [[[] q st]|].
  - destruct H as (_ & _ & _ & _ & E & _). congruence.
  - destruct H as (E1 & E2 & E3 & _ & H). rewrite E1, E2, E3. by split_and!.
  - destruct H as (_ & _ & _ & E & _). congruence.
  - destruct (flag_phys_mem p); [|destruct H as [E _]; congruence]. destruct H as (E1 & E2 & E3 & E4 & E5 & E6).
    rewrite Ha in E2. destruct (flag_phys_protect p); [done|]. split_and!; try done.
    intros Hd. specialize (E5 Hd). by destruct (write_waiting p).
Qed.

Lemma store_step_ok s g i p f dequeued :
  inv s g -> pages s !! i = Some p -> store_ok p dequeued = true -> wpe no_space (store i f dequeued) s (observed g).
Proof.
  intros Hinv Hi Hok. eapply at_page; [done|]. intros Hlt. unfold store. run. rewrite with_page_id by done.
  case_bool_decide as Hrw.
  2: { apply wpe_bind. eapply wpe_mono; [by eapply page_fault_write_ok|]. intros _ s' [H _]. apply wpe_ret. by exists g. }
  destruct (inv_at s g i p Hinv Hi) as (bs & Lst & Prv & Old & bl & new & m & im & HS & Hm & Him & [H1 H2 H3 H4]).
  rewrite (mapped_content _ _ _ _ _ H2 Hrw). destruct (mapped_rw _ _ _ _ H2 Hrw) as (Hmem & Hpr & Hd & Hio).
  run. eapply at_page; [done|]. intros _. run. eexists. split; [done|]. exists bs, Lst, Prv, Old, bl, new.
  assert (alter f i (mem g) = <[i := f m]> (mem g)) as -> by (rewrite <-(list_insert_id (mem g) i m) at 1 by done; apply alter_insert).
  apply (sinv_page HS Hi Hm Him _ (f m) (pg s) bs []); try done; [apply HS|apply pframe_refl|by intros ? ?%not_elem_of_nil|by left|].
  split; [|apply Hio| |done].
  - simpl. intros E. destruct (Hd E) as [E1 E2]. unfold store_ok in Hok. by rewrite E1, E2 in Hok.
  - unfold stage_ok in *. simpl. destruct (stage_of (snapper s) i) as [|k fi| |]; try done.
    destruct (make_page p) as [a|]; [done|]. destruct H3 as (_ & _ & _ & _ & U1 & _). specialize (U1 Hmem). congruence.
Qed.
