(* ===== verification/SnapSpec.v ===== *)
(** * Snapshots are consistent

    Every step of the snapshot thread keeps the invariant, and so does every run of
    threads, disk and snapshot thread; a restart finds the image of the last complete
    snapshot, whenever it happens. *)

From S2P Require Import Prelude Amap Pager PagerSpec Snap SnapInv SnapOps.

(** ** One page after the other *)

Lemma for_page_ok s g k f again next :
  inv s g ->
  (forall p, pages s !! k = Some p ->
    wpe no_space (f k) s (fun (b : bool) s' => if b then inv (set_snapper again s') g else inv s' g)) ->
  ((length (pages s) <= k)%nat -> inv (set_snapper next s) g) ->
  wpe no_space (for_page k f again next;; mret None) s (observed g).
Proof.
  intros Hinv Hf Hn. unfold for_page. apply wpe_bind, wpe_bind, wp_wpe, wp_gets. case_bool_decide as Hk.
  - destruct (lookup_lt_is_Some_2 _ _ Hk) as [p Hp]. apply wpe_bind. eapply wpe_mono; [by eapply Hf|].
    intros [|] s' H; [apply wp_wpe, wp_modify|apply wpe_ret]; apply wpe_ret; by exists g.
  - apply wp_wpe, wp_modify, wpe_ret. exists g. split; [done|]. apply Hn. lia.
Qed.

(** A new stage of page [k] only. *)
Lemma sinv_next s g bs Lst Prv Old bl new k p pc' bl' :
  sinv s g bs Lst Prv Old bl new -> pages s !! k = Some p ->
  pc_ok pc' (pg s) (pages s) Old bl' new -> in_snap (snapper s) = in_snap pc' ->
  (forall i, i <> k -> stage_of pc' i = stage_of (snapper s) i) ->
  (forall m im c w, pinv (disk (pg s)) m im (entry Lst k) (stage_of (snapper s) k) c w p ->
    pinv (disk (pg s)) m im (entry Lst k) (stage_of pc' k) c w p) ->
  sinv (set_snapper pc' s) g bs Lst Prv Old bl' new.
Proof.
  intros HS Hk Hpc Hsn Hst Hp. eapply sinv_move; [done..| |].
  - rewrite <-Hsn. apply HS.
  - intros i p' m im c w Hi Hpi. destruct (decide (i = k)) as [->|Hik]; [simplify_eq; by apply Hp|by rewrite Hst].
Qed.

Lemma pc_at {s g bs Lst Prv Old bl new pc} :
  sinv s g bs Lst Prv Old bl new -> snapper s = pc -> pc_ok pc (pg s) (pages s) Old bl new.
Proof. intros HS <-. apply HS. Qed.

Lemma lt_S_ne i k : i <> k -> bool_decide (i < S k)%nat = bool_decide (i < k)%nat.
Proof. intros H. apply bool_decide_ext. lia. Qed.

Lemma kick_ok s g k p :
  inv s g -> pages s !! k = Some p -> wpe no_space (kick_pageout k) s (fun _ => keeps s g k (pageout_of p)).
Proof.
  intros Hinv Hi. eapply at_page; [done|]. intros Hlt. unfold kick_pageout. apply wpe_bind, page_at; [done|].
  rewrite with_page_id by done. destruct (flag_phys_dirty p) eqn:Hd; [by apply req_pageout_ok|].
  apply wpe_ret. eapply keeps_same; [done..|]. split_and!; congruence.
Qed.

Lemma always_ok s k f (Q : bool -> vm_map -> Prop) :
  wpe no_space (f k) s (fun _ s' => Q true s') -> wpe no_space (always f k) s Q.
Proof. intros H. unfold always. apply wpe_bind. eapply wpe_mono; [exact H|]. intros a s' H'. by apply wpe_ret. Qed.

Lemma kick1_ok s g k :
  inv s g -> snapper s = Kick1 k ->
  wpe no_space (for_page k (always kick_pageout) (Kick1 (S k)) Mark;; mret None) s (observed g).
Proof.
  intros Hinv Hpc. apply for_page_ok; [done| |].
  - intros p Hp. apply always_ok. eapply wpe_mono; [by eapply kick_ok|].
    intros _ s' ((bs & Lst & Prv & Old & bl & new & HS) & Hpc' & _). exists bs, Lst, Prv, Old, bl, new.
    rewrite Hpc in Hpc'. eapply sinv_stage; [done|..]; rewrite ?Hpc'; try done.
    exact (pc_at HS Hpc').
  - destruct Hinv as (bs & Lst & Prv & Old & bl & new & HS). exists bs, Lst, Prv, Old, bl, new.
    eapply sinv_stage; [done|..]; rewrite ?Hpc; try done. exact (pc_at HS Hpc).
Qed.

(** A page of which nothing is saved and that has no place yet is on its way to disk. *)
Lemma kicked_page d m im l c w p :
  (flag_phys_dirty p = true -> is_Some (pager_io p)) ->
  pinv d m im l (Open false false) c w p -> pinv d m im l (Open true false) c w p.
Proof.
  intros Hd [H1 H2 H3 H4]. split; [done..| |].
  - unfold stage_ok in *. destruct (make_page p); [done|]. destruct H3 as (? & ? & ? & Hnc & U1 & U2 & _).
    split_and!; try done. split_and!; try done. intros _ Hdirty. destruct (Hd Hdirty) as [[kd q st] Hio].
    unfold paging_out, io_ok, no_cow in *. rewrite Hio in *. destruct kd; try done. destruct H2 as (_ & _ & ? & _). congruence.
  - intros A B C. destruct (H4 A B C) as [E _]. by eauto.
Qed.

Lemma kick2_ok s g k :
  inv s g -> snapper s = Kick2 k ->
  wpe no_space (for_page k (always kick_pageout) (Kick2 (S k)) (Finalize 0);; mret None) s (observed g).
Proof.
  intros Hinv Hpc. apply for_page_ok; [done| |].
  - intros p Hp. apply always_ok. eapply wpe_mono; [by eapply kick_ok|].
    intros ? s' HK. destruct (keeps_page _ _ _ _ _ _ HK Hp) as ((bs & Lst & Prv & Old & bl & new & HS) & Hpc' & p' & Hp' & _ & _ & _ & Hd). exists bs, Lst, Prv, Old, bl, new.
    rewrite Hpc in Hpc'. pose proof (pc_at HS Hpc') as H.
    eapply (sinv_next _ _ _ _ _ _ _ _ k p'); [done|done|..]; rewrite ?Hpc'; try done; simpl.
    + intros i Hi. by rewrite lt_S_ne.
    + rewrite bool_decide_eq_false_2 by lia. rewrite bool_decide_eq_true_2 by lia. intros m im c w. by apply kicked_page.
  - intros Hk. destruct Hinv as (bs & Lst & Prv & Old & bl & new & HS). exists bs, Lst, Prv, Old, bl, new.
    pose proof (pc_at HS Hpc) as H.
    eapply sinv_stage; [done|..]; rewrite ?Hpc; try done. intros i Hi. unfold stage_of.
    rewrite (bool_decide_eq_false_2 (i < 0)%nat) by lia. by rewrite bool_decide_eq_true_2 by lia.
Qed.

(** A page of which something is saved is final. *)
Lemma final_page d m im l k c w p :
  is_Some (make_page p) -> pinv d m im l (Open k false) c w p -> pinv d m im l (Open true true) c w p.
Proof.
  intros [q Hq] [H1 H2 H3 H4]. split; [done..| |].
  - unfold stage_ok in *. by rewrite Hq in *.
  - intros A B C. destruct (H4 A B C). congruence.
Qed.

Lemma take_make_eq p :
  take_make p = match curr_page p with
    | Some c => set_curr None (set_make (Some c) p)
    | None => match prev_page p with Some c => set_prev None (set_make (Some c) p) | None => set_make (Some 0) p end
    end.
Proof. done. Qed.

Lemma finalize_page_ok s g k p :
  inv s g -> snapper s = Finalize k -> pages s !! k = Some p ->
  wpe no_space (finalize_snap k) s (fun (b : bool) s' =>
    if b then keeps s g k (fun p => is_Some (make_page p)) s' else inv s' g).
Proof.
  intros Hinv Hpc Hi. eapply at_page; [done|]. intros Hlt. unfold finalize_snap. apply wpe_bind, page_at; [done|].
  rewrite with_page_id by done.
  destruct (make_page p) as [q|] eqn:Hmk; [apply wpe_ret; by eapply keeps_same|].
  destruct (busy p) eqn:Hb; [by apply wpe_ret|]. apply busy_None in Hb.
  destruct (inv_at s g k p Hinv Hi) as (bs & Lst & Prv & Old & bl & new & m & im & HS & Hm & Him & [H1 H2 H3 H4]).
  assert (flag_phys_dirty p = false) as Hd.
  { rewrite Hpc in H3. simpl in H3. rewrite Hmk in H3. destruct H3 as (_ & _ & _ & _ & _ & _ & U).
    destruct (flag_phys_dirty p); [|done]. specialize (U eq_refl eq_refl). unfold paging_out in U. by rewrite Hb in U. }
  rewrite Hd. apply wpe_bind, wpe_ret.
  assert (keeps s g k (fun p => is_Some (make_page p)) (with_page s k (take_make p) (pg s) (clean_q s) (dirty_q s))) as HK.
  { eapply keeps_with; [done| |by rewrite (proj1 (take_make_fields p Hmk))].
    eapply take_make_ok; try done. by rewrite Hpc. }
  rewrite take_make_eq in HK. eapply at_page; [done|]. intros _.
  destruct (curr_page p); [|destruct (prev_page p)]; apply wpe_bind, update_at, wpe_ret; exact HK.
Qed.

Lemma finalize_ok s g k :
  inv s g -> snapper s = Finalize k ->
  wpe no_space (for_page k finalize_snap (Finalize (S k)) Unset;; mret None) s (observed g).
Proof.
  intros Hinv Hpc. apply for_page_ok; [done| |].
  - intros p Hp. eapply wpe_mono; [by eapply finalize_page_ok|]. intros [|] s' H; [|done].
    destruct (keeps_page _ _ _ _ _ _ H Hp) as ((bs & Lst & Prv & Old & bl & new & HS) & Hpc' & p' & Hp' & Hmk). clear H. exists bs, Lst, Prv, Old, bl, new.
    rewrite Hpc in Hpc'. pose proof (pc_at HS Hpc') as H.
    eapply (sinv_next _ _ _ _ _ _ _ _ k p'); [done|done|..]; rewrite ?Hpc'; try done; simpl.
    + intros i Hi. by rewrite lt_S_ne.
    + rewrite bool_decide_eq_false_2 by lia. rewrite bool_decide_eq_true_2 by lia. intros m im c w. by apply final_page.
  - intros Hk. destruct Hinv as (bs & Lst & Prv & Old & bl & new & HS). exists bs, Lst, Prv, Old, bl, new.
    pose proof (pc_at HS Hpc) as H.
    eapply sinv_stage; [done|..]; rewrite ?Hpc; try done. intros i Hi. simpl. by rewrite bool_decide_eq_true_2 by lia.
Qed.

(** Data that is still to be copied has no place in memory. *)
Lemma committed_page d m im l c w p :
  (forall r, pager_io p = Some r -> curr_page p = Some (disk_page r)) ->
  pinv d m im l Written c w p -> pinv d m im l Committed c w p.
Proof.
  intros Hr [H1 H2 H3 H4]. assert (no_cow p) as Hnc.
  { unfold no_cow, io_ok in *. destruct (pager_io p) as [[[] q ?]|]; try done. specialize (Hr _ eq_refl). simpl in Hr.
    destruct H2 as (_ & _ & _ & _ & _ & _ & _ & ? & _). congruence. }
  split; [done..| |].
  - destruct H3 as (? & q & ? & H3). split_and!; try done. exists q. split; [done|]. by rewrite snapped_no_cow in H3.
  - intros A B C. destruct (H4 A B C) as [? [? ?]]. done.
Qed.

Lemma lt_S_ne' {A} i k (x y : A) : i <> k -> (if decide (i < S k)%nat then x else y) = if decide (i < k)%nat then x else y.
Proof. intros H. repeat case_decide; (done || lia). Qed.

Lemma commit_ok s g k head :
  inv s g -> snapper s = Commit k head ->
  wpe no_space (for_page k wait_commit_snap (Commit (S k) head) (Super head);; mret None) s (observed g).
Proof.
  intros Hinv Hpc. apply for_page_ok; [done| |].
  - intros p Hp. unfold wait_commit_snap. eapply at_page; [done|]. intros Hlt. apply wpe_bind, page_at; [done|].
    rewrite with_page_id by done.
    assert ((forall r, pager_io p = Some r -> curr_page p = Some (disk_page r)) -> inv (set_snapper (Commit (S k) head) s) g) as Hgo.
    { intros Hr. destruct Hinv as (bs & Lst & Prv & Old & bl & new & HS). exists bs, Lst, Prv, Old, bl, new.
      pose proof (pc_at HS Hpc) as H. eapply (sinv_next _ _ _ _ _ _ _ _ k p); [done|done|..]; rewrite ?Hpc; try done; simpl.
      - intros i Hi. by rewrite lt_S_ne'.
      - rewrite decide_False by lia. rewrite decide_True by lia. intros m im c w. by apply committed_page. }
    destruct (pager_io p) as [r|] eqn:Hio; apply wpe_ret; [case_bool_decide as Hc; [|done]|]; apply Hgo; congruence.
  - intros Hk. destruct Hinv as (bs & Lst & Prv & Old & bl & new & HS). exists bs, Lst, Prv, Old, bl, new.
    pose proof (pc_at HS Hpc) as H.
    eapply sinv_stage; [done|..]; rewrite ?Hpc; try done. intros i Hi. simpl. by rewrite decide_True by lia.
Qed.

Lemma save1_ok s g k saver :
  inv s g -> snapper s = Save1 k saver ->
  wpe no_space (for_page k (always save_snap_pageout) (Save2 k saver) (Finish saver);; mret None) s (observed g).
Proof.
  intros Hinv Hpc. apply for_page_ok; [done| |].
  - intros p Hp. apply always_ok. unfold save_snap_pageout. eapply at_page; [done|]. intros Hlt. apply wpe_bind, page_at; [done|].
    rewrite with_page_id by done. eapply (wpe_mono _ _ _ (fun _ => keeps s g k any_page)).
    { destruct (unused_page p); [apply wpe_ret; by eapply keeps_same|].
      eapply wpe_mono; [by apply req_pageout_ok|]. intros _ s' (H1 & H2 & p' & H3 & _). split_and!; try done. by exists p'. }
    intros ? s' HK. destruct (keeps_page _ _ _ _ _ _ HK Hp) as ((bs & Lst & Prv & Old & bl & new & HS) & Hpc' & p' & Hp' & _). exists bs, Lst, Prv, Old, bl, new.
    rewrite Hpc in Hpc'. destruct (pc_at HS Hpc') as [(cs & ws & H1 & H2 & H3 & H4 & H5) H6].
    eapply sinv_stage; [done|..]; rewrite ?Hpc'; try done. split; [|done]. exists cs, ws. split_and!; try done.
    by eapply lookup_lt_Some.
  - intros Hk. destruct Hinv as (bs & Lst & Prv & Old & bl & new & HS). exists bs, Lst, Prv, Old, bl, new.
    destruct (pc_at HS Hpc) as [(cs & ws & H1 & H2 & H3 & H4 & H5) H6].
    eapply sinv_stage; [done|..]; rewrite ?Hpc; try done; simpl.
    + split; [|done]. exists cs, ws. split_and!; try done. lia.
    + intros i Hi. by rewrite decide_True by lia.
Qed.

(** ** Marking *)

Definition mark_page (p : vm_page) : vm_page :=
  if flag_phys_mem p && negb (flag_phys_protect p)
  then set_phys (flag_phys_mem p) true (flag_phys_dirty p) (set_mapping (Some RO) p) else p.

Lemma alter_at {A} (f : A -> A) i x (l : list A) : l !! i = Some x -> alter f i l = <[i := f x]> l.
Proof. intros H. rewrite <-(list_insert_id l i x H) at 1. apply alter_insert. Qed.

Lemma mark_one s i p :
  pages s !! i = Some p -> make_page p = None ->
  mark_for_snap i s = Ret tt (set_pages (<[i := mark_page p]> (pages s)) s).
Proof.
  intros Hi Hm. unfold mark_for_snap, page, hal_page_control, update, mbind, M_bind, gets, some_or_fault, modify. rewrite Hi. simpl.
  rewrite Hm. simpl. unfold mark_page. destruct (flag_phys_mem p) eqn:E; simpl; [destruct (flag_phys_protect p); simpl|];
    [rewrite list_insert_id by done; by destruct s| |rewrite list_insert_id by done; by destruct s].
  unfold set_pages. simpl. rewrite (alter_at _ _ _ _ Hi), alter_insert. simpl. by rewrite E.
Qed.

Lemma mark_all ps1 ps2 s :
  pages s = ps1 ++ ps2 -> Forall (fun p => make_page p = None) ps2 ->
  for_each mark_for_snap (seq (length ps1) (length ps2)) s = Ret tt (set_pages (ps1 ++ (mark_page <$> ps2)) s).
Proof.
  revert ps1 s. induction ps2 as [|p ps2 IH]; intros ps1 s Hs Hm; simpl.
  - rewrite <-Hs. by destruct s.
  - apply list.Forall_cons in Hm as [Hp Hm]. unfold mbind, M_bind.
    rewrite (mark_one s (length ps1) p) by (by rewrite ?Hs, ?list_lookup_middle). rewrite Hs. rewrite insert_app_r_alt by lia.
    rewrite Nat.sub_diag. simpl. change (p :: ps2) with ([p] ++ ps2).
    specialize (IH (ps1 ++ [mark_page p]) (set_pages (ps1 ++ mark_page p :: ps2) s)). rewrite length_app in IH. simpl in IH.
    rewrite Nat.add_comm in IH. simpl in IH. rewrite IH; [|by rewrite <-app_assoc|done]. by rewrite <-app_assoc.
Qed.

Lemma mark_page_own l p : own l (mark_page p) = own l p.
Proof. unfold mark_page. by destruct (_ && _). Qed.
Lemma owned_marked L ps : owned L (mark_page <$> ps) = owned L ps.
Proof. unfold owned. rewrite imap_fmap. f_equal. apply imap_ext. intros i p _. apply mark_page_own. Qed.

(** From now on the page may not be written before the snapshot has a copy. *)
Lemma marked_page d m im l c w p :
  write_waiting p = false -> pinv d m im l Normal c w p -> pinv d m m l (Open false false) c w (mark_page p).
Proof.
  intros Hw [H1 H2 (S1 & S2 & S3) H4].
  assert (forall b, flag_phys_mem p = true -> flag_phys_protect p = b -> mark_page p =
    if b then p else set_phys (flag_phys_mem p) true (flag_phys_dirty p) (set_mapping (Some RO) p)) as E.
  { intros b A B. unfold mark_page. rewrite A, B. by destruct b. }
  assert (pager_io (mark_page p) = pager_io p /\ make_page (mark_page p) = None /\ prev_page (mark_page p) = prev_page p /\
    write_waiting (mark_page p) = false /\ flag_phys_dirty (mark_page p) = flag_phys_dirty p /\ backing (mark_page p) = backing p)
    as (E1 & E2 & E3 & E4 & E5 & E6) by (unfold mark_page; by destruct (_ && _)).
  split.
  - by rewrite E5, E6.
  - unfold io_ok in *. rewrite E1. unfold no_cow in S3. destruct (pager_io p) as [[[] q b]|]; [|done|..].
    + pose proof H2 as (A & B & _). by rewrite (E true A B).
    + pose proof H2 as (A & B & _). rewrite Hw in B. by rewrite (E true A B).
    + destruct (flag_phys_mem p) eqn:A; [|unfold mark_page; rewrite A; simpl; by rewrite A].
      destruct (flag_phys_protect p) eqn:B; [by rewrite (E true eq_refl eq_refl), A, B|].
      rewrite (E false eq_refl eq_refl). simpl. rewrite Hw. destruct H2 as (? & ? & ? & ? & ? & ?). by split_and!.
  - simpl. rewrite E2, E3. split_and!; try done; [unfold no_cow; by rewrite E1|].
    split_and!; try done. unfold mark_page. destruct (flag_phys_mem p) eqn:A; simpl; [|congruence]. by destruct (flag_phys_protect p) eqn:B.
  - intros _ _ _. split; [done|]. by exists false.
Qed.

Lemma mark_sinv s g bs Lst Prv Old bl new :
  sinv s g bs Lst Prv Old bl new -> snapper s = Mark -> Forall (fun p => write_waiting p = false) (pages s) ->
  sinv (mkVm (pg s) (mark_page <$> pages s) (clean_q s) (dirty_q s) true (Kick2 0)) (mkGhost (mem g) (mem g) (saved g)) bs Lst Prv Old bl new.
Proof.
  intros HS Hpc Hw. pose proof (pc_at HS Hpc) as Hp. destruct HS as [S1 S2 S3 S4 S5 S6 S7].
  split; cbn [pg pages mem marked saved clean_q dirty_q snapper is_in_snapshot_process]; rewrite ?length_fmap; try done.
  - by rewrite owned_marked.
  - intros i p' m im Hi Hm Him. rewrite list_lookup_fmap in Hi. destruct (pages s !! i) as [p|] eqn:Ei; [|done]. simpl in Hi. simplify_eq.
    unfold stage_of at 1. rewrite (bool_decide_eq_false_2 (i < 0)%nat) by lia.
    destruct (lookup_lt_is_Some_2 (marked g) i) as [im' Him'].
    { rewrite S5. by eapply lookup_lt_Some. }
    rewrite Hpc in S7. eapply marked_page; [|by apply (S7 i p m im')].
    rewrite list.Forall_forall in Hw. apply Hw. by eapply list_elem_of_lookup_2.
Qed.

Lemma mark_ok garbage s g :
  inv s g -> snapper s = Mark -> enabled Snapshot s = true -> wpe no_space (do_snapshot garbage) s (observed g).
Proof.
  intros (bs & Lst & Prv & Old & bl & new & HS) Hpc He. unfold do_snapshot. apply wpe_bind, wp_wpe, wp_gets. rewrite Hpc.
  simpl in He. rewrite Hpc in He. apply wpe_bind, wp_wpe, wp_modify, wpe_bind, wp_wpe, wp_gets, wpe_bind. simpl.
  assert (Forall (fun p => make_page p = None) (pages s)) as Hmk.
  { apply list.Forall_forall. intros p (i & Hi)%list_elem_of_lookup_1.
    destruct (inv_at s g i p (ltac:(by exists bs, Lst, Prv, Old, bl, new)) Hi) as (? & ? & ? & ? & ? & ? & ? & ? & _ & _ & _ & Hpi).
    rewrite Hpc in Hpi. apply Hpi. }
  apply wp_wpe. eapply wp_eq; [apply (mark_all []); [done|exact Hmk]|]. apply wpe_bind, wp_wpe, wp_modify, wpe_ret.
  eexists. split; [done|]. exists bs, Lst, Prv, Old, bl, new. apply (mark_sinv s g); try done.
  apply list.Forall_forall. intros p Hp. rewrite forallb_forall in He. apply negb_true_iff, He. by apply list_elem_of_In.
Qed.

(** ** Writing the list *)

Lemma wpe_on_pager {A} (m : M pager A) E s (Q : A -> vm_map -> Prop) :
  wpe E m (pg s) (fun a x => Q a (set_pg x s)) -> (forall msg, E msg -> no_space msg) -> wpe no_space (on_pager m) s Q.
Proof. intros H HE. unfold wpe, on_pager in *. destruct (m (pg s)); auto. Qed.

Lemma idle_ok s g : inv s g -> snapper s = Idle -> inv (set_snapper (Kick1 0) s) g.
Proof.
  intros (bs & Lst & Prv & Old & bl & new & HS) Hpc. exists bs, Lst, Prv, Old, bl, new.
  pose proof (pc_at HS Hpc). eapply sinv_stage; [done|..]; by rewrite ?Hpc.
Qed.

Lemma unset_ok s g : inv s g -> snapper s = Unset -> inv (set_snapper Create (set_in_snap false s)) g.
Proof.
  intros (bs & Lst & Prv & Old & bl & new & HS) Hpc. exists bs, Lst, Prv, Old, bl, new.
  pose proof (pc_at HS Hpc) as H. eapply (sinv_move s _ _ _ _ _ _ _ Create bl); [exact HS|exact H|done|]. rewrite Hpc. by intros ? ? ? ? ? ? _ ?.
Qed.

Lemma new_list_ok garbage s g :
  inv s g -> snapper s = Create -> wpe no_space (do_snapshot garbage) s (observed g).
Proof.
  intros (bs & Lst & Prv & Old & bl & new & HS) Hpc. destruct (pc_at HS Hpc) as [-> Hold].
  pose proof (di_pager _ _ _ _ _ _ _ (si_disk _ _ _ _ _ _ _ _ HS)) as Hi.
  unfold do_snapshot. apply wpe_bind, wp_wpe, wp_gets. rewrite Hpc. apply wpe_bind.
  eapply (wpe_on_pager _ (fun _ => False)); [|done]. apply wp_wpe. eapply wp_mono; [by apply (pager_alloc_ok _ bs)|].
  intros [root|] x1 (bs1 & Hi1 & F1 & P1); [|apply wpe_panic; right; by left].
  assert (root ∉ all_free x1 bs1 /\ page_ok (superblock (pg s)) root) as [Hroot (H0 & _)].
  { pose proof (pi_nodup _ _ Hi) as Hnd. pose proof (pi_ok _ _ Hi) as Hok. rewrite P1 in Hnd, Hok.
    apply list.NoDup_cons in Hnd as [? _]. by apply list.Forall_cons in Hok as [? _]. }
  apply wpe_bind. eapply (wpe_on_pager _ (fun _ => False)); [|done]. apply wp_wpe.
  eapply wp_mono; [apply (pagelist_start x1 bs1 root); [done|lia|done]|].
  intros l x2 (Hi2 & P2 & W2 & R2 & O2 & F2). apply wpe_bind, wp_wpe, wp_modify, wpe_ret. exists g. split; [done|].
  exists bs1, Lst, Prv, Old, bl, [root]. apply (sinv_pager _ _ _ _ _ _ _ _ x2 bs1 [root] [root] (Save1 0 l) bl HS); try done; rewrite ?Hpc.
  - eapply (pframe_trans _ [] [root]); [by intros ? ?%not_elem_of_nil|done|done|done].
  - intros q. rewrite P1. intros ->%list_elem_of_singleton. by left.
  - rewrite P2, P1. done.
  - split; [|done]. exists [], []. split_and!; try done. simpl. lia.
  - done.
  - intros i _. unfold stage_of. by rewrite decide_False by lia.
Qed.

Lemma save2_ok garbage s g k saver :
  inv s g -> snapper s = Save2 k saver -> wpe no_space (do_snapshot garbage) s (observed g).
Proof.
  intros Hinv Hpc. pose proof Hinv as (bs & Lst & Prv & Old & bl & new & HS).
  destruct (pc_at HS Hpc) as [(cs & ws & -> & HW & Hlen & Hk & He) Hold].
  destruct (lookup_lt_is_Some_2 _ _ Hk) as [p Hp].
  destruct (inv_at s g k p Hinv Hp) as (? & ? & ? & ? & ? & ? & ? & ? & _ & _ & _ & [_ _ H3 _]).
  rewrite Hpc in H3. simpl in H3. rewrite decide_False in H3 by lia. simpl in H3. destruct (make_page p) as [q|] eqn:Hq; [|by destruct H3 as [? _]].
  pose proof (si_disk _ _ _ _ _ _ _ _ HS) as D.
  unfold do_snapshot. apply wpe_bind, wp_wpe, wp_gets. rewrite Hpc. apply wpe_bind. unfold save_snap_write. apply wpe_bind.
  eapply at_page; [done|]. intros _. apply page_at; [done|]. rewrite with_page_id by done. rewrite Hq.
  eapply (wpe_on_pager _ out_of_disk_space); [|intros msg ->; by right; right].
  eapply wpe_mono; [apply (wstate_write (pg s) bs saver cs ws q)|].
  { split; [apply D|done|..].
    - pose proof (di_nodup _ _ _ _ _ _ _ D) as Hnd. rewrite <-app_assoc in Hnd.
      apply list.NoDup_app in Hnd as (N1 & N2 & N3). apply list.NoDup_app in N3 as (_ & _ & N3).
      apply list.NoDup_app. split_and!; try done. intros a Ha Hf. apply (N2 a Ha), elem_of_app. by right.
    - pose proof (di_ok _ _ _ _ _ _ _ D) as Hok. rewrite <-app_assoc in Hok. by apply list.Forall_app in Hok as [? _]. }
  intros l' x' (bs' & cs' & [Hi' HW' _ _] & _ & HP & _ & HF). apply wpe_bind, wp_wpe, wp_modify, wpe_ret. exists g. split; [done|].
  exists bs', Lst, Prv, Old, bl, (own_pages l' cs').
  apply (sinv_pager _ _ _ _ _ _ _ _ x' bs' (own_pages saver cs) _ (Save3 k l') bl HS); try done; rewrite ?Hpc; try done.
  - intros a. clear. in_list.
  - split; [|done]. exists cs', ws, p, q. by split_and!.
Qed.

(** The entry becomes the one of the previous snapshot; it is in the new list. *)
Lemma written_page d m im l c w p q :
  make_page p = Some q -> pinv d m im l (Open true true) c w p ->
  pinv d m im l Written c w (set_prev (make_page p) (set_make None p)).
Proof.
  intros Hq [H1 H2 H3 H4]. simpl in H3. rewrite Hq in *. destruct H3 as [H3 Hl].
  assert (backing (set_prev (Some q) (set_make None p)) = backing p) as Hb.
  { unfold backing. simpl. rewrite Hq. by destruct (curr_page p). }
  split.
  - by rewrite Hb.
  - unfold io_ok in *. by rewrite Hb.
  - split; [done|]. exists q. by split.
  - intros A B C. destruct (H4 A B C). congruence.
Qed.

Lemma written_own l p q :
  make_page p = Some q -> prev_page p = None \/ default 0 (prev_page p) = l -> own l (set_prev (make_page p) (set_make None p)) ≡ₚ own l p.
Proof.
  intros Hq Hl. unfold own, own_slot. simpl. rewrite Hq. apply Permutation_app_head.
  assert (match prev_page p with Some q => if decide (q = 0 \/ q = l) then [] else [q] | None => [] end = []) as ->; [|by rewrite app_nil_r].
  destruct (prev_page p) as [a|]; [|done]. destruct Hl as [|<-]; [done|]. rewrite decide_True; [done|by right].
Qed.

Lemma save3_ok garbage s g k saver :
  inv s g -> snapper s = Save3 k saver -> wpe no_space (do_snapshot garbage) s (observed g).
Proof.
  intros Hinv Hpc. pose proof Hinv as (bs & Lst & Prv & Old & bl & new & HS).
  destruct (pc_at HS Hpc) as [(cs & ws & p & q & Hnew & HW & Hlen & He & Hp & Hq) Hold].
  pose proof (lookup_lt_Some _ _ _ Hp) as Hlt.
  destruct (lookup_lt_is_Some_2 (mem g) k) as [m Hm]; [by rewrite (si_mem _ _ _ _ _ _ _ _ HS)|].
  destruct (lookup_lt_is_Some_2 (marked g) k) as [im Him]; [by rewrite (si_marked _ _ _ _ _ _ _ _ HS)|].
  pose proof (sinv_pinv HS Hp Hm Him) as Hpi. rewrite Hpc in Hpi. simpl in Hpi. rewrite decide_False in Hpi by lia.
  unfold do_snapshot. apply wpe_bind, wp_wpe, wp_gets. rewrite Hpc. apply wpe_bind. unfold save_snap_done. apply wpe_bind.
  eapply at_page; [done|]. intros _. apply page_at; [done|]. apply update_at, wpe_bind, wp_wpe, wp_modify, wpe_ret.
  exists g. split; [done|]. exists bs, Lst, Prv, Old, bl, new. rewrite <-(mem_same g k m Hm).
  apply (sinv_page_pc HS Hp Hm Him _ _ _ _ [] _ _ (Save1 (S k) saver)); rewrite ?Hpc; try done.
  - apply HS.
  - apply pframe_refl.
  - by intros ? ?%not_elem_of_nil.
  - rewrite (written_own _ _ _ Hq); [done|]. pose proof (pi_stage _ _ _ _ _ _ _ _ Hpi) as H. simpl in H. rewrite Hq in H. apply H.
  - intros _. split; [|done]. exists cs, (ws ++ [q]). rewrite length_app, length_insert. simpl. split_and!; try done; [lia..|].
    intros i r Hr. apply lookup_app_Some in Hr as [Hr|[Hr1 Hr2]].
    + destruct (He i r Hr) as (p' & Hp' & Hpr). exists p'. split; [|done].
      apply lookup_lt_Some in Hr. by rewrite list_lookup_insert_ne by lia.
    + destruct (i - length ws)%nat as [|n] eqn:En; [|done]. simpl in Hr2. injection Hr2 as <-.
      replace i with k by lia. eexists. split; [by apply list_lookup_insert_eq|]. done.
  - intros j Hj. simpl. by rewrite lt_S_ne'.
  - simpl. rewrite decide_True by lia. by eapply written_page.
Qed.

Lemma finish_ok garbage s g saver :
  inv s g -> snapper s = Finish saver -> wpe no_space (do_snapshot garbage) s (observed g).
Proof.
  intros (bs & Lst & Prv & Old & bl & new & HS) Hpc.
  destruct (pc_at HS Hpc) as [(cs & ws & -> & HW & Hlen & He) Hold]. pose proof (si_disk _ _ _ _ _ _ _ _ HS) as D.
  pose proof (di_nodup _ _ _ _ _ _ _ D) as Hnd. rewrite <-app_assoc in Hnd. apply list.NoDup_app in Hnd as (N1 & N2 & _).
  unfold do_snapshot. apply wpe_bind, wp_wpe, wp_gets. rewrite Hpc. apply wpe_bind.
  eapply (wpe_on_pager _ (fun _ => False)); [|done]. apply wp_wpe.
  eapply wp_mono; [apply (pagelist_finish_ok (pg s) bs saver cs ws); [apply D|done..|]|].
  { intros a Ha Hf. apply (N2 a Ha), elem_of_app. by right. }
  intros _ x' (Hi' & P' & F' & bl' & Hbl & Hent & Hown). apply wpe_bind, wp_wpe, wp_modify, wpe_ret. exists g. split; [done|].
  exists bs, Lst, Prv, Old, bl', (own_pages saver cs).
  apply (sinv_pager _ _ _ _ _ _ _ _ x' bs (own_pages saver cs) _ (Commit 0 (root_page saver)) bl' HS); try done; rewrite ?Hpc; try done.
  - intros a. clear. in_list.
  - by rewrite P'.
  - split; [|done]. by rewrite Hent, Hown.
Qed.

(** The superblock is written: three copies. *)
Lemma update_super_ok s g :
  inv s g -> snapper s = Update -> wpe no_space (on_pager pager_update_superblock) s (fun _ s' => inv (set_snapper Idle s') g).
Proof.
  intros (bs & Lst & Prv & Old & bl & new & HS) Hpc. destruct (pc_at HS Hpc) as [-> ->].
  eapply (wpe_on_pager _ (fun _ => False)); [|done]. apply wp_wpe.
  eapply wp_mono; [apply (update_superblock_ok _ bs), (si_disk _ _ _ _ _ _ _ _ HS)|].
  intros _ x' ((F' & Hi' & P') & _). exists bs, Lst, Prv, [], bl, [].
  apply (sinv_pager _ _ _ _ _ _ _ _ x' bs [] [] Idle bl HS); try done; rewrite ?Hpc; try done.
  - by intros ? ?%not_elem_of_nil.
  - by rewrite P'.
Qed.

(** ** The snapshot becomes the last one *)

Lemma concat_imap_sublist {A B} (f h : nat -> A -> list B) ps :
  (forall i p, ps !! i = Some p -> f i p `sublist_of` h i p) -> concat (imap f ps) `sublist_of` concat (imap h ps).
Proof.
  revert f h. induction ps as [|p ps IH]; intros f h H; [done|]. simpl.
  apply sublist_app; [by apply (H 0%nat)|]. apply IH. intros i q Hq. by apply (H (S i)).
Qed.

Lemma list_pages_elem q l : q ∈ list_pages l -> q ∈ l.*1 \/ q <> 0 /\ exists i, entries l !! i = Some q.
Proof.
  intros ([a b] & Hq & Hb)%list_elem_of_bind. simpl in Hq. apply elem_of_cons in Hq as [->|[H0 Hq]%list_elem_of_filter].
  - left. apply list_elem_of_fmap. by exists (a, b).
  - right. split; [done|]. apply list_elem_of_lookup_1, list_elem_of_bind. by exists (a, b).
Qed.

Lemma publish_ok x bs root :
  pager_inv x bs ->
  let sb := set_snaps root (last_snap (superblock x)) (superblock x) in
  wp (modify (set_sb sb);; pager_update_superblock) x (fun _ x' =>
    pager_inv x' bs /\ all_free x' bs = all_free x bs /\ same_fixed sb (superblock x') /\
    (forall q, q ∉ sb_pages (superblock x) -> disk x' !! q = disk x !! q) /\
    disk x' !! sb_default_page_number = Some (BSuper sb)).
Proof.
  intros Hi sb. set (x1 := set_sb sb x). assert (pager_inv x1 bs) as Hi1 by (by destruct Hi).
  apply wp_bind, wp_modify. fold x1. destruct (update_superblock_ok x1 bs Hi1) as ([] & x2 & E & (F & Hi2 & P2) & _).
  eapply wp_eq; [exact E|]. split_and!; try done; [apply F|intros q Hq; by apply F; [intros ?%not_elem_of_nil|]|].
  revert E. unfold pager_update_superblock, disk_write, mbind, M_bind, gets, modify. simpl. rewrite (pi_sane _ _ Hi). simpl.
  intros [= <-]. simpl.
  destruct (decide (sb_default_page_number = sb3_addr (superblock x))) as [->|]; [by rewrite lookup_insert_eq|rewrite lookup_insert_ne by done].
  destruct (decide (sb_default_page_number = sb2_addr (superblock x))) as [->|]; [by rewrite lookup_insert_eq|rewrite lookup_insert_ne by done].
  by rewrite lookup_insert_eq.
Qed.

Lemma option_list_elem (q : Z) o : q ∈ option_list o -> o = Some q.
Proof. destruct o; simpl; [by intros ->%list_elem_of_singleton|by intros ?%not_elem_of_nil]. Qed.

Section Publish.
Context (s : vm_map) (g : ghost) (bs Lst Prv Old bl : blocks) (new : list Z) (root : Z).
Context (HS : sinv s g bs Lst Prv Old bl new) (Hpc : snapper s = Super root).
Local Abbreviation ps := (pages s).

(** What every page has when all data is on disk. *)
Lemma committed_at i p : ps !! i = Some p -> exists im,
  marked g !! i = Some im /\ make_page p = None /\ no_cow p /\ prev_page p = Some (entry bl i) /\ holds (disk (pg s)) (entry bl i) im.
Proof.
  intros Hi. destruct (pc_at HS Hpc) as [(_ & _ & Hlen & He) _]. pose proof (lookup_lt_Some _ _ _ Hi) as Hlt.
  destruct (lookup_lt_is_Some_2 (mem g) i) as [m Hm]; [by rewrite (si_mem _ _ _ _ _ _ _ _ HS)|].
  destruct (lookup_lt_is_Some_2 (marked g) i) as [im Him]; [by rewrite (si_marked _ _ _ _ _ _ _ _ HS)|].
  destruct (sinv_pinv HS Hi Hm Him) as [_ _ H3 _]. rewrite Hpc in H3. destruct H3 as (H3 & Hnc & q & Hq & Hh).
  destruct (lookup_lt_is_Some_2 (entries bl) i) as [q' Hq']; [by rewrite Hlen|].
  destruct (He i q' Hq') as (p' & Hp' & Hpr). simplify_eq. unfold entry. rewrite Hq'. simpl. by exists im.
Qed.

Lemma own_curr i p : ps !! i = Some p -> own (entry bl i) p = option_list (curr_page p).
Proof.
  intros Hi. destruct (committed_at i p Hi) as (_ & _ & Hm & _ & Hp & _). unfold own. rewrite Hm, Hp. simpl.
  rewrite decide_True by (by right). apply app_nil_r.
Qed.

Lemma owned_sublist : owned bl ps `sublist_of` owned Lst ps.
Proof.
  apply concat_imap_sublist. intros i p Hi. rewrite (own_curr i p Hi). unfold own. by apply sublist_inserts_r.
Qed.

(** The pages of the new snapshot are those that the memory gives up. *)
Lemma new_page q : q ∈ list_pages bl ->
  page_ok (superblock (pg s)) q /\ q ∉ owned bl ps ++ all_free (pg s) bs.
Proof.
  intros Hq. pose proof (si_disk _ _ _ _ _ _ _ _ HS) as D. destruct (pc_at HS Hpc) as [(E & _ & _ & He) _].
  pose proof (di_ok _ _ _ _ _ _ _ D) as Hok. pose proof (di_nodup _ _ _ _ _ _ _ D) as Hnd. rewrite list.Forall_forall in Hok.
  rewrite E in Hok, Hnd. apply list.NoDup_app in Hnd as (N1 & N2 & _). apply list.NoDup_app in N1 as (_ & N1 & N3).
  apply list_pages_elem in Hq as [Hq|(H0 & i & Hi)].
  - split; [apply Hok; clear - Hq; in_list|]. intros [Ho|Hf]%elem_of_app.
    + apply (N1 q Hq). eapply elem_of_sublist; [done|]. apply owned_sublist.
    + apply (N2 q); [clear - Hq; in_list|done].
  - destruct (He i q Hi) as (p & Hp & Hpr). destruct (decide (q = entry Lst i)) as [->|Hne].
    + pose proof (di_lists _ _ _ _ _ _ _ D) as DL. rewrite list.Forall_forall in DL.
      destruct (entry_page Lst i) as [|Hin]; [done|]. destruct (DL (entry Lst i)) as [K1 K2]; [clear - Hin; in_list|].
      split; [done|]. intros [Ho|Hf]%elem_of_app; apply K2; [|clear - Hf; in_list].
      pose proof (elem_of_sublist _ _ _ Ho owned_sublist) as Ho'. clear - Ho'. in_list.
    + assert (q ∈ own (entry Lst i) p) as Hown.
      { unfold own, own_slot. rewrite Hpr. rewrite decide_False by tauto. rewrite !elem_of_app. right. right. by left. }
      pose proof (owned_in Lst ps i p q Hp Hown) as Hin. split; [apply Hok; clear - Hin; in_list|].
      intros [Ho|Hf]%elem_of_app; [|apply (N2 q); [clear - Hin; in_list|done]].
      apply owned_elem in Ho as (j & p' & Hj & Ho). rewrite (own_curr j p' Hj) in Ho. apply option_list_elem in Ho.
      destruct (curr_not_snap HS Hj q Ho) as [C1 C2]. destruct (decide (j = i)) as [->|Hij].
      * simplify_eq. apply C1. unfold of_snap. rewrite Hpr, elem_of_app. right. by left.
      * by apply (owned_disjoint Lst ps j i p' p q N3 Hj Hp Hij C2).
Qed.

Context (x : pager) (Hx : pager_inv x bs) (Hfree : all_free x bs = all_free (pg s) bs).
Context (Hsb : same_fixed (set_snaps root (last_snap (superblock (pg s))) (superblock (pg s))) (superblock x)).
Context (Hdisk : forall q, q ∉ sb_pages (superblock (pg s)) -> disk x !! q = disk (pg s) !! q).
Context (Hsuper : disk x !! sb_default_page_number = Some (BSuper (set_snaps root (last_snap (superblock (pg s))) (superblock (pg s))))).

Lemma ok_published q : page_ok (superblock (pg s)) q -> page_ok (superblock x) q /\ disk x !! q = disk (pg s) !! q.
Proof. intros Hq. split; [by apply (page_ok_fixed _ _ _ Hsb)|]. apply Hdisk, Hq. Qed.

Lemma old_page q : q ∈ list_pages Lst ++ list_pages Prv ->
  page_ok (superblock (pg s)) q /\ q ∉ owned bl ps ++ all_free (pg s) bs.
Proof.
  intros Hq. pose proof (di_lists _ _ _ _ _ _ _ (si_disk _ _ _ _ _ _ _ _ HS)) as DL. rewrite list.Forall_forall in DL.
  destruct (DL q) as [K1 K2]; [clear - Hq; in_list|]. split; [done|]. intros [Ho|Hf]%elem_of_app; apply K2; [|clear - Hf; in_list].
  pose proof (elem_of_sublist _ _ _ Ho owned_sublist) as Ho'. clear - Ho'. in_list.
Qed.

Lemma dinv_published : dinv x bs bl Lst Prv (marked g) (owned bl ps).
Proof.
  pose proof (si_disk _ _ _ _ _ _ _ _ HS) as [D1 D2 D3 D4 D5 D6 D7 D8 D9 D10].
  destruct (pc_at HS Hpc) as [(E & Hbl & Hlen & He) _]. pose proof Hsb as (_ & _ & _ & Ec & _ & El & Ep). simpl in Ec, El, Ep.
  assert (owned bl ps ++ all_free x bs `sublist_of` (new ++ owned Lst ps) ++ all_free (pg s) bs) as Hsub.
  { rewrite Hfree. apply sublist_app; [|done]. apply sublist_inserts_l, owned_sublist. }
  assert (forall q, q ∈ list_pages bl ++ list_pages Lst ++ list_pages Prv ->
    page_ok (superblock (pg s)) q /\ q ∉ owned bl ps ++ all_free (pg s) bs) as Hlists.
  { intros q [Hq|Hq]%elem_of_app; [by apply new_page|by apply old_page]. }
  assert (root <> 0) as Hroot by (destruct bl as [|[? ?] ?]; [done|]; destruct Hbl as (-> & ? & _); done).
  split; try done.
  - by rewrite Ec.
  - eexists. split; [exact Hsuper|]. destruct Hsb as (? & ? & ? & ? & ? & ? & ?). by split_and!.
  - rewrite El. unfold listed. rewrite (proj2 (Z.eqb_neq _ _) Hroot). split_and!.
    + eapply plist_same; [done|]. intros q Hq. apply ok_published, new_page. by apply block_page.
    + rewrite E in D7. apply list.NoDup_app in D7 as (D7 & _ & _). by apply list.NoDup_app in D7 as (D7 & _ & _).
    + by rewrite Hlen, (si_marked _ _ _ _ _ _ _ _ HS).
  - rewrite Ep, (si_marked _ _ _ _ _ _ _ _ HS), <-(si_saved _ _ _ _ _ _ _ _ HS).
    eapply listed_same; [done|]. intros q Hq. apply ok_published, old_page. clear - Hq. in_list.
  - by rewrite El.
  - by eapply sublist_NoDup.
  - apply list.Forall_forall. intros q Hq. apply ok_published. rewrite list.Forall_forall in D8. apply D8. by eapply elem_of_sublist.
  - apply list.Forall_forall. intros q Hq. rewrite Hfree. destruct (Hlists q Hq). split; [by apply ok_published|done].
  - intros i c Hc. destruct (lookup_lt_is_Some_2 ps i) as [p Hp].
    { rewrite <-(si_marked _ _ _ _ _ _ _ _ HS). by eapply lookup_lt_Some. }
    destruct (committed_at i p Hp) as (im & Him & _ & _ & _ & Hh). assert (c = im) as -> by congruence. rewrite <-Hh. apply zero_or_data_same.
    intros H0. destruct (entry_page bl i) as [|Hin]; [done|]. by apply ok_published, new_page.
Qed.

Lemma published_page i p m im c w :
  ps !! i = Some p -> marked g !! i = Some im -> pinv (disk (pg s)) m im (entry Lst i) Committed c w p ->
  pinv (disk x) m im (entry bl i) Normal c w p.
Proof.
  intros Hi Him Hp. destruct (committed_at i p Hi) as (im' & Him' & Hm & Hnc & Hpr & Hh).
  assert (pinv (disk x) m im (entry Lst i) Committed c w p) as [H1 H2 H3 H4].
  { eapply pinv_same; [done|]. intros q Hq H0.
    destruct (used_parts _ _ _ _ _ _ _ _ _ _ (si_disk _ _ _ _ _ _ _ _ HS) Hi) as (_ & _ & U3 & U4).
    destruct (seen_own (entry Lst i) p q Hq) as [|[->|Ho]]; [done| |by apply ok_published, U4].
    destruct (entry_page Lst i) as [|Hin]; [done|]. apply ok_published, U3. clear - Hin. in_list. }
  split; [done..| |]; [simpl; by rewrite Hpr|].
  intros A B C. destruct (H4 A B C) as [_ [? ?]]. done.
Qed.

Lemma sinv_published :
  sinv (set_snapper (Free (prev_snap (superblock (pg s)))) (set_pg x s)) (mkGhost (mem g) (marked g) (marked g)) bs bl Lst Prv [] [].
Proof.
  pose proof (si_disk _ _ _ _ _ _ _ _ HS) as D. pose proof Hsb as (_ & _ & _ & Ec & _ & El & Ep). simpl in Ec, El, Ep.
  split; simpl; try apply HS.
  - apply dinv_published.
  - split; [|done]. split_and!; [done| |rewrite Ep; by apply D].
    rewrite <-(si_saved _ _ _ _ _ _ _ _ HS). eapply listed_same; [by apply D|].
    intros q Hq. apply ok_published, old_page. clear - Hq. in_list.
  - rewrite (si_snap _ _ _ _ _ _ _ _ HS). by rewrite Hpc.
  - intros i p m im Hi Hm Him. apply published_page; [done..|]. pose proof (sinv_pinv HS Hi Hm Him) as H. by rewrite Hpc in H.
Qed.
End Publish.

Lemma super_ok garbage s g root :
  inv s g -> snapper s = Super root -> wpe no_space (do_snapshot garbage) s (observed g).
Proof.
  intros (bs & Lst & Prv & Old & bl & new & HS) Hpc. unfold do_snapshot. apply wpe_bind, wp_wpe, wp_gets. rewrite Hpc.
  apply wpe_bind, wp_wpe, wp_gets, wpe_bind. eapply (wpe_on_pager _ (fun _ => False)); [|done]. apply wp_wpe.
  eapply wp_mono; [apply (publish_ok _ bs root), (si_disk _ _ _ _ _ _ _ _ HS)|].
  intros _ x (H1 & H2 & H3 & H4 & H5). apply wpe_bind, wp_wpe, wp_modify, wpe_ret. eexists. split; [done|].
  exists bs, bl, Lst, Prv, [], []. by apply (sinv_published s g bs Lst Prv Old bl new root HS Hpc).
Qed.

(** ** The oldest snapshot is released *)

Lemma snap_listed x n r l :
  listed (disk x) n r l -> r <> 0 -> Forall (page_ok (superblock x)) (list_pages l) -> snap_list x r l.
Proof.
  unfold listed. intros H Hr Hok. rewrite (proj2 (Z.eqb_neq _ _) Hr) in H. destruct H as (H1 & H2 & H3).
  rewrite list.Forall_forall in Hok. assert (forall q, q ∈ list_pages l -> in_disk (superblock x) q) as Hd.
  { intros q (H0 & H & _)%Hok. unfold in_disk. lia. }
  assert (in_disk (superblock x) 0) as H0.
  { destruct l as [|[q b] l]; [done|]. destruct (Hd q) as [? ?]; [by left|]. split; lia. }
  split_and!; try done. apply list.Forall_forall. intros q [Hq|(i & Hi)%list_elem_of_lookup_1]%elem_of_app; [by apply Hd, block_page|].
  destruct (entry_page l i) as [E|E]; unfold entry in E; rewrite Hi in E; simpl in E; [by subst|by apply Hd].
Qed.

Section Released.
Context (s : vm_map) (g : ghost) (bs Lst Prv Old bl : blocks) (root : Z).
Context (HS : sinv s g bs Lst Prv Old bl []) (Hpc : snapper s = Free root).
Context (x : pager) (bs' : blocks) (freed : list Z).
Context (Hx : pager_inv x bs') (Hfree : all_free x bs' ≡ₚ freed ++ all_free (pg s) bs).
Context (Hfreed : forall q, q ∈ freed <-> released Old Prv Lst q) (HF : pframe (freed ++ all_free (pg s) bs) (pg s) x).
Local Abbreviation used := (owned Lst (pages s)).

Lemma freed_not_used q : q ∈ freed -> q ∉ used.
Proof.
  intros (Hq & _ & _)%Hfreed Hu. pose proof (di_lists _ _ _ _ _ _ _ (si_disk _ _ _ _ _ _ _ _ HS)) as DL.
  rewrite list.Forall_forall in DL. destruct (DL q) as [_ K]; [clear - Hq; in_list|]. apply K. simpl. clear - Hu. in_list.
Qed.

Lemma kept_page q : q ∈ list_pages Lst ++ list_pages Prv ++ used ->
  page_ok (superblock (pg s)) q /\ disk x !! q = disk (pg s) !! q.
Proof.
  intros Hq. pose proof (si_disk _ _ _ _ _ _ _ _ HS) as [_ _ _ _ _ _ D7 D8 D9 _]. rewrite list.Forall_forall in D8, D9. simpl in *.
  assert (page_ok (superblock (pg s)) q /\ q ∉ freed /\ q ∉ all_free (pg s) bs) as (Hok & H1 & H2).
  { rewrite app_assoc in Hq. apply elem_of_app in Hq as [Hq|Hq].
    - destruct (D9 q) as [K1 K2]; [clear - Hq; in_list|]. split_and!; [done| |clear - K2; in_list].
      intros (_ & R1 & R2)%Hfreed. clear - Hq R1 R2. in_list.
    - apply list.NoDup_app in D7 as (_ & D7 & _). split_and!; [apply D8; clear - Hq; in_list| |by apply D7].
      intros Hin. by apply (freed_not_used q Hin). }
  split; [done|]. eapply pframe_same; [done..|]. clear - H1 H2. in_list.
Qed.

Lemma dinv_released : dinv x bs' Lst Prv [] (saved g) used.
Proof.
  pose proof (si_disk _ _ _ _ _ _ _ _ HS) as [D1 D2 D3 D4 D5 D6 D7 D8 D9 D10]. rewrite list.Forall_forall in D8, D9. simpl in *.
  pose proof (pf_sb _ _ _ HF) as Hfix. pose proof Hfix as (F1 & F2 & F3 & Ec & F5 & El & Ep).
  apply list.NoDup_app in D7 as (D7 & D7' & _).
  assert (forall q, q ∈ freed -> page_ok (superblock (pg s)) q) as Hok.
  { intros q (Hq & _ & _)%Hfreed. apply D9. clear - Hq. in_list. }
  split; try done.
  - by rewrite Ec.
  - destruct D3 as (sb & Hsb & Hs). destruct (pf_super _ _ _ HF sb_default_page_number) as [E|(sb' & E & Hs')]; [|by left| |].
    + intros [Hq%Hok|Hq]%elem_of_app; [|assert (page_ok (superblock (pg s)) sb_default_page_number) as Hq' by (apply D8; clear - Hq; in_list)];
        [destruct Hq as (_ & _ & Hq)|destruct Hq' as (_ & _ & Hq')]; [apply Hq|apply Hq']; by left.
    + exists sb. rewrite E. split; [done|]. destruct Hs as (? & ? & ? & ? & ? & ? & ?). split_and!; congruence.
    + exists sb'. split; [done|]. destruct Hs' as (? & ? & ? & ? & ? & ? & ?). split_and!; congruence.
  - rewrite El. eapply listed_same; [done|]. intros q Hq. apply kept_page. clear - Hq. in_list.
  - rewrite Ep. eapply listed_same; [done|]. intros q Hq. apply kept_page. clear - Hq. in_list.
  - by rewrite El, Ep.
  - apply list.NoDup_app. split_and!; [done| |apply Hx]. intros q Hq. rewrite Hfree.
    intros [Hf|Hf]%elem_of_app; [by apply (freed_not_used q)|by apply (D7' q)].
  - apply list.Forall_app. split; [|apply Hx]. apply list.Forall_forall. intros q Hq. apply (page_ok_fixed _ _ _ Hfix), D8. clear - Hq. in_list.
  - apply list.Forall_forall. intros q Hq. rewrite app_nil_r in Hq. destruct (D9 q) as [K1 K2]; [clear - Hq; in_list|].
    split; [by apply (page_ok_fixed _ _ _ Hfix)|]. rewrite Hfree. intros [Hu|[(_ & R1 & R2)%Hfreed|Hf]%elem_of_app]%elem_of_app;
      [apply K2; clear - Hu; in_list|clear - Hq R1 R2; in_list|apply K2; clear - Hf; in_list].
  - intros i c Hc. rewrite <-(D10 i c Hc). apply zero_or_data_same. intros H0.
    destruct (entry_page Lst i) as [|Hin]; [done|]. apply kept_page. clear - Hin. in_list.
Qed.

Lemma sinv_released : sinv (set_snapper Update (set_pg x s)) g bs' Lst Prv [] bl [].
Proof.
  split; simpl; try apply HS.
  - apply dinv_released.
  - done.
  - rewrite (si_snap _ _ _ _ _ _ _ _ HS). by rewrite Hpc.
  - intros i p m im Hi Hm Him. pose proof (sinv_pinv HS Hi Hm Him) as H. rewrite Hpc in H.
    eapply pinv_same; [done|]. intros q Hq H0. apply kept_page.
    destruct (seen_own (entry Lst i) p q Hq) as [|[->|Ho]]; [done| |].
    + destruct (entry_page Lst i) as [|Hin]; [done|]. clear - Hin. in_list.
    + pose proof (owned_in Lst _ i p q Hi Ho) as Hin. clear - Hin. in_list.
Qed.
End Released.

Lemma free_ok garbage s g root :
  inv s g -> snapper s = Free root -> wpe no_space (do_snapshot garbage) s (observed g).
Proof.
  intros (bs & Lst & Prv & Old & bl & new & HS) Hpc. destruct (pc_at HS Hpc) as [(-> & HO & Hprev) _].
  unfold do_snapshot. apply wpe_bind, wp_wpe, wp_gets. rewrite Hpc. apply wpe_bind, wp_wpe, wp_gets, wpe_bind.
  eapply (wpe_on_pager _ (fun _ => False)); [|done]. apply wp_wpe.
  assert (forall x bs', sinv (set_snapper Update (set_pg x s)) g bs' Lst Prv [] bl [] ->
    wpe no_space (modify (set_snapper Update);; mret None) (set_pg x s) (observed g)) as Hend.
  { intros x bs' H. apply wpe_bind, wp_wpe, wp_modify, wpe_ret. exists g. split; [done|]. by exists bs', Lst, Prv, [], bl, []. }
  destruct (decide (root = 0)) as [->|Hr].
  - apply wp_ret, (Hend _ bs). assert (Old = []) as -> by done.
    replace (set_pg (pg s) s) with s by (by destruct s). eapply sinv_stage; [done|..]; by rewrite ?Hpc.
  - pose proof (si_disk _ _ _ _ _ _ _ _ HS) as D. pose proof (di_lists _ _ _ _ _ _ _ D) as DL.
    assert (forall l, list_pages l ⊆ list_pages Lst ++ list_pages Prv ++ list_pages Old -> Forall (page_ok (superblock (pg s))) (list_pages l)) as Hok.
    { intros l Hl. apply list.Forall_forall. intros q Hq%Hl. rewrite list.Forall_forall in DL. by apply DL. }
    eapply wp_mono; [apply (free_snap_ok garbage (pg s) bs root _ _ Old Prv Lst); try done|].
    + apply D.
    + apply D.
    + eapply snap_listed; [exact HO|done|]. apply Hok. intros q. clear. in_list.
    + eapply snap_listed; [apply D|by apply Hprev|]. apply Hok. intros q. clear. in_list.
    + eapply snap_listed; [apply D|by apply D, Hprev|]. apply Hok. intros q. clear. in_list.
    + apply list.Forall_forall. intros q Hq. rewrite list.Forall_forall in DL. destruct (DL q) as [K1 K2]; [clear - Hq; in_list|].
      split; [done|]. clear - K2. in_list.
    + intros _ x (bs' & freed & Hx & HP & Hfr & _ & HF). apply (Hend x bs').
      by apply (sinv_released s g bs Lst Prv Old bl root HS Hpc x bs' freed).
Qed.

(** ** All steps *)

Lemma quiet_ok s g i R m :
  wpe no_space m s (fun _ => keeps s g i R) -> wpe no_space (quiet m) s (observed g).
Proof. intros H. apply wpe_bind. eapply wpe_mono; [exact H|]. intros _ s' [H' _]. apply wpe_ret. by exists g. Qed.

Lemma snapshot_step_ok garbage s g :
  inv s g -> enabled Snapshot s = true -> wpe no_space (do_snapshot garbage) s (observed g).
Proof.
  intros Hinv He. destruct (snapper s) eqn:Hpc.
  3: by apply mark_ok.
  6: by apply new_list_ok.
  7: by eapply save2_ok.
  7: by eapply save3_ok.
  7: by eapply finish_ok.
  8: by eapply super_ok.
  8: by eapply free_ok.
  all: unfold do_snapshot; apply wpe_bind, wp_wpe, wp_gets; rewrite Hpc.
  - apply wpe_bind, wp_wpe, wp_modify, wpe_ret. exists g. split; [done|]. by apply idle_ok.
  - by apply kick1_ok.
  - by apply kick2_ok.
  - by apply finalize_ok.
  - apply wpe_bind, wp_wpe, wp_modify, wpe_bind, wp_wpe, wp_modify, wpe_ret. exists g. split; [done|]. by apply unset_ok.
  - by apply save1_ok.
  - by apply commit_ok.
  - apply wpe_bind. eapply wpe_mono; [exact (update_super_ok s g Hinv Hpc)|]. intros ? s' H. simpl in H.
    apply wpe_bind, wp_wpe, wp_modify, wpe_ret. by exists g.
Qed.

Lemma step_ok garbage o s g :
  inv s g -> enabled o s = true -> wpe no_space (step garbage o) s (observed g).
Proof.
  intros Hinv He. destruct o as [i f b|i|i|i|d c i|i|i|i|i|]; simpl; [..|by apply snapshot_step_ok].
  all: simpl in He; destruct (pages s !! i) as [p|] eqn:Hi; [|done].
  - by eapply store_step_ok.
  - apply andb_true_iff in He as [H1 H2%negb_true_iff]. by eapply quiet_ok, write_read_ok.
  - by eapply load_ok.
  - apply negb_true_iff in He. by eapply quiet_ok, reclaim_ok.
  - by eapply quiet_ok, balance_ok.
  - by eapply quiet_ok, wire_ok.
  - eapply quiet_ok. unfold unwire_page. eapply at_page; [done|]. intros Hlt. apply wpe_bind, page_at; [done|].
    rewrite with_page_id by done. rewrite He. apply wpe_bind, wpe_ret. by eapply (wire_ok _ _ _ _ (fun p => wired_count p - 1)).
  - eapply quiet_ok, io_start_ok; [done..|]. simpl. by rewrite Hi.
  - by eapply quiet_ok, io_done_ok.
Qed.

Lemma run_ok garbage ops s g :
  inv s g -> wpe no_space (Snap.run garbage ops) s (fun es s' => exists g', spec_run es g = Some g' /\ inv s' g').
Proof.
  revert s g. induction ops as [|o ops IH]; intros s g Hinv; simpl.
  - apply wpe_ret. by exists g.
  - apply wpe_bind, wp_wpe, wp_gets. destruct (enabled o s) eqn:He; [|by apply IH].
    apply wpe_bind. eapply wpe_mono; [by apply step_ok|]. intros e s1 (g1 & H1 & Hi1).
    apply wpe_bind. eapply wpe_mono; [by apply IH|]. intros es s2 (g2 & H2 & Hi2). apply wpe_ret. exists g2. split; [|done].
    destruct e as [e|]; simpl; [by rewrite H1|congruence].
Qed.

(** ** Start up *)

(** The page of an entry of the last snapshot. *)
Definition page_of (q : Z) : vm_page := set_prev (if q =? 0 then None else Some q) vm_page_init.

Lemma init_pages x Lst (image : list Z) n :
  listed (disk x) (length image) (last_snap (superblock x)) Lst -> n = length image ->
  vm_map_init n x = Ret (imap (fun i _ => page_of (entry Lst i)) image) x.
Proof.
  intros HL ->. unfold vm_map_init, mbind, M_bind, gets. unfold listed in HL.
  destruct (last_snap (superblock x) =? 0) eqn:E.
  - subst Lst. cbn. f_equal. clear. apply list_eq. intros i. rewrite list_lookup_imap.
    destruct (image !! i) as [c|] eqn:Ei; simpl.
    + rewrite lookup_replicate_2 by (by eapply lookup_lt_Some). done.
    + apply lookup_replicate_None. by apply lookup_ge_None.
  - destruct HL as (HL & _ & Hlen). destruct (pagelist_load_ok x _ _ (length image) HL) as (r & x' & -> & -> & ->).
    rewrite take_ge by lia. rewrite Hlen, Nat.sub_diag. simpl. rewrite app_nil_r. f_equal.
    apply list_eq. intros i. rewrite list_lookup_imap, list_lookup_fmap. unfold entry.
    destruct (image !! i) as [c|] eqn:Ei; simpl.
    + destruct (lookup_lt_is_Some_2 (entries Lst) i) as [q ->]; [|done]. rewrite Hlen. by eapply lookup_lt_Some.
    + apply lookup_ge_None in Ei. by rewrite (proj2 (lookup_ge_None (entries Lst) i)) by lia.
Qed.

Lemma page_of_backing q : backing (page_of q) = q.
Proof. unfold page_of, backing. destruct (q =? 0) eqn:E; simpl; [lia|done]. Qed.

Lemma boot_ok x bs Lst Prv image :
  dinv x bs Lst Prv [] image [] -> exists s, boot (length image) x = Some s /\ inv s (mkGhost image image image).
Proof.
  intros D. unfold boot. rewrite (init_pages _ _ _ _ (di_last _ _ _ _ _ _ _ D) eq_refl). eexists. split; [done|].
  exists bs, Lst, Prv, [], [], []. set (ps := imap _ image).
  assert (forall i p, ps !! i = Some p -> p = page_of (entry Lst i)) as Hps.
  { intros i p Hi. unfold ps in Hi. rewrite list_lookup_imap in Hi. by destruct (image !! i); simplify_eq/=. }
  assert (owned Lst ps = []) as Hown.
  { apply list_nil_subseteq. intros q Hq. apply owned_elem in Hq as (i & p & Hi & Hq). rewrite (Hps i p Hi) in Hq.
    unfold own, page_of in Hq. destruct (entry Lst i =? 0) eqn:E; simpl in Hq; [done|]. by rewrite decide_True in Hq by (by right). }
  assert (length ps = length image) as Hlen by apply length_imap.
  split; simpl; try done.
  - by rewrite Hown.
  - intros i p m im Hi Hm Him. simplify_eq. rewrite (Hps i p Hi). split.
    + intros _. unfold holds. rewrite page_of_backing. by apply D.
    + unfold io_ok, page_of. destruct (entry Lst i =? 0); simpl; by split_and!; rewrite ?bool_decide_eq_false_2 by (by intros ?%not_elem_of_nil).
    + unfold page_of. destruct (entry Lst i =? 0) eqn:E; simpl; split_and!; try done. lia.
    + by intros _.
Qed.

(** Whenever the machine stops, a restart finds the last complete snapshot. *)
Lemma restart_ok s g : inv s g -> restart (length (pages s)) (disk (pg s)) = Some (Some <$> saved g).
Proof.
  intros (bs & Lst & Prv & Old & bl & new & HS). pose proof (si_disk _ _ _ _ _ _ _ _ HS) as D.
  destruct (di_super _ _ _ _ _ _ _ D) as (sb & Hsb & Hfix). unfold restart. rewrite Hsb.
  set (x := mkPager _ _ _ _ _ _).
  assert (vm_map_init (length (pages s)) x = Ret (imap (fun i _ => page_of (entry Lst i)) (saved g)) x) as ->.
  { rewrite <-(si_saved _ _ _ _ _ _ _ _ HS). destruct Hfix as (_ & _ & _ & _ & _ & El & _).
    apply (init_pages x Lst (saved g)); [|done]. simpl. rewrite El. apply D. }
  f_equal. apply list_eq. intros i. rewrite !list_lookup_fmap, list_lookup_imap. destruct (saved g !! i) as [c|] eqn:E; [|done].
  simpl. rewrite page_of_backing. f_equal. by apply D.
Qed.

Lemma spec_step_length e g g' : spec_step e g = Some g' -> length (mem g') = length (mem g).
Proof. destruct e; simpl; intros; simplify_option_eq; by rewrite ?length_alter. Qed.
Lemma spec_run_length es g g' : spec_run es g = Some g' -> length (mem g') = length (mem g).
Proof.
  revert g. induction es as [|e es IH]; intros g H; simpl in H; [by simplify_eq|].
  destruct (spec_step e g) as [g1|] eqn:E; [|done]. rewrite (IH _ H). by eapply spec_step_length.
Qed.


(** A disk of three pages of memory, two of them in a snapshot. *)
Definition ex3_head : phantom_disk_blocklist := mkBl DISK_STRUCT_MAGIC_FREEHEAD 0 0 0 (fun _ => 0).
Definition ex3_sb : phantom_disk_superblock := mkSb 0x100 0x220 0x10 0x420 0x400 0x20 0 0x30 0.
Definition ex3_list : phantom_disk_blocklist := mkBl DISK_STRUCT_MAGIC_SNAP_LIST 3 0 0 (fun i => nth (Z.to_nat i) [0x40; 0; 0x41] 0).
Definition ex3_disk : gmap Z block :=
  {[ 0x10 := BSuper ex3_sb; 0x100 := BSuper ex3_sb; 0x220 := BSuper ex3_sb; 0x20 := BList ex3_head;
     0x30 := BList ex3_list; 0x40 := BData 5; 0x41 := BData 7 ]}.
Definition ex3_pager : pager := mkPager ex3_disk ex3_sb ex3_head true [] false.

Lemma ex3_dinv : dinv ex3_pager [] [(0x30, ex3_list)] [] [] [5; 0; 7] [].
Proof.
  split; try done.
  - split; try done; apply (bool_decide_unpack _); by vm_compute.
  - by exists ex3_sb.
  - split_and!; try done. apply (bool_decide_unpack _). by vm_compute.
  - apply (bool_decide_unpack _). by vm_compute.
  - apply (bool_decide_unpack _). by vm_compute.
  - apply (bool_decide_unpack _). by vm_compute.
  - intros i c Hi. do 3 (destruct i as [|i]; [injection Hi as <-; by vm_compute|]). done.
Qed.

Definition ex3_garbage : Z -> Z := fun i => i + 100.
Definition ex3_image : list Z := [5; 0; 7].
(** The last page changes before the snapshot and, when its image is not on disk yet,
    during it. *)
Definition ex3_ops : list op :=
  [Store 2 (Z.add 1) false; Start 2; Done 2; Resume 2; Store 2 (Z.add 1) false] ++ replicate 6 Snapshot ++
  [Store 2 (Z.add 10) true; Store 2 (Z.add 10) false] ++
  concat (replicate 30 [Start 0; Done 0; Start 1; Done 1; Start 2; Done 2; Snapshot]).


(** The snapshot has the image before the write, the page the new one. *)
Lemma ex3_ops_run :
  match boot 3 ex3_pager with
  | Some s =>
      match Snap.run ex3_garbage ex3_ops s with
      | Ret es s' => length es = 4%nat /\ restart 3 (disk (pg s')) = Some [Some 5; Some 0; Some 8] /\ content <$> pages s' = [None; None; Some 18]
      | _ => False
      end
  | None => False
  end.
Proof. by vm_compute. Qed.

(** ** What the conditions on the steps exclude *)

(** All steps, whether their conditions hold or not. *)
Fixpoint steps (garbage : Z -> Z) (ops : list op) : M vm_map (list event) :=
  match ops with
  | [] => mret []
  | o :: ops => e ← step garbage o; es ← steps garbage ops; mret (option_list e ++ es)
  end.
Definition outcome_of (ops : list op) : string + list event :=
  match boot 3 ex3_pager with
  | Some s => match steps ex3_garbage ops s with Ret es _ => inr es | Panic msg | Fault msg => inl msg | Diverge => inl "diverge" end
  | None => inl "boot"
  end.

(** A write fault takes back a request to read the page: the page is mapped, but was
    never read. *)
Lemma dequeued_read :
  outcome_of (replicate 6 Snapshot ++ [Load 0; Store 0 (Z.add 1) true; Load 0]) = inl "unknown content".
Proof. by vm_compute. Qed.

(** The page is mapped for writing before it is dirty: what another thread stores there
    until the first goes on is lost when the page is reclaimed. *)
Lemma lost_write :
  match outcome_of [Store 0 (Z.add 1) false; Start 0; Done 0; Store 0 (Z.add 1) false; Reclaim 0; Load 0; Start 0; Done 0; Load 0] with
  | inr [Stored 0 f; Loaded 0 c] => f 5 = 6 /\ c = 5
  | _ => False
  end.
Proof. by vm_compute. Qed.

(** The same with the page read again for a reader: a dirty page stays protected, and
    the next write moves a page that is not on the clean queue. *)
Lemma reclaim_breaks_queue :
  outcome_of [Store 0 (Z.add 1) false; Start 0; Done 0; Reclaim 0; Load 0; Start 0; Done 0; Resume 0; Store 0 (Z.add 1) false]
    = inl "clean_q_size > 0".
Proof. by vm_compute. Qed.
