(* ===== verification/Recovery.v ===== *)
(** * A start of the pager: on a new disk, and after a shutdown

    The disk that a format leaves gets its free list, and the memory is empty; after
    [pager_finish] the next start finds the last snapshot, and the free pages that the
    reserve in memory did not hold. *)

From S2P Require Import Prelude Amap Pager PagerSpec PagerInit Snap SnapInv SnapOps SnapSpec.

(** ** Superblocks *)

(** All three copies. *)
Definition with_super (sb : phantom_disk_superblock) (d : gmap Z block) : gmap Z block :=
  <[sb3_addr sb := BSuper sb]> (<[sb2_addr sb := BSuper sb]> (<[sb_default_page_number := BSuper sb]> d)).

Lemma update_eq x : need_fsck x = false -> pager_update_superblock x = Ret tt (set_disk (with_super (superblock x) (disk x)) x).
Proof. intros H. unfold pager_update_superblock, disk_write, mbind, M_bind, gets, modify. simpl. by rewrite H. Qed.

Lemma with_super_copy sb d q : q ∈ sb_pages sb -> with_super sb d !! q = Some (BSuper sb).
Proof.
  unfold sb_pages, with_super. rewrite !elem_of_cons. intros H.
  destruct (decide (q = sb3_addr sb)) as [->|]; [by rewrite lookup_insert_eq|rewrite lookup_insert_ne by done].
  destruct (decide (q = sb2_addr sb)) as [->|]; [by rewrite lookup_insert_eq|rewrite lookup_insert_ne by done].
  destruct H as [->|H]; [by rewrite lookup_insert_eq|]. destruct H as [?|[?|H]]; try done. by apply not_elem_of_nil in H.
Qed.
Lemma with_super_other sb d q : q ∉ sb_pages sb -> with_super sb d !! q = d !! q.
Proof. unfold sb_pages, with_super. rewrite !not_elem_of_cons. intros (H1 & H2 & H3 & _). by rewrite !lookup_insert_ne by done. Qed.

(** The free pages do not depend on the superblocks on the disk. *)
Lemma with_super_inv x bs sb :
  pager_inv x bs -> sb_pages sb = sb_pages (superblock x) -> pager_inv (set_disk (with_super sb (disk x)) x) bs.
Proof.
  intros [I1 I2 I3 I4 I5 I6 I7] E. split; try done. eapply seg_same; [done|]. intros q Hq. apply with_super_other. rewrite E.
  apply (chain_pages_in x) in Hq. rewrite list.Forall_forall in I7. by apply I7 in Hq as (_ & _ & ?).
Qed.

Lemma fast_fsck_ok x bs : pager_inv x bs -> pager_fast_fsck x = Ret tt x.
Proof.
  intros Hi. pose proof Hi as [I1 I2 I3 I4 I5 I6 I7]. unfold pager_fast_fsck, mbind, M_bind, gets.
  by rewrite (pager_init_ok x bs Hi), I3.
Qed.

(** The head of the free list is read from the disk when it is needed. *)
Record unread (x : pager) (bs : list (Z * phantom_disk_blocklist)) (head : phantom_disk_blocklist) : Prop := {
  un_inited : freelist_inited x = false;
  un_head : disk x !! free_list (superblock x) = Some (BList head);
  un_inv : pager_inv (set_head head (set_inited true x)) bs;
}.
Lemma unread_list x bs head : unread x bs head -> (free_list (superblock x) =? 0) = false.
Proof. intros [H1 H2 H3]. destruct (head_ok _ _ H3) as [? _]. simpl in *. lia. Qed.
Lemma unread_load x bs head : unread x bs head ->
  (load_freelist_head;; modify (set_inited true)) x = Ret tt (set_head head (set_inited true x)).
Proof.
  intros [H1 H2 H3]. unfold load_freelist_head, read_list, mbind, M_bind, gets, modify. by rewrite H2.
Qed.
Lemma unread_init x bs head : unread x bs head -> pager_init_free_list x = Ret tt (set_head head (set_inited true x)).
Proof.
  intros U. pose proof U as [H1 H2 H3]. pose proof (pi_sane _ _ H3) as Hs. simpl in Hs. unfold pager_init_free_list.
  unfold mbind at 1 2 3, M_bind at 1 2 3, gets. rewrite H1, Hs, (unread_list x bs head U). by apply unread_load with bs.
Qed.
Lemma unread_fsck x bs head : unread x bs head -> pager_fast_fsck x = Ret tt (set_head head (set_inited true x)).
Proof.
  intros U. pose proof (pi_head _ _ (un_inv _ _ _ U)) as H. unfold pager_fast_fsck, mbind, M_bind, gets.
  rewrite (unread_init x bs head U). simpl in *. by rewrite H.
Qed.
Lemma unread_put x bs head p : unread x bs head -> pager_put_to_free_list p x = pager_put_to_free_list p (set_head head (set_inited true x)).
Proof.
  intros U. pose proof U as [H1 H2 H3]. pose proof (pi_sane _ _ H3) as Hs. simpl in Hs. unfold pager_put_to_free_list.
  unfold mbind, M_bind, gets. simpl. rewrite Hs. simpl. rewrite H1. simpl. rewrite (unread_list x bs head U). simpl.
  pose proof (unread_load x bs head U) as E. unfold mbind, M_bind in E. by rewrite E.
Qed.

(** ** A new disk *)

Lemma put_ok x bs p :
  pager_inv x bs -> page_ok (superblock x) p -> p ∉ all_free x bs ->
  wp (pager_put_to_free_list p) x (fun _ x' => exists bs', pager_inv x' bs' /\
    same_fixed (superblock x) (superblock x') /\ all_free x' bs' ≡ₚ p :: all_free x bs).
Proof.
  intros Hi Hok Hp. pose proof (pager_free_ok x bs p Hi Hok Hp) as H. pose proof Hok as (H0 & [H1 H2] & H3).
  unfold sb_pages in H3. rewrite !not_elem_of_cons in H3.
  unfold pager_free_page, mbind, M_bind, gets, wp in H. rewrite (proj2 (Z.ltb_ge _ _) H1) in H.
  rewrite (proj2 (Z.eqb_neq p (sb2_addr _))), (proj2 (Z.eqb_neq p (sb3_addr _))), !andb_false_r in H by tauto.
  eapply wp_mono; [exact H|]. intros ? x' (bs' & Hi' & [_ Hf _] & HP). by exists bs'.
Qed.

Definition put_other (free i : Z) : M pager unit :=
  if bool_decide (i = free \/ i ∈ sb_default_page_numbers) then mret tt else pager_put_to_free_list i.
Definition others (free : Z) (l : list Z) : list Z := filter (fun i => ~ (i = free \/ i ∈ sb_default_page_numbers)) l.

Lemma puts_ok free l x bs :
  pager_inv x bs -> NoDup (others free l ++ all_free x bs) -> Forall (page_ok (superblock x)) (others free l) ->
  wp (for_each (put_other free) l) x (fun _ x' => exists bs', pager_inv x' bs' /\
    same_fixed (superblock x) (superblock x') /\ all_free x' bs' ≡ₚ others free l ++ all_free x bs).
Proof.
  revert x bs. induction l as [|i l IH]; intros x bs Hi Hnd Hok; simpl.
  - apply wp_ret. by exists bs.
  - unfold put_other, others in *. rewrite filter_cons in *. apply wp_bind. case_decide as E.
    + rewrite bool_decide_eq_false_2 by done. simpl in Hnd. apply list.NoDup_cons in Hnd as [Hi' Hnd].
      apply list.Forall_cons in Hok as [Hok Hoks].
      eapply wp_mono; [apply (put_ok x bs i); [done..|]; intros ?; apply Hi', elem_of_app; by right|].
      intros _ x1 (bs1 & I1 & F1 & P1). eapply wp_mono; [apply (IH x1 bs1 I1)|].
      * rewrite P1. rewrite <-Permutation_middle. by apply NoDup_cons_2.
      * eapply list.Forall_impl; [done|]. intros p. by apply page_ok_fixed.
      * intros _ x2 (bs2 & I2 & F2 & P2). exists bs2. split_and!; [done|by eapply same_fixed_trans|].
        rewrite P2, P1. simpl. by rewrite <-Permutation_middle.
    + rewrite bool_decide_eq_true_2 by exact E. apply wp_ret. by apply IH.
Qed.

(** The pages of a new disk for its free list. *)
Definition format_head : phantom_disk_blocklist := mkBl DISK_STRUCT_MAGIC_FREEHEAD 0 0 0 (fun _ => 0).
Definition format_super (n : Z) : phantom_disk_superblock := mkSb 0x100 0x220 0x10 n 0x221 0x11 0xFF 0 0.
Definition new_disk (n : Z) (d : gmap Z block) : Prop :=
  d !! sb_default_page_number = Some (BSuper (phantom_disk_format n)) /\ 0x221 <= n < 2 ^ 32 - 1.

Lemma format_unread n d :
  0x221 <= n -> unread (mkPager (<[0x11 := BList format_head]> d) (format_super n) format_head false [] false) [] format_head.
Proof.
  intros Hn. split; simpl; [done|apply lookup_insert_eq|].
  split; try done; unfold all_free, never_used; simpl.
  - apply NoDup_cons_2; [rewrite elem_of_seqZ; lia|apply NoDup_seqZ].
  - apply list.Forall_forall. intros q. rewrite elem_of_cons, elem_of_seqZ. intros Hq.
    unfold page_ok, sb_pages, sb_default_page_number. simpl. rewrite !not_elem_of_cons. split_and!; try lia. apply not_elem_of_nil.
Qed.

Definition rest_of_format : list Z := seqZ 0x13 (0x221 - 0x13).
Lemma rest_ok n :
  0x221 <= n -> NoDup (others 0x11 rest_of_format ++ 0x12 :: 0x11 :: seqZ 0x221 (n - 0x221)) /\
  Forall (page_ok (format_super n)) (others 0x11 rest_of_format).
Proof.
  intros Hn. split.
  - apply list.NoDup_app. split_and!.
    + apply list.NoDup_filter, NoDup_seqZ.
    + intros q [_ Hq]%list_elem_of_filter. unfold rest_of_format in Hq. rewrite elem_of_seqZ in Hq.
      rewrite !elem_of_cons, elem_of_seqZ. lia.
    + repeat (apply NoDup_cons_2; [rewrite ?elem_of_cons, elem_of_seqZ; lia|]). apply NoDup_seqZ.
  - apply list.Forall_forall. intros q [Hq1 Hq]%list_elem_of_filter. unfold rest_of_format in Hq. rewrite elem_of_seqZ in Hq.
    unfold sb_default_page_numbers in Hq1. rewrite !elem_of_cons in Hq1.
    unfold page_ok, sb_pages, sb_default_page_number. simpl. rewrite !not_elem_of_cons. split_and!; try lia. apply not_elem_of_nil.
Qed.

(** Which pages are free. *)
Lemma rest_elem n q :
  0x221 <= n -> q ∈ others 0x11 rest_of_format ++ 0x12 :: 0x11 :: seqZ 0x221 (n - 0x221) <->
  0x10 <= q < n /\ q ∉ [0x10; 0x100; 0x220].
Proof.
  intros Hn. unfold others, rest_of_format. rewrite elem_of_app, list_elem_of_filter, !elem_of_cons, !elem_of_seqZ.
  unfold sb_default_page_numbers. rewrite !elem_of_cons, elem_of_nil. lia.
Qed.

Lemma fix_format_ok n d :
  0x221 <= n ->
  wp pager_fix_incomplete_format (set_sb (phantom_disk_format n) (power_on d)) (fun _ x => exists bs, pager_inv x bs /\
    same_fixed (format_super n) (superblock x) /\ disk x !! sb_default_page_number = Some (BSuper (superblock x)) /\
    all_free x bs ≡ₚ others 0x11 rest_of_format ++ 0x12 :: 0x11 :: seqZ 0x221 (n - 0x221)).
Proof.
  intros Hn. unfold pager_fix_incomplete_format, pager_format_empty_free_list_block, disk_write.
  apply wp_bind, wp_modify. apply wp_bind, wp_gets. apply wp_bind, wp_modify.
  apply wp_bind, wp_bind, wp_gets. apply wp_bind, wp_modify. apply wp_modify. apply wp_bind, wp_modify.
  pose proof (format_unread n d Hn) as U.
  match type of U with unread ?y _ _ => match goal with |- wp _ ?x _ => change x with y end end.
  apply wp_bind. match goal with |- wp (for_each _ ?l) _ _ => replace l with (0x10 :: 0x11 :: 0x12 :: rest_of_format) by (by vm_compute) end.
  match goal with |- wp (for_each ?f _) _ _ => change f with (put_other 0x11) end. cbn [for_each].
  apply wp_bind, wp_ret. apply wp_bind, wp_ret. apply wp_bind. change (put_other 0x11 0x12) with (pager_put_to_free_list 0x12).
  destruct (rest_ok n Hn) as [Hnd Hok].
  eapply wp_mono.
  { unfold wp. rewrite (unread_put _ _ _ _ U). apply (put_ok _ [] 0x12 (un_inv _ _ _ U)).
    - unfold page_ok, sb_pages, sb_default_page_number. simpl. rewrite !not_elem_of_cons. split_and!; try lia. apply not_elem_of_nil.
    - unfold all_free, never_used. simpl. rewrite elem_of_cons, elem_of_seqZ. lia. }
  intros ? x1 (bs1 & I1 & F1 & P1). eapply wp_mono; [apply (puts_ok 0x11 rest_of_format x1 bs1 I1)|].
  - rewrite P1. exact Hnd.
  - eapply list.Forall_impl; [exact Hok|]. intros p. by apply page_ok_fixed.
  - intros ? x2 (bs2 & I2 & F2 & P2). rewrite P1 in P2. apply wp_eq with tt (set_disk (with_super (superblock x2) (disk x2)) x2).
    { by apply update_eq, I2. }
    exists bs2. split_and!; [by apply with_super_inv| |apply with_super_copy; by left|exact P2].
    by eapply same_fixed_trans.
Qed.

(** No list, no pages in use. *)
Lemma new_dinv x bs m :
  pager_inv x bs -> disk_page_count (superblock x) < 2 ^ 32 - 1 -> disk x !! sb_default_page_number = Some (BSuper (superblock x)) ->
  last_snap (superblock x) = 0 -> prev_snap (superblock x) = 0 -> dinv x bs [] [] [] (replicate m 0) [].
Proof.
  intros Hi Hc Hd Hl Hp. split; try done.
  - exists (superblock x). split; [done|apply same_fixed_refl].
  - unfold listed. by rewrite Hl.
  - unfold listed. by rewrite Hp.
  - apply Hi.
  - apply Hi.
  - intros i c [-> _]%lookup_replicate. done.
Qed.

(** C12: The first start on a disk that was only formatted, with room for the copies of the superblock, completes:
    then every page of the disk but those of the superblocks is free, none twice, and the virtual memory starts
    with all its pages zero and its invariant. *)
Theorem new_disk_starts n d m version :
  new_disk n d ->
  wp (partition_pager_init version) (power_on d) (fun _ x => exists bs,
    pager_inv x bs /\ (forall q, q ∈ all_free x bs <-> 0x10 <= q < n /\ q ∉ [0x10; 0x100; 0x220]) /\
    exists s, boot m x = Some s /\ inv s (mkGhost (replicate m 0) (replicate m 0) (replicate m 0))).
Proof.
  intros [Hd [Hn Hn']]. unfold partition_pager_init, pager_get_superblock. apply wp_bind, wp_bind, wp_bind, wp_gets, wp_ret. simpl.
  rewrite Hd. apply wp_bind, wp_ret. apply wp_bind, wp_ret. simpl. apply wp_bind, wp_modify. apply wp_bind.
  eapply wp_mono; [by apply fix_format_ok|]. intros ? x (bs & Hi & Hf & Hs & HP).
  pose proof Hf as (E2 & E3 & Es & Ec & Ecl & El & Ep). simpl in *.
  unfold phantom_fsck, phantom_fsck_lists. apply wp_bind, wp_bind, wp_gets. rewrite El. apply wp_bind, wp_ret, wp_bind, wp_ret.
  apply wp_bind, wp_gets. rewrite Ep. apply wp_bind, wp_ret, wp_bind, wp_ret, wp_ret, wp_ret.
  apply wp_bind. eapply wp_eq; [by apply (fast_fsck_ok x bs)|]. apply wp_bind, wp_gets. rewrite (pi_sane _ _ Hi).
  eapply wp_eq; [by apply update_eq, Hi|]. exists bs. pose proof (with_super_inv x bs _ Hi eq_refl) as Hi'.
  split; [done|]. split.
  - intros q. change (all_free _ _) with (all_free x bs). rewrite HP. by apply rest_elem.
  - destruct (boot_ok (set_disk (with_super (superblock x) (disk x)) x) bs [] [] (replicate m 0)) as (s & Hs' & I');
      [|rewrite length_replicate in Hs'; by exists s]. apply new_dinv; simpl; try done; [lia|].
    apply with_super_copy. by left.
Qed.

Lemma new_disk_starts_witness :
  new_disk 0x400 {[ sb_default_page_number := BSuper (phantom_disk_format 0x400) ]} /\
  wp (partition_pager_init 0x10003) (power_on {[ sb_default_page_number := BSuper (phantom_disk_format 0x400) ]}) (fun _ x => exists bs,
    pager_inv x bs /\ (forall q, q ∈ all_free x bs <-> 0x10 <= q < 0x400 /\ q ∉ [0x10; 0x100; 0x220]) /\
    exists s, boot 5 x = Some s /\ inv s (mkGhost (replicate 5 0) (replicate 5 0) (replicate 5 0))).
Proof. split; [|apply (new_disk_starts 0x400 _ 5 0x10003)]; (split; [by vm_compute|lia]). Defined.

(** ** After a shutdown *)

Definition version_ok (version : Z) : Prop :=
  Z.shiftr version 16 = DISK_STRUCT_VERSION_MAJOR /\ Z.land version 0xFFFF <= DISK_STRUCT_VERSION_MINOR.
Definition two_copies (sb : phantom_disk_superblock) : Prop := sb2_addr sb <> 0 /\ sb3_addr sb <> 0 /\ sb2_addr sb <> sb3_addr sb.

Lemma checklist_loop x root bl fuel :
  plist (disk x) root bl -> Forall (in_disk (superblock x)) bl.*1 -> (length bl <= fuel)%nat ->
  fsck_checklist fuel root DISK_STRUCT_MAGIC_SNAP_LIST x = Ret false x.
Proof.
  revert root fuel. induction bl as [|[q b] bl IH]; intros root fuel Hp Hd Hf; [done|].
  destruct Hp as (-> & Hq & Hb & Hrest). destruct fuel as [|fuel]; [simpl in Hf; lia|]. cbn [fsck_checklist].
  rewrite (proj2 (Z.eqb_neq _ _) Hq). apply list.Forall_cons in Hd as [Hq' Hd].
  unfold read_list, mbind, M_bind, gets, mret, M_ret. unfold out_of_disk. unfold in_disk in Hq'.
  rewrite (proj2 (Z.eqb_neq _ _) Hq), (proj2 (Z.ltb_ge _ _)), Hb by (simpl in *; lia).
  assert (pl_sane b) as [Hu Hm] by (destruct bl; [apply Hrest|]; destruct Hrest as [[Hu ?] _]; split; [rewrite Hu, N_REF_value; lia|done]).
  rewrite Hm, Z.eqb_refl, (proj2 (Z.ltb_ge _ _)) by lia. rewrite andb_false_r. destruct bl as [|qb bl].
  - destruct Hrest as [_ ->]. by destruct fuel.
  - apply IH; [apply Hrest|done|]. simpl in *. lia.
Qed.

(** The lists of the snapshots pass the check. *)
Lemma lists_ok x n Lst Prv :
  listed (disk x) n (last_snap (superblock x)) Lst -> listed (disk x) n (prev_snap (superblock x)) Prv ->
  Forall (page_ok (superblock x)) (list_pages Lst ++ list_pages Prv) -> phantom_fsck x = Ret tt x.
Proof.
  intros HL HP Hok. assert (forall root l, listed (disk x) n root l -> Forall (page_ok (superblock x)) (list_pages l) ->
    (if root =? 0 then mret false else checklist root) x = Ret false x) as H.
  { intros root l Hl Hl'. unfold listed in Hl. destruct (root =? 0); [done|]. destruct Hl as (H1 & H2 & H3).
    unfold checklist, mbind, M_bind, gets. apply checklist_loop with l; [done| |by eapply plist_length].
    apply list.Forall_forall. intros q Hq%block_page. rewrite list.Forall_forall in Hl'.
    destruct (Hl' q Hq) as (? & ? & _). unfold in_disk. lia. }
  apply list.Forall_app in Hok as [Hok1 Hok2]. pose proof (H _ _ HL Hok1) as E1. pose proof (H _ _ HP Hok2) as E2.
  unfold phantom_fsck, phantom_fsck_lists, mbind, M_bind, gets. rewrite E1. simpl. by rewrite E2.
Qed.

(** Three good superblocks, good lists and a good head of the free list. *)
Lemma start_ok d sb n Lst Prv bs head version :
  (forall q, q ∈ sb_pages sb -> d !! q = Some (BSuper sb)) -> two_copies sb -> version_ok version -> fs_is_clean sb <> 0 ->
  listed d n (last_snap sb) Lst -> listed d n (prev_snap sb) Prv -> Forall (page_ok sb) (list_pages Lst ++ list_pages Prv) ->
  unread (set_sb sb (power_on d)) bs head ->
  partition_pager_init version (power_on d) = Ret tt (mkPager (with_super sb d) sb head true [] false).
Proof.
  intros Hd (H2 & H3 & H23) [Hmaj Hmin] Hcl HL HP Hok U.
  assert (pager_get_superblock version (power_on d) = Ret tt (set_sb sb (power_on d))) as E.
  { unfold pager_get_superblock, read_check_superblock, mbind, M_bind, gets, mret, M_ret. simpl.
    rewrite (Hd sb_default_page_number) by (by left). simpl.
    rewrite (proj2 (Z.eqb_neq _ 0) H2), (proj2 (Z.eqb_neq (sb3_addr sb) 0) H3). simpl.
    unfold read_check_superblock, mbind, M_bind, gets, mret, M_ret. simpl. rewrite (Hd (sb2_addr sb)) by (right; by left).
    rewrite Z.eqb_refl, (proj2 (Z.eqb_neq (sb3_addr sb) (sb2_addr sb))) by congruence. simpl.
    rewrite (Hd (sb3_addr sb)) by (right; right; by left).
    unfold superblocks_are_equal. rewrite bool_decide_eq_true_2 by done. simpl.
    rewrite Hmaj, Z.eqb_refl, (proj2 (Z.ltb_ge _ _)) by done. simpl. rewrite (proj2 (Z.eqb_neq _ _) Hcl).
    by apply (lists_ok (set_sb sb (power_on d)) n Lst Prv). }
  unfold partition_pager_init, mbind, M_bind, gets. rewrite E, (unread_fsck _ _ _ U). simpl. by rewrite update_eq.
Qed.

(** What a shutdown leaves on the disk. *)
Definition closed (x : pager) : gmap Z block :=
  with_super (set_clean 1 (superblock x)) (<[free_list (superblock x) := BList (freelist_head x)]> (disk x)).
Lemma finish_eq x bs : pager_inv x bs -> pager_finish x = Ret tt (set_disk (closed x) (set_sb (set_clean 1 (superblock x)) x)).
Proof.
  intros Hi. unfold pager_finish, pager_flush_free_list, disk_write, mbind at 1 2 3 4, M_bind at 1 2 3 4, gets, modify. simpl.
  rewrite update_eq by apply Hi. done.
Qed.

Lemma clean_ok sb p : page_ok (set_clean 1 sb) p <-> page_ok sb p.
Proof. done. Qed.
Lemma closed_other x q : page_ok (superblock x) q -> q <> free_list (superblock x) -> closed x !! q = disk x !! q.
Proof. intros (_ & _ & Hq) H. unfold closed. rewrite with_super_other by done. by rewrite lookup_insert_ne by done. Qed.

(** The pages that the reserve did not hold are free after the start. *)
Lemma closed_unread x bs : pager_inv x bs -> unread (set_sb (set_clean 1 (superblock x)) (power_on (closed x))) bs (freelist_head x).
Proof.
  intros Hi. pose proof Hi as [I1 I2 I3 I4 I5 I6 I7]. pose proof (head_ok _ _ Hi) as (_ & _ & Hh).
  assert (free_reserve x ++ all_free (mkPager ∅ (superblock x) (freelist_head x) true [] false) bs ≡ₚ all_free x bs) as HP.
  { unfold all_free. simpl. solve_Permutation. }
  split; simpl; [done|unfold closed; rewrite with_super_other by done; apply lookup_insert_eq|].
  rewrite <-HP in I6, I7. apply list.NoDup_app in I6 as (_ & _ & I6). apply list.Forall_app in I7 as [_ I7]. split; try done.
  simpl. eapply seg_same; [done|]. intros q Hq. pose proof (chain_not_head x bs q Hi Hq) as Hne.
  apply closed_other; [|done]. pose proof (pi_ok _ _ Hi) as Hok. rewrite list.Forall_forall in Hok. by apply Hok, chain_pages_in.
Qed.

(** The pager after the next start. *)
Definition restarted (x : pager) : pager :=
  mkPager (with_super (set_clean 1 (superblock x)) (closed x)) (set_clean 1 (superblock x)) (freelist_head x) true [] false.

Section restarted.
Context x bs Lst Prv Old image used (D : dinv x bs Lst Prv Old image used).

Lemma restarted_free : free_reserve x ++ all_free (restarted x) bs ≡ₚ all_free x bs.
Proof. unfold all_free. simpl. solve_Permutation. Qed.

Lemma closed_lists q : q ∈ list_pages Lst ++ list_pages Prv -> page_ok (superblock x) q /\ closed x !! q = disk x !! q.
Proof.
  intros Hq. pose proof (di_lists _ _ _ _ _ _ _ D) as H. rewrite list.Forall_forall in H.
  destruct (H q) as [Hok Hn]; [clear - Hq; in_list|]. split; [done|]. apply closed_other; [done|].
  intros ->. apply Hn, elem_of_app. right. by left.
Qed.
Lemma restarted_lists q : q ∈ list_pages Lst ++ list_pages Prv -> disk (restarted x) !! q = disk x !! q.
Proof. intros Hq. destruct (closed_lists q Hq) as [(_ & _ & H) E]. simpl. by rewrite with_super_other. Qed.
Lemma closed_listed root l :
  l = Lst \/ l = Prv -> listed (disk x) (length image) root l -> listed (closed x) (length image) root l.
Proof. intros Hl H. eapply listed_same; [done|]. intros q Hq. apply closed_lists, elem_of_app. destruct Hl as [->| ->]; auto. Qed.
Lemma restarted_listed root l :
  l = Lst \/ l = Prv -> listed (disk x) (length image) root l -> listed (disk (restarted x)) (length image) root l.
Proof. intros Hl H. eapply listed_same; [done|]. intros q Hq. apply restarted_lists, elem_of_app. destruct Hl as [->| ->]; auto. Qed.

Lemma restarted_inv : pager_inv (restarted x) bs.
Proof.
  pose proof (un_inv _ _ _ (closed_unread x bs (di_pager _ _ _ _ _ _ _ D))) as H.
  by apply (with_super_inv _ _ (set_clean 1 (superblock x))) in H.
Qed.

Lemma restarted_dinv : dinv (restarted x) bs Lst Prv [] image [].
Proof.
  pose proof restarted_inv as Hi. pose proof restarted_free as HP. destruct D as [D1 D2 D3 D4 D5 D6 D7 D8 D9 D10]. split; try done.
  - exists (set_clean 1 (superblock x)). split; [apply with_super_copy; by left|apply same_fixed_refl].
  - apply restarted_listed; auto.
  - apply restarted_listed; auto.
  - apply Hi.
  - apply Hi.
  - rewrite list.Forall_forall in *. intros q. change (list_pages []) with (@nil Z). rewrite app_nil_r. intros Hq. destruct (D9 q) as [H1 H2]; [clear - Hq; in_list|].
    split; [done|]. intros H. apply H2. rewrite <-HP. simpl in H. clear - H. in_list.
  - intros i c Hc. rewrite <-(D10 i c Hc). apply zero_or_data_same. intros H0.
    destruct (entry_page Lst i) as [|Hin]; [done|]. apply restarted_lists, elem_of_app. by left.
Qed.

Lemma restart_eq version :
  two_copies (superblock x) -> version_ok version -> partition_pager_init version (power_on (closed x)) = Ret tt (restarted x).
Proof.
  intros H2 Hv. apply (start_ok _ (set_clean 1 (superblock x)) (length image) Lst Prv bs); try done.
  - intros q Hq. by apply with_super_copy.
  - apply closed_listed; [auto|]. apply D.
  - apply closed_listed; [auto|]. apply D.
  - apply list.Forall_forall. intros q Hq. by apply closed_lists.
  - apply closed_unread, D.
Qed.
End restarted.

(** C11: Whatever the memory and the snapshot thread were doing, after [pager_finish] the next start of the pager
    accepts the disk, the virtual memory then has the contents of the last complete snapshot and its invariant, and
    exactly the free pages that were not in the reserve are free. *)
Theorem shutdown_restart s g version :
  inv s g -> two_copies (superblock (pg s)) -> version_ok version ->
  wp pager_finish (pg s) (fun _ x => wp (partition_pager_init version) (power_on (disk x)) (fun _ x' => exists bs,
    pager_inv x' bs /\ free_reserve (pg s) ++ all_free x' bs ≡ₚ all_free (pg s) bs /\
    exists s', boot (length (pages s)) x' = Some s' /\ inv s' (mkGhost (saved g) (saved g) (saved g)))).
Proof.
  intros (bs & Lst & Prv & Old & bl & new & HS) H2 Hv. pose proof (si_disk _ _ _ _ _ _ _ _ HS) as D.
  eapply wp_eq; [by apply (finish_eq (pg s) bs), D|]. simpl. eapply wp_eq; [by eapply restart_eq|].
  exists bs. split; [by eapply restarted_inv|]. split; [apply restarted_free|].
  rewrite <-(si_saved _ _ _ _ _ _ _ _ HS). eapply boot_ok. by eapply restarted_dinv.
Qed.

Lemma shutdown_restart_witness :
  exists s, boot 3 ex3_pager = Some s /\ inv s (mkGhost ex3_image ex3_image ex3_image) /\ two_copies (superblock (pg s)) /\
  wp pager_finish (pg s) (fun _ x => wp (partition_pager_init 0x10003) (power_on (disk x)) (fun _ x' => exists bs,
    pager_inv x' bs /\ free_reserve (pg s) ++ all_free x' bs ≡ₚ all_free (pg s) bs /\
    exists s', boot (length (pages s)) x' = Some s' /\ inv s' (mkGhost ex3_image ex3_image ex3_image))).
Proof.
  destruct (boot_ok _ _ _ _ _ ex3_dinv) as (s & Hs & Hi). exists s. assert (two_copies (superblock (pg s))) as H2.
  { injection Hs as <-. done. }
  split_and!; try done; try apply H2. apply (shutdown_restart s _ 0x10003 Hi H2). done.
Defined.

(** ** Stops without a shutdown *)

Definition pager_after (m : M pager unit) (x : pager) : option pager := match m x with Ret _ x' => Some x' | _ => None end.
Definition start (d : gmap Z block) : option pager := pager_after (partition_pager_init 0x10003) (power_on d).
Definition ex_format : gmap Z block := {[ sb_default_page_number := BSuper (phantom_disk_format 0x400) ]}.
(** A page is written and a snapshot is made. *)
Definition ex_session : list op :=
  [Store 0 (Z.add 1) false; Start 0; Done 0; Resume 0; Store 0 (Z.add 1) false] ++
  concat (replicate 25 [Start 0; Done 0; Snapshot]).
Definition ex_stopped : option pager :=
  x ← start ex_format; x ← pager_after pager_finish x; x ← start (disk x);
  s ← boot 1 x;
  match Snap.run ex3_garbage ex_session s with Ret _ s => Some (pg s) | _ => None end.

(** The free list on the disk is the one of the last shutdown: after a stop without one the block of the last
    snapshot is free again. *)
Lemma stale_free_list :
  match ex_stopped ≫= (fun x => start (disk x)) with
  | Some y => last_snap (superblock y) = 511 /\ bool_decide (511 ∈ refs_of (freelist_head y)) = true
  | None => False
  end.
Proof. by vm_compute. Qed.

(** A stop between the writes of the copies of the superblock: the next start panics. *)
Lemma torn_superblock :
  let sb := set_clean 1 ex3_sb in let d := with_super sb ex3_disk in
  is_Some (start d) /\ partition_pager_init 0x10003 (power_on (<[sb_default_page_number := BSuper (set_snaps 0x40 0x30 sb)]> d)) =
  Panic "I don't have any fsck yet. I must die.".
Proof. split; [by eexists|by vm_compute]. Qed.

(** A disk with fewer pages than the places of the copies: pages beyond its end are free. *)
Lemma small_disk :
  match start {[ sb_default_page_number := BSuper (phantom_disk_format 0x80) ]} with
  | Some y => disk_page_count (superblock y) = 0x80 /\ bool_decide (0x21F ∈ refs_of (freelist_head y)) = true
  | None => False
  end.
Proof. by vm_compute. Qed.
