(* ===== verification/SnapLive.v ===== *)
(** * Snapshots complete

    The snapshot thread never waits for long: when the disk completes the requests that
    are there before each of its steps, a snapshot of [n] pages takes [7 * n + 13] steps,
    and a restart then finds the memory. *)

From S2P Require Import Prelude Amap Pager PagerSpec Snap SnapInv SnapOps SnapSpec.

(** ** What a step does if it returns *)

Definition wlp {S A} (m : M S A) (s : S) (Q : A -> S -> Prop) : Prop := forall a s', m s = Ret a s' -> Q a s'.

Section Wlp.
Context {S : Type}.
Implicit Types s : S.

Lemma wlp_ret {A} (a : A) s (Q : A -> S -> Prop) : Q a s -> wlp (mret a) s Q.
Proof. by intros H ? ? [= <- <-]. Qed.
Lemma wlp_panic {A} msg s (Q : A -> S -> Prop) : wlp (panic msg) s Q.
Proof. by intros ? ?. Qed.
Lemma wlp_bind {A B} (m : M S A) (f : A -> M S B) s Q : wlp m s (fun a s1 => wlp (f a) s1 Q) -> wlp (m ≫= f) s Q.
Proof. intros H b s2. unfold mbind, M_bind. destruct (m s) eqn:E; try done. by apply H. Qed.
Lemma wlp_any {A} (m : M S A) s (Q : A -> S -> Prop) : (forall a s', Q a s') -> wlp m s Q.
Proof. by intros H ? ? _. Qed.
Lemma wlp_gets {A} (f : S -> A) s (Q : A -> S -> Prop) : Q (f s) s -> wlp (gets f) s Q.
Proof. by intros H ? ? [= <- <-]. Qed.
Lemma wlp_modify (f : S -> S) s (Q : unit -> S -> Prop) : Q tt (f s) -> wlp (modify f) s Q.
Proof. by intros H ? ? [= <- <-]. Qed.
Lemma wpe_wlp {A} E (m : M S A) s (Q R : A -> S -> Prop) :
  wpe E m s Q -> wlp m s R -> wpe E m s (fun a s' => Q a s' /\ R a s').
Proof. unfold wpe, wlp. destruct (m s); auto. Qed.
Lemma wpe_and {A} E (m : M S A) s (Q R : A -> S -> Prop) :
  wpe E m s Q -> wpe E m s R -> wpe E m s (fun a s' => Q a s' /\ R a s').
Proof. unfold wpe. destruct (m s); auto. Qed.
End Wlp.

(** ** The disk completes all requests *)

Lemma run_app garbage ops1 ops2 s E Q :
  wpe E (Snap.run garbage ops1) s (fun es1 s1 => wpe E (Snap.run garbage ops2) s1 (fun es2 s2 => Q (es1 ++ es2) s2)) ->
  wpe E (Snap.run garbage (ops1 ++ ops2)) s Q.
Proof.
  revert s Q. induction ops1 as [|o ops1 IH]; intros s Q H; [exact H|].
  unfold wpe in *. simpl in *. unfold mbind, M_bind, gets in *. destruct (enabled o s); [|by apply IH].
  destruct (step garbage o s) as [e s1| | |]; try done.
  specialize (IH s1 (fun es s' => Q (match e with Some e => e :: es | None => es end) s')).
  destruct (Snap.run garbage ops1 s1) as [es1 s2| | |] eqn:E1.
  all: destruct (Snap.run garbage (ops1 ++ ops2) s1) as [es s3| | |] eqn:E2; try done; try by apply IH.
  all: simpl in *; destruct e as [e|]; simpl in *; auto.
Qed.

Definition io_free (p p' : vm_page) : Prop := write_waiting p' = write_waiting p /\ pager_io p' = None.

Lemma drain_one garbage s g i p :
  inv s g -> pages s !! i = Some p ->
  wpe no_space (Snap.run garbage [Start i; Done i]) s (fun es s' => es = [] /\ keeps s g i (io_free p) s').
Proof.
  intros Hinv Hi. assert (forall s1 p1, keeps s g i (fun p' => p' = p1) s1 -> write_waiting p1 = write_waiting p ->
    (if pager_io p1 is Some r then started r = true else True) ->
    wpe no_space (Snap.run garbage [Done i]) s1 (fun es s' => es = [] /\ keeps s g i (io_free p) s')) as Hdone.
  { intros s1 p1 HK Hw Hio. destruct (keeps_page _ _ _ _ _ _ HK Hi) as (Hinv1 & _ & p' & Hi1 & ->). simpl.
    apply wpe_bind, wp_wpe, wp_gets. simpl. rewrite Hi1. destruct (pager_io p1) as [r|] eqn:E.
    - rewrite Hio. apply wpe_bind, wpe_bind. eapply wpe_mono; [by eapply io_done_ok|]. intros ? s2 HK2.
      apply wpe_ret, wpe_bind, wpe_ret, wpe_ret. split; [done|]. eapply keeps_then; [done|].
      destruct HK2 as (K1 & K2 & p2 & K3 & K4 & K5). split_and!; try done. exists p2. split; [done|].
      destruct (pager_io p2) eqn:E2; [by destruct K5|]. split; [congruence|done].
    - apply wpe_ret. split; [done|]. destruct HK as (K1 & K2 & p2 & K3 & ->). split_and!; try done. by exists p1. }
  change [Start i; Done i] with ([Start i] ++ [Done i]). apply run_app. simpl.
  apply wpe_bind, wp_wpe, wp_gets. simpl. rewrite Hi.
  assert ((if pager_io p is Some r then started r = true else True) -> wpe no_space (Snap.run garbage [Done i]) s
    (fun es s' => es = [] /\ keeps s g i (io_free p) s')) as Hno.
  { intros H. apply (Hdone s p); [by eapply keeps_same|done..]. }
  destruct (pager_io p) as [r|] eqn:E; [|apply wpe_ret, Hno; done]. destruct (started r) eqn:Est; [apply wpe_ret, Hno; done|].
  apply wpe_bind, wpe_bind. eapply wpe_mono; [eapply io_start_ok; [done..|simpl; by rewrite Hi, E, Est]|].
  intros ? s1 (K1 & K2 & p1 & K3 & K4 & K5). apply wpe_ret, wpe_bind, wpe_ret, wpe_ret. apply (Hdone s1 p1).
  - split_and!; try done. by exists p1.
  - done.
  - destruct (pager_io p1); [by destruct K5|done].
Qed.

Definition drain (l : list nat) : list op := l ≫= (fun i => [Start i; Done i]).

(** No page waits for the disk, no thread for a page. *)
Definition drained (s : vm_map) : Prop := Forall (fun p => pager_io p = None) (pages s).
Definition calm (s : vm_map) : Prop := Forall (fun p => write_waiting p = false) (pages s).

Lemma drain_ok garbage l s g :
  inv s g -> (forall i, i ∈ l -> (i < length (pages s))%nat) ->
  wpe no_space (Snap.run garbage (drain l)) s (fun es s' => es = [] /\ inv s' g /\ snapper s' = snapper s /\
    length (pages s') = length (pages s) /\ forall j p', pages s' !! j = Some p' -> exists p, pages s !! j = Some p /\
      write_waiting p' = write_waiting p /\ (j ∈ l \/ pager_io p = None -> pager_io p' = None)).
Proof.
  revert s. induction l as [|i l IH]; intros s Hinv Hl.
  { apply wpe_ret. split_and!; try done. intros j p Hp. exists p. split_and!; try done. intros [?%not_elem_of_nil|?]; done. }
  destruct (lookup_lt_is_Some_2 (pages s) i) as [p Hi]; [apply Hl; by left|].
  change (drain (i :: l)) with ([Start i; Done i] ++ drain l). apply run_app.
  eapply wpe_mono; [by eapply drain_one|]. intros es s1 (-> & H1 & H2 & p1 & H3 & H4 & H5).
  eapply wpe_mono; [apply (IH s1); [done|]|].
  { intros j Hj. rewrite H3, length_insert. apply Hl. by right. }
  intros es s2 (-> & K1 & K2 & K3 & K4). rewrite H3, length_insert in K3. split_and!; try done; [congruence|].
  intros j p' Hj. destruct (K4 j p' Hj) as (q & Hq & Hw & Hio). rewrite H3 in Hq.
  destruct (decide (j = i)) as [->|Hij].
  - rewrite list_lookup_insert_eq in Hq by (by eapply lookup_lt_Some). injection Hq as <-. exists p. split_and!; [done|congruence|].
    intros _. apply Hio. by right.
  - rewrite list_lookup_insert_ne in Hq by done. exists q. split_and!; try done. intros [[?|?]%elem_of_cons|?]; auto. done.
Qed.

Lemma drain_all_ok garbage s g :
  inv s g ->
  wpe no_space (Snap.run garbage (drain (seq 0 (length (pages s))))) s (fun es s' => es = [] /\ inv s' g /\ snapper s' = snapper s /\
    length (pages s') = length (pages s) /\ drained s' /\ (calm s -> calm s')).
Proof.
  intros Hinv. eapply wpe_mono; [apply drain_ok; [done|]|].
  { intros i Hi. apply elem_of_seq in Hi. lia. }
  intros es s' (-> & H1 & H2 & H3 & H4). split_and!; try done.
  - apply list.Forall_forall. intros p' (j & Hj)%list_elem_of_lookup_1. destruct (H4 j p' Hj) as (p & Hp & _ & Hio).
    apply Hio. left. apply elem_of_seq. apply lookup_lt_Some in Hp. lia.
  - intros Hc. apply list.Forall_forall. intros p' (j & Hj)%list_elem_of_lookup_1. destruct (H4 j p' Hj) as (p & Hp & -> & _).
    unfold calm in Hc. rewrite list.Forall_forall in Hc. apply Hc. by eapply list_elem_of_lookup_2.
Qed.

(** ** The steps of the snapshot thread that are left *)

Definition rank (n : nat) (pc : snap_pc) : nat :=
  match pc with
  | Idle => 0
  | Update => 1
  | Free _ => 2
  | Super _ => 3
  | Commit k _ => (n - k) + 4
  | Finish _ => n + 5
  | Save3 k _ => 3 * (n - k) + n + 4
  | Save2 k _ => 3 * (n - k) + n + 5
  | Save1 k _ => 3 * (n - k) + n + 6
  | Create => 4 * n + 7
  | Unset => 4 * n + 8
  | Finalize k => (n - k) + 4 * n + 9
  | Kick2 k => (n - k) + 5 * n + 10
  | Mark => 6 * n + 11
  | Kick1 k => (n - k) + 6 * n + 12
  end.

(** The events that are still to come. *)
Definition pending (pc : snap_pc) : list event :=
  match pc with
  | Kick1 _ | Mark => [Marked; Saved]
  | Idle | Free _ | Update => []
  | _ => [Saved]
  end.
Definition before_mark (pc : snap_pc) : bool := match pc with Kick1 _ | Mark => true | _ => false end.

Definition advances (s : vm_map) (e : option event) (s' : vm_map) : Prop :=
  rank (length (pages s)) (snapper s) = S (rank (length (pages s)) (snapper s')) /\
  pending (snapper s) = option_list e ++ pending (snapper s').

Lemma for_page_advances s k f again next :
  (forall p, pages s !! k = Some p -> wlp (f k) s (fun b _ => b = true)) ->
  ((k < length (pages s))%nat -> advances s None (set_snapper again s)) ->
  ((length (pages s) <= k)%nat -> advances s None (set_snapper next s)) ->
  wlp (for_page k f again next;; mret None) s (advances s).
Proof.
  intros Hf Ha Hn. apply wlp_bind. unfold for_page. apply wlp_bind, wlp_gets. case_bool_decide as Hk.
  - destruct (lookup_lt_is_Some_2 _ _ Hk) as [p Hp]. apply wlp_bind. intros b s1 E. rewrite (Hf p Hp b s1 E).
    apply wlp_modify, wlp_ret. exact (Ha Hk).
  - apply wlp_modify, wlp_ret. apply Hn. lia.
Qed.

Lemma always_true s k f : wlp (always f k) s (fun b _ => b = true).
Proof. apply wlp_bind, wlp_any. intros ? ?. by apply wlp_ret. Qed.

Lemma finalize_true s k p : pages s !! k = Some p -> pager_io p = None -> wlp (finalize_snap k) s (fun b _ => b = true).
Proof.
  intros Hp Hio. unfold finalize_snap, page. apply wlp_bind, wlp_bind, wlp_gets. rewrite Hp. apply wlp_ret.
  unfold busy. rewrite Hio. simpl. destruct (make_page p); [by apply wlp_ret|]. apply wlp_bind, wlp_any. intros _ s1.
  destruct (curr_page p); [|destruct (prev_page p)]; apply wlp_bind, wlp_any; intros _ s2; by apply wlp_ret.
Qed.

Lemma commit_true s k p : pages s !! k = Some p -> pager_io p = None -> wlp (wait_commit_snap k) s (fun b _ => b = true).
Proof.
  intros Hp Hio. unfold wait_commit_snap, page. apply wlp_bind, wlp_bind, wlp_gets. rewrite Hp. apply wlp_ret. rewrite Hio. by apply wlp_ret.
Qed.

Ltac count :=
  unfold advances; match goal with H : snapper _ = _ |- _ => rewrite H end; simpl; split; (done || lia).

Lemma snapshot_advances garbage s g :
  inv s g -> drained s -> snapper s <> Idle -> wlp (do_snapshot garbage) s (advances s).
Proof.
  intros (bs & Lst & Prv & Old & bl & new & HS) Hdr Hidle. unfold drained in Hdr. rewrite list.Forall_forall in Hdr.
  assert (forall k p, pages s !! k = Some p -> pager_io p = None) as Hio.
  { intros k p Hp. apply Hdr. by eapply list_elem_of_lookup_2. }
  unfold do_snapshot. apply wlp_bind, wlp_gets.
  assert (forall k saver, snapper s = Save2 k saver \/ snapper s = Save3 k saver -> (k < length (pages s))%nat) as Hsave.
  { intros k saver [Hpc|Hpc].
    - by destruct (pc_at HS Hpc) as [(cs & ws & _ & _ & _ & ? & _) _].
    - destruct (pc_at HS Hpc) as [(cs & ws & p & q & _ & _ & _ & _ & Hp & _) _]. by eapply lookup_lt_Some. }
  destruct (snapper s) as [|k| |k|k| | |k l|k l|k l|l|k h|h|f|] eqn:Hpc; [done|..].
  1, 3, 7: apply for_page_advances; [intros; apply always_true|..]; intros Hk; count.
  - do 3 (apply wlp_bind, wlp_any; intros ? ?). apply wlp_bind, wlp_modify, wlp_ret. count.
  - apply for_page_advances; [intros p Hp; eapply finalize_true; eauto|..]; intros Hk; count.
  - apply wlp_bind, wlp_modify, wlp_bind, wlp_modify, wlp_ret. count.
  - apply wlp_bind, wlp_any. intros [h|] s1; [|apply wlp_panic]. apply wlp_bind, wlp_any. intros l s2.
    apply wlp_bind, wlp_modify, wlp_ret. count.
  - specialize (Hsave k l (or_introl eq_refl)). apply wlp_bind, wlp_any. intros ? ?. apply wlp_bind, wlp_modify, wlp_ret. count.
  - specialize (Hsave k l (or_intror eq_refl)). apply wlp_bind, wlp_any. intros ? ?. apply wlp_bind, wlp_modify, wlp_ret. count.
  - apply wlp_bind, wlp_any. intros ? ?. apply wlp_bind, wlp_modify, wlp_ret. count.
  - apply for_page_advances; [intros p Hp; eapply commit_true; eauto|..]; intros Hk; count.
  - do 2 (apply wlp_bind, wlp_any; intros ? ?). apply wlp_bind, wlp_modify, wlp_ret. count.
  - do 2 (apply wlp_bind, wlp_any; intros ? ?). apply wlp_bind, wlp_modify, wlp_ret. count.
  - apply wlp_bind, wlp_any. intros ? ?. apply wlp_bind, wlp_modify, wlp_ret. count.
Qed.

(** Before the memory is marked the snapshot thread makes no thread wait. *)
Lemma snapshot_calm garbage s g :
  inv s g -> calm s -> snapper s = Idle \/ (exists k, snapper s = Kick1 k) ->
  wpe no_space (do_snapshot garbage) s (fun _ => calm).
Proof.
  intros Hinv Hc [Hpc|[k Hpc]]; unfold do_snapshot; apply wpe_bind, wp_wpe, wp_gets; rewrite Hpc.
  { apply wpe_bind, wp_wpe, wp_modify, wpe_ret. done. }
  apply wpe_bind. unfold for_page. apply wpe_bind, wp_wpe, wp_gets. case_bool_decide as Hk; [|by apply wp_wpe, wp_modify, wpe_ret].
  destruct (lookup_lt_is_Some_2 _ _ Hk) as [p Hp]. apply wpe_bind, wpe_bind. eapply wpe_mono; [by eapply kick_ok|].
  intros ? s1 (_ & _ & p1 & E & W & _). apply wpe_ret, wp_wpe, wp_modify, wpe_ret. unfold calm. simpl. rewrite E.
  apply list.Forall_insert; [done|]. rewrite W. unfold calm in Hc. rewrite list.Forall_forall in Hc. apply Hc. by eapply list_elem_of_lookup_2.
Qed.

Lemma rank_before n pc : if before_mark pc then (6 * n + 11 <= rank n pc)%nat else (rank n pc <= 6 * n + 10)%nat.
Proof. destruct pc; simpl; lia. Qed.

(** One step, after all requests are completed. *)
Definition round (n : nat) : list op := drain (seq 0 n) ++ [Snapshot].

Definition ready (s : vm_map) : Prop := before_mark (snapper s) = true -> calm s.

Lemma inv_length s g : inv s g -> length (pages s) = length (mem g).
Proof. intros (? & ? & ? & ? & ? & ? & HS). by rewrite (si_mem _ _ _ _ _ _ _ _ HS). Qed.

Lemma observed_run g e s : observed g e s -> exists g', spec_run (option_list e) g = Some g' /\ inv s g'.
Proof. intros (g' & H & Hinv). exists g'. split; [|done]. destruct e; simpl; [by rewrite H|congruence]. Qed.

Lemma enabled_snapshot s : ready s -> enabled Snapshot s = true.
Proof.
  unfold ready. simpl. destruct (snapper s) eqn:Hpc; try done. intros Hc. specialize (Hc eq_refl).
  apply forallb_forall. intros p Hp%list_elem_of_In. unfold calm in Hc. rewrite list.Forall_forall in Hc. by rewrite Hc.
Qed.

Lemma round_ok garbage s g n :
  inv s g -> n = length (pages s) -> ready s -> snapper s <> Idle ->
  wpe no_space (Snap.run garbage (round n)) s (fun es s' => exists g', spec_run es g = Some g' /\ inv s' g' /\ ready s' /\
    rank n (snapper s) = S (rank n (snapper s')) /\ pending (snapper s) = es ++ pending (snapper s')).
Proof.
  intros Hinv -> Hr Hidle. apply run_app. eapply wpe_mono; [by apply (drain_all_ok garbage s g)|].
  intros es s1 (-> & H1 & H2 & H3 & H4 & H5). simpl. assert (ready s1) as Hr1 by (unfold ready in *; rewrite H2; auto).
  apply wpe_bind, wp_wpe, wp_gets. rewrite (enabled_snapshot s1 Hr1). apply wpe_bind.
  assert (wpe no_space (do_snapshot garbage) s1 (fun _ s' => (exists k, snapper s1 = Kick1 k) -> calm s')) as Hcalm.
  { destruct (snapper s1) eqn:E; try (eapply wpe_mono; [by apply snapshot_step_ok; [|apply enabled_snapshot]|]; by intros ? ? _ [? ?]).
    eapply wpe_mono; [apply (snapshot_calm garbage s1 g); [done|apply Hr1; by rewrite E|by right; exists k]|]. by intros. }
  rewrite <-H2 in Hidle. eapply wpe_mono; [apply wpe_and; [apply wpe_wlp; [apply snapshot_step_ok; [done|by apply enabled_snapshot]|by eapply snapshot_advances]|exact Hcalm]|].
  intros e s2 [[Hobs [Ha1 Ha2]] Hca]. apply wpe_bind, wpe_ret, wpe_ret. destruct (observed_run _ _ _ Hobs) as (g' & Hg' & Hinv').
  exists g'. rewrite H3, H2 in Ha1. rewrite H2 in Ha2. split_and!; try done.
  intros Hb. apply Hca. pose proof (rank_before (length (pages s)) (snapper s2)) as R2. rewrite Hb in R2.
  rewrite H2. destruct (snapper s) eqn:E; simpl in Ha1; try lia. by exists k.
Qed.

Definition rounds (n k : nat) : list op := concat (replicate k (round n)).

Lemma spec_run_app es1 es2 g : spec_run (es1 ++ es2) g = spec_run es1 g ≫= spec_run es2.
Proof. revert g. induction es1 as [|e es1 IH]; intros g; simpl; [done|]. destruct (spec_step e g); simpl; auto. Qed.

Lemma idle_rank n pc : rank n pc = 0%nat -> pc = Idle.
Proof. destruct pc; simpl; (done || lia). Qed.

Lemma rounds_ok garbage s g n :
  inv s g -> n = length (pages s) -> ready s ->
  wpe no_space (Snap.run garbage (rounds n (rank n (snapper s)))) s (fun es s' => exists g', spec_run es g = Some g' /\ inv s' g' /\
    snapper s' = Idle /\ es = pending (snapper s)).
Proof.
  intros Hinv Hn Hr. remember (rank n (snapper s)) as k eqn:Hk. revert s g Hinv Hn Hr Hk.
  induction k as [|k IH]; intros s g Hinv Hn Hr Hk.
  - apply wpe_ret. exists g. rewrite (idle_rank n (snapper s)) by done. done.
  - change (rounds n (S k)) with (round n ++ rounds n k). apply run_app.
    eapply wpe_mono; [apply (round_ok garbage s g n); try done; intros E; by rewrite E in Hk|].
    intros es1 s1 (g1 & Hg1 & Hinv1 & Hr1 & Hk1 & Hp1).
    eapply wpe_mono; [apply (IH s1 g1); try done; [|lia]|].
    + rewrite (inv_length _ _ Hinv1), (spec_run_length _ _ _ Hg1). by rewrite <-(inv_length _ _ Hinv).
    + intros es2 s2 (g2 & Hg2 & Hinv2 & Hidle & ->). exists g2. rewrite spec_run_app, Hg1. by split_and!.
Qed.


Definition ex3_map : vm_map := mkVm ex3_pager (imap (fun i _ => page_of (entry [(0x30, ex3_list)] i)) ex3_image) [] [] false Idle.

Lemma ex3_map_inv : inv ex3_map (mkGhost ex3_image ex3_image ex3_image).
Proof. destruct (boot_ok _ _ _ _ _ ex3_dinv) as (s & Hs & Hinv). vm_compute in Hs. by injection Hs as <-. Qed.

