(* ===== verification/SnapSync.v ===== *)
(** * Stopping the threads of the machine for a snapshot

    [phantom_snapper_wait_4_threads] returns when every thread of the virtual machine
    has stopped at the boundary of an instruction or is inside of a system call that
    blocks ([snap_sync.c], the configuration without [NEW_SNAP_SYNC]; [vm_threads.c] for
    the number of threads; the loop of [pvm_exec] for the test between instructions).

    A step is what runs under [interlock_mutex] up to the next place where the code waits
    or releases it, or an access outside of it.  The snapshot thread and the garbage
    collector are clients; there may be any number of them. *)

From S2P Require Import Prelude.

(** A thread has been created but is not in [n_vm_threads] yet; it executes
    instructions; has seen the request; waits on [phantom_vm_wait_4_snap]; the condition
    is signalled; it is in [syscall_worker]; it has returned from [pvm_exec]; or its death
    handler has run. *)
Inductive vm_thread := Starting | Running | Requested | Sleeping | Woken | Blocking | Ended | Dead.
#[global] Instance vm_thread_eq : EqDecision vm_thread.
Proof. solve_decision. Defined.

(** Where a client is: outside, at the beginning and in the two loops of [phantom_snapper_wait_4_threads],
    behind it, in the loop of [phantom_snapper_reenable_threads]. *)
Inductive client := Out | Asked | Waiting (threads_4_wait : Z) | Recount (threads_4_wait : Z) | Inside | Leaving.
#[global] Instance client_eq : EqDecision client.
Proof. solve_decision. Defined.

Record snap_sync := mkSync {
  vm_threads : list vm_thread;
  n_vm_threads : Z;
  snap_request : Z;
  threads_stopped : Z;
  clients : list client }.

Definition set_thread (i : nat) (t : vm_thread) (s : snap_sync) : snap_sync :=
  mkSync (<[i := t]> (vm_threads s)) (n_vm_threads s) (snap_request s) (threads_stopped s) (clients s).
Definition set_client (c : nat) (x : client) (s : snap_sync) : snap_sync :=
  mkSync (vm_threads s) (n_vm_threads s) (snap_request s) (threads_stopped s) (<[c := x]> (clients s)).
Definition add_stopped (d : Z) (s : snap_sync) : snap_sync :=
  mkSync (vm_threads s) (n_vm_threads s) (snap_request s) (threads_stopped s + d) (clients s).
Definition add_request (d : Z) (s : snap_sync) : snap_sync :=
  mkSync (vm_threads s) (n_vm_threads s) (snap_request s + d) (threads_stopped s) (clients s).
Definition add_count (d : Z) (s : snap_sync) : snap_sync :=
  mkSync (vm_threads s) (n_vm_threads s + d) (snap_request s) (threads_stopped s) (clients s).

(** ** Threads of the machine *)

Definition start_new_vm_thread (s : snap_sync) : snap_sync :=
  mkSync (vm_threads s ++ [Starting]) (n_vm_threads s) (snap_request s) (threads_stopped s) (clients s).
Definition thread_run_func (i : nat) (s : snap_sync) : snap_sync := add_count 1 (set_thread i Running s).
Definition thread_run_func_end (i : nat) (s : snap_sync) : snap_sync := add_count (-1) (set_thread i Ended s).
(** It runs for every thread in the end, also for one that has returned. *)
Definition thread_death_handler (i : nat) (s : snap_sync) : snap_sync := add_count (-1) (set_thread i Dead s).

(** The test before each instruction. *)
Definition pvm_exec_check (i : nat) (s : snap_sync) : snap_sync :=
  if snap_request s =? 0 then s else set_thread i Requested s.
Definition phantom_thread_wait_4_snap (i : nat) (s : snap_sync) : snap_sync := add_stopped 1 (set_thread i Sleeping s).
Definition phantom_thread_awaken (i : nat) (s : snap_sync) : snap_sync := add_stopped (-1) (set_thread i Running s).

(** Around [syscall_worker]. *)
Definition vm_syscall_block (i : nat) (s : snap_sync) : snap_sync := add_stopped 1 (set_thread i Blocking s).
Definition vm_syscall_block_end (i : nat) (s : snap_sync) : snap_sync :=
  if snap_request s =? 0 then add_stopped (-1) (set_thread i Running s) else set_thread i Sleeping s.

(** ** Clients *)

Definition phantom_snapper_wait_4_threads (c : nat) (s : snap_sync) : snap_sync :=
  add_request 1 (set_client c Asked s).
Definition count_threads (c : nat) (s : snap_sync) : snap_sync := set_client c (Waiting (n_vm_threads s)) s.
Definition wait_for_threads (c : nat) (threads_4_wait : Z) (s : snap_sync) : snap_sync :=
  if threads_stopped s <? threads_4_wait then s else set_client c (Recount threads_4_wait) s.
Definition recount_threads (c : nat) (threads_4_wait : Z) (s : snap_sync) : snap_sync :=
  let newc := n_vm_threads s in
  if threads_4_wait <? newc then set_client c (Waiting newc) s else set_client c Inside s.

(** The broadcast of [phantom_vm_wait_4_snap]. *)
Definition wake_all (s : snap_sync) : snap_sync :=
  mkSync ((fun t => if decide (t = Sleeping) then Woken else t) <$> vm_threads s) (n_vm_threads s) (snap_request s) (threads_stopped s) (clients s).
Definition phantom_snapper_reenable_threads (c : nat) (s : snap_sync) : snap_sync :=
  let s := add_request (-1) s in
  if 0 <? snap_request s then set_client c Out s else set_client c Leaving (wake_all s).
Definition wait_for_leave (c : nat) (s : snap_sync) : snap_sync :=
  if 0 <? threads_stopped s then s else set_client c Out s.

(** ** Steps *)

Inductive sync_op :=
  | Thread (i : nat)
  | Create_thread (i : nat)
  | Block (i : nat)
  | End_thread (i : nat)
  | Client (c : nat).

(** What a thread does next; a running thread may also create a thread, block or end. *)
Definition thread_step (i : nat) (t : vm_thread) (s : snap_sync) : snap_sync :=
  match t with
  | Starting => thread_run_func i s
  | Running => pvm_exec_check i s
  | Requested => phantom_thread_wait_4_snap i s
  | Woken => phantom_thread_awaken i s
  | Blocking => vm_syscall_block_end i s
  | Ended => thread_death_handler i s
  | Sleeping | Dead => s
  end.
Definition client_step (c : nat) (x : client) (s : snap_sync) : snap_sync :=
  match x with
  | Out => phantom_snapper_wait_4_threads c s
  | Asked => count_threads c s
  | Waiting n => wait_for_threads c n s
  | Recount n => recount_threads c n s
  | Inside => phantom_snapper_reenable_threads c s
  | Leaving => wait_for_leave c s
  end.

Definition running (i : nat) (s : snap_sync) (s' : snap_sync) : snap_sync :=
  match vm_threads s !! i with Some Running => s' | _ => s end.
Definition sync_step (o : sync_op) (s : snap_sync) : snap_sync :=
  match o with
  | Thread i => match vm_threads s !! i with Some t => thread_step i t s | None => s end
  | Create_thread i => running i s (start_new_vm_thread s)
  | Block i => running i s (vm_syscall_block i s)
  | End_thread i => running i s (thread_run_func_end i s)
  | Client c => match clients s !! c with Some x => client_step c x s | None => s end
  end.

(** A new thread is counted before the one that created it goes on, nobody asks for the
    threads while they are about to leave, and the death handler does not run for a thread
    that has returned, since it is counted out already. *)
Definition sync_enabled (o : sync_op) (s : snap_sync) : bool :=
  if decide (Starting ∈ vm_threads s) then
    match o with Thread i => bool_decide (vm_threads s !! i = Some Starting) | _ => false end
  else
    match o with
    | Thread i => bool_decide (vm_threads s !! i <> Some Ended)
    | Client c => bool_decide (clients s !! c <> Some Out \/ Leaving ∉ clients s)
    | _ => true
    end.

Fixpoint sync_run (ops : list sync_op) (s : snap_sync) : snap_sync :=
  match ops with
  | [] => s
  | o :: ops => sync_run ops (if sync_enabled o s then sync_step o s else s)
  end.

Definition sync_init (n_threads n_clients : nat) : snap_sync :=
  mkSync (replicate n_threads Running) (Z.of_nat n_threads) 0 0 (replicate n_clients Out).

(** The thread executes no instruction, and none before the next broadcast. *)
Definition still (t : vm_thread) : Prop := match t with Sleeping | Blocking | Ended | Dead => True | _ => False end.

(** ** Sums over a list *)

Fixpoint total {A} (f : A -> Z) (l : list A) : Z := match l with [] => 0 | x :: l => f x + total f l end.

Section Total.
Context {A : Type}.
Implicit Types (f g : A -> Z) (l : list A).

Lemma total_insert f l i x y : l !! i = Some x -> total f (<[i := y]> l) = total f l - f x + f y.
Proof. revert i. induction l as [|a l IH]; intros [|i] H; simplify_eq/=; [lia|]. rewrite (IH _ H). lia. Qed.
Lemma total_app f l1 l2 : total f (l1 ++ l2) = total f l1 + total f l2.
Proof. induction l1 as [|a l1 IH]; simpl; lia. Qed.
Lemma total_fmap f (h : A -> A) l : (forall x, f (h x) = f x) -> total f (h <$> l) = total f l.
Proof. intros H. induction l as [|a l IH]; csimpl; [done|]. by rewrite H, IH. Qed.
Lemma total_replicate f n x : total f (replicate n x) = Z.of_nat n * f x.
Proof. induction n as [|n IH]; cbn [total replicate]; lia. Qed.
Lemma total_le f g l : (forall x, f x <= g x) -> total f l <= total g l.
Proof. intros H. induction l as [|a l IH]; simpl; [lia|]. specialize (H a). lia. Qed.
Lemma total_ge_0 f l : (forall x, 0 <= f x) -> 0 <= total f l.
Proof. intros H. induction l as [|a l IH]; simpl; [lia|]. specialize (H a). lia. Qed.
Lemma total_elem f l x : (forall x, 0 <= f x) -> x ∈ l -> f x <= total f l.
Proof.
  intros H. induction l as [|a l IH]; [by intros ?%not_elem_of_nil|]. simpl. intros [->|Hx]%elem_of_cons.
  - pose proof (total_ge_0 f l H). lia.
  - specialize (IH Hx). specialize (H a). lia.
Qed.
Lemma total_eq f g l x : (forall x, f x <= g x) -> total g l <= total f l -> x ∈ l -> f x = g x.
Proof.
  intros H. induction l as [|a l IH]; [by intros _ ?%not_elem_of_nil|]. simpl. intros Ht [->|Hx]%elem_of_cons.
  - pose proof (total_le f g l H). specialize (H a). lia.
  - apply IH; [|done]. specialize (H a). lia.
Qed.
End Total.

Lemma elem_of_insert_list {A} (l : list A) i x y : y ∈ <[i := x]> l -> y = x \/ y ∈ l.
Proof.
  intros (j & Hj)%list_elem_of_lookup_1. apply list_lookup_insert_Some in Hj as [(_ & -> & _)|[_ Hj]]; [by left|].
  right. by eapply list_elem_of_lookup_2.
Qed.

(** ** The invariant *)

Definition alive (t : vm_thread) : Z := match t with Starting | Ended | Dead => 0 | _ => 1 end.
Definition counted (t : vm_thread) : Z := match t with Sleeping | Woken | Blocking => 1 | _ => 0 end.
Definition asking (x : client) : Z := match x with Out | Leaving => 0 | _ => 1 end.

Record sync_inv (s : snap_sync) : Prop := {
  sv_count : n_vm_threads s = total alive (vm_threads s);
  sv_stopped : threads_stopped s = total counted (vm_threads s);
  sv_request : snap_request s = total asking (clients s);
  sv_leaving : Leaving ∈ clients s -> snap_request s = 0;
  sv_woken : Woken ∈ vm_threads s -> Leaving ∈ clients s;
  sv_recount : forall n, Recount n ∈ clients s -> n <= threads_stopped s;
  sv_inside : Inside ∈ clients s -> Forall still (vm_threads s);
}.

Lemma alive_nonneg t : 0 <= alive t.
Proof. by destruct t. Qed.
Lemma counted_nonneg t : 0 <= counted t.
Proof. by destruct t. Qed.
Lemma asking_nonneg x : 0 <= asking x.
Proof. by destruct x. Qed.
Lemma counted_alive t : counted t <= alive t.
Proof. by destruct t. Qed.

(** A client that asks is why the request is not 0. *)
Lemma asking_request s x : sync_inv s -> x ∈ clients s -> asking x = 1 -> 0 < snap_request s.
Proof. intros Hs Hx E. rewrite (sv_request _ Hs). pose proof (total_elem asking _ x asking_nonneg Hx). lia. Qed.

(** What is left to show when a thread changes. *)
Lemma set_thread_inv s i t t' n' st' :
  sync_inv s -> vm_threads s !! i = Some t -> n' = n_vm_threads s + (alive t' - alive t) -> st' = threads_stopped s + (counted t' - counted t) ->
  (t' = Woken -> t = Woken) -> (0 < snap_request s -> counted t <= counted t') -> (0 < snap_request s -> still t -> still t') ->
  sync_inv (mkSync (<[i := t']> (vm_threads s)) n' (snap_request s) st' (clients s)).
Proof.
  intros Hs Hi -> -> Hw Hds Hst. pose proof Hs as [S1 S2 S3 S4 S5 S6 S7]. split; simpl; try done.
  - rewrite (total_insert _ _ _ _ _ Hi). lia.
  - rewrite (total_insert _ _ _ _ _ Hi). lia.
  - intros [E|E]%elem_of_insert_list; apply S5; [|done]. rewrite <-(Hw (eq_sym E)). by eapply list_elem_of_lookup_2.
  - intros n Hn. specialize (S6 n Hn). specialize (Hds (asking_request _ _ Hs Hn eq_refl)). lia.
  - intros HI. specialize (S7 HI). apply list.Forall_insert; [done|]. apply Hst; [by eapply asking_request|].
    rewrite list.Forall_forall in S7. apply S7. by eapply list_elem_of_lookup_2.
Qed.

Lemma thread_step_inv i t s : sync_inv s -> vm_threads s !! i = Some t -> t <> Ended -> sync_inv (thread_step i t s).
Proof.
  intros Hs Hi Hne. pose proof (list_elem_of_lookup_2 _ _ _ Hi) as Hin. destruct t; simpl; try done.
  - apply (set_thread_inv s i Starting); try done; simpl; try lia.
  - unfold pvm_exec_check. destruct (snap_request s =? 0); [done|]. apply (set_thread_inv s i Running); try done; simpl; try lia.
   
  - apply (set_thread_inv s i Requested); try done; simpl; try lia.
  - pose proof (sv_leaving _ Hs (sv_woken _ Hs Hin)) as E. apply (set_thread_inv s i Woken); try done; simpl; lia.
  - unfold vm_syscall_block_end. destruct (snap_request s =? 0) eqn:E.
    + apply (set_thread_inv s i Blocking); try done; simpl; lia.
    + apply (set_thread_inv s i Blocking); try done; simpl; try lia.
Qed.

Lemma set_client_inv s c x x' r' :
  sync_inv s -> clients s !! c = Some x -> r' = snap_request s + (asking x' - asking x) ->
  (Leaving ∈ <[c := x']> (clients s) -> r' = 0) -> (Woken ∈ vm_threads s -> Leaving ∈ <[c := x']> (clients s)) ->
  (forall n, x' = Recount n -> n <= threads_stopped s) -> (x' = Inside -> Forall still (vm_threads s)) ->
  sync_inv (mkSync (vm_threads s) (n_vm_threads s) r' (threads_stopped s) (<[c := x']> (clients s))).
Proof.
  intros Hs Hc -> Hl Hw Hr Hi. pose proof Hs as [S1 S2 S3 S4 S5 S6 S7]. split; simpl; try done.
  - rewrite (total_insert _ _ _ _ _ Hc). lia.
  - intros n [E|E]%elem_of_insert_list; [by apply Hr|by apply S6].
  - intros [E|E]%elem_of_insert_list; [by apply Hi|by apply S7].
Qed.

(** While a client asks, nobody leaves and nobody is awake. *)
Lemma asking_quiet s x : sync_inv s -> x ∈ clients s -> asking x = 1 -> Leaving ∉ clients s /\ Woken ∉ vm_threads s.
Proof.
  intros Hs Hx E. pose proof (asking_request _ _ Hs Hx E) as Hr.
  assert (Leaving ∉ clients s) as Hl by (intros H; pose proof (sv_leaving _ Hs H); lia).
  split; [done|]. intros H. by apply Hl, (sv_woken _ Hs).
Qed.

(** A client that asks and goes on asking. *)
Lemma go_on_asking s c x x' :
  sync_inv s -> clients s !! c = Some x -> asking x = 1 -> asking x' = 1 ->
  (forall n, x' = Recount n -> n <= threads_stopped s) -> (x' = Inside -> Forall still (vm_threads s)) -> sync_inv (set_client c x' s).
Proof.
  intros Hs Hc E E' Hr Hi. pose proof (list_elem_of_lookup_2 _ _ _ Hc) as Hin. destruct (asking_quiet _ _ Hs Hin E) as [Hl Hw].
  apply (set_client_inv s c x); try done; [lia|]. intros [H|H]%elem_of_insert_list; [by rewrite <-H in E'|done].
Qed.

(** All threads that are counted have stopped. *)
Lemma recount_still s n :
  sync_inv s -> Recount n ∈ clients s -> n_vm_threads s <= n -> Starting ∉ vm_threads s -> Forall still (vm_threads s).
Proof.
  intros Hs Hn Hle Hst. destruct (asking_quiet _ _ Hs Hn eq_refl) as [_ Hw]. pose proof (sv_recount _ Hs n Hn) as Hr.
  rewrite (sv_count _ Hs) in Hle. rewrite (sv_stopped _ Hs) in Hr. apply list.Forall_forall. intros t Ht.
  assert (counted t = alive t) as E by (apply (total_eq counted alive (vm_threads s)); [apply counted_alive|lia|done]).
  unfold still. destruct t; try done; done.
Qed.

Lemma reenable_inv s c : sync_inv s -> clients s !! c = Some Inside -> sync_inv (phantom_snapper_reenable_threads c s).
Proof.
  intros Hs Hc. pose proof (list_elem_of_lookup_2 _ _ _ Hc) as Hin. destruct (asking_quiet _ _ Hs Hin eq_refl) as [Hl Hw].
  unfold phantom_snapper_reenable_threads. simpl. destruct (0 <? snap_request s + -1) eqn:E.
  - apply (set_client_inv s c Inside); try done. by intros [?|?]%elem_of_insert_list.
  - assert (snap_request s = 1) as Er by (pose proof (asking_request _ _ Hs Hin eq_refl); lia).
    pose proof Hs as [S1 S2 S3 S4 S5 S6 S7].
    assert (total asking (<[c := Leaving]> (clients s)) = 0) as Ht by (rewrite (total_insert _ _ _ _ _ Hc); simpl; lia).
    assert (forall x, x ∈ <[c := Leaving]> (clients s) -> asking x = 0) as Hask.
    { intros x Hx. pose proof (total_elem asking _ x asking_nonneg Hx). pose proof (asking_nonneg x). lia. }
    split; simpl.
    + rewrite total_fmap; [done|]. intros t. by case_decide; subst.
    + rewrite total_fmap; [done|]. intros t. by case_decide; subst.
    + lia.
    + lia.
    + intros _. apply list_elem_of_lookup. exists c. apply list_lookup_insert_eq. by eapply lookup_lt_Some.
    + intros n Hn. by specialize (Hask _ Hn).
    + intros Hn. by specialize (Hask _ Hn).
Qed.

Lemma leave_inv s c : sync_inv s -> clients s !! c = Some Leaving -> sync_inv (wait_for_leave c s).
Proof.
  intros Hs Hc. unfold wait_for_leave. destruct (0 <? threads_stopped s) eqn:E; [done|].
  apply (set_client_inv s c Leaving); try done; simpl; try lia.
  - intros [?|H]%elem_of_insert_list; [done|by apply Hs].
  - intros Hw. pose proof (total_elem counted _ _ counted_nonneg Hw) as Ht. rewrite <-(sv_stopped _ Hs) in Ht. simpl in Ht. lia.
Qed.

Lemma client_step_inv c x s :
  sync_inv s -> clients s !! c = Some x -> Starting ∉ vm_threads s -> (x = Out -> Leaving ∉ clients s) -> sync_inv (client_step c x s).
Proof.
  intros Hs Hc Hst Hout. pose proof (list_elem_of_lookup_2 _ _ _ Hc) as Hin. destruct x as [| |n|n| |]; simpl.
  - specialize (Hout eq_refl). apply (set_client_inv s c Out); try done; simpl; [by intros [?|?]%elem_of_insert_list|].
    intros Hw. by destruct (Hout (sv_woken _ Hs Hw)).
  - by eapply go_on_asking.
  - unfold wait_for_threads. destruct (threads_stopped s <? n) eqn:E; [done|]. eapply go_on_asking; try done. intros m [= <-]. lia.
  - unfold recount_threads. destruct (n <? n_vm_threads s) eqn:E; eapply go_on_asking; try done. intros _. eapply recount_still; [done..|lia|done].
  - by apply reenable_inv.
  - by apply leave_inv.
Qed.

Lemma start_thread_inv s i : sync_inv s -> vm_threads s !! i = Some Running -> sync_inv (start_new_vm_thread s).
Proof.
  intros [S1 S2 S3 S4 S5 S6 S7] Hi. split; simpl; rewrite ?total_app; simpl; try done; try lia.
  - intros [H|H%list_elem_of_singleton]%elem_of_app; [by apply S5|done].
  - intros HI. specialize (S7 HI). rewrite list.Forall_forall in S7.
    destruct (S7 Running). by eapply list_elem_of_lookup_2.
Qed.

Lemma sync_step_inv o s : sync_inv s -> sync_enabled o s = true -> sync_inv (sync_step o s).
Proof.
  intros Hs He. destruct o as [i|i|i|i|c]; simpl; unfold running.
  - destruct (vm_threads s !! i) eqn:E; [|done]. apply thread_step_inv; try done. intros ->. unfold sync_enabled in He.
    rewrite E in He. by case_decide.
  - destruct (vm_threads s !! i) as [[]|] eqn:E; try done. by eapply start_thread_inv.
  - destruct (vm_threads s !! i) as [[]|] eqn:E; try done. apply (set_thread_inv s i Running); try done; simpl; lia.
  - destruct (vm_threads s !! i) as [[]|] eqn:E; try done. apply (set_thread_inv s i Running); try done; simpl; lia.
  - destruct (clients s !! c) as [x|] eqn:E; [|done]. unfold sync_enabled in He. case_decide; [done|].
    apply bool_decide_eq_true_1 in He. apply client_step_inv; try done. intros ->. rewrite E in He. by destruct He.
Qed.

Lemma sync_run_inv ops s : sync_inv s -> sync_inv (sync_run ops s).
Proof.
  revert s. induction ops as [|o ops IH]; intros s Hs; simpl; [done|]. apply IH.
  destruct (sync_enabled o s) eqn:E; [by apply sync_step_inv|done].
Qed.

Lemma sync_init_inv n k : sync_inv (sync_init n k).
Proof.
  split; simpl; rewrite ?total_replicate; simpl; try lia.
  - by intros [? _]%elem_of_replicate.
  - by intros m [? _]%elem_of_replicate.
  - by intros [? _]%elem_of_replicate.
Qed.


(** ** The wait ends *)

(** All threads that execute instructions come to the test and stop. *)
Definition all_stop (n : nat) : list sync_op := seq 0 n ≫= (fun i => [Thread i; Thread i]).

Lemma sync_run_app ops1 ops2 s : sync_run (ops1 ++ ops2) s = sync_run ops2 (sync_run ops1 s).
Proof. revert s. induction ops1 as [|o ops1 IH]; intros s; simpl; [done|]. apply IH. Qed.

(** A client asks and no thread is being created. *)
Record sync_asked (s : snap_sync) : Prop := {
  sa_inv : sync_inv s;
  sa_request : 0 < snap_request s;
  sa_starting : Starting ∉ vm_threads s;
}.

Lemma enabled_thread s i : Starting ∉ vm_threads s -> sync_enabled (Thread i) s = bool_decide (vm_threads s !! i <> Some Ended).
Proof. intros H. unfold sync_enabled. by rewrite decide_False. Qed.
Lemma enabled_client s c x :
  Starting ∉ vm_threads s -> clients s !! c = Some x -> x <> Out \/ Leaving ∉ clients s -> sync_enabled (Client c) s = true.
Proof. intros H Hc Hx. unfold sync_enabled. rewrite decide_False by done. apply bool_decide_eq_true_2. rewrite Hc. destruct Hx; [left|right]; congruence. Qed.

Lemma set_thread_same s i t : vm_threads s !! i = Some t -> mkSync (<[i := t]> (vm_threads s)) (n_vm_threads s) (snap_request s) (threads_stopped s) (clients s) = s.
Proof. intros H. rewrite list_insert_id by done. by destruct s. Qed.

(** The step of a thread that is not being created or gone. *)
Lemma run_thread s i t : Starting ∉ vm_threads s -> vm_threads s !! i = Some t -> t <> Ended -> sync_run [Thread i] s = thread_step i t s.
Proof. intros H Hi Hne. simpl. rewrite enabled_thread by done. rewrite Hi. by rewrite bool_decide_eq_true_2 by congruence. Qed.

Lemma stop_one s i t :
  sync_asked s -> vm_threads s !! i = Some t -> exists t', still t' /\ exists st,
    sync_run [Thread i; Thread i] s = mkSync (<[i := t']> (vm_threads s)) (n_vm_threads s) (snap_request s) st (clients s).
Proof.
  intros [Hs Hr Hst] Hi. pose proof (lookup_lt_Some _ _ _ Hi) as Hlt. pose proof (list_elem_of_lookup_2 _ _ _ Hi) as Hin.
  assert (snap_request s =? 0 = false) as Er by lia. change [Thread i; Thread i] with ([Thread i] ++ [Thread i]). rewrite sync_run_app.
  assert (forall t' s', t' <> Starting -> t' <> Ended -> vm_threads s' = <[i := t']> (vm_threads s) -> sync_run [Thread i] s' = thread_step i t' s') as Hgo.
  { intros t' s' H1 H2 E. apply run_thread; [|by rewrite E, list_lookup_insert_eq|done]. rewrite E. intros [?|?]%elem_of_insert_list; congruence. }
  destruct (decide (t = Ended)) as [->|Hne].
  { exists Ended. split; [done|]. exists (threads_stopped s). rewrite (set_thread_same s i Ended Hi).
    assert (sync_enabled (Thread i) s = false) as E by (rewrite enabled_thread, Hi by done; by apply bool_decide_eq_false_2; auto).
    cbn [sync_run]. by rewrite !E. }
  rewrite (run_thread s i t Hst Hi Hne). destruct t; cbn [thread_step]; try done.
  - unfold pvm_exec_check. rewrite Er. rewrite (Hgo Requested) by done. exists Sleeping. split; [done|]. eexists.
    unfold thread_step, phantom_thread_wait_4_snap, add_stopped, set_thread. simpl. by rewrite list_insert_insert_eq.
  - rewrite (Hgo Sleeping) by done. exists Sleeping. split; [done|]. by eexists.
  - rewrite (run_thread s i Sleeping) by done. exists Sleeping. split; [done|]. exists (threads_stopped s). by rewrite set_thread_same.
  - pose proof (sv_leaving _ Hs (sv_woken _ Hs Hin)). lia.
  - unfold vm_syscall_block_end. rewrite Er. rewrite (Hgo Sleeping) by done. exists Sleeping. split; [done|]. by eexists.
  - rewrite (run_thread s i Dead) by done. exists Dead. split; [done|]. exists (threads_stopped s). by rewrite set_thread_same.
Qed.

Lemma stop_all l s :
  sync_asked s -> (forall i, i ∈ l -> (i < length (vm_threads s))%nat) ->
  let s' := sync_run (l ≫= (fun i => [Thread i; Thread i])) s in
  sync_asked s' /\ n_vm_threads s' = n_vm_threads s /\ clients s' = clients s /\ length (vm_threads s') = length (vm_threads s) /\
  forall i t, vm_threads s' !! i = Some t -> i ∈ l \/ (exists t0, vm_threads s !! i = Some t0 /\ still t0) -> still t.
Proof.
  revert s. induction l as [|i l IH]; intros s Ha Hl s'.
  { change s' with s. clear s'. split_and!; try done. intros i t Hi [?%not_elem_of_nil|(t0 & Ht & Hst)]; [done|]. by simplify_eq. }
  destruct (lookup_lt_is_Some_2 (vm_threads s) i) as [t Hi]; [apply Hl; by left|].
  unfold s'. clear s'. change ((i :: l) ≫= ?f) with (f i ++ (l ≫= f)). rewrite sync_run_app.
  destruct (stop_one s i t Ha Hi) as (t' & Hst' & st & E). pose proof (sync_run_inv [Thread i; Thread i] s (sa_inv _ Ha)) as Hs1.
  rewrite E in *. set (s1 := mkSync _ _ _ _ _) in *.
  assert (sync_asked s1) as Ha1.
  { split; [done|apply Ha|]. intros [H|H]%elem_of_insert_list; [by subst t'|by apply (sa_starting _ Ha)]. }
  destruct (IH s1 Ha1) as (H1 & H2 & H3 & H4 & H5).
  { intros j Hj. simpl. rewrite length_insert. apply Hl. by right. }
  simpl in H4. rewrite length_insert in H4. split_and!; try done. intros j u Hj Hor. apply (H5 j u Hj). simpl.
  pose proof (lookup_lt_Some _ _ _ Hi) as Hlt.
  destruct (decide (j = i)) as [->|Hij]; [right; exists t'; by rewrite list_lookup_insert_eq|].
  rewrite list_lookup_insert_ne by done. destruct Hor as [[?|?]%elem_of_cons|Hor]; [done|by left|by right].
Qed.

Lemma still_counted l : Forall still l -> total counted l = total alive l.
Proof. induction 1 as [|t l H _ IH]; simpl; [done|]. rewrite IH. by destruct t. Qed.


(** ** Examples *)

(** Two threads, one of them in a system call; the snapshot thread asks. *)
Definition ex_stop : list sync_op := [Block 1; Client 0; Client 0; Thread 0; Thread 1; Thread 0; Client 0; Client 0].



(** Steps without the conditions of [sync_enabled]. *)
Definition sync_steps (ops : list sync_op) (s : snap_sync) : snap_sync := fold_left (fun s o => sync_step o s) ops s.
Definition one_stops : list sync_op := [Client 0; Client 0; Thread 0; Thread 0; Client 0; Client 0].

(** The collector asks while a thread that was woken up is still counted as stopped: it
    gets the threads, and the thread goes on. *)
Lemma second_client_too_early :
  let s := sync_steps (one_stops ++ [Client 0; Client 1; Client 1; Client 1; Client 1; Thread 0]) (sync_init 1 2) in
  clients s = [Leaving; Inside] /\ vm_threads s = [Running].
Proof. by vm_compute. Qed.

(** A thread that has been created but does not count itself yet starts when all others
    are stopped. *)
Lemma uncounted_thread :
  let s := sync_steps (Create_thread 0 :: one_stops ++ [Thread 1]) (sync_init 1 1) in
  clients s = [Inside] /\ vm_threads s = [Sleeping; Running].
Proof. by vm_compute. Qed.

(** A thread ends after the threads were counted: nothing happens any more. *)
Lemma ended_thread_missed :
  let s := sync_steps [Client 0; Client 0; End_thread 0; Thread 0; Thread 1; Thread 1] (sync_init 2 1) in
  clients s = [Waiting 2] /\ vm_threads s = [Dead; Sleeping] /\
  Forall (fun o => sync_step o s = s)
    (Client 0 :: (seq 0 2 ≫= (fun i => [Thread i; Create_thread i; Block i; End_thread i]))).
Proof. vm_compute. split_and!; try done. by repeat constructor. Qed.

(** A thread that has ended is counted out twice: the client does not wait for the other
    one. *)
Lemma counted_out_twice :
  let s := sync_steps [End_thread 0; Thread 0; Client 0; Client 0; Client 0; Client 0] (sync_init 2 1) in
  clients s = [Inside] /\ vm_threads s = [Dead; Running] /\ n_vm_threads s = 0.
Proof. by vm_compute. Qed.
