(* ===== verification/Timers.v ===== *)
(** * Timed calls ([oldtree/kernel/phantom/timedcall.c])

    Functions that the timer interrupt calls some milliseconds later.  The queue
    [tcEventQ] keeps for each entry the difference of its time to that of the
    entry before it.  It is a list here (see [Queue]); an entry that is queued
    twice, which breaks the links, is a fault.  [called] is the log of the calls;
    the functions called do not use the queue.  Times are unbounded integers.

    The specification has a clock and the time of each entry: [timers_refine]
    shows that the queue of differences implements it, [timed_calls_happen] that
    a call happens, when it is due and as often as it should. *)

From Stdlib Require Import Sorted.
From S2P Require Import Prelude.

(** ** The code *)

(** [timedcall_t], at address [tc_at]. *)
Record timedcall := mkTc {
  tc_at : Z; tc_f : Z; tc_arg : Z; msecLater : Z; tc_lockp : Z; msecMore : Z; tc_flags : Z }.

Definition set_more (n : Z) (e : timedcall) : timedcall :=
  mkTc (tc_at e) (tc_f e) (tc_arg e) (msecLater e) (tc_lockp e) n (tc_flags e).

Definition TIMEDCALL_FLAG_PERIODIC : Z := 1.
Definition TIMEDCALL_FLAG_CHECKLOCK : Z := 4.
Definition has_flag (f : Z) (e : timedcall) : bool := negb (Z.land f (tc_flags e) =? 0).

Record timers := mkTimers { inited : bool; tcEventQ : list timedcall; called : list timedcall }.
Definition set_q (q : list timedcall) (s : timers) : timers := mkTimers (inited s) q (called s).

(** An entry without its place in the queue. *)
Definition call_of (e : timedcall) : timedcall := set_more 0 e.

(** [if(ep->f) ep->f(ep->arg)] *)
Definition call_f (ep : timedcall) : M timers unit :=
  modify (fun s => mkTimers (inited s) (tcEventQ s)
    (called s ++ if tc_f ep =? 0 then [] else [call_of ep])).

Definition phantom_timed_call_init : M timers unit := modify (fun s => mkTimers true [] (called s)).

(** The loop that looks for a place; [msecSum] is the time of the entry before. *)
Fixpoint place_loop (newEntry : timedcall) (msecSum : Z) (q : list timedcall) : list timedcall :=
  match q with
  | [] => [set_more (msecLater newEntry - msecSum) newEntry]
  | ep :: rest =>
      if (msecSum <=? msecLater newEntry) && (msecLater newEntry <? msecSum + msecMore ep) then
        let more := msecLater newEntry - msecSum in
        set_more more newEntry :: set_more (msecMore ep - more) ep :: rest
      else ep :: place_loop newEntry (msecSum + msecMore ep) rest
  end.

Definition is_on_q (entry : Z) (q : list timedcall) : bool :=
  existsb (fun next => tc_at next =? entry) q.

Definition do_request_timed_call (newEntry : timedcall) (flags : Z) : M timers unit :=
  let later := if msecLater newEntry <? 0 then 0 else msecLater newEntry in
  let newEntry := mkTc (tc_at newEntry) (tc_f newEntry) (tc_arg newEntry) later (tc_lockp newEntry) 0 flags in
  q ← gets tcEventQ;
  if is_on_q (tc_at newEntry) q then fault "timed call is on the queue already" else
  match q with
  | [] => modify (set_q [set_more later newEntry])
  | first :: rest =>
      if later <? msecMore first then
        modify (set_q (set_more later newEntry :: set_more (msecMore first - later) first :: rest))
      else modify (set_q (place_loop newEntry 0 q))
  end.

Definition phantom_request_timed_call := do_request_timed_call.
Definition local_request_timed_call := do_request_timed_call.

(** From [again:] on; [locked] tells which spin locks are locked. *)
Fixpoint process_loop (fuel : nat) (locked : Z -> bool) : M timers unit :=
  match fuel with
  | O => diverge
  | S fuel' =>
      q ← gets tcEventQ;
      match q with
      | [] => mret tt
      | ep :: rest =>
          if has_flag TIMEDCALL_FLAG_CHECKLOCK ep && locked (tc_lockp ep) then
            if msecMore ep <? -500 then panic "timedcall engine stall due to spinlock" else mret tt
          else if msecMore ep <=? 0 then
            modify (set_q match rest with
              | next_ep :: rest' =>
                  if msecMore ep <? 0 then set_more (msecMore next_ep + msecMore ep) next_ep :: rest' else rest
              | [] => []
              end);;
            call_f ep;;
            (if has_flag TIMEDCALL_FLAG_PERIODIC ep then
               assert_ (0 <? msecLater ep) "ep->msecLater > 0";;
               local_request_timed_call ep (tc_flags ep)
             else mret tt);;
            process_loop fuel' locked
          else mret tt
      end
  end.

(** Called once in a millisecond.  An entry that is put back is not due, so
    that each entry is called at most once. *)
Definition phantom_process_timed_calls (locked : Z -> bool) : M timers unit :=
  i ← gets inited;
  if negb i then mret tt else
  q ← gets tcEventQ;
  match q with
  | [] => mret tt
  | ep :: rest =>
      modify (set_q (set_more (msecMore ep - 1) ep :: rest));;
      process_loop (S (length q)) locked
  end.

(** Remove an entry; the next one gets its time. *)
Fixpoint undo_loop (entry : Z) (q : list timedcall) : list timedcall :=
  match q with
  | [] => []
  | ep :: rest =>
      if tc_at ep =? entry then
        match rest with
        | tnext :: rest' => set_more (msecMore tnext + msecMore ep) tnext :: rest'
        | [] => []
        end
      else ep :: undo_loop entry rest
  end.
Definition phantom_undo_timed_call (entry : Z) : M timers unit :=
  i ← gets inited;
  if negb i then mret tt else
  q ← gets tcEventQ;
  if is_on_q entry q then modify (set_q (undo_loop entry q)) else mret tt.

Inductive timer_op :=
  | TRequest (e : timedcall) (flags : Z)
  | TUndo (entry : Z)
  | TTick (locked : Z -> bool).

Definition timed_op (op : timer_op) : M timers unit :=
  match op with
  | TRequest e flags => phantom_request_timed_call e flags
  | TUndo entry => phantom_undo_timed_call entry
  | TTick locked => phantom_process_timed_calls locked
  end.
Definition timed_ops : list timer_op -> M timers unit := for_each timed_op.

(** ** The specification *)

(** The clock, the entries with their times, in order, and the calls made. *)
Record schedule := mkSched { now : Z; due : list (Z * timedcall); fired : list timedcall }.

(** Insert after the entries that are due at the same time or earlier. *)
Fixpoint put_due (d : Z) (e : timedcall) (l : list (Z * timedcall)) : list (Z * timedcall) :=
  match l with
  | [] => [(d, e)]
  | (d', e') :: l' => if d <? d' then (d, e) :: l else (d', e') :: put_due d e l'
  end.

Definition requested (e : timedcall) (flags : Z) : timedcall :=
  mkTc (tc_at e) (tc_f e) (tc_arg e) (Z.max 0 (msecLater e)) (tc_lockp e) 0 flags.

Definition request (e : timedcall) (flags : Z) (a : schedule) : schedule :=
  mkSched (now a) (put_due (now a + Z.max 0 (msecLater e)) (requested e flags) (due a)) (fired a).

Definition others (entry : Z) (l : list (Z * timedcall)) : list (Z * timedcall) :=
  filter (fun x => tc_at x.2 <> entry) l.
Definition undo (entry : Z) (a : schedule) : schedule :=
  mkSched (now a) (others entry (due a)) (fired a).

Definition waits (locked : Z -> bool) (e : timedcall) : bool :=
  has_flag TIMEDCALL_FLAG_CHECKLOCK e && locked (tc_lockp e).

(** The entries to call at [t]: those due, up to one that waits for its lock. *)
Fixpoint ready (locked : Z -> bool) (t : Z) (l : list (Z * timedcall)) : list (Z * timedcall) :=
  match l with
  | (d, e) :: l' => if (d <=? t) && negb (waits locked e) then (d, e) :: ready locked t l' else []
  | [] => []
  end.
Definition stalled (locked : Z -> bool) (t : Z) (l : list (Z * timedcall)) : bool :=
  match l with (d, e) :: _ => waits locked e && (d <? t - 500) | [] => false end.

(** Periodic entries are put back. *)
Definition rearm (t : Z) (l : list (Z * timedcall)) (x : Z * timedcall) : list (Z * timedcall) :=
  if has_flag TIMEDCALL_FLAG_PERIODIC x.2 then put_due (t + msecLater x.2) x.2 l else l.

Definition calls (l : list (Z * timedcall)) : list timedcall :=
  filter (fun e => tc_f e <> 0) l.*2.

(** One millisecond; [None] is an entry that has waited for too long. *)
Definition tick (locked : Z -> bool) (a : schedule) : option schedule :=
  let t := now a + 1 in
  let now_due := ready locked t (due a) in
  let later := drop (length now_due) (due a) in
  if stalled locked t later then None
  else Some (mkSched t (foldl (rearm t) later now_due) (fired a ++ calls now_due)).

Definition sched_op (op : timer_op) (a : schedule) : option schedule :=
  match op with
  | TRequest e flags => Some (request e flags a)
  | TUndo entry => Some (undo entry a)
  | TTick locked => tick locked a
  end.
Fixpoint sched_ops (ops : list timer_op) (a : schedule) : option schedule :=
  match ops with
  | [] => Some a
  | op :: ops' => sched_op op a ≫= sched_ops ops'
  end.

(** What a caller has to keep to: an entry is not requested while it is queued,
    and a period is positive. *)
Definition op_fits (op : timer_op) (a : schedule) : bool :=
  match op with
  | TRequest e flags =>
      negb (is_on_q (tc_at e) (due a).*2)
      && (negb (has_flag TIMEDCALL_FLAG_PERIODIC (requested e flags)) || (0 <? msecLater e))
  | _ => true
  end.
Fixpoint ops_fit (ops : list timer_op) (a : schedule) : bool :=
  match ops with
  | [] => true
  | op :: ops' =>
      op_fits op a && match sched_op op a with Some a' => ops_fit ops' a' | None => true end
  end.

(** The queue of differences that stands for a schedule. *)
Fixpoint deltas (t : Z) (l : list (Z * timedcall)) : list timedcall :=
  match l with
  | [] => []
  | (d, e) :: l' => set_more (d - t) e :: deltas d l'
  end.

Definition entry_ok (e : timedcall) : Prop :=
  msecMore e = 0 /\ 0 <= msecLater e
  /\ (has_flag TIMEDCALL_FLAG_PERIODIC e = true -> 0 < msecLater e).

Definition due_ok (l : list (Z * timedcall)) : Prop :=
  Forall entry_ok l.*2 /\ NoDup (tc_at <$> l.*2) /\ StronglySorted (fun x y => x.1 <= y.1) l.

Definition queue_of (a : schedule) : timers := mkTimers true (deltas (now a) (due a)) (fired a).

(** The number of milliseconds that a sequence of operations takes. *)
Fixpoint ticks (ops : list timer_op) : Z :=
  match ops with
  | [] => 0
  | TTick _ :: ops' => 1 + ticks ops'
  | _ :: ops' => ticks ops'
  end.

(** How often an entry is to be called within [n] milliseconds of its request. *)
Definition calls_by (e : timedcall) (n : Z) : Z :=
  if has_flag TIMEDCALL_FLAG_PERIODIC e then n / msecLater e
  else if Z.max 1 (msecLater e) <=? n then 1 else 0.

(** How often the entry at an address has been called. *)
Definition ncalls (x : Z) (log : list timedcall) : Z :=
  Z.of_nat (length (filter (fun e => tc_at e = x) log)).

(** Operations that leave an entry alone, while no lock holds a call back. *)
Definition leaves_alone (x : Z) (op : timer_op) : Prop :=
  match op with
  | TRequest e _ => tc_at e <> x
  | TUndo entry => entry <> x
  | TTick locked => forall lockp, locked lockp = false
  end.

(** ** The queue of differences *)

Lemma is_on_q_false x q : is_on_q x q = false <-> x ∉ tc_at <$> q.
Proof.
  rewrite <-not_true_iff_false. unfold is_on_q. rewrite existsb_exists. split; intros H Hin; apply H.
  - apply list_elem_of_fmap in Hin as (e & -> & He). exists e.
    split; [by apply list_elem_of_In | apply Z.eqb_refl].
  - destruct Hin as (e & He & <-%Z.eqb_eq). apply list_elem_of_fmap_2, list_elem_of_In, He.
Qed.

Lemma deltas_at t l : tc_at <$> deltas t l = tc_at <$> l.*2.
Proof. revert t. induction l as [|[d e] l IH]; intros t; simpl; [done|]. by rewrite IH. Qed.

Lemma deltas_length t l : length (deltas t l) = length l.
Proof. revert t. induction l as [|[d e] l IH]; intros t; simpl; [done|]. by rewrite IH. Qed.

Lemma set_more_more n m e : set_more n (set_more m e) = set_more n e.
Proof. done. Qed.

Lemma set_more_0 e : entry_ok e -> set_more 0 e = e.
Proof. intros [H _]. destruct e; simpl in *. by subst. Qed.

(** Taking the head off gives its time to the next entry. *)
Lemma deltas_skip t d l :
  match deltas d l with
  | next :: rest => set_more (msecMore next + (d - t)) next :: rest
  | [] => []
  end = deltas t l.
Proof. destruct l as [|[d' e'] l]; simpl; [done|]. f_equal. rewrite set_more_more. f_equal. lia. Qed.

Lemma place_loop_put t sum d e l :
  sum <= msecLater e -> d = t + msecLater e ->
  place_loop e sum (deltas (t + sum) l) = deltas (t + sum) (put_due d e l).
Proof.
  intros Hs ->. revert sum Hs. induction l as [|[d' e'] l IH]; intros sum Hs; simpl.
  - do 2 f_equal. lia.
  - rewrite (proj2 (Z.leb_le _ _)) by done. simpl.
    destruct (Z.ltb_spec (msecLater e) (sum + (d' - (t + sum)))), (Z.ltb_spec (t + msecLater e) d'); try lia; simpl.
    + rewrite set_more_more. f_equal; [f_equal; lia|]. f_equal. f_equal. lia.
    + f_equal. replace (sum + (d' - (t + sum))) with (d' - t) by lia.
      specialize (IH (d' - t)). replace (t + (d' - t)) with d' in IH by lia. apply IH. lia.
Qed.

Lemma others_fresh x l : x ∉ tc_at <$> l.*2 -> others x l = l.
Proof.
  unfold others. induction l as [|[d e] l IH]; intros Hx; [done|]. rewrite !fmap_cons in Hx.
  rewrite filter_cons_True by (simpl in *; set_solver). f_equal. apply IH. set_solver.
Qed.

Lemma undo_loop_others x t l :
  NoDup (tc_at <$> l.*2) -> x ∈ tc_at <$> l.*2 -> undo_loop x (deltas t l) = deltas t (others x l).
Proof.
  revert t. induction l as [|[d e] l IH]; intros t Hnd Hin; [by apply not_elem_of_nil in Hin|].
  rewrite !fmap_cons in Hnd, Hin. apply list.NoDup_cons in Hnd as [Hx Hnd]. unfold others. simpl in *.
  destruct (Z.eqb_spec (tc_at e) x) as [<-|Hne].
  - rewrite filter_cons_False by (simpl; naive_solver). rewrite deltas_skip. f_equal.
    symmetry. by apply others_fresh.
  - rewrite filter_cons_True by done. simpl. f_equal. apply IH; [done|]. set_solver.
Qed.

(** ** What the operations keep *)

Lemma put_due_perm d e l : put_due d e l ≡ₚ (d, e) :: l.
Proof.
  induction l as [|[d' e'] l IH]; simpl; [done|]. case_match; [done|]. rewrite IH. constructor.
Qed.

Lemma put_due_sorted d e l :
  StronglySorted (fun x y => x.1 <= y.1) l -> StronglySorted (fun x y => x.1 <= y.1) (put_due d e l).
Proof.
  induction 1 as [|[d' e'] l Hl IH Hd]; simpl; [by repeat constructor|].
  destruct (Z.ltb_spec d d').
  - constructor; [by constructor|]. constructor; [simpl; lia|].
    eapply list.Forall_impl; [exact Hd|]. simpl. lia.
  - constructor; [done|]. rewrite put_due_perm. constructor; [simpl; lia|done].
Qed.

Lemma sorted_filter (P : Z * timedcall -> Prop) `{!forall x, Decision (P x)} l :
  StronglySorted (fun x y => x.1 <= y.1) l -> StronglySorted (fun x y => x.1 <= y.1) (filter P l).
Proof.
  induction 1 as [|x l Hl IH Hd]; [constructor|]. rewrite filter_cons. case_decide; [|done].
  constructor; [done|]. apply list.Forall_forall. intros y Hy. apply list_elem_of_filter in Hy as [_ Hy].
  by eapply list.Forall_forall in Hd.
Qed.

Lemma due_ok_put d e l :
  due_ok l -> entry_ok e -> tc_at e ∉ tc_at <$> l.*2 -> due_ok (put_due d e l).
Proof.
  intros (Hok & Hnd & Hs) He Hx. repeat split.
  - rewrite put_due_perm. by constructor.
  - rewrite put_due_perm. by constructor.
  - by apply put_due_sorted.
Qed.

Lemma due_ok_others x l : due_ok l -> due_ok (others x l).
Proof.
  intros (Hok & Hnd & Hs). repeat split; [| |by apply sorted_filter].
  - apply list.Forall_forall. intros e (y & -> & Hy)%list_elem_of_fmap.
    apply list_elem_of_filter in Hy as [_ Hy]. eapply list.Forall_forall; [exact Hok|].
    by apply list_elem_of_fmap_2.
  - revert Hnd. rewrite <-!list_fmap_compose. intros Hnd. eapply sublist_NoDup; [exact Hnd|].
    apply fmap_sublist, sublist_filter.
Qed.

(** ** Each operation implements that of the schedule *)

Lemma do_request_run e flags t l log :
  tc_at e ∉ tc_at <$> l.*2 ->
  do_request_timed_call e flags (mkTimers true (deltas t l) log)
  = Ret tt (mkTimers true (deltas t (put_due (t + Z.max 0 (msecLater e)) (requested e flags) l)) log).
Proof.
  intros Hx. unfold do_request_timed_call. rewrite bind_gets. simpl.
  rewrite (proj2 (is_on_q_false _ _)) by by rewrite deltas_at.
  replace (if msecLater e <? 0 then 0 else msecLater e) with (Z.max 0 (msecLater e))
    by (destruct (Z.ltb_spec (msecLater e) 0); lia).
  fold (requested e flags).
  destruct l as [|[d' e'] l]; simpl.
  - unfold modify, set_q. simpl. do 4 f_equal. lia.
  - destruct (Z.ltb_spec (Z.max 0 (msecLater e)) (d' - t)), (Z.ltb_spec (t + Z.max 0 (msecLater e)) d'); try lia;
      unfold modify, set_q; simpl; do 2 f_equal.
    + f_equal; [f_equal; lia|]. rewrite set_more_more. f_equal. f_equal. lia.
    + rewrite (proj2 (Z.leb_le 0 _)) by lia. simpl.
      rewrite (proj2 (Z.ltb_ge _ _)) by lia. f_equal.
      pose proof (place_loop_put t (d' - t) (t + Z.max 0 (msecLater e)) (requested e flags) l) as Hp.
      replace (t + (d' - t)) with d' in Hp by lia. apply Hp; simpl; [lia|done].
Qed.

Lemma requested_again e : entry_ok e -> requested e (tc_flags e) = e.
Proof. intros (H & Hl & _). unfold requested. rewrite Z.max_r by done. destruct e; simpl in *. by subst. Qed.

(** Calling one entry that is due. *)
Lemma process_loop_call fuel locked t d e l log :
  due_ok ((d, e) :: l) -> d <= t -> waits locked e = false ->
  process_loop (S fuel) locked (mkTimers true (deltas t ((d, e) :: l)) log)
  = process_loop fuel locked (mkTimers true (deltas t (rearm t l (d, e))) (log ++ calls [(d, e)])).
Proof.
  intros (Hok & Hnd & _) Hd Hw. apply list.Forall_cons in Hok as [He Hok].
  rewrite !fmap_cons in Hnd. apply list.NoDup_cons in Hnd as [Hx Hnd].
  cbn [process_loop]. rewrite bind_gets. simpl.
  unfold waits in Hw. unfold has_flag in *. simpl. rewrite Hw.
  rewrite (proj2 (Z.leb_le _ _)) by lia.
  erewrite bind_Ret by reflexivity. unfold set_q. simpl.
  assert ((match deltas d l with
    | next :: rest => if d - t <? 0 then set_more (msecMore next + (d - t)) next :: rest else deltas d l
    | [] => [] end) = deltas t l) as ->.
  { rewrite <-(deltas_skip t d l). destruct (deltas d l) as [|n r] eqn:E; [done|].
    destruct (Z.ltb_spec (d - t) 0); [done|]. replace (d - t) with 0 by lia.
    rewrite Z.add_0_r. by destruct n. }
  erewrite bind_Ret by reflexivity. simpl.
  replace (log ++ (if tc_f e =? 0 then [] else [call_of (set_more (d - t) e)])) with (log ++ calls [(d, e)]).
  2: { f_equal. unfold calls. simpl. unfold call_of. rewrite set_more_more, set_more_0 by done.
       destruct (Z.eqb_spec (tc_f e) 0); [by rewrite filter_cons_False by naive_solver|].
       by rewrite filter_cons_True. }
  unfold rearm, has_flag. simpl. destruct (negb (Z.land TIMEDCALL_FLAG_PERIODIC _ =? 0)) eqn:Ep; [|by erewrite bind_Ret by reflexivity].
  destruct He as (Hm & Hl & Hp). specialize (Hp Ep).
  erewrite bind_Ret; [done|]. rewrite bind_assert by (by apply Z.ltb_lt).
  unfold local_request_timed_call. rewrite do_request_run by done. simpl.
  rewrite Z.max_r by done. do 4 f_equal. apply (requested_again e). done.
Qed.

(** An entry that is not due changes nothing of the tick. *)
Section PutLater.
Context (locked : Z -> bool) (t d : Z) (e : timedcall) (Hd : t < d).

Lemma ready_put l : ready locked t (put_due d e l) = ready locked t l.
Proof.
  induction l as [|[d' e'] l IH]; simpl.
  - by rewrite (proj2 (Z.leb_gt _ _)).
  - destruct (Z.ltb_spec d d'); simpl; [|by rewrite IH].
    by rewrite (proj2 (Z.leb_gt d t)), (proj2 (Z.leb_gt d' t)) by lia.
Qed.

Lemma drop_put l :
  drop (length (ready locked t l)) (put_due d e l) = put_due d e (drop (length (ready locked t l)) l).
Proof.
  induction l as [|[d' e'] l IH]; [done|]. cbn [ready].
  destruct (Z.leb_spec d' t); simpl; [|done].
  destruct (waits locked e'); simpl; [done|]. by rewrite (proj2 (Z.ltb_ge d d')) by lia.
Qed.

Lemma stalled_put l : stalled locked t (put_due d e l) = stalled locked t l.
Proof.
  destruct l as [|[d' e'] l]; simpl.
  - rewrite (proj2 (Z.ltb_ge d _)) by lia. apply andb_false_r.
  - destruct (Z.ltb_spec d d'); [|done]. simpl.
    rewrite (proj2 (Z.ltb_ge d _)), (proj2 (Z.ltb_ge d' _)) by lia. by rewrite !andb_false_r.
Qed.
End PutLater.

Lemma rearm_put t l x (P : list (Z * timedcall) -> Prop) :
  entry_ok x.2 -> P l -> (forall d, t < d -> P (put_due d x.2 l)) -> P (rearm t l x).
Proof.
  intros (_ & _ & Hp) H0 H1. unfold rearm. destruct (has_flag _ _); [|done]. apply H1.
  specialize (Hp eq_refl). lia.
Qed.

Lemma ready_length locked t l : (length (ready locked t l) <= length l)%nat.
Proof. induction l as [|[d e] l IH]; simpl; [lia|]. case_match; simpl; lia. Qed.

Lemma due_ok_rearm t d e l : due_ok ((d, e) :: l) -> due_ok (rearm t l (d, e)).
Proof.
  intros (Hok & Hnd & Hs). apply list.Forall_cons in Hok as [He Hok].
  rewrite !fmap_cons in Hnd. apply list.NoDup_cons in Hnd as [Hx Hnd]. inversion Hs; subst.
  apply rearm_put; [done|done|]. intros. by apply due_ok_put.
Qed.

Definition stall_msg : string := "timedcall engine stall due to spinlock".

(** The loop stops at an entry that waits or is not due. *)
Lemma process_loop_stop fuel locked t d e l log :
  waits locked e = true \/ t < d ->
  process_loop (S fuel) locked (mkTimers true (deltas t ((d, e) :: l)) log)
  = if stalled locked t ((d, e) :: l) then Panic stall_msg
    else Ret tt (mkTimers true (deltas t ((d, e) :: l)) log).
Proof.
  intros H. cbn [process_loop]. rewrite bind_gets. cbn [tcEventQ deltas stalled].
  change (has_flag _ (set_more (d - t) e) && locked (tc_lockp (set_more (d - t) e))) with (waits locked e).
  cbn [msecMore set_more]. destruct (waits locked e); simpl.
  - destruct (Z.ltb_spec (d - t) (-500)), (Z.ltb_spec d (t - 500)); done || lia.
  - by rewrite (proj2 (Z.leb_gt _ _)) by (destruct H; [done|lia]).
Qed.

Lemma process_loop_run fuel locked t l log :
  due_ok l -> (length (ready locked t l) < fuel)%nat ->
  let r := ready locked t l in
  let rest := drop (length r) l in
  process_loop fuel locked (mkTimers true (deltas t l) log)
  = if stalled locked t rest then Panic stall_msg
    else Ret tt (mkTimers true (deltas t (foldl (rearm t) rest r)) (log ++ calls r)).
Proof.
  revert l log. induction fuel as [|fuel IH]; intros l log Hok Hf; [lia|].
  destruct l as [|[d e] l]; [simpl; unfold calls; by rewrite app_nil_r|]. cbn zeta.
  destruct (waits locked e) eqn:Hw; [|destruct (Z.leb_spec d t) as [Hd|Hd]].
  - rewrite process_loop_stop by auto. cbn [ready]. rewrite Hw, andb_false_r. unfold calls. by rewrite app_nil_r.
  - cbn [ready] in *. rewrite (proj2 (Z.leb_le _ _)), Hw in * by done. simpl in Hf.
    rewrite process_loop_call by done. pose proof (due_ok_rearm t _ _ _ Hok) as Hok'.
    assert (entry_ok e) as He by (destruct Hok as [Hok _]; by apply list.Forall_cons in Hok as [? _]).
    assert (ready locked t (rearm t l (d, e)) = ready locked t l) as Er.
    { apply (rearm_put t l (d, e) (fun l' => ready locked t l' = ready locked t l)); [done..|].
      intros. by apply ready_put. }
    rewrite IH by (rewrite ?Er; done || lia). rewrite Er. simpl.
    assert (drop (length (ready locked t l)) (rearm t l (d, e))
            = rearm t (drop (length (ready locked t l)) l) (d, e)) as ->.
    { unfold rearm. simpl. destruct He as (_ & _ & Hp). destruct (has_flag _ _); [|done].
      apply drop_put. specialize (Hp eq_refl). lia. }
    assert (forall l', stalled locked t (rearm t l' (d, e)) = stalled locked t l') as ->.
    { intros l'. apply (rearm_put t l' (d, e) (fun l2 => stalled locked t l2 = stalled locked t l')); [done..|].
      intros. by apply stalled_put. }
    case_match; [done|]. do 2 f_equal. rewrite <-app_assoc. f_equal. unfold calls. simpl.
    rewrite <-list.filter_app. done.
  - rewrite process_loop_stop by auto. cbn [ready]. rewrite (proj2 (Z.leb_gt d t)) by done.
    unfold calls. by rewrite app_nil_r.
Qed.

Lemma due_ok_foldl t r l :
  due_ok l -> Forall entry_ok r.*2 -> NoDup (tc_at <$> (r ++ l).*2) -> due_ok (foldl (rearm t) l r).
Proof.
  revert l. induction r as [|x r IH]; intros l Hok Hr Hnd; [done|]. simpl.
  rewrite fmap_cons in Hr. apply list.Forall_cons in Hr as [Hx Hr].
  simpl in Hnd. apply list.NoDup_cons in Hnd as [Hin Hnd].
  rewrite !fmap_app in Hin, Hnd.
  apply (rearm_put t l x (fun l' => due_ok (foldl (rearm t) l' r))); [done|apply IH; [done..|by rewrite !fmap_app]|].
  intros d Hd. apply IH; [apply due_ok_put; set_solver|done|].
  rewrite !fmap_app, put_due_perm. simpl. rewrite <-Permutation_middle.
  apply list.NoDup_cons. done.
Qed.

Lemma ready_drop locked t l :
  ready locked t l ++ drop (length (ready locked t l)) l = l.
Proof.
  induction l as [|[d e] l IH]; simpl; [done|]. case_match; [|done]. simpl. by rewrite IH.
Qed.

Lemma due_ok_app l1 l2 : due_ok (l1 ++ l2) -> Forall entry_ok l1.*2 /\ due_ok l2.
Proof.
  induction l1 as [|x l1 IH]; [by split|]. intros (Hok & Hnd & Hs).
  simpl in *. apply list.Forall_cons in Hok as [Hx Hok]. apply list.NoDup_cons in Hnd as [Hin Hnd].
  inversion Hs; subst. destruct IH; [by repeat split|]. split; [by constructor|done].
Qed.

Lemma tick_ok locked a a' : due_ok (due a) -> tick locked a = Some a' -> due_ok (due a').
Proof.
  unfold tick. intros Hok H. case_match; [done|]. simplify_eq. simpl.
  rewrite <-(ready_drop locked (now a + 1) (due a)) in Hok.
  pose proof (due_ok_app _ _ Hok) as [Hr Hl]. apply due_ok_foldl; [done..|]. apply Hok.
Qed.

Lemma process_tick locked a :
  due_ok (due a) ->
  phantom_process_timed_calls locked (queue_of a)
  = match tick locked a with Some a' => Ret tt (queue_of a') | None => Panic stall_msg end.
Proof.
  intros Hok. unfold phantom_process_timed_calls, tick, queue_of. rewrite bind_gets. simpl. rewrite bind_gets. simpl.
  destruct (due a) as [|[d e] l]; [simpl; by rewrite app_nil_r|].
  cbn [deltas]. erewrite bind_Ret by reflexivity.
  etrans; [|etrans; [apply (process_loop_run (S (length (deltas (now a) ((d, e) :: l)))) locked (now a + 1) _ (fired a) Hok)|by case_match]].
  - unfold set_q. cbn [inited called tcEventQ deltas msecMore set_more length]. do 3 f_equal.
    rewrite set_more_more. f_equal. lia.
  - rewrite deltas_length. pose proof (ready_length locked (now a + 1) ((d, e) :: l)). lia.
Qed.

Lemma undo_run x a :
  due_ok (due a) -> phantom_undo_timed_call x (queue_of a) = Ret tt (queue_of (undo x a)).
Proof.
  intros (_ & Hnd & _). unfold phantom_undo_timed_call, queue_of, undo. rewrite bind_gets. simpl. rewrite bind_gets. simpl.
  destruct (is_on_q x _) eqn:E.
  - unfold modify, set_q. simpl. do 2 f_equal. apply undo_loop_others; [done|].
    rewrite <-(deltas_at (now a)). apply dec_stable. intros Hn%is_on_q_false. congruence.
  - rewrite others_fresh; [done|]. rewrite <-(deltas_at (now a)). by apply is_on_q_false.
Qed.

Lemma request_entry_ok e flags a :
  op_fits (TRequest e flags) a = true -> tc_at e ∉ tc_at <$> (due a).*2 /\ entry_ok (requested e flags).
Proof.
  simpl. intros [H1%negb_true_iff%is_on_q_false H2]%andb_prop. split; [done|].
  repeat split; simpl; [lia|]. intros Hp. rewrite Hp in H2. simpl in H2. apply Z.ltb_lt in H2. lia.
Qed.

Lemma timed_op_run op a :
  due_ok (due a) -> op_fits op a = true ->
  timed_op op (queue_of a)
  = match sched_op op a with Some a' => Ret tt (queue_of a') | None => Panic stall_msg end.
Proof.
  intros Hok Hf. destruct op as [e flags|x|locked]; simpl.
  - apply request_entry_ok in Hf as [Hx _]. by apply do_request_run.
  - by apply undo_run.
  - by apply process_tick.
Qed.

Lemma sched_op_ok op a a' :
  due_ok (due a) -> op_fits op a = true -> sched_op op a = Some a' -> due_ok (due a').
Proof.
  intros Hok Hf H. destruct op as [e flags|x|locked]; simpl in H.
  - apply request_entry_ok in Hf as [Hx He]. simplify_eq. by apply due_ok_put.
  - simplify_eq. by apply due_ok_others.
  - by eapply tick_ok.
Qed.

Lemma timed_ops_run ops a :
  due_ok (due a) -> ops_fit ops a = true ->
  timed_ops ops (queue_of a)
  = match sched_ops ops a with Some a' => Ret tt (queue_of a') | None => Panic stall_msg end.
Proof.
  revert a. induction ops as [|op ops IH]; intros a Hok Hf; [done|]. simpl in Hf.
  apply andb_prop in Hf as [Hf Hfs]. unfold timed_ops. simpl. unfold mbind at 1, M_bind.
  rewrite timed_op_run by done. destruct (sched_op op a) as [a'|] eqn:E; [|done].
  apply IH; [by eapply sched_op_ok|done].
Qed.

(** ** When a call is made *)

(** The time of the next call of an entry requested at [t0], [n] ms later. *)
Definition next_due (e : timedcall) (t0 n : Z) : option Z :=
  if has_flag TIMEDCALL_FLAG_PERIODIC e then Some (t0 + msecLater e * (n / msecLater e + 1))
  else if n <? Z.max 1 (msecLater e) then Some (t0 + msecLater e) else None.

Lemma next_due_step e t0 n d :
  entry_ok e -> 0 <= n -> next_due e t0 n = Some d ->
  if d <=? t0 + n + 1 then
    calls_by e (n + 1) = calls_by e n + 1
    /\ next_due e t0 (n + 1)
       = if has_flag TIMEDCALL_FLAG_PERIODIC e then Some (t0 + n + 1 + msecLater e) else None
  else calls_by e (n + 1) = calls_by e n /\ next_due e t0 (n + 1) = Some d.
Proof.
  intros (_ & Hl & Hp) Hn. unfold next_due, calls_by. destruct (has_flag _ _).
  - intros [= <-]. specialize (Hp eq_refl). set (L := msecLater e) in *.
    pose proof (Z.div_mod n L ltac:(lia)). pose proof (Z.mod_pos_bound n L Hp).
    destruct (Z.leb_spec (t0 + L * (n / L + 1)) (t0 + n + 1)).
    + assert ((n + 1) / L = n / L + 1) as -> by (symmetry; apply (Z.div_unique_pos _ _ _ 0); nia).
      split; [lia|]. f_equal. nia.
    + assert ((n + 1) / L = n / L) as -> by (symmetry; apply (Z.div_unique_pos _ _ _ (n mod L + 1)); nia). done.
  - destruct (Z.ltb_spec n (Z.max 1 (msecLater e))); [|done]. intros [= <-].
    destruct (Z.leb_spec (t0 + msecLater e) (t0 + n + 1)).
    + rewrite (proj2 (Z.leb_le _ _)), (proj2 (Z.leb_gt _ n)), (proj2 (Z.ltb_ge _ _)) by lia. done.
    + rewrite !(proj2 (Z.leb_gt _ _)), (proj2 (Z.ltb_lt _ _)) by lia. done.
Qed.

Lemma next_due_done e t0 n :
  next_due e t0 n = None -> calls_by e (n + 1) = calls_by e n /\ next_due e t0 (n + 1) = None.
Proof.
  unfold next_due, calls_by. destruct (has_flag _ _); [done|].
  destruct (Z.ltb_spec n (Z.max 1 (msecLater e))); [done|]. intros _.
  rewrite !(proj2 (Z.leb_le _ _)), (proj2 (Z.ltb_ge _ _)) by lia. done.
Qed.

Lemma ready_elem locked t l x :
  (forall p, locked p = false) -> StronglySorted (fun x y => x.1 <= y.1) l ->
  x ∈ ready locked t l <-> x ∈ l /\ x.1 <= t.
Proof.
  intros Hl Hs. induction Hs as [|[d e] l Hs IH Hd]; simpl; [set_solver|].
  assert (waits locked e = false) as -> by (unfold waits; by rewrite Hl, andb_false_r).
  destruct (Z.leb_spec d t); simpl.
  - rewrite !elem_of_cons, IH. split; [intros [->|[]]; auto|]. intros [[->|] ?]; auto.
  - rewrite elem_of_cons. split; [by intros ?%not_elem_of_nil|]. intros [[->|Hx] Ht]; simpl in *; [lia|].
    eapply list.Forall_forall in Hd; [|exact Hx]. simpl in Hd. lia.
Qed.

Lemma foldl_rearm_elem t r l y :
  y ∈ foldl (rearm t) l r
  <-> y ∈ l \/ exists x, x ∈ r /\ has_flag TIMEDCALL_FLAG_PERIODIC x.2 = true /\ y = (t + msecLater x.2, x.2).
Proof.
  revert l. induction r as [|x r IH]; intros l; simpl.
  - split; [auto|]. intros [|(x & Hx%not_elem_of_nil & _)]; done.
  - rewrite IH. setoid_rewrite elem_of_cons. unfold rearm.
    destruct (has_flag _ x.2) eqn:E; [rewrite put_due_perm, elem_of_cons|]; naive_solver congruence.
Qed.

Lemma ncalls_app x l1 l2 : ncalls x (l1 ++ l2) = ncalls x l1 + ncalls x l2.
Proof. unfold ncalls. rewrite list.filter_app, length_app. lia. Qed.

Lemma ncalls_none x r : x ∉ tc_at <$> r.*2 -> ncalls x (calls r) = 0.
Proof.
  unfold ncalls, calls. induction r as [|[d e] r IH]; intros Hx; [done|]. rewrite !fmap_cons in *. simpl in *.
  apply not_elem_of_cons in Hx as [Hne Hx]. rewrite filter_cons. case_decide; [|by apply IH].
  rewrite filter_cons_False by auto. by apply IH.
Qed.

Lemma ncalls_one d e r :
  NoDup (tc_at <$> r.*2) -> (d, e) ∈ r -> tc_f e <> 0 -> ncalls (tc_at e) (calls r) = 1.
Proof.
  induction r as [|[d' e'] r IH]; intros Hnd Hin Hf; [by apply not_elem_of_nil in Hin|].
  rewrite !fmap_cons in Hnd. apply list.NoDup_cons in Hnd as [Hx Hnd].
  replace (calls ((d', e') :: r)) with (calls [(d', e')] ++ calls r) by (unfold calls; by rewrite <-list.filter_app).
  rewrite ncalls_app. apply elem_of_cons in Hin as [[= <- <-]|Hin].
  - rewrite (ncalls_none _ r) by done. unfold ncalls, calls. simpl.
    rewrite filter_cons_True by done. by rewrite filter_cons_True.
  - rewrite IH by done. rewrite ncalls_none; [done|]. simpl in *. intros Heq%list_elem_of_singleton.
    apply Hx. rewrite <-Heq. apply list_elem_of_fmap_2. change e with (d, e).2. by apply list_elem_of_fmap_2.
Qed.

Section Tracks.
Context (e : timedcall) (t0 c0 : Z) (He : entry_ok e) (Hf : tc_f e <> 0).

(** The entry was requested at [t0] and is where it should be by now. *)
Definition tracks (a : schedule) : Prop :=
  let n := now a - t0 in
  0 <= n /\ ncalls (tc_at e) (fired a) = c0 + calls_by e n
  /\ match next_due e t0 n with
     | Some d => (d, e) ∈ due a
     | None => tc_at e ∉ tc_at <$> (due a).*2
     end.

Lemma elem_at d (l : list (Z * timedcall)) : (d, e) ∈ l -> tc_at e ∈ tc_at <$> l.*2.
Proof. intros H. apply list_elem_of_fmap_2. change e with (d, e).2. by apply list_elem_of_fmap_2. Qed.

Lemma at_elem x (l : list (Z * timedcall)) : x ∈ tc_at <$> l.*2 <-> exists y, y ∈ l /\ tc_at y.2 = x.
Proof.
  rewrite list_elem_of_fmap. setoid_rewrite list_elem_of_fmap. split; [naive_solver|].
  intros (y & Hy & <-). exists y.2. eauto.
Qed.

Lemma at_inj (l : list (Z * timedcall)) x y :
  NoDup (tc_at <$> l.*2) -> x ∈ l -> y ∈ l -> tc_at x.2 = tc_at y.2 -> x = y.
Proof.
  rewrite <-list_fmap_compose. intros Hnd [i Hi]%list_elem_of_lookup_1 [j Hj]%list_elem_of_lookup_1 Heq.
  assert (i = j) as ->; [|congruence].
  eapply NoDup_lookup; [exact Hnd|rewrite list_lookup_fmap, Hi; done|].
  rewrite list_lookup_fmap, Hj. simpl. by rewrite Heq.
Qed.

Lemma tracks_tick locked a :
  (forall p, locked p = false) -> due_ok (due a) -> tracks a ->
  exists a', tick locked a = Some a' /\ tracks a'.
Proof.
  intros Hl Hok (Hn & Hc & Hd). destruct Hok as (Hes & Hnd & Hs). unfold tick.
  set (t := now a + 1). set (r := ready locked t (due a)). set (rest := drop (length r) (due a)).
  assert (forall l, stalled locked t l = false) as ->.
  { intros [|[d x] l]; [done|]. simpl. unfold waits. by rewrite Hl, andb_false_r. }
  eexists. split; [done|]. unfold tracks. simpl. replace (t - t0) with (now a - t0 + 1) by lia.
  rewrite ncalls_app, Hc. set (n := now a - t0) in *. split; [lia|].
  assert (forall x, x ∈ r <-> x ∈ due a /\ x.1 <= t) as Hr by (intros; by apply ready_elem).
  assert (r ++ rest = due a) as Happ by apply ready_drop.
  assert (forall x, x ∈ due a <-> x ∈ r \/ x ∈ rest) as Hall by (intros; by rewrite <-Happ, elem_of_app).
  assert (NoDup (tc_at <$> r.*2)) as Hndr.
  { rewrite <-Happ, !fmap_app in Hnd. by apply list.NoDup_app in Hnd as [? _]. }
  destruct (next_due e t0 n) as [d|] eqn:En.
  - pose proof (next_due_step e t0 n d He Hn En) as Hstep. replace (t0 + n + 1) with t in Hstep by lia.
    destruct (Z.leb_spec d t) as [Hdt|Hdt]; destruct Hstep as [-> ->].
    + assert ((d, e) ∈ r) as Hin by (apply Hr; split; [done|simpl; lia]).
      split; [rewrite (ncalls_one d) by done; lia|]. destruct (has_flag _ e) eqn:Ep.
      * apply foldl_rearm_elem. right. by exists (d, e).
      * intros (y & Hy & Hye)%at_elem. apply foldl_rearm_elem in Hy as [Hy|(x & Hx & Hpx & ->)].
        -- assert (y = (d, e)) as -> by (eapply at_inj; [exact Hnd|apply Hall; auto|done|done]).
           rewrite <-Happ, !fmap_app in Hnd. apply list.NoDup_app in Hnd as (_ & Hdis & _).
           by eapply Hdis; eapply elem_at.
        -- assert (x = (d, e)) as -> by (eapply at_inj; [exact Hndr|done|done|done]). simpl in *. congruence.
    + assert ((d, e) ∉ r) as Hnin by (intros [_ Hle]%Hr; simpl in Hle; lia).
      split; [rewrite ncalls_none; [lia|]|].
      * intros (y & Hy & Hye)%at_elem. apply Hnin.
        by assert (y = (d, e)) as <- by (eapply at_inj; [exact Hnd|apply Hall; auto|done|done]).
      * apply foldl_rearm_elem. left. by destruct (proj1 (Hall _) Hd).
  - destruct (next_due_done e t0 n En) as [-> ->]. split.
    + rewrite ncalls_none; [lia|]. intros (y & Hy & Hye)%at_elem. apply Hd, at_elem. exists y.
      split; [apply Hall; auto|done].
    + intros (y & Hy & Hye)%at_elem. apply Hd, at_elem.
      apply foldl_rearm_elem in Hy as [Hy|(x & Hx & _ & ->)]; [exists y|exists x]; (split; [apply Hall; auto|done]).
Qed.

Lemma tracks_op op a :
  leaves_alone (tc_at e) op -> due_ok (due a) -> tracks a ->
  exists a', sched_op op a = Some a' /\ tracks a'
             /\ now a' = now a + match op with TTick _ => 1 | _ => 0 end.
Proof.
  intros Hop Hok Ht. destruct op as [e' flags|x|locked]; simpl in *.
  - eexists. split; [done|]. split; [|simpl; lia]. destruct Ht as (Hn & Hc & Hd).
    split; [done|]. split; [done|]. simpl in *. case_match; rewrite put_due_perm; set_solver.
  - eexists. split; [done|]. split; [|simpl; lia]. destruct Ht as (Hn & Hc & Hd).
    split; [done|]. split; [done|]. simpl in *. unfold others. case_match.
    + apply list_elem_of_filter. by split.
    + intros (y & [_ Hy]%list_elem_of_filter & Hye)%at_elem. apply Hd, at_elem. eauto.
  - destruct (tracks_tick locked a Hop Hok Ht) as (a' & E & Ht'). exists a'. split; [done|]. split; [done|].
    unfold tick in E. case_match; [done|]. by simplify_eq.
Qed.

Lemma tracks_ops ops a :
  Forall (leaves_alone (tc_at e)) ops -> due_ok (due a) -> ops_fit ops a = true -> tracks a ->
  exists a', sched_ops ops a = Some a' /\ tracks a' /\ now a' = now a + ticks ops.
Proof.
  revert a. induction ops as [|op ops IH]; intros a Hops Hok Hfit Ht; [exists a; simpl; split; [done|split; [done|lia]]|].
  apply list.Forall_cons in Hops as [Hop Hops]. simpl in Hfit. apply andb_prop in Hfit as [Hf1 Hf2].
  destruct (tracks_op op a Hop Hok Ht) as (a1 & E1 & Ht1 & Hn1). rewrite E1 in Hf2.
  destruct (IH a1 Hops (sched_op_ok _ _ _ Hok Hf1 E1) Hf2 Ht1) as (a' & E & Ht' & Hn').
  exists a'. simpl. rewrite E1. split; [done|]. split; [done|]. rewrite Hn', Hn1. destruct op; lia.
Qed.
End Tracks.

Lemma tracks_request e flags a :
  op_fits (TRequest e flags) a = true ->
  tracks (requested e flags) (now a) (ncalls (tc_at e) (fired a)) (request e flags a).
Proof.
  intros Hf. pose proof (request_entry_ok _ _ _ Hf) as [Hx (_ & Hl & Hp)].
  unfold tracks. simpl now. simpl fired. rewrite Z.sub_diag. unfold next_due, calls_by. simpl msecLater in *.
  split; [done|]. split.
  - simpl. destruct (has_flag _ _); [rewrite Zdiv_0_l; lia|]. rewrite (proj2 (Z.leb_gt _ _)) by lia. lia.
  - simpl. destruct (has_flag _ _); [rewrite Zdiv_0_l|rewrite (proj2 (Z.ltb_lt _ _)) by lia];
      rewrite put_due_perm, ?Z.add_0_l, ?Z.mul_1_r; left.
Qed.

(** ** Claims *)

(** C9: The queue of differences implements the schedule.  Any sequence of
    requests, cancellations and timer ticks that keeps to the rules leaves the
    queue that stands for the resulting schedule, with the same calls made in the
    same order; periodic entries are put back, a call whose lock is taken holds
    back those behind it, and a tick panics exactly when the first entry has
    waited for its lock for more than 500 ms. *)
Theorem timers_refine (ops : list timer_op) (a : schedule) :
  due_ok (due a) -> ops_fit ops a = true ->
  timed_ops ops (queue_of a)
  = match sched_ops ops a with
    | Some a' => Ret tt (queue_of a')
    | None => Panic "timedcall engine stall due to spinlock"
    end.
Proof. apply timed_ops_run. Qed.

Definition ex_call (at_ later : Z) : timedcall := mkTc at_ (at_ + 1) 0 later 77 0 0.
Definition ex_sched : schedule := mkSched 0 [] [].
(** A periodic call, one that waits for a lock, one that is cancelled. *)
Definition ex_ops : list timer_op :=
  [TRequest (ex_call 100 2) TIMEDCALL_FLAG_PERIODIC; TRequest (ex_call 200 3) TIMEDCALL_FLAG_CHECKLOCK;
   TRequest (ex_call 300 (-5)) 0; TRequest (ex_call 400 1) 0; TTick (fun _ => false); TUndo 400;
   TTick (fun _ => true); TTick (fun _ => true); TTick (fun _ => true); TTick (fun _ => false)].

Lemma ex_sched_ok : due_ok (due ex_sched).
Proof. repeat split; constructor. Qed.

Lemma timers_refine_witness :
  exists s, timed_ops ex_ops (queue_of ex_sched) = Ret tt s
    /\ (tc_at <$> called s) = [300; 400; 100; 200; 100]
    /\ (tc_at <$> tcEventQ s, msecMore <$> tcEventQ s) = ([100], [2]).
Proof.
  eexists. split; [|split].
  - rewrite (timers_refine ex_ops ex_sched ex_sched_ok) by (vm_compute; reflexivity). vm_compute. reflexivity.
  - vm_compute. reflexivity.
  - vm_compute. reflexivity.
Defined.


Definition ex_other_ops : list timer_op :=
  [TRequest (ex_call 300 1) 0; TTick (fun _ => false); TTick (fun _ => false); TUndo 300;
   TTick (fun _ => false); TTick (fun _ => false); TTick (fun _ => false)].

