(* ===== verification/Threads.v ===== *)
(** * Threads, scheduler and synchronization ([phantom/threads/])

    The kernel threads of one CPU: run queues and scheduler ([t_schedule.c],
    [t_queues.c], [t_switch.c]), creation ([t_create.c]), priorities
    ([t_getset.c]), sleep ([t_sleep.c]), mutexes, conditions and semaphores
    ([mutex.c], [cond.c], [sem.c]), with their timeouts from [Timers].

    - A thread is named by its [tid]; [phantom_kernel_threads] is a map.  A field
      that points to a mutex, condition or semaphore has its address, 0 for none.
    - Queues are lists (see [Queue]).
    - Operations run with interrupts off, up to the switch to another thread.
      What is left of the operation then is in [kont] and runs when the thread
      is on again ([resume]); [KRun] is a thread in its own code.  What the
      operation returned is in [result].
    - [locks] are the spin locks held.  On one CPU taking a held lock panics
      ([SPIN_DEBUG]).
    - A call of [phantom_scheduler_request_soft_irq] runs the soft interrupt at
      once; one that is only scheduled ([reschedule_request]) may run at any
      later time.
    - The functions of timed calls are run when the queue has been gone
      through; they do not use it.  [malloc] does not fail; stacks, names,
      terminals and the processor state of threads are left out. *)

From S2P Require Import Prelude Timers.

(** ** Data *)

Definition THREAD_PRIO_NORM : Z := 7.
Definition THREAD_PRIO_HIGHEST : Z := 15.
Definition THREAD_PRIO_IDLE : Z := 0.
Definition THREAD_PRIO_MOD_REALTIME : Z := 16.

Definition THREAD_SLEEP_SLEEP : Z := 2.
Definition THREAD_SLEEP_COND : Z := 4.
Definition THREAD_SLEEP_MUTEX : Z := 8.
Definition THREAD_SLEEP_SEM : Z := 16.
Definition THREAD_SLEEP_LOCKED : Z := 32.
Definition THREAD_SLEEP_ZOMBIE : Z := 256.

Definition CREATION_POSSIBLE_FLAGS : Z := 31.
Definition THREAD_FLAG_KERNEL : Z := 16.
Definition THREAD_FLAG_UNDEAD : Z := 512.
Definition THREAD_FLAG_TIMEDOUT : Z := 256.
Definition THREAD_FLAG_NOSCHEDULE : Z := 1024.

Definition NORM_TICKS : Z := 10.
Definition MAX_THREADS : Z := 1024.

Definition SEM_FLAG_TIMEOUT : Z := 2.
Definition SEM_FLAG_ZERO : Z := 8.

Definition ESRCH : Z := 3.
Definition EINVAL : Z := 22.
Definition ETIMEDOUT : Z := 60.

Inductive lockid := SchedLock | MutexLock (m : Z) | CondLock (c : Z) | SemLock (s : Z) | WaitLock (t : Z).
#[global] Instance lockid_eq_dec : EqDecision lockid.
Proof. solve_decision. Defined.

(** What is left of an operation that has blocked. *)
Inductive cont :=
  | KRun
  | KMutex (m rc : Z)                    (* hal_mutex_lock; the caller returns rc *)
  | KCond (c m : Z)                      (* hal_cond_wait *)
  | KCondTimed (c m : Z)                 (* hal_cond_timedwait *)
  | KSem (s : Z)                         (* hal_sem_acquire *)
  | KSemEtc (s val flags msec : Z)       (* hal_sem_acquire_etc *)
  | KSleep.                              (* hal_sleep_msec *)

(** [phantom_thread_t] *)
Record thread := mkThread {
  priority : Z; ticks_left : Z; thread_flags : Z; sleep_flags : Z;
  waitcond : Z; waitmutex : Z; ownmutex : Z; waitsem : Z;
  preemption_disabled : Z; sw_unlock : option lockid; kont : cont; result : Z }.

Record mutex := mkMutex { owner : Z; m_waiting : list Z }.
Record sem := mkSem { value : Z; s_waiting : list Z }.

Record kernel := mkKernel {
  phantom_kernel_threads : gmap Z thread;
  last_tid : Z;
  current : Z;                           (* GET_CURRENT_THREAD() *)
  idlest : Z;                            (* GET_IDLEST_THREAD() *)
  runq_idle : list Z; runq_norm : list Z; runq_rt : list Z;
  mutexes : gmap Z mutex; conds : gmap Z (list Z); sems : gmap Z sem;
  locks : list lockid;
  events : timers;
  reschedule_request : bool;
  cnt_thread_sw : Z }.                   (* STAT_CNT_THREAD_SW *)

Definition set_threads x (s : kernel) := mkKernel x (last_tid s) (current s) (idlest s)
  (runq_idle s) (runq_norm s) (runq_rt s) (mutexes s) (conds s) (sems s) (locks s) (events s)
  (reschedule_request s) (cnt_thread_sw s).
Definition set_last_tid x (s : kernel) := mkKernel (phantom_kernel_threads s) x (current s) (idlest s)
  (runq_idle s) (runq_norm s) (runq_rt s) (mutexes s) (conds s) (sems s) (locks s) (events s)
  (reschedule_request s) (cnt_thread_sw s).
Definition set_current x (s : kernel) := mkKernel (phantom_kernel_threads s) (last_tid s) x (idlest s)
  (runq_idle s) (runq_norm s) (runq_rt s) (mutexes s) (conds s) (sems s) (locks s) (events s)
  (reschedule_request s) (cnt_thread_sw s).
Definition set_idlest x (s : kernel) := mkKernel (phantom_kernel_threads s) (last_tid s) (current s) x
  (runq_idle s) (runq_norm s) (runq_rt s) (mutexes s) (conds s) (sems s) (locks s) (events s)
  (reschedule_request s) (cnt_thread_sw s).
Definition set_mutexes x (s : kernel) := mkKernel (phantom_kernel_threads s) (last_tid s) (current s) (idlest s)
  (runq_idle s) (runq_norm s) (runq_rt s) x (conds s) (sems s) (locks s) (events s)
  (reschedule_request s) (cnt_thread_sw s).
Definition set_conds x (s : kernel) := mkKernel (phantom_kernel_threads s) (last_tid s) (current s) (idlest s)
  (runq_idle s) (runq_norm s) (runq_rt s) (mutexes s) x (sems s) (locks s) (events s)
  (reschedule_request s) (cnt_thread_sw s).
Definition set_sems x (s : kernel) := mkKernel (phantom_kernel_threads s) (last_tid s) (current s) (idlest s)
  (runq_idle s) (runq_norm s) (runq_rt s) (mutexes s) (conds s) x (locks s) (events s)
  (reschedule_request s) (cnt_thread_sw s).
Definition set_locks x (s : kernel) := mkKernel (phantom_kernel_threads s) (last_tid s) (current s) (idlest s)
  (runq_idle s) (runq_norm s) (runq_rt s) (mutexes s) (conds s) (sems s) x (events s)
  (reschedule_request s) (cnt_thread_sw s).
Definition set_events x (s : kernel) := mkKernel (phantom_kernel_threads s) (last_tid s) (current s) (idlest s)
  (runq_idle s) (runq_norm s) (runq_rt s) (mutexes s) (conds s) (sems s) (locks s) x
  (reschedule_request s) (cnt_thread_sw s).
Definition set_resched x (s : kernel) := mkKernel (phantom_kernel_threads s) (last_tid s) (current s) (idlest s)
  (runq_idle s) (runq_norm s) (runq_rt s) (mutexes s) (conds s) (sems s) (locks s) (events s)
  x (cnt_thread_sw s).
Definition inc_sw (s : kernel) := mkKernel (phantom_kernel_threads s) (last_tid s) (current s) (idlest s)
  (runq_idle s) (runq_norm s) (runq_rt s) (mutexes s) (conds s) (sems s) (locks s) (events s)
  (reschedule_request s) (cnt_thread_sw s + 1).

(** The three run queues. *)
Inductive rclass := RIdle | RNorm | RRt.
#[global] Instance rclass_eq_dec : EqDecision rclass.
Proof. solve_decision. Defined.
Definition runq (c : rclass) (s : kernel) : list Z :=
  match c with RIdle => runq_idle s | RNorm => runq_norm s | RRt => runq_rt s end.
Definition set_runq (c : rclass) (q : list Z) (s : kernel) := mkKernel (phantom_kernel_threads s) (last_tid s) (current s) (idlest s)
  (match c with RIdle => q | _ => runq_idle s end) (match c with RNorm => q | _ => runq_norm s end)
  (match c with RRt => q | _ => runq_rt s end) (mutexes s) (conds s) (sems s) (locks s) (events s)
  (reschedule_request s) (cnt_thread_sw s).

Definition set_priority x (t : thread) := mkThread x (ticks_left t) (thread_flags t) (sleep_flags t) (waitcond t) (waitmutex t) (ownmutex t) (waitsem t) (preemption_disabled t) (sw_unlock t) (kont t) (result t).
Definition set_ticks x (t : thread) := mkThread (priority t) x (thread_flags t) (sleep_flags t) (waitcond t) (waitmutex t) (ownmutex t) (waitsem t) (preemption_disabled t) (sw_unlock t) (kont t) (result t).
Definition set_tflags x (t : thread) := mkThread (priority t) (ticks_left t) x (sleep_flags t) (waitcond t) (waitmutex t) (ownmutex t) (waitsem t) (preemption_disabled t) (sw_unlock t) (kont t) (result t).
Definition set_sleep x (t : thread) := mkThread (priority t) (ticks_left t) (thread_flags t) x (waitcond t) (waitmutex t) (ownmutex t) (waitsem t) (preemption_disabled t) (sw_unlock t) (kont t) (result t).
Definition set_waitcond x (t : thread) := mkThread (priority t) (ticks_left t) (thread_flags t) (sleep_flags t) x (waitmutex t) (ownmutex t) (waitsem t) (preemption_disabled t) (sw_unlock t) (kont t) (result t).
Definition set_waitmutex x (t : thread) := mkThread (priority t) (ticks_left t) (thread_flags t) (sleep_flags t) (waitcond t) x (ownmutex t) (waitsem t) (preemption_disabled t) (sw_unlock t) (kont t) (result t).
Definition set_ownmutex x (t : thread) := mkThread (priority t) (ticks_left t) (thread_flags t) (sleep_flags t) (waitcond t) (waitmutex t) x (waitsem t) (preemption_disabled t) (sw_unlock t) (kont t) (result t).
Definition set_waitsem x (t : thread) := mkThread (priority t) (ticks_left t) (thread_flags t) (sleep_flags t) (waitcond t) (waitmutex t) (ownmutex t) x (preemption_disabled t) (sw_unlock t) (kont t) (result t).
Definition set_preempt x (t : thread) := mkThread (priority t) (ticks_left t) (thread_flags t) (sleep_flags t) (waitcond t) (waitmutex t) (ownmutex t) (waitsem t) x (sw_unlock t) (kont t) (result t).
Definition set_sw_unlock x (t : thread) := mkThread (priority t) (ticks_left t) (thread_flags t) (sleep_flags t) (waitcond t) (waitmutex t) (ownmutex t) (waitsem t) (preemption_disabled t) x (kont t) (result t).
Definition set_kont x (t : thread) := mkThread (priority t) (ticks_left t) (thread_flags t) (sleep_flags t) (waitcond t) (waitmutex t) (ownmutex t) (waitsem t) (preemption_disabled t) (sw_unlock t) x (result t).
Definition set_result x (t : thread) := mkThread (priority t) (ticks_left t) (thread_flags t) (sleep_flags t) (waitcond t) (waitmutex t) (ownmutex t) (waitsem t) (preemption_disabled t) (sw_unlock t) (kont t) x.

(** ** Access *)

Definition get_t (t : Z) : M kernel thread :=
  s ← get; some_or_fault (phantom_kernel_threads s !! t) "no such thread".
Definition upd_t (t : Z) (f : thread -> thread) : M kernel unit :=
  th ← get_t t; modify (fun s => set_threads (<[t := f th]> (phantom_kernel_threads s)) s).
Definition cur_t : M kernel thread := t ← gets current; get_t t.
Definition upd_cur (f : thread -> thread) : M kernel unit := t ← gets current; upd_t t f.

Definition hal_spin_lock (l : lockid) : M kernel unit :=
  ls ← gets locks;
  if bool_decide (l ∈ ls) then panic "reenter" else modify (set_locks (l :: ls)).
(** The scheduler sometimes calls it with no lock. *)
Definition hal_spin_unlock (sl : option lockid) : M kernel unit :=
  match sl with
  | None => mret tt
  | Some l =>
      ls ← gets locks;
      assert_ (bool_decide (l ∈ ls)) "sl->lock";;
      modify (set_locks (filter (fun x => x <> l) ls))
  end.

(** Run an operation of the timed calls. *)
Definition timed {A} (m : M timers A) : M kernel A := fun s =>
  match m (events s) with
  | Ret a e => Ret a (set_events e s)
  | Panic msg => Panic msg
  | Fault why => Fault why
  | Diverge => Diverge
  end.

Definition hal_disable_preemption : M kernel unit :=
  upd_cur (fun th => set_preempt (preemption_disabled th + 1) th);;
  th ← cur_t; assert_ (0 <? preemption_disabled th) "preemption_disabled > 0".
Definition hal_enable_preemption : M kernel unit :=
  th ← cur_t; assert_ (0 <? preemption_disabled th) "preemption_disabled > 0";;
  upd_cur (fun th => set_preempt (preemption_disabled th - 1) th).
Definition hal_is_preemption_disabled : M kernel Z := th ← cur_t; mret (preemption_disabled th).

(** An operation returns [rc] to the code of the thread. *)
Definition op_return (rc : Z) : M kernel unit := upd_cur (set_result rc).

(** ** Queues of threads *)

Definition remove (t : Z) (q : list Z) : list Z := filter (fun x => x <> t) q.

Definition is_realtime (p : Z) : bool := negb (Z.land p THREAD_PRIO_MOD_REALTIME =? 0).
Definition runq_class (th : thread) : rclass :=
  if is_realtime (priority th) then RRt
  else if priority th =? THREAD_PRIO_IDLE then RIdle else RNorm.

Definition t_is_on_runq (t : Z) (c : rclass) : M kernel bool :=
  q ← gets (runq c); mret (bool_decide (t ∈ q)).

Definition t_dequeue_runq (t : Z) : M kernel unit :=
  th ← get_t t;
  let c := runq_class th in
  b ← t_is_on_runq t c;
  assert_ b "t_is_on_runq";;
  q ← gets (runq c); modify (set_runq c (remove t q)).

Definition t_enqueue_runq (t : Z) : M kernel unit :=
  b ← t_is_on_runq t RRt; assert_ (negb b) "!t_is_on_runq(t,&runq_rt)";;
  b ← t_is_on_runq t RIdle; assert_ (negb b) "!t_is_on_runq(t,&runq_idle)";;
  b ← t_is_on_runq t RNorm; assert_ (negb b) "!t_is_on_runq(t,&runq_norm)";;
  th ← get_t t;
  let c := runq_class th in
  q ← gets (runq c); modify (set_runq c (q ++ [t])).

(** The loop of [t_dequeue_highest_prio]: the first thread of the highest priority
    above [max]. *)
Fixpoint highest_prio (q : list Z) (max : Z) (nextt : option Z) : M kernel (option Z) :=
  match q with
  | [] => mret nextt
  | it :: q' =>
      c ← gets current;
      assert_ (negb (it =? c)) "it != GET_CURRENT_THREAD()";;
      th ← get_t it;
      if max <? priority th then highest_prio q' (priority th) (Some it)
      else highest_prio q' max nextt
  end.
(** The thread and what is left of the queue. *)
Definition t_dequeue_highest_prio (q : list Z) : M kernel (option Z * list Z) :=
  nextt ← highest_prio q 0 None;
  mret match nextt with Some t => (Some t, remove t q) | None => (None, q) end.

Definition t_queue_check (q : list Z) (test : Z) : M kernel unit :=
  assert_ (bool_decide (test ∉ q)) "next != test".

(** ** The scheduler *)

Definition phantom_scheduler_request_reschedule : M kernel unit := modify (set_resched true).

Definition t_is_runnable (th : thread) : bool := sleep_flags th =? 0.
Definition no_schedule (th : thread) : bool := negb (Z.land (thread_flags th) THREAD_FLAG_NOSCHEDULE =? 0).

(** The best of the realtime threads. *)
Fixpoint best_rt (q : list Z) (maxprio : Z) (best : option Z) : M kernel (option Z) :=
  match q with
  | [] => mret best
  | it :: q' =>
      th ← get_t it;
      assert_ (is_realtime (priority th)) "it->priority & THREAD_PRIO_MOD_REALTIME";;
      if negb (sleep_flags th =? 0) then best_rt q' maxprio best
      else if no_schedule th then best_rt q' maxprio best
      else if maxprio <? priority th then best_rt q' (priority th) (Some it)
      else best_rt q' maxprio best
  end.

(** The best of the normal threads that have time left. *)
Fixpoint best_norm (q : list Z) (maxprio : Z) (best : option Z) : M kernel (option Z) :=
  match q with
  | [] => mret best
  | it :: q' =>
      th ← get_t it;
      if negb (sleep_flags th =? 0) then best_norm q' maxprio best
      else if no_schedule th then best_norm q' maxprio best
      else if (maxprio <? priority th) && (0 <? ticks_left th) then best_norm q' (priority th) (Some it)
      else best_norm q' maxprio best
  end.

Fixpoint have_ticks (q : list Z) (haveTicks : bool) : M kernel bool :=
  match q with
  | [] => mret haveTicks
  | it :: q' =>
      th ← get_t it;
      assert_ (negb (is_realtime (priority th))) "(it->priority & THREAD_PRIO_MOD_REALTIME) == 0";;
      have_ticks q' (haveTicks || (0 <? ticks_left th))
  end.
Definition give_time (th : thread) : thread := set_ticks (NORM_TICKS + priority th) th.
Definition t_assign_time : M kernel bool :=
  q ← gets runq_norm;
  haveTicks ← have_ticks q false;
  if haveTicks : bool then mret false else
  for_each (fun it => upd_t it give_time) q;;
  upd_cur give_time;;
  mret true.

(** [do { } while(t_assign_time())]: new time is given once at most. *)
Fixpoint select_norm (fuel : nat) : M kernel (option Z) :=
  match fuel with
  | O => diverge
  | S fuel' =>
      q ← gets runq_norm;
      best ← best_norm q 0 None;
      match best with
      | Some b => th ← get_t b; assert_ (t_is_runnable th) "t_is_runnable(best)";; mret (Some b)
      | None => again ← t_assign_time; if again : bool then select_norm fuel' else mret None
      end
  end.

(** From [idle_again]: threads that can not run are moved to the end. *)
Fixpoint select_idle (fuel : nat) (last_idle : Z) : M kernel (option Z) :=
  match fuel with
  | O => diverge
  | S fuel' =>
      q ← gets runq_idle;
      match q with
      | [] => fault "empty queue"
      | ret :: rest =>
          th ← get_t ret;
          if (sleep_flags th =? 0) && negb (no_schedule th) then
            upd_t ret (set_ticks NORM_TICKS);;
            mret (Some ret)
          else if negb (ret =? last_idle) then
            modify (set_runq RIdle (rest ++ [ret]));; select_idle fuel' last_idle
          else mret None
      end
  end.

Definition phantom_scheduler_select_thread_to_run : M kernel Z :=
  ls ← gets locks; assert_ (bool_decide (SchedLock ∈ ls)) "schedlock.lock";;
  rt ← gets runq_rt;
  best ← best_rt rt (-1) None;
  match best with
  | Some b => th ← get_t b; assert_ (t_is_runnable th) "t_is_runnable(best)";; mret b
  | None =>
      norm ← gets runq_norm;
      best ← match norm with [] => mret None | _ => select_norm 3 end;
      match best with
      | Some b => mret b
      | None =>
          idle ← gets runq_idle;
          ret ← match list.last idle with
                | None => mret None
                | Some last_idle => select_idle (length idle) last_idle
                end;
          match ret with
          | Some r => mret r
          | None => gets idlest
          end
      end
  end.

(** Switch to the next thread.  The thread that is switched on is in this
    function too, or is new, and unlocks [schedlock]. *)
Definition phantom_thread_switch : M kernel unit :=
  modify inc_sw;;
  th ← cur_t;
  (if bool_decide (sw_unlock th = Some SchedLock) then upd_cur (set_sw_unlock None)
   else hal_spin_lock SchedLock;; upd_cur (set_sw_unlock None));;
  let toUnlock := if bool_decide (sw_unlock th = Some SchedLock) then None else sw_unlock th in
  upd_cur (fun th => set_ticks (ticks_left th - 1) th);;
  next ← phantom_scheduler_select_thread_to_run;
  old ← gets current;
  nth ← get_t next;
  assert_ (sleep_flags nth =? 0) "!next->sleep_flags";;
  (if next =? old then mret tt
   else
     t_dequeue_runq next;;
     oth ← get_t old;
     (if sleep_flags oth =? 0 then t_enqueue_runq old else mret tt);;
     modify (set_current next);;
     hal_spin_unlock toUnlock);;
  hal_spin_unlock (Some SchedLock).

Definition phantom_scheduler_soft_interrupt : M kernel unit :=
  th ← cur_t;
  pd ← hal_is_preemption_disabled;
  ls ← gets locks;
  if (sleep_flags th =? 0) && (negb (pd =? 0) || bool_decide (SchedLock ∈ ls)) then mret tt
  else phantom_thread_switch.
Definition phantom_scheduler_request_soft_irq : M kernel unit := phantom_scheduler_soft_interrupt.

Definition phantom_scheduler_yield : M kernel unit :=
  phantom_scheduler_request_reschedule;; phantom_scheduler_request_soft_irq.
Definition phantom_scheduler_yield_locked (lock : lockid) : M kernel unit :=
  upd_cur (set_sw_unlock (Some lock));;
  phantom_scheduler_request_reschedule;;
  phantom_scheduler_request_soft_irq.

Definition phantom_scheduler_is_reschedule_needed : M kernel bool :=
  r ← gets reschedule_request; th ← cur_t;
  mret (r || (ticks_left th <=? 0) || negb (sleep_flags th =? 0)).

(** 100 times per second. *)
Definition phantom_scheduler_time_interrupt : M kernel unit :=
  th ← cur_t;
  if is_realtime (priority th) then mret tt else
  upd_cur (fun th => set_ticks (ticks_left th - 1) th);;
  if ticks_left th <=? 0 then phantom_scheduler_request_reschedule else mret tt.

(** ** Blocking *)

(** Block the current thread; it goes on with [k]. *)
Definition thread_block (sleep_flag : Z) (lock_to_be_unlocked : lockid) (k : cont) : M kernel unit :=
  assert_ (negb (bool_decide (lock_to_be_unlocked = SchedLock))) "lock_to_be_unlocked != &schedlock";;
  hal_spin_lock SchedLock;;
  ls ← gets locks; assert_ (Nat.eqb (length ls) 2) "global_lock_entry_count[GET_CPU_ID()] == 2";;
  upd_cur (fun th => set_kont k (set_sleep (Z.lor (sleep_flags th) sleep_flag) th));;
  hal_spin_unlock (Some SchedLock);;
  phantom_scheduler_yield_locked lock_to_be_unlocked.

Definition thread_unblock (t : Z) (sleep_flag : Z) : M kernel unit :=
  hal_spin_lock SchedLock;;
  th ← get_t t;
  assert_ (Z.land (sleep_flags th) THREAD_SLEEP_ZOMBIE =? 0) "!(t->sleep_flags & THREAD_SLEEP_ZOMBIE)";;
  assert_ (negb (Z.land (sleep_flags th) sleep_flag =? 0)) "t->sleep_flags & sleep_flag";;
  upd_t t (fun th => set_sleep (Z.ldiff (sleep_flags th) sleep_flag) th);;
  th ← get_t t;
  if sleep_flags th =? 0 then
    t_enqueue_runq t;;
    hal_spin_unlock (Some SchedLock);;
    phantom_scheduler_request_reschedule
  else hal_spin_unlock (Some SchedLock).

(** The functions of the timed calls; the argument is the tid. *)
Definition F_wake_sleeping_thread : Z := 1.
Definition F_wake_cond_thread : Z := 2.
Definition F_wake_sem_thread : Z := 3.

(** The [sleep_event] of a thread: its lock is the [waitlock] of the thread. *)
Definition sleep_event (t f msec : Z) : timedcall := mkTc t f t msec t 0 0.
Definition request_wake (t f msec : Z) : M kernel unit :=
  timed (phantom_request_timed_call (sleep_event t f msec) TIMEDCALL_FLAG_CHECKLOCK).
Definition undo_wake (t : Z) : M kernel unit := timed (phantom_undo_timed_call t).

Definition get_thread (tid : Z) : M kernel Z :=
  assert_ ((0 <=? tid) && (tid <=? MAX_THREADS)) "tid >=0 && tid <= MAX_THREADS";;
  s ← get;
  assert_ (bool_decide (is_Some (phantom_kernel_threads s !! tid))) "phantom_kernel_threads[tid] != 0";;
  mret tid.

Definition wake_sleeping_thread (arg : Z) : M kernel unit :=
  t ← get_thread arg; thread_unblock t THREAD_SLEEP_SLEEP.

Definition hal_sleep_msec (timeMsec : Z) : M kernel unit :=
  t ← gets current;
  hal_disable_preemption;;
  hal_spin_lock (WaitLock t);;
  request_wake t F_wake_sleeping_thread timeMsec;;
  thread_block THREAD_SLEEP_SLEEP (WaitLock t) KSleep.

(** ** Mutexes *)

Definition get_mutex (m : Z) (msg : string) : M kernel mutex :=
  s ← get; match mutexes s !! m with Some mi => mret mi | None => panic msg end.
Definition set_mutex (m : Z) (mi : mutex) : M kernel unit :=
  modify (fun s => set_mutexes (<[m := mi]> (mutexes s)) s).

Definition hal_mutex_init (m : Z) : M kernel unit :=
  s ← get; assert_ (bool_decide (mutexes s !! m = None)) "m->impl == 0";;
  set_mutex m (mkMutex 0 []);; op_return 0.

(** The end of [hal_mutex_lock], and of the caller. *)
Definition mutex_lock_ret (rc : Z) : M kernel unit :=
  upd_cur (set_waitmutex 0);; hal_enable_preemption;; op_return rc.

Definition hal_mutex_lock (m : Z) (rc : Z) : M kernel unit :=
  mi ← get_mutex m "init mutex!";
  hal_disable_preemption;;
  hal_spin_lock (MutexLock m);;
  t ← gets current;
  if owner mi =? 0 then
    set_mutex m (mkMutex t (m_waiting mi));;
    upd_cur (set_ownmutex m);;
    hal_spin_unlock (Some (MutexLock m));;
    mutex_lock_ret rc
  else if owner mi =? t then panic "recursive mutex lock"
  else
    t_queue_check (m_waiting mi) t;;
    set_mutex m (mkMutex (owner mi) (m_waiting mi ++ [t]));;
    upd_cur (set_waitmutex m);;
    thread_block THREAD_SLEEP_MUTEX (MutexLock m) (KMutex m rc).

Definition hal_mutex_unlock (m : Z) : M kernel unit :=
  mi ← get_mutex m "unlock of uninited mutex";
  hal_disable_preemption;;
  hal_spin_lock (MutexLock m);;
  t ← gets current;
  (if negb (owner mi =? t) then panic "mutex - not owner"
   else match m_waiting mi with
   | [] => set_mutex m (mkMutex 0 [])
   | q =>
       r ← t_dequeue_highest_prio q;
       next_owner ← some_or_fault r.1 "next_owner is null";
       set_mutex m (mkMutex next_owner r.2);;
       upd_t next_owner (set_ownmutex m);;
       thread_unblock next_owner THREAD_SLEEP_MUTEX
   end);;
  hal_spin_unlock (Some (MutexLock m));;
  hal_enable_preemption.

Definition hal_mutex_unlock_if_owner : M kernel unit :=
  th ← cur_t;
  let m := ownmutex th in
  if m =? 0 then mret tt else
  mi ← get_mutex m "unlock_if_owner of uninited mutex";
  t ← gets current;
  if negb (owner mi =? t) then mret tt else hal_mutex_unlock m.

Definition hal_mutex_is_locked (m : Z) : M kernel unit :=
  s ← get;
  op_return (match mutexes s !! m with None => 0 | Some mi => if owner mi =? 0 then 0 else 1 end).

Definition hal_mutex_destroy (m : Z) : M kernel unit :=
  s ← get; mi ← some_or_fault (mutexes s !! m) "m->impl is null";
  if negb (owner mi =? 0) then panic "locked mutex killed" else
  modify (fun s => set_mutexes (delete m (mutexes s)) s);; op_return 0.

(** ** Conditions *)

Definition get_cond (c : Z) : M kernel (list Z) :=
  s ← get; match conds s !! c with Some q => mret q | None => panic "init cond!" end.
Definition set_cond (c : Z) (q : list Z) : M kernel unit :=
  modify (fun s => set_conds (<[c := q]> (conds s)) s).

Definition hal_cond_init (c : Z) : M kernel unit :=
  s ← get; assert_ (bool_decide (conds s !! c = None)) "c->impl == 0";;
  set_cond c [];; op_return 0.

(** The common part of both waits. *)
Definition cond_enter (c m t : Z) : M kernel unit :=
  q ← get_cond c;
  hal_disable_preemption;;
  hal_spin_lock (CondLock c);;
  t_queue_check q t;;
  set_cond c (q ++ [t]);;
  hal_mutex_unlock m;;
  hal_spin_lock (WaitLock t);;
  hal_spin_unlock (Some (CondLock c));;
  upd_t t (set_waitcond c).

Definition hal_cond_wait (c m : Z) : M kernel unit :=
  t ← gets current;
  cond_enter c m t;;
  thread_block THREAD_SLEEP_COND (WaitLock t) (KCond c m).

Definition clear_timedout (th : thread) : thread := set_tflags (Z.ldiff (thread_flags th) THREAD_FLAG_TIMEDOUT) th.
Definition set_timedout (th : thread) : thread := set_tflags (Z.lor (thread_flags th) THREAD_FLAG_TIMEDOUT) th.
Definition is_timedout (th : thread) : bool := negb (Z.land (thread_flags th) THREAD_FLAG_TIMEDOUT =? 0).

Definition wake_cond_thread (arg : Z) : M kernel unit :=
  t ← get_thread arg;
  th ← get_t t;
  if waitcond th =? 0 then mret tt else
  s ← get; q ← some_or_fault (conds s !! waitcond th) "t->waitcond->impl is null";
  set_cond (waitcond th) (remove t q);;
  upd_t t set_timedout;;
  thread_unblock t THREAD_SLEEP_COND.

Definition hal_cond_timedwait (c m msecTimeout : Z) : M kernel unit :=
  t ← gets current;
  cond_enter c m t;;
  upd_t t clear_timedout;;
  request_wake t F_wake_cond_thread msecTimeout;;
  thread_block THREAD_SLEEP_COND (WaitLock t) (KCondTimed c m).

Definition hal_cond_signal (c : Z) : M kernel unit :=
  q ← get_cond c;
  hal_disable_preemption;;
  hal_spin_lock (CondLock c);;
  match q with
  | [] => hal_spin_unlock (Some (CondLock c))
  | _ =>
      r ← t_dequeue_highest_prio q;
      set_cond c r.2;;
      hal_spin_unlock (Some (CondLock c));;
      match r.1 with
      | None => panic "next_waiter != 0"
      | Some next_waiter =>
          upd_t next_waiter (set_waitcond 0);;
          undo_wake next_waiter;;
          thread_unblock next_waiter THREAD_SLEEP_COND
      end
  end;;
  hal_enable_preemption;; op_return 0.

Definition hal_cond_broadcast (c : Z) : M kernel unit :=
  q ← get_cond c;
  hal_disable_preemption;;
  hal_spin_lock (CondLock c);;
  t ← gets current;
  match q with
  | [] => mret tt
  | _ =>
      for_each (fun nextt =>
        (if nextt =? t then panic "cond: wake up self?" else mret tt);;
        undo_wake nextt;;
        upd_t nextt (set_waitcond 0);;
        thread_unblock nextt THREAD_SLEEP_COND) q;;
      set_cond c []
  end;;
  hal_spin_unlock (Some (CondLock c));;
  hal_enable_preemption;; op_return 0.

Definition hal_cond_destroy (c : Z) : M kernel unit :=
  modify (fun s => set_conds (delete c (conds s)) s);; op_return 0.

(** ** Semaphores *)

Definition get_sem (s : Z) : M kernel sem :=
  k ← get; match sems k !! s with Some ci => mret ci | None => panic "init sema!" end.
Definition set_sem (s : Z) (ci : sem) : M kernel unit :=
  modify (fun k => set_sems (<[s := ci]> (sems k)) k).

Definition hal_sem_init (s : Z) : M kernel unit :=
  k ← get; assert_ (bool_decide (sems k !! s = None)) "c->impl == 0";;
  set_sem s (mkSem 0 []);; op_return 0.

(** [while( ci->value <= 0 )] of [hal_sem_acquire]: one time around, under the
    lock of the semaphore. *)
Definition sem_loop (s : Z) : M kernel unit :=
  t ← gets current;
  ci ← get_sem s;
  if value ci <=? 0 then
    t_queue_check (s_waiting ci) t;;
    set_sem s (mkSem (value ci) (s_waiting ci ++ [t]));;
    hal_spin_lock (WaitLock t);;
    hal_spin_unlock (Some (SemLock s));;
    upd_t t (set_waitsem s);;
    thread_block THREAD_SLEEP_SEM (WaitLock t) (KSem s)
  else
    set_sem s (mkSem (value ci - 1) (s_waiting ci));;
    hal_spin_unlock (Some (SemLock s));;
    hal_enable_preemption;;
    op_return 0.

Definition hal_sem_acquire (s : Z) : M kernel unit :=
  get_sem s;;
  hal_disable_preemption;;
  hal_spin_lock (SemLock s);;
  sem_loop s.

Definition wake_sem_thread (arg : Z) : M kernel unit :=
  t ← get_thread arg;
  th ← get_t t;
  k ← get; ci ← some_or_fault (sems k !! waitsem th) "t->waitsem->impl is null";
  set_sem (waitsem th) (mkSem (value ci) (remove t (s_waiting ci)));;
  upd_t t set_timedout;;
  thread_unblock t THREAD_SLEEP_SEM.

Definition sem_etc_loop (s val flags msec : Z) : M kernel unit :=
  t ← gets current;
  ci ← get_sem s;
  if value ci <=? 0 then
    t_queue_check (s_waiting ci) t;;
    set_sem s (mkSem (value ci) (s_waiting ci ++ [t]));;
    hal_spin_lock (WaitLock t);;
    hal_spin_unlock (Some (SemLock s));;
    upd_t t (set_waitsem s);;
    (if negb (Z.land flags SEM_FLAG_TIMEOUT =? 0) then
       upd_t t clear_timedout;; request_wake t F_wake_sem_thread msec
     else mret tt);;
    thread_block THREAD_SLEEP_SEM (WaitLock t) (KSemEtc s val flags msec)
  else
    set_sem s (mkSem (value ci - val) (s_waiting ci));;
    hal_spin_unlock (Some (SemLock s));;
    hal_enable_preemption;;
    op_return 0.

Definition hal_sem_acquire_etc (s val flags uSec : Z) : M kernel unit :=
  get_sem s;;
  let msec := Z.quot (uSec - 1) 1000 + 1 in
  let msec := if (msec =? 0) && negb (uSec =? 0) then 1 else msec in
  hal_disable_preemption;;
  hal_spin_lock (SemLock s);;
  ci ← get_sem s;
  (if negb (Z.land flags SEM_FLAG_ZERO =? 0) && (0 <? value ci) then set_sem s (mkSem 0 (s_waiting ci))
   else mret tt);;
  sem_etc_loop s val flags msec.

Definition hal_sem_zero (s : Z) : M kernel unit :=
  ci ← get_sem s;
  hal_disable_preemption;;
  hal_spin_lock (SemLock s);;
  (if 0 <? value ci then set_sem s (mkSem 0 (s_waiting ci)) else mret tt);;
  hal_spin_unlock (Some (SemLock s));;
  hal_enable_preemption;;
  op_return (if value ci <=? 0 then EINVAL else 0).

Definition hal_sem_release (s : Z) : M kernel unit :=
  ci ← get_sem s;
  hal_disable_preemption;;
  hal_spin_lock (SemLock s);;
  match s_waiting ci with
  | [] => set_sem s (mkSem (value ci + 1) []);; hal_spin_unlock (Some (SemLock s))
  | q =>
      r ← t_dequeue_highest_prio q;
      set_sem s (mkSem (value ci + 1) r.2);;
      hal_spin_unlock (Some (SemLock s));;
      match r.1 with
      | None => panic "next_waiter != 0"
      | Some next_waiter =>
          upd_t next_waiter (set_waitsem 0);;
          undo_wake next_waiter;;
          thread_unblock next_waiter THREAD_SLEEP_SEM
      end
  end;;
  hal_enable_preemption.

(** [*count] is the result, or [EINVAL]. *)
Definition sem_get_count (s : Z) : M kernel (Z + Z) :=
  k ← get;
  match sems k !! s with None => mret (inl EINVAL) | Some ci => mret (inr (value ci)) end.

Definition hal_sem_destroy (s : Z) : M kernel unit :=
  modify (fun k => set_sems (delete s (sems k)) k).

(** ** Creation and priority *)

(** [find_tid]: the next free place of the table. *)
Fixpoint find_tid_loop (fuel : nat) (maxtries : Z) : M kernel Z :=
  match fuel with
  | O => diverge
  | S fuel' =>
      s ← get;
      let tid := last_tid s in
      match phantom_kernel_threads s !! tid with
      | None => mret tid
      | Some _ =>
          modify (set_last_tid (if MAX_THREADS <=? tid + 1 then 2 else tid + 1));;
          if maxtries <? 0 then panic "out of threads" else find_tid_loop fuel' (maxtries - 1)
      end
  end.
Definition find_tid (th : thread) : M kernel Z :=
  tid ← find_tid_loop (Z.to_nat (MAX_THREADS + 2)) MAX_THREADS;
  modify (fun s => set_threads (<[tid := th]> (phantom_kernel_threads s)) s);;
  mret tid.

(** The fields that [calloc] and [common_thread_init] set. *)
Definition common_thread_init (th : thread) : thread :=
  mkThread THREAD_PRIO_NORM (ticks_left th) 0 (sleep_flags th) 0 (waitmutex th) (ownmutex th) (waitsem th)
    0 None (kont th) (result th).

Definition phantom_create_thread (flags : Z) : M kernel unit :=
  assert_ (Z.ldiff flags CREATION_POSSIBLE_FLAGS =? 0) "! (flags & ~CREATION_POSSIBLE_FLAGS)";;
  t ← find_tid (mkThread 0 0 0 THREAD_SLEEP_LOCKED 0 0 0 0 0 None KRun 0);
  upd_t t common_thread_init;;
  upd_t t (fun th => set_tflags (Z.lor (thread_flags th) flags) th);;
  upd_t t (fun th => set_sleep (Z.ldiff (sleep_flags th) THREAD_SLEEP_LOCKED) th);;
  t_enqueue_runq t;;
  op_return t.

(** [phantom_import_main_thread]: the thread that runs already. *)
Definition phantom_import_main_thread : M kernel unit :=
  s ← get;
  assert_ (bool_decide (phantom_kernel_threads s !! 1 = None)) "phantom_kernel_threads[t->tid] == 0";;
  let th := common_thread_init (mkThread 0 0 0 THREAD_SLEEP_LOCKED 0 0 0 0 0 None KRun 0) in
  let th := set_tflags (Z.lor (thread_flags th) THREAD_FLAG_UNDEAD) th in
  modify (set_threads (<[1 := set_sleep (Z.ldiff (sleep_flags th) THREAD_SLEEP_LOCKED) th]> (phantom_kernel_threads s)));;
  modify (set_current 1).

Definition phantom_scheduler_init : M kernel unit :=
  modify (set_runq RIdle []);; modify (set_runq RNorm []);; modify (set_runq RRt []);; modify (set_locks []).

(** [phantom_threads_init]; the addresses are those of the condition and the
    mutex of the thread that ends threads. *)
Definition phantom_threads_init (kill_request kill_mutex : Z) : M kernel unit :=
  phantom_scheduler_init;;
  phantom_import_main_thread;;
  phantom_create_thread THREAD_FLAG_KERNEL;;
  th ← cur_t;
  let t := result th in
  modify (set_idlest t);;
  upd_t t (fun th => set_tflags (Z.lor (thread_flags th) THREAD_FLAG_NOSCHEDULE) th);;
  hal_cond_init kill_request;;
  hal_mutex_init kill_mutex;;
  t_dequeue_runq t;;
  upd_t t (set_priority THREAD_PRIO_IDLE);;
  t_enqueue_runq t;;
  phantom_create_thread THREAD_FLAG_KERNEL.

(** Before that: no threads, but the timed calls work. *)
Definition before_init : kernel :=
  mkKernel ∅ 2 0 0 [] [] [] ∅ ∅ ∅ [] (mkTimers true [] []) false 0.

Definition prio_ok (prio : Z) : bool :=
  (0 <=? prio) && (prio <=? Z.lor THREAD_PRIO_HIGHEST THREAD_PRIO_MOD_REALTIME).

(** [get_n_thread] *)
Definition get_n_thread (tid : Z) : M kernel (option thread) :=
  s ← get;
  mret (if (tid <=? 0) || (MAX_THREADS <=? tid) then None else phantom_kernel_threads s !! tid).

Definition t_set_priority (tid prio : Z) : M kernel unit :=
  assert_ (prio_ok prio) "prio >= 0 && prio <= (THREAD_PRIO_HIGHEST|THREAD_PRIO_MOD_REALTIME)";;
  hal_spin_lock SchedLock;;
  o ← get_n_thread tid;
  cur ← gets current;
  ret ← match o with
        | None => mret ESRCH
        | Some _ => if negb (tid =? cur) then mret EINVAL else upd_t tid (set_priority prio);; mret 0
        end;
  hal_spin_unlock (Some SchedLock);;
  op_return ret.

Definition t_current_set_priority (prio : Z) : M kernel unit :=
  assert_ (prio_ok prio) "prio >= 0 && prio <= (THREAD_PRIO_HIGHEST|THREAD_PRIO_MOD_REALTIME)";;
  hal_spin_lock SchedLock;;
  upd_cur (set_priority prio);;
  hal_spin_unlock (Some SchedLock);;
  op_return 0.

(** ** Steps of the system *)

(** The rest of the operation in which the thread was switched off. *)
Definition resume : M kernel unit :=
  th ← cur_t;
  if negb (sleep_flags th =? 0) then panic "woken with t->sleep_flags nonzero" else
  upd_cur (set_kont KRun);;
  match kont th with
  | KRun => mret tt
  | KMutex _ rc => mutex_lock_ret rc
  | KCond _ m => hal_enable_preemption;; hal_mutex_lock m 0
  | KCondTimed _ m =>
      upd_cur clear_timedout;; hal_enable_preemption;;
      hal_mutex_lock m (if is_timedout th then ETIMEDOUT else 0)
  | KSem s => hal_spin_lock (SemLock s);; sem_loop s
  | KSemEtc s val flags msec =>
      upd_cur clear_timedout;;
      if is_timedout th then hal_enable_preemption;; op_return ETIMEDOUT
      else hal_spin_lock (SemLock s);; sem_etc_loop s val flags msec
  | KSleep => hal_enable_preemption
  end.

(** [ep->f(ep->arg)] *)
Definition run_timed (e : timedcall) : M kernel unit :=
  if tc_f e =? F_wake_sleeping_thread then wake_sleeping_thread (tc_arg e)
  else if tc_f e =? F_wake_cond_thread then wake_cond_thread (tc_arg e)
  else if tc_f e =? F_wake_sem_thread then wake_sem_thread (tc_arg e)
  else mret tt.

Definition lock_taken (ls : list lockid) (lockp : Z) : bool := bool_decide (WaitLock lockp ∈ ls).

(** The timer interrupt, for the timed calls of threads. *)
Definition timer_interrupt : M kernel unit :=
  ls ← gets locks;
  before ← gets events;
  timed (phantom_process_timed_calls (lock_taken ls));;
  after ← gets events;
  for_each run_timed (drop (length (called before)) (called after)).

Inductive kop :=
  | OMutexInit (m : Z) | OMutexLock (m : Z) | OMutexUnlock (m : Z) | OMutexDestroy (m : Z)
  | OCondInit (c : Z) | OCondWait (c m : Z) | OCondTimedwait (c m msec : Z)
  | OCondSignal (c : Z) | OCondBroadcast (c : Z) | OCondDestroy (c : Z)
  | OSemInit (s : Z) | OSemAcquire (s : Z) | OSemAcquireEtc (s val flags uSec : Z)
  | OSemRelease (s : Z) | OSemZero (s : Z) | OSemDestroy (s : Z)
  | OSleep (msec : Z) | OYield | OSetPriority (tid prio : Z) | OCreate (flags : Z)
  | OTimer | OTime | OSoftIrq | OResume.

Definition kernel_op (op : kop) : M kernel unit :=
  match op with
  | OMutexInit m => hal_mutex_init m
  | OMutexLock m => hal_mutex_lock m 0
  | OMutexUnlock m => hal_mutex_unlock m;; op_return 0
  | OMutexDestroy m => hal_mutex_destroy m
  | OCondInit c => hal_cond_init c
  | OCondWait c m => hal_cond_wait c m
  | OCondTimedwait c m msec => hal_cond_timedwait c m msec
  | OCondSignal c => hal_cond_signal c
  | OCondBroadcast c => hal_cond_broadcast c
  | OCondDestroy c => hal_cond_destroy c
  | OSemInit s => hal_sem_init s
  | OSemAcquire s => hal_sem_acquire s
  | OSemAcquireEtc s val flags uSec => hal_sem_acquire_etc s val flags uSec
  | OSemRelease s => hal_sem_release s
  | OSemZero s => hal_sem_zero s
  | OSemDestroy s => hal_sem_destroy s
  | OSleep msec => hal_sleep_msec msec
  | OYield => phantom_scheduler_yield
  | OSetPriority tid prio => t_set_priority tid prio
  | OCreate flags => phantom_create_thread flags
  | OTimer => timer_interrupt
  | OTime => phantom_scheduler_time_interrupt
  | OSoftIrq => phantom_scheduler_soft_interrupt
  | OResume => resume
  end.
Definition kernel_ops : list kop -> M kernel unit := for_each kernel_op.
