(* ===== verification/ThreadsInv.v ===== *)
(** * The invariant of the threads

    Every thread that can run and does not run is on its run queue, every thread
    that waits is on the queue of what it waits for and has its timed call queued
    if it waits with a timeout, and nothing else is queued; a thread that has been
    given a mutex owns it.  Every operation keeps this and stops only because of a
    misuse by its caller: no assertion of the scheduler fails, no spin lock is
    taken twice, and a thread that is woken finds itself ready to run. *)

From S2P Require Import Prelude Timers Threads.

(** ** Places *)

(** A queue on which a thread can be. *)
Inductive place := PRun (c : rclass) | PMutex (m : Z) | PCond (c : Z) | PSem (s : Z).
#[global] Instance place_eq_dec : EqDecision place.
Proof. solve_decision. Defined.

Definition qlist (s : kernel) (p : place) : list Z :=
  match p with
  | PRun c => runq c s
  | PMutex m => from_option m_waiting [] (mutexes s !! m)
  | PCond c => from_option id [] (conds s !! c)
  | PSem x => from_option s_waiting [] (sems s !! x)
  end.

(** Where a blocked operation waits, by which flag, and the function of its timer. *)
Definition wait_place (k : cont) : option place :=
  match k with
  | KMutex m _ => Some (PMutex m)
  | KCond c _ | KCondTimed c _ => Some (PCond c)
  | KSem x | KSemEtc x _ _ _ => Some (PSem x)
  | KRun | KSleep => None
  end.
Definition wait_flag (k : cont) : Z :=
  match k with
  | KRun => 0
  | KMutex _ _ => THREAD_SLEEP_MUTEX
  | KCond _ _ | KCondTimed _ _ => THREAD_SLEEP_COND
  | KSem _ | KSemEtc _ _ _ _ => THREAD_SLEEP_SEM
  | KSleep => THREAD_SLEEP_SLEEP
  end.
Definition timed_f (k : cont) : Z :=
  match k with
  | KCondTimed _ _ => F_wake_cond_thread
  | KSemEtc _ _ flags _ => if Z.land flags SEM_FLAG_TIMEOUT =? 0 then 0 else F_wake_sem_thread
  | KSleep => F_wake_sleeping_thread
  | _ => 0
  end.

Definition awake (th : thread) : Prop := sleep_flags th = 0.
#[global] Instance awake_dec th : Decision (awake th) := decide (sleep_flags th = 0).

(** The place of a thread; the current one is at [over] (it may be about to block). *)
Definition place_of (over : option place) (cur t : Z) (th : thread) : option place :=
  if decide (t = cur) then over
  else if decide (awake th) then Some (PRun (runq_class th)) else wait_place (kont th).

(** ** The invariant *)

(** What a thread has to do with the mutexes and semaphores. *)
Definition kont_ok (ms : gmap Z mutex) (ss : gmap Z sem) (t : Z) (th : thread) : Prop :=
  match kont th with
  | KMutex m _ => awake th -> exists mi, ms !! m = Some mi /\ owner mi = t
  | KCond c m | KCondTimed c m => is_Some (ms !! m) /\ (~ awake th -> waitcond th = c)
  | KSem x | KSemEtc x _ _ _ => is_Some (ss !! x) /\ (~ awake th -> waitsem th = x)
  | KRun | KSleep => True
  end.

(** The most time that a thread can be given: [NORM_TICKS] and its priority. *)
Definition MAX_TICKS : Z := 41.

Record thread_ok (ms : gmap Z mutex) (ss : gmap Z sem) (idl t : Z) (th : thread) : Prop := {
  t_tid : 0 < t < MAX_THREADS;
  t_prio : 0 <= priority th < 32;
  t_ticks : ticks_left th <= MAX_TICKS;
  t_flags : ~ awake th -> kont th <> KRun /\ sleep_flags th = wait_flag (kont th);
  t_waits : kont th <> KRun -> kont th <> KSleep -> priority th <> 0;
  t_kont : kont_ok ms ss t th;
  t_preempt : 0 <= preemption_disabled th /\ (kont th <> KRun -> 0 < preemption_disabled th);
  t_idle : t = idl <-> no_schedule th = true;
  t_idlest : t = idl -> priority th = 0 /\ awake th /\ kont th = KRun }.

Definition mutex_ok (ts : gmap Z thread) (mi : mutex) : Prop :=
  (owner mi = 0 -> m_waiting mi = []) /\ (owner mi <> 0 -> is_Some (ts !! owner mi)).

(** The timed call of a thread. *)
Definition event_for (th : thread) (e : timedcall) : Prop :=
  ~ awake th /\ tc_f e = timed_f (kont th) /\ timed_f (kont th) <> 0
  /\ tc_arg e = tc_at e /\ tc_flags e = TIMEDCALL_FLAG_CHECKLOCK.

(** [evs] are the timed calls that are queued or about to be run. *)
Record events_ok (evs : list timedcall) (ts : gmap Z thread) : Prop := {
  e_nodup : NoDup (tc_at <$> evs);
  e_sound : forall e, e ∈ evs -> exists th, ts !! tc_at e = Some th /\ event_for th e;
  e_complete : forall t th, ts !! t = Some th -> ~ awake th -> timed_f (kont th) <> 0 -> t ∈ tc_at <$> evs }.

Record base (over : option place) (pend : list timedcall) (s : kernel) : Prop := {
  b_nodup : forall p, NoDup (qlist s p);
  b_queue : forall p t, t ∈ qlist s p
    <-> exists th, phantom_kernel_threads s !! t = Some th /\ place_of over (current s) t th = Some p;
  b_thread : forall t th, phantom_kernel_threads s !! t = Some th
    -> thread_ok (mutexes s) (sems s) (idlest s) t th;
  b_mutex : forall m mi, mutexes s !! m = Some mi -> mutex_ok (phantom_kernel_threads s) mi;
  b_cond : conds s !! 0 = None;
  b_cur : is_Some (phantom_kernel_threads s !! current s);
  b_idle : is_Some (phantom_kernel_threads s !! idlest s);
  b_events : exists a, events s = queue_of a /\ due_ok (due a)
    /\ events_ok (pend ++ (due a).*2) (phantom_kernel_threads s);
  b_tid : 2 <= last_tid s < MAX_THREADS }.

(** Between the steps: no lock is held and the current thread runs. *)
Record inv (s : kernel) : Prop := {
  i_base : base None [] s;
  i_locks : locks s = [];
  i_sw : forall t th, phantom_kernel_threads s !! t = Some th -> sw_unlock th = None;
  i_run : forall th, phantom_kernel_threads s !! current s = Some th -> awake th }.

(** The errors of a caller that stop the kernel. *)
Definition misuse (msg : string) : Prop :=
  msg ∈ ["init mutex!"; "unlock of uninited mutex"; "recursive mutex lock"; "mutex - not owner";
         "locked mutex killed"; "m->impl == 0"; "init cond!"; "init sema!"; "c->impl == 0";
         "prio >= 0 && prio <= (THREAD_PRIO_HIGHEST|THREAD_PRIO_MOD_REALTIME)";
         "! (flags & ~CREATION_POSSIBLE_FLAGS)"; "out of threads"].

(** When a step can happen.  The idlest thread only waits for interrupts; a thread
    of the lowest priority does not wait for others; what is destroyed is not in use. *)
Definition uses_mutex (m : Z) (th : thread) : bool :=
  match kont th with
  | KMutex m' _ | KCond _ m' | KCondTimed _ m' => m =? m'
  | _ => false
  end.
Definition uses_sem (x : Z) (th : thread) : bool :=
  match kont th with KSem x' | KSemEtc x' _ _ _ => x =? x' | _ => false end.
Definition waits_cond (c : Z) (th : thread) : bool :=
  match kont th with KCond c' _ | KCondTimed c' _ => c =? c' | _ => false end.

Definition no_thread (f : thread -> bool) (s : kernel) : bool :=
  forallb (fun x => negb (f x.2)) (map_to_list (phantom_kernel_threads s)).

Definition op_allowed (op : kop) (s : kernel) (th : thread) : bool :=
  let runs := match kont th with KRun => true | _ => false end in
  let own := runs && negb (current s =? idlest s) in
  match op with
  | OTimer | OTime | OSoftIrq => runs
  | OResume => negb runs
  | OMutexLock _ | OCondWait _ _ | OCondTimedwait _ _ _ | OSemAcquire _ | OSemAcquireEtc _ _ _ _ =>
      own && negb (priority th =? 0)
  | OMutexDestroy m => own && bool_decide (is_Some (mutexes s !! m)) && no_thread (uses_mutex m) s
  | OSemDestroy x => own && no_thread (uses_sem x) s
  | OCondDestroy c => own && no_thread (waits_cond c) s
  | OCondInit c => own && negb (c =? 0)
  | _ => own
  end.
Definition op_ok (op : kop) (s : kernel) : bool :=
  match phantom_kernel_threads s !! current s with Some th => op_allowed op s th | None => false end.

(** ** Steps of a run *)

Abbreviation ts := phantom_kernel_threads.
Abbreviation we := (wpe misuse).

Section Steps.
Implicit Types s : kernel.

Lemma we_gets {A} (f : kernel -> A) s Q : Q (f s) s -> we (gets f) s Q.
Proof. done. Qed.
Lemma we_get s Q : Q s s -> we get s Q.
Proof. done. Qed.
Lemma we_modify f s Q : Q tt (f s) -> we (modify f) s Q.
Proof. done. Qed.
Lemma we_assert b what s Q : b = true -> Q tt s -> we (assert_ b what) s Q.
Proof. by intros ->. Qed.
(** An assertion about what the caller asks for. *)
Lemma we_assert_misuse b what s Q : misuse what -> (b = true -> Q tt s) -> we (assert_ b what) s Q.
Proof. intros Hm HQ. destruct b; [by apply HQ|done]. Qed.
Lemma we_some {A} (o : option A) a why s Q : o = Some a -> Q a s -> we (some_or_fault o why) s Q.
Proof. by intros ->. Qed.
Lemma we_get_t t th s Q : ts s !! t = Some th -> Q th s -> we (get_t t) s Q.
Proof. intros Ht HQ. apply wpe_bind, we_get. by eapply we_some. Qed.
Lemma we_cur_t th s Q : ts s !! current s = Some th -> Q th s -> we cur_t s Q.
Proof. intros Ht HQ. apply wpe_bind, we_gets. by eapply we_get_t. Qed.

Lemma we_upd_t t f th s Q :
  ts s !! t = Some th -> Q tt (set_threads (<[t := f th]> (ts s)) s) -> we (upd_t t f) s Q.
Proof. intros Ht HQ. apply wpe_bind. eapply we_get_t; [done|]. by apply we_modify. Qed.
Lemma we_upd_cur f th s Q :
  ts s !! current s = Some th -> Q tt (set_threads (<[current s := f th]> (ts s)) s) -> we (upd_cur f) s Q.
Proof. intros Ht HQ. apply wpe_bind, we_gets. by eapply we_upd_t. Qed.

Lemma we_lock l s Q : l ∉ locks s -> Q tt (set_locks (l :: locks s) s) -> we (hal_spin_lock l) s Q.
Proof.
  intros Hl HQ. apply wpe_bind, we_gets. rewrite bool_decide_eq_false_2 by done. by apply we_modify.
Qed.
Lemma we_unlock l s Q :
  l ∈ locks s -> Q tt (set_locks (filter (fun x => x <> l) (locks s)) s) -> we (hal_spin_unlock (Some l)) s Q.
Proof.
  intros Hl HQ. apply wpe_bind, we_gets. apply wpe_bind, we_assert; [by apply bool_decide_eq_true_2|].
  by apply we_modify.
Qed.

Lemma we_disable th s Q :
  ts s !! current s = Some th -> 0 <= preemption_disabled th ->
  Q tt (set_threads (<[current s := set_preempt (preemption_disabled th + 1) th]> (ts s)) s) ->
  we hal_disable_preemption s Q.
Proof.
  intros Ht Hp HQ. apply wpe_bind. eapply we_upd_cur; [done|]. apply wpe_bind.
  eapply we_cur_t; [simpl; by rewrite lookup_insert_eq|]. apply we_assert; [|done]. apply Z.ltb_lt. simpl. lia.
Qed.
Lemma we_enable th s Q :
  ts s !! current s = Some th -> 0 < preemption_disabled th ->
  Q tt (set_threads (<[current s := set_preempt (preemption_disabled th - 1) th]> (ts s)) s) ->
  we hal_enable_preemption s Q.
Proof.
  intros Ht Hp HQ. apply wpe_bind. eapply we_cur_t; [done|]. apply wpe_bind, we_assert; [by apply Z.ltb_lt|].
  by eapply we_upd_cur.
Qed.

Lemma we_get_mutex m mi msg s Q : mutexes s !! m = Some mi -> Q mi s -> we (get_mutex m msg) s Q.
Proof. intros Hm HQ. apply wpe_bind, we_get. by rewrite Hm. Qed.
Lemma we_get_cond c q s Q : conds s !! c = Some q -> Q q s -> we (get_cond c) s Q.
Proof. intros Hm HQ. apply wpe_bind, we_get. by rewrite Hm. Qed.
Lemma we_get_sem x ci s Q : sems s !! x = Some ci -> Q ci s -> we (get_sem x) s Q.
Proof. intros Hm HQ. apply wpe_bind, we_get. by rewrite Hm. Qed.

Lemma we_timed {A} (m : M timers A) s e a Q : m (events s) = Ret a e -> Q a (set_events e s) -> we (timed m) s Q.
Proof. unfold timed, wpe. by intros ->. Qed.
End Steps.

(** Setters of the same field. *)
Lemma set_threads_twice x y s : set_threads x (set_threads y s) = set_threads x s.
Proof. done. Qed.
Lemma set_locks_twice x y s : set_locks x (set_locks y s) = set_locks x s.
Proof. done. Qed.

(** The part of the state that the invariant is about. *)
Definition core (s : kernel) :=
  (ts s, last_tid s, current s, idlest s, (runq_idle s, runq_norm s, runq_rt s), (mutexes s, conds s, sems s), events s).

Lemma base_core over pend s s' : core s = core s' -> base over pend s -> base over pend s'.
Proof.
  intros E [Hnd Hq Ht Hm Hc Hcur Hidl Hev Htid]. unfold core in E.
  injection E as E1 E2 E3 E4 E5 E6 E7 E8 E9 E10 E11.
  assert (forall p, qlist s' p = qlist s p) as Hql.
  { intros [[]| | |]; simpl; congruence. }
  split; intros; rewrite ?Hql, <-?E1, <-?E2, <-?E3, <-?E4, <-?E8, <-?E9, <-?E10, <-?E11; auto.
  - apply Ht. congruence.
  - eapply Hm. rewrite E8. done.
Qed.

(** ** Updates of one thread *)

(** The update leaves the thread where it is. *)
Record keeps_place (cur t : Z) (th th' : thread) : Prop := {
  k_sleep : sleep_flags th' = sleep_flags th;
  k_class : t = cur \/ runq_class th' = runq_class th;
  k_kont : ~ awake th -> kont th' = kont th }.

Lemma keeps_place_of over cur t th th' :
  keeps_place cur t th th' -> place_of over cur t th' = place_of over cur t th.
Proof.
  intros [Hs Hc Hk]. unfold place_of. destruct (decide (t = cur)) as [|Hne]; [done|].
  destruct Hc as [|Hc]; [done|].
  destruct (decide (awake th')) as [Hw'|Hw'], (decide (awake th)) as [Hw|Hw]; unfold awake in *;
    try congruence. by rewrite Hk.
Qed.

(** Every thread of [m'] is one of [m] that stays where it is. *)
Definition keeps_places (cur : Z) (m m' : gmap Z thread) : Prop :=
  forall t, match m !! t, m' !! t with
            | Some th, Some th' => keeps_place cur t th th'
            | None, None => True
            | _, _ => False
            end.

Lemma keeps_places_back cur m m' t th' :
  keeps_places cur m m' -> m' !! t = Some th' -> exists th, m !! t = Some th /\ keeps_place cur t th th'.
Proof. intros Hk Ht. specialize (Hk t). rewrite Ht in Hk. destruct (m !! t); [eauto|done]. Qed.
Lemma keeps_places_fwd cur m m' t th :
  keeps_places cur m m' -> m !! t = Some th -> exists th', m' !! t = Some th' /\ keeps_place cur t th th'.
Proof. intros Hk Ht. specialize (Hk t). rewrite Ht in Hk. destruct (m' !! t); [eauto|done]. Qed.

Lemma events_ok_map evs m m' cur : events_ok evs m -> keeps_places cur m m' -> events_ok evs m'.
Proof.
  intros [Hn Hs Hc] Hk. split; [done| |].
  - intros e He. destruct (Hs e He) as (th & Hth & Hw & Hf & Hf0 & Ha & Hfl).
    destruct (keeps_places_fwd _ _ _ _ _ Hk Hth) as (th' & Hth' & [Hsl _ Hkk]). exists th'. split; [done|].
    specialize (Hkk Hw). split; [unfold awake in *; by rewrite Hsl|]. by rewrite Hkk.
  - intros t th' Ht' Hw Hf. destruct (keeps_places_back _ _ _ _ _ Hk Ht') as (th & Hth & [Hsl _ Hkk]).
    assert (~ awake th) as Hw' by (unfold awake in *; by rewrite <-Hsl).
    rewrite (Hkk Hw') in Hf. by eapply Hc.
Qed.

Lemma base_map over pend s m' :
  base over pend s -> keeps_places (current s) (ts s) m' ->
  (forall t th', m' !! t = Some th' -> thread_ok (mutexes s) (sems s) (idlest s) t th') ->
  base over pend (set_threads m' s).
Proof.
  intros [Hnd Hq Ht Hm Hc Hcur Hidl (a & Ea & Hdue & Hev) Htid] Hk Hok.
  assert (forall t, is_Some (ts s !! t) -> is_Some (m' !! t)) as Hdom.
  { intros t [th Hth]. destruct (keeps_places_fwd _ _ _ _ _ Hk Hth) as (th' & -> & _). eauto. }
  split; simpl; auto.
  - intros p t. change (qlist _ p) with (qlist s p). rewrite Hq. split.
    + intros (th & Hth & Hp). destruct (keeps_places_fwd _ _ _ _ _ Hk Hth) as (th' & Hth' & Hkp).
      exists th'. by rewrite (keeps_place_of over _ _ _ _ Hkp).
    + intros (th' & Hth' & Hp). destruct (keeps_places_back _ _ _ _ _ Hk Hth') as (th & Hth & Hkp).
      exists th. by rewrite <-(keeps_place_of over _ _ _ _ Hkp).
  - intros m mi Hmi. destruct (Hm m mi Hmi) as [H1 H2]. split; auto.
  - exists a. split; [done|]. split; [done|]. by eapply events_ok_map.
Qed.

Lemma keeps_place_refl cur t th : keeps_place cur t th th.
Proof. split; auto. Qed.

Lemma keeps_places_insert cur m t th th' :
  m !! t = Some th -> keeps_place cur t th th' -> keeps_places cur m (<[t := th']> m).
Proof.
  intros Ht Hk t'. destruct (decide (t' = t)) as [->|Hne]; [by rewrite lookup_insert_eq, Ht|].
  rewrite lookup_insert_ne by auto. destruct (m !! t'); [apply keeps_place_refl|done].
Qed.

Lemma base_upd over pend s t th th' :
  base over pend s -> ts s !! t = Some th -> keeps_place (current s) t th th' ->
  thread_ok (mutexes s) (sems s) (idlest s) t th' ->
  base over pend (set_threads (<[t := th']> (ts s)) s).
Proof.
  intros Hb Hth Hk Hok. apply base_map; [done|by eapply keeps_places_insert|].
  intros t' x [[<- <-]|[_ Hx]]%lookup_insert_Some; [done|by apply Hb].
Qed.

(** ** Waking a thread *)

Definition unblocked (n : Z) (th : thread) (s : kernel) : kernel :=
  set_resched true (set_runq (runq_class th) (runq (runq_class th) s ++ [n])
    (set_threads (<[n := set_sleep 0 th]> (ts s)) s)).

Definition is_wait_flag (f : Z) : Prop :=
  f = THREAD_SLEEP_SLEEP \/ f = THREAD_SLEEP_COND \/ f = THREAD_SLEEP_MUTEX \/ f = THREAD_SLEEP_SEM.

Lemma wait_flag_is k : k <> KRun -> is_wait_flag (wait_flag k).
Proof. unfold is_wait_flag. destruct k; simpl; tauto. Qed.

Lemma filter_unlock (l : lockid) ls : l ∉ ls -> filter (fun x => x <> l) (l :: ls) = ls.
Proof.
  intros Hl. rewrite filter_cons_False by auto. induction ls as [|x ls IH]; [done|].
  apply not_elem_of_cons in Hl as [Hx Hl]. rewrite filter_cons_True by auto. f_equal. auto.
Qed.

Lemma we_on_runq t c s Q : Q (bool_decide (t ∈ runq c s)) s -> we (t_is_on_runq t c) s Q.
Proof. intros HQ. by apply wpe_bind, we_gets. Qed.

Lemma we_enqueue t th s Q :
  ts s !! t = Some th -> (forall c, t ∉ runq c s) ->
  Q tt (set_runq (runq_class th) (runq (runq_class th) s ++ [t]) s) -> we (t_enqueue_runq t) s Q.
Proof.
  intros Ht Hn HQ. unfold t_enqueue_runq.
  do 3 (apply wpe_bind, we_on_runq; rewrite bool_decide_eq_false_2 by apply Hn; apply wpe_bind, we_assert; [done|]).
  apply wpe_bind. eapply we_get_t; [done|]. apply wpe_bind, we_gets. by apply we_modify.
Qed.

Lemma we_unblock n f th s Q :
  ts s !! n = Some th -> sleep_flags th = f -> is_wait_flag f -> (forall c, n ∉ runq c s) ->
  SchedLock ∉ locks s -> Q tt (unblocked n th s) -> we (thread_unblock n f) s Q.
Proof.
  intros Ht Hf Hw Hn Hl HQ. unfold thread_unblock. apply wpe_bind, we_lock; [done|].
  apply wpe_bind. eapply we_get_t; [done|].
  apply wpe_bind, we_assert; [rewrite Hf; destruct Hw as [->|[->|[->| ->]]]; reflexivity|].
  apply wpe_bind, we_assert; [rewrite Hf; destruct Hw as [->|[->|[->| ->]]]; reflexivity|].
  apply wpe_bind. eapply we_upd_t; [done|]. simpl.
  apply wpe_bind. eapply we_get_t; [simpl; by rewrite lookup_insert_eq|].
  assert (Z.ldiff (sleep_flags th) f = 0) as E by (rewrite Hf; apply Z.ldiff_diag).
  simpl. rewrite E. apply wpe_bind. eapply we_enqueue; [simpl; by rewrite lookup_insert_eq|intros c; specialize (Hn c); by destruct c|].
  apply wpe_bind, we_unlock; [simpl; by left|]. apply we_modify.
  simpl. rewrite filter_unlock by done. exact HQ.
Qed.

Lemma others_snd n l : (others n l).*2 = filter (fun e => tc_at e <> n) l.*2.
Proof.
  unfold others. induction l as [|[d e] l IH]; [done|]. rewrite fmap_cons, !filter_cons. simpl.
  destruct (decide (tc_at e <> n)); [rewrite fmap_cons; f_equal|]; done.
Qed.

Lemma events_ok_wake evs tsm n th th' :
  events_ok evs tsm -> tsm !! n = Some th -> awake th' ->
  events_ok (filter (fun e => tc_at e <> n) evs) (<[n := th']> tsm).
Proof.
  intros [Hn Hs Hc] Ht Hw. split.
  - eapply sublist_NoDup; [exact Hn|]. apply fmap_sublist, sublist_filter.
  - intros e [Hne He]%list_elem_of_filter. destruct (Hs e He) as (x & Hx & Hev).
    exists x. by rewrite lookup_insert_ne.
  - intros t tht Htt Hnw Hf. apply lookup_insert_Some in Htt as [[<- <-]|[Hne Htt]]; [done|].
    pose proof (Hc _ _ Htt Hnw Hf) as (e & -> & He)%list_elem_of_fmap.
    apply list_elem_of_fmap_2, list_elem_of_filter. auto.
Qed.

Lemma filter_none (n : Z) (evs : list timedcall) :
  n ∉ tc_at <$> evs -> filter (fun e => tc_at e <> n) evs = evs.
Proof.
  induction evs as [|e evs IH]; intros Hn; [done|]. rewrite fmap_cons in Hn.
  apply not_elem_of_cons in Hn as [Hne Hn]. rewrite filter_cons_True by auto. f_equal. auto.
Qed.

Lemma events_ok_none evs tsm t th :
  events_ok evs tsm -> tsm !! t = Some th -> awake th \/ timed_f (kont th) = 0 -> t ∉ tc_at <$> evs.
Proof.
  intros [_ Hs _] Ht Hw (e & -> & He)%list_elem_of_fmap. destruct (Hs e He) as (x & Hx & Hev).
  rewrite Ht in Hx. injection Hx as <-. destruct Hev as (H1 & H2 & H3 & _). by destruct Hw.
Qed.

(** The thread is moved from where it waits to its run queue. *)
Lemma base_wake over pend pend' s s' n th th' :
  base over pend s -> ts s !! n = Some th -> ~ awake th -> n <> current s ->
  ts s' = <[n := th']> (ts s) -> awake th' -> kont th' = kont th -> runq_class th' = runq_class th ->
  thread_ok (mutexes s') (sems s') (idlest s') n th' ->
  current s' = current s -> idlest s' = idlest s -> last_tid s' = last_tid s ->
  (forall p, qlist s' p = if decide (p = PRun (runq_class th)) then qlist s p ++ [n]
                     else if decide (Some p = wait_place (kont th)) then remove n (qlist s p) else qlist s p) ->
  (forall m mi, mutexes s' !! m = Some mi -> mutex_ok (ts s') mi) ->
  (forall t x, t <> n -> ts s !! t = Some x -> kont_ok (mutexes s) (sems s) t x -> kont_ok (mutexes s') (sems s') t x) ->
  conds s' !! 0 = None ->
  (exists a, events s' = queue_of a /\ due_ok (due a) /\ events_ok (pend' ++ (due a).*2) (ts s')) ->
  base over pend' s'.
Proof.
  intros Hb Ht Hw Hne Ets Hw' Ek Ec Hok Ecur Eidl Etid Eq Hm Hko Hc0 Hev.
  destruct Hb as [Hnd Hq Hth _ _ Hcur Hidl _ Htid]. split; try done.
  - intros p. rewrite Eq. case_decide as Hp; [|case_decide; [apply list.NoDup_filter|]; done].
    apply list.NoDup_app. split; [done|]. split; [|apply NoDup_singleton].
    intros x Hx ->%list_elem_of_singleton. apply Hq in Hx as (y & Hy & Hpl). rewrite Ht in Hy. injection Hy as <-.
    unfold place_of in Hpl. rewrite decide_False, decide_False in Hpl by done. subst p. by destruct (kont th).
  - intros p t. rewrite Eq, Ets, Ecur. destruct (decide (t = n)) as [->|Hnt].
    + rewrite lookup_insert_eq. transitivity (Some p = Some (PRun (runq_class th))).
      * case_decide as Hp; [subst; split; [done|]; intros _; apply elem_of_app; right; by left|].
        split; [|congruence]. intros Hin. exfalso. case_decide as Hp2.
        -- apply list_elem_of_filter in Hin as [? _]. done.
        -- apply Hq in Hin as (x & Hx & Hpl). rewrite Ht in Hx. injection Hx as <-. unfold place_of in Hpl.
           rewrite !decide_False in Hpl by done. congruence.
      * unfold place_of. split.
        -- intros E. exists th'. rewrite decide_False, decide_True by done. by rewrite Ec.
        -- intros (x & [= <-] & Hx). rewrite decide_False, decide_True in Hx by done. by rewrite <-Ec.
    + rewrite lookup_insert_ne by auto. rewrite <-Hq. case_decide.
      * rewrite elem_of_app, list_elem_of_singleton. naive_solver.
      * case_decide; [|done]. unfold remove. rewrite list_elem_of_filter. naive_solver.
  - intros t x Hx. rewrite Ets in Hx. apply lookup_insert_Some in Hx as [[<- <-]|[Hnt Hx]]; [done|].
    destruct (Hth t x Hx) as []. rewrite Eidl. split; eauto.
  - rewrite Ecur, Ets. by apply lookup_insert_is_Some'; right.
  - rewrite Eidl, Ets. by apply lookup_insert_is_Some'; right.
  - by rewrite Etid.
Qed.

(** ** Selecting a thread *)

Definition not_run (over : option place) : Prop := forall c, over <> Some (PRun c).

Lemma runq_member over pend s c t :
  base over pend s -> not_run over ->
  t ∈ runq c s <-> exists th, ts s !! t = Some th /\ t <> current s /\ awake th /\ runq_class th = c.
Proof.
  intros Hb Ho. change (runq c s) with (qlist s (PRun c)). rewrite (b_queue _ _ _ Hb). unfold place_of. split.
  - intros (th & Hth & Hp). exists th. case_decide; [by apply Ho in Hp|].
    case_decide; [injection Hp as <-|by destruct (kont th)]. done.
  - intros (th & Hth & Hne & Hw & <-). exists th. by rewrite decide_False, decide_True.
Qed.

Lemma class_rt th : runq_class th = RRt -> is_realtime (priority th) = true.
Proof. unfold runq_class. destruct (is_realtime _); [done|]. by destruct (_ =? _). Qed.
Lemma class_norm th : runq_class th = RNorm -> is_realtime (priority th) = false /\ priority th <> 0.
Proof.
  unfold runq_class. destruct (is_realtime _); [done|].
  destruct (Z.eqb_spec (priority th) THREAD_PRIO_IDLE) as [|Hn]; [done|]. by intros _.
Qed.
Lemma class_idle th : runq_class th = RIdle -> priority th = 0.
Proof.
  unfold runq_class. destruct (is_realtime _); [done|].
  by destruct (Z.eqb_spec (priority th) THREAD_PRIO_IDLE).
Qed.

Lemma ok_schedulable ms ss idl t th :
  thread_ok ms ss idl t th -> runq_class th <> RIdle -> no_schedule th = false.
Proof.
  intros Ht Hc. apply not_true_iff_false. intros Hn.
  assert (t = idl) as Hi by by apply (t_idle _ _ _ _ _ Ht).
  apply Hc. destruct (t_idlest _ _ _ _ _ Ht Hi) as [Hp _]. unfold runq_class. by rewrite Hp.
Qed.

Lemma norm_prio ms ss idl t th :
  thread_ok ms ss idl t th -> runq_class th = RNorm -> 0 < priority th <= THREAD_PRIO_HIGHEST.
Proof.
  intros Ht [Hr Hz]%class_norm. pose proof (t_prio _ _ _ _ _ Ht) as Hp. split; [lia|].
  unfold is_realtime, THREAD_PRIO_MOD_REALTIME in Hr. apply negb_false_iff, Z.eqb_eq in Hr.
  destruct (Z_le_gt_dec (priority th) 15) as [|Hgt]; [done|exfalso].
  assert (Z.testbit (priority th) 4 = true) as Hb.
  { apply Z.testbit_true; [lia|]. change (2 ^ 4) with 16. replace (priority th / 16) with 1; [done|].
    apply (Z.div_unique _ _ _ (priority th - 16)); lia. }
  assert (Z.testbit (Z.land (priority th) 16) 4 = true) as Hl by by rewrite Z.land_spec, Hb.
  rewrite Hr in Hl. done.
Qed.

(** All of a list are threads that can run. *)
Definition all_ready (s : kernel) (c : rclass) (q : list Z) : Prop :=
  forall t, t ∈ q -> exists th, ts s !! t = Some th /\ awake th /\ runq_class th = c /\ no_schedule th = false
                     /\ 0 <= priority th < 32.

Lemma all_ready_runq over pend s c :
  base over pend s -> not_run over -> c <> RIdle -> all_ready s c (runq c s).
Proof.
  intros Hb Ho Hc t (th & Hth & _ & Hw & Hcl)%(runq_member _ _ _ _ _ Hb Ho).
  pose proof (b_thread _ _ _ Hb _ _ Hth) as Hok. exists th. repeat split; try done.
  - eapply ok_schedulable; [done|congruence].
  - apply Hok.
  - apply Hok.
Qed.

Lemma best_rt_spec q mx best s :
  all_ready s RRt q -> (mx < 0 -> best = None) -> (0 <= mx -> is_Some best) ->
  we (best_rt q mx best) s (fun r s' => s' = s
    /\ ((r = best /\ (0 <= mx \/ q = [])) \/ exists b, r = Some b /\ b ∈ q)).
Proof.
  revert mx best. induction q as [|it q IH]; intros mx best Hr Hb Hb'; simpl.
  - split; [done|]. left. auto.
  - destruct (Hr it) as (th & Hth & Hw & Hc & Hns & Hp); [by left|].
    apply wpe_bind. eapply we_get_t; [done|]. apply wpe_bind, we_assert; [by apply class_rt|].
    unfold awake in Hw. rewrite Hw, Hns. simpl.
    assert (all_ready s RRt q) as Hr' by (intros t Ht; apply Hr; by right).
    destruct (Z.ltb_spec mx (priority th)).
    + eapply wpe_mono; [apply IH; [done|lia|eauto]|]. intros r s' [-> [[-> _]|(b & -> & Hin)]]; (split; [done|]).
      * right. exists it. split; [done|by left].
      * right. exists b. split; [done|by right].
    + eapply wpe_mono; [apply IH; done|]. intros r s' [-> [[-> Hm]|(b & -> & Hin)]]; (split; [done|]).
      * left. split; [done|]. left. lia.
      * right. exists b. split; [done|by right].
Qed.

(** The best normal thread has time left; if there is none, nobody has. *)
Definition has_time (s : kernel) (t : Z) : Prop :=
  exists th, ts s !! t = Some th /\ 0 < ticks_left th.

Lemma best_norm_spec q mx best s :
  all_ready s RNorm q -> (mx <= 0 -> best = None) -> (0 < mx -> is_Some best) -> 0 <= mx ->
  we (best_norm q mx best) s (fun r s' => s' = s
    /\ ((r = best /\ (0 < mx \/ forall t, t ∈ q -> ~ has_time s t)) \/ exists b, r = Some b /\ b ∈ q /\ has_time s b)).
Proof.
  revert mx best. induction q as [|it q IH]; intros mx best Hr Hb Hb' Hmx; simpl.
  - split; [done|]. left. split; [done|]. right. intros t Ht. by apply not_elem_of_nil in Ht.
  - destruct (Hr it) as (th & Hth & Hw & Hc & Hns & Hp); [by left|].
    apply wpe_bind. eapply we_get_t; [done|].
    unfold awake in Hw. rewrite Hw, Hns. simpl.
    assert (all_ready s RNorm q) as Hr' by (intros t Ht; apply Hr; by right).
    assert (0 < priority th) as Hp0 by (apply class_norm in Hc; lia).
    destruct (Z.ltb_spec mx (priority th)), (Z.ltb_spec 0 (ticks_left th)); simpl.
    1: { eapply wpe_mono; [apply IH; [done|lia|eauto|lia]|].
         intros r s' [-> [[-> _]|(b & -> & Hin & Ht)]]; (split; [done|]); right.
         - exists it. split; [done|]. split; [by left|]. by exists th.
         - exists b. split; [done|]. split; [by right|done]. }
    all: eapply wpe_mono; [apply IH; done|].
    all: intros r s' [-> [[-> Hm]|(b & -> & Hin & Ht)]]; (split; [done|]);
      [left; split; [done|]|right; exists b; split; [done|]; split; [by right|done]].
    + destruct Hm as [|Hm]; [by left|right]. intros t [->|Hin]%elem_of_cons; [|auto].
      intros (x & Hx & Hxt). rewrite Hth in Hx. injection Hx as <-. lia.
    + left. lia.
    + left. lia.
Qed.

Lemma have_ticks_spec q acc s :
  all_ready s RNorm q ->
  we (have_ticks q acc) s (fun r s' => s' = s /\ (r = true <-> acc = true \/ exists t, t ∈ q /\ has_time s t)).
Proof.
  revert acc. induction q as [|it q IH]; intros acc Hr; simpl.
  - split; [done|]. split; [auto|]. intros [|(t & Ht%not_elem_of_nil & _)]; done.
  - destruct (Hr it) as (th & Hth & Hw & Hc & Hns & Hp); [by left|].
    apply wpe_bind. eapply we_get_t; [done|]. apply wpe_bind, we_assert.
    { apply class_norm in Hc as [-> _]. done. }
    eapply wpe_mono; [apply IH; intros t Ht; apply Hr; by right|]. intros r s' [-> E]. split; [done|].
    rewrite E, orb_true_iff, Z.ltb_lt. setoid_rewrite elem_of_cons. split.
    + intros [[|]|(t & Ht & Hx)]; [auto|right; exists it; split; [auto|by exists th]|right; exists t; auto].
    + intros [|(t & [->|Ht] & Hx)]; [auto| |right; eauto].
      destruct Hx as (x & Hx & Hxt). rewrite Hth in Hx. injection Hx as <-. auto.
Qed.

(** New time for the threads of [q]. *)
Definition given (q : list Z) (m m' : gmap Z thread) : Prop :=
  forall t, m' !! t = if decide (t ∈ q) then give_time <$> m !! t else m !! t.

Lemma given_cons it q m m' th :
  m !! it = Some th -> given q (<[it := give_time th]> m) m' -> given (it :: q) m m'.
Proof.
  intros Hth Hg t. rewrite (Hg t). destruct (decide (t = it)) as [->|Hne].
  - rewrite lookup_insert_eq, Hth, (decide_True (P := it ∈ it :: q)) by (by left). simpl. by case_decide.
  - rewrite lookup_insert_ne by auto. destruct (decide (t ∈ q)) as [H1|H1], (decide (t ∈ it :: q)) as [H2|H2]; try done.
    + by apply not_elem_of_cons in H2 as [_ ?].
    + by apply elem_of_cons in H2 as [|].
Qed.

Lemma give_all_spec q s :
  (forall t, t ∈ q -> is_Some (ts s !! t)) ->
  we (for_each (fun it => upd_t it give_time) q) s
    (fun _ s' => exists m', s' = set_threads m' s /\ given q (ts s) m').
Proof.
  revert s. induction q as [|it q IH]; intros s Hq; simpl.
  - exists (ts s). split; [by destruct s|]. intros t. by rewrite decide_False by apply not_elem_of_nil.
  - destruct (Hq it) as [th Hth]; [by left|]. apply wpe_bind. eapply we_upd_t; [done|].
    eapply wpe_mono; [apply IH|].
    + simpl. intros t Ht. apply lookup_insert_is_Some'. right. apply Hq. by right.
    + intros _ s' (m' & -> & Hg). exists m'. split; [done|]. by eapply given_cons.
Qed.

Lemma t_assign_time_spec over pend s :
  base over pend s -> not_run over ->
  we t_assign_time s (fun b s' =>
    if b : bool then (forall t, t ∈ runq_norm s -> ~ has_time s t)
      /\ exists m', s' = set_threads m' s /\ given (current s :: runq_norm s) (ts s) m'
    else s' = s /\ exists t, t ∈ runq_norm s /\ has_time s t).
Proof.
  intros Hb Ho. pose proof (all_ready_runq _ _ _ RNorm Hb Ho ltac:(done)) as Hr. simpl in Hr.
  unfold t_assign_time. apply wpe_bind, we_gets.
  apply wpe_bind. eapply wpe_mono; [by apply have_ticks_spec|]. intros r s' [-> E]. destruct r.
  - split; [done|]. by destruct (proj1 E eq_refl).
  - assert (forall t, t ∈ runq_norm s -> ~ has_time s t) as Hno.
    { intros t Ht Hx. assert (false = true) by (apply E; eauto). done. }
    apply wpe_bind. eapply wpe_mono; [apply give_all_spec|].
    { intros t Ht. destruct (Hr t Ht) as (th & -> & _). eauto. }
    intros _ s' (m' & -> & Hg). destruct (b_cur _ _ _ Hb) as [cth Hcth].
    assert (exists x, m' !! current s = Some x /\ give_time x = give_time cth) as (x & Hx & Hgx).
    { rewrite (Hg (current s)), Hcth. case_decide; simpl; eauto. }
    apply wpe_bind. eapply we_upd_cur; [simpl; done|]. split; [done|].
    exists (<[current s := give_time x]> m'). split; [done|]. intros t. destruct (decide (t = current s)) as [->|Hne].
    + rewrite lookup_insert_eq, decide_True by (by left). rewrite Hcth. simpl. by rewrite Hgx.
    + rewrite lookup_insert_ne by auto. rewrite (Hg t).
      destruct (decide (t ∈ runq_norm s)) as [H1|H1], (decide (t ∈ current s :: runq_norm s)) as [H2|H2]; try done.
      * by apply not_elem_of_cons in H2 as [_ ?].
      * by apply elem_of_cons in H2 as [|].
Qed.

Lemma give_time_ok ms ss idl t th : thread_ok ms ss idl t th -> thread_ok ms ss idl t (give_time th).
Proof.
  intros Ht. pose proof (t_prio _ _ _ _ _ Ht). destruct Ht. split; try done.
  unfold give_time, set_ticks, MAX_TICKS, NORM_TICKS. simpl. lia.
Qed.

Lemma base_given over pend s q m' :
  base over pend s -> given q (ts s) m' -> base over pend (set_threads m' s).
Proof.
  intros Hb Hg. apply base_map; [done| |].
  - intros t. rewrite (Hg t). destruct (ts s !! t); case_decide; simpl; try done; apply keeps_place_refl || by split; auto.
  - intros t th'. rewrite (Hg t). intros Ht'. destruct (ts s !! t) as [th|] eqn:E; [|by case_decide].
    pose proof (b_thread _ _ _ Hb _ _ E). case_decide; simplify_eq/=; [by apply give_time_ok|done].
Qed.

(** Only the time of threads is changed. *)
Definition only_ticks (m m' : gmap Z thread) : Prop :=
  forall t, match m !! t, m' !! t with
            | Some th, Some th' => th' = set_ticks (ticks_left th') th
            | None, None => True
            | _, _ => False
            end.

Lemma set_ticks_same th : th = set_ticks (ticks_left th) th.
Proof. by destruct th. Qed.

Lemma only_ticks_refl m : only_ticks m m.
Proof. intros t. destruct (m !! t); [apply set_ticks_same|done]. Qed.

Lemma only_ticks_given q m m' : given q m m' -> only_ticks m m'.
Proof.
  intros Hg t. rewrite (Hg t). destruct (m !! t), (decide (t ∈ q)); simpl; try done. apply set_ticks_same.
Qed.

Lemma only_ticks_insert m t th k : m !! t = Some th -> only_ticks m (<[t := set_ticks k th]> m).
Proof.
  intros Ht t'. destruct (decide (t' = t)) as [->|Hne]; [by rewrite lookup_insert_eq, Ht|].
  rewrite lookup_insert_ne by auto. apply (only_ticks_refl m t').
Qed.

Lemma only_ticks_lookup m m' t th : only_ticks m m' -> m !! t = Some th -> exists k, m' !! t = Some (set_ticks k th).
Proof. intros Hk Ht. specialize (Hk t). rewrite Ht in Hk. destruct (m' !! t); [rewrite Hk; eauto|done]. Qed.

Lemma set_threads_same s : set_threads (ts s) s = s.
Proof. by destruct s. Qed.

(** Time for the normal threads: someone had time left, or all get new time. *)
Definition timed_norm (s : kernel) (m' : gmap Z thread) : Prop :=
  m' = ts s \/ ((forall t, t ∈ runq_norm s -> ~ has_time s t) /\ given (current s :: runq_norm s) (ts s) m').

Lemma select_norm_spec over pend s :
  base over pend s -> not_run over -> runq_norm s <> [] ->
  we (select_norm 3) s (fun r s' => exists b m', r = Some b /\ b ∈ runq_norm s
    /\ s' = set_threads m' s /\ has_time s' b /\ timed_norm s m').
Proof.
  intros Hb Ho Hne. pose proof (all_ready_runq _ _ _ RNorm Hb Ho ltac:(done)) as Hr. simpl in Hr.
  cbn [select_norm]. apply wpe_bind, we_gets. apply wpe_bind.
  eapply wpe_mono; [apply best_norm_spec; done|]. intros r s0 [-> [[-> [Hx|Hno]]|(b & -> & Hin & Ht)]]; [lia| |].
  - apply wpe_bind. eapply wpe_mono; [by eapply t_assign_time_spec|].
    intros [|] s0; [intros (_ & m' & -> & Hg)|intros (-> & t & Hin & Ht); by destruct (Hno t Hin)].
    pose proof (base_given _ _ _ _ _ Hb Hg) as Hb'. set (s' := set_threads m' s) in *.
    pose proof (all_ready_runq _ _ _ RNorm Hb' Ho ltac:(done)) as Hr'.
    assert (forall t, t ∈ runq_norm s -> has_time s' t) as Ht'.
    { intros t Ht. destruct (Hr t Ht) as (th & Hth & _ & _ & _ & Hp). exists (give_time th). split; [|unfold give_time, NORM_TICKS; simpl; lia].
      simpl. rewrite (Hg t), decide_True by (by right). by rewrite Hth. }
    apply wpe_bind, we_gets. apply wpe_bind. eapply wpe_mono; [apply best_norm_spec; done|].
    intros r s0 [-> [[-> [Hx|Hno']]|(b & -> & Hin & Htb)]]; [lia| |].
    + exfalso. simpl in Hno'. destruct (runq_norm s) as [|x q]; [done|].
      apply (Hno' x); [by left|]. apply Ht'. by left.
    + apply wpe_bind. destruct (Hr' b Hin) as (th & Hth & Hw & _). eapply we_get_t; [done|].
      apply wpe_bind, we_assert; [by apply Z.eqb_eq|]. exists b, m'. repeat split; try done. by right.
  - apply wpe_bind. destruct (Hr b Hin) as (th & Hth & Hw & _). eapply we_get_t; [done|].
    apply wpe_bind, we_assert; [by apply Z.eqb_eq|]. exists b, (ts s). rewrite set_threads_same.
    repeat split; try done. by left.
Qed.

Lemma base_perm over pend s c q' :
  base over pend s -> q' ≡ₚ runq c s -> base over pend (set_runq c q' s).
Proof.
  intros Hb Hp. assert (forall p, qlist (set_runq c q' s) p ≡ₚ qlist s p) as Hq.
  { intros [c'| | |]; try done. by destruct c, c'. }
  destruct Hb. split; try done.
  - intros p. rewrite Hq. auto.
  - intros p t. rewrite Hq. auto.
Qed.

(** A queue that is turned: [l1] has been moved behind [l2]. *)
Lemma select_idle_spec s l1 l2 last :
  NoDup (l2 ++ l1) -> list.last l2 = Some last -> (forall t, t ∈ l2 -> is_Some (ts s !! t)) ->
  runq_idle s = l2 ++ l1 ->
  we (select_idle (length l2) last) s (fun r s' =>
    exists q', q' ≡ₚ runq_idle s /\
    match r with
    | None => s' = set_runq RIdle q' s
    | Some b => exists th, b ∈ runq_idle s /\ ts s !! b = Some th /\ awake th
                /\ s' = set_threads (<[b := set_ticks NORM_TICKS th]> (ts s)) (set_runq RIdle q' s)
    end).
Proof.
  revert s l1. induction l2 as [|ret l2 IH]; intros s l1 Hnd Hl Hts Hq; [done|]. simpl.
  destruct (Hts ret) as [th Hth]; [by left|]. apply wpe_bind, we_gets. rewrite Hq. simpl.
  apply wpe_bind. eapply we_get_t; [done|]. destruct ((sleep_flags th =? 0) && negb (no_schedule th)) eqn:Ew.
  - apply andb_prop in Ew as [Ew%Z.eqb_eq _]. apply wpe_bind. eapply we_upd_t; [done|].
    exists (runq_idle s). rewrite Hq. split; [done|]. exists th. split; [by left|]. split; [done|]. split; [done|].
    rewrite <-Hq. by destruct s.
  - destruct (Z.eqb_spec ret last) as [->|Hne]; simpl.
    + exists (runq_idle s). rewrite Hq. split; [done|]. rewrite <-Hq. by destruct s.
    + destruct l2 as [|r2 l2]; [simpl in Hl; congruence|]. apply wpe_bind, we_modify.
      assert ((r2 :: l2) ++ l1 ++ [ret] ≡ₚ (ret :: r2 :: l2) ++ l1) as Hturn.
      { rewrite app_assoc, <-Permutation_cons_append. done. }
      eapply wpe_mono; [apply (IH _ (l1 ++ [ret]))|].
      * by rewrite Hturn.
      * done.
      * intros t Ht. apply Hts. by right.
      * simpl. by rewrite app_assoc.
      * intros r s' (q' & Hp & Hr). exists q'. change (runq_idle _) with ((r2 :: l2 ++ l1) ++ [ret]) in Hp, Hr.
        rewrite <-Permutation_cons_append in Hp. split; [done|]. destruct r as [b|]; [|done].
        destruct Hr as (x & Hin & Hx & Hw & ->). exists x. split; [|done].
        by rewrite <-Permutation_cons_append in Hin.
Qed.

(** What the scheduler does and whom it selects. *)
Record selected (over : option place) (pend : list timedcall) (s s' : kernel) (next : Z) : Prop := {
  sel_state : exists m' q', s' = set_threads m' (set_runq RIdle q' s) /\ q' ≡ₚ runq_idle s;
  sel_ticks : only_ticks (ts s) (ts s');
  sel_base : base over pend s';
  sel_next : exists th, ts s' !! next = Some th /\ awake th;
  sel_self : next = current s -> next = idlest s;
  sel_norm : runq_rt s = [] -> runq_norm s <> [] ->
    next ∈ runq_norm s /\ has_time s' next /\ timed_norm s (ts s') }.

Lemma timed_norm_base over pend s m' :
  base over pend s -> timed_norm s m' -> base over pend (set_threads m' s) /\ only_ticks (ts s) m'.
Proof.
  intros Hb [->|[_ Hg]]; [rewrite set_threads_same|]; (split; [done || by eapply base_given|]).
  - apply only_ticks_refl.
  - by eapply only_ticks_given.
Qed.

Lemma set_runq_same c s : set_runq c (runq c s) s = s.
Proof. by destruct s, c. Qed.

Lemma set_ticks_ok ms ss idl t th k :
  thread_ok ms ss idl t th -> k <= MAX_TICKS -> thread_ok ms ss idl t (set_ticks k th).
Proof. intros [] Hk. by split. Qed.

Lemma base_set_ticks over pend s t th k :
  base over pend s -> ts s !! t = Some th -> k <= MAX_TICKS ->
  base over pend (set_threads (<[t := set_ticks k th]> (ts s)) s).
Proof.
  intros Hb Ht Hk. eapply base_upd; [done|done|by split; auto|].
  apply set_ticks_ok; [by apply Hb|done].
Qed.

Lemma runq_nonidle_ne over pend s c t :
  base over pend s -> not_run over -> t ∈ runq c s -> exists th, ts s !! t = Some th /\ awake th /\ t <> current s.
Proof. intros Hb Ho (th & Hth & Hne & Hw & _)%(runq_member _ _ _ _ _ Hb Ho). eauto. Qed.

Lemma select_idle_part over pend s :
  base over pend s -> not_run over -> runq_norm s = [] ->
  we (ret ← match list.last (runq_idle s) with
            | None => mret None
            | Some last_idle => select_idle (length (runq_idle s)) last_idle
            end;
      match ret with Some r => mret r | None => gets idlest end) s
    (fun next s' => selected over pend s s' next).
Proof.
  intros Hb Ho Hn. destruct (b_idle _ _ _ Hb) as [ith Hith].
  destruct (t_idlest _ _ _ _ _ (b_thread _ _ _ Hb _ _ Hith) eq_refl) as (_ & Hiw & _).
  apply wpe_bind. destruct (list.last (runq_idle s)) as [l|] eqn:El.
  - eapply wpe_mono; [apply (select_idle_spec s [] (runq_idle s)); [|done| |]|].
    + rewrite app_nil_r. apply (b_nodup _ _ _ Hb (PRun RIdle)).
    + intros t Ht. destruct (runq_nonidle_ne _ _ _ RIdle t Hb Ho Ht) as (th & -> & _). eauto.
    + by rewrite app_nil_r.
    + intros [b|] s' (q' & Hp & Hr).
      * destruct Hr as (th & Hin & Hth & Hw & ->).
        destruct (runq_nonidle_ne _ _ _ RIdle b Hb Ho Hin) as (x & Hx & _ & Hne). apply wpe_ret. split.
        -- eexists _, q'. done.
        -- by apply only_ticks_insert.
        -- apply (base_set_ticks over pend (set_runq RIdle q' s)); [by apply base_perm|done|done].
        -- eexists. simpl. rewrite lookup_insert_eq. by split.
        -- done.
        -- intros _ Hx'. done.
      * subst s'. apply we_gets. split; try done.
        -- by exists (ts s), q'.
        -- apply only_ticks_refl.
        -- by apply base_perm.
        -- by exists ith.
  - apply wpe_ret, we_gets. split; try done.
    + exists (ts s), (runq_idle s). by destruct s.
    + apply only_ticks_refl.
    + by exists ith.
Qed.

Lemma select_spec over pend s :
  base over pend s -> not_run over -> SchedLock ∈ locks s ->
  we phantom_scheduler_select_thread_to_run s (fun next s' => selected over pend s s' next).
Proof.
  intros Hb Ho Hl. unfold phantom_scheduler_select_thread_to_run. apply wpe_bind, we_gets.
  apply wpe_bind, we_assert; [by apply bool_decide_eq_true_2|]. apply wpe_bind, we_gets.
  apply wpe_bind. eapply wpe_mono.
  { apply best_rt_spec; [apply (all_ready_runq _ _ _ RRt Hb Ho); done|done|lia]. }
  intros r s0 [-> [[-> [Hx|Hrt]]|(b & -> & Hin)]]; [lia| |].
  - apply wpe_bind, we_gets. apply wpe_bind. destruct (runq_norm s) as [|x norm] eqn:En.
    + apply wpe_ret. apply wpe_bind, we_gets. by apply select_idle_part.
    + eapply wpe_mono; [apply (select_norm_spec over pend); [done|done|by rewrite En]|].
      intros r s0 (b & m' & -> & Hin & -> & Ht & Htn). apply wpe_ret.
      destruct (timed_norm_base _ _ _ _ Hb Htn) as [Hb' Hot].
      destruct (runq_nonidle_ne _ _ _ RNorm b Hb Ho Hin) as (th & Hth & Hw & Hne). split; try done.
      * exists m', (runq_idle s). by destruct s.
      * destruct (only_ticks_lookup _ _ _ _ Hot Hth) as [k Hk]. exists (set_ticks k th). by split.
  - destruct (runq_nonidle_ne _ _ _ RRt b Hb Ho Hin) as (th & Hth & Hw & Hne).
    apply wpe_bind. eapply we_get_t; [done|]. apply wpe_bind, we_assert; [by apply Z.eqb_eq|].
    apply wpe_ret. split; try done.
    + exists (ts s), (runq_idle s). by destruct s.
    + apply only_ticks_refl.
    + by exists th.
    + intros Hrt _. simpl in Hin. rewrite Hrt in Hin. by apply not_elem_of_nil in Hin.
Qed.

(** ** The switch *)

Lemma wait_place_run k c : wait_place k <> Some (PRun c).
Proof. by destruct k. Qed.

Lemma place_of_cur over t th : place_of over t t th = over.
Proof. unfold place_of. by rewrite decide_True. Qed.

Lemma place_of_ne over cur t th :
  t <> cur -> place_of over cur t th = if decide (awake th) then Some (PRun (runq_class th)) else wait_place (kont th).
Proof. intros. unfold place_of. by rewrite decide_False. Qed.

(** Threads that wait stay where they are. *)
Lemma place_switch over cur next oth nth t y p :
  (forall c, p <> PRun c) -> next <> cur -> awake nth ->
  (awake oth -> over = None) -> (~ awake oth -> over = wait_place (kont oth)) ->
  (t = cur -> y = oth) -> (t = next -> y = nth) ->
  place_of over cur t y = Some p <-> place_of None next t y = Some p.
Proof.
  intros Hp Hne Hw Eo Eo' Hc Hn. destruct (decide (t = next)) as [->|Hnn].
  - rewrite (Hn eq_refl), place_of_cur, place_of_ne, decide_True by done. split; [|done]. intros [= <-]. by destruct (Hp (runq_class nth)).
  - rewrite (place_of_ne None) by done. destruct (decide (t = cur)) as [->|Hnc]; [|by rewrite place_of_ne].
    rewrite (Hc eq_refl), place_of_cur. destruct (decide (awake oth)) as [Ha|Ha].
    + rewrite Eo by done. split; [done|]. intros [= <-]. by destruct (Hp (runq_class oth)).
    + by rewrite Eo'.
Qed.

(** [next] leaves its run queue and the old thread goes to its own, if it can run. *)
Lemma base_switch over s s' next oth nth :
  base over [] s -> ts s !! current s = Some oth -> ts s !! next = Some nth ->
  next <> current s -> awake nth -> not_run over ->
  (awake oth -> over = None) -> (~ awake oth -> over = wait_place (kont oth)) ->
  ts s' = ts s -> current s' = next -> idlest s' = idlest s -> last_tid s' = last_tid s ->
  mutexes s' = mutexes s -> conds s' = conds s -> sems s' = sems s -> events s' = events s ->
  (forall c, runq c s' = (if decide (c = runq_class nth) then remove next (runq c s) else runq c s)
                    ++ (if decide (awake oth /\ c = runq_class oth) then [current s] else [])) ->
  base None [] s'.
Proof.
  intros Hb Hoth Hnth Hne Hnw Hor Eo Eo' Ets Ecur Eidl Etid Em Ec Es Ee Eq.
  assert (forall c, current s ∉ runq c s) as Hold.
  { intros c (x & _ & Hx & _)%(runq_member _ _ _ _ _ Hb Hor). done. }
  assert (forall c t, t ∈ runq c s' <-> (t <> next /\ t ∈ runq c s) \/ (t = current s /\ awake oth /\ c = runq_class oth)) as Hrun.
  { intros c t. rewrite (Eq c), elem_of_app. transitivity ((t <> next /\ t ∈ runq c s) \/ t ∈ if decide (awake oth /\ c = runq_class oth) then [current s] else []).
    - apply or_iff_compat_r. destruct (decide (c = runq_class nth)) as [Hc|Hc]; [unfold remove; by rewrite list_elem_of_filter|].
      split; [|by intros [_ ?]]. intros Hin. split; [|done]. intros ->.
      apply (runq_member _ _ _ _ _ Hb Hor) in Hin as (x & Hx & _ & _ & Hcl). congruence.
    - case_decide; [rewrite list_elem_of_singleton; tauto|]. rewrite elem_of_nil. tauto. }
  destruct Hb as [Hnd Hq Hth Hm Hc0 Hcur Hidl (a & Ea & Hdue & Hev) Htid].
  assert (forall p, (forall c, p <> PRun c) -> qlist s' p = qlist s p) as Eqw.
  { intros [c| | |] Hp; [by destruct (Hp c)|..]; simpl; by rewrite ?Em, ?Ec, ?Es. }
  split.
  - intros [c| | |]; [|rewrite Eqw by done; apply Hnd..].
    simpl. rewrite Eq. apply list.NoDup_app. specialize (Hnd (PRun c)). simpl in Hnd. split; [|split].
    + case_decide; [by apply list.NoDup_filter|done].
    + intros t Ht. destruct (decide (awake oth /\ c = runq_class oth)); [|apply not_elem_of_nil].
      intros ->%list_elem_of_singleton. apply (Hold c).
      case_decide; [by apply list_elem_of_filter in Ht as [_ ?]|done].
    + case_decide; [apply NoDup_singleton|constructor].
  - intros p t. rewrite Ets, Ecur. specialize (Hq p t). destruct p as [c|m|c|x].
    2-4: rewrite Eqw, Hq by done; split; intros (y & Hy & Hp); exists y; (split; [done|]);
      eapply (place_switch over (current s) next oth nth); try done; congruence.
    change (qlist s' (PRun c)) with (runq c s'). rewrite Hrun. split.
    + intros [[Hn Hin]|(-> & Hw & ->)].
      * apply Hq in Hin as (y & Hy & Hp). exists y. split; [done|]. rewrite place_of_ne by done.
        unfold place_of in Hp. case_decide; [by apply Hor in Hp|done].
      * exists oth. split; [done|]. rewrite place_of_ne by auto. by rewrite decide_True.
    + intros (y & Hy & Hp). destruct (decide (t = next)) as [->|Hn]; [by rewrite place_of_cur in Hp|].
      rewrite place_of_ne in Hp by done. destruct (decide (t = current s)) as [->|Ho].
      * right. rewrite Hoth in Hy. injection Hy as <-. case_decide; [by simplify_eq|by apply wait_place_run in Hp].
      * left. split; [done|]. apply Hq. exists y. split; [done|]. by rewrite place_of_ne.
  - intros t th. rewrite Ets, Em, Es, Eidl. apply Hth.
  - intros m mi. rewrite Em, Ets. apply Hm.
  - by rewrite Ec.
  - rewrite Ecur, Ets. eauto.
  - by rewrite Eidl, Ets.
  - exists a. rewrite Ee, Ets. auto.
  - by rewrite Etid.
Qed.

(** The current thread may be switched off: it is where it waits, and [lk] is
    released once it is off. *)
Record may_switch (over : option place) (lk : option lockid) (oth : thread) (s : kernel) : Prop := {
  ms_base : base over [] s;
  ms_cur : ts s !! current s = Some oth;
  ms_over : (awake oth -> over = None /\ lk = None) /\ (~ awake oth -> over = wait_place (kont oth));
  ms_sw : sw_unlock oth = lk;
  ms_lk : lk <> Some SchedLock;
  ms_locks : locks s = option_list lk;
  ms_others : forall t th, t <> current s -> ts s !! t = Some th -> sw_unlock th = None }.

(** The time of the thread that is switched off is cut by one, then the next one
    is selected. *)
Definition switched (over : option place) (oth : thread) (s s' : kernel) : Prop :=
  cnt_thread_sw s' = cnt_thread_sw s + 1 /\ idlest s' = idlest s /\
  exists s2 s3, ts s2 = <[current s := set_ticks (ticks_left oth - 1) (set_sw_unlock None oth)]> (ts s)
    /\ runq_rt s2 = runq_rt s /\ runq_norm s2 = runq_norm s /\ current s2 = current s
    /\ selected over [] s2 s3 (current s') /\ ts s' = ts s3.

Lemma may_switch_not_run over lk oth s : may_switch over lk oth s -> not_run over.
Proof.
  intros Hm c. destruct (ms_over _ _ _ _ Hm) as [Ho1 Ho2].
  destruct (decide (awake oth)); [by destruct Ho1 as [-> _]|]. rewrite Ho2 by done. apply wait_place_run.
Qed.

Lemma we_dequeue t th s Q :
  ts s !! t = Some th -> t ∈ runq (runq_class th) s ->
  Q tt (set_runq (runq_class th) (remove t (runq (runq_class th) s)) s) -> we (t_dequeue_runq t) s Q.
Proof.
  intros Ht Hin HQ. apply wpe_bind. eapply we_get_t; [done|]. apply wpe_bind, we_on_runq.
  apply wpe_bind, we_assert; [by apply bool_decide_eq_true_2|]. apply wpe_bind, we_gets. by apply we_modify.
Qed.

Lemma locks_released lk :
  lk <> Some SchedLock -> SchedLock ∉ option_list lk
  /\ match lk with Some l => filter (fun x => x <> l) (SchedLock :: option_list lk) = [SchedLock] | None => True end.
Proof.
  intros Hl. destruct lk as [l|]; simpl; [|split; [apply not_elem_of_nil|done]].
  split; [intros <-%list_elem_of_singleton; done|].
  rewrite filter_cons_True by congruence. by rewrite filter_cons_False by auto.
Qed.

(** The part of the switch after the selection. *)
Lemma switch_rest over lk s3 next oth :
  base over [] s3 -> not_run over -> ts s3 !! current s3 = Some oth ->
  (awake oth -> over = None /\ lk = None) -> (~ awake oth -> over = wait_place (kont oth)) ->
  (exists nth, ts s3 !! next = Some nth /\ awake nth) -> (next = current s3 -> awake oth) ->
  lk <> Some SchedLock -> locks s3 = SchedLock :: option_list lk ->
  (forall t th, ts s3 !! t = Some th -> sw_unlock th = None) ->
  we ((if next =? current s3 then mret tt
       else t_dequeue_runq next;;
            oth ← get_t (current s3);
            (if sleep_flags oth =? 0 then t_enqueue_runq (current s3) else mret tt);;
            modify (set_current next);;
            hal_spin_unlock lk);;
      hal_spin_unlock (Some SchedLock)) s3
    (fun _ s' => inv s' /\ current s' = next /\ ts s' = ts s3 /\ cnt_thread_sw s' = cnt_thread_sw s3 /\ idlest s' = idlest s3).
Proof.
  intros Hb Hor Hoth Ho Ho' (nth & Hnth & Hnw) Hself Hlk Hlocks Hsw. destruct (locks_released lk Hlk) as [Hsl Hrel].
  apply wpe_bind. destruct (Z.eqb_spec next (current s3)) as [->|Hne].
  - destruct (Ho (Hself eq_refl)) as [-> ->]. apply wpe_ret. simpl in Hlocks. apply we_unlock; [rewrite Hlocks; by left|].
    split; [|repeat split]. split; [by apply (base_core _ _ s3)| |done|].
    + simpl. rewrite Hlocks. by rewrite filter_cons_False by auto.
    + simpl. rewrite Hoth. intros th [= <-]. auto.
  - apply wpe_bind. eapply we_dequeue; [done| |].
    { apply (runq_member _ _ _ _ _ Hb Hor). by exists nth. }
    apply wpe_bind. eapply we_get_t; [done|]. apply wpe_bind. set (s4 := set_runq _ _ s3).
    assert (forall Q : unit -> kernel -> Prop, (forall s5, ts s5 = ts s3 -> current s5 = current s3 -> idlest s5 = idlest s3 ->
        last_tid s5 = last_tid s3 -> mutexes s5 = mutexes s3 -> conds s5 = conds s3 -> sems s5 = sems s3 ->
        events s5 = events s3 -> locks s5 = locks s3 -> cnt_thread_sw s5 = cnt_thread_sw s3 ->
        (forall c, runq c s5 = (if decide (c = runq_class nth) then remove next (runq c s3) else runq c s3)
                          ++ (if decide (awake oth /\ c = runq_class oth) then [current s3] else [])) -> Q tt s5) ->
      we (if sleep_flags oth =? 0 then t_enqueue_runq (current s3) else mret tt) s4 Q) as Henq.
    { intros Q HQ. assert (forall c, runq c s4 = if decide (c = runq_class nth) then remove next (runq c s3) else runq c s3) as E4.
      { intros c. unfold s4. destruct (runq_class nth), c; by rewrite ?decide_True, ?decide_False by done. }
      destruct (Z.eqb_spec (sleep_flags oth) 0) as [Hw|Hw].
      - eapply we_enqueue; [done| |apply HQ; try done; intros c].
        + intros c. rewrite E4. intros Hin. assert (current s3 ∈ runq c s3) as Hin'.
          { case_decide; [by apply list_elem_of_filter in Hin as [_ ?]|done]. }
          apply (runq_member _ _ _ _ _ Hb Hor) in Hin' as (x & _ & Hx & _). done.
        + rewrite <-E4. destruct (decide (awake oth /\ c = runq_class oth)) as [[_ ->]|Hc].
          * by destruct (runq_class oth).
          * rewrite app_nil_r. assert (c <> runq_class oth) as Hc' by tauto. by destruct (runq_class oth), c.
      - apply wpe_ret. apply HQ; try done. intros c. rewrite <-E4, decide_False by tauto. by rewrite app_nil_r. }
    apply Henq. clear Henq. intros s5 E1 E2 E3 E4 E5 E6 E7 E8 E9 E10 Eq. apply wpe_bind, we_modify.
    assert (base None [] (set_current next s5)) as Hb5.
    { eapply (base_switch over s3 _ next oth nth); try done; naive_solver. }
    assert (forall ls, ls = [] -> inv (set_locks ls (set_current next s5))) as Hinv.
    { intros ls ->. split; [by apply (base_core _ _ (set_current next s5))|done| |]; simpl; rewrite E1; [done|]. intros th. congruence. }
    destruct lk as [l|].
    + apply we_unlock; [simpl; rewrite E9, Hlocks; right; by left|]. simpl. rewrite E9, Hlocks, Hrel.
      apply we_unlock; [simpl; by left|]. split; [|repeat split; simpl; congruence]. apply Hinv. simpl. by rewrite filter_cons_False by auto.
    + apply wpe_ret. simpl in Hlocks. apply we_unlock; [simpl; rewrite E9, Hlocks; by left|]. split; [|repeat split; simpl; congruence].
      apply Hinv. simpl. rewrite E9, Hlocks. by rewrite filter_cons_False by auto.
Qed.

Lemma switch_ok over lk oth s :
  may_switch over lk oth s -> we phantom_thread_switch s (fun _ s' => inv s' /\ switched over oth s s').
Proof.
  intros Hms. pose proof (may_switch_not_run _ _ _ _ Hms) as Hor.
  destruct Hms as [Hb Hoth [Ho Ho'] Hsw Hlk Hlocks Hothers]. unfold phantom_thread_switch.
  apply wpe_bind, we_modify. apply wpe_bind. eapply we_cur_t; [done|]. rewrite Hsw.
  rewrite !bool_decide_eq_false_2 by done. apply wpe_bind. destruct (locks_released lk Hlk) as [Hsl _].
  apply wpe_bind, we_lock; [simpl; by rewrite Hlocks|]. eapply we_upd_cur; [done|].
  apply wpe_bind. eapply we_upd_cur; [simpl; by rewrite lookup_insert_eq|]. simpl. rewrite insert_insert_eq.
  match goal with |- wpe _ _ ?x _ => set (s2 := x) end.
  assert (base over [] s2) as Hb2.
  { apply (base_core _ _ (set_threads (<[current s := set_ticks (ticks_left oth - 1) (set_sw_unlock None oth)]> (ts s)) s)); [done|].
    pose proof (b_thread _ _ _ Hb _ _ Hoth) as Hok. eapply base_upd; [done|done|by split; auto|].
    pose proof (t_ticks _ _ _ _ _ Hok). destruct Hok. split; try done. simpl. lia. }
  apply wpe_bind. eapply wpe_mono; [apply (select_spec over []); [done|done|simpl; by left]|].
  intros next s3 Hsel. pose proof (sel_base _ _ _ _ _ Hsel) as Hb3. pose proof (sel_ticks _ _ _ _ _ Hsel) as Hot.
  destruct (sel_state _ _ _ _ _ Hsel) as (m' & q' & Es3 & _).
  apply wpe_bind, we_gets. destruct (sel_next _ _ _ _ _ Hsel) as (nth & Hnth & Hnw).
  apply wpe_bind. eapply we_get_t; [done|]. apply wpe_bind, we_assert; [by apply Z.eqb_eq|].
  destruct (only_ticks_lookup _ _ (current s) (set_ticks (ticks_left oth - 1) (set_sw_unlock None oth)) Hot) as [k Hk].
  { simpl. by rewrite lookup_insert_eq. }
  replace (current s) with (current s3) in Hk by (by rewrite Es3).
  eapply wpe_mono; [eapply (switch_rest over lk s3 next)|].
  - done.
  - done.
  - exact Hk.
  - exact Ho.
  - exact Ho'.
  - eauto.
  - intros ->. pose proof (sel_self _ _ _ _ _ Hsel) as Hs. rewrite Es3 in Hs. specialize (Hs eq_refl). simpl in Hs.
    pose proof (b_thread _ _ _ Hb _ _ Hoth) as Hok. by destruct (t_idlest _ _ _ _ _ Hok Hs) as (_ & ? & _).
  - done.
  - rewrite Es3. simpl. by rewrite Hlocks.
  - intros t th Ht. specialize (Hot t). rewrite Ht in Hot. destruct (ts s2 !! t) as [x|] eqn:Hx; [|done]. rewrite Hot.
    simpl. simpl in Hx. apply lookup_insert_Some in Hx as [[<- <-]|[Hne Hx]]; [done|by eapply Hothers].
  - simpl. intros _ s' (Hinv & Ecur & Ets & Ecnt & Eidl). split; [done|]. rewrite Es3 in Ecnt, Eidl. split; [done|]. split; [done|].
    exists s2, s3. rewrite Ecur. auto 10.
Qed.

(** ** The soft interrupt, and blocking *)

Lemma inv_may_switch s th : inv s -> ts s !! current s = Some th -> may_switch None None th s.
Proof.
  intros [Hb Hl Hsw Hr] Hth. split; try done.
  - split; [done|]. intros Hw. destruct Hw. by apply Hr.
  - by eapply Hsw.
  - intros. by eapply Hsw.
Qed.

Lemma soft_interrupt_ok over lk th s :
  may_switch over lk th s ->
  (awake th -> inv s) ->
  we phantom_scheduler_soft_interrupt s (fun _ s' => inv s' /\ (s' = s \/ switched over th s s')).
Proof.
  intros Hms Hi. pose proof (ms_cur _ _ _ _ Hms) as Hth. unfold phantom_scheduler_soft_interrupt.
  apply wpe_bind. eapply we_cur_t; [done|]. apply wpe_bind, wpe_bind. eapply we_cur_t; [done|]. apply wpe_ret.
  apply wpe_bind, we_gets. destruct (_ && _) eqn:E.
  - apply andb_prop in E as [Ew%Z.eqb_eq _]. apply wpe_ret. auto.
  - eapply wpe_mono; [by eapply switch_ok|]. simpl. intros _ s' [? ?]. auto.
Qed.

(** A thread goes to sleep: its timed call is queued, if it has one. *)
Lemma events_ok_block evs evs' m t th th' :
  events_ok evs m -> m !! t = Some th -> awake th -> ~ awake th' ->
  evs' ≡ₚ evs \/ (exists e, evs' ≡ₚ e :: evs /\ tc_at e = t /\ event_for th' e) ->
  (evs' ≡ₚ evs -> timed_f (kont th') = 0) ->
  events_ok evs' (<[t := th']> m).
Proof.
  intros He Ht Hw Hw' Hevs Hz. pose proof (events_ok_none _ _ _ _ He Ht (or_introl Hw)) as Hfresh.
  destruct He as [Hn Hs Hc]. split.
  - destruct Hevs as [->|(e & -> & <- & _)]; [done|]. rewrite fmap_cons. by apply list.NoDup_cons.
  - assert (forall e, e ∈ evs -> exists x, <[t := th']> m !! tc_at e = Some x /\ event_for x e) as Hold.
    { intros e He. destruct (Hs e He) as (x & Hx & Hev). exists x. split; [|done].
      rewrite lookup_insert_ne; [done|]. intros ->. apply Hfresh. by apply list_elem_of_fmap_2. }
    intros e. destruct Hevs as [->|(e' & -> & <- & Hev)]; [auto|]. intros [->|Hin]%elem_of_cons; [|auto].
    exists th'. by rewrite lookup_insert_eq.
  - intros t' x Hx Hnw Hf. apply lookup_insert_Some in Hx as [[<- <-]|[Hne Hx]].
    + destruct Hevs as [E|(e & -> & <- & _)]; [by rewrite Hz in Hf|]. by left.
    + specialize (Hc _ _ Hx Hnw Hf). destruct Hevs as [->|(e & -> & _)]; [done|]. by right.
Qed.

Lemma we_request_wake over s t th f msec Q :
  base over [] s -> ts s !! t = Some th -> awake th ->
  (forall a', due_ok (due a') ->
     (forall th', ~ awake th' -> timed_f (kont th') = f -> f <> 0 -> events_ok (due a').*2 (<[t := th']> (ts s))) ->
     Q tt (set_events (queue_of a') s)) ->
  we (request_wake t f msec) s Q.
Proof.
  intros Hb Ht Hw HQ. destruct (b_events _ _ _ Hb) as (a & Ea & Hdue & Hev). simpl in Hev.
  pose proof (events_ok_none _ _ _ _ Hev Ht (or_introl Hw)) as Hfresh.
  set (e := sleep_event t f msec). eapply we_timed.
  { unfold phantom_request_timed_call. rewrite Ea. apply do_request_run. done. }
  apply (HQ (request e TIMEDCALL_FLAG_CHECKLOCK a)).
  - apply due_ok_put; [done| |done]. repeat split; simpl; try lia. done.
  - intros th' Hw' Hf Hf0. eapply events_ok_block; [done|done|done|done| |].
    + right. exists (requested e TIMEDCALL_FLAG_CHECKLOCK). split; [simpl; by rewrite put_due_perm|].
      split; [done|]. repeat split; simpl; congruence.
    + intros Hp%Permutation_length. rewrite !length_fmap in Hp. simpl in Hp. rewrite put_due_perm in Hp. simpl in Hp. lia.
Qed.

Lemma base_block s s' k th' :
  base (wait_place k) [] s -> (forall th, ts s !! current s = Some th -> awake th) ->
  ts s' = <[current s := th']> (ts s) ->
  core s' = core (set_events (events s') (set_threads (ts s') s)) ->
  thread_ok (mutexes s) (sems s) (idlest s) (current s) th' ->
  (exists a, events s' = queue_of a /\ due_ok (due a) /\ events_ok (due a).*2 (ts s')) ->
  base (wait_place k) [] s'.
Proof.
  intros Hb Hw Ets Ecore Hok Hev. destruct (b_cur _ _ _ Hb) as [th Hth].
  eapply base_core; [symmetry; exact Ecore|]. destruct Hb as [Hnd Hq Ht Hm Hc Hcur Hidl _ Htid].
  split; try done.
  - intros p t. change (qlist _ p) with (qlist s p). simpl. rewrite Hq, Ets.
    destruct (decide (t = current s)) as [->|Hne].
    + rewrite lookup_insert_eq, Hth. split; intros (x & [= <-] & Hp); rewrite place_of_cur in Hp; eexists; (split; [done|]); by rewrite place_of_cur.
    + rewrite lookup_insert_ne by auto. done.
  - simpl. rewrite Ets. intros t x [[<- <-]|[_ Hx]]%lookup_insert_Some; [done|by apply Ht].
  - simpl. rewrite Ets. intros m mi Hmi. destruct (Hm m mi Hmi) as [H1 H2]. split; [done|]. intros Ho.
    apply lookup_insert_is_Some'. auto.
  - simpl. rewrite Ets. apply lookup_insert_is_Some'. auto.
  - simpl. rewrite Ets. apply lookup_insert_is_Some'. auto.
Qed.

(** The thread as it is when it is switched off. *)
Definition blocked (l : lockid) (k : cont) (th : thread) : thread :=
  set_sw_unlock (Some l) (set_kont k (set_sleep (wait_flag k) th)).

Lemma blocked_asleep l k th : k <> KRun -> ~ awake (blocked l k th).
Proof. unfold awake, blocked. simpl. by destruct k. Qed.

Definition block_state (l : lockid) (k : cont) (th : thread) (s : kernel) : kernel :=
  set_resched true (set_threads (<[current s := blocked l k th]> (ts s)) s).

(** [s0] is the state before the timed call was requested. *)
Lemma thread_block_ok s0 s th l k Q :
  base (wait_place k) [] s0 -> s = set_events (events s) (set_locks (locks s) s0) ->
  ts s !! current s = Some th -> awake th -> locks s = [l] -> l <> SchedLock -> k <> KRun ->
  thread_ok (mutexes s) (sems s) (idlest s) (current s) (blocked l k th) ->
  (forall t x, t <> current s -> ts s !! t = Some x -> sw_unlock x = None) ->
  (exists a, events s = queue_of a /\ due_ok (due a)
     /\ events_ok (due a).*2 (<[current s := blocked l k th]> (ts s))) ->
  (forall s', inv s' -> switched (wait_place k) (blocked l k th) (block_state l k th s) s' -> Q tt s') ->
  we (thread_block (wait_flag k) l k) s Q.
Proof.
  intros Hb Es Hth Hw Hl Hls Hk Hok Hsw Hev HQ. unfold thread_block.
  apply wpe_bind, we_assert; [by rewrite bool_decide_eq_false_2|].
  apply wpe_bind, we_lock; [rewrite Hl; by intros ?%list_elem_of_singleton|].
  apply wpe_bind, we_gets. apply wpe_bind, we_assert; [simpl; by rewrite Hl|].
  apply wpe_bind. eapply we_upd_cur; [done|]. apply wpe_bind, we_unlock; [simpl; by left|].
  apply wpe_bind. eapply we_upd_cur; [simpl; by rewrite lookup_insert_eq|]. apply wpe_bind, we_modify.
  simpl. rewrite insert_insert_eq, filter_unlock by (rewrite Hl; by intros ?%list_elem_of_singleton).
  unfold awake in Hw. rewrite Hw. change (Z.lor 0 (wait_flag k)) with (wait_flag k).
  change (wpe misuse phantom_scheduler_request_soft_irq (block_state l k th s) Q).
  assert (may_switch (wait_place k) (Some l) (blocked l k th) (block_state l k th s)) as Hms.
  { assert (core (block_state l k th s) = core (set_events (events s) (set_threads (<[current s := blocked l k th]> (ts s)) s0))) as Ec
      by (rewrite Es; done).
    split.
    - eapply (base_block s0); [done| | | | |].
      + rewrite Es in Hth. simpl in Hth. intros x. congruence.
      + rewrite Es. done.
      + rewrite Es. done.
      + rewrite Es in Hok. done.
      + done.
    - simpl. by rewrite lookup_insert_eq.
    - split; [|done]. by intros ?%blocked_asleep.
    - done.
    - congruence.
    - done.
    - simpl. intros t x Hne. rewrite lookup_insert_ne by auto. by apply Hsw. }
  eapply wpe_mono; [eapply soft_interrupt_ok; [done|]; by intros ?%blocked_asleep|].
  simpl. intros [] s' [Hi [->|Hs]]; [|auto].
  exfalso. apply (blocked_asleep l k th); [done|]. apply (i_run _ Hi). simpl. by rewrite lookup_insert_eq.
Qed.

(** ** What an operation does to the time of threads *)

(** No switch: nobody gets time, and the threads that do not run stay as they are
    or are woken. *)
Record quiet (s s' : kernel) : Prop := {
  q_cur : current s' = current s;
  q_cnt : cnt_thread_sw s' = cnt_thread_sw s;
  q_old : forall t th, ts s !! t = Some th -> exists th', ts s' !! t = Some th'
    /\ ticks_left th' <= ticks_left th
    /\ (t <> current s -> ticks_left th' = ticks_left th /\ priority th' = priority th /\ (awake th -> awake th'));
  q_new : forall t th', ts s' !! t = Some th' -> ts s !! t = None ->
    ticks_left th' = 0 /\ is_realtime (priority th') = false }.

Lemma quiet_id s : quiet s s.
Proof. split; [done|done| |congruence]. intros t th Ht. exists th. by repeat split. Qed.

Lemma quiet_same s0 s s' :
  quiet s0 s -> ts s' = ts s -> current s' = current s -> cnt_thread_sw s' = cnt_thread_sw s -> quiet s0 s'.
Proof. intros [] E1 E2 E3. split; rewrite ?E1, ?E2, ?E3; done. Qed.

Lemma quiet_upd s0 s t th th' :
  quiet s0 s -> ts s !! t = Some th -> ticks_left th' <= ticks_left th ->
  (t <> current s -> ticks_left th' = ticks_left th /\ priority th' = priority th /\ (awake th -> awake th')) ->
  (ts s0 !! t = None -> ticks_left th' = 0 /\ is_realtime (priority th') = false) ->
  quiet s0 (set_threads (<[t := th']> (ts s)) s).
Proof.
  intros [Ec En Ho Hn] Ht Hk Hp Hz. split; [done|done| |]; simpl.
  - intros t' x Hx. destruct (Ho _ _ Hx) as (y & Hy & Hyk & Hyp). destruct (decide (t' = t)) as [->|Hne].
    + exists th'. rewrite lookup_insert_eq. rewrite Ht in Hy. injection Hy as <-. split; [done|]. split; [lia|].
      intros Hnc. rewrite <-Ec in Hnc. destruct (Hp Hnc) as (? & ? & ?), (Hyp ltac:(congruence)) as (? & ? & ?). split; [congruence|]. split; [congruence|auto].
    + exists y. by rewrite lookup_insert_ne.
  - intros t' x [[<- <-]|[Hne Hx]]%lookup_insert_Some; [done|]. by eapply Hn.
Qed.

(** After an operation: no switch, or one at the end. *)
Definition after (s s' : kernel) : Prop :=
  quiet s s' \/ exists over oth s1, quiet s s1 /\ base over [] s1 /\ not_run over
    /\ ts s1 !! current s1 = Some oth /\ switched over oth s1 s'
    /\ (forall th, ts s !! current s = Some th -> priority oth = priority th).

(** ** A thread that runs *)

(** The current thread is in the middle of an operation that began in [s0]. *)
Record running (s0 : kernel) (over : option place) (s : kernel) (th : thread) : Prop := {
  r_base : base over [] s;
  r_cur : ts s !! current s = Some th;
  r_awake : awake th;
  r_kont : kont th = KRun;
  r_sw : forall t x, ts s !! t = Some x -> sw_unlock x = None;
  r_quiet : quiet s0 s;
  r_prio : forall x, ts s0 !! current s0 = Some x -> priority th = priority x;
  r_was : is_Some (ts s0 !! current s0) }.

Lemma inv_running s th : inv s -> ts s !! current s = Some th -> kont th = KRun -> running s None s th.
Proof. intros [Hb _ Hsw Hr] Ht Hk. split; eauto using quiet_id. intros x. rewrite Ht. by intros [= <-]. Qed.

Section Running.
Context (s0 : kernel).

Lemma running_inv s th : running s0 None s th -> locks s = [] -> inv s /\ after s0 s.
Proof. intros [Hb Hc Hw Hk Hsw Hq _ _] Hl. split; [|by left]. split; auto. intros x. rewrite Hc. by intros [= <-]. Qed.

Lemma running_core over s s' th : core s = core s' -> cnt_thread_sw s' = cnt_thread_sw s -> running s0 over s th -> running s0 over s' th.
Proof.
  intros E En [Hb Hc Hw Hk Hsw Hq Hp Hs]. pose proof (base_core _ _ _ _ E Hb). unfold core in E.
  injection E as E1 _ E3 _ _ _ _ _ _ _ _. split; rewrite <-?E1, <-?E3; try done. by apply (quiet_same s0 s).
Qed.

(** The fields of [th'] that matter are those of a running thread. *)
Record run_like (th th' : thread) : Prop := {
  l_prio : priority th' = priority th;
  l_ticks : ticks_left th' = ticks_left th;
  l_sleep : sleep_flags th' = sleep_flags th;
  l_sched : no_schedule th' = no_schedule th;
  l_kont : kont th' = KRun;
  l_sw : sw_unlock th' = sw_unlock th;
  l_preempt : 0 <= preemption_disabled th' }.

Lemma run_like_ok ms ss ms' ss' idl t th th' :
  thread_ok ms ss idl t th -> awake th -> run_like th th' -> thread_ok ms' ss' idl t th'.
Proof.
  intros [Htid Hp Ht _ _ _ Hpd Hi Hil] Hw [Ep Et Es En Ek Esw Hpd'].
  assert (awake th') as Hw' by (unfold awake in *; congruence).
  split; try done; rewrite ?Ep, ?Et, ?En; try done.
  - unfold kont_ok. by rewrite Ek.
  - intros Hx. by destruct (Hil Hx) as (? & _ & _).
Qed.

Lemma running_upd over s th th' :
  running s0 over s th -> run_like th th' ->
  running s0 over (set_threads (<[current s := th']> (ts s)) s) th'.
Proof.
  intros [Hb Hc Hw Hk Hsw Hq Hp Hs] Hl. pose proof (b_thread _ _ _ Hb _ _ Hc) as Hok. split.
  - eapply base_upd; [done|done| |by eapply run_like_ok]. destruct Hl. split; [done|by left|done].
  - simpl. by rewrite lookup_insert_eq.
  - unfold awake in *. by rewrite (l_sleep _ _ Hl).
  - apply Hl.
  - simpl. intros t x [[<- <-]|[_ Hx]]%lookup_insert_Some; [|by eapply Hsw]. rewrite (l_sw _ _ Hl). by eapply Hsw.
  - apply (quiet_upd _ _ _ th); [done|done|rewrite (l_ticks _ _ Hl); done|done|].
    intros Hn. rewrite (q_cur _ _ Hq) in Hn. rewrite Hn in Hs. by destruct Hs.
  - rewrite (l_prio _ _ Hl). done.
  - done.
Qed.

Lemma running_ok over s th : running s0 over s th -> thread_ok (mutexes s) (sems s) (idlest s) (current s) th.
Proof. intros Hr. eapply b_thread; apply Hr. Qed.
Lemma running_preempt over s th : running s0 over s th -> 0 <= preemption_disabled th.
Proof. intros Hr. apply (running_ok _ _ _ Hr). Qed.

Lemma we_run_disable over s th Q :
  running s0 over s th ->
  (forall s' th', running s0 over s' th' -> th' = set_preempt (preemption_disabled th + 1) th ->
     s' = set_threads (<[current s := th']> (ts s)) s -> Q tt s') ->
  we hal_disable_preemption s Q.
Proof.
  intros Hr HQ. pose proof (running_preempt _ _ _ Hr) as Hp.
  eapply we_disable; [apply Hr|done|]. eapply HQ; [|done|done].
  apply (running_upd _ _ th); [done|]. split; simpl; try done; [apply Hr|lia].
Qed.

Lemma we_run_enable over s th Q :
  running s0 over s th -> 0 < preemption_disabled th ->
  (forall s' th', running s0 over s' th' -> th' = set_preempt (preemption_disabled th - 1) th ->
     s' = set_threads (<[current s := th']> (ts s)) s -> Q tt s') ->
  we hal_enable_preemption s Q.
Proof.
  intros Hr Hp HQ. eapply we_enable; [apply Hr|done|]. eapply HQ; [|done|done].
  apply (running_upd _ _ th); [done|]. split; simpl; try done; [apply Hr|lia].
Qed.

Lemma we_run_upd over s th f Q :
  running s0 over s th -> run_like th (f th) ->
  (forall s', running s0 over s' (f th) -> s' = set_threads (<[current s := f th]> (ts s)) s -> Q tt s') ->
  we (upd_cur f) s Q.
Proof.
  intros Hr Hl HQ. eapply we_upd_cur; [apply Hr|]. apply HQ; [|done]. by apply (running_upd _ _ th).
Qed.

(** The end of an operation. *)
Lemma we_op_return rc s th :
  running s0 None s th -> locks s = [] -> we (op_return rc) s (fun _ s' => inv s' /\ after s0 s').
Proof.
  intros Hr Hl. eapply we_run_upd; [done| |].
  { split; simpl; try done; [apply Hr|by eapply running_preempt]. }
  intros s' Hr' ->. by eapply running_inv.
Qed.
End Running.

(** ** Changes of mutexes, conditions and semaphores *)

Definition with_sync (ms : gmap Z mutex) (cs : gmap Z (list Z)) (ss : gmap Z sem) (s : kernel) : kernel :=
  set_mutexes ms (set_conds cs (set_sems ss s)).

Lemma thread_ok_kont ms ss ms' ss' idl t th :
  thread_ok ms ss idl t th -> (kont_ok ms ss t th -> kont_ok ms' ss' t th) -> thread_ok ms' ss' idl t th.
Proof. intros [] Hk. split; auto. Qed.

(** The queues stay, or the current thread enters the queue [p]. *)
Lemma base_sync over over' pend s s' :
  base over pend s ->
  core s' = core (with_sync (mutexes s') (conds s') (sems s') s) ->
  (over' = over /\ (forall p, qlist s' p = qlist s p)
   \/ exists p, over = None /\ over' = Some p /\ forall p', qlist s' p' = if decide (p' = p) then qlist s p' ++ [current s] else qlist s p') ->
  (forall t th, ts s !! t = Some th -> kont_ok (mutexes s) (sems s) t th -> kont_ok (mutexes s') (sems s') t th) ->
  (forall m mi, mutexes s' !! m = Some mi -> mutex_ok (ts s) mi) ->
  conds s' !! 0 = None ->
  base over' pend s'.
Proof.
  intros [Hnd Hq Ht Hm Hc Hcur Hidl Hev Htid] Ecore Hql Hk Hm' Hc'. unfold core in Ecore.
  injection Ecore as E1 E2 E3 E4 E5 E6 E7 E8. simpl in *.
  assert (forall p, ~ (over = None /\ current s ∈ qlist s p)) as Hno.
  { intros p [-> Hin]. apply Hq in Hin as (x & _ & Hx). by rewrite place_of_cur in Hx. }
  split; rewrite ?E1, ?E2, ?E3, ?E4, ?E8; try done.
  - intros p. destruct Hql as [[_ ->]|(p0 & Ho & _ & ->)]; [done|]. case_decide; [|done].
    apply list.NoDup_app. split; [done|]. split; [|apply NoDup_singleton].
    intros t Hin ->%list_elem_of_singleton. by apply (Hno p).
  - intros p t. destruct Hql as [[-> ->]|(p0 & Ho & -> & ->)]; [done|].
    destruct (decide (t = current s)) as [->|Hne].
    + destruct Hcur as [cth Hcth]. transitivity (p = p0).
      * case_decide as Hp; [split; [done|]; intros _; apply elem_of_app; right; by left|].
        split; [|done]. intros Hin. by destruct (Hno p).
      * rewrite Hcth. split; [intros ->; exists cth; by rewrite place_of_cur|].
        intros (x & _ & Hx). rewrite place_of_cur in Hx. congruence.
    + transitivity (t ∈ qlist s p).
      * case_decide; [|done]. rewrite elem_of_app, list_elem_of_singleton. tauto.
      * rewrite Hq. split; intros (x & Hx & Hp); exists x; (split; [done|]); rewrite place_of_ne in * by done; done.
  - intros t th Hth. eapply thread_ok_kont; [by apply Ht|]. by apply Hk.
Qed.

Lemma kont_ok_mono ms ss ms' ss' t th :
  (forall m mi, ms !! m = Some mi -> exists mi', ms' !! m = Some mi' /\ owner mi' = owner mi) ->
  (forall x, is_Some (ss !! x) -> is_Some (ss' !! x)) ->
  kont_ok ms ss t th -> kont_ok ms' ss' t th.
Proof.
  intros Hm Hs. assert (forall m, is_Some (ms !! m) -> is_Some (ms' !! m)) as Hm'.
  { intros m [mi Hmi]. destruct (Hm m mi Hmi) as (x & -> & _). eauto. }
  unfold kont_ok. destruct (kont th); try done; try (intros [H1 H2]; split; auto).
  intros Ho Hw. destruct (Ho Hw) as (mi & Hmi & Eo). destruct (Hm _ _ Hmi) as (mi' & Hmi' & Eo').
  exists mi'. split; congruence.
Qed.

(** One mutex is changed and keeps its owner, or nobody is about to own it. *)
Lemma kont_ok_mutex ms ss m mi mi' t th :
  ms !! m = Some mi -> owner mi' = owner mi \/ (awake th -> forall rc, kont th <> KMutex m rc) ->
  kont_ok ms ss t th -> kont_ok (<[m := mi']> ms) ss t th.
Proof.
  intros Hm Ho. assert (forall m', is_Some (ms !! m') -> is_Some (<[m := mi']> ms !! m')) as Hm'.
  { intros m' H. apply lookup_insert_is_Some'. auto. }
  unfold kont_ok. destruct (kont th) as [|m0 rc| | | | |] eqn:Ek; try done; try (intros [H1 H2]; split; auto).
  intros Hx Hw. destruct (Hx Hw) as (x & Hx' & Ex). destruct (decide (m0 = m)) as [->|Hne].
  - exists mi'. rewrite lookup_insert_eq. split; [done|]. destruct Ho as [->|Hn]; [congruence|]. by destruct (Hn Hw rc).
  - exists x. by rewrite lookup_insert_ne.
Qed.

Lemma running_sync s0 over over' s s' th :
  running s0 over s th -> base over' [] s' -> ts s' = ts s -> current s' = current s ->
  cnt_thread_sw s' = cnt_thread_sw s -> running s0 over' s' th.
Proof.
  intros [Hb Hc Hw Hk Hsw Hq Hp Hs] Hb' E1 E2 E3. split; rewrite ?E1, ?E2; try done. by apply (quiet_same s0 s).
Qed.

Lemma cur_not_queued s p : base None [] s -> current s ∉ qlist s p.
Proof. intros Hb Hin. apply Hb in Hin as (x & _ & Hx). by rewrite place_of_cur in Hx. Qed.
