(* ===== verification/ThreadsOps.v ===== *)
(** * Every operation of the threads keeps the invariant *)

From S2P Require Import Prelude Timers Threads ThreadsInv.

(** ** Blocking of the running thread *)

(** What is needed to wait with [k]. *)
Definition may_wait (s : kernel) (th : thread) (k : cont) : Prop :=
  k <> KRun /\ current s <> idlest s /\ (k <> KSleep -> priority th <> 0) /\ 0 < preemption_disabled th
  /\ match k with
     | KCond c m | KCondTimed c m => is_Some (mutexes s !! m) /\ waitcond th = c
     | KSem x | KSemEtc x _ _ _ => is_Some (sems s !! x) /\ waitsem th = x
     | _ => True
     end.

Lemma blocked_ok s0 over s th l k :
  running s0 over s th -> may_wait s th k ->
  thread_ok (mutexes s) (sems s) (idlest s) (current s) (blocked l k th).
Proof.
  intros Hr (Hk & Hi & Hp & Hpd & Hx). destruct (running_ok _ _ _ _ Hr). split; simpl; try done.
  - unfold kont_ok. simpl. destruct k; try (by intros ?%blocked_asleep); tauto.
  - split; [lia|auto].
Qed.

Lemma running_block s0 sb s th l k :
  running s0 (wait_place k) sb th -> s = set_events (events s) (set_locks (locks s) sb) -> locks s = [l] ->
  l <> SchedLock -> may_wait sb th k ->
  (exists a, events s = queue_of a /\ due_ok (due a)
     /\ events_ok (due a).*2 (<[current s := blocked l k th]> (ts s))) ->
  we (thread_block (wait_flag k) l k) s (fun _ s' => inv s' /\ after s0 s').
Proof.
  intros Hr Es Hl Hls Hmw Hev. destruct Hmw as [Hk Hmw]. pose proof Hr as [Hb Hc Hw _ Hsw Hq Hp Hs].
  assert (ts s = ts sb /\ current s = current sb) as [E1 E2] by (rewrite Es; done).
  apply (thread_block_ok sb s th l k); try done.
  - congruence.
  - rewrite Es. simpl. apply (blocked_ok s0 (wait_place k)); [done|by split].
  - rewrite E1. intros t x _. apply Hsw.
  - intros s' Hi Hsw'. split; [done|]. right. exists (wait_place k), (blocked l k th), (block_state l k th s).
    assert (ts (block_state l k th s) !! current (block_state l k th s) = Some (blocked l k th)) as Hcur'
      by (simpl; by rewrite lookup_insert_eq).
    split; [|split; [|split; [|split; [done|split; [done|]]]]].
    + apply (quiet_same s0 (set_threads (<[current sb := blocked l k th]> (ts sb)) sb)); [|by rewrite Es..].
      apply (quiet_upd _ _ _ th); [done|done|done|done|]. rewrite (q_cur _ _ Hq). intros Hn. rewrite Hn in Hs. by destruct Hs.
    + eapply (base_block sb); [done|congruence| | | |].
      * rewrite Es. done.
      * rewrite Es. done.
      * apply (blocked_ok s0 (wait_place k)); [done|by split].
      * done.
    + intros c. apply wait_place_run.
    + simpl. apply Hp.
Qed.

(** Without a timeout. *)
Lemma running_block_untimed s0 s th l k :
  running s0 (wait_place k) s th -> locks s = [l] -> l <> SchedLock -> may_wait s th k -> timed_f k = 0 ->
  we (thread_block (wait_flag k) l k) s (fun _ s' => inv s' /\ after s0 s').
Proof.
  intros Hr Hl Hls Hmw Hz. eapply running_block; try done; [by destruct s|].
  destruct (b_events _ _ _ (r_base _ _ _ _ Hr)) as (a & Ea & Hdue & Hev). exists a. split; [done|]. split; [done|].
  eapply events_ok_block; [done|apply Hr|apply Hr|apply blocked_asleep; apply Hmw|by left|done].
Qed.

(** With a timeout. *)
Lemma running_block_timed s0 s th l k t f msec :
  t = current s -> running s0 (wait_place k) s th -> locks s = [l] -> l <> SchedLock -> may_wait s th k -> timed_f k = f -> f <> 0 ->
  we (request_wake t f msec;; thread_block (wait_flag k) l k) s (fun _ s' => inv s' /\ after s0 s').
Proof.
  intros -> Hr Hl Hls Hmw Hf Hf0. apply wpe_bind. eapply we_request_wake; [apply Hr|apply Hr|apply Hr|].
  intros a' Hdue Hev. eapply (running_block _ s); try done.
  exists a'. split; [done|]. split; [done|]. apply Hev; [apply blocked_asleep; apply Hmw|done|done].
Qed.

(** ** Steps of a running thread *)

Lemma we_run_lock s0 over s th l Q :
  running s0 over s th -> l ∉ locks s ->
  (forall s', running s0 over s' th -> s' = set_locks (l :: locks s) s -> Q tt s') -> we (hal_spin_lock l) s Q.
Proof. intros Hr Hl HQ. apply we_lock; [done|]. apply HQ; [|done]. by apply (running_core s0 over s). Qed.

Lemma we_run_unlock s0 over s th l ls Q :
  running s0 over s th -> locks s = l :: ls -> l ∉ ls ->
  (forall s', running s0 over s' th -> s' = set_locks ls s -> Q tt s') -> we (hal_spin_unlock (Some l)) s Q.
Proof.
  intros Hr El Hl HQ. apply we_unlock; [rewrite El; by left|]. rewrite El, filter_unlock by done.
  apply HQ; [|done]. by apply (running_core s0 over s).
Qed.

(** ** Sleep *)

Lemma sleep_ok s th msec :
  inv s -> ts s !! current s = Some th -> kont th = KRun -> current s <> idlest s ->
  we (hal_sleep_msec msec) s (fun _ s' => inv s' /\ after s s').
Proof.
  intros Hi Hth Hk Hidl. pose proof (inv_running _ _ Hi Hth Hk) as Hr. pose proof (i_locks _ Hi) as Hl.
  unfold hal_sleep_msec. apply wpe_bind, we_gets.
  apply wpe_bind. eapply we_run_disable; [done|]. intros s1 th1 Hr1 Eth Es1.
  apply wpe_bind. eapply we_run_lock; [done|rewrite Es1; simpl; rewrite Hl; apply not_elem_of_nil|].
  intros s2 Hr2 Es2. apply (running_block_timed s s2 th1 _ KSleep); try done; try (by rewrite Es2, Es1).
  - rewrite Es2, Es1. simpl. by rewrite Hl.
  - pose proof (running_preempt _ _ _ _ Hr). subst. repeat split; simpl; done || lia.
Qed.

(** ** Mutexes *)

Lemma misuse_in msg : misuse msg <-> In msg
  ["init mutex!"; "unlock of uninited mutex"; "recursive mutex lock"; "mutex - not owner";
   "locked mutex killed"; "m->impl == 0"; "init cond!"; "init sema!"; "c->impl == 0";
   "prio >= 0 && prio <= (THREAD_PRIO_HIGHEST|THREAD_PRIO_MOD_REALTIME)";
   "! (flags & ~CREATION_POSSIBLE_FLAGS)"; "out of threads"]%string.
Proof. apply list_elem_of_In. Qed.
Ltac misuse := apply misuse_in; simpl; tauto.

Lemma we_find_mutex m msg s Q :
  misuse msg -> (forall mi, mutexes s !! m = Some mi -> Q mi s) -> we (get_mutex m msg) s Q.
Proof. intros Hm HQ. apply wpe_bind, we_get. destruct (mutexes s !! m); [apply wpe_ret; auto|done]. Qed.
Lemma we_find_cond c s Q : (forall q, conds s !! c = Some q -> Q q s) -> we (get_cond c) s Q.
Proof. intros HQ. apply wpe_bind, we_get. destruct (conds s !! c); [apply wpe_ret; auto|apply wpe_panic; misuse]. Qed.
Lemma we_find_sem x s Q : (forall ci, sems s !! x = Some ci -> Q ci s) -> we (get_sem x) s Q.
Proof. intros HQ. apply wpe_bind, we_get. destruct (sems s !! x); [apply wpe_ret; auto|apply wpe_panic; misuse]. Qed.

Lemma qlist_mutex s m mi' p :
  qlist (set_mutexes (<[m := mi']> (mutexes s)) s) p = if decide (p = PMutex m) then m_waiting mi' else qlist s p.
Proof.
  destruct p as [c|m'|c|x]; try done. simpl. destruct (decide (PMutex m' = PMutex m)) as [[= ->]|Hne].
  - by rewrite lookup_insert_eq.
  - rewrite lookup_insert_ne by congruence. done.
Qed.

(** The mutex gets another owner; nobody has been promised it. *)
Lemma running_owner s0 over s th m mi mi' :
  running s0 over s th -> mutexes s !! m = Some mi -> m_waiting mi' = m_waiting mi ->
  (owner mi' = 0 -> m_waiting mi = []) -> (owner mi' <> 0 -> owner mi' = current s) ->
  owner mi = 0 \/ owner mi = current s ->
  running s0 over (set_mutexes (<[m := mi']> (mutexes s)) s) th.
Proof.
  intros Hr Hm Ew H0 H1 Hown. pose proof (r_base _ _ _ _ Hr) as Hb. eapply running_sync; [done| |done..].
  apply (base_sync over over [] s); try done.
  - left. split; [done|]. intros p. rewrite qlist_mutex. case_decide; [|done]. subst. simpl. by rewrite Hm.
  - intros t x Hx Hk. eapply kont_ok_mutex; [done| |done]. right. intros Hw rc Ekx. unfold kont_ok in Hk.
    rewrite Ekx in Hk. destruct (Hk Hw) as (y & Hy & Ey). rewrite Hm in Hy. injection Hy as <-.
    pose proof (t_tid _ _ _ _ _ (b_thread _ _ _ Hb _ _ Hx)). destruct Hown as [Ho|Ho]; [lia|].
    rewrite Ey in Ho. subst t. rewrite (r_cur _ _ _ _ Hr) in Hx. injection Hx as <-. rewrite (r_kont _ _ _ _ Hr) in Ekx. done.
  - simpl. intros m' x [[<- <-]|[_ Hx]]%lookup_insert_Some; [|by apply (b_mutex _ _ _ Hb m')].
    split; [rewrite Ew; auto|]. intros Ho. rewrite (H1 Ho). apply Hb.
  - apply Hb.
Qed.

(** The current thread enters the queue of a mutex that is owned. *)
Lemma running_enter_mutex s0 s th m mi :
  running s0 None s th -> mutexes s !! m = Some mi -> owner mi <> 0 ->
  running s0 (Some (PMutex m))
    (set_mutexes (<[m := mkMutex (owner mi) (m_waiting mi ++ [current s])]> (mutexes s)) s) th.
Proof.
  intros Hr Hm Hown. pose proof (r_base _ _ _ _ Hr) as Hb. eapply running_sync; [done| |done..].
  apply (base_sync None (Some (PMutex m)) [] s); try done.
  - right. exists (PMutex m). split; [done|]. split; [done|]. intros p. rewrite qlist_mutex.
    case_decide; [|done]. subst. simpl. by rewrite Hm.
  - intros t x Hx Hk. eapply kont_ok_mutex; [done|by left|done].
  - simpl. intros m' x [[<- <-]|[_ Hx]]%lookup_insert_Some; [|by apply (b_mutex _ _ _ Hb m')].
    destruct (b_mutex _ _ _ Hb _ _ Hm) as [H0 H1]. by split.
  - apply Hb.
Qed.

Ltac run_like_tac Hr := split; simpl; try done; first [apply (r_kont _ _ _ _ Hr) | apply (running_preempt _ _ _ _ Hr)].

Lemma mutex_lock_ret_ok s0 s th rc :
  running s0 None s th -> locks s = [] -> 0 < preemption_disabled th ->
  we (mutex_lock_ret rc) s (fun _ s' => inv s' /\ after s0 s').
Proof.
  intros Hr Hl Hp. apply wpe_bind. eapply we_run_upd; [done|run_like_tac Hr|]. intros s1 Hr1 Es1.
  apply wpe_bind. eapply we_run_enable; [done|done|]. intros s2 th2 Hr2 _ Es2.
  eapply we_op_return; [done|]. by rewrite Es2, Es1.
Qed.

Lemma mutex_lock_ok s0 s th m rc :
  running s0 None s th -> locks s = [] -> current s <> idlest s -> priority th <> 0 ->
  we (hal_mutex_lock m rc) s (fun _ s' => inv s' /\ after s0 s').
Proof.
  intros Hr Hl Hidl Hprio. pose proof (running_preempt _ _ _ _ Hr) as Hpd. unfold hal_mutex_lock.
  apply wpe_bind, we_find_mutex; [misuse|]. intros mi Hm.
  apply wpe_bind. eapply we_run_disable; [done|]. intros s1 th1 Hr1 Eth Es1.
  apply wpe_bind. eapply we_run_lock; [done|rewrite Es1; simpl; rewrite Hl; apply not_elem_of_nil|]. intros s2 Hr2 Es2.
  assert (mutexes s2 !! m = Some mi /\ locks s2 = [MutexLock m] /\ current s2 = current s /\ idlest s2 = idlest s)
    as (Hm2 & Hl2 & Ec2 & Ei2) by (rewrite Es2, Es1; simpl; by rewrite Hl).
  assert (0 < preemption_disabled th1 /\ priority th1 = priority th) as [Hpd1 Hprio1] by (rewrite Eth; simpl; lia).
  apply wpe_bind, we_gets. destruct (Z.eqb_spec (owner mi) 0) as [Ho|Ho]; [|destruct (Z.eqb_spec (owner mi) (current s2)) as [Ho'|Ho']].
  - apply wpe_bind, we_modify. pose proof (t_tid _ _ _ _ _ (running_ok _ _ _ _ Hr2)).
    assert (running s0 None (set_mutexes (<[m := mkMutex (current s2) (m_waiting mi)]> (mutexes s2)) s2) th1) as Hr3
      by (apply (running_owner s0 None s2 th1 m mi); simpl; auto; lia).
    apply wpe_bind. eapply we_run_upd; [done|run_like_tac Hr3|]. intros s4 Hr4 Es4.
    apply wpe_bind. eapply we_run_unlock; [done|by rewrite Es4|apply not_elem_of_nil|]. intros s5 Hr5 Es5.
    eapply mutex_lock_ret_ok; [done|by rewrite Es5|done].
  - apply wpe_panic. misuse.
  - apply wpe_bind, we_assert.
    { apply bool_decide_eq_true_2. pose proof (cur_not_queued _ (PMutex m) (r_base _ _ _ _ Hr2)) as Hn.
      simpl in Hn. by rewrite Hm2 in Hn. }
    apply wpe_bind, we_modify. pose proof (running_enter_mutex _ _ _ _ _ Hr2 Hm2 Ho) as Hr3.
    apply wpe_bind. eapply we_run_upd; [done|run_like_tac Hr3|]. intros s4 Hr4 Es4.
    apply (running_block_untimed s0 s4 (set_waitmutex m th1) _ (KMutex m rc)); try done; [by rewrite Es4|].
    repeat split; simpl; try done; rewrite ?Es4; simpl; congruence.
Qed.

(** ** Waking threads *)

(** The fields that an operation leaves when it is about to wake a thread. *)
Record wake_like (th th' : thread) : Prop := {
  w_prio : priority th' = priority th;
  w_ticks : ticks_left th' = ticks_left th;
  w_sleep : sleep_flags th' = sleep_flags th;
  w_sched : no_schedule th' = no_schedule th;
  w_kont : kont th' = kont th;
  w_sw : sw_unlock th' = sw_unlock th;
  w_preempt : preemption_disabled th' = preemption_disabled th }.

Lemma wake_like_class th th' : wake_like th th' -> runq_class th' = runq_class th.
Proof. intros H. unfold runq_class. by rewrite (w_prio _ _ H). Qed.

Lemma wake_like_ok ms ss ms' ss' idl t th th' :
  thread_ok ms ss idl t th -> wake_like th th' -> kont_ok ms' ss' t (set_sleep 0 th') ->
  thread_ok ms' ss' idl t (set_sleep 0 th').
Proof.
  intros [Htid Hp Ht _ Hwt _ Hpd Hi Hil] [Ep Et Es En Ek Esw Hpd'] Hk.
  split; simpl; rewrite ?Ep, ?Et, ?Ek, ?Hpd'; try done.
  - unfold no_schedule in *. simpl. by rewrite En.
  - intros Hx. by destruct (Hil Hx) as (? & _ & ?).
Qed.

(** The timed calls that are queued. *)
Definition queued (s : kernel) : list timedcall := call_of <$> tcEventQ (events s).

Lemma queued_due s a : events s = queue_of a -> due_ok (due a) -> queued s = (due a).*2.
Proof.
  intros E (Hok & _ & _). unfold queued. rewrite E. simpl. generalize (now a).
  induction (due a) as [|[d e] l IH]; intros t; [done|]. rewrite fmap_cons in Hok. apply list.Forall_cons in Hok as [He Hl].
  simpl. f_equal; [exact (set_more_0 e He)|]. by apply IH.
Qed.

(** [s1] is the state in which [n] is unblocked: it has left its queue, and its
    timed call is gone. *)
Record about_to_wake (pend pend' : list timedcall) (s s1 : kernel) (n : Z) (nth nth1 : thread) : Prop := {
  a_cur : n <> current s;
  a_old : ts s !! n = Some nth;
  a_asleep : ~ awake nth;
  a_new : ts s1 = <[n := nth1]> (ts s);
  a_like : wake_like nth nth1;
  a_core : core s1 = core (set_events (events s1) (with_sync (mutexes s1) (conds s1) (sems s1) (set_threads (ts s1) s)));
  a_cnt : cnt_thread_sw s1 = cnt_thread_sw s;
  a_kont : kont_ok (mutexes s1) (sems s1) n (set_sleep 0 nth1);
  a_queue : forall p, (forall c, p <> PRun c) ->
    qlist s1 p = if decide (Some p = wait_place (kont nth)) then remove n (qlist s p) else qlist s p;
  a_konts : forall t x, t <> n -> ts s !! t = Some x ->
    kont_ok (mutexes s) (sems s) t x -> kont_ok (mutexes s1) (sems s1) t x;
  a_mutex : forall m mi, mutexes s1 !! m = Some mi -> mutex_ok (ts s) mi;
  a_cond : conds s1 !! 0 = None;
  a_events : exists a1, events s1 = queue_of a1 /\ due_ok (due a1)
    /\ pend' ++ (due a1).*2 = filter (fun e => tc_at e <> n) (pend ++ queued s) }.

Lemma base_unblocked over pend pend' s s1 n nth nth1 :
  base over pend s -> about_to_wake pend pend' s s1 n nth nth1 -> base over pend' (unblocked n nth1 s1).
Proof.
  intros Hb [Hne Ht Hw Ets Hlike Ecore _ Hk Hq Hks Hm Hc (a1 & Ea1 & Hdue & Eevs)].
  destruct (b_events _ _ _ Hb) as (a & Ea & Hdue0 & Hev). rewrite (queued_due s a Ea Hdue0) in Eevs.
  unfold core in Ecore. injection Ecore as E1 E2 E3 Ei En Er. simpl in *.
  assert (ts (unblocked n nth1 s1) = <[n := set_sleep 0 nth1]> (ts s)) as Ets'
    by (unfold unblocked; simpl; rewrite Ets; apply insert_insert_eq).
  apply (base_wake over pend pend' s _ n nth (set_sleep 0 nth1)); try done.
  - simpl. apply Hlike.
  - by apply wake_like_class in Hlike.
  - change (idlest (unblocked n nth1 s1)) with (idlest s1). rewrite E3. eapply wake_like_ok; [|done|done]. by eapply b_thread.
  - intros p. destruct (decide (p = PRun (runq_class nth))) as [->|Hp].
    + unfold unblocked. apply wake_like_class in Hlike. rewrite Hlike. simpl. destruct (runq_class nth); simpl; congruence.
    + destruct p as [c|m|c|x].
      * rewrite decide_False by (intros E; by apply (wait_place_run (kont nth) c)).
        apply wake_like_class in Hlike. unfold unblocked. rewrite Hlike.
        assert (c <> runq_class nth) as Hc' by congruence.
        destruct c, (runq_class nth); try done; simpl; congruence.
      * apply (Hq (PMutex m)). done.
      * apply (Hq (PCond c)). done.
      * apply (Hq (PSem x)). done.
  - intros m mi Hmi. rewrite Ets'. destruct (Hm m mi Hmi) as [H0 H1]. split; [done|]. intros Ho.
    apply lookup_insert_is_Some'. auto.
  - exists a1. split; [done|]. split; [done|]. rewrite Ets', Eevs. by eapply events_ok_wake.
Qed.

Lemma asleep_not_runq over pend s n nth c :
  base over pend s -> ts s !! n = Some nth -> ~ awake nth -> n <> current s -> n ∉ runq c s.
Proof.
  intros Hb Ht Hw Hne Hin. apply (b_queue _ _ _ Hb (PRun c)) in Hin as (x & Hx & Hp). rewrite Ht in Hx. injection Hx as <-.
  rewrite place_of_ne, decide_False in Hp by done. by apply wait_place_run in Hp.
Qed.

Lemma about_to_wake_run over pend pend' s s1 n nth nth1 Q :
  base over pend s -> about_to_wake pend pend' s s1 n nth nth1 -> SchedLock ∉ locks s1 ->
  Q tt (unblocked n nth1 s1) -> we (thread_unblock n (sleep_flags nth)) s1 Q.
Proof.
  intros Hb Ha Hl HQ. pose proof Ha as [Hne Ht Hw Ets Hlike Ecore _ _ _ _ _ _ _].
  destruct (t_flags _ _ _ _ _ (b_thread _ _ _ Hb _ _ Ht) Hw) as [Hk Hf].
  eapply we_unblock; [rewrite Ets; apply lookup_insert_eq|apply Hlike|rewrite Hf; by apply wait_flag_is| |done|done].
  intros c. replace (runq c s1) with (runq c s); [by eapply asleep_not_runq|].
  unfold core in Ecore. injection Ecore as E1 E2 E3 Ei En Er. destruct c; simpl in *; congruence.
Qed.

Lemma running_unblocked s0 over s th s1 n nth nth1 :
  running s0 over s th -> about_to_wake [] [] s s1 n nth nth1 -> running s0 over (unblocked n nth1 s1) th.
Proof.
  intros Hr Ha. pose proof (base_unblocked _ _ _ _ _ _ _ _ (r_base _ _ _ _ Hr) Ha) as Hb.
  destruct Ha as [Hne Ht Hw Ets Hlike Ecore Ecnt _ _ _ _ _ _]. destruct Hr as [Hb0 Hc Hw0 Hk Hsw Hq Hp Hs].
  unfold core in Ecore. injection Ecore as E1 E2 E3 Ei En Er. simpl in *.
  assert (ts (unblocked n nth1 s1) = <[n := set_sleep 0 nth1]> (ts s)) as Ets'
    by (unfold unblocked; simpl; rewrite Ets; apply insert_insert_eq).
  split; try done; rewrite ?Ets'.
  - simpl. rewrite E2, lookup_insert_ne by auto. done.
  - intros t x [[<- <-]|[_ Hx]]%lookup_insert_Some; [|by eapply Hsw]. simpl. rewrite (w_sw _ _ Hlike). by eapply Hsw.
  - apply (quiet_same s0 (set_threads (<[n := set_sleep 0 nth1]> (ts s)) s)); [|done|done|done].
    apply (quiet_upd _ _ _ nth); [done|done|simpl; rewrite (w_ticks _ _ Hlike); done| |].
    + intros _. simpl. split; [apply Hlike|]. split; [apply Hlike|done].
    + simpl. rewrite (w_ticks _ _ Hlike), (w_prio _ _ Hlike). by apply (q_new _ _ Hq).
Qed.

Lemma we_run_unblock s0 over s th s1 n nth nth1 f Q :
  running s0 over s th -> about_to_wake [] [] s s1 n nth nth1 -> f = sleep_flags nth -> SchedLock ∉ locks s1 ->
  (forall s', running s0 over s' th -> s' = unblocked n nth1 s1 -> Q tt s') -> we (thread_unblock n f) s1 Q.
Proof.
  intros Hr Ha -> Hl HQ. eapply about_to_wake_run; [apply Hr|done|done|].
  apply HQ; [|done]. by eapply running_unblocked.
Qed.

(** The queues of threads that wait have only such threads. *)
Definition waiters (s : kernel) (q : list Z) : Prop :=
  forall t, t ∈ q -> exists th, ts s !! t = Some th /\ 0 < priority th /\ t <> current s.

Lemma highest_prio_spec q mx best s :
  waiters s q -> (0 < mx -> is_Some best) ->
  we (highest_prio q mx best) s (fun r s' => s' = s
    /\ ((r = best /\ (0 < mx \/ q = [])) \/ exists b, r = Some b /\ b ∈ q)).
Proof.
  revert mx best. induction q as [|it q IH]; intros mx best Hq Hb; simpl; [by split; auto|].
  destruct (Hq it) as (th & Hth & Hp & Hne); [by left|].
  assert (waiters s q) as Hq' by (intros t Ht; apply Hq; by right).
  apply wpe_bind, we_gets. apply wpe_bind, we_assert; [by apply negb_true_iff, Z.eqb_neq|].
  apply wpe_bind. eapply we_get_t; [done|]. destruct (Z.ltb_spec mx (priority th)).
  - eapply wpe_mono; [apply IH; [done|eauto]|]. intros r s' [-> [[-> _]|(b & -> & Hin)]]; (split; [done|]); right.
    + exists it. split; [done|by left].
    + exists b. split; [done|by right].
  - eapply wpe_mono; [by apply IH|]. intros r s' [-> [[-> _]|(b & -> & Hin)]]; (split; [done|]).
    + left. split; [done|left; lia].
    + right. exists b. split; [done|by right].
Qed.

Lemma dequeue_highest_spec q s Q :
  waiters s q -> q <> [] -> (forall n, n ∈ q -> Q (Some n, remove n q) s) -> we (t_dequeue_highest_prio q) s Q.
Proof.
  intros Hq Hne HQ. apply wpe_bind. eapply wpe_mono; [by apply highest_prio_spec|].
  intros r s' [-> [[_ [?|?]]|(b & -> & Hin)]]; [lia|done|]. apply wpe_ret. auto.
Qed.

(** A thread on a queue other than a run queue. *)
Lemma queued_asleep over pend s p n :
  base over pend s -> n ∈ qlist s p -> (forall c, p <> PRun c) -> over <> Some p ->
  exists nth, ts s !! n = Some nth /\ n <> current s /\ ~ awake nth /\ wait_place (kont nth) = Some p /\ 0 < priority nth.
Proof.
  intros Hb Hin Hp Ho. apply (b_queue _ _ _ Hb) in Hin as (th & Hth & Hpl). exists th.
  unfold place_of in Hpl. case_decide; [done|]. case_decide as Hw; [injection Hpl as <-; by destruct (Hp (runq_class th))|].
  repeat split; try done. pose proof (b_thread _ _ _ Hb _ _ Hth) as Hok.
  assert (priority th <> 0) by (apply Hok; [apply Hok; done|]; intros Hk; by rewrite Hk in Hpl). pose proof (t_prio _ _ _ _ _ Hok). lia.
Qed.

Lemma queue_waiters over pend s p :
  base over pend s -> (forall c, p <> PRun c) -> over <> Some p -> waiters s (qlist s p).
Proof.
  intros Hb Hp Ho t Ht. destruct (queued_asleep _ _ _ _ _ Hb Ht Hp Ho) as (th & Hth & Hne & _ & _ & Hpr). eauto.
Qed.

Lemma no_event s n nth :
  (exists over pend, base over pend s) -> ts s !! n = Some nth -> timed_f (kont nth) = 0 ->
  exists a, events s = queue_of a /\ due_ok (due a) /\ (due a).*2 = filter (fun e => tc_at e <> n) (queued s).
Proof.
  intros (over & pend & Hb) Ht Hf. destruct (b_events _ _ _ Hb) as (a & Ea & Hdue & Hev). exists a.
  split; [done|]. split; [done|]. rewrite (queued_due s a) by done. symmetry. apply filter_none.
  intros Hin. apply (events_ok_none _ _ _ _ Hev Ht); [by right|]. rewrite fmap_app. apply elem_of_app. auto.
Qed.

(** A mutex is handed over to a thread that waits for it. *)
Lemma hand_over s0 over s th m mi n nth ls :
  running s0 over s th -> mutexes s !! m = Some mi -> owner mi = current s ->
  n ∈ m_waiting mi -> over <> Some (PMutex m) -> ts s !! n = Some nth ->
  about_to_wake [] [] s
    (set_threads (<[n := set_ownmutex m nth]> (ts s))
      (set_locks ls (set_mutexes (<[m := mkMutex n (remove n (m_waiting mi))]> (mutexes s)) s)))
    n nth (set_ownmutex m nth).
Proof.
  intros Hr Hm Hown Hin Ho Ht. pose proof (r_base _ _ _ _ Hr) as Hb.
  assert (n ∈ qlist s (PMutex m)) as Hin' by (simpl; by rewrite Hm).
  destruct (queued_asleep _ _ _ _ _ Hb Hin' ltac:(done) Ho) as (x & Hx & Hne & Hw & Hwp & _).
  rewrite Ht in Hx. injection Hx as <-.
  destruct (kont nth) as [|m0 rc| | | | |] eqn:Ek; simplify_eq/=.
  split; try done.
  - unfold kont_ok. simpl. rewrite Ek. intros _. eexists. rewrite lookup_insert_eq. by split.
  - intros p Hp. etrans; [apply (qlist_mutex s m (mkMutex n (remove n (m_waiting mi))))|]. rewrite Ek. simpl.
    destruct (decide (p = PMutex m)) as [->|Hpm].
    + rewrite decide_True by done. simpl. by rewrite Hm.
    + by rewrite decide_False by congruence.
  - intros t x Hnt Hx. eapply kont_ok_mutex; [done|]. right. intros Hwx rc' Ekx.
    destruct (b_thread _ _ _ Hb _ _ Hx) as [_ _ _ _ _ Hko _ _ _]. unfold kont_ok in Hko. rewrite Ekx in Hko.
    destruct (Hko Hwx) as (y & Hy & Ey). rewrite Hm in Hy. injection Hy as <-. rewrite Hown in Ey. subst t.
    rewrite (r_cur _ _ _ _ Hr) in Hx. injection Hx as <-. by rewrite (r_kont _ _ _ _ Hr) in Ekx.
  - simpl. intros m' x [[<- <-]|[_ Hx]]%lookup_insert_Some; [|by apply (b_mutex _ _ _ Hb m')].
    pose proof (t_tid _ _ _ _ _ (b_thread _ _ _ Hb _ _ Ht)). split; simpl; [lia|eauto].
  - simpl. apply Hb.
  - apply (no_event s n nth); [eauto|done|by rewrite Ek].
Qed.

Lemma mutex_unlock_ok s0 over s th m Q :
  running s0 over s th -> over <> Some (PMutex m) -> MutexLock m ∉ locks s -> SchedLock ∉ locks s ->
  (forall s' th', running s0 over s' th' -> th' = set_preempt (preemption_disabled th) th ->
     locks s' = locks s -> current s' = current s -> idlest s' = idlest s -> conds s' = conds s -> sems s' = sems s ->
     is_Some (mutexes s' !! m) -> Q tt s') ->
  we (hal_mutex_unlock m) s Q.
Proof.
  intros Hr Ho Hl Hsl HQ. unfold hal_mutex_unlock. apply wpe_bind, we_find_mutex; [misuse|]. intros mi Hm.
  apply wpe_bind. eapply we_run_disable; [done|]. intros s1 th1 Hr1 Eth Es1.
  apply wpe_bind. eapply we_run_lock; [done|by rewrite Es1|]. intros s2 Hr2 Es2.
  assert (mutexes s2 !! m = Some mi /\ locks s2 = MutexLock m :: locks s /\ current s2 = current s /\ idlest s2 = idlest s
    /\ conds s2 = conds s /\ sems s2 = sems s) as (Hm2 & Hl2 & Ec2 & Ei2 & Eco2 & Ese2) by (rewrite Es2, Es1; done).
  assert (forall s', (exists s3, running s0 over s3 th1 /\ s' = s3) -> locks s' = locks s2 -> current s' = current s -> idlest s' = idlest s ->
     conds s' = conds s -> sems s' = sems s -> is_Some (mutexes s' !! m) ->
     we (hal_spin_unlock (Some (MutexLock m));; hal_enable_preemption) s' Q) as Hend.
  { intros s' (s3 & Hr3 & ->) El Ec Ei Eco Ese Hmu. apply wpe_bind.
    eapply we_run_unlock; [done|by rewrite El|done|]. intros s4 Hr4 Es4.
    eapply we_run_enable; [done|rewrite Eth; simpl; pose proof (running_preempt _ _ _ _ Hr); lia|].
    intros s5 th5 Hr5 Eth5 Es5. eapply HQ; [exact Hr5|..]; try (rewrite Es5, Es4; done).
    rewrite Eth5, Eth. unfold set_preempt. simpl. f_equal. lia. }
  apply wpe_bind, we_gets. apply wpe_bind.
  destruct (Z.eqb_spec (owner mi) (current s2)) as [Hown|Hown]; simpl; [|apply wpe_panic; misuse].
  destruct (m_waiting mi) as [|w0 ws] eqn:Ew.
  - apply we_modify. apply Hend; try done; [|simpl; by rewrite lookup_insert_eq].
    eexists. split; [|done]. apply (running_owner s0 over s2 th1 m mi); try done; auto.
  - assert (qlist s2 (PMutex m) = w0 :: ws) as Eq by (simpl; by rewrite Hm2).
    apply wpe_bind. apply dequeue_highest_spec; [|done|].
    { rewrite <-Eq. eapply queue_waiters; [apply Hr2|done|done]. }
    intros n Hin. rewrite <-Eq in Hin.
    destruct (queued_asleep _ _ _ _ _ (r_base _ _ _ _ Hr2) Hin ltac:(done) Ho) as (nth & Hnth & Hne & Hw & Hwp & _).
    apply wpe_bind. eapply we_some; [done|]. apply wpe_bind, we_modify. simpl.
    apply wpe_bind. eapply we_upd_t; [done|]. rewrite <-Ew.
    rewrite Eq, <-Ew in Hin. pose proof (hand_over s0 over s2 th1 m mi n nth (locks s2) Hr2 Hm2 Hown Hin Ho Hnth) as Ha.
    eapply we_run_unblock; [exact Hr2|exact Ha| | |].
    + pose proof (t_flags _ _ _ _ _ (b_thread _ _ _ (r_base _ _ _ _ Hr2) _ _ Hnth) Hw) as [_ ->].
      destruct (kont nth); simplify_eq/=; done.
    + simpl. rewrite Hl2. by apply not_elem_of_cons.
    + intros s4 Hr4 Es4. apply Hend; try (rewrite Es4; done); [eauto|]. rewrite Es4. simpl. by rewrite lookup_insert_eq.
Qed.

(** Waking from a condition, a semaphore or sleep: the mutexes stay. *)
Lemma wake_sync over pend pend' s s1 n nth nth1 :
  base over pend s -> ts s !! n = Some nth -> ~ awake nth -> n <> current s -> wake_like nth nth1 ->
  (forall m rc, kont nth <> KMutex m rc) ->
  core s1 = core (set_events (events s1) (with_sync (mutexes s) (conds s1) (sems s1) (set_threads (<[n := nth1]> (ts s)) s))) ->
  cnt_thread_sw s1 = cnt_thread_sw s ->
  (forall p, (forall c, p <> PRun c) ->
    qlist s1 p = if decide (Some p = wait_place (kont nth)) then remove n (qlist s p) else qlist s p) ->
  (forall x, is_Some (sems s !! x) -> is_Some (sems s1 !! x)) -> conds s1 !! 0 = None ->
  (exists a1, events s1 = queue_of a1 /\ due_ok (due a1)
    /\ pend' ++ (due a1).*2 = filter (fun e => tc_at e <> n) (pend ++ queued s)) ->
  about_to_wake pend pend' s s1 n nth nth1.
Proof.
  intros Hb Ht Hw Hne Hlike Hnm Ecore Ecnt Hq Hss Hc0 Hev.
  assert (mutexes s1 = mutexes s /\ ts s1 = <[n := nth1]> (ts s)) as [Em Ets].
  { unfold core in Ecore. injection Ecore as E1 E2 E3 E4 E5 E6 E7 E8. simpl in *. auto. }
  assert (forall t x, kont_ok (mutexes s) (sems s) t x -> kont_ok (mutexes s1) (sems s1) t x) as Hk.
  { intros t x. rewrite Em. apply kont_ok_mono; [eauto|done]. }
  split; try done.
  - by rewrite Em, Ets.
  - pose proof (Hk _ _ (t_kont _ _ _ _ _ (b_thread _ _ _ Hb _ _ Ht))) as Hko. unfold kont_ok in *. simpl.
    rewrite (w_kont _ _ Hlike). destruct (kont nth) eqn:Ek; try done; try by destruct (Hnm m rc).
    all: destruct Hko; split; [done|]; intros Hx; by destruct Hx.
  - intros t x _ _. apply Hk.
  - intros m mi. rewrite Em. apply Hb.
Qed.

Lemma qlist_cond s c q p :
  qlist (set_conds (<[c := q]> (conds s)) s) p = if decide (p = PCond c) then q else qlist s p.
Proof.
  destruct p as [r|m|c'|x]; try done. simpl. destruct (decide (PCond c' = PCond c)) as [[= ->]|Hne].
  - by rewrite lookup_insert_eq.
  - rewrite lookup_insert_ne by congruence. done.
Qed.
Lemma qlist_sem s x ci p :
  qlist (set_sems (<[x := ci]> (sems s)) s) p = if decide (p = PSem x) then s_waiting ci else qlist s p.
Proof.
  destruct p as [r|m|c'|x']; try done. simpl. destruct (decide (PSem x' = PSem x)) as [[= ->]|Hne].
  - by rewrite lookup_insert_eq.
  - rewrite lookup_insert_ne by congruence. done.
Qed.

(** The timed call of a thread is taken back. *)
Lemma we_undo_wake over s s1 t Q :
  base over [] s -> events s1 = events s ->
  (forall a1, due_ok (due a1) -> (due a1).*2 = filter (fun e => tc_at e <> t) (queued s) ->
     Q tt (set_events (queue_of a1) s1)) ->
  we (undo_wake t) s1 Q.
Proof.
  intros Hb Ee HQ. destruct (b_events _ _ _ Hb) as (a & Ea & Hdue & _). eapply we_timed.
  { rewrite Ee, Ea. by apply undo_run. }
  apply HQ; [by apply due_ok_others|]. simpl. by rewrite others_snd, (queued_due s a).
Qed.

(** Updates of the current thread by its number. *)
Lemma we_run_upd_t s0 over s th t f Q :
  running s0 over s th -> t = current s -> run_like th (f th) ->
  (forall s', running s0 over s' (f th) -> s' = set_threads (<[current s := f th]> (ts s)) s -> Q tt s') ->
  we (upd_t t f) s Q.
Proof.
  intros Hr -> Hl HQ. eapply we_upd_t; [apply Hr|]. apply HQ; [|done]. by apply (running_upd _ _ _ th).
Qed.

(** ** Conditions *)

Lemma running_enter_cond s0 s th c q :
  running s0 None s th -> conds s !! c = Some q ->
  running s0 (Some (PCond c)) (set_conds (<[c := q ++ [current s]]> (conds s)) s) th.
Proof.
  intros Hr Hc. pose proof (r_base _ _ _ _ Hr) as Hb. eapply running_sync; [done| |done..].
  apply (base_sync None (Some (PCond c)) [] s); try done.
  - right. exists (PCond c). split; [done|]. split; [done|]. intros p. rewrite qlist_cond.
    case_decide; [|done]. subst. simpl. by rewrite Hc.
  - apply Hb.
  - simpl. rewrite lookup_insert_ne; [apply Hb|]. intros ->. by rewrite (b_cond _ _ _ Hb) in Hc.
Qed.

Lemma cond_enter_ok s0 s th c m t Q :
  running s0 None s th -> locks s = [] -> t = current s ->
  (forall s' th', running s0 (Some (PCond c)) s' th' -> locks s' = [WaitLock t] -> current s' = current s -> idlest s' = idlest s ->
     is_Some (mutexes s' !! m) -> waitcond th' = c -> 0 < preemption_disabled th' -> priority th' = priority th -> Q tt s') ->
  we (cond_enter c m t) s Q.
Proof.
  intros Hr Hl -> HQ. unfold cond_enter. pose proof (running_preempt _ _ _ _ Hr) as Hpd.
  apply wpe_bind, we_find_cond. intros q Hc.
  apply wpe_bind. eapply we_run_disable; [done|]. intros s1 th1 Hr1 Eth1 Es1.
  apply wpe_bind. eapply we_run_lock; [done|rewrite Es1; simpl; rewrite Hl; apply not_elem_of_nil|]. intros s2 Hr2 Es2.
  assert (conds s2 !! c = Some q /\ locks s2 = [CondLock c] /\ current s2 = current s /\ idlest s2 = idlest s)
    as (Hc2 & Hl2 & Ec2 & Ei2) by (rewrite Es2, Es1; simpl; by rewrite Hl).
  apply wpe_bind, we_assert.
  { apply bool_decide_eq_true_2. pose proof (cur_not_queued _ (PCond c) (r_base _ _ _ _ Hr2)) as Hn.
    simpl in Hn. rewrite Hc2 in Hn. by rewrite <-Ec2. }
  apply wpe_bind, we_modify. pose proof (running_enter_cond _ _ _ _ _ Hr2 Hc2) as Hr3. rewrite Ec2 in Hr3.
  apply wpe_bind. eapply mutex_unlock_ok; [exact Hr3|done|simpl; rewrite Hl2; by intros ?%list_elem_of_singleton
    |simpl; rewrite Hl2; by intros ?%list_elem_of_singleton|].
  intros s4 th4 Hr4 Eth4 El4 Ec4 Ei4 _ _ Hm4. simpl in El4, Ec4, Ei4. rewrite Hl2 in El4. rewrite Ec2 in Ec4.
  apply wpe_bind. eapply we_run_lock; [done|rewrite El4; by intros ?%list_elem_of_singleton|]. intros s5 Hr5 Es5.
  apply wpe_bind, we_unlock; [rewrite Es5; simpl; rewrite El4; right; by left|].
  assert (filter (fun x => x <> CondLock c) (locks s5) = [WaitLock (current s)]) as Efil.
  { rewrite Es5. simpl. rewrite El4, filter_cons_True, filter_cons_False by auto. done. }
  rewrite Efil. eapply we_run_upd_t; [by apply (running_core _ _ s5)|rewrite Es5; simpl; congruence|run_like_tac Hr5|].
  intros s6 Hr6 Es6. eapply HQ; [exact Hr6|..]; try (rewrite Es6, Es5; simpl; done || congruence); [done| |].
  - simpl. rewrite Eth4, Eth1. simpl. lia.
  - simpl. rewrite Eth4, Eth1. done.
Qed.

Lemma cond_wait_ok s th c m :
  inv s -> ts s !! current s = Some th -> kont th = KRun -> current s <> idlest s -> priority th <> 0 ->
  we (hal_cond_wait c m) s (fun _ s' => inv s' /\ after s s').
Proof.
  intros Hi Hth Hk Hidl Hp. pose proof (inv_running _ _ Hi Hth Hk) as Hr. unfold hal_cond_wait.
  apply wpe_bind, we_gets. apply wpe_bind. eapply cond_enter_ok; [done|apply Hi|done|].
  intros s1 th1 Hr1 Hl1 Ec1 Ei1 Hm1 Hwc Hpd Hp1.
  apply (running_block_untimed s s1 th1 _ (KCond c m)); try done. repeat split; try done; congruence.
Qed.

Lemma no_schedule_ldiff th : no_schedule (clear_timedout th) = no_schedule th.
Proof.
  unfold no_schedule, clear_timedout. simpl. do 2 f_equal. apply Z.bits_inj. intros n.
  rewrite !Z.land_spec, Z.ldiff_spec. unfold THREAD_FLAG_NOSCHEDULE, THREAD_FLAG_TIMEDOUT.
  destruct (Z.eq_dec n 10) as [->|Hn]; [by rewrite andb_true_r|].
  change 1024 with (2 ^ 10). rewrite (Z.pow2_bits_false 10 n) by lia. by rewrite !andb_false_r.
Qed.
Lemma no_schedule_lor th : no_schedule (set_timedout th) = no_schedule th.
Proof.
  unfold no_schedule, set_timedout. simpl. rewrite Z.land_lor_distr_l.
  change (Z.land THREAD_FLAG_TIMEDOUT THREAD_FLAG_NOSCHEDULE) with 0. by rewrite Z.lor_0_r.
Qed.

Lemma run_like_clear s0 over s th : running s0 over s th -> run_like th (clear_timedout th).
Proof. intros Hr. split; try done; [apply no_schedule_ldiff|apply Hr|apply (running_preempt _ _ _ _ Hr)]. Qed.

Lemma cond_timedwait_ok s th c m msec :
  inv s -> ts s !! current s = Some th -> kont th = KRun -> current s <> idlest s -> priority th <> 0 ->
  we (hal_cond_timedwait c m msec) s (fun _ s' => inv s' /\ after s s').
Proof.
  intros Hi Hth Hk Hidl Hp. pose proof (inv_running _ _ Hi Hth Hk) as Hr. unfold hal_cond_timedwait.
  apply wpe_bind, we_gets. apply wpe_bind. eapply cond_enter_ok; [done|apply Hi|done|].
  intros s1 th1 Hr1 Hl1 Ec1 Ei1 Hm1 Hwc Hpd Hp1.
  apply wpe_bind. eapply we_run_upd_t; [done|done|by eapply run_like_clear|]. intros s2 Hr2 Es2.
  apply (running_block_timed s s2 (clear_timedout th1) _ (KCondTimed c m)); try done; try (rewrite Es2; simpl; congruence).
  repeat split; simpl; try done; rewrite ?Es2; simpl; congruence.
Qed.

(** A thread that waits for a condition is about to be woken by another. *)
Lemma wake_from_cond over s s1 c q n nth a1 :
  base over [] s -> conds s !! c = Some q -> n ∈ q -> over <> Some (PCond c) -> ts s !! n = Some nth ->
  due_ok (due a1) -> (due a1).*2 = filter (fun e => tc_at e <> n) (queued s) ->
  core s1 = core (set_events (queue_of a1) (set_conds (<[c := remove n q]> (conds s))
                   (set_threads (<[n := set_waitcond 0 nth]> (ts s)) s))) ->
  cnt_thread_sw s1 = cnt_thread_sw s ->
  about_to_wake [] [] s s1 n nth (set_waitcond 0 nth) /\ sleep_flags nth = THREAD_SLEEP_COND.
Proof.
  intros Hb Hc Hin Ho Ht Hdue Eevs Ecore Ecnt.
  assert (n ∈ qlist s (PCond c)) as Hin' by (simpl; by rewrite Hc).
  destruct (queued_asleep _ _ _ _ _ Hb Hin' ltac:(done) Ho) as (x & Hx & Hne & Hw & Hwp & _).
  rewrite Ht in Hx. injection Hx as <-.
  pose proof (t_flags _ _ _ _ _ (b_thread _ _ _ Hb _ _ Ht) Hw) as [_ Hfl].
  assert (conds s1 = <[c := remove n q]> (conds s) /\ sems s1 = sems s /\ mutexes s1 = mutexes s
          /\ events s1 = queue_of a1) as (Ec & Es & Em & Ee).
  { unfold core in Ecore. injection Ecore as E1 E2 E3 E4 E5 E6 E7 E8 E9 E10 E11. auto. }
  split; [|rewrite Hfl; by destruct (kont nth); simplify_eq/=].
  eapply wake_sync; [done|done|done|done|by split| | |done| | | |].
  - intros m rc Ek. by rewrite Ek in Hwp.
  - rewrite Ec, Es, Ee. exact Ecore.
  - intros p Hp. transitivity (qlist (set_conds (<[c := remove n q]> (conds s)) s) p).
    + destruct p as [r| | |]; [by destruct (Hp r)|..]; simpl; by rewrite ?Ec, ?Es, ?Em.
    + rewrite qlist_cond. destruct (decide (p = PCond c)) as [->|Hpc].
      * rewrite decide_True by done. simpl. by rewrite Hc.
      * by rewrite decide_False by congruence.
  - by rewrite Es.
  - rewrite Ec, lookup_insert_ne; [apply Hb|]. intros ->. by rewrite (b_cond _ _ _ Hb) in Hc.
  - exists a1. by rewrite Ee.
Qed.

Lemma cond_signal_ok s th c :
  inv s -> ts s !! current s = Some th -> kont th = KRun ->
  we (hal_cond_signal c) s (fun _ s' => inv s' /\ after s s').
Proof.
  intros Hi Hth Hk. pose proof (inv_running _ _ Hi Hth Hk) as Hr. pose proof (i_locks _ Hi) as Hl.
  pose proof (running_preempt _ _ _ _ Hr) as Hpd. unfold hal_cond_signal. apply wpe_bind, we_find_cond. intros q Hc.
  apply wpe_bind. eapply we_run_disable; [done|]. intros s1 th1 Hr1 Eth1 Es1.
  apply wpe_bind. eapply we_run_lock; [done|rewrite Es1; simpl; rewrite Hl; apply not_elem_of_nil|]. intros s2 Hr2 Es2.
  assert (conds s2 !! c = Some q /\ locks s2 = [CondLock c]) as (Hc2 & Hl2) by (rewrite Es2, Es1; simpl; by rewrite Hl).
  assert (forall s', running s None s' th1 -> locks s' = [] ->
    we (hal_enable_preemption;; op_return 0) s' (fun _ s' => inv s' /\ after s s')) as Hend.
  { intros s' Hr' Hl'. apply wpe_bind. eapply we_run_enable; [done|rewrite Eth1; simpl; lia|].
    intros s5 th5 Hr5 _ Es5. eapply we_op_return; [done|]. by rewrite Es5. }
  apply wpe_bind. destruct q as [|w0 ws].
  - eapply we_run_unlock; [done|done|apply not_elem_of_nil|]. intros s3 Hr3 Es3. apply Hend; [done|by rewrite Es3].
  - set (q := w0 :: ws) in *. assert (qlist s2 (PCond c) = q) as Eq by (simpl; by rewrite Hc2).
    apply wpe_bind. apply dequeue_highest_spec; [|done|].
    { rewrite <-Eq. eapply queue_waiters; [apply Hr2|done|done]. }
    intros n Hin. assert (exists nth, ts s2 !! n = Some nth) as [nth Hnth].
    { rewrite <-Eq in Hin. destruct (queued_asleep _ _ _ _ _ (r_base _ _ _ _ Hr2) Hin) as (x & Hx & _); eauto. }
    apply wpe_bind, we_modify. apply wpe_bind, we_unlock; [simpl; rewrite Hl2; by left|]. simpl. rewrite Hl2.
    rewrite filter_unlock by apply not_elem_of_nil. apply wpe_bind. eapply we_upd_t; [done|].
    apply wpe_bind. eapply (we_undo_wake None s2); [apply Hr2|done|]. intros a1 Hdue Eevs.
    match goal with |- wpe _ _ ?x _ => set (s4 := x) end.
    destruct (wake_from_cond None s2 s4 c q n nth a1) as [Ha Hfl]; try done; [apply Hr2|].
    eapply we_run_unblock; [exact Hr2|exact Ha|done|simpl; apply not_elem_of_nil|].
    intros s5 Hr5 Es5. apply Hend; [done|by rewrite Es5].
Qed.

Lemma we_for_each {A} (f : A -> M kernel unit) (I : list A -> kernel -> Prop) l s :
  I l s -> (forall x l' s, I (x :: l') s -> we (f x) s (fun _ s' => I l' s')) ->
  we (for_each f l) s (fun _ s' => I [] s').
Proof.
  revert s. induction l as [|x l IH]; intros s HI Hf; simpl; [by apply wpe_ret|].
  apply wpe_bind. eapply wpe_mono; [by apply Hf|]. intros [] s' HI'. by apply IH.
Qed.

(** The state in which only [rest] waits for the condition. *)
Definition left_waiting (c : Z) (rest : list Z) (s : kernel) : kernel := set_conds (<[c := rest]> (conds s)) s.

Lemma broadcast_one s0 s th c n rest t :
  running s0 None (left_waiting c (n :: rest) s) th -> t = current s -> SchedLock ∉ locks s ->
  we ((if n =? t then panic "cond: wake up self?" else mret tt);;
      undo_wake n;; upd_t n (set_waitcond 0);; thread_unblock n THREAD_SLEEP_COND) s
    (fun _ s' => running s0 None (left_waiting c rest s') th /\ current s' = current s /\ locks s' = locks s).
Proof.
  intros Hr -> Hl. set (v := left_waiting c (n :: rest) s) in *. pose proof (r_base _ _ _ _ Hr) as Hb.
  assert (conds v !! c = Some (n :: rest)) as Hc by (simpl; by rewrite lookup_insert_eq).
  assert (qlist v (PCond c) = n :: rest) as Eq by (simpl; by rewrite lookup_insert_eq).
  destruct (queued_asleep None [] v (PCond c) n) as (nth & Hnth & Hne & Hw & _); [done|rewrite Eq; by left|done|done|].
  apply wpe_bind. rewrite (proj2 (Z.eqb_neq _ _)) by done. apply wpe_ret.
  apply wpe_bind. eapply (we_undo_wake None v); [done|done|]. intros a1 Hdue Eevs.
  apply wpe_bind. eapply we_upd_t; [done|].
  match goal with |- wpe _ _ ?x _ => set (s4 := x) end.
  assert (remove n (n :: rest) = rest) as Erem.
  { pose proof (b_nodup _ _ _ Hb (PCond c)) as Hnd. rewrite Eq in Hnd. apply list.NoDup_cons in Hnd as [Hn _].
    unfold remove. rewrite filter_cons_False by auto. clear -Hn. induction rest as [|x l IH]; [done|].
    apply not_elem_of_cons in Hn as [Hx Hn]. rewrite filter_cons_True by auto. f_equal. auto. }
  assert (n ∈ n :: rest) as Hin by by left.
  destruct (wake_from_cond None v (left_waiting c rest s4) c (n :: rest) n nth a1) as [Ha Hfl]; try done.
  { rewrite Erem. unfold core, left_waiting. simpl. by rewrite insert_insert_eq. }
  eapply (we_unblock n THREAD_SLEEP_COND (set_waitcond 0 nth)); [simpl; by rewrite lookup_insert_eq|done|unfold is_wait_flag; tauto| |done|].
  - intros r. pose proof (asleep_not_runq None [] v n nth r Hb Hnth Hw Hne). by destruct r.
  - split; [|done]. change (left_waiting c rest (unblocked n (set_waitcond 0 nth) s4))
      with (unblocked n (set_waitcond 0 nth) (left_waiting c rest s4)). by eapply running_unblocked.
Qed.

Lemma cond_broadcast_ok s th c :
  inv s -> ts s !! current s = Some th -> kont th = KRun ->
  we (hal_cond_broadcast c) s (fun _ s' => inv s' /\ after s s').
Proof.
  intros Hi Hth Hk. pose proof (inv_running _ _ Hi Hth Hk) as Hr. pose proof (i_locks _ Hi) as Hl.
  pose proof (running_preempt _ _ _ _ Hr) as Hpd. unfold hal_cond_broadcast. apply wpe_bind, we_find_cond. intros q Hc.
  apply wpe_bind. eapply we_run_disable; [done|]. intros s1 th1 Hr1 Eth1 Es1.
  apply wpe_bind. eapply we_run_lock; [done|rewrite Es1; simpl; rewrite Hl; apply not_elem_of_nil|]. intros s2 Hr2 Es2.
  assert (conds s2 !! c = Some q /\ locks s2 = [CondLock c]) as (Hc2 & Hl2) by (rewrite Es2, Es1; simpl; by rewrite Hl).
  apply wpe_bind, we_gets.
  assert (forall s', running s None s' th1 -> locks s' = [CondLock c] ->
    we (hal_spin_unlock (Some (CondLock c));; hal_enable_preemption;; op_return 0) s' (fun _ s' => inv s' /\ after s s')) as Hend.
  { intros s' Hr' Hl'. apply wpe_bind. eapply we_run_unlock; [done|done|apply not_elem_of_nil|]. intros s4 Hr4 Es4.
    apply wpe_bind. eapply we_run_enable; [done|rewrite Eth1; simpl; lia|].
    intros s5 th5 Hr5 _ Es5. eapply we_op_return; [done|]. by rewrite Es5, Es4. }
  apply wpe_bind. destruct q as [|w0 ws]; [by apply wpe_ret, Hend|]. set (q := w0 :: ws) in *.
  apply wpe_bind. eapply wpe_mono.
  { apply (we_for_each _ (fun rest s' => running s None (left_waiting c rest s') th1 /\ current s' = current s2 /\ locks s' = locks s2)).
    - split; [|done]. apply (running_core _ _ s2); [|done|done]. unfold core, left_waiting. simpl.
      by rewrite insert_id.
    - intros n rest s' (Hr' & Ec & El). eapply wpe_mono; [apply (broadcast_one s s' th1 c n rest); [done|done|]|].
      + rewrite El, Hl2. by intros ?%list_elem_of_singleton.
      + simpl. intros _ s'' (Hr'' & Ec' & El'). split; [done|]. split; congruence. }
  simpl. intros _ s3 (Hr3 & _ & El3). apply we_modify. apply Hend; [exact Hr3|]. simpl. congruence.
Qed.

Lemma wpe_bind_inv {S A B} E (m : M S A) (k : A -> M S B) s Q :
  wpe E (m ≫= k) s Q -> wpe E m s (fun a s' => wpe E (k a) s' Q).
Proof. unfold wpe, mbind, M_bind. by destruct (m s). Qed.

(** ** Semaphores *)

Lemma running_sem s0 over s th x ci v :
  running s0 over s th -> sems s !! x = Some ci ->
  running s0 over (set_sems (<[x := mkSem v (s_waiting ci)]> (sems s)) s) th.
Proof.
  intros Hr Hx. pose proof (r_base _ _ _ _ Hr) as Hb. eapply running_sync; [done| |done..].
  apply (base_sync over over [] s); try done.
  - left. split; [done|]. intros p. rewrite qlist_sem. case_decide; [|done]. subst. simpl. by rewrite Hx.
  - intros t y _. apply kont_ok_mono; [eauto|]. intros x' Hx'. simpl. apply lookup_insert_is_Some'. auto.
  - apply Hb.
  - apply Hb.
Qed.

Lemma running_enter_sem s0 s th x ci :
  running s0 None s th -> sems s !! x = Some ci ->
  running s0 (Some (PSem x)) (set_sems (<[x := mkSem (value ci) (s_waiting ci ++ [current s])]> (sems s)) s) th.
Proof.
  intros Hr Hx. pose proof (r_base _ _ _ _ Hr) as Hb. eapply running_sync; [done| |done..].
  apply (base_sync None (Some (PSem x)) [] s); try done.
  - right. exists (PSem x). split; [done|]. split; [done|]. intros p. rewrite qlist_sem.
    case_decide; [|done]. subst. simpl. by rewrite Hx.
  - intros t y _. apply kont_ok_mono; [eauto|]. intros x' Hx'. simpl. apply lookup_insert_is_Some'. auto.
  - apply Hb.
  - apply Hb.
Qed.

(** The semaphore is taken. *)
Lemma sem_taken s0 s th x v ci :
  running s0 None s th -> locks s = [SemLock x] -> sems s !! x = Some ci -> 0 < preemption_disabled th ->
  we (set_sem x (mkSem v (s_waiting ci));; hal_spin_unlock (Some (SemLock x));; hal_enable_preemption;; op_return 0) s
    (fun _ s' => inv s' /\ after s0 s').
Proof.
  intros Hr Hl Hx Hpd. apply wpe_bind, we_modify. pose proof (running_sem _ _ _ _ _ _ v Hr Hx) as Hr1.
  apply wpe_bind. eapply we_run_unlock; [done|done|apply not_elem_of_nil|]. intros s2 Hr2 Es2.
  apply wpe_bind. eapply we_run_enable; [done|done|]. intros s3 th3 Hr3 _ Es3.
  eapply we_op_return; [done|]. by rewrite Es3, Es2.
Qed.

(** The thread enters the queue and takes its own lock for that of the semaphore. *)
Lemma sem_enter s0 s th x ci Q (m : M kernel unit) :
  running s0 None s th -> locks s = [SemLock x] -> sems s !! x = Some ci ->
  (forall s', running s0 (Some (PSem x)) s' (set_waitsem x th) -> locks s' = [WaitLock (current s)] ->
     current s' = current s -> idlest s' = idlest s -> is_Some (sems s' !! x) -> we m s' Q) ->
  we (t_queue_check (s_waiting ci) (current s);;
      set_sem x (mkSem (value ci) (s_waiting ci ++ [current s]));;
      hal_spin_lock (WaitLock (current s));; hal_spin_unlock (Some (SemLock x));;
      upd_t (current s) (set_waitsem x);; m) s Q.
Proof.
  intros Hr Hl Hx HQ. apply wpe_bind, we_assert.
  { apply bool_decide_eq_true_2. pose proof (cur_not_queued _ (PSem x) (r_base _ _ _ _ Hr)) as Hn.
    simpl in Hn. by rewrite Hx in Hn. }
  apply wpe_bind, we_modify. pose proof (running_enter_sem _ _ _ _ _ Hr Hx) as Hr1.
  apply wpe_bind. eapply we_run_lock; [done|simpl; rewrite Hl; by intros ?%list_elem_of_singleton|]. intros s2 Hr2 Es2.
  apply wpe_bind, we_unlock; [rewrite Es2; simpl; rewrite Hl; right; by left|].
  assert (filter (fun y => y <> SemLock x) (locks s2) = [WaitLock (current s)]) as Efil.
  { rewrite Es2. simpl. rewrite Hl, filter_cons_True, filter_cons_False by auto. done. }
  rewrite Efil. apply wpe_bind.
  eapply we_run_upd_t; [by apply (running_core _ _ s2)|by rewrite Es2|run_like_tac Hr2|].
  intros s3 Hr3 Es3. apply HQ; [exact Hr3|by rewrite Es3, Es2..|]. rewrite Es3, Es2. simpl. by rewrite lookup_insert_eq.
Qed.

Lemma sem_loop_ok s0 s th x ci :
  running s0 None s th -> locks s = [SemLock x] -> sems s !! x = Some ci ->
  current s <> idlest s -> priority th <> 0 -> 0 < preemption_disabled th ->
  we (sem_loop x) s (fun _ s' => inv s' /\ after s0 s').
Proof.
  intros Hr Hl Hx Hidl Hp Hpd. apply wpe_bind, we_gets. apply wpe_bind. eapply we_get_sem; [done|].
  destruct (value ci <=? 0); [|by eapply sem_taken].
  eapply sem_enter; [done..|]. intros s1 Hr1 Hl1 Ec1 Ei1 Hx1.
  apply (running_block_untimed s0 s1 (set_waitsem x th) _ (KSem x)); try done.
  repeat split; simpl; try done; congruence.
Qed.

Lemma sem_etc_loop_ok s0 s th x ci val flags msec :
  running s0 None s th -> locks s = [SemLock x] -> sems s !! x = Some ci ->
  current s <> idlest s -> priority th <> 0 -> 0 < preemption_disabled th ->
  we (sem_etc_loop x val flags msec) s (fun _ s' => inv s' /\ after s0 s').
Proof.
  intros Hr Hl Hx Hidl Hp Hpd. apply wpe_bind, we_gets. apply wpe_bind. eapply we_get_sem; [done|].
  destruct (value ci <=? 0); [|by eapply sem_taken].
  eapply sem_enter; [done..|]. intros s1 Hr1 Hl1 Ec1 Ei1 Hx1.
  destruct (Z.land flags SEM_FLAG_TIMEOUT =? 0) eqn:Ef; simpl.
  - apply wpe_bind, wpe_ret.
    apply (running_block_untimed s0 s1 (set_waitsem x th) _ (KSemEtc x val flags msec)); try done; [|simpl; by rewrite Ef].
    repeat split; simpl; try done; congruence.
  - apply wpe_bind, wpe_bind. eapply we_run_upd_t; [done|done|by eapply run_like_clear|]. intros s2 Hr2 Es2.
    pose proof (running_block_timed s0 s2 (clear_timedout (set_waitsem x th)) (WaitLock (current s)) (KSemEtc x val flags msec)
      (current s) F_wake_sem_thread msec) as Hblk.
    eapply wpe_bind_inv, Hblk; try done; try (rewrite Es2; simpl; congruence); [|simpl; by rewrite Ef].
    repeat split; simpl; try done; rewrite ?Es2; simpl; done || congruence.
Qed.

Lemma sem_acquire_ok s th x :
  inv s -> ts s !! current s = Some th -> kont th = KRun -> current s <> idlest s -> priority th <> 0 ->
  we (hal_sem_acquire x) s (fun _ s' => inv s' /\ after s s').
Proof.
  intros Hi Hth Hk Hidl Hp. pose proof (inv_running _ _ Hi Hth Hk) as Hr. pose proof (i_locks _ Hi) as Hl.
  pose proof (running_preempt _ _ _ _ Hr) as Hpd. apply wpe_bind, we_find_sem. intros ci Hx.
  apply wpe_bind. eapply we_run_disable; [done|]. intros s1 th1 Hr1 Eth1 Es1.
  apply wpe_bind. eapply we_run_lock; [done|rewrite Es1; simpl; rewrite Hl; apply not_elem_of_nil|]. intros s2 Hr2 Es2.
  apply (sem_loop_ok s s2 th1 x ci); try done; try (rewrite Es2, Es1; simpl; by rewrite ?Hl).
  - by rewrite Eth1.
  - rewrite Eth1. simpl. lia.
Qed.

Lemma sem_acquire_etc_ok s th x val flags uSec :
  inv s -> ts s !! current s = Some th -> kont th = KRun -> current s <> idlest s -> priority th <> 0 ->
  we (hal_sem_acquire_etc x val flags uSec) s (fun _ s' => inv s' /\ after s s').
Proof.
  intros Hi Hth Hk Hidl Hp. pose proof (inv_running _ _ Hi Hth Hk) as Hr. pose proof (i_locks _ Hi) as Hl.
  pose proof (running_preempt _ _ _ _ Hr) as Hpd. apply wpe_bind, we_find_sem. intros ci Hx.
  apply wpe_bind. eapply we_run_disable; [done|]. intros s1 th1 Hr1 Eth1 Es1.
  apply wpe_bind. eapply we_run_lock; [done|rewrite Es1; simpl; rewrite Hl; apply not_elem_of_nil|]. intros s2 Hr2 Es2.
  assert (sems s2 !! x = Some ci /\ locks s2 = [SemLock x] /\ current s2 = current s /\ idlest s2 = idlest s)
    as (Hx2 & Hl2 & Ec2 & Ei2) by (rewrite Es2, Es1; simpl; by rewrite Hl).
  assert (priority th1 <> 0 /\ 0 < preemption_disabled th1) as [Hp1 Hpd1] by (rewrite Eth1; simpl; split; [done|lia]).
  apply wpe_bind. eapply we_get_sem; [done|]. apply wpe_bind. destruct (_ && _).
  - apply we_modify. eapply sem_etc_loop_ok; [by apply running_sem|done|simpl; by rewrite lookup_insert_eq|simpl; congruence|done|done].
  - apply wpe_ret. eapply sem_etc_loop_ok; [done|done|done|congruence|done|done].
Qed.

Lemma sem_zero_ok s th x :
  inv s -> ts s !! current s = Some th -> kont th = KRun ->
  we (hal_sem_zero x) s (fun _ s' => inv s' /\ after s s').
Proof.
  intros Hi Hth Hk. pose proof (inv_running _ _ Hi Hth Hk) as Hr. pose proof (i_locks _ Hi) as Hl.
  pose proof (running_preempt _ _ _ _ Hr) as Hpd. apply wpe_bind, we_find_sem. intros ci Hx.
  apply wpe_bind. eapply we_run_disable; [done|]. intros s1 th1 Hr1 Eth1 Es1.
  apply wpe_bind. eapply we_run_lock; [done|rewrite Es1; simpl; rewrite Hl; apply not_elem_of_nil|]. intros s2 Hr2 Es2.
  assert (sems s2 !! x = Some ci /\ locks s2 = [SemLock x]) as (Hx2 & Hl2) by (rewrite Es2, Es1; simpl; by rewrite Hl).
  assert (forall s', running s None s' th1 -> locks s' = [SemLock x] ->
    we (hal_spin_unlock (Some (SemLock x));; hal_enable_preemption;; op_return (if value ci <=? 0 then EINVAL else 0)) s'
      (fun _ s' => inv s' /\ after s s')) as Hend.
  { intros s' Hr' Hl'. apply wpe_bind. eapply we_run_unlock; [done|done|apply not_elem_of_nil|]. intros s4 Hr4 Es4.
    apply wpe_bind. eapply we_run_enable; [done|rewrite Eth1; simpl; lia|].
    intros s5 th5 Hr5 _ Es5. eapply we_op_return; [done|]. by rewrite Es5, Es4. }
  apply wpe_bind. destruct (0 <? value ci).
  - apply we_modify. apply Hend; [by apply running_sem|done].
  - apply wpe_ret. by apply Hend.
Qed.

Lemma wake_from_sem over s s1 x ci v n nth a1 :
  base over [] s -> sems s !! x = Some ci -> n ∈ s_waiting ci -> over <> Some (PSem x) -> ts s !! n = Some nth ->
  due_ok (due a1) -> (due a1).*2 = filter (fun e => tc_at e <> n) (queued s) ->
  core s1 = core (set_events (queue_of a1) (set_sems (<[x := mkSem v (remove n (s_waiting ci))]> (sems s))
                   (set_threads (<[n := set_waitsem 0 nth]> (ts s)) s))) ->
  cnt_thread_sw s1 = cnt_thread_sw s ->
  about_to_wake [] [] s s1 n nth (set_waitsem 0 nth) /\ sleep_flags nth = THREAD_SLEEP_SEM.
Proof.
  intros Hb Hc Hin Ho Ht Hdue Eevs Ecore Ecnt.
  assert (n ∈ qlist s (PSem x)) as Hin' by (simpl; by rewrite Hc).
  destruct (queued_asleep _ _ _ _ _ Hb Hin' ltac:(done) Ho) as (y & Hy & Hne & Hw & Hwp & _).
  rewrite Ht in Hy. injection Hy as <-.
  pose proof (t_flags _ _ _ _ _ (b_thread _ _ _ Hb _ _ Ht) Hw) as [_ Hfl].
  assert (sems s1 = <[x := mkSem v (remove n (s_waiting ci))]> (sems s) /\ conds s1 = conds s /\ mutexes s1 = mutexes s
          /\ events s1 = queue_of a1) as (Es & Ec & Em & Ee).
  { unfold core in Ecore. injection Ecore as E1 E2 E3 E4 E5 E6 E7 E8 E9 E10 E11. auto. }
  split; [|rewrite Hfl; by destruct (kont nth); simplify_eq/=].
  eapply wake_sync; [done|done|done|done|by split| | |done| | | |].
  - intros m rc Ek. by rewrite Ek in Hwp.
  - rewrite Ec, Es, Ee. exact Ecore.
  - intros p Hp. transitivity (qlist (set_sems (<[x := mkSem v (remove n (s_waiting ci))]> (sems s)) s) p).
    + destruct p as [r| | |]; [by destruct (Hp r)|..]; simpl; by rewrite ?Ec, ?Es, ?Em.
    + rewrite qlist_sem. destruct (decide (p = PSem x)) as [->|Hpc].
      * rewrite decide_True by done. simpl. by rewrite Hc.
      * by rewrite decide_False by congruence.
  - intros x' Hx'. rewrite Es. apply lookup_insert_is_Some'. auto.
  - rewrite Ec. apply Hb.
  - exists a1. by rewrite Ee.
Qed.

Lemma sem_release_ok s th x :
  inv s -> ts s !! current s = Some th -> kont th = KRun ->
  we (hal_sem_release x) s (fun _ s' => inv s' /\ after s s').
Proof.
  intros Hi Hth Hk. pose proof (inv_running _ _ Hi Hth Hk) as Hr. pose proof (i_locks _ Hi) as Hl.
  pose proof (running_preempt _ _ _ _ Hr) as Hpd. apply wpe_bind, we_find_sem. intros ci Hx.
  apply wpe_bind. eapply we_run_disable; [done|]. intros s1 th1 Hr1 Eth1 Es1.
  apply wpe_bind. eapply we_run_lock; [done|rewrite Es1; simpl; rewrite Hl; apply not_elem_of_nil|]. intros s2 Hr2 Es2.
  assert (sems s2 !! x = Some ci /\ locks s2 = [SemLock x]) as (Hx2 & Hl2) by (rewrite Es2, Es1; simpl; by rewrite Hl).
  assert (forall s', running s None s' th1 -> locks s' = [] ->
    we hal_enable_preemption s' (fun _ s' => inv s' /\ after s s')) as Hend.
  { intros s' Hr' Hl'. eapply we_run_enable; [done|rewrite Eth1; simpl; lia|].
    intros s5 th5 Hr5 _ Es5. eapply running_inv; [done|]. by rewrite Es5. }
  apply wpe_bind. destruct (s_waiting ci) as [|w0 ws] eqn:Ew.
  - apply wpe_bind, we_modify. pose proof (running_sem _ _ _ _ _ _ (value ci + 1) Hr2 Hx2) as Hr3. rewrite Ew in Hr3.
    eapply we_run_unlock; [done|done|apply not_elem_of_nil|]. intros s4 Hr4 Es4. apply Hend; [done|by rewrite Es4].
  - set (q := w0 :: ws) in *. assert (qlist s2 (PSem x) = q) as Eq by (simpl; by rewrite Hx2).
    apply wpe_bind. apply dequeue_highest_spec; [|done|].
    { rewrite <-Eq. eapply queue_waiters; [apply Hr2|done|done]. }
    intros n Hin. assert (exists nth, ts s2 !! n = Some nth) as [nth Hnth].
    { rewrite <-Eq in Hin. destruct (queued_asleep _ _ _ _ _ (r_base _ _ _ _ Hr2) Hin) as (y & Hy & _); eauto. }
    apply wpe_bind, we_modify. apply wpe_bind, we_unlock; [simpl; rewrite Hl2; by left|]. simpl. rewrite Hl2.
    rewrite filter_unlock by apply not_elem_of_nil. apply wpe_bind. eapply we_upd_t; [done|].
    apply wpe_bind. eapply (we_undo_wake None s2); [apply Hr2|done|]. intros a1 Hdue Eevs.
    match goal with |- wpe _ _ ?x _ => set (s4 := x) end.
    destruct (wake_from_sem None s2 s4 x ci (value ci + 1) n nth a1) as [Ha Hfl]; try done.
    { apply Hr2. } { by rewrite Ew. } { by rewrite Ew. }
    eapply we_run_unblock; [exact Hr2|exact Ha|done|simpl; apply not_elem_of_nil|].
    intros s5 Hr5 Es5. apply Hend; [done|by rewrite Es5].
Qed.

(** ** Creating and destroying mutexes, conditions and semaphores *)

Lemma no_thread_spec f s t th : no_thread f s = true -> ts s !! t = Some th -> f th = false.
Proof.
  intros Hn Ht. unfold no_thread in Hn. rewrite forallb_forall in Hn.
  specialize (Hn (t, th)). apply negb_true_iff, Hn, list_elem_of_In. by apply elem_of_map_to_list.
Qed.

(** The queues stay when objects without waiting threads come and go. *)
Lemma running_objects s0 s s' th :
  running s0 None s th -> ts s' = ts s -> cnt_thread_sw s' = cnt_thread_sw s ->
  core s' = core (with_sync (mutexes s') (conds s') (sems s') s) ->
  (forall p, qlist s' p = qlist s p) ->
  (forall t x, ts s !! t = Some x -> kont_ok (mutexes s) (sems s) t x -> kont_ok (mutexes s') (sems s') t x) ->
  (forall m mi, mutexes s' !! m = Some mi -> mutexes s !! m = Some mi \/ (owner mi = 0 /\ m_waiting mi = [])) ->
  conds s' !! 0 = None -> running s0 None s' th.
Proof.
  intros Hr Ets Ecnt Ecore Hq Hk Hm Hc. pose proof (r_base _ _ _ _ Hr) as Hb.
  assert (current s' = current s) as Ecur by (unfold core in Ecore; injection Ecore; auto).
  eapply running_sync; [done| |done|done|done]. apply (base_sync None None [] s); try done; [by left|].
  intros m mi Hmi. destruct (Hm m mi Hmi) as [H|[H0 H1]]; [by apply (b_mutex _ _ _ Hb m)|]. by split.
Qed.

Lemma mutex_init_ok s th m :
  inv s -> ts s !! current s = Some th -> kont th = KRun ->
  we (hal_mutex_init m) s (fun _ s' => inv s' /\ after s s').
Proof.
  intros Hi Hth Hk. pose proof (inv_running _ _ Hi Hth Hk) as Hr. apply wpe_bind, we_get.
  apply wpe_bind, we_assert_misuse; [misuse|]. intros Hm%bool_decide_eq_true_1. apply wpe_bind, we_modify.
  eapply we_op_return; [|apply Hi]. eapply running_objects; try done.
  - intros p. rewrite qlist_mutex. case_decide; [|done]. subst. simpl. by rewrite Hm.
  - intros t x _. apply kont_ok_mono; [|done]. intros m' mi Hmi. exists mi. simpl.
    rewrite lookup_insert_ne; [done|congruence].
  - simpl. intros m' mi [[_ <-]|[_ H]]%lookup_insert_Some; auto.
  - apply (r_base _ _ _ _ Hr).
Qed.

Lemma cond_init_ok s th c :
  inv s -> ts s !! current s = Some th -> kont th = KRun -> c <> 0 ->
  we (hal_cond_init c) s (fun _ s' => inv s' /\ after s s').
Proof.
  intros Hi Hth Hk Hc0. pose proof (inv_running _ _ Hi Hth Hk) as Hr. apply wpe_bind, we_get.
  apply wpe_bind, we_assert_misuse; [misuse|]. intros Hm%bool_decide_eq_true_1. apply wpe_bind, we_modify.
  eapply we_op_return; [|apply Hi]. eapply running_objects; try done; auto.
  - intros p. rewrite qlist_cond. case_decide; [|done]. subst. simpl. by rewrite Hm.
  - simpl. rewrite lookup_insert_ne by done. apply (r_base _ _ _ _ Hr).
Qed.

Lemma sem_init_ok s th x :
  inv s -> ts s !! current s = Some th -> kont th = KRun ->
  we (hal_sem_init x) s (fun _ s' => inv s' /\ after s s').
Proof.
  intros Hi Hth Hk. pose proof (inv_running _ _ Hi Hth Hk) as Hr. apply wpe_bind, we_get.
  apply wpe_bind, we_assert_misuse; [misuse|]. intros Hm%bool_decide_eq_true_1. apply wpe_bind, we_modify.
  eapply we_op_return; [|apply Hi]. eapply running_objects; try done; auto.
  - intros p. rewrite qlist_sem. case_decide; [|done]. subst. simpl. by rewrite Hm.
  - intros t y _. apply kont_ok_mono; [eauto|]. intros x' Hx'. simpl. apply lookup_insert_is_Some'. auto.
  - apply (r_base _ _ _ _ Hr).
Qed.

Lemma mutex_destroy_ok s th m :
  inv s -> ts s !! current s = Some th -> kont th = KRun -> is_Some (mutexes s !! m) ->
  no_thread (uses_mutex m) s = true ->
  we (hal_mutex_destroy m) s (fun _ s' => inv s' /\ after s s').
Proof.
  intros Hi Hth Hk [mi Hm] Hn. pose proof (inv_running _ _ Hi Hth Hk) as Hr. pose proof (r_base _ _ _ _ Hr) as Hb.
  apply wpe_bind, we_get. apply wpe_bind. eapply we_some; [done|].
  destruct (Z.eqb_spec (owner mi) 0) as [Ho|Ho]; simpl; [|apply wpe_panic; misuse].
  apply wpe_bind, we_modify. eapply we_op_return; [|apply Hi]. eapply running_objects; try done.
  - intros [c|m'|c|x]; try done. simpl. destruct (decide (m' = m)) as [->|Hne].
    + rewrite lookup_delete_eq, Hm. simpl. symmetry. by apply (b_mutex _ _ _ Hb _ _ Hm).
    + by rewrite lookup_delete_ne.
  - intros t x Hx. pose proof (no_thread_spec _ _ _ _ Hn Hx) as Hu. unfold kont_ok, uses_mutex in *. simpl.
    destruct (kont x); try done; apply Z.eqb_neq in Hu.
    + intros H Hw. destruct (H Hw) as (y & Hy & Ey). exists y. by rewrite lookup_delete_ne.
    + by rewrite lookup_delete_ne.
    + by rewrite lookup_delete_ne.
  - simpl. intros m' x [_ Hx]%lookup_delete_Some. auto.
  - apply Hb.
Qed.

Lemma cond_destroy_ok s th c :
  inv s -> ts s !! current s = Some th -> kont th = KRun -> no_thread (waits_cond c) s = true ->
  we (hal_cond_destroy c) s (fun _ s' => inv s' /\ after s s').
Proof.
  intros Hi Hth Hk Hn. pose proof (inv_running _ _ Hi Hth Hk) as Hr. pose proof (r_base _ _ _ _ Hr) as Hb.
  apply wpe_bind, we_modify. eapply we_op_return; [|apply Hi]. eapply running_objects; try done; auto.
  - intros [r|m'|c'|x]; try done. simpl. destruct (decide (c' = c)) as [->|Hne]; [|by rewrite lookup_delete_ne].
    rewrite lookup_delete_eq. simpl. change (from_option id [] (conds s !! c)) with (qlist s (PCond c)).
    destruct (qlist s (PCond c)) as [|n q] eqn:Eq; [done|exfalso].
    destruct (queued_asleep None [] s (PCond c) n) as (nth & Hnth & _ & _ & Hwp & _); [done|rewrite Eq; by left|done|done|].
    pose proof (no_thread_spec _ _ _ _ Hn Hnth) as Hu. unfold waits_cond in Hu.
    destruct (kont nth); simplify_eq/=; by rewrite Z.eqb_refl in Hu.
  - simpl. apply lookup_delete_None. right. apply Hb.
Qed.

Lemma sem_destroy_ok s th x :
  inv s -> ts s !! current s = Some th -> kont th = KRun -> no_thread (uses_sem x) s = true ->
  we (hal_sem_destroy x) s (fun _ s' => inv s' /\ after s s').
Proof.
  intros Hi Hth Hk Hn. pose proof (inv_running _ _ Hi Hth Hk) as Hr. pose proof (r_base _ _ _ _ Hr) as Hb.
  apply we_modify. eapply running_inv; [|apply Hi]. eapply running_objects; try done; auto.
  - intros [r|m'|c'|x']; try done. simpl. destruct (decide (x' = x)) as [->|Hne]; [|by rewrite lookup_delete_ne].
    rewrite lookup_delete_eq. simpl. change (from_option s_waiting [] (sems s !! x)) with (qlist s (PSem x)).
    destruct (qlist s (PSem x)) as [|n q] eqn:Eq; [done|exfalso].
    destruct (queued_asleep None [] s (PSem x) n) as (nth & Hnth & _ & _ & Hwp & _); [done|rewrite Eq; by left|done|done|].
    pose proof (no_thread_spec _ _ _ _ Hn Hnth) as Hu. unfold uses_sem in Hu.
    destruct (kont nth); simplify_eq/=; by rewrite Z.eqb_refl in Hu.
  - intros t y Hy. pose proof (no_thread_spec _ _ _ _ Hn Hy) as Hu. unfold kont_ok, uses_sem in *. simpl.
    destruct (kont y); try done; apply Z.eqb_neq in Hu; by rewrite lookup_delete_ne.
  - apply Hb.
Qed.

(** ** Creation, priority and time *)

Lemma find_tid_ok n s :
  2 <= last_tid s < MAX_THREADS ->
  we (find_tid_loop (S n) (Z.of_nat n - 1)) s
    (fun tid s' => s' = set_last_tid tid s /\ 2 <= tid < MAX_THREADS /\ ts s !! tid = None).
Proof.
  revert s. induction n as [|n IH]; intros s Ht.
  - simpl. apply wpe_bind, we_get. destruct (ts s !! last_tid s) eqn:E.
    + apply wpe_bind, we_modify. apply wpe_panic. misuse.
    + apply wpe_ret. split; [by destruct s|done].
  - remember (S n) as k eqn:Ek. cbn [find_tid_loop]. apply wpe_bind, we_get. destruct (ts s !! last_tid s) eqn:E.
    + apply wpe_bind, we_modify. rewrite (proj2 (Z.ltb_ge _ _)) by lia.
      replace (Z.of_nat k - 1 - 1) with (Z.of_nat n - 1) by lia.
      set (t' := if _ : bool then _ else _).
      assert (2 <= t' < MAX_THREADS) as Ht' by (unfold t', MAX_THREADS in *; destruct (Z.leb_spec 1024 (last_tid s + 1)); lia).
      eapply wpe_mono; [exact (IH (set_last_tid t' s) Ht')|].
      * simpl. intros tid s' (-> & Hr & Hn). done.
    + apply wpe_ret. split; [by destruct s|done].
Qed.

Definition new_thread (flags : Z) : thread := mkThread THREAD_PRIO_NORM 0 flags 0 0 0 0 0 0 None KRun 0.

Lemma base_new s t flags :
  base None [] s -> ts s !! t = None -> 2 <= t < MAX_THREADS -> no_schedule (new_thread flags) = false ->
  base None [] (set_runq RNorm (runq_norm s ++ [t]) (set_last_tid t (set_threads (<[t := new_thread flags]> (ts s)) s))).
Proof.
  intros [Hnd Hq Ht Hm Hc Hcur Hidl (a & Ea & Hdue & [En Es Eco]) Htid] Hn Hr Hns.
  assert (t <> current s) as Hne by (intros ->; destruct Hcur; congruence).
  assert (t <> idlest s) as Hni by (intros ->; destruct Hidl; congruence).
  assert (forall p, t ∉ qlist s p) as Hnq by (intros p (x & Hx & _)%Hq; congruence).
  set (s' := set_runq _ _ _).
  assert (forall p, qlist s' p = if decide (p = PRun RNorm) then qlist s p ++ [t] else qlist s p) as Eq.
  { intros [[]|m|c|x]; by rewrite ?decide_True, ?decide_False by done. }
  split; simpl.
  - intros p. rewrite Eq. case_decide; [|done]. apply list.NoDup_app. split; [done|]. split; [|apply NoDup_singleton].
    intros x Hx ->%list_elem_of_singleton. by apply (Hnq p).
  - intros p x. rewrite Eq. destruct (decide (x = t)) as [->|Hx].
    + rewrite lookup_insert_eq. transitivity (p = PRun RNorm).
      * case_decide as Hp; [split; [done|]; intros _; apply elem_of_app; right; by left|].
        split; [|done]. intros Hin. by destruct (Hnq p).
      * split; [intros ->; eexists; split; [done|]; by rewrite place_of_ne, decide_True|].
        intros (y & [= <-] & Hy). rewrite place_of_ne, decide_True in Hy by done. by injection Hy.
    + rewrite lookup_insert_ne by auto. rewrite <-Hq. case_decide; [|done].
      rewrite elem_of_app, list_elem_of_singleton. tauto.
  - intros x th [[<- <-]|[_ Hx]]%lookup_insert_Some; [|by apply Ht]. split; simpl; try done; [lia|].
    split; [done|]. rewrite Hns. done.
  - intros m mi Hmi. destruct (Hm m mi Hmi) as [H0 H1]. split; [done|]. intros Ho. apply lookup_insert_is_Some'. auto.
  - done.
  - apply lookup_insert_is_Some'. auto.
  - apply lookup_insert_is_Some'. auto.
  - exists a. split; [done|]. split; [done|]. split; [done| |].
    + intros e He. destruct (Es e He) as (x & Hx & Hev). exists x. split; [|done].
      rewrite lookup_insert_ne; [done|congruence].
    + intros x th [[<- <-]|[_ Hx]]%lookup_insert_Some; [by intros []|by eapply Eco].
  - unfold MAX_THREADS in *. lia.
Qed.

Lemma create_ok s th flags :
  inv s -> ts s !! current s = Some th -> kont th = KRun ->
  we (phantom_create_thread flags) s (fun _ s' => inv s' /\ after s s').
Proof.
  intros Hi Hth Hk. pose proof (inv_running _ _ Hi Hth Hk) as Hr. pose proof (r_base _ _ _ _ Hr) as Hb.
  apply wpe_bind, we_assert_misuse; [misuse|]. intros Hf%Z.eqb_eq. apply wpe_bind, wpe_bind.
  eapply wpe_mono; [exact (find_tid_ok 1025 s (b_tid _ _ _ Hb))|]. intros t s1 (-> & Ht & Hn).
  apply wpe_bind, we_modify. apply wpe_ret. simpl.
  do 3 (apply wpe_bind; eapply we_upd_t; [simpl; by rewrite lookup_insert_eq|]; simpl; rewrite insert_insert_eq).
  assert (set_sleep (Z.ldiff 32 32) (set_tflags (Z.lor 0 flags) (common_thread_init (mkThread 0 0 0 32 0 0 0 0 0 None KRun 0)))
          = new_thread flags) as Enew by (unfold new_thread, common_thread_init, set_sleep, set_tflags; simpl; by rewrite Z.lor_0_l).
  match goal with |- context [<[t := ?x]> (ts s)] => change x with
    (set_sleep (Z.ldiff 32 32) (set_tflags (Z.lor 0 flags) (common_thread_init (mkThread 0 0 0 32 0 0 0 0 0 None KRun 0)))) end.
  rewrite Enew. apply wpe_bind. eapply we_enqueue; [simpl; by rewrite lookup_insert_eq| |].
  { intros c Hin. assert (t ∈ qlist s (PRun c)) as (x & Hx & _)%(b_queue _ _ _ Hb) by (by destruct c). congruence. }
  assert (no_schedule (new_thread flags) = false) as Hns.
  { unfold no_schedule. simpl. apply negb_false_iff, Z.eqb_eq. apply Z.bits_inj_0. intros n. rewrite Z.land_spec.
    destruct (Z.eq_dec n 10) as [->|Hne]; [|change THREAD_FLAG_NOSCHEDULE with (2 ^ 10); rewrite Z.pow2_bits_false by lia; apply andb_false_r].
    apply (f_equal (fun z => Z.testbit z 10)) in Hf. rewrite Z.ldiff_spec in Hf. simpl in Hf. by rewrite andb_true_r in Hf |- *. }
  pose proof (base_new s t flags Hb Hn Ht Hns) as Hb'. eapply we_op_return; [|simpl; apply Hi].
  destruct Hr as [_ Hc Hw Hkr Hsw Hq Hp Hs]. split; try done.
  - simpl. rewrite lookup_insert_ne; [done|]. congruence.
  - simpl. intros x y [[<- <-]|[_ Hx]]%lookup_insert_Some; [done|by eapply Hsw].
  - split; try done; simpl.
    + intros x y Hx. exists y. rewrite lookup_insert_ne by congruence. by repeat split.
    + intros x y [[<- <-]|[_ Hx]]%lookup_insert_Some; [done|congruence].
Qed.

Lemma inv_resched b s : inv s -> inv (set_resched b s).
Proof. intros [Hb Hl Hsw Hr]. split; try done. by apply (base_core _ _ s). Qed.

(** The current thread is changed and goes on. *)
Lemma inv_upd_cur s th th' :
  inv s -> ts s !! current s = Some th -> awake th' -> sw_unlock th' = None -> ticks_left th' <= ticks_left th ->
  thread_ok (mutexes s) (sems s) (idlest s) (current s) th' ->
  inv (set_threads (<[current s := th']> (ts s)) s) /\ quiet s (set_threads (<[current s := th']> (ts s)) s).
Proof.
  intros [Hb Hl Hsw Hr] Hth Hw' Hs' Hk Hok. pose proof (Hr _ Hth) as Hw. split.
  - split; simpl; [|done| |].
    + eapply base_upd; [done|done| |done]. unfold awake in *. split; [congruence|by left|done].
    + intros t x [[<- <-]|[_ Hx]]%lookup_insert_Some; [done|by eapply Hsw].
    + intros x. rewrite lookup_insert_eq. by intros [= <-].
  - apply (quiet_upd _ _ _ th); try done; [apply quiet_id|congruence].
Qed.

Lemma prio_bits p : prio_ok p = true -> 0 <= p < 32.
Proof.
  unfold prio_ok. intros [H1%Z.leb_le H2%Z.leb_le]%andb_prop.
  change (Z.lor THREAD_PRIO_HIGHEST THREAD_PRIO_MOD_REALTIME) with 31 in H2. lia.
Qed.

Lemma set_priority_ok s th tid prio :
  inv s -> ts s !! current s = Some th -> kont th = KRun -> current s <> idlest s ->
  we (t_set_priority tid prio) s (fun _ s' => inv s' /\ after s s').
Proof.
  intros Hi Hth Hk Hidl. pose proof (inv_running _ _ Hi Hth Hk) as Hr. pose proof (i_locks _ Hi) as Hl.
  apply wpe_bind, we_assert_misuse; [misuse|]. intros Hp%prio_bits.
  apply wpe_bind. eapply we_run_lock; [done|rewrite Hl; apply not_elem_of_nil|]. intros s1 Hr1 Es1.
  assert (forall ret, we (hal_spin_unlock (Some SchedLock);; op_return ret) s1 (fun _ s' => inv s' /\ after s s')) as Hend.
  { intros ret. apply wpe_bind. eapply we_run_unlock; [done|rewrite Es1; simpl; by rewrite Hl|apply not_elem_of_nil|].
    intros s2 Hr2 Es2. eapply we_op_return; [done|by rewrite Es2]. }
  apply wpe_bind, wpe_bind, we_get. apply wpe_ret. apply wpe_bind, we_gets. apply wpe_bind.
  assert (ts s1 = ts s /\ current s1 = current s) as [Et1 Ec1] by (rewrite Es1; done).
  destruct (if _ : bool then None else _) as [x|]; [|by apply wpe_ret].
  destruct (Z.eqb_spec tid (current s1)) as [->|Hne]; simpl; [|by apply wpe_ret].
  apply wpe_bind. eapply we_upd_t; [rewrite Et1, Ec1; done|]. apply wpe_ret. rewrite Es1. simpl.
  apply wpe_bind, we_unlock; [simpl; by left|]. simpl. rewrite Hl, filter_unlock by apply not_elem_of_nil.
  eapply we_upd_cur; [simpl; by rewrite lookup_insert_eq|]. simpl. rewrite insert_insert_eq.
  pose proof (inv_upd_cur s th (set_result 0 (set_priority prio th)) Hi Hth) as Hu.
  match goal with |- inv ?x /\ _ => assert (x = set_threads (<[current s := set_result 0 (set_priority prio th)]> (ts s)) s) as -> end.
  { unfold set_threads, set_locks. simpl. by rewrite Hl. }
  destruct Hu as [Hi' Hq']; [exact (i_run _ Hi _ Hth)|exact (i_sw _ Hi _ _ Hth)|done| |].
  { pose proof (running_ok _ _ _ _ Hr) as [Htid _ Htk Hfl _ Hko Hpd Hii Hil]. by split. }
  split; [done|by left].
Qed.

Lemma time_interrupt_ok s th :
  inv s -> ts s !! current s = Some th ->
  we phantom_scheduler_time_interrupt s (fun _ s' => inv s' /\ after s s').
Proof.
  intros Hi Hth. pose proof (b_thread _ _ _ (i_base _ Hi) _ _ Hth) as Hok. apply wpe_bind. eapply we_cur_t; [done|].
  destruct (is_realtime (priority th)); [apply wpe_ret; split; [done|left; apply quiet_id]|].
  apply wpe_bind. eapply we_upd_cur; [done|].
  destruct (inv_upd_cur s th (set_ticks (ticks_left th - 1) th) Hi Hth) as [Hi' Ha].
  - exact (i_run _ Hi _ Hth).
  - exact (i_sw _ Hi _ _ Hth).
  - simpl. lia.
  - apply set_ticks_ok; [done|]. pose proof (t_ticks _ _ _ _ _ Hok). lia.
  - destruct (ticks_left th <=? 0); [apply we_modify|apply wpe_ret; split; [done|by left]]. split.
    + by apply inv_resched.
    + left. by apply (quiet_same _ _ _ Ha).
Qed.

Lemma switch_after s th s' :
  inv s -> ts s !! current s = Some th -> s' = s \/ switched None th s s' -> after s s'.
Proof.
  intros Hi Hth [->|Hs]; [left; apply quiet_id|right]. exists None, th, s.
  split; [apply quiet_id|]. split; [apply Hi|]. split; [done|]. split; [done|]. split; [done|].
  intros x. rewrite Hth. by intros [= <-].
Qed.

Lemma soft_irq_ok s th :
  inv s -> ts s !! current s = Some th ->
  we phantom_scheduler_soft_interrupt s (fun _ s' => inv s' /\ after s s').
Proof.
  intros Hi Hth. eapply wpe_mono; [eapply soft_interrupt_ok; [by apply inv_may_switch|done]|].
  simpl. intros _ s' [Hi' Hs]. split; [done|]. by eapply switch_after.
Qed.

Lemma yield_ok s th :
  inv s -> ts s !! current s = Some th ->
  we phantom_scheduler_yield s (fun _ s' => inv s' /\ after s s').
Proof.
  intros Hi Hth. apply wpe_bind, we_modify. eapply wpe_mono; [apply (soft_irq_ok _ th); [by apply inv_resched|done]|].
  simpl. intros _ s' [Hi' Ha]. split; [done|]. destruct Ha as [Hq|(o & x & s1 & Hq & Hrest)].
  - left. destruct Hq. by split.
  - right. exists o, x, s1. split; [destruct Hq; by split|]. exact Hrest.
Qed.

(** ** Going on with a blocked operation *)

Lemma running_resume s th :
  inv s -> ts s !! current s = Some th ->
  running s None (set_threads (<[current s := set_kont KRun th]> (ts s)) s) (set_kont KRun th).
Proof.
  intros Hi Hth. pose proof (b_thread _ _ _ (i_base _ Hi) _ _ Hth) as [Htid Hp Htk Hfl Hwt Hko Hpd Hii Hil].
  pose proof (i_run _ Hi _ Hth) as Hw.
  destruct (inv_upd_cur s th (set_kont KRun th) Hi Hth Hw) as [[Hb' Hl' Hsw' Hr'] Hq].
  - exact (i_sw _ Hi _ _ Hth).
  - done.
  - split; simpl; try done; [by destruct Hpd|]. intros Hx. by destruct (Hil Hx) as (? & ? & _).
  - split; try done; simpl; [by rewrite lookup_insert_eq|]. intros x. rewrite Hth. by intros [= <-].
Qed.

Lemma resume_ok s th :
  inv s -> ts s !! current s = Some th -> kont th <> KRun ->
  we resume s (fun _ s' => inv s' /\ after s s').
Proof.
  intros Hi Hth Hk. pose proof (running_resume s th Hi Hth) as Hr. pose proof (i_run _ Hi _ Hth) as Hw.
  pose proof (b_thread _ _ _ (i_base _ Hi) _ _ Hth) as Hok. pose proof (i_locks _ Hi) as Hl.
  assert (0 < preemption_disabled th) as Hpd by by apply Hok.
  assert (current s <> idlest s) as Hidl by (intros Hx; by destruct (t_idlest _ _ _ _ _ Hok Hx) as (_ & _ & ?)).
  pose proof (t_waits _ _ _ _ _ Hok Hk) as Hprio. pose proof (t_kont _ _ _ _ _ Hok) as Hko. unfold kont_ok in Hko.
  apply wpe_bind. eapply we_cur_t; [done|]. unfold awake in Hw. rewrite Hw. simpl.
  apply wpe_bind. eapply we_upd_cur; [done|]. set (s1 := set_threads _ s) in *.
  destruct (kont th) as [|m rc|c m|c m|x|x val flags msec|] eqn:Ek; [done|..].
  - by eapply mutex_lock_ret_ok.
  - apply wpe_bind. eapply we_run_enable; [done|done|]. intros s2 th2 Hr2 Eth2 Es2.
    eapply mutex_lock_ok; [done|by rewrite Es2|by rewrite Es2|rewrite Eth2; by apply Hprio].
  - apply wpe_bind. eapply we_run_upd; [done|by eapply run_like_clear|]. intros s2 Hr2 Es2.
    apply wpe_bind. eapply we_run_enable; [done|done|]. intros s3 th3 Hr3 Eth3 Es3.
    eapply mutex_lock_ok; [done|by rewrite Es3, Es2|by rewrite Es3, Es2|rewrite Eth3; by apply Hprio].
  - destruct Hko as [[ci Hx] _]. apply wpe_bind. eapply we_run_lock; [done|simpl; rewrite Hl; apply not_elem_of_nil|].
    intros s2 Hr2 Es2. eapply (sem_loop_ok s s2 _ x ci); try done; try (rewrite Es2; simpl; by rewrite ?Hl). by apply Hprio.
  - destruct Hko as [[ci Hx] _]. apply wpe_bind. eapply we_run_upd; [done|by eapply run_like_clear|]. intros s2 Hr2 Es2.
    destruct (is_timedout th).
    + apply wpe_bind. eapply we_run_enable; [done|done|]. intros s3 th3 Hr3 _ Es3. eapply we_op_return; [done|by rewrite Es3, Es2].
    + apply wpe_bind. eapply we_run_lock; [done|rewrite Es2; simpl; rewrite Hl; apply not_elem_of_nil|].
      intros s3 Hr3 Es3. eapply (sem_etc_loop_ok s s3 _ x ci); try done; try (rewrite Es3, Es2; simpl; by rewrite ?Hl). by apply Hprio.
  - eapply we_run_enable; [done|done|]. intros s2 th2 Hr2 _ Es2. eapply running_inv; [done|by rewrite Es2].
Qed.

(** ** The timer *)

Lemma not_periodic e : tc_flags e = TIMEDCALL_FLAG_CHECKLOCK -> has_flag TIMEDCALL_FLAG_PERIODIC e = false.
Proof. unfold has_flag. by intros ->. Qed.

(** When no lock is taken, what is due is called and is not queued again. *)
Lemma process_events s a :
  events s = queue_of a -> due_ok (due a) -> locks s = [] -> events_ok (due a).*2 (ts s) ->
  exists a' new, phantom_process_timed_calls (lock_taken (locks s)) (events s) = Ret tt (queue_of a')
    /\ fired a' = fired a ++ new /\ due_ok (due a') /\ new ++ (due a').*2 = (due a).*2.
Proof.
  intros Ea Hdue Hl Hev. rewrite Ea, Hl. rewrite process_tick by done.
  assert (forall e, e ∈ (due a).*2 -> tc_flags e = TIMEDCALL_FLAG_CHECKLOCK /\ tc_f e <> 0) as Hfl.
  { intros e He. destruct (e_sound _ _ Hev e He) as (th & _ & _ & E1 & E2 & _ & E3). split; congruence. }
  set (t := now a + 1). set (r := ready (lock_taken []) t (due a)). set (rest := drop (length r) (due a)).
  assert (r ++ rest = due a) as Happ by apply ready_drop.
  assert (forall l, stalled (lock_taken []) t l = false) as Hst.
  { intros [|[d e] l]; [done|]. simpl. unfold waits, lock_taken. rewrite bool_decide_eq_false_2 by apply not_elem_of_nil.
    by rewrite andb_false_r. }
  assert (forall x, x ∈ r -> x.2 ∈ (due a).*2) as Hin.
  { intros x Hx. apply list_elem_of_fmap_2. rewrite <-Happ. apply elem_of_app. auto. }
  assert (forall l q, (forall x, x ∈ q -> x.2 ∈ (due a).*2) -> foldl (rearm t) l q = l) as Hfold.
  { intros l q. revert l. induction q as [|x q IH]; intros l Hq; [done|]. simpl. unfold rearm at 2.
    rewrite not_periodic by (apply Hfl, Hq; by left). apply IH. intros y Hy. apply Hq. by right. }
  assert (calls r = r.*2) as Hcalls.
  { unfold calls. clear -Hin Hfl. induction r as [|x r IH]; [done|]. rewrite fmap_cons, filter_cons_True.
    - f_equal. apply IH. intros y Hy. apply Hin. by right.
    - apply Hfl, Hin. by left. }
  eexists (mkSched t (foldl (rearm t) rest r) (fired a ++ calls r)), r.*2.
  assert (tick (lock_taken []) a = Some (mkSched t (foldl (rearm t) rest r) (fired a ++ calls r))) as Etick.
  { unfold tick. fold t. fold r. fold rest. by rewrite Hst. }
  rewrite Etick. split; [done|]. split; [simpl; by rewrite Hcalls|]. split; [by eapply tick_ok|].
  simpl. rewrite Hfold by done. by rewrite <-Happ, fmap_app.
Qed.

(** In the timer interrupt that came in [s0], with [pend] still to be called. *)
Record in_timer (s0 : kernel) (pend : list timedcall) (s : kernel) : Prop := {
  it_base : base None pend s;
  it_locks : locks s = [];
  it_sw : forall t th, ts s !! t = Some th -> sw_unlock th = None;
  it_run : forall th, ts s !! current s = Some th -> awake th;
  it_quiet : quiet s0 s }.

Lemma timer_unblock s0 e pend s s1 n nth nth1 f :
  in_timer s0 (e :: pend) s -> about_to_wake (e :: pend) pend s s1 n nth nth1 -> f = sleep_flags nth -> locks s1 = [] ->
  we (thread_unblock n f) s1 (fun _ s' => in_timer s0 pend s').
Proof.
  intros [Hb Hl Hsw Hr Hq] Ha -> Hl1. eapply about_to_wake_run; [done|done|rewrite Hl1; apply not_elem_of_nil|].
  pose proof (base_unblocked _ _ _ _ _ _ _ _ Hb Ha) as Hb'.
  destruct Ha as [Hne Ht Hw Ets Hlike Ecore Ecnt _ _ _ _ _ _].
  unfold core in Ecore. injection Ecore as E1 E2 E3 Ei En Er. simpl in *.
  assert (ts (unblocked n nth1 s1) = <[n := set_sleep 0 nth1]> (ts s)) as Ets'
    by (unfold unblocked; simpl; rewrite Ets; apply insert_insert_eq).
  split; try done; rewrite ?Ets'.
  - intros t x [[<- <-]|[_ Hx]]%lookup_insert_Some; [|by eapply Hsw]. simpl. rewrite (w_sw _ _ Hlike). by eapply Hsw.
  - simpl. rewrite E2, lookup_insert_ne by auto. done.
  - apply (quiet_same s0 (set_threads (<[n := set_sleep 0 nth1]> (ts s)) s)); [|done|done|done].
    apply (quiet_upd _ _ _ nth); [done|done|simpl; rewrite (w_ticks _ _ Hlike); done| |].
    + intros _. simpl. split; [apply Hlike|]. split; [apply Hlike|done].
    + simpl. rewrite (w_ticks _ _ Hlike), (w_prio _ _ Hlike). by apply (q_new _ _ Hq).
Qed.

(** The call of [e] is the only one of its thread. *)
Lemma called_events e pend s :
  base None (e :: pend) s ->
  exists a, events s = queue_of a /\ due_ok (due a)
    /\ pend ++ (due a).*2 = filter (fun x => tc_at x <> tc_at e) ((e :: pend) ++ queued s).
Proof.
  intros Hb. destruct (b_events _ _ _ Hb) as (a & Ea & Hdue & Hev). exists a. split; [done|]. split; [done|].
  rewrite (queued_due s a) by done. pose proof (e_nodup _ _ Hev) as Hnd. simpl in *.
  apply list.NoDup_cons in Hnd as [Hn _]. rewrite filter_cons_False by auto. symmetry. by apply filter_none.
Qed.

Lemma we_get_thread over pend s n th Q :
  base over pend s -> ts s !! n = Some th -> Q n s -> we (get_thread n) s Q.
Proof.
  intros Hb Ht HQ. pose proof (t_tid _ _ _ _ _ (b_thread _ _ _ Hb _ _ Ht)) as Htid.
  apply wpe_bind, we_assert.
  { apply andb_true_intro. split; apply Z.leb_le; lia. }
  apply wpe_bind, we_get. apply wpe_bind, we_assert; [apply bool_decide_eq_true_2; eauto|]. done.
Qed.

Lemma wake_like_timedout th : wake_like th (set_timedout th).
Proof. split; try done. apply no_schedule_lor. Qed.

Lemma run_timed_ok s0 e pend s :
  in_timer s0 (e :: pend) s -> we (run_timed e) s (fun _ s' => in_timer s0 pend s').
Proof.
  intros Hit. pose proof (it_base _ _ _ Hit) as Hb. destruct (b_events _ _ _ Hb) as (a & Ea & Hdue & Hev).
  destruct (e_sound _ _ Hev e ltac:(by left)) as (nth & Hnth & Hw & Ef & Ef0 & Earg & _).
  destruct (called_events _ _ _ Hb) as (a1 & Ea1 & Hdue1 & Eevs). set (n := tc_at e) in *.
  assert (n <> current s) as Hne by (intros Hx; apply Hw, (it_run _ _ _ Hit); by rewrite <-Hx).
  pose proof (b_thread _ _ _ Hb _ _ Hnth) as Hok. pose proof (t_flags _ _ _ _ _ Hok Hw) as [_ Hfl].
  pose proof (t_kont _ _ _ _ _ Hok) as Hko. unfold kont_ok in Hko.
  assert (forall p, wait_place (kont nth) = Some p -> n ∈ qlist s p) as Hin.
  { intros p Hp. apply (b_queue _ _ _ Hb). exists nth. split; [done|]. by rewrite place_of_ne, decide_False. }
  unfold run_timed. rewrite Ef, Earg. destruct (kont nth) as [|m rc|c m|c m|x|x val flags msec|] eqn:Ek; simpl in *; try done.
  - destruct Hko as [_ Hwc]. specialize (Hwc Hw). apply wpe_bind. eapply we_get_thread; [done|done|].
    apply wpe_bind. eapply we_get_t; [done|]. rewrite Hwc. specialize (Hin _ eq_refl). simpl in Hin.
    destruct (conds s !! c) as [q|] eqn:Hc; [|by apply not_elem_of_nil in Hin].
    assert (c <> 0) as Hc0 by (intros ->; by rewrite (b_cond _ _ _ Hb) in Hc). rewrite (proj2 (Z.eqb_neq c 0)) by done.
    apply wpe_bind, we_get. apply wpe_bind. eapply we_some; [done|]. apply wpe_bind, we_modify.
    apply wpe_bind. eapply we_upd_t; [done|]. eapply timer_unblock; [done| |done|apply Hit].
    eapply wake_sync; [done|done|done|done|apply wake_like_timedout|congruence|done|done| |done| |by exists a1].
    + intros p Hp. etrans; [apply (qlist_cond s c (remove n q))|]. rewrite Ek. simpl.
      destruct (decide (p = PCond c)) as [->|Hpc]; [rewrite decide_True by done; simpl; by rewrite Hc|by rewrite decide_False by congruence].
    + simpl. rewrite lookup_insert_ne by done. apply Hb.
  - destruct Hko as [[ci Hx] Hwc]. specialize (Hwc Hw). destruct (Z.land flags SEM_FLAG_TIMEOUT =? 0); [done|]. simpl.
    apply wpe_bind. eapply we_get_thread; [done|done|]. apply wpe_bind. eapply we_get_t; [done|]. rewrite Hwc.
    apply wpe_bind, we_get. apply wpe_bind. eapply we_some; [done|]. apply wpe_bind, we_modify.
    apply wpe_bind. eapply we_upd_t; [done|]. eapply timer_unblock; [done| |done|apply Hit].
    eapply wake_sync; [done|done|done|done|apply wake_like_timedout|congruence|done|done| | |apply Hb|by exists a1].
    + intros p Hp. etrans; [apply (qlist_sem s x (mkSem (value ci) (remove n (s_waiting ci))))|]. rewrite Ek. simpl.
      destruct (decide (p = PSem x)) as [->|Hpc]; [rewrite decide_True by done; simpl; by rewrite Hx|by rewrite decide_False by congruence].
    + intros x' Hx'. simpl. apply lookup_insert_is_Some'. auto.
  - apply wpe_bind. eapply we_get_thread; [done|done|]. eapply (timer_unblock s0 e pend s s n nth nth); [done| |done|apply Hit].
    eapply wake_sync; [done|done|done|done|by split|congruence| |done| |done|apply Hb|by exists a1].
    + unfold core. simpl. by rewrite insert_id.
    + intros p Hp. rewrite Ek. done.
Qed.

Lemma timer_interrupt_ok s :
  inv s -> we timer_interrupt s (fun _ s' => inv s' /\ after s s').
Proof.
  intros [Hb Hl Hsw Hr]. destruct (b_events _ _ _ Hb) as (a & Ea & Hdue & Hev).
  destruct (process_events s a Ea Hdue Hl Hev) as (a' & new & Erun & Efired & Hdue' & Enew).
  apply wpe_bind, we_gets. apply wpe_bind, we_gets. apply wpe_bind. eapply we_timed; [exact Erun|].
  apply wpe_bind, we_gets. simpl. rewrite Ea. simpl. rewrite Efired, drop_app_length.
  eapply wpe_mono; [apply (we_for_each _ (in_timer s))|].
  - split; try done; [|by apply (quiet_same s s); [apply quiet_id|..]].
    destruct Hb as [Hnd Hq Ht Hm Hc Hcur Hidl _ Htid]. split; try done.
    exists a'. split; [done|]. split; [done|]. simpl. by rewrite Enew.
  - intros e pend s'. apply run_timed_ok.
  - simpl. intros _ s' [Hb' Hl' Hsw' Hr' Hq']. split; [by split|by left].
Qed.

(** ** All steps *)

Lemma runs_kont th : (match kont th with KRun => true | _ => false end) = true -> kont th = KRun.
Proof. by destruct (kont th). Qed.

Ltac own_op H :=
  repeat match type of H with
  | _ && _ = true => let H' := fresh "Ha" in apply andb_prop in H as [H H']
  end;
  repeat match goal with
  | X : negb (_ =? _) = true |- _ => apply negb_true_iff, Z.eqb_neq in X
  | X : bool_decide _ = true |- _ => apply bool_decide_eq_true_1 in X
  end;
  apply runs_kont in H.

Lemma kernel_op_ok op s :
  inv s -> op_ok op s = true -> we (kernel_op op) s (fun _ s' => inv s' /\ after s s').
Proof.
  intros Hi Hop. unfold op_ok in Hop. destruct (ts s !! current s) as [th|] eqn:Hth; [|done].
  unfold op_allowed in Hop. destruct op; simpl kernel_op.
  22: { by eapply time_interrupt_ok. }
  22: { by eapply soft_irq_ok. }
  22: { eapply resume_ok; [done|done|]. intros Hk. by rewrite Hk in Hop. }
  all: own_op Hop; pose proof (inv_running _ _ Hi Hth Hop) as Hr; pose proof (i_locks _ Hi) as Hl.
  - by eapply mutex_init_ok.
  - by eapply mutex_lock_ok.
  - apply wpe_bind. eapply mutex_unlock_ok; [done|done|rewrite Hl; apply not_elem_of_nil..|].
    intros s' th' Hr' _ Hl' _ _ _ _ _. eapply we_op_return; [done|congruence].
  - by eapply mutex_destroy_ok.
  - by eapply cond_init_ok.
  - by eapply cond_wait_ok.
  - by eapply cond_timedwait_ok.
  - by eapply cond_signal_ok.
  - by eapply cond_broadcast_ok.
  - by eapply cond_destroy_ok.
  - by eapply sem_init_ok.
  - by eapply sem_acquire_ok.
  - by eapply sem_acquire_etc_ok.
  - by eapply sem_release_ok.
  - by eapply sem_zero_ok.
  - by eapply sem_destroy_ok.
  - by eapply sleep_ok.
  - by eapply yield_ok.
  - by eapply set_priority_ok.
  - by eapply create_ok.
  - by apply timer_interrupt_ok.
Qed.

(** A sequence of steps, each of which can happen when it is its turn. *)
Fixpoint ops_ok (ops : list kop) (s : kernel) : bool :=
  match ops with
  | [] => true
  | op :: ops' =>
      op_ok op s && match kernel_op op s with Ret _ s' => ops_ok ops' s' | _ => true end
  end.

Lemma kernel_ops_ok ops s :
  inv s -> ops_ok ops s = true -> we (kernel_ops ops) s (fun _ s' => inv s').
Proof.
  revert s. induction ops as [|op ops IH]; intros s Hi Hok; [by apply wpe_ret|].
  simpl in Hok. apply andb_prop in Hok as [Hop Hok]. pose proof (kernel_op_ok op s Hi Hop) as Hw.
  unfold kernel_ops. simpl. apply wpe_bind. unfold wpe in Hw |- *. destruct (kernel_op op s); try done.
  destruct Hw as [Hi' _]. by apply IH.
Qed.
