(* ===== verification/ThreadsSpec.v ===== *)
(** * Safety and fairness of the threads

    The kernel starts in a state that satisfies the invariant and stays in it
    whatever its threads and interrupts do ([threads_safe]); a thread that is
    ready to run is not passed over for ever ([no_starvation]). *)

From S2P Require Import Prelude Timers Threads ThreadsInv ThreadsOps.

(** ** Sequences of steps *)

(** A run in which every state satisfies [P]. *)
Inductive run_through (P : kernel -> Prop) : kernel -> list kop -> kernel -> Prop :=
  | run_done s : P s -> run_through P s [] s
  | run_step s op s1 ops s' : P s -> op_ok op s = true -> kernel_op op s = Ret tt s1 ->
      run_through P s1 ops s' -> run_through P s (op :: ops) s'.

(** No realtime thread exists and [t] does not run. *)
Definition waits_turn (t : Z) (s : kernel) : Prop :=
  current s <> t /\ forall u th, ts s !! u = Some th -> is_realtime (priority th) = false.

(** The time that the threads have left, and whether the current one has used up
    its own. *)
Definition time_of (s : kernel) (t : Z) : Z :=
  match ts s !! t with Some th => Z.max 0 (ticks_left th) | None => 0 end.
Definition sum (l : list Z) (f : Z -> Z) : Z := foldr (fun t n => f t + n) 0 l.
Definition all_tids : list Z := seqZ 0 MAX_THREADS.
Definition total_time (s : kernel) : Z := sum all_tids (time_of s).
Definition used_up (s : kernel) : Z := if 0 <? time_of s (current s) then 0 else 1.

(** The most switches before everybody has used up their time. *)
Definition ROUND : Z := MAX_TICKS * MAX_THREADS + 1.

(** How many switches can still happen before [t] runs. *)
Definition patience (t : Z) (s : kernel) : Z :=
  total_time s + used_up s + (if 0 <? time_of s t then 0 else 1 + ROUND).

Definition ready_norm (t : Z) (s : kernel) : Prop :=
  exists th, ts s !! t = Some th /\ awake th /\ runq_class th = RNorm.

(** A run can be checked by running it. *)
Definition turn_check (t : Z) (s : kernel) : bool :=
  negb (current s =? t) && bool_decide (map_Forall (fun _ th => is_realtime (priority th) = false) (ts s)).
Fixpoint run_check (t : Z) (ops : list kop) (s : kernel) : option kernel :=
  if turn_check t s then
    match ops with
    | [] => Some s
    | op :: ops =>
        if op_ok op s then match kernel_op op s with Ret tt s1 => run_check t ops s1 | _ => None end else None
    end
  else None.

(** ** The initial state *)

Definition KILL_REQUEST : Z := 4096.
Definition KILL_MUTEX : Z := 8192.
Definition main_thread : thread := mkThread 7 0 THREAD_FLAG_UNDEAD 0 0 0 0 0 0 None KRun 3.
Definition idlest_thread : thread := mkThread 0 0 1040 0 0 0 0 0 0 None KRun 0.
Definition booted : kernel :=
  mkKernel (<[3 := new_thread THREAD_FLAG_KERNEL]> (<[2 := idlest_thread]> (<[1 := main_thread]> ∅)))
    3 1 2 [2] [3] [] (<[KILL_MUTEX := mkMutex 0 []]> ∅) (<[KILL_REQUEST := []]> ∅) ∅ []
    (queue_of (mkSched 0 [] [])) false 0.

Lemma booted_run : phantom_threads_init KILL_REQUEST KILL_MUTEX before_init = Ret tt booted.
Proof. vm_compute. reflexivity. Qed.

Lemma booted_threads t th :
  ts booted !! t = Some th ->
  (t = 3 /\ th = new_thread THREAD_FLAG_KERNEL) \/ (t = 2 /\ th = idlest_thread) \/ (t = 1 /\ th = main_thread).
Proof.
  simpl. intros [[<- <-]|[_ H]]%lookup_insert_Some; [auto|].
  apply lookup_insert_Some in H as [[<- <-]|[_ H]]; [auto|].
  apply lookup_insert_Some in H as [[<- <-]|[_ H]]; [auto|]. by rewrite lookup_empty in H.
Qed.

Lemma booted_queue p :
  qlist booted p = if decide (p = PRun RIdle) then [2] else if decide (p = PRun RNorm) then [3] else [].
Proof.
  destruct p as [[]|m|c|x]; simpl; try done.
  - destruct (decide (m = KILL_MUTEX)) as [->|Hne]; [by rewrite lookup_insert_eq|].
    by rewrite lookup_insert_ne, lookup_empty by auto.
  - destruct (decide (c = KILL_REQUEST)) as [->|Hne]; [by rewrite lookup_insert_eq|].
    by rewrite lookup_insert_ne, lookup_empty by auto.
Qed.

Lemma booted_ok t th : ts booted !! t = Some th -> thread_ok (mutexes booted) (sems booted) (idlest booted) t th.
Proof.
  intros [[-> ->]|[[-> ->]|[-> ->]]]%booted_threads; split; try done; unfold MAX_THREADS, MAX_TICKS; simpl; try lia; by split.
Qed.

Lemma booted_inv : inv booted.
Proof.
  split; [split| | |].
  - intros p. rewrite booted_queue. repeat case_decide; [apply NoDup_singleton..|constructor].
  - intros p t. rewrite booted_queue. split.
    + intros Hin. repeat case_decide; [apply list_elem_of_singleton in Hin as ->..|by apply not_elem_of_nil in Hin];
        subst; eexists; (split; [by vm_compute|done]).
    + intros (th & Hth & Hp). apply booted_threads in Hth as [[-> ->]|[[-> ->]|[-> ->]]];
        vm_compute in Hp; [injection Hp as <-..|done]; by left.
  - apply booted_ok.
  - intros m mi Hm. simpl in Hm. apply lookup_insert_Some in Hm as [[_ <-]|[_ Hm]]; [|by rewrite lookup_empty in Hm].
    split; [done|]. intros Ho. by destruct Ho.
  - done.
  - by eexists.
  - by eexists.
  - exists (mkSched 0 [] []). split; [done|]. split; [repeat split; constructor|]. split.
    + constructor.
    + intros e He. by apply not_elem_of_nil in He.
    + intros t th [[-> ->]|[[-> ->]|[-> ->]]]%booted_threads Hw; by destruct Hw.
  - done.
  - done.
  - intros t th [[-> ->]|[[-> ->]|[-> ->]]]%booted_threads; done.
  - intros th Hth. apply booted_threads in Hth as [[_ ->]|[[_ ->]|[_ ->]]]; done.
Qed.

(** ** Sums of time *)

Lemma sum_le l f g : (forall t, t ∈ l -> f t <= g t) -> sum l f <= sum l g.
Proof.
  induction l as [|x l IH]; intros H; simpl; [lia|].
  pose proof (H x ltac:(by left)). assert (sum l f <= sum l g) by (apply IH; intros; apply H; by right).
  unfold sum in *. lia.
Qed.

Lemma sum_lt l f g u : (forall t, t ∈ l -> f t <= g t) -> u ∈ l -> f u + 1 <= g u -> sum l f + 1 <= sum l g.
Proof.
  induction l as [|x l IH]; intros H Hu Hlt; [by apply not_elem_of_nil in Hu|]. simpl.
  assert (forall t, t ∈ l -> f t <= g t) as H' by (intros; apply H; by right).
  apply elem_of_cons in Hu as [->|Hu].
  - pose proof (sum_le l f g H'). unfold sum in *. lia.
  - pose proof (H x ltac:(by left)). pose proof (IH H' Hu Hlt). unfold sum in *. lia.
Qed.

Lemma sum_bound l f k : (forall t, f t <= k) -> sum l f <= k * Z.of_nat (length l).
Proof.
  intros H. induction l as [|x l IH]; simpl; [lia|]. pose proof (H x). unfold sum in *. lia.
Qed.

Lemma time_nonneg s t : 0 <= time_of s t.
Proof. unfold time_of. destruct (ts s !! t); lia. Qed.
Lemma total_nonneg s : 0 <= total_time s.
Proof.
  unfold total_time. transitivity (sum all_tids (fun _ => 0)); [|apply sum_le; intros; apply time_nonneg].
  generalize all_tids as l. induction l; simpl; unfold sum in *; lia.
Qed.
Lemma used_up_bounds s : 0 <= used_up s <= 1.
Proof. unfold used_up. destruct (0 <? _); lia. Qed.

Lemma total_bound over pend s : base over pend s -> total_time s + used_up s <= ROUND.
Proof.
  intros Hb. pose proof (used_up_bounds s). unfold total_time, ROUND.
  assert (sum all_tids (time_of s) <= MAX_TICKS * Z.of_nat (length all_tids)) as Hs.
  { apply sum_bound. intros t. unfold time_of. destruct (ts s !! t) as [th|] eqn:E; [|unfold MAX_TICKS; lia].
    pose proof (t_ticks _ _ _ _ _ (b_thread _ _ _ Hb _ _ E)). unfold MAX_TICKS in *. lia. }
  unfold all_tids in *. rewrite length_seqZ in Hs. unfold MAX_THREADS in *. lia.
Qed.

Lemma tid_in over pend s t th : base over pend s -> ts s !! t = Some th -> t ∈ all_tids.
Proof.
  intros Hb Ht. pose proof (t_tid _ _ _ _ _ (b_thread _ _ _ Hb _ _ Ht)). apply elem_of_seqZ. unfold MAX_THREADS in *. lia.
Qed.

(** Without a switch: nobody's time grows, and the time of those who wait stays. *)
Lemma quiet_time s s' t : quiet s s' -> time_of s' t <= time_of s t /\ (t <> current s -> time_of s' t = time_of s t).
Proof.
  intros [_ _ Ho Hn]. unfold time_of. destruct (ts s !! t) as [th|] eqn:E.
  - destruct (Ho t th E) as (th' & -> & Hk & Hp). split; [lia|]. intros Hne. by destruct (Hp Hne) as (-> & _).
  - destruct (ts s' !! t) as [th'|] eqn:E'; [|lia]. destruct (Hn t th' E' E) as [-> _]. lia.
Qed.

Lemma quiet_total over pend s s' :
  base over pend s -> quiet s s' -> total_time s' + used_up s' <= total_time s + used_up s.
Proof.
  intros Hb Hq. pose proof (q_cur _ _ Hq) as Ec. destruct (b_cur _ _ _ Hb) as [cth Hcth].
  assert (forall t, t ∈ all_tids -> time_of s' t <= time_of s t) as Hle by (intros t _; apply (quiet_time s s' t Hq)).
  pose proof (sum_le _ _ _ Hle) as Hs. unfold used_up, total_time. rewrite Ec.
  destruct (Z.ltb_spec 0 (time_of s' (current s))), (Z.ltb_spec 0 (time_of s (current s))); try lia.
  pose proof (sum_lt all_tids (time_of s') (time_of s) (current s) Hle (tid_in _ _ _ _ _ Hb Hcth)). lia.
Qed.

(** A switch uses up time, unless everybody gets new time. *)
Lemma switch_total over oth s1 s' t :
  base over [] s1 -> not_run over -> ts s1 !! current s1 = Some oth -> switched over oth s1 s' ->
  runq_rt s1 = [] -> t ∈ runq_norm s1 ->
  (total_time s' + used_up s' + 1 <= total_time s1 + used_up s1 /\ time_of s' t = time_of s1 t)
  \/ (time_of s1 t = 0 /\ 0 < time_of s' t).
Proof.
  intros Hb Hor Hoth (_ & _ & s2 & s3 & E2 & Ert & Enorm & Ec2 & Hsel & E3) Hrt Ht.
  destruct (proj1 (runq_member _ _ _ RNorm t Hb Hor) Ht) as (th & Hth & Hne & Hw & Hc).
  destruct (sel_norm _ _ _ _ _ Hsel) as (Hin & (nth & Hnth & Hntk) & Htn); [congruence|rewrite Enorm; intros En; rewrite En in Ht; by apply not_elem_of_nil in Ht|].
  assert (ts s2 !! t = Some th) as Hth2 by (rewrite E2, lookup_insert_ne by auto; done).
  assert (forall u, time_of s2 u = if decide (u = current s1) then Z.max 0 (ticks_left oth - 1) else time_of s1 u) as Et2.
  { intros u. unfold time_of. rewrite E2. case_decide as Hu; [subst; by rewrite lookup_insert_eq|by rewrite lookup_insert_ne by auto]. }
  assert (time_of s1 (current s1) = Z.max 0 (ticks_left oth)) as Ecur by (unfold time_of; by rewrite Hoth).
  destruct Htn as [Es|[Hno Hg]].
  - left. assert (forall u, time_of s' u = time_of s2 u) as Et' by (intros u; unfold time_of; by rewrite E3, Es).
    split; [|rewrite Et', Et2; by rewrite decide_False].
    assert (used_up s' = 0) as ->.
    { unfold used_up, time_of. rewrite E3, Hnth. by rewrite (proj2 (Z.ltb_lt _ _)) by lia. }
    assert (forall u, u ∈ all_tids -> time_of s' u <= time_of s1 u) as Hle.
    { intros u _. rewrite Et', Et2. case_decide; [subst; lia|done]. }
    pose proof (sum_le _ _ _ Hle) as Hs. unfold total_time, used_up. rewrite Ecur.
    destruct (Z.ltb_spec 0 (Z.max 0 (ticks_left oth))) as [Hk|Hk]; [|lia].
    pose proof (sum_lt all_tids (time_of s') (time_of s1) (current s1) Hle (tid_in _ _ _ _ _ Hb Hoth)) as Hlt.
    spec Hlt; [|lia]. rewrite Et', Et2, decide_True by done. lia.
  - right. rewrite <-Enorm in Ht. specialize (Hno t Ht). split.
    + unfold time_of. rewrite Hth. destruct (Z_lt_le_dec 0 (ticks_left th)); [|lia]. destruct Hno. by exists th.
    + unfold time_of. rewrite E3, (Hg t), decide_True by (by right). rewrite Hth2. simpl.
      pose proof (t_prio _ _ _ _ _ (b_thread _ _ _ Hb _ _ Hth)). unfold NORM_TICKS. lia.
Qed.

Lemma norm_class th th' : priority th' = priority th -> runq_class th' = runq_class th.
Proof. unfold runq_class. by intros ->. Qed.

Lemma ready_norm_quiet t s s' : quiet s s' -> current s <> t -> ready_norm t s -> ready_norm t s'.
Proof.
  intros Hq Hne (th & Hth & Hw & Hc). destruct (q_old _ _ Hq t th Hth) as (th' & Hth' & _ & Hp).
  destruct (Hp ltac:(auto)) as (_ & Ep & Hw'). exists th'. split; [done|]. split; [auto|]. by rewrite (norm_class th th').
Qed.

Lemma patience_step t s op s' :
  inv s -> op_ok op s = true -> kernel_op op s = Ret tt s' -> waits_turn t s -> ready_norm t s ->
  inv s' /\ (current s' <> t -> ready_norm t s' /\ cnt_thread_sw s' + patience t s' <= cnt_thread_sw s + patience t s).
Proof.
  intros Hi Hop Hrun [Hne Hnrt] Hready. pose proof (kernel_op_ok op s Hi Hop) as Hw. unfold wpe in Hw. rewrite Hrun in Hw.
  destruct Hw as [Hi' Ha]. split; [done|]. intros Hne'. pose proof (i_base _ Hi) as Hb. pose proof (i_base _ Hi') as Hb'.
  destruct Ha as [Hq|(over & oth & s1 & Hq & Hb1 & Hor & Hoth & Hsw & Hprio)].
  - split; [by eapply ready_norm_quiet|]. rewrite (q_cnt _ _ Hq). unfold patience.
    pose proof (quiet_total _ _ _ _ Hb Hq). rewrite (proj2 (quiet_time s s' t Hq)) by auto. lia.
  - pose proof (q_cur _ _ Hq) as Ec. pose proof (ready_norm_quiet t s s1 Hq Hne Hready) as (th & Hth & Hw & Hc).
    assert (t ∈ runq_norm s1) as Ht by (apply (runq_member _ _ _ RNorm t Hb1 Hor); exists th; repeat split; try done; congruence).
    assert (runq_rt s1 = []) as Hrt.
    { destruct (runq_rt s1) as [|u q] eqn:Eq; [done|exfalso].
      destruct (proj1 (runq_member _ _ _ RRt u Hb1 Hor)) as (x & Hx & Hux & _ & Hcx); [simpl; rewrite Eq; by left|].
      apply class_rt in Hcx. destruct (ts s !! u) as [y|] eqn:Ey.
      - destruct (q_old _ _ Hq u y Ey) as (x' & Hx' & _ & Hp). destruct (Hp ltac:(congruence)) as (_ & Ep & _).
        rewrite Hx in Hx'. injection Hx' as <-. rewrite Ep, (Hnrt u y Ey) in Hcx. done.
      - destruct (q_new _ _ Hq u x Hx Ey) as [_ Hx']. congruence. }
    split.
    + destruct Hsw as (_ & _ & s2 & s3 & E2 & _ & _ & _ & Hsel & E3).
      destruct (only_ticks_lookup _ _ t th (sel_ticks _ _ _ _ _ Hsel)) as [k Hk]; [rewrite E2, lookup_insert_ne by congruence; done|].
      exists (set_ticks k th). by rewrite E3.
    + pose proof (quiet_total _ _ _ _ Hb Hq) as Htot. pose proof (proj2 (quiet_time s s1 t Hq) ltac:(auto)) as Et.
      pose proof Hsw as [Ecnt _]. rewrite Ecnt, (q_cnt _ _ Hq). pose proof (total_bound _ _ _ Hb').
      pose proof (total_nonneg s). pose proof (used_up_bounds s). unfold patience.
      destruct (switch_total over oth s1 s' t Hb1 Hor Hoth Hsw Hrt Ht) as [[Hdec Et']|[Ez Hpos]].
      * rewrite Et', Et. lia.
      * rewrite <-Et, Ez. rewrite (proj2 (Z.ltb_lt _ _) Hpos). simpl. lia.
Qed.

Lemma run_through_first P s ops s' : run_through P s ops s' -> P s.
Proof. by destruct 1. Qed.

Lemma patience_run t s ops s' :
  run_through (waits_turn t) s ops s' -> inv s -> ready_norm t s ->
  cnt_thread_sw s' + patience t s' <= cnt_thread_sw s + patience t s.
Proof.
  induction 1 as [s HP|s op s1 ops s' HP Hop Hrun Hr IH]; intros Hi Hready; [lia|].
  destruct (patience_step t s op s1 Hi Hop Hrun HP Hready) as [Hi1 Hstep].
  destruct Hstep as [Hready1 Hle]; [by apply (run_through_first _ _ _ _ Hr)|]. specialize (IH Hi1 Hready1). lia.
Qed.

Lemma patience_bound t s : inv s -> patience t s <= 2 * ROUND + 1.
Proof.
  intros Hi. pose proof (total_bound _ _ _ (i_base _ Hi)). unfold patience.
  destruct (0 <? time_of s t); unfold ROUND, MAX_TICKS, MAX_THREADS in *; lia.
Qed.

Lemma patience_nonneg t s : 0 <= patience t s.
Proof.
  pose proof (total_nonneg s). pose proof (used_up_bounds s). unfold patience, ROUND, MAX_TICKS, MAX_THREADS.
  destruct (0 <? time_of s t); lia.
Qed.

Lemma turn_check_ok t s : turn_check t s = true -> waits_turn t s.
Proof.
  intros [Hc Hr%bool_decide_eq_true]%andb_true_iff. split; [|intros u th; apply Hr].
  apply negb_true_iff in Hc. lia.
Qed.

Lemma run_check_ok t ops s s' : run_check t ops s = Some s' -> run_through (waits_turn t) s ops s'.
Proof.
  revert s. induction ops as [|op ops IH]; intros s Hr; simpl in Hr; destruct (turn_check t s) eqn:Ht; try done;
    apply turn_check_ok in Ht.
  - injection Hr as <-. by constructor.
  - destruct (op_ok op s) eqn:Hop; [|done]. destruct (kernel_op op s) as [[] s1|m|w|] eqn:E; try done.
    econstructor; eauto.
Qed.

(** ** Claims *)


(** The main thread makes a mutex, a semaphore and a condition, locks the mutex and
    is switched off; the other thread waits for the mutex, then with a timeout for the
    condition. *)
Definition ex_threads : list kop :=
  [OMutexInit 100; OSemInit 200; OCondInit 300; OMutexLock 100; OSoftIrq;
   OMutexLock 100; OMutexUnlock 100; OSoftIrq; OResume; OCondTimedwait 300 100 2; OSleep 5; OTimer; OTimer].


(** C14: No thread is passed over for ever.  A thread of normal priority that is
    ready to run is given the CPU within a bounded number of switches, whatever the
    threads and interrupts do meanwhile, as long as there are no realtime threads:
    in a run in which it never runs there are at most [2 * ROUND + 1] switches. *)
Theorem no_starvation (t : Z) (s : kernel) (ops : list kop) (s' : kernel) :
  inv s -> ready_norm t s -> run_through (waits_turn t) s ops s' ->
  cnt_thread_sw s' - cnt_thread_sw s <= 2 * ROUND + 1.
Proof.
  intros Hi Hready Hrun. pose proof (patience_run t s ops s' Hrun Hi Hready). pose proof (patience_nonneg t s').
  pose proof (patience_bound t s Hi). lia.
Qed.

(** Two more threads exist and the main one, 1, waits for its turn while 3 runs. *)
Definition ex_ready_ops : list kop := [OCreate 0; OCreate 0; OSoftIrq].
Definition ex_ready : kernel := match kernel_ops ex_ready_ops booted with Ret _ s => s | _ => booted end.
Definition ex_turns : list kop := [OTime; OSoftIrq; OSleep 4].
Definition ex_turns_end : kernel := default booted (run_check 1 ex_turns ex_ready).

Lemma ex_ready_inv : inv ex_ready.
Proof.
  assert (ops_ok ex_ready_ops booted = true) as Hops by (vm_compute; reflexivity).
  pose proof (kernel_ops_ok _ _ booted_inv Hops) as Hw. unfold wpe in Hw.
  unfold ex_ready. destruct (kernel_ops ex_ready_ops booted); [done|apply booted_inv..].
Qed.

Lemma no_starvation_witness :
  cnt_thread_sw ex_turns_end - cnt_thread_sw ex_ready = 2
  /\ cnt_thread_sw ex_turns_end - cnt_thread_sw ex_ready <= 2 * ROUND + 1.
Proof.
  split; [vm_compute; reflexivity|].
  apply (no_starvation 1 ex_ready ex_turns ex_turns_end).
  - apply ex_ready_inv.
  - eexists. split; [vm_compute; reflexivity|split; vm_compute; reflexivity].
  - apply run_check_ok. vm_compute. reflexivity.
Defined.
